(* ===== verification/_CoqProject ===== *)
-Q . S2P
Prelude.v
JsMap.v
JsString.v
JsValue.v
SharedKernel.v
Effects.v
DevBoardDomain.v
TenantContext.v
Receipts.v
Ledger.v
PlanningRows.v
PlanningStore.v
DependencyGraph.v
CommandBase.v
ProposalCommands.v
TicketCommands.v
QueueCommands.v
DependencyCommands.v
LegacyCommands.v
StoreRules.v
Board.v
Refinement.v
Reachability.v
TicketInvariant.v
QueueInvariant.v
ProposalInvariant.v
Replay.v
BoardFacts.v
ExampleBoard.v
DomainTheorems.v
KernelTheorems.v
BoardTheorems.v
JsText.v
RuntimeDomain.v
RuntimeStore.v
RuntimeInvariant.v
Authorization.v
RuntimeSql.v
RuntimeLifecycle.v
RuntimeTables.v
RuntimePostgres.v
RuntimeRefine.v
RuntimeReceipts.v
RuntimePorts.v
RuntimeAdapters.v
TaskDomain.v
ToolHarness.v
TaskTools.v
TaskToolRuns.v
RuntimeTheorems.v
LayerTheorems.v
TaskSql.v
JsJson.v
TaskInputs.v
TaskServices.v
TaskReviews.v
TaskTables.v
TaskFrame.v
TaskCommands.v
TaskInvariant.v
TaskGoverned.v
TaskDone.v
TaskHistory.v
TaskTheorems.v
IssueSql.v
IssueServices.v
IssueTables.v
IssueFrame.v
OutboxRules.v
IssueDone.v
IssueDrain.v
IssueTheorems.v
LinkTokens.v
LinkTables.v
LinkTheorems.v
BoardPostgres.v
GatewayBroker.v
GitHubIssues.v
McpServer.v
McpTheorems.v
