(* ===== verification/Prelude.v ===== *)
(** * Opzava: a verification library for its domain and application packages

    Opzava is a work-management product in which people and agents share one
    board.  Its own logic lives in the TypeScript packages under
    [src/packages]; [src/apps] are hosts around them and [src/mainframe] is a
    vendored gateway.  This library models the packages that carry the decisions
    of the product, operation by operation, and the hosts that keep state of their
    own, and proves what makes them correct.

    ** The program's parts and the files that model them

    The host language: [Prelude] (tactics, list lemmas), [JsMap] (the insertion
    ordered [Map]), [JsString] (the string built-ins and character classes),
    [JsValue] (values of type [unknown], [toISOString]), [JsText]
    ([JSON.stringify], [String(value)]), [JsJson] ([JSON.parse]), [Effects] (exceptions, the state monad [M]
    of an [async] call, weakest preconditions, the host runtime).

    The shared kernel, [packages/shared-kernel]: [SharedKernel] (results, opaque
    identifiers, money, references).  [packages/adapters/src/postgres]:
    [TenantContext] ([withTenant], [tenant-context.ts], and the error mapping of
    [errors.ts]).  [KernelTheorems] holds their properties.

    The Dev Board, [packages/dev-board]:
    - domain: [DevBoardDomain] ([dev-ticket.ts], [classification.ts],
      [change-risk-policy.ts], [proposal.ts], [command-envelope.ts]);
    - ports and in-memory adapters: [Receipts] (a class with laws and the
      repository that discharges them), [Ledger] (likewise), [PlanningRows] (the
      rows of the planning port), [PlanningStore] (every method of
      [in-memory-dev-board-planning-store.ts] over a record of its ten maps),
      [DependencyGraph] (the cycle search);
    - commands, [dev-board-planning-commands.ts]: [CommandBase] (the spine:
      receipts, replay, acceptance, savepoints, and its proof rules),
      [ProposalCommands], [TicketCommands], [QueueCommands],
      [DependencyCommands], [LegacyCommands];
    - the proofs: [StoreRules] (rules of the store), [Board] (the commands as data
      and their specification [effect]), [Refinement] (each command implements
      it), [Reachability] (the boards the commands reach, class
      [BoardInvariant]), [TicketInvariant], [QueueInvariant], [ProposalInvariant]
      (proposals and the dependency graph), [Replay] (how rows change, and
      retried commands) and [BoardFacts] (the invariants), [ExampleBoard] (a concrete history), and the properties in
      [BoardTheorems] and [DomainTheorems];
    - PostgreSQL: [BoardPostgres] ([postgres-command-receipt-repository.ts] and
      [postgres-dev-board-ledger-append-store.ts], the tables of their migration as a
      reference driver, and the proof that they are the in-memory adapters).

    Runtime Control, [packages/runtime-control]:
    - [RuntimeDomain] ([domain/assistant.ts], the port's inputs and answers),
      [RuntimeStore] (every method of the in-memory conversation store),
      [RuntimeInvariant] (its invariant, the change one call and many calls make);
    - [RuntimeSql] (rows, their decoding and the statements), [RuntimeLifecycle]
      ([assistant-conversation-lifecycle.ts]), [RuntimeTables] (a reference driver
      that gives each statement the meaning of its text over tables),
      [RuntimeReceipts] ([assistant-conversation-outcomes.ts] and the receipts of
      tool calls), [RuntimeRefine] (the layer over those tables);
    - [RuntimePostgres] (every method of the PostgreSQL conversation store),
      [RuntimePorts] (the store port as a class, with the two adapters as
      instances), [RuntimeAdapters] (histories of calls through it);
    - [ToolHarness] ([tool-execution-harness.ts]) and [TaskTools]
      ([task-tools.ts]) over [TaskDomain], with [TaskToolRuns];
    - [Authorization]: [packages/ports/src/authorization.ts], its contract, and
      the role-key ports of Runtime Control and Project Management;
    - the properties, in [RuntimeTheorems] and [LayerTheorems].

    Project Management, [packages/project-management]:
    - tasks: [TaskDomain] ([domain/task.ts] and [TaskDto]), [TaskSql] (the rows
      and statements of [application/tasks.ts]), [TaskInputs] (its inputs and
      normalizers), [TaskServices] and [TaskReviews] (every service of it, with
      the audit of rejected attempts), [TaskTables] (a reference driver for its
      statements, row security and constraints included);
    - their proofs: [TaskFrame] and [TaskCommands] (which statements a service may
      send), [TaskInvariant] (what each statement changes), [TaskGoverned] (what
      the services have read when they write), [TaskDone] (how a task becomes
      Done), [TaskHistory] (what every history keeps, and the
      concrete board [TaskExample]), and the properties in [TaskTheorems];
    - issues: [IssueSql] (the tracker port, [ports/src/issue-tracker.ts], and the
      rows, statements and normalizers of [application/issues.ts]),
      [IssueServices] (its services, and [task-done-close.ts]), [IssueTables] (a
      reference driver for its statements, beside the task tables);
    - their proofs: [IssueFrame] (what a service can move), [OutboxRules] (the
      state machine of the close outbox), [IssueDone] (creation keys, and the
      services of tasks lifted to these tables), [IssueDrain] (progress of a
      worker), and the properties, with a concrete outbox, in [IssueTheorems].

    Identity and access, [packages/identity-access]: [LinkTokens]
    ([application/link-tokens.ts], and [assertCurrentUser] of
    [packages/adapters/src/postgres/identity-context.ts]), [LinkTables] (a
    reference driver for its statements, with the row security and constraints of
    its schema), and the properties in [LinkTheorems].

    The hosts:
    - [McpServer]: the MCP server, [apps/mcp-server/src]: the tools and their
      schemas ([McpTools], [tools.ts]) and what is registered for the token the
      process has ([server.ts]); properties in [McpTheorems];
    - [GitHubIssues]: the tracker port over the REST interface of GitHub,
      [packages/adapters/src/github/issues.ts], with its properties;
    - [GatewayBroker]: the connection manager of the gateway broker,
      [apps/gateway-broker/src/routing], as steps of an event loop, with its
      invariant and properties.

    ** How the parts interact

    A command of the board enters [withTenant], reserves its key in the receipt
    repository, decides on the planning store, appends to the ledgers and settles
    the receipt.  The board's world is the record of those three states; the
    commands are proved against the laws of the ports and the instances discharge
    them.  An operation of Runtime Control validates its context, asks the
    authorization port, enters [withTenant] and runs statements; the tool harness
    records a call through it, runs the tool over injected task services, and
    records how it ended.  The in-memory conversation store is the specification
    of the layer and of the PostgreSQL adapter: over tables they answer and leave
    what the store answers and leaves.  The task and issue services send their
    statements to a driver, a class; their theorems are about the reference
    drivers, or hold of every driver.  Marking a task Done and recording the
    intent to close its issue share one transaction, and a worker closes the
    issues through the tracker port, during whose calls the database may move.
    The MCP server verifies a link token once and runs the task services as its
    user; [GitHubIssues] is the adapter the worker's tracker port has.

    ** What the theorems show

    - [BoardTheorems]: every board command implements its specification; retries,
      ledgers and savepoints; the invariants of reachable boards (tickets, queue
      and ranks, dependency graph); tenants are isolated, Todo is entered by an
      approval only, and a row takes one step of its state machine at most.
    - [BoardPostgres]: the PostgreSQL receipts and ledgers answer and hold what the
      in-memory ones do, for every history the database can store, up to the order
      of keys ([json_same]) that a jsonb column does not keep; and what their
      constraints refuse that the in-memory adapters do not.
    - [RuntimeTheorems], [LayerTheorems]: tool calls run once, the
      SQL layer and the two adapters refine one another, agents never finish
      tasks, authorization precedes the database, and records are a history.
    - [TaskTheorems]: a task enters Done only by a governed command, whose
      confirmation is used once; approved reviews are final, card numbers have no
      gap, creation is idempotent, organizations are isolated, and a service sends
      only its own statements.
    - [IssueTheorems]: the close outbox follows its state machine, its claims are
      fenced and a worker drains it; Done and its close intent are atomic; an
      issue is created at most once per key; references are read back.
    - [LinkTheorems]: a link token is honoured only while all it depends on is
      current, a revocation is final, and what is issued verifies.
    - [McpTheorems]: a call of a tool is a history of task commands of the token's
      user, and governs nothing; a server without the write scope changes
      nothing; which cards an update answers for, and what it writes back.
    - [GitHubIssues]: the requests of each method, the issues a listing answers
      and when a close is sent.
    - [GatewayBroker]: a call reaches a connected client of its own tenant, an
      idle client is disconnected in time, circuits count failures and open for the
      backoff, and the one place where a timer takes another client out of the map,
      which may then never be disconnected.
    - [DomainTheorems], [KernelTheorems]: the Change Risk policy, canonical JSON,
      the cycle search, money and the tenant guard.

    ** Bounds and fuel

    - [visit] (the cycle search) runs with [cycle_fuel], two more than the number
      of edges; [cycle_search_terminates] shows it never runs out.
    - [find_sql_state] walks at most six errors because the code stops below
      depth five; [sanitize_value] likewise has depths 0 to 3,
      [error_status] and [error_string_field] depths 0 to 5, and
      [create_attempts] two attempts.  These bounds are the code's own.
    - [json_parse] runs with twice the length of the text and one;
      [parse_value_fuel] shows that more changes nothing, and
      [json_parse_stringify] that what [JSON.stringify] writes is read back.
    - Money is checked against [Number.MAX_SAFE_INTEGER], ranks of the queue
      against the range of a PostgreSQL bigint, issue numbers against that of an
      integer, and dates against the range of [Date], as the code and the database
      check them.

    ** Parameters and hypotheses

    Code outside the repository is a parameter: [NodeRuntime] (SHA-256, UUIDs, the
    clock, [localeCompare]), [TenantDatabase], [RuntimeDriver], [BoardDriver],
    [TaskDriver], [IssueDriver] and [LinkDriver] (the PostgreSQL driver), [PostgresHost] (the input functions of
    [uuid] and [timestamptz], generated uuids, and the rows of other packages),
    [NodeDates] ([Date.parse], the text of a date), [OpaqueTexts] and
    [OpaqueNumbers] (the text and the number of values the code never stores),
    [UrlParser] ([new URL]), [ErrorTexts] ([String(error)]), [WallClock]
    ([new Date()]), [TokenHost], [TokenSecrets] and [TokenCodec] (random values and
    base64url), [SchemaFormats] (the formats of the schemas of tools),
    [QueryStrings] ([URLSearchParams]), the [fetch], the secrets vault and the
    variables of the process, [GatewayRoutingTable] (the routes), [OperatorClients]
    (what a client says of its health), [JsonNumbers] (the numbers of JSON that are no safe integers), [Jsonb] (the reading of a jsonb column), and the task services
    the tools are given.  The hypotheses that theorems make of them:
    [LocaleOrder] ([localeCompare] is a total order), [DistinctUuids] and
    [PostgresUuids] (UUIDs are UUIDs, are printed in one form and do not repeat),
    [admitted] (the tenant session and the authorization port accept the call),
    [tables_ok] (the rows can be read back), [json_faithful] and [json_stable] (the
    database gives this payload back as it was, its order of keys included),
    [services_sound] (task services answer identifiers that are not blank),
    [TokenCodecLaws] and [TokenSecretLaws] (base64url is inverted and has its
    alphabet), [expiries_readable] and [host_reads] (the host reads back the times
    it writes),
    [tracker_moves] (what runs while the tracker is called respects the relation
    that is proved), [worker_ready] (a worker is let in and its tracker answers),
    [history_storable] (the rows a history makes satisfy the constraints of its
    tables, its identifiers are in the form the database prints, and a jsonb column
    gives a value back with the keys of its objects in any order),
    [started] (the server was made with a token that verified), [listable] (the
    entries of a listing are issues or pull requests), [RoutingTableLaws] (a table gives a
    route under its own identifier; the table of the code does).

    ** Conventions of the model

    - A string holds the UTF-16 code units below 256; an object is the list of
      its properties in order of creation; an integer is [Z], range checks written out.
    - Calls run one at a time inside a transaction; [now()] reads one time per
      transaction.  In [GatewayBroker], whose methods interleave, a step is what
      runs between two waits; its random jitter is a rational number.  An exception keeps the state it leaves, unless the code or
      the transaction rolls it back.
    - [DomainError] leaves out [cause], except in the tool harness, which reads
      it: there an error travels with its cause ([ToolError]).

    ** Not modelled

    The planning store of the PostgreSQL adapters of the Dev Board: statements whose
    behaviour is the database's.  The rest of identity and access, the object store and the secrets
    vault, the protocol of the MCP server, the operator client and the HTTP server
    of the gateway broker, the web application and the workers are hosts of
    third-party services (authentication, HTTP, WebSocket, Docker).  [src/mainframe] is
    vendored.  [PROJECT.json] lists every part. *)
From Stdlib Require Export ZArith Lia.
From stdpp Require Export base tactics option list strings pretty sorting relations.

(** ** Hint database of the development *)
Create HintDb opzava discriminated.

(** ** Tactics *)

(** Splits every boolean conjunction, disjunction and test of the context into
    the proposition it decides. *)
Ltac bool_step :=
  match goal with
  | H : _ && _ = true |- _ => apply andb_prop in H as [? ?]
  | H : _ || _ = false |- _ => apply orb_false_elim in H as [? ?]
  | H : negb _ = true |- _ => apply negb_true_iff in H
  | H : negb _ = false |- _ => apply negb_false_iff in H
  | H : bool_decide _ = true |- _ => apply bool_decide_eq_true_1 in H
  | H : bool_decide _ = false |- _ => apply bool_decide_eq_false_1 in H
  | H : (_ =? _)%Z = true |- _ => apply Z.eqb_eq in H
  | H : (_ =? _)%Z = false |- _ => apply Z.eqb_neq in H
  | H : (_ <=? _)%Z = true |- _ => apply Z.leb_le in H
  | H : (_ <=? _)%Z = false |- _ => apply Z.leb_gt in H
  | H : (_ <? _)%Z = true |- _ => apply Z.ltb_lt in H
  | H : (_ <? _)%Z = false |- _ => apply Z.ltb_ge in H
  | H : (_ >? _)%Z = true |- _ => rewrite Z.gtb_ltb in H
  | H : (_ >? _)%Z = false |- _ => rewrite Z.gtb_ltb in H
  end.
Ltac bool_hyps := repeat (bool_step; simplify_eq/=).

(** ** Generic lemmas on lists and options *)

(** [f] applied to every element, failing as soon as one application fails:
    [Array.prototype.map] of a function that may throw. *)
Fixpoint map_option {A B} (f : A → option B) (l : list A) : option (list B) :=
  match l with
  | [] => Some []
  | x :: l =>
      match f x, map_option f l with
      | Some y, Some ys => Some (y :: ys)
      | _, _ => None
      end
  end.

(** The index of the first element that satisfies [p]:
    [Array.prototype.findIndex], with [None] for [-1]. *)
Fixpoint find_index {A} (p : A → bool) (l : list A) : option nat :=
  match l with
  | [] => None
  | x :: l => if p x then Some 0 else S <$> find_index p l
  end.

(** [orderedIds.splice(index, 0, x)]: [x] inserted before position [index]. *)
Definition insert_at {A} (index : nat) (x : A) (l : list A) : list A :=
  take index l ++ x :: drop index l.

Lemma map_option_Forall2 {A B} (f : A → option B) l ys :
  map_option f l = Some ys ↔ Forall2 (λ x y, f x = Some y) l ys.
Proof.
  revert ys; induction l as [|x l IH]; intros ys; simpl.
  - split; [intros [= <-]; constructor | by inversion 1].
  - split.
    + intros H. repeat case_match; simplify_eq. constructor; [done|]. by apply IH.
    + inversion 1 as [|? y ? ys' Hx Hl]; subst. rewrite Hx. apply IH in Hl. by rewrite Hl.
Qed.

Lemma find_index_Some {A} (p : A → bool) l i :
  find_index p l = Some i →
  ∃ x, l !! i = Some x ∧ p x = true ∧ ∀ j y, j < i → l !! j = Some y → p y = false.
Proof.
  revert i; induction l as [|x l IH]; intros i Hi; simplify_eq/=.
  destruct (p x) eqn:Hp; simplify_eq/=.
  - exists x. split_and!; try done. lia.
  - apply fmap_Some in Hi as (j & Hj & ->). destruct (IH j Hj) as (y & Hy & Hpy & Hlt).
    exists y. split_and!; try done.
    intros [|k] z Hk Hz; simplify_eq/=; [done|]. apply (Hlt k); [lia|done].
Qed.

Lemma insert_at_Permutation {A} i (x : A) l : insert_at i x l ≡ₚ x :: l.
Proof.
  unfold insert_at. rewrite <-Permutation_middle. by rewrite take_drop.
Qed.

Lemma elem_of_insert_at {A} i (x y : A) l : y ∈ insert_at i x l ↔ y = x ∨ y ∈ l.
Proof. rewrite (insert_at_Permutation i x l). apply elem_of_cons. Qed.
