(* ===== verification/JsMap.v ===== *)
(** * Insertion-ordered maps with string keys

    The JavaScript [Map<string, V>] every in-memory adapter keeps its rows in: a
    list of entries in insertion order.  [set] on a present key replaces the
    value in place, [set] on an absent key appends, [delete] keeps the order of
    the other entries.  The iteration order is observable in the code
    ([...map.values()]), so the model is a list and not a finite map. *)
From S2P Require Import Prelude.

Abbreviation jsmap V := (list (string * V)%type).

Section jsmap.
Context {V : Type}.
Implicit Types (m : jsmap V) (k : string) (v : V).

Fixpoint jm_get k m : option V :=
  match m with
  | [] => None
  | (k', v) :: m => if String.eqb k k' then Some v else jm_get k m
  end.

Definition jm_has k m : bool := match jm_get k m with Some _ => true | None => false end.

Fixpoint jm_set k v m : jsmap V :=
  match m with
  | [] => [(k, v)]
  | (k', v') :: m => if String.eqb k k' then (k, v) :: m else (k', v') :: jm_set k v m
  end.

(** The entries left by [map.delete(k)]; the call's result is [jm_has k m]. *)
Definition jm_delete k m : jsmap V := filter (λ kv, kv.1 ≠ k) m.

Definition jm_values m : list V := m.*2.
Definition jm_keys m : list string := m.*1.

(** ** Lookup after update *)

Lemma jm_get_set k k' v m :
  jm_get k (jm_set k' v m) = if String.eqb k k' then Some v else jm_get k m.
Proof.
  induction m as [|[k0 v0] m IH]; simpl; [done|].
  destruct (String.eqb_spec k' k0) as [->|Hne]; simpl.
  - by destruct (String.eqb_spec k k0).
  - rewrite IH. destruct (String.eqb_spec k k0) as [->|]; [|done].
    by destruct (String.eqb_spec k0 k') as [->|].
Qed.

Lemma jm_get_set_eq k v m : jm_get k (jm_set k v m) = Some v.
Proof. by rewrite jm_get_set, String.eqb_refl. Qed.

Lemma jm_get_set_ne k k' v m : k ≠ k' → jm_get k (jm_set k' v m) = jm_get k m.
Proof. intros H. rewrite jm_get_set. by destruct (String.eqb_spec k k'). Qed.

Lemma jm_get_set_Some k k' v w m :
  jm_get k (jm_set k' v m) = Some w → (k = k' ∧ w = v) ∨ (k ≠ k' ∧ jm_get k m = Some w).
Proof. rewrite jm_get_set. destruct (String.eqb_spec k k'); naive_solver. Qed.

Lemma jm_get_delete k k' m :
  jm_get k (jm_delete k' m) = if String.eqb k k' then None else jm_get k m.
Proof.
  unfold jm_delete. induction m as [|[k0 v0] m IH]; [by destruct (String.eqb k k')|].
  rewrite filter_cons; simpl. case_decide as Hd; simpl.
  - rewrite IH. destruct (String.eqb_spec k k0) as [->|]; [|done].
    by destruct (String.eqb_spec k0 k') as [->|].
  - subst k0. rewrite IH. by destruct (String.eqb_spec k k').
Qed.

Lemma jm_has_get k m : jm_has k m = true ↔ is_Some (jm_get k m).
Proof.
  unfold jm_has, is_Some. destruct (jm_get k m); naive_solver.
Qed.

Lemma jm_has_false k m : jm_has k m = false ↔ jm_get k m = None.
Proof. unfold jm_has. by destruct (jm_get k m). Qed.

Lemma jm_has_set k k' v m : jm_has k (jm_set k' v m) = String.eqb k k' || jm_has k m.
Proof. unfold jm_has. rewrite jm_get_set. by destruct (String.eqb k k'). Qed.

Lemma jm_has_delete k k' m : jm_has k (jm_delete k' m) = negb (String.eqb k k') && jm_has k m.
Proof. unfold jm_has. rewrite jm_get_delete. by destruct (String.eqb k k'). Qed.

Lemma jm_get_keys k m : is_Some (jm_get k m) ↔ k ∈ jm_keys m.
Proof.
  unfold jm_keys. induction m as [|[k0 v0] m IH]; simpl.
  - rewrite elem_of_nil. split; [by intros []|done].
  - rewrite elem_of_cons. destruct (String.eqb_spec k k0) as [->|]; [naive_solver|].
    rewrite IH. naive_solver.
Qed.

(** ** Distinct keys *)

Definition jm_wf m : Prop := NoDup (jm_keys m).

Lemma jm_keys_set k v m :
  jm_keys (jm_set k v m) = if jm_has k m then jm_keys m else jm_keys m ++ [k].
Proof.
  unfold jm_has, jm_keys. induction m as [|[k0 v0] m IH]; csimpl; [done|].
  destruct (String.eqb_spec k k0) as [->|]; csimpl; [done|].
  rewrite IH. by destruct (jm_get k m).
Qed.

Lemma jm_wf_nil : jm_wf [].
Proof. constructor. Qed.

Lemma jm_wf_set k v m : jm_wf m → jm_wf (jm_set k v m).
Proof.
  unfold jm_wf. rewrite jm_keys_set. destruct (jm_has k m) eqn:Hh; [done|].
  apply jm_has_false in Hh. intros Hnd. apply NoDup_app. split_and!; [done| |apply NoDup_singleton].
  intros x Hx ->%list_elem_of_singleton. apply jm_get_keys in Hx as [v' Hv']. congruence.
Qed.

Lemma jm_wf_delete k m : jm_wf m → jm_wf (jm_delete k m).
Proof.
  unfold jm_wf, jm_keys, jm_delete. intros Hnd. induction m as [|[k0 v0] m IH]; [done|].
  rewrite fmap_cons in Hnd. apply NoDup_cons in Hnd as [Hni Hnd].
  rewrite filter_cons; simpl. case_decide; [|by apply IH].
  rewrite fmap_cons; simpl. apply NoDup_cons. split; [|by apply IH].
  intros Hin. apply Hni. apply list_elem_of_fmap in Hin as ([k1 v1] & -> & [_ Hin]%list_elem_of_filter).
  apply list_elem_of_fmap. by exists (k1, v1).
Qed.

(** ** Values *)

Lemma jm_get_entry k v m : jm_wf m → jm_get k m = Some v ↔ (k, v) ∈ m.
Proof.
  unfold jm_wf, jm_keys. induction m as [|[k0 v0] m IH]; intros Hnd; simpl.
  - rewrite elem_of_nil. naive_solver.
  - rewrite fmap_cons in Hnd. apply NoDup_cons in Hnd as [Hni Hnd]. simpl in *.
    rewrite elem_of_cons. destruct (String.eqb_spec k k0) as [->|Hne].
    + split; [intros [= ->]; by left|]. intros [[= ->]|Hin]; [done|].
      destruct Hni. apply list_elem_of_fmap. by exists (k0, v).
    + rewrite IH by done. naive_solver.
Qed.

Lemma elem_of_jm_values v m : jm_wf m → v ∈ jm_values m ↔ ∃ k, jm_get k m = Some v.
Proof.
  intros Hwf. unfold jm_values. rewrite list_elem_of_fmap. split.
  - intros ([k v'] & -> & Hin). exists k. by apply jm_get_entry.
  - intros [k Hk]. exists (k, v). split; [done|]. by apply jm_get_entry.
Qed.

Lemma jm_get_values k v m : jm_get k m = Some v → v ∈ jm_values m.
Proof.
  unfold jm_values. induction m as [|[k0 v0] m IH]; simpl; [done|].
  rewrite elem_of_cons. destruct (String.eqb k k0); naive_solver.
Qed.

Lemma jm_values_set_fresh k v m : jm_get k m = None → jm_values (jm_set k v m) = jm_values m ++ [v].
Proof.
  unfold jm_values. induction m as [|[k0 v0] m IH]; csimpl; [done|].
  destruct (String.eqb_spec k k0) as [->|]; csimpl; intros H; [done|]. by rewrite IH.
Qed.

Lemma elem_of_jm_values_set k v w m : w ∈ jm_values (jm_set k v m) → w = v ∨ w ∈ jm_values m.
Proof.
  unfold jm_values. induction m as [|[k0 v0] m IH]; simpl.
  - rewrite list_elem_of_singleton. by left.
  - destruct (String.eqb k k0); simpl; rewrite !elem_of_cons; naive_solver.
Qed.

Lemma jm_set_twice k v v' m : jm_set k v' (jm_set k v m) = jm_set k v' m.
Proof.
  induction m as [|[k0 v0] m IH]; simpl.
  - by rewrite String.eqb_refl.
  - destruct (String.eqb_spec k k0) as [->|Hne]; simpl.
    + by rewrite String.eqb_refl.
    + apply String.eqb_neq in Hne. rewrite Hne. by rewrite IH.
Qed.

Lemma jm_set_id k v m : jm_get k m = Some v → jm_set k v m = m.
Proof.
  induction m as [|[k0 v0] m IH]; simpl; [done|].
  destruct (String.eqb_spec k k0) as [->|]; intros H; [naive_solver|]. by rewrite IH.
Qed.

(** Replacing the value of a present key keeps every position: the values are
    rewritten in place. *)
Lemma jm_set_present k v m : is_Some (jm_get k m) → jm_keys (jm_set k v m) = jm_keys m.
Proof. intros H. rewrite jm_keys_set. by apply jm_has_get in H as ->. Qed.

End jsmap.

#[export] Hint Resolve jm_wf_nil jm_wf_set jm_wf_delete : opzava.
