(* ===== verification/JsString.v ===== *)
(** * JavaScript strings

    A JavaScript string is modelled by a Rocq [string] whose characters are the
    UTF-16 code units below 256 (Latin-1).  This file holds the string built-ins
    the sources call: [trim], [replace(/\s+/g, " ")], [toUpperCase],
    [toLowerCase], [startsWith], [JSON.stringify] of a string, decimal digits
    and the UUID pattern; and the laws the components rely on. *)
From S2P Require Import Prelude.
From Stdlib Require Import Ascii.
Local Open Scope char_scope.

(** ** White space *)

(** [\s] and the characters [trim] removes, restricted to code units below 256:
    TAB, LF, VT, FF, CR, SPACE and NO-BREAK SPACE. *)
Definition js_space (c : ascii) : bool :=
  let n := nat_of_ascii c in
  ((9 <=? n) && (n <=? 13) || (n =? 32) || (n =? 160))%nat.

Fixpoint trim_start (s : string) : string :=
  match s with
  | EmptyString => EmptyString
  | String c s' => if js_space c then trim_start s' else s
  end.

Fixpoint trim_end (s : string) : string :=
  match s with
  | EmptyString => EmptyString
  | String c s' =>
      match trim_end s' with
      | EmptyString => if js_space c then EmptyString else String c EmptyString
      | r => String c r
      end
  end.

(** [String.prototype.trim] *)
Definition trim (s : string) : string := trim_end (trim_start s).

Fixpoint collapse_from (in_space : bool) (s : string) : string :=
  match s with
  | EmptyString => EmptyString
  | String c s' =>
      if js_space c
      then if in_space then collapse_from true s' else String " " (collapse_from true s')
      else String c (collapse_from false s')
  end.

(** [s.replace(/\s+/g, " ")] *)
Definition collapse_spaces (s : string) : string := collapse_from false s.

(** [value.trim().replace(/\s+/g, " ")] *)
Definition normalize_spaces (s : string) : string := collapse_spaces (trim s).

(** ** Case mapping *)

Definition ascii_between (lo hi c : ascii) : bool :=
  (nat_of_ascii lo <=? nat_of_ascii c)%nat && (nat_of_ascii c <=? nat_of_ascii hi)%nat.

(** [toLowerCase] of one code unit below 256. *)
Definition lower_char (c : ascii) : ascii :=
  let n := nat_of_ascii c in
  if ascii_between "A" "Z" c || ((192 <=? n) && (n <=? 222) && negb (n =? 215))%nat
  then ascii_of_nat (n + 32) else c.

Fixpoint to_lower (s : string) : string :=
  match s with
  | EmptyString => EmptyString
  | String c s => String (lower_char c) (to_lower s)
  end.

(** [toUpperCase] of one code unit below 256: sharp s becomes SS; the micro sign
    and y with diaeresis, whose upper case is above 255, are kept. *)
Definition upper_char (c : ascii) : string :=
  let n := nat_of_ascii c in
  if (n =? 223)%nat then "SS"%string
  else if ascii_between "a" "z" c || ((224 <=? n) && (n <=? 254) && negb (n =? 247))%nat
  then String (ascii_of_nat (n - 32)) EmptyString else String c EmptyString.

Fixpoint to_upper (s : string) : string :=
  match s with
  | EmptyString => EmptyString
  | String c s => (upper_char c +:+ to_upper s)%stdpp
  end.

(** ** Membership, prefixes and patterns *)

Fixpoint string_forall (p : ascii → bool) (s : string) : bool :=
  match s with
  | EmptyString => true
  | String c s => p c && string_forall p s
  end.

(** [s.startsWith(p)] *)
Definition starts_with (p s : string) : bool := String.prefix p s.

Definition is_hex (c : ascii) : bool :=
  ascii_between "0" "9" c || ascii_between "a" "f" c || ascii_between "A" "F" c.

(** A regular expression that is a sequence of character classes, anchored at
    both ends. *)
Fixpoint matches_classes (cs : list (ascii → bool)) (s : string) : bool :=
  match cs, s with
  | [], EmptyString => true
  | p :: cs, String c s => p c && matches_classes cs s
  | _, _ => false
  end.

(** ** JSON.stringify of a string *)

Definition hex_digit (n : nat) : ascii :=
  ascii_of_nat (if n <? 10 then 48 + n else 87 + n)%nat.

(** The escape of one code unit: quotation mark and backslash, the five short
    escapes, and the \u00XX form of the other control characters. *)
Definition json_escape (c : ascii) : string :=
  let n := nat_of_ascii c in
  let bs := "\"%char in
  match n with
  | 8 => String bs "b"
  | 9 => String bs "t"
  | 10 => String bs "n"
  | 12 => String bs "f"
  | 13 => String bs "r"
  | 34 => String bs (String c EmptyString)
  | 92 => String bs (String c EmptyString)
  | _ =>
      if (n <? 32)%nat
      then String bs ("u00" +:+ String (hex_digit (n / 16)) (String (hex_digit (n mod 16)) EmptyString))
      else String c EmptyString
  end%string.

Definition dquote : ascii := ascii_of_nat 34.

Fixpoint json_body (s : string) : string :=
  match s with
  | EmptyString => EmptyString
  | String c s => json_escape c +:+ json_body s
  end.

Definition json_quote (s : string) : string :=
  String dquote (json_body s +:+ String dquote EmptyString).

(** [parts.join(separator)] *)
Fixpoint join (sep : string) (parts : list string) : string :=
  match parts with
  | [] => EmptyString
  | [p] => p
  | p :: ps => p +:+ sep +:+ join sep ps
  end.

(** ** Laws of concatenation *)

Lemma string_app_nil_l s : (EmptyString +:+ s)%stdpp = s.
Proof. reflexivity. Qed.

Lemma string_app_cons c s t : (String c s +:+ t)%stdpp = String c (s +:+ t)%stdpp.
Proof. reflexivity. Qed.

Lemma string_app_nil_r s : (s +:+ EmptyString)%stdpp = s.
Proof. induction s as [|c s IH]; [done|]. by rewrite string_app_cons, IH. Qed.

Lemma string_app_assoc s t u : ((s +:+ t) +:+ u)%stdpp = (s +:+ t +:+ u)%stdpp.
Proof. induction s as [|c s IH]; [done|]. by rewrite !string_app_cons, IH. Qed.

Lemma string_forall_impl (p q : ascii → bool) s :
  (∀ c, p c = true → q c = true) → string_forall p s = true → string_forall q s = true.
Proof.
  intros Hpq. induction s as [|c s IH]; simpl; [done|]. intros [??]%andb_true_iff.
  apply andb_true_iff; auto.
Qed.

Lemma string_forall_app p s t : string_forall p (s +:+ t)%stdpp = string_forall p s && string_forall p t.
Proof. induction s as [|c s IH]; [done|]. rewrite string_app_cons. simpl. by rewrite IH, andb_assoc. Qed.

Lemma string_app_inv_l s t u : (s +:+ t = s +:+ u)%stdpp → t = u.
Proof. apply (inj _). Qed.

Lemma starts_with_app p s : starts_with p s = true ↔ ∃ r, s = (p +:+ r)%stdpp.
Proof.
  unfold starts_with. revert s. induction p as [|c p IH]; intros s.
  - split; [|by destruct s]. intros _. by exists s.
  - destruct s as [|d s]; simpl.
    + split; [done|]. intros [r Hr]. by rewrite string_app_cons in Hr.
    + destruct (ascii_dec c d) as [->|Hne].
      * rewrite IH. split; intros [r Hr]; exists r; rewrite string_app_cons in *; by simplify_eq.
      * split; [done|]. intros [r Hr]. rewrite string_app_cons in Hr. by simplify_eq.
Qed.

(** Two strings split at the first occurrence of a separator the left parts do
    not hold. *)
Lemma separator_inj (sep : ascii) s s' t t' :
  string_forall (λ c, negb (Ascii.eqb c sep)) s = true →
  string_forall (λ c, negb (Ascii.eqb c sep)) s' = true →
  (s +:+ String sep t = s' +:+ String sep t')%stdpp → s = s' ∧ t = t'.
Proof.
  revert s'. induction s as [|c s IH]; intros [|c' s'] Hs Hs' Heq; simpl in *;
    rewrite ?string_app_cons, ?string_app_nil_l in Heq; simplify_eq; bool_hyps.
  - done.
  - by rewrite Ascii.eqb_refl in *.
  - by rewrite Ascii.eqb_refl in *.
  - naive_solver.
Qed.

(** ** Laws of trim and of white-space normalisation *)

(** The code units that are not white space, in order. *)
Fixpoint strip_spaces (s : string) : string :=
  match s with
  | EmptyString => EmptyString
  | String c s => if js_space c then strip_spaces s else String c (strip_spaces s)
  end.

(** No white space other than single spaces between other characters;
    [in_space] tells whether the previous character was a space. *)
Fixpoint single_spaced (in_space : bool) (s : string) : bool :=
  match s with
  | EmptyString => true
  | String c s =>
      if js_space c then negb in_space && Ascii.eqb c " " && single_spaced true s
      else single_spaced false s
  end.

Lemma trim_start_idemp s : trim_start (trim_start s) = trim_start s.
Proof. induction s as [|c s IH]; simpl; [done|]. destruct (js_space c) eqn:E; simpl; [done|]. by rewrite E. Qed.

Lemma trim_end_idemp s : trim_end (trim_end s) = trim_end s.
Proof.
  induction s as [|c s IH]; simpl; [done|].
  destruct (trim_end s) as [|d r] eqn:E; simpl in *.
  - destruct (js_space c) eqn:Ec; simpl; [done|]. by rewrite Ec.
  - by rewrite IH.
Qed.

Lemma trim_start_trim_end s : trim_start s = s → trim_start (trim_end s) = trim_end s.
Proof.
  destruct s as [|c s]; simpl; [done|]. destruct (js_space c) eqn:E.
  - intros H. exfalso. assert (∀ t, String.length (trim_start t) <= String.length t)%nat as Hlen.
    { intros t. induction t as [|d t IH]; simpl; [lia|]. destruct (js_space d); simpl; lia. }
    specialize (Hlen s). rewrite H in Hlen. simpl in Hlen. lia.
  - intros _. destruct (trim_end s); simpl; by rewrite E.
Qed.

Lemma trim_idemp s : trim (trim s) = trim s.
Proof.
  unfold trim. rewrite trim_start_trim_end by apply trim_start_idemp.
  apply trim_end_idemp.
Qed.

Lemma trim_end_cons_inv c s :
  trim_end (String c s) = String c s → trim_end s = s ∧ (s = EmptyString → js_space c = false).
Proof. simpl. destruct (trim_end s) eqn:E; destruct (js_space c) eqn:Ec; naive_solver. Qed.

Lemma collapse_nonempty b s :
  trim_end s = s → s ≠ EmptyString → collapse_from b s ≠ EmptyString.
Proof.
  revert b. induction s as [|c s IH]; intros b Ht Hne; [done|].
  apply trim_end_cons_inv in Ht as [Ht Hlast]. simpl.
  destruct (js_space c) eqn:E; [|done]. destruct b; [|done].
  apply IH; [done|]. intros ->. by specialize (Hlast eq_refl).
Qed.

Lemma trim_end_collapse b s : trim_end s = s → trim_end (collapse_from b s) = collapse_from b s.
Proof.
  revert b. induction s as [|c s IH]; intros b Ht; [done|].
  pose proof Ht as [Ht' Hlast]%trim_end_cons_inv. simpl.
  destruct (js_space c) eqn:E.
  - destruct b; [by apply IH|]. simpl. rewrite IH by done.
    destruct (collapse_from true s) eqn:Hc; [|done].
    exfalso. apply (collapse_nonempty true s); [done| |done].
    intros ->. by specialize (Hlast eq_refl).
  - simpl. rewrite IH by done. destruct (collapse_from false s); [by rewrite E|done].
Qed.

Lemma trim_start_collapse s : trim_start s = s → trim_start (collapse_spaces s) = collapse_spaces s.
Proof.
  unfold collapse_spaces. destruct s as [|c s]; simpl; [done|].
  destruct (js_space c) eqn:E; simpl; [|by rewrite E].
  intros H. exfalso. assert (trim_start (trim_start s) = String c s) as H'
    by (by rewrite trim_start_idemp).
  rewrite H in H'. simpl in H'. rewrite E in H'.
  assert (∀ t, String.length (trim_start t) <= String.length t)%nat as Hlen.
  { intros t. induction t as [|d t IH]; simpl; [lia|]. destruct (js_space d); simpl; lia. }
  specialize (Hlen s). rewrite H in Hlen. simpl in Hlen. lia.
Qed.

Lemma single_spaced_collapse b s : single_spaced b (collapse_from b s) = true.
Proof.
  revert b. induction s as [|c s IH]; intros b; simpl; [done|].
  destruct (js_space c) eqn:E; [destruct b; simpl; by rewrite ?IH|]. simpl. by rewrite E, IH.
Qed.

Lemma collapse_single_spaced b s : single_spaced b s = true → collapse_from b s = s.
Proof.
  revert b. induction s as [|c s IH]; intros b; simpl; [done|].
  destruct (js_space c); intros H; bool_hyps.
  - match goal with H : Ascii.eqb _ _ = true |- _ => apply Ascii.eqb_eq in H as -> end. by rewrite IH.
  - by rewrite IH.
Qed.

Lemma normalize_spaces_trimmed s : trim (normalize_spaces s) = normalize_spaces s.
Proof.
  unfold normalize_spaces. unfold trim at 1.
  rewrite trim_start_collapse.
  - apply trim_end_collapse, trim_end_idemp.
  - unfold trim. by rewrite trim_start_trim_end by apply trim_start_idemp.
Qed.

Lemma normalize_spaces_idemp s : normalize_spaces (normalize_spaces s) = normalize_spaces s.
Proof.
  unfold normalize_spaces at 1. rewrite normalize_spaces_trimmed.
  apply collapse_single_spaced, single_spaced_collapse.
Qed.

Lemma strip_spaces_collapse b s : strip_spaces (collapse_from b s) = strip_spaces s.
Proof.
  revert b. induction s as [|c s IH]; intros b; simpl; [done|].
  destruct (js_space c) eqn:E; [destruct b; simpl; by rewrite IH|]. simpl. by rewrite E, IH.
Qed.

Lemma strip_spaces_trim_end s : strip_spaces (trim_end s) = strip_spaces s.
Proof.
  induction s as [|c s IH]; simpl; [done|].
  destruct (trim_end s) eqn:Et; destruct (js_space c) eqn:E; simpl in *; rewrite ?E, <-?IH; done.
Qed.

(** Normalisation only touches white space. *)
Lemma strip_spaces_normalize s : strip_spaces (normalize_spaces s) = strip_spaces s.
Proof.
  unfold normalize_spaces, collapse_spaces, trim.
  rewrite strip_spaces_collapse, strip_spaces_trim_end.
  induction s as [|c s IH]; simpl; [done|]. destruct (js_space c) eqn:E; simpl; by rewrite ?E.
Qed.

(** A string normalises to the empty string exactly when it is white space. *)
Lemma normalize_spaces_empty s : normalize_spaces s = EmptyString ↔ string_forall js_space s = true.
Proof.
  assert (∀ t, strip_spaces t = EmptyString ↔ string_forall js_space t = true) as Hstrip.
  { intros t. induction t as [|c t IH]; simpl; [done|]. by destruct (js_space c). }
  split.
  - intros H. apply Hstrip. by rewrite <-strip_spaces_normalize, H.
  - intros H. unfold normalize_spaces, trim.
    replace (trim_start s) with EmptyString; [done|].
    induction s as [|c s IH]; simpl in *; [done|]. bool_hyps.
    destruct (js_space c); [|done]. by apply IH.
Qed.

(** ** JSON.stringify of strings can be read back *)

Definition hex_value (c : ascii) : nat :=
  let n := nat_of_ascii c in if (n <? 58)%nat then (n - 48)%nat else (n - 87)%nat.

(** Reads a string body up to its closing quotation mark; returns the string
    and the rest of the input. *)
Fixpoint json_unbody (s : string) : option (string * string) :=
  match s with
  | EmptyString => None
  | String c s =>
      if Ascii.eqb c dquote then Some (EmptyString, s)
      else if negb (Ascii.eqb c "\") then
        '(r, rest) ← json_unbody s; Some (String c r, rest)
      else match s with
      | EmptyString => None
      | String d s =>
          if Ascii.eqb d "u" then
            match s with
            | String _ (String _ (String h (String l s))) =>
                '(r, rest) ← json_unbody s;
                Some (String (ascii_of_nat (hex_value h * 16 + hex_value l)) r, rest)
            | _ => None
            end
          else
            let c' := if Ascii.eqb d "b" then ascii_of_nat 8
                      else if Ascii.eqb d "t" then ascii_of_nat 9
                      else if Ascii.eqb d "n" then ascii_of_nat 10
                      else if Ascii.eqb d "f" then ascii_of_nat 12
                      else if Ascii.eqb d "r" then ascii_of_nat 13 else d in
            '(r, rest) ← json_unbody s; Some (String c' r, rest)
      end
  end.

Lemma json_unbody_escape c s :
  json_unbody (json_escape c +:+ s)%stdpp =
    ('(r, rest) ← json_unbody s; Some (String c r, rest)).
Proof. destruct c as [[] [] [] [] [] [] [] []]; reflexivity. Qed.

Lemma json_unbody_body s r :
  json_unbody (json_body s +:+ String dquote r)%stdpp = Some (s, r).
Proof.
  induction s as [|c s IH]; [done|].
  simpl. rewrite string_app_assoc, json_unbody_escape, IH. done.
Qed.

(** A quoted string is self-delimiting: whatever follows it, the string and the
    rest are determined. *)
Lemma json_quote_inj s s' r r' :
  (json_quote s +:+ r = json_quote s' +:+ r')%stdpp → s = s' ∧ r = r'.
Proof.
  unfold json_quote. rewrite !string_app_cons, !string_app_assoc. intros [= H].
  rewrite !string_app_cons, !string_app_nil_l in H.
  assert (Some (s, r) = Some (s', r')) as [= -> ->]; [|done].
  by rewrite <-!json_unbody_body, H.
Qed.
