(* ===== verification/JsValue.v ===== *)
(** * JavaScript values of type [unknown]

    The plain values that contract contents, result summaries and command inputs
    of type [unknown] hold.  An object is the list of its own properties in
    creation order; a finite number is an integer or the text JavaScript prints
    for it; bigint, symbol and function values are one constructor, since the
    sources only reject them. *)
From S2P Require Import Prelude JsString.

Inductive jsnum : Type :=
| NInt (z : Z)              (* an integral number *)
| NFrac (text : string)     (* any other finite number, by its printed form *)
| NNonFinite.               (* NaN and the infinities *)

#[global] Instance jsnum_eq_dec : EqDecision jsnum.
Proof. solve_decision. Defined.

Inductive jsval : Type :=
| JUndefined
| JNull
| JBool (b : bool)
| JNum (n : jsnum)
| JStr (s : string)
| JArr (l : list jsval)
| JObj (o : list (string * jsval))
| JOther (kind : string).   (* bigint, symbol, function *)

(** [Readonly<Record<string, unknown>>] *)
Abbreviation jsobj := (list (string * jsval)).

(** Induction with hypotheses on the elements of arrays and objects. *)
Section jsval_ind'.
Variable P : jsval → Prop.
Hypothesis HUndefined : P JUndefined.
Hypothesis HNull : P JNull.
Hypothesis HBool : ∀ b, P (JBool b).
Hypothesis HNum : ∀ n, P (JNum n).
Hypothesis HStr : ∀ s, P (JStr s).
Hypothesis HArr : ∀ l, Forall P l → P (JArr l).
Hypothesis HObj : ∀ o, Forall (λ kv, P kv.2) o → P (JObj o).
Hypothesis HOther : ∀ k, P (JOther k).

Fixpoint jsval_ind' (v : jsval) : P v :=
  match v with
  | JUndefined => HUndefined
  | JNull => HNull
  | JBool b => HBool b
  | JNum n => HNum n
  | JStr s => HStr s
  | JArr l =>
      HArr l ((fix go (l : list jsval) : Forall P l :=
        match l with
        | [] => List.Forall_nil P
        | x :: l => List.Forall_cons P x l (jsval_ind' x) (go l)
        end) l)
  | JObj o =>
      HObj o ((fix go (o : list (string * jsval)) : Forall (λ kv, P kv.2) o :=
        match o with
        | [] => List.Forall_nil _
        | kv :: o => List.Forall_cons (λ kv, P kv.2) kv o (jsval_ind' kv.2) (go o)
        end) o)
  | JOther k => HOther k
  end.
End jsval_ind'.

(** ** Objects *)

(** [o[key]], with [undefined] for an absent property. *)
Fixpoint obj_get (key : string) (o : jsobj) : jsval :=
  match o with
  | [] => JUndefined
  | (k, v) :: o => if String.eqb key k then v else obj_get key o
  end.

(** [key in o] *)
Definition obj_has (key : string) (o : jsobj) : bool := existsb (λ kv, String.eqb key kv.1) o.

(** The object with one property (re)defined: a present property keeps its
    place, a new one comes last, as in the spread [{ ...o, key: v }]. *)
Fixpoint obj_set (key : string) (v : jsval) (o : jsobj) : jsobj :=
  match o with
  | [] => [(key, v)]
  | (k, w) :: o => if String.eqb key k then (key, v) :: o else (k, w) :: obj_set key v o
  end.

(** [{ ...o, ...o' }] *)
Definition obj_spread (o o' : jsobj) : jsobj := fold_left (λ acc kv, obj_set kv.1 kv.2 acc) o' o.

Definition js_null (A : option string) : jsval :=
  match A with Some s => JStr s | None => JNull end.

Definition is_undefined (v : jsval) : bool := match v with JUndefined => true | _ => false end.

(** [v === s] for a string [s] *)
Definition is_string (s : string) (v : jsval) : bool :=
  match v with JStr t => String.eqb t s | _ => false end.

Definition jsint (z : Z) : jsval := JNum (NInt z).

Lemma obj_get_set_eq key v o : obj_get key (obj_set key v o) = v.
Proof.
  induction o as [|[k w] o IH]; simpl; [by rewrite String.eqb_refl|].
  destruct (String.eqb key k) eqn:E; simpl; [by rewrite String.eqb_refl|]. by rewrite E.
Qed.

Lemma obj_get_set_ne key key' v o : key ≠ key' → obj_get key (obj_set key' v o) = obj_get key o.
Proof.
  intros Hne. induction o as [|[k w] o IH]; simpl.
  - by destruct (String.eqb_spec key key').
  - destruct (String.eqb_spec key' k) as [->|]; simpl.
    + by destruct (String.eqb_spec key k).
    + by rewrite IH.
Qed.

Lemma is_string_true s v : is_string s v = true ↔ v = JStr s.
Proof. destruct v; simpl; rewrite ?String.eqb_eq; naive_solver. Qed.

(** * Dates

    [Date.prototype.toISOString] on a time value in milliseconds since the
    epoch, over the proleptic Gregorian calendar.  [None] is the [RangeError] of a
    time value out of range. *)

Local Open Scope Z_scope.

(** The text of a number, padded on the left with zeros. *)
Definition pad (width : nat) (z : Z) : string :=
  let digits := pretty z in
  String.concat "" (replicate (width - String.length digits) "0") +:+ digits.

(** The number of days from the epoch to a civil date; months count from 1 and
    the year starts in March inside the computation. *)
Definition days_from_civil (year month day : Z) : Z :=
  let y := if month <=? 2 then year - 1 else year in
  let era := y / 400 in
  let yoe := y - era * 400 in
  let mp := (month + 9) mod 12 in
  let doy := (153 * mp + 2) / 5 + day - 1 in
  let doe := yoe * 365 + yoe / 4 - yoe / 100 + doy in
  era * 146097 + doe - 719468.

(** The civil date of a day number. *)
Definition civil_from_days (days : Z) : Z * Z * Z :=
  let z := days + 719468 in
  let era := z / 146097 in
  let doe := z - era * 146097 in
  let yoe := (doe - doe / 1460 + doe / 36524 - doe / 146096) / 365 in
  let doy := doe - (365 * yoe + yoe / 4 - yoe / 100) in
  let mp := (5 * doy + 2) / 153 in
  let day := doy - (153 * mp + 2) / 5 + 1 in
  let month := if mp <? 10 then mp + 3 else mp - 9 in
  (yoe + era * 400 + (if month <=? 2 then 1 else 0), month, day).

Definition ms_per_day : Z := 86400000.

Definition year_text (year : Z) : string :=
  if (0 <=? year) && (year <=? 9999) then pad 4 year
  else (if year <? 0 then "-" else "+") +:+ pad 6 (Z.abs year).

Definition toISOString (t : Z) : option string :=
  if (t <? -8640000000000000) || (8640000000000000 <? t) then None
  else
    let '(year, month, day) := civil_from_days (t / ms_per_day) in
    let ms := t mod ms_per_day in
    Some (year_text year +:+ "-" +:+ pad 2 month +:+ "-" +:+ pad 2 day +:+ "T"
          +:+ pad 2 (ms / 3600000) +:+ ":" +:+ pad 2 (ms / 60000 mod 60) +:+ ":"
          +:+ pad 2 (ms / 1000 mod 60) +:+ "." +:+ pad 3 (ms mod 1000) +:+ "Z").

Example epoch_text : toISOString 0 = Some "1970-01-01T00:00:00.000Z".
Proof. reflexivity. Qed.

Example leap_day_text : toISOString 1709210096789 = Some "2024-02-29T12:34:56.789Z".
Proof. reflexivity. Qed.

Example before_epoch_text : toISOString (-1) = Some "1969-12-31T23:59:59.999Z".
Proof. reflexivity. Qed.
