(* ===== verification/SharedKernel.v ===== *)
(** * Shared kernel ([packages/shared-kernel])

    Results and domain errors, opaque identifiers, money and opaque external
    references, as every context of the product uses them. *)
From S2P Require Import Prelude JsString JsValue.
From Stdlib Require Import Ascii.

(** ** Results ([src/result/index.ts]) *)

(** [DomainError] without its [cause]: the one reader of a cause, the tool harness,
    carries it beside the error ([ToolError]). *)
Record DomainError : Type := mkDomainError {
  error_code : string;
  error_message : string;
  error_details : option jsobj;
}.

Definition domain_error (code message : string) : DomainError :=
  mkDomainError code message None.

(** [Result<T>] with its constructors [ok] and [err]. *)
Inductive Result (T : Type) : Type :=
| ok (value : T)
| err (error : DomainError).
Arguments ok {T} value.
Arguments err {T} error.

Definition TenantAccessDeniedError : DomainError :=
  domain_error "tenant.accessDenied" "Tenant access denied.".

Definition result_ok {T} (r : Result T) : bool := match r with ok _ => true | err _ => false end.

Definition result_bind {T U} (r : Result T) (k : T → Result U) : Result U :=
  match r with ok v => k v | err e => err e end.

(** ** Opaque identifiers ([src/ids/index.ts]) *)
Module Ids.

Definition is_alnum (c : ascii) : bool :=
  ascii_between "a" "z" c || ascii_between "A" "Z" c || ascii_between "0" "9" c.

Definition is_id_char (c : ascii) : bool :=
  is_alnum c || Ascii.eqb c "_" || Ascii.eqb c "-".

(** [/^[a-zA-Z0-9][a-zA-Z0-9_-]{1,127}$/] *)
Definition opaqueIdPattern (s : string) : bool :=
  match s with
  | EmptyString => false
  | String c s =>
      is_alnum c && string_forall is_id_char s &&
      (1 <=? String.length s) && (String.length s <=? 127)
  end.

Definition invalidIdError (name : string) (value : jsval) : DomainError :=
  mkDomainError "sharedKernel.invalidId"
    (name +:+ " must be a non-empty opaque identifier containing only letters, numbers, underscores, and hyphens.")
    (Some [("name", JStr name); ("value", value)]).

Definition parseOpaqueId (name : string) (value : jsval) : Result string :=
  match value with
  | JStr s => if opaqueIdPattern s then ok s else err (invalidIdError name value)
  | _ => err (invalidIdError name value)
  end.

(** [makeOpaqueId] throws the parse error: [inr] is the thrown error. *)
Definition makeOpaqueId (name value : string) : string + DomainError :=
  match parseOpaqueId name (JStr value) with
  | ok v => inl v
  | err e => inr e
  end.

Definition makeTenantId := makeOpaqueId "TenantId".
Definition parseTenantId := parseOpaqueId "TenantId".
Definition makeOrgId := makeOpaqueId "OrgId".
Definition parseOrgId := parseOpaqueId "OrgId".
Definition makeWorkspaceId := makeOpaqueId "WorkspaceId".
Definition parseWorkspaceId := parseOpaqueId "WorkspaceId".
Definition makeProjectId := makeOpaqueId "ProjectId".
Definition parseProjectId := parseOpaqueId "ProjectId".
Definition makeUserId := makeOpaqueId "UserId".
Definition parseUserId := parseOpaqueId "UserId".
Definition makeAgentEmployeeId := makeOpaqueId "AgentEmployeeId".
Definition parseAgentEmployeeId := parseOpaqueId "AgentEmployeeId".
Definition makeTaskId := makeOpaqueId "TaskId".
Definition parseTaskId := parseOpaqueId "TaskId".

Lemma parseOpaqueId_ok name value s :
  parseOpaqueId name value = ok s ↔ value = JStr s ∧ opaqueIdPattern s = true.
Proof.
  unfold parseOpaqueId. destruct value as [| | | |t| | |].
  5: destruct (opaqueIdPattern t) eqn:E.
  all: split; [intros [=]; subst; auto | intros [[=] ?]; subst; congruence].
Qed.

End Ids.

(** ** Money ([src/money/index.ts]) *)
Module Money.

Definition max_safe_integer : Z := 9007199254740991.

(** [Number.isSafeInteger] *)
Definition is_safe_integer (n : jsnum) : bool :=
  match n with
  | NInt z => (Z.abs z <=? max_safe_integer)%Z
  | NFrac _ | NNonFinite => false
  end.

(** A [Money] object: its constructor is private, values come from [create]. *)
Record Money : Type := mkMoney { amountMinor : Z; currency : string }.

Definition currencyPattern (s : string) : bool :=
  let upper := ascii_between "A" "Z" in matches_classes [upper; upper; upper] s.

Definition makeCurrencyCode (value : string) : string + DomainError :=
  let normalized := to_upper (trim value) in
  if currencyPattern normalized then inl normalized
  else inr (mkDomainError "sharedKernel.invalidCurrency"
    "Currency must be an ISO 4217 three-letter code." (Some [("currency", JStr value)])).

Definition create (amount : jsnum) (cur : string) : Money + DomainError :=
  match amount with
  | NInt z =>
      if is_safe_integer amount then
        match makeCurrencyCode cur with
        | inl c => inl (mkMoney z c)
        | inr e => inr e
        end
      else inr (mkDomainError "sharedKernel.invalidMoneyAmount"
        "Money amountMinor must be a safe integer." (Some [("amountMinor", JNum amount)]))
  | _ => inr (mkDomainError "sharedKernel.invalidMoneyAmount"
        "Money amountMinor must be a safe integer." (Some [("amountMinor", JNum amount)]))
  end.

(** [amount < 0] for a number; a non-integral finite number is negative when its
    printed form starts with a minus sign. *)
Definition num_negative (n : jsnum) : bool :=
  match n with
  | NInt z => (z <? 0)%Z
  | NFrac t => starts_with "-" t
  | NNonFinite => false
  end.

Definition parse (input : jsval) : Result Money :=
  match input with
  | JObj o =>
      if negb (obj_has "amountMinor" o) || negb (obj_has "currency" o) then
        err (domain_error "sharedKernel.invalidMoneyInput"
          "Money must be an object with amountMinor and currency.")
      else
        match obj_get "amountMinor" o, obj_get "currency" o with
        | JNum n, JStr c =>
            if num_negative n then
              err (mkDomainError "sharedKernel.invalidMoneyAmount"
                "Money amountMinor must be non-negative." (Some [("amountMinor", JNum n)]))
            else match create n c with inl m => ok m | inr e => err e end
        | _, _ =>
            err (domain_error "sharedKernel.invalidMoneyInput"
              "Money amountMinor must be a number and currency must be a string.")
        end
  | _ => err (domain_error "sharedKernel.invalidMoneyInput"
          "Money must be an object with amountMinor and currency.")
  end.

Definition zero (cur : string) : Money + DomainError := create (NInt 0) cur.

Definition currencyMismatch (a b : Money) : DomainError :=
  mkDomainError "sharedKernel.currencyMismatch"
    "Money values with different currencies cannot be combined."
    (Some [("left", JStr (currency a)); ("right", JStr (currency b))]).

(** [assertSameCurrency]: [Some] is the error it throws. *)
Definition assertSameCurrency (a b : Money) : option DomainError :=
  if String.eqb (currency a) (currency b) then None else Some (currencyMismatch a b).

Definition add (a b : Money) : Money + DomainError :=
  match assertSameCurrency a b with
  | Some e => inr e
  | None => create (NInt (amountMinor a + amountMinor b)) (currency a)
  end.

Definition subtract (a b : Money) : Money + DomainError :=
  match assertSameCurrency a b with
  | Some e => inr e
  | None => create (NInt (amountMinor a - amountMinor b)) (currency a)
  end.

Definition equals (a b : Money) : bool :=
  (amountMinor a =? amountMinor b)%Z && String.eqb (currency a) (currency b).

Definition toJSON (m : Money) : jsobj :=
  [("amountMinor", jsint (amountMinor m)); ("currency", JStr (currency m))].

(** What the private constructor guarantees of every [Money] value. *)
Definition valid (m : Money) : Prop :=
  (Z.abs (amountMinor m) <= max_safe_integer)%Z ∧ currencyPattern (currency m) = true.

Lemma create_inv n c m :
  create n c = inl m →
  n = NInt (amountMinor m) ∧ valid m ∧ currency m = to_upper (trim c).
Proof.
  unfold create, makeCurrencyCode, is_safe_integer, valid. intros H.
  repeat case_match; simplify_eq/=; bool_hyps; naive_solver lia.
Qed.

(** A three-letter code is its own normal form. *)
Lemma currency_normal c : currencyPattern c = true → to_upper (trim c) = c.
Proof.
  unfold currencyPattern. destruct c as [|a [|b [|d [|]]]]; simpl; intros H; bool_hyps; try done.
  assert (∀ x, ascii_between "A" "Z" x = true → js_space x = false ∧ upper_char x = String x "") as Hx.
  { intros x. destruct x as [[] [] [] [] [] [] [] []]; vm_compute; naive_solver. }
  assert (ascii_between "A" "Z" a ∧ ascii_between "A" "Z" b ∧ ascii_between "A" "Z" d) as (Ha & Hb & Hd).
  { rewrite !Is_true_true. by repeat split. }
  apply Is_true_true, Hx in Ha as [Ha Ha']. apply Is_true_true, Hx in Hb as [Hb Hb'].
  apply Is_true_true, Hx in Hd as [Hd Hd'].
  unfold trim. simpl. rewrite Ha. simpl. rewrite Hd. simpl. by rewrite Ha', Hb', Hd'.
Qed.

Lemma create_valid z c :
  (Z.abs z <= max_safe_integer)%Z → currencyPattern c = true →
  create (NInt z) c = inl (mkMoney z c).
Proof.
  intros Hz Hc. unfold create, makeCurrencyCode, is_safe_integer.
  rewrite currency_normal, Hc by done. apply Z.leb_le in Hz. by rewrite Hz.
Qed.

End Money.

(** ** Opaque external references ([src/refs/index.ts]) *)
Module Refs.

Record OpaqueExternalRef : Type := mkRef {
  ref_system : string; ref_kind : string; ref_value : string
}.

Definition normalizePart (field value : string) : string + DomainError :=
  let normalized := trim value in
  if String.length normalized =? 0 then
    inr (mkDomainError "sharedKernel.invalidOpaqueExternalRef"
      "OpaqueExternalRef parts must be non-empty." (Some [("field", JStr field)]))
  else inl normalized.

Definition makeOpaqueExternalRef (input : OpaqueExternalRef) : OpaqueExternalRef + DomainError :=
  match normalizePart "system" (ref_system input) with
  | inr e => inr e
  | inl s =>
      match normalizePart "kind" (ref_kind input) with
      | inr e => inr e
      | inl k =>
          match normalizePart "value" (ref_value input) with
          | inr e => inr e
          | inl v => inl (mkRef s k v)
          end
      end
  end.

Definition parseOpaqueExternalRef (input : jsval) : Result OpaqueExternalRef :=
  match input with
  | JObj o =>
      if negb (obj_has "system" o) || negb (obj_has "kind" o) || negb (obj_has "value" o) then
        err (domain_error "sharedKernel.invalidOpaqueExternalRef"
          "OpaqueExternalRef must be an object with system, kind, and value.")
      else
        match obj_get "system" o, obj_get "kind" o, obj_get "value" o with
        | JStr s, JStr k, JStr v =>
            match makeOpaqueExternalRef (mkRef s k v) with inl r => ok r | inr e => err e end
        | _, _, _ =>
            err (domain_error "sharedKernel.invalidOpaqueExternalRef"
              "OpaqueExternalRef system, kind, and value must be strings.")
        end
  | _ => err (domain_error "sharedKernel.invalidOpaqueExternalRef"
          "OpaqueExternalRef must be an object with system, kind, and value.")
  end.

End Refs.
