(* ===== verification/Effects.v ===== *)
(** * Exceptions, asynchronous calls and the host runtime

    The commands are [async] functions that read and write shared objects and
    may throw.  They run one at a time inside a transaction, so a call is a
    function from the state to an outcome and the next state; the state an
    exception leaves behind is kept, as in JavaScript.  [wp] is the weakest
    precondition used by every proof about commands. *)
From S2P Require Import Prelude JsValue SharedKernel.

(** The classes of [packages/adapters/src/postgres/errors.ts]. *)
Inductive public_database_error : Type :=
| ForbiddenError
| TenantContextMissingError
| RuntimeDatabaseRoleError
| ConflictError
| DatabaseOperationError.

(** The values the sources throw. *)
Inductive exn : Type :=
| ExnDomain (e : DomainError)                 (* a [DomainError] instance *)
| ExnDatabase (e : public_database_error)     (* a public database error *)
| ExnObject (code : string)                   (* a thrown plain object [{ code }] *)
| ExnError (message : string)                 (* [new Error(message)] *)
| ExnType (message : string)                  (* [new TypeError(message)] *)
| ExnSentinel (message : string)              (* the error object a command compares by identity *)
| ExnAttempt (raw : exn)                      (* a [TaskDatabaseAttemptError] around an error *)
| ExnRollback (e : DomainError)               (* a [TaskCommandRollbackError] *)
| ExnCloseIntent (e : DomainError)            (* an [IssueCloseIntentRollbackError] *)
| ExnForeign (is_error : bool) (value : jsval).  (* any other thrown value: whether it is an [Error], its properties *)

Inductive outcome (A : Type) : Type :=
| Returned (a : A)
| Thrown (e : exn).
Arguments Returned {A} a.
Arguments Thrown {A} e.

(** A call over a mutable state [S]. *)
Definition M (S A : Type) : Type := S → outcome A * S.

Section monad.
Context {S : Type}.

#[global] Instance M_ret : MRet (M S) := λ A a s, (Returned a, s).
#[global] Instance M_bind : MBind (M S) := λ A B k m s,
  match m s with
  | (Returned a, s') => k a s'
  | (Thrown e, s') => (Thrown e, s')
  end.

Definition throw {A} (e : exn) : M S A := λ s, (Thrown e, s).

(** [try { m } catch (error) { handler error }]; the state is not rolled back. *)
Definition try_catch {A} (m : M S A) (handler : exn → M S A) : M S A := λ s,
  match m s with
  | (Returned a, s') => (Returned a, s')
  | (Thrown e, s') => handler e s'
  end.

Definition get_state : M S S := λ s, (Returned s, s).
Definition put_state (s : S) : M S unit := λ _, (Returned tt, s).

(** ** Weakest preconditions *)

Definition wp {A} (m : M S A) (Q : outcome A → S → Prop) : S → Prop :=
  λ s, Q (m s).1 (m s).2.

Lemma wp_ret {A} (a : A) Q s : Q (Returned a) s → wp (mret a) Q s.
Proof. done. Qed.

Lemma wp_throw {A} e (Q : outcome A → S → Prop) s : Q (Thrown e) s → wp (throw e) Q s.
Proof. done. Qed.

Lemma wp_bind {A B} (m : M S A) (k : A → M S B) Q s :
  wp m (λ r s', match r with Returned a => wp (k a) Q s' | Thrown e => Q (Thrown e) s' end) s →
  wp (m ≫= k) Q s.
Proof. unfold wp, mbind, M_bind. by destruct (m s) as [[a|e] s']. Qed.

Lemma wp_mono {A} (m : M S A) (Q Q' : outcome A → S → Prop) s :
  wp m Q s → (∀ r s', Q r s' → Q' r s') → wp m Q' s.
Proof. unfold wp. auto. Qed.

Lemma wp_try_catch {A} (m : M S A) h Q s :
  wp m (λ r s', match r with Returned a => Q (Returned a) s' | Thrown e => wp (h e) Q s' end) s →
  wp (try_catch m h) Q s.
Proof. unfold wp, try_catch. by destruct (m s) as [[a|e] s']. Qed.

Lemma wp_get Q s : Q (Returned s) s → wp get_state Q s.
Proof. done. Qed.

Lemma wp_put s' (Q : outcome unit → S → Prop) s : Q (Returned tt) s' → wp (put_state s') Q s.
Proof. done. Qed.

(** A weakest precondition gives a fact about the run. *)
Lemma wp_run {A} (m : M S A) Q s r s' : wp m Q s → m s = (r, s') → Q r s'.
Proof. unfold wp. intros HQ H. by rewrite H in HQ. Qed.

Lemma wp_of_run {A} (m : M S A) (Q : outcome A → S → Prop) s :
  (∀ r s', m s = (r, s') → Q r s') → wp m Q s.
Proof. unfold wp. intros H. apply H. by destruct (m s). Qed.

End monad.

#[global] Typeclasses Opaque M.
#[global] Opaque wp.

#[export] Hint Resolve wp_ret wp_throw wp_bind wp_try_catch : opzava.

(** ** The host runtime

    [node:crypto], the wall clock and the locale comparison are not part of the
    repository: the hash function, the sequence of random UUIDs, the sequence
    of clock readings (milliseconds) and [String.prototype.localeCompare] are
    parameters of the model. *)
Class NodeRuntime := {
  sha256_hex : string → string;
  randomUUID_at : nat → string;
  dateNow_at : nat → Z;
  localeCompare : string → string → Z;
}.

(** The documented behaviour of [localeCompare]: a total order. *)
Class LocaleOrder `{NodeRuntime} : Prop := {
  locale_refl s : localeCompare s s = 0%Z;
  locale_total s t : (localeCompare s t <= 0)%Z ∨ (localeCompare t s <= 0)%Z;
  locale_trans s t u :
    (localeCompare s t <= 0)%Z → (localeCompare t u <= 0)%Z → (localeCompare s u <= 0)%Z;
  locale_antisym s t : (localeCompare s t <= 0)%Z → (localeCompare t s <= 0)%Z → s = t;
}.
