(* ===== verification/DevBoardDomain.v ===== *)
(** * Dev Board domain ([packages/dev-board/src/domain])

    Ticket and proposal vocabulary, classification parsing, canonical JSON and
    contract hashing, the Change Risk policy and the command envelope. *)
From S2P Require Import Prelude JsString JsValue SharedKernel Effects.

(** ** Default sort and duplicate removal *)

(** [Array.prototype.sort()] of strings: increasing code units. *)
Definition sort_strings : list string → list string := merge_sort String.le.

(** [[...new Set(l)]]: the first occurrence of every element. *)
Definition js_unique {A} `{EqDecision A} (l : list A) : list A :=
  fold_left (λ acc x, if decide (x ∈ acc) then acc else acc ++ [x]) l [].

(** Finds the member of a string enumeration a value of type [unknown] names. *)
Definition parse_enum {T} (to_string : T → string) (values : list T) (code message : string)
    (value : jsval) : Result T :=
  match value with
  | JStr s =>
      match find (λ v, String.eqb (to_string v) s) values with
      | Some v => ok v
      | None => err (domain_error code message)
      end
  | _ => err (domain_error code message)
  end.

(** ** Classification ([classification.ts]) *)

Inductive DevTicketType : Type :=
| TFeature | TBug | TImprovement | TTechnicalTask | TResearchSpike | TMaintenance.

Inductive WorkArea : Type :=
| WUiUx | WFrontend | WBackendApi | WDataDatabase | WInfrastructure | WGithubIntegration
| WAgentRuntime | WSecurity | WDocumentation.

Inductive Priority : Type := P0 | P1 | P2 | P3.
Inductive Severity : Type := S0 | S1 | S2 | S3.
Inductive ChangeRisk : Type := RLow | RMedium | RHigh | RCritical.

#[global] Instance DevTicketType_eq_dec : EqDecision DevTicketType.
Proof. solve_decision. Defined.
#[global] Instance WorkArea_eq_dec : EqDecision WorkArea.
Proof. solve_decision. Defined.
#[global] Instance Priority_eq_dec : EqDecision Priority.
Proof. solve_decision. Defined.
#[global] Instance Severity_eq_dec : EqDecision Severity.
Proof. solve_decision. Defined.
#[global] Instance ChangeRisk_eq_dec : EqDecision ChangeRisk.
Proof. solve_decision. Defined.

Definition devTicketTypes : list DevTicketType :=
  [TFeature; TBug; TImprovement; TTechnicalTask; TResearchSpike; TMaintenance].
Definition workAreas_all : list WorkArea :=
  [WUiUx; WFrontend; WBackendApi; WDataDatabase; WInfrastructure; WGithubIntegration;
   WAgentRuntime; WSecurity; WDocumentation].
Definition priorities : list Priority := [P0; P1; P2; P3].
Definition severities : list Severity := [S0; S1; S2; S3].
Definition changeRisks : list ChangeRisk := [RLow; RMedium; RHigh; RCritical].

Definition devTicketType_str (t : DevTicketType) : string :=
  match t with
  | TFeature => "feature" | TBug => "bug" | TImprovement => "improvement"
  | TTechnicalTask => "technical_task" | TResearchSpike => "research_spike"
  | TMaintenance => "maintenance"
  end.

Definition workArea_str (w : WorkArea) : string :=
  match w with
  | WUiUx => "ui_ux" | WFrontend => "frontend" | WBackendApi => "backend_api"
  | WDataDatabase => "data_database" | WInfrastructure => "infrastructure"
  | WGithubIntegration => "github_integration" | WAgentRuntime => "agent_runtime"
  | WSecurity => "security" | WDocumentation => "documentation"
  end.

Definition priority_str (p : Priority) : string :=
  match p with P0 => "p0" | P1 => "p1" | P2 => "p2" | P3 => "p3" end.
Definition severity_str (s : Severity) : string :=
  match s with S0 => "s0" | S1 => "s1" | S2 => "s2" | S3 => "s3" end.
Definition changeRisk_str (r : ChangeRisk) : string :=
  match r with RLow => "low" | RMedium => "medium" | RHigh => "high" | RCritical => "critical" end.

Definition devTicketTypeLabels (t : DevTicketType) : string :=
  match t with
  | TFeature => "Feature" | TBug => "Bug" | TImprovement => "Improvement"
  | TTechnicalTask => "Technical Task" | TResearchSpike => "Research/Spike"
  | TMaintenance => "Maintenance"
  end.

(** [parse] *)
Definition parse_classification {T} (to_string : T → string) (values : list T) (label : string)
    (value : jsval) : Result T :=
  parse_enum to_string values "dev_board.classification_invalid" (label +:+ " is invalid.") value.

Definition parseDevTicketType := parse_classification devTicketType_str devTicketTypes "DevTicket type".
Definition parseWorkArea := parse_classification workArea_str workAreas_all "Work area".
Definition parsePriority := parse_classification priority_str priorities "Priority".
Definition parseSeverity := parse_classification severity_str severities "Severity".
Definition parseChangeRisk := parse_classification changeRisk_str changeRisks "Change risk".

(** [changeRisks.indexOf] *)
Definition changeRisk_index (r : ChangeRisk) : Z :=
  match r with RLow => 0 | RMedium => 1 | RHigh => 2 | RCritical => 3 end.

Definition compareChangeRisk (left right : ChangeRisk) : Z :=
  (changeRisk_index left - changeRisk_index right)%Z.

(** The default sort compares the strings of the work areas. *)
Definition workArea_le (a b : WorkArea) : Prop := String.le (workArea_str a) (workArea_str b).

#[global] Instance workArea_le_dec : RelDecision workArea_le.
Proof. intros a b. unfold workArea_le. apply _. Defined.

Definition sort_workAreas : list WorkArea → list WorkArea := merge_sort workArea_le.

(** The [for] loop of [normalizeWorkAreas]: stops at the first invalid item. *)
Fixpoint parse_workAreas (items : list jsval) : Result (list WorkArea) :=
  match items with
  | [] => ok []
  | item :: items =>
      match parseWorkArea item with
      | err e => err e
      | ok w => match parse_workAreas items with err e => err e | ok ws => ok (w :: ws) end
      end
  end.

Definition normalizeWorkAreas (value : jsval) : Result (list WorkArea) :=
  match value with
  | JArr (x :: xs) =>
      match parse_workAreas (x :: xs) with
      | err e => err e
      | ok parsed =>
          let normalized := sort_workAreas (js_unique parsed) in
          if negb (length normalized =? length parsed) then
            err (domain_error "dev_board.classification_invalid" "Work areas must not contain duplicates.")
          else ok normalized
      end
  | _ => err (domain_error "dev_board.classification_work_areas_required"
          "At least one work area is required.")
  end.

(** ** Tickets and contracts ([dev-ticket.ts]) *)

Inductive DevTicketLane : Type := LBacklog | LTodo | LBlocked | LInProgress | LReview | LDone.
Inductive ReadyState : Type := RsDraft | RsApproved.
Inductive OriginKind : Type := OProposal | ODirect | OLegacy.

#[global] Instance DevTicketLane_eq_dec : EqDecision DevTicketLane.
Proof. solve_decision. Defined.
#[global] Instance ReadyState_eq_dec : EqDecision ReadyState.
Proof. solve_decision. Defined.
#[global] Instance OriginKind_eq_dec : EqDecision OriginKind.
Proof. solve_decision. Defined.

Definition devTicketLanes : list DevTicketLane :=
  [LBacklog; LTodo; LBlocked; LInProgress; LReview; LDone].
Definition readyStates : list ReadyState := [RsDraft; RsApproved].
Definition originKinds : list OriginKind := [OProposal; ODirect; OLegacy].

Definition lane_str (l : DevTicketLane) : string :=
  match l with
  | LBacklog => "backlog" | LTodo => "todo" | LBlocked => "blocked"
  | LInProgress => "in_progress" | LReview => "review" | LDone => "done"
  end.
Definition readyState_str (r : ReadyState) : string :=
  match r with RsDraft => "draft" | RsApproved => "approved" end.
Definition originKind_str (o : OriginKind) : string :=
  match o with OProposal => "proposal" | ODirect => "direct" | OLegacy => "legacy" end.

Definition parseDevTicketLane :=
  parse_enum lane_str devTicketLanes "dev_board.invalid_dev_ticket_lane" "DevTicket lane is invalid.".
Definition parseReadyState :=
  parse_enum readyState_str readyStates "dev_board.invalid_ready_state" "Ready state is invalid.".
Definition parseOriginKind :=
  parse_enum originKind_str originKinds "dev_board.invalid_origin_kind" "DevTicket origin kind is invalid.".

(** [JSON.stringify] of a finite number; [None] when the number is not finite. *)
Definition number_text (n : jsnum) : option string :=
  match n with
  | NInt z => Some (pretty z)
  | NFrac t => Some t
  | NNonFinite => None
  end.

(** Entries ordered by key, as [Object.keys(record).sort()] lists them. *)
Definition key_le {A} (a b : string * A) : Prop := String.le a.1 b.1.

#[global] Instance key_le_dec {A} : RelDecision (@key_le A).
Proof. intros a b. unfold key_le. apply _. Defined.

Definition sort_entries {A} : list (string * A) → list (string * A) := merge_sort key_le.

Definition entry_text (kv : string * string) : string := json_quote kv.1 +:+ ":" +:+ kv.2.

(** [canonicalJson]: [None] is the [TypeError] it throws. *)
Fixpoint canonicalJson (value : jsval) : option string :=
  match value with
  | JNull => Some "null"
  | JBool b => Some (if b then "true" else "false")
  | JStr s => Some (json_quote s)
  | JNum n => number_text n
  | JArr l =>
      (λ parts, "[" +:+ join "," parts +:+ "]") <$>
      (fix go (l : list jsval) : option (list string) :=
        match l with
        | [] => Some []
        | v :: l =>
            match canonicalJson v, go l with
            | Some t, Some ts => Some (t :: ts)
            | _, _ => None
            end
        end) l
  | JObj o =>
      (λ entries, "{" +:+ join "," (entry_text <$> sort_entries entries) +:+ "}") <$>
      (fix go (o : list (string * jsval)) : option (list (string * string)) :=
        match o with
        | [] => Some []
        | (k, v) :: o =>
            match canonicalJson v, go o with
            | Some t, Some ts => Some ((k, t) :: ts)
            | _, _ => None
            end
        end) o
  | JUndefined | JOther _ => None
  end.

Section contract_hash.
Context `{NodeRuntime}.

(** [computeReadyContractContentHash]: [None] when [canonicalJson] throws. *)
Definition computeReadyContractContentHash (content : jsobj) : option string :=
  sha256_hex <$> canonicalJson (JObj content).

Definition parseReadyContractContent (value : jsval) : Result jsobj :=
  match value with
  | JObj o =>
      match computeReadyContractContentHash o with
      | Some _ => ok o
      | None => err (domain_error "dev_board.invalid_ready_contract_content"
                  "Ready contract content must be JSON serializable.")
      end
  | _ => err (domain_error "dev_board.invalid_ready_contract_content"
          "Ready contract content must be an object.")
  end.

(** ** Change Risk policy ([change-risk-policy.ts]) *)

Definition changeRiskPolicyVersion : string := "1".

Definition policy_rules : jsval := JArr [
  JObj [("id", JStr "base_low"); ("kind", JStr "floor"); ("risk", JStr "low")];
  JObj [("id", JStr "bug_medium"); ("kind", JStr "type"); ("type", JStr "bug"); ("risk", JStr "medium")];
  JObj [("id", JStr "security_medium"); ("kind", JStr "work_area"); ("workArea", JStr "security");
        ("risk", JStr "medium")];
  JObj [("id", JStr "security_sensitive_high"); ("kind", JStr "work_area_pair");
        ("workAreas", JArr [JStr "security"; JStr "data_database|infrastructure"]);
        ("risk", JStr "high")];
  JObj [("id", JStr "bug_security_high"); ("kind", JStr "type_work_area"); ("type", JStr "bug");
        ("workArea", JStr "security"); ("risk", JStr "high")];
  JObj [("id", JStr "active_dependencies_raise"); ("kind", JStr "raise"); ("steps", jsint 1)]].

Definition changeRiskPolicyHash : string :=
  match canonicalJson policy_rules with Some t => sha256_hex t | None => "" end.

Record ChangeRiskEvaluation : Type := mkEvaluation {
  ev_policyVersion : string;
  ev_policyHash : string;
  ev_type : DevTicketType;
  ev_workAreas : list WorkArea;
  ev_hasActiveDependencies : bool;
  ev_matchedRuleIds : list string;
  ev_minimumChangeRisk : ChangeRisk;
}.

(** [changeRisks[floor]!] *)
Definition changeRisk_at (i : Z) : ChangeRisk :=
  if (i <=? 0)%Z then RLow else if (i =? 1)%Z then RMedium else if (i =? 2)%Z then RHigh else RCritical.

(** One [if (...) raiseTo(risk, id)] of [evaluateChangeRisk], on the pair of the
    current floor and the matched rules. *)
Definition raiseTo (applies : bool) (risk : ChangeRisk) (id : string) (acc : Z * list string)
    : Z * list string :=
  if applies then (Z.max acc.1 (changeRisk_index risk), acc.2 ++ [id]) else acc.

Definition evaluateChangeRisk (type : DevTicketType) (areas : list WorkArea)
    (hasActiveDependencies : bool) : ChangeRiskEvaluation :=
  let areas := sort_workAreas (js_unique areas) in
  let hasSecurity := bool_decide (WSecurity ∈ areas) in
  let bug := bool_decide (type = TBug) in
  let acc := (0%Z, ["base_low"]) in
  let acc := raiseTo bug RMedium "bug_medium" acc in
  let acc := raiseTo hasSecurity RMedium "security_medium" acc in
  let acc := raiseTo (hasSecurity && (bool_decide (WDataDatabase ∈ areas) || bool_decide (WInfrastructure ∈ areas)))
               RHigh "security_sensitive_high" acc in
  let acc := raiseTo (bug && hasSecurity) RHigh "bug_security_high" acc in
  let acc := if hasActiveDependencies
             then (Z.min 3 (acc.1 + 1), acc.2 ++ ["active_dependencies_raise"]) else acc in
  mkEvaluation changeRiskPolicyVersion changeRiskPolicyHash type areas hasActiveDependencies
    acc.2 (changeRisk_at acc.1).

(** The evaluation as the object the contract content embeds. *)
Definition evaluation_js (e : ChangeRiskEvaluation) : jsval := JObj [
  ("policyVersion", JStr (ev_policyVersion e));
  ("policyHash", JStr (ev_policyHash e));
  ("normalizedInputs", JObj [
     ("type", JStr (devTicketType_str (ev_type e)));
     ("workAreas", JArr ((λ w, JStr (workArea_str w)) <$> ev_workAreas e));
     ("hasActiveDependencies", JBool (ev_hasActiveDependencies e))]);
  ("matchedRuleIds", JArr (JStr <$> ev_matchedRuleIds e));
  ("minimumChangeRisk", JStr (changeRisk_str (ev_minimumChangeRisk e)))].

End contract_hash.

Arguments evaluateChangeRisk : simpl never.
Arguments computeReadyContractContentHash : simpl never.
Arguments canonicalJson : simpl never.
Arguments ev_minimumChangeRisk : simpl never.
Arguments ev_policyVersion : simpl never.
Arguments ev_policyHash : simpl never.

(** ** Proposals ([proposal.ts]) *)

Inductive ProposalLifecycleState : Type := PDraft | PAwaitingDecision | PAccepted | PMerged | PRejected.
Inductive BlockingAssessment : Type := BBlocking | BNonBlocking.

#[global] Instance ProposalLifecycleState_eq_dec : EqDecision ProposalLifecycleState.
Proof. solve_decision. Defined.

Definition proposalLifecycleStates : list ProposalLifecycleState :=
  [PDraft; PAwaitingDecision; PAccepted; PMerged; PRejected].
Definition blockingAssessments : list BlockingAssessment := [BBlocking; BNonBlocking].

Definition lifecycle_str (s : ProposalLifecycleState) : string :=
  match s with
  | PDraft => "draft" | PAwaitingDecision => "awaiting_decision" | PAccepted => "accepted"
  | PMerged => "merged" | PRejected => "rejected"
  end.
Definition blocking_str (b : BlockingAssessment) : string :=
  match b with BBlocking => "blocking" | BNonBlocking => "non_blocking" end.

Definition normalizeDiscoverySummary (value : string) : Result string :=
  let summary := normalize_spaces value in
  if String.length summary =? 0 then
    err (domain_error "dev_board.discovery_summary_required" "Discovery summary is required.")
  else if 4000 <? String.length summary then
    err (domain_error "dev_board.discovery_summary_too_long"
      "Discovery summary must be 4000 characters or fewer.")
  else ok summary.

Definition parseBlockingAssessment :=
  parse_enum blocking_str blockingAssessments "dev_board.invalid_blocking_assessment"
    "Blocking assessment must be blocking or non_blocking.".
Definition parseProposalLifecycleState :=
  parse_enum lifecycle_str proposalLifecycleStates "dev_board.invalid_proposal_lifecycle_state"
    "Proposal lifecycle state is invalid.".

(** ** Command envelopes ([command-envelope.ts]) *)

Record CommandExpectedVersion : Type := mkExpected {
  recordKind : string; recordId : string; version_of : Z
}.

(** The caller's reference arrives from outside: its kind and role are strings
    until [parseCommandActorRef] has admitted them. *)
Record CommandActorRef : Type := mkActor {
  actor_kind : string; stableId : string; actor_role : string
}.

Record CommandSourceRef : Type := mkSource { source_kind : string; source_ref : string }.

Record CommandEnvelope : Type := mkEnvelope {
  env_commandId : string;
  env_idempotencyKey : string;
  env_requestHash : string;
  env_organizationId : string;
  env_workspaceId : string;
  env_commandName : string;
  env_targetAggregateId : string;
  env_actorRef : CommandActorRef;
  env_sourceRef : CommandSourceRef;
  env_authorizationVersion : Z;
  env_correlationId : string;
  env_causationId : option string;
  env_expectedVersions : list CommandExpectedVersion;
}.

Definition commandActorKinds : list string := ["user"; "agent"; "system"].
Definition commandActorRoles : list string :=
  ["admin"; "human_owner"; "lead_orchestrator"; "agent"; "system_worker"].

Definition invalid_actor_ref : DomainError :=
  domain_error "dev_board.invalid_actor_ref" "Command actor reference is invalid.".

Definition parseCommandActorRef (value : jsval) : Result CommandActorRef :=
  match value with
  | JObj o =>
      match obj_get "stableId" o, obj_get "kind" o, obj_get "role" o with
      | JStr id, JStr kind, JStr role =>
          if (String.length id =? 0)
             || negb (bool_decide (kind ∈ commandActorKinds))
             || negb (bool_decide (role ∈ commandActorRoles))
          then err invalid_actor_ref
          else ok (mkActor kind id role)
      | _, _, _ => err invalid_actor_ref
      end
  | JArr _ => err invalid_actor_ref
  | _ => err invalid_actor_ref
  end.

Definition actorRef_js (a : CommandActorRef) : jsval :=
  JObj [("kind", JStr (actor_kind a)); ("stableId", JStr (stableId a)); ("role", JStr (actor_role a))].
