(* ===== verification/TenantContext.v ===== *)
(** * Tenant transactions ([packages/adapters/src/postgres])

    [withTenant] of [tenant-context.ts], which every command enters, and the
    error mapping of [errors.ts].  The database driver is a parameter: the
    answer to each guard query, given the queries already sent on the same
    transaction. *)
From S2P Require Import Prelude JsString JsValue SharedKernel Effects.
From Stdlib Require Import Ascii.

(** ** Error mapping ([errors.ts]) *)

Definition forbiddenSqlStates : list string := ["42501"; "23503"].
Definition conflictSqlStates : list string := ["23502"; "23505"; "23514"; "23P01"].

Definition is_sqlstate_char (c : ascii) : bool := ascii_between "0" "9" c || ascii_between "A" "Z" c.

(** [/^[0-9A-Z]{5}$/] *)
Definition sqlStatePattern (s : string) : bool := matches_classes (replicate 5 is_sqlstate_char) s.

(** The recursion of [findSqlState] along the [cause] chain; [fuel] counts the
    depths 0 to 5 that it looks at. *)
Fixpoint find_sql_state (fuel : nat) (error : jsval) : option string :=
  match fuel, error with
  | S fuel, JObj o =>
      let next := find_sql_state fuel (obj_get "cause" o) in
      match obj_get "code" o with
      | JStr code => if sqlStatePattern code then Some code else next
      | _ => next
      end
  | _, _ => None
  end.

(** The properties of a thrown value that the mapping reads; the errors the
    sources create have no [cause]. *)
Definition thrown_value (e : exn) : jsval :=
  match e with
  | ExnForeign _ value => value
  | ExnObject code => JObj [("code", JStr code)]
  | ExnDomain d => JObj [("code", JStr (error_code d))]
  | ExnDatabase _ | ExnError _ | ExnType _ | ExnSentinel _ | ExnAttempt _ | ExnRollback _ | ExnCloseIntent _ => JObj []
  end.

Definition findSqlState (e : exn) : option string := find_sql_state 6 (thrown_value e).

(** [value] wrapped [n] times by errors that carry no code of their own, as
    Drizzle wraps the errors of the driver. *)
Fixpoint wrapped (n : nat) (value : jsval) : jsval :=
  match n with 0 => value | S n => JObj [("cause", wrapped n value)] end.

Lemma find_sql_state_wrapped fuel n value :
  n <= fuel → find_sql_state fuel (wrapped n value) = find_sql_state (fuel - n) value.
Proof.
  revert fuel; induction n as [|n IH]; intros fuel Hn; [by rewrite Nat.sub_0_r|].
  destruct fuel as [|fuel]; [lia|]. simpl. apply IH. lia.
Qed.

Lemma find_sql_state_too_deep fuel n value :
  fuel < n → find_sql_state fuel (wrapped n value) = None.
Proof.
  revert n; induction fuel as [|fuel IH]; intros [|n] Hn; [lia|done|lia|]. simpl. apply IH. lia.
Qed.

Definition isPublicDatabaseError (e : exn) : bool :=
  match e with ExnDatabase _ => true | _ => false end.

(** [error instanceof Error] *)
Definition is_Error (e : exn) : bool :=
  match e with ExnObject _ => false | ExnForeign is_error _ => is_error | _ => true end.

Definition mapDatabaseError (e : exn) : exn :=
  if isPublicDatabaseError e then e
  else
    match findSqlState e with
    | None => if is_Error e then e else ExnDatabase DatabaseOperationError
    | Some state =>
        if bool_decide (state ∈ forbiddenSqlStates) then ExnDatabase ForbiddenError
        else if bool_decide (state ∈ conflictSqlStates) || starts_with "23" state
        then ExnDatabase ConflictError
        else ExnDatabase DatabaseOperationError
    end.

Definition mapTenantStoreError (e : exn) : exn :=
  match mapDatabaseError e with
  | ExnDatabase (ForbiddenError | TenantContextMissingError | RuntimeDatabaseRoleError) =>
      ExnDomain TenantAccessDeniedError
  | mapped => mapped
  end.

(** ** The tenant guard ([tenant-context.ts]) *)

Inductive tenant_query : Type :=
| QRuntimeRole
| QSetCurrentOrg (orgId : string)
| QCurrentOrg.

(** The driver: the queries sent so far and the next one give its answer. *)
Class TenantDatabase := {
  execute : list tenant_query → tenant_query → outcome jsval;
}.

Definition is_uuid_version (c : ascii) : bool := ascii_between "1" "5" c.
Definition is_uuid_variant (c : ascii) : bool :=
  Ascii.eqb c "8" || Ascii.eqb c "9" || Ascii.eqb c "a" || Ascii.eqb c "b"
  || Ascii.eqb c "A" || Ascii.eqb c "B".
Definition is_hyphen (c : ascii) : bool := Ascii.eqb c "-".

(** [/^[0-9a-f]{8}-[0-9a-f]{4}-[1-5][0-9a-f]{3}-[89ab][0-9a-f]{3}-[0-9a-f]{12}$/i] *)
Definition uuidPattern (s : string) : bool :=
  matches_classes
    (replicate 8 is_hex ++ [is_hyphen] ++ replicate 4 is_hex ++ [is_hyphen; is_uuid_version]
     ++ replicate 3 is_hex ++ [is_hyphen; is_uuid_variant] ++ replicate 3 is_hex
     ++ [is_hyphen] ++ replicate 12 is_hex) s.

(** The rows of a driver answer: an array, or an object with an array [rows]. *)
Definition rowsFromExecuteResult (result : jsval) : list jsval :=
  match result with
  | JArr rows => rows
  | JObj o => match obj_get "rows" o with JArr rows => rows | _ => [] end
  | _ => []
  end.

(** [row?.[field]] of the first row. *)
Definition first_row_field (field : string) (result : jsval) : jsval :=
  match rowsFromExecuteResult result with
  | JObj row :: _ => obj_get field row
  | _ => JUndefined
  end.

Section with_tenant.
Context {S : Type} {DB : TenantDatabase}.

Definition assertValidTenantUuid (orgId : string) : M S unit :=
  if uuidPattern orgId then mret tt else throw (ExnDatabase TenantContextMissingError).

(** [await client.execute(query)] *)
Definition run_query (sent : list tenant_query) (q : tenant_query) : M S jsval :=
  match execute sent q with Returned v => mret v | Thrown e => throw e end.

Definition assertRuntimeDatabaseRole (sent : list tenant_query) : M S unit :=
  try_catch
    (result ← run_query sent QRuntimeRole;
     if negb (is_string "opzava_app" (first_row_field "session_role" result))
        || (match first_row_field "is_super" result with JBool true => true | _ => false end)
        || (match first_row_field "bypass_rls" result with JBool true => true | _ => false end)
     then throw (ExnDatabase RuntimeDatabaseRoleError) else mret tt)
    (λ e, throw (mapDatabaseError e)).

Definition assertCurrentTenant (sent : list tenant_query) (expectedOrgId : string) : M S unit :=
  assertValidTenantUuid expectedOrgId;;
  try_catch
    (result ← run_query sent QCurrentOrg;
     match first_row_field "current_org_id" result with
     | JStr org =>
         if String.eqb (to_lower org) (to_lower expectedOrgId) then mret tt
         else throw (ExnDatabase TenantContextMissingError)
     | _ => throw (ExnDatabase TenantContextMissingError)
     end)
    (λ e, throw (mapDatabaseError e)).

(** [withTenant(orgId, fn, database)] *)
Definition withTenant {A} (orgId : string) (fn : M S A) : M S A :=
  assertValidTenantUuid orgId;;
  try_catch
    (assertRuntimeDatabaseRole [];;
     _ ← run_query [QRuntimeRole] (QSetCurrentOrg orgId);
     assertCurrentTenant [QRuntimeRole; QSetCurrentOrg orgId] orgId;;
     fn)
    (λ e, throw (mapDatabaseError e)).

(** ** What the guard promises *)

(** The checks read the state only through the driver: they change nothing. *)
Lemma wp_run_query sent q Q s :
  (∀ r, Q r s) → wp (run_query sent q) Q s.
Proof. intros H. unfold run_query. case_match; [apply wp_ret|apply wp_throw]; apply H. Qed.

Lemma wp_assertValidTenantUuid orgId Q s :
  (uuidPattern orgId = true → Q (Returned tt) s) →
  (uuidPattern orgId = false → Q (Thrown (ExnDatabase TenantContextMissingError)) s) →
  wp (assertValidTenantUuid orgId) Q s.
Proof.
  intros Ht Hf. unfold assertValidTenantUuid.
  case_match; [apply wp_ret|apply wp_throw]; auto.
Qed.

Lemma wp_assertRuntimeDatabaseRole sent Q s :
  (∀ r, Q r s) → wp (assertRuntimeDatabaseRole sent) Q s.
Proof.
  intros H. apply wp_try_catch, wp_bind, wp_run_query. intros [v|e]; [|by apply wp_throw].
  case_match; [apply wp_throw, wp_throw|apply wp_ret]; apply H.
Qed.

Lemma wp_assertCurrentTenant sent orgId Q s :
  (∀ r, Q r s) → wp (assertCurrentTenant sent orgId) Q s.
Proof.
  intros H. apply wp_bind, wp_assertValidTenantUuid; intros _; [|done].
  apply wp_try_catch, wp_bind, wp_run_query. intros [v|e]; [|by apply wp_throw].
  repeat case_match; first [by apply wp_ret|by apply wp_throw, wp_throw].
Qed.

(** The body runs only for a well-formed tenant; every error that leaves the
    wrapper has been mapped, and the wrapper itself writes nothing. *)
Lemma wp_withTenant {A} orgId (fn : M S A) Q s :
  (∀ e, Q (Thrown e) s) →
  (uuidPattern orgId = true →
   wp fn (λ r s', match r with
                  | Returned a => Q (Returned a) s'
                  | Thrown e => Q (Thrown (mapDatabaseError e)) s'
                  end) s) →
  wp (withTenant orgId fn) Q s.
Proof.
  intros Habort Hfn. apply wp_bind, wp_assertValidTenantUuid; intros Hu; [|done].
  apply wp_try_catch, wp_bind, wp_assertRuntimeDatabaseRole.
  intros [[]|e]; [|by apply wp_throw].
  apply wp_bind, wp_run_query. intros [v|e]; [|by apply wp_throw].
  apply wp_bind, wp_assertCurrentTenant. intros [[]|e]; [|by apply wp_throw].
  eapply wp_mono; [by apply Hfn|]. intros [a|e] s' HQ; [done|]. by apply wp_throw.
Qed.

(** ** The guard is decided by the tenant alone *)

(** A call that neither reads nor writes the state. *)
Definition stateless {A} (m : M S A) : Prop := ∃ r, ∀ s, m s = (r, s).

Lemma stateless_ret {A} (a : A) : stateless (mret a).
Proof. by eexists. Qed.

Lemma stateless_throw {A} x : stateless (throw x : M S A).
Proof. by eexists. Qed.

Lemma stateless_bind {A B} (m : M S A) (k : A → M S B) :
  stateless m → (∀ a, stateless (k a)) → stateless (m ≫= k).
Proof.
  intros [[a|x] Hm] Hk; [destruct (Hk a) as [r Hr]; exists r|exists (Thrown x)];
    intros s; unfold mbind, M_bind; by rewrite Hm.
Qed.

Lemma stateless_try_catch {A} (m : M S A) h :
  stateless m → (∀ x, stateless (h x)) → stateless (try_catch m h).
Proof.
  intros [[a|x] Hm] Hh; [exists (Returned a)|destruct (Hh x) as [r Hr]; exists r];
    intros s; unfold try_catch; by rewrite Hm.
Qed.

Lemma stateless_run_query sent q : stateless (run_query sent q).
Proof. unfold run_query. case_match; [apply stateless_ret|apply stateless_throw]. Qed.

#[local] Hint Resolve stateless_ret stateless_throw stateless_run_query : stateless.

Lemma stateless_assertValidTenantUuid orgId : stateless (assertValidTenantUuid orgId).
Proof. unfold assertValidTenantUuid. case_match; auto with stateless. Qed.

Lemma stateless_assertRuntimeDatabaseRole sent : stateless (assertRuntimeDatabaseRole sent).
Proof.
  apply stateless_try_catch; [|auto with stateless].
  apply stateless_bind; [auto with stateless|]. intros v. case_match; auto with stateless.
Qed.

Lemma stateless_assertCurrentTenant sent orgId : stateless (assertCurrentTenant sent orgId).
Proof.
  apply stateless_bind; [apply stateless_assertValidTenantUuid|intros _].
  apply stateless_try_catch; [|auto with stateless].
  apply stateless_bind; [auto with stateless|]. intros v. repeat case_match; auto with stateless.
Qed.

(** Everything [withTenant] does before its body. *)
Definition tenant_guard (orgId : string) : M S unit :=
  assertValidTenantUuid orgId;;
  try_catch
    (assertRuntimeDatabaseRole [];;
     _ ← run_query [QRuntimeRole] (QSetCurrentOrg orgId);
     assertCurrentTenant [QRuntimeRole; QSetCurrentOrg orgId] orgId)
    (λ e, throw (mapDatabaseError e)).

Lemma stateless_tenant_guard orgId : stateless (tenant_guard orgId).
Proof.
  apply stateless_bind; [apply stateless_assertValidTenantUuid|intros _].
  apply stateless_try_catch; [|auto with stateless].
  apply stateless_bind; [apply stateless_assertRuntimeDatabaseRole|intros _].
  apply stateless_bind; [auto with stateless|intros _]. apply stateless_assertCurrentTenant.
Qed.

Lemma withTenant_guard {A} orgId (fn : M S A) s :
  withTenant orgId fn s =
  match (tenant_guard orgId s).1 with
  | Thrown e => (Thrown e, s)
  | Returned _ => match fn s with
                  | (Thrown e, s') => (Thrown (mapDatabaseError e), s')
                  | returned => returned
                  end
  end.
Proof.
  unfold withTenant, tenant_guard, mbind, M_bind.
  destruct (stateless_assertValidTenantUuid orgId) as [[[]|e] ->]; [|done].
  unfold try_catch.
  destruct (stateless_assertRuntimeDatabaseRole []) as [[[]|e] ->]; [|done].
  destruct (stateless_run_query [QRuntimeRole] (QSetCurrentOrg orgId)) as [[v|e] ->]; [|done].
  destruct (stateless_assertCurrentTenant [QRuntimeRole; QSetCurrentOrg orgId] orgId) as [[[]|e] ->]; [|done].
  simpl. by destruct (fn s) as [[a|e] s'].
Qed.

(** What a guard that passes has checked. *)
Lemma guard_passed orgId s u :
  (tenant_guard orgId s).1 = Returned u →
  uuidPattern orgId = true ∧
  (∃ role, execute [] QRuntimeRole = Returned role ∧ first_row_field "session_role" role = JStr "opzava_app" ∧
     first_row_field "is_super" role ≠ JBool true ∧ first_row_field "bypass_rls" role ≠ JBool true) ∧
  (∃ current o, execute [QRuntimeRole; QSetCurrentOrg orgId] QCurrentOrg = Returned current ∧
     first_row_field "current_org_id" current = JStr o ∧ to_lower o = to_lower orgId).
Proof.
  unfold tenant_guard, assertValidTenantUuid. destruct (uuidPattern orgId) eqn:Hu; [|done].
  unfold assertRuntimeDatabaseRole, assertCurrentTenant, assertValidTenantUuid, run_query, try_catch, throw,
    mbind, M_bind, mret, M_ret.
  rewrite Hu. destruct (execute [] QRuntimeRole) as [role|x]; [|done].
  destruct (negb _ || _ || _) eqn:Hrole; [done|].
  destruct (execute [QRuntimeRole] (QSetCurrentOrg orgId)) as [v|x]; [|done].
  destruct (execute [QRuntimeRole; QSetCurrentOrg orgId] QCurrentOrg) as [cur|x]; [|done].
  destruct (first_row_field "current_org_id" cur) as [| | | |o| | |] eqn:Hcur; try done.
  destruct (String.eqb_spec (to_lower o) (to_lower orgId)) as [Heq|]; [|done]. intros _.
  apply orb_false_iff in Hrole as [[Hrole Hsuper]%orb_false_iff Hrls].
  apply negb_false_iff, is_string_true in Hrole.
  split_and!; [done| |by exists cur, o]. exists role. split_and!; [done..| |]; intros Hb; by rewrite Hb in *.
Qed.

(** A guard that has let one body through lets every body of the tenant through. *)
Lemma withTenant_returned {A} orgId (fn : M S A) s a s' :
  withTenant orgId fn s = (Returned a, s') →
  fn s = (Returned a, s') ∧
  ∀ (fn' : M S A) t b t', fn' t = (Returned b, t') → withTenant orgId fn' t = (Returned b, t').
Proof.
  rewrite withTenant_guard. destruct (stateless_tenant_guard orgId) as [r Hr]. rewrite Hr.
  destruct r as [u|e]; simpl; [|done]. destruct (fn s) as [[b|e] s1] eqn:Hf; [|done].
  intros [= -> ->]. split; [done|]. intros fn' t b t' Hf'. by rewrite withTenant_guard, Hr, Hf'.
Qed.

End with_tenant.


(** A driver on which the application role is in force and the tenant setting
    is the one just made. *)
#[local] Definition last_org (sent : list tenant_query) : string :=
  fold_left (λ acc q, match q with QSetCurrentOrg o => o | _ => acc end) sent "".

Definition application_database : TenantDatabase := {|
  execute sent q :=
    match q with
    | QRuntimeRole => Returned (JArr [JObj [("session_role", JStr "opzava_app");
                                            ("is_super", JBool false); ("bypass_rls", JBool false)]])
    | QSetCurrentOrg _ => Returned (JArr [])
    | QCurrentOrg => Returned (JArr [JObj [("current_org_id", JStr (last_org sent))]])
    end
|}.
