(* ===== verification/Receipts.v ===== *)
(** * Command receipts

    The receipt port of [application/command-receipt-store.ts] as a typeclass
    with its laws, and the implementation of
    [adapters/in-memory-command-receipt-repository.ts], which discharges them. *)
From S2P Require Import Prelude JsString JsValue JsMap SharedKernel Effects DevBoardDomain.

(** ** The data of the port *)

Inductive ReceiptState : Type := Reserved | Accepted | Rejected.

#[global] Instance ReceiptState_eq_dec : EqDecision ReceiptState.
Proof. solve_decision. Defined.

Record CommandReceiptResult : Type := mkReceiptResult {
  rr_commandId : string;
  rr_state : ReceiptState;
  rr_outcomeCode : option string;
  rr_resultRef : option string;
  rr_resultSummary : option jsobj;
  rr_resultingVersions : option (list CommandExpectedVersion);
}.

Record CommandReceiptLookup : Type := mkLookup {
  lk_organizationId : string;
  lk_workspaceId : string;
  lk_commandName : string;
  lk_idempotencyKey : string;
}.

#[global] Instance CommandReceiptLookup_eq_dec : EqDecision CommandReceiptLookup.
Proof. solve_decision. Defined.

(** [CommandReceiptRecord extends CommandReceiptResult] *)
Record CommandReceiptRecord : Type := mkReceipt {
  rc_lookup : CommandReceiptLookup;
  rc_requestHash : string;
  rc_result : CommandReceiptResult;
}.

Inductive FinalOutcome : Type := OAccepted | ORejected.

Record FinalizeCommandReceiptInput : Type := mkFinalize {
  fin_organizationId : string;
  fin_commandId : string;
  fin_outcome : FinalOutcome;
  fin_outcomeCode : option string;
  fin_resultRef : option string;
  fin_resultSummary : option jsobj;
  fin_resultingVersions : option (list CommandExpectedVersion);
}.

Definition outcome_state (o : FinalOutcome) : ReceiptState :=
  match o with OAccepted => Accepted | ORejected => Rejected end.

Definition envelope_lookup (e : CommandEnvelope) : CommandReceiptLookup :=
  mkLookup (env_organizationId e) (env_workspaceId e) (env_commandName e) (env_idempotencyKey e).

Definition reserved_result (commandId : string) : CommandReceiptResult :=
  mkReceiptResult commandId Reserved None None None None.

Definition reserved_receipt (e : CommandEnvelope) : CommandReceiptRecord :=
  mkReceipt (envelope_lookup e) (env_requestHash e) (reserved_result (env_commandId e)).

Definition idempotencyConflict : DomainError :=
  domain_error "dev_board.idempotency_conflict"
    "The idempotency key was already used for a different request.".

Definition invalidReceipt : DomainError :=
  domain_error "dev_board.invalid_command_receipt" "The command receipt record is invalid.".

(** A field given by [undefined] keeps the receipt's value. *)
Definition keep {A} (new old : option A) : option A :=
  match new with Some v => Some v | None => old end.

(** The receipt [finalizeTransaction] stores over a reserved one. *)
Definition finalized (input : FinalizeCommandReceiptInput) (receipt : CommandReceiptRecord)
    : CommandReceiptRecord :=
  let r := rc_result receipt in
  mkReceipt (rc_lookup receipt) (rc_requestHash receipt)
    (mkReceiptResult (rr_commandId r) (outcome_state (fin_outcome input))
      (keep (fin_outcomeCode input) (rr_outcomeCode r))
      (keep (fin_resultRef input) (rr_resultRef r))
      (Some (default [] (fin_resultSummary input)))
      (Some (default [] (fin_resultingVersions input)))).

(** ** The port and its laws *)

Class CommandReceiptRepository (R : Type) := {
  reserveOrReplayTransaction : CommandEnvelope → R → Result CommandReceiptResult * R;
  finalizeTransaction : FinalizeCommandReceiptInput → R → Result unit * R;
  readReceipt : CommandReceiptLookup → R → option CommandReceiptRecord;
}.

(** No receipt of the organization carries this command id. *)
Definition command_unused {R} `{CommandReceiptRepository R} (org cid : string) (r : R) : Prop :=
  ∀ lk rc, readReceipt lk r = Some rc →
    ¬ (lk_organizationId (rc_lookup rc) = org ∧ rr_commandId (rc_result rc) = cid).

Class CommandReceiptLaws (R : Type) `{CommandReceiptRepository R} := {
  receipts_wf : R → Prop;
  (* an absent key is reserved, and nothing else moves *)
  reserve_fresh e r :
    receipts_wf r → readReceipt (envelope_lookup e) r = None →
    ∃ r', reserveOrReplayTransaction e r = (ok (reserved_result (env_commandId e)), r') ∧
      receipts_wf r' ∧
      readReceipt (envelope_lookup e) r' = Some (reserved_receipt e) ∧
      ∀ lk, lk ≠ envelope_lookup e → readReceipt lk r' = readReceipt lk r;
  (* a present key answers from the stored receipt or conflicts, without a write *)
  reserve_present e r rc :
    receipts_wf r → readReceipt (envelope_lookup e) r = Some rc →
    reserveOrReplayTransaction e r =
      (if String.eqb (rc_requestHash rc) (env_requestHash e)
       then ok (rc_result rc) else err idempotencyConflict, r);
  (* finalizing touches only the reserved receipt of the command *)
  finalize_reserved input r lk rc :
    receipts_wf r → readReceipt lk r = Some rc →
    lk_organizationId (rc_lookup rc) = fin_organizationId input →
    rr_commandId (rc_result rc) = fin_commandId input →
    rr_state (rc_result rc) = Reserved →
    (∀ lk' rc', readReceipt lk' r = Some rc' →
       lk_organizationId (rc_lookup rc') = fin_organizationId input →
       rr_commandId (rc_result rc') = fin_commandId input → lk' = lk) →
    ∃ r', finalizeTransaction input r = (ok tt, r') ∧ receipts_wf r' ∧
      readReceipt lk r' = Some (finalized input rc) ∧
      ∀ lk', lk' ≠ lk → readReceipt lk' r' = readReceipt lk' r;
  (* a failed finalization writes nothing *)
  finalize_error input r r' d :
    finalizeTransaction input r = (err d, r') → r' = r;
}.

(** ** The in-memory repository *)
Module InMemoryCommandReceiptRepository.

(** [receiptKey]: the JSON text of the four key fields. *)
Definition receiptKey (lk : CommandReceiptLookup) : string :=
  "[" +:+ join "," (json_quote <$>
    [lk_organizationId lk; lk_workspaceId lk; lk_commandName lk; lk_idempotencyKey lk]) +:+ "]".

Definition receiptResult (receipt : CommandReceiptRecord) : CommandReceiptResult := rc_result receipt.

Definition repository : Type := jsmap CommandReceiptRecord.

Definition reserve (e : CommandEnvelope) (receipts : repository)
    : Result CommandReceiptResult * repository :=
  let key := receiptKey (envelope_lookup e) in
  match jm_get key receipts with
  | Some existing =>
      (if String.eqb (rc_requestHash existing) (env_requestHash e)
       then ok (receiptResult existing) else err idempotencyConflict, receipts)
  | None =>
      (ok (reserved_result (env_commandId e)), jm_set key (reserved_receipt e) receipts)
  end.

(** The receipt of the command: the first of the organization with its id. *)
Definition is_command (org cid : string) (kv : string * CommandReceiptRecord) : bool :=
  String.eqb (lk_organizationId (rc_lookup kv.2)) org
  && String.eqb (rr_commandId (rc_result kv.2)) cid.

Definition finalize (input : FinalizeCommandReceiptInput) (receipts : repository)
    : Result unit * repository :=
  match find (is_command (fin_organizationId input) (fin_commandId input)) receipts with
  | Some (key, receipt) =>
      if bool_decide (rr_state (rc_result receipt) = Reserved)
      then (ok tt, jm_set key (finalized input receipt) receipts)
      else (err invalidReceipt, receipts)
  | None => (err invalidReceipt, receipts)
  end.

Definition read (lk : CommandReceiptLookup) (receipts : repository) : option CommandReceiptRecord :=
  jm_get (receiptKey lk) receipts.

#[global] Instance port : CommandReceiptRepository repository := {|
  reserveOrReplayTransaction := reserve;
  finalizeTransaction := finalize;
  readReceipt := read;
|}.

(** Distinct lookups have distinct keys: the JSON text can be read back. *)
Lemma receiptKey_inj lk lk' : receiptKey lk = receiptKey lk' → lk = lk'.
Proof.
  destruct lk as [a b c d], lk' as [a' b' c' d']. unfold receiptKey.
  cbn [fmap list_fmap join lk_organizationId lk_workspaceId lk_commandName lk_idempotencyKey].
  intros H%string_app_inv_l. rewrite !string_app_assoc in H.
  apply json_quote_inj in H as [-> H%string_app_inv_l]. rewrite ?string_app_assoc in H.
  apply json_quote_inj in H as [-> H%string_app_inv_l]. rewrite ?string_app_assoc in H.
  apply json_quote_inj in H as [-> H%string_app_inv_l]. rewrite ?string_app_assoc in H.
  apply json_quote_inj in H as [-> _]. done.
Qed.

(** Every receipt is stored under the key of its own lookup. *)
Definition wf (receipts : repository) : Prop :=
  jm_wf receipts ∧ ∀ k rc, jm_get k receipts = Some rc → k = receiptKey (rc_lookup rc).

Lemma wf_nil : wf [].
Proof. split; [apply jm_wf_nil|done]. Qed.

Lemma wf_set k rc receipts : wf receipts → k = receiptKey (rc_lookup rc) → wf (jm_set k rc receipts).
Proof.
  intros [Hwf Hkey] Hk. split; [by apply jm_wf_set|].
  intros k' rc' [[-> ->]|[_ H]]%jm_get_set_Some; auto.
Qed.

Lemma find_command org cid receipts :
  match find (is_command org cid) receipts with
  | Some kv => kv ∈ receipts ∧ lk_organizationId (rc_lookup kv.2) = org ∧ rr_commandId (rc_result kv.2) = cid
  | None => ∀ kv, kv ∈ receipts → ¬ (lk_organizationId (rc_lookup kv.2) = org ∧ rr_commandId (rc_result kv.2) = cid)
  end.
Proof.
  destruct (find _ _) as [kv|] eqn:Hf.
  - apply find_some in Hf as [Hin Hp]. unfold is_command in Hp. bool_hyps.
    rewrite list_elem_of_In. by rewrite <-!String.eqb_eq.
  - intros kv Hin [Ho Hc]. apply list_elem_of_In in Hin.
    pose proof (find_none _ _ Hf kv Hin) as Hn. unfold is_command in Hn.
    by rewrite Ho, Hc, !String.eqb_refl in Hn.
Qed.

#[global] Program Instance laws : CommandReceiptLaws repository := {| receipts_wf := wf |}.
Next Obligation.
  intros e r Hwf Hread. cbn in *. unfold reserve, read in *. rewrite Hread.
  eexists. split; [done|]. split; [by apply wf_set|]. split; [apply jm_get_set_eq|].
  intros lk Hne. apply jm_get_set_ne. intros ?%receiptKey_inj; congruence.
Qed.
Next Obligation.
  intros e r rc Hwf Hread. cbn in *. unfold reserve, read, receiptResult in *. by rewrite Hread.
Qed.
Next Obligation.
  intros input r lk rc [Hwf Hkey] Hread Horg Hcid Hst Huniq. cbn in *. unfold finalize, read in *.
  pose proof (find_command (fin_organizationId input) (fin_commandId input) r) as Hfind.
  destruct (find _ _) as [[k rc']|].
  - destruct Hfind as (Hin & Ho & Hc); simpl in *.
    apply jm_get_entry in Hin; [|done].
    pose proof (Hkey _ _ Hin) as ->. pose proof (Hkey _ _ Hread) as Hlk%receiptKey_inj.
    rewrite (Huniq _ _ Hin Ho Hc) in Hin. assert (rc' = rc) as -> by congruence.
    rewrite bool_decide_true by done. rewrite <-Hlk.
    eexists. split; [done|]. split; [by apply wf_set; [|simpl; congruence]|].
    split; [apply jm_get_set_eq|]. intros lk' Hne. apply jm_get_set_ne. intros ?%receiptKey_inj; congruence.
  - exfalso. apply jm_get_entry in Hread; [|done]. by apply (Hfind _ Hread).
Qed.
Next Obligation.
  intros input r r' d. cbn. unfold finalize. intros H. repeat case_match; by simplify_eq.
Qed.

End InMemoryCommandReceiptRepository.
