(* ===== verification/Ledger.v ===== *)
(** * The planning and activity ledgers

    The append port of [application/dev-board-ledger-append-port.ts] as a
    typeclass with its laws, and the append store of
    [adapters/in-memory-dev-board-ledger-append-store.ts]. *)
From S2P Require Import Prelude JsValue SharedKernel Effects DevBoardDomain.

Record AppendPlanningDecisionEntryInput : Type := mkPlanningInput {
  pl_organizationId : string;
  pl_workspaceId : string;
  pl_commandId : string;
  pl_aggregateId : string;
  pl_entryKind : string;
  pl_subject : string;
  pl_contentHash : string;
  pl_content : jsobj;
}.

Record AppendActivityEventInput : Type := mkActivityInput {
  ac_organizationId : string;
  ac_workspaceId : string;
  ac_aggregateId : string;
  ac_aggregateVersion : Z;
  ac_eventName : string;
  ac_commandId : string;
  ac_idempotencyKey : string;
  ac_actor : CommandActorRef;
  ac_source : CommandSourceRef;
  ac_authorizationVersion : Z;
  ac_correlationId : string;
  ac_causationId : option string;
  ac_occurredAt : Z;
  ac_payload : jsobj;
}.

(** An appended entry or event: the input and the sequence it was given. *)
Abbreviation sequenced A := (Z * A)%type.

Class DevBoardLedgerAppendPort (L : Type) := {
  appendPlanningDecisionEntry : AppendPlanningDecisionEntryInput → L → Result Z * L;
  appendActivityEvent : AppendActivityEventInput → L → Result Z * L;
}.

(** What the commands rely on: an append either fails without a write, or adds
    exactly its input at the end of its own ledger. *)
Class DevBoardLedgerLaws (L : Type) `{DevBoardLedgerAppendPort L} := {
  planning_entries : L → list (sequenced AppendPlanningDecisionEntryInput);
  activity_events : L → list (sequenced AppendActivityEventInput);
  append_planning input l r l' :
    appendPlanningDecisionEntry input l = (r, l') →
    activity_events l' = activity_events l ∧
    match r with
    | ok n => planning_entries l' = planning_entries l ++ [(n, input)]
    | err _ => planning_entries l' = planning_entries l
    end;
  append_activity input l r l' :
    appendActivityEvent input l = (r, l') →
    planning_entries l' = planning_entries l ∧
    match r with
    | ok n => activity_events l' = activity_events l ++ [(n, input)]
    | err _ => activity_events l' = activity_events l
    end;
}.

(** ** The in-memory append store *)
Module InMemoryDevBoardLedgerAppendStore.

Record ledger : Type := mkLedger {
  planningDecisionEntries : list (sequenced AppendPlanningDecisionEntryInput);
  activityEvents : list (sequenced AppendActivityEventInput);
}.

Definition empty_ledger : ledger := mkLedger [] [].

(** [Math.max(0, ...sequences of the workspace) + 1] *)
Definition next_sequence {A} (workspace : A → string) (w : string) (entries : list (sequenced A)) : Z :=
  (foldr Z.max 0 ((filter (λ e, workspace e.2 = w) entries).*1) + 1)%Z.

Definition appendPlanning (input : AppendPlanningDecisionEntryInput) (l : ledger)
    : Result Z * ledger :=
  let n := next_sequence pl_workspaceId (pl_workspaceId input) (planningDecisionEntries l) in
  (ok n, mkLedger (planningDecisionEntries l ++ [(n, input)]) (activityEvents l)).

Definition appendActivity (input : AppendActivityEventInput) (l : ledger) : Result Z * ledger :=
  let n := next_sequence ac_workspaceId (ac_workspaceId input) (activityEvents l) in
  (ok n, mkLedger (planningDecisionEntries l) (activityEvents l ++ [(n, input)])).

#[global] Instance port : DevBoardLedgerAppendPort ledger := {|
  appendPlanningDecisionEntry := appendPlanning;
  appendActivityEvent := appendActivity;
|}.

#[global] Program Instance laws : DevBoardLedgerLaws ledger := {|
  planning_entries := planningDecisionEntries;
  activity_events := activityEvents;
|}.
Next Obligation. intros input l r l' [= <- <-]. done. Qed.
Next Obligation. intros input l r l' [= <- <-]. done. Qed.

(** ** Sequences are gapless in every workspace *)

Definition sequences {A} (workspace : A → string) (w : string) (entries : list (sequenced A)) : list Z :=
  (filter (λ e, workspace e.2 = w) entries).*1.

(** The sequences of a workspace are 1, 2, ..., in the order of the ledger. *)
Definition gapless {A} (workspace : A → string) (entries : list (sequenced A)) : Prop :=
  ∀ w, sequences workspace w entries = Z.of_nat <$> seq 1 (length (sequences workspace w entries)).

Lemma max_of_seq n m : foldr Z.max 0%Z (Z.of_nat <$> seq m n) = if decide (n = 0) then 0%Z else Z.of_nat (m + n - 1).
Proof.
  revert m. induction n as [|n IH]; intros m; [done|].
  cbn [seq fmap list_fmap foldr]. rewrite IH. repeat case_decide; lia.
Qed.

Lemma gapless_append {A} (workspace : A → string) entries (input : A) :
  gapless workspace entries →
  gapless workspace (entries ++ [(next_sequence workspace (workspace input) entries, input)]).
Proof.
  intros Hg w. unfold sequences. rewrite filter_app, fmap_app.
  fold (sequences workspace w entries).
  rewrite filter_cons, filter_nil. simpl. case_decide as Hw.
  - assert (next_sequence workspace (workspace input) entries
            = Z.of_nat (S (length (sequences workspace w entries)))) as Hn.
    { unfold next_sequence. rewrite Hw. fold (sequences workspace w entries).
      rewrite (Hg w) at 1. rewrite max_of_seq. case_decide; lia. }
    rewrite Hn. cbn [fmap list_fmap fst]. rewrite length_app. cbn [length].
    rewrite Nat.add_1_r, seq_S, fmap_app. by rewrite <-(Hg w).
  - cbn [fmap list_fmap]. rewrite app_nil_r. apply Hg.
Qed.

End InMemoryDevBoardLedgerAppendStore.
