(* ===== verification/PlanningRows.v ===== *)
(** * Rows of the planning store ([application/dev-board-planning-store.ts])

    The records the planning port exchanges, field by field, and the grouped
    field updates that the spreads [{ ...current, field: value }] of the stores
    perform. *)
From S2P Require Import Prelude JsValue SharedKernel DevBoardDomain.

(** ** Proposals *)

Record ProposalRow : Type := mkProposalRow {
  pr_id : string;
  pr_organizationId : string;
  pr_workspaceId : string;
  pr_version : Z;
  pr_lifecycleState : ProposalLifecycleState;
  pr_archivedAt : option Z;
  pr_archivedByUserId : option string;
  pr_archivedReason : option string;
  pr_discoverySummary : string;
  pr_blockingAssessment : BlockingAssessment;
  pr_suggestedContract : jsobj;
  pr_createdCommandId : string;
  pr_acceptedCommandId : option string;
  pr_acceptedDevTicketId : option string;
}.

(** [version: current.version + 1] *)
Definition pr_bump (p : ProposalRow) : ProposalRow :=
  mkProposalRow (pr_id p) (pr_organizationId p) (pr_workspaceId p) (pr_version p + 1)%Z
    (pr_lifecycleState p) (pr_archivedAt p) (pr_archivedByUserId p) (pr_archivedReason p)
    (pr_discoverySummary p) (pr_blockingAssessment p) (pr_suggestedContract p)
    (pr_createdCommandId p) (pr_acceptedCommandId p) (pr_acceptedDevTicketId p).

Definition pr_set_decision (st : ProposalLifecycleState) (cmd ticket : option string) (p : ProposalRow) : ProposalRow :=
  mkProposalRow (pr_id p) (pr_organizationId p) (pr_workspaceId p) (pr_version p) st
    (pr_archivedAt p) (pr_archivedByUserId p) (pr_archivedReason p) (pr_discoverySummary p)
    (pr_blockingAssessment p) (pr_suggestedContract p) (pr_createdCommandId p) cmd ticket.

Definition pr_set_archive (at_ : option Z) (by_ reason : option string) (p : ProposalRow) : ProposalRow :=
  mkProposalRow (pr_id p) (pr_organizationId p) (pr_workspaceId p) (pr_version p)
    (pr_lifecycleState p) at_ by_ reason (pr_discoverySummary p) (pr_blockingAssessment p)
    (pr_suggestedContract p) (pr_createdCommandId p) (pr_acceptedCommandId p)
    (pr_acceptedDevTicketId p).

(** ** Tickets *)

Record DevTicketRow : Type := mkDevTicketRow {
  dt_id : string;
  dt_organizationId : string;
  dt_workspaceId : string;
  dt_version : Z;
  dt_originKind : OriginKind;
  dt_sourceProposalId : option string;
  dt_lane : DevTicketLane;
  dt_archivedAt : option Z;
  dt_archivedByUserId : option string;
  dt_archivedReason : option string;
  dt_lastActiveLane : option DevTicketLane;
  dt_humanOwnerUserId : string;
  dt_devTicketType : option DevTicketType;
  dt_workAreas : list WorkArea;
  dt_priority : option Priority;
  dt_severity : option Severity;
  dt_declaredChangeRisk : option ChangeRisk;
  dt_minimumChangeRisk : option ChangeRisk;
  dt_changeRiskPolicyVersion : option string;
  dt_changeRiskPolicyHash : option string;
  dt_readyContractVersion : Z;
  dt_readyContractContent : jsobj;
  dt_readyContractContentHash : string;
  dt_readyState : ReadyState;
  dt_readyApprovalContractVersion : option Z;
  dt_readyApprovalContentHash : option string;
  dt_readyApprovedByUserId : option string;
  dt_readyApprovalCommandId : option string;
  dt_createdCommandId : string;
}.

(** [version: current.version + 1] *)
Definition dt_bump (t : DevTicketRow) : DevTicketRow :=
  mkDevTicketRow (dt_id t) (dt_organizationId t) (dt_workspaceId t) (dt_version t + 1)%Z
    (dt_originKind t) (dt_sourceProposalId t) (dt_lane t) (dt_archivedAt t)
    (dt_archivedByUserId t) (dt_archivedReason t) (dt_lastActiveLane t) (dt_humanOwnerUserId t)
    (dt_devTicketType t) (dt_workAreas t) (dt_priority t) (dt_severity t)
    (dt_declaredChangeRisk t) (dt_minimumChangeRisk t) (dt_changeRiskPolicyVersion t)
    (dt_changeRiskPolicyHash t) (dt_readyContractVersion t) (dt_readyContractContent t)
    (dt_readyContractContentHash t) (dt_readyState t) (dt_readyApprovalContractVersion t)
    (dt_readyApprovalContentHash t) (dt_readyApprovedByUserId t) (dt_readyApprovalCommandId t)
    (dt_createdCommandId t).

Definition dt_set_lane (lane : DevTicketLane) (t : DevTicketRow) : DevTicketRow :=
  mkDevTicketRow (dt_id t) (dt_organizationId t) (dt_workspaceId t) (dt_version t)
    (dt_originKind t) (dt_sourceProposalId t) lane (dt_archivedAt t) (dt_archivedByUserId t)
    (dt_archivedReason t) (dt_lastActiveLane t) (dt_humanOwnerUserId t) (dt_devTicketType t)
    (dt_workAreas t) (dt_priority t) (dt_severity t) (dt_declaredChangeRisk t)
    (dt_minimumChangeRisk t) (dt_changeRiskPolicyVersion t) (dt_changeRiskPolicyHash t)
    (dt_readyContractVersion t) (dt_readyContractContent t) (dt_readyContractContentHash t)
    (dt_readyState t) (dt_readyApprovalContractVersion t) (dt_readyApprovalContentHash t)
    (dt_readyApprovedByUserId t) (dt_readyApprovalCommandId t) (dt_createdCommandId t).

Definition dt_set_archive (at_ : option Z) (by_ reason : option string) (t : DevTicketRow) : DevTicketRow :=
  mkDevTicketRow (dt_id t) (dt_organizationId t) (dt_workspaceId t) (dt_version t)
    (dt_originKind t) (dt_sourceProposalId t) (dt_lane t) at_ by_ reason (dt_lastActiveLane t)
    (dt_humanOwnerUserId t) (dt_devTicketType t) (dt_workAreas t) (dt_priority t) (dt_severity t)
    (dt_declaredChangeRisk t) (dt_minimumChangeRisk t) (dt_changeRiskPolicyVersion t)
    (dt_changeRiskPolicyHash t) (dt_readyContractVersion t) (dt_readyContractContent t)
    (dt_readyContractContentHash t) (dt_readyState t) (dt_readyApprovalContractVersion t)
    (dt_readyApprovalContentHash t) (dt_readyApprovedByUserId t) (dt_readyApprovalCommandId t)
    (dt_createdCommandId t).

Definition dt_set_last_lane (lane : option DevTicketLane) (t : DevTicketRow) : DevTicketRow :=
  mkDevTicketRow (dt_id t) (dt_organizationId t) (dt_workspaceId t) (dt_version t)
    (dt_originKind t) (dt_sourceProposalId t) (dt_lane t) (dt_archivedAt t)
    (dt_archivedByUserId t) (dt_archivedReason t) lane (dt_humanOwnerUserId t)
    (dt_devTicketType t) (dt_workAreas t) (dt_priority t) (dt_severity t)
    (dt_declaredChangeRisk t) (dt_minimumChangeRisk t) (dt_changeRiskPolicyVersion t)
    (dt_changeRiskPolicyHash t) (dt_readyContractVersion t) (dt_readyContractContent t)
    (dt_readyContractContentHash t) (dt_readyState t) (dt_readyApprovalContractVersion t)
    (dt_readyApprovalContentHash t) (dt_readyApprovedByUserId t) (dt_readyApprovalCommandId t)
    (dt_createdCommandId t).

Definition dt_set_classification (owner : string) (type : option DevTicketType) (areas : list WorkArea)
    (prio : option Priority) (sev : option Severity) (declared minimum : option ChangeRisk)
    (pversion phash : option string) (t : DevTicketRow) : DevTicketRow :=
  mkDevTicketRow (dt_id t) (dt_organizationId t) (dt_workspaceId t) (dt_version t)
    (dt_originKind t) (dt_sourceProposalId t) (dt_lane t) (dt_archivedAt t)
    (dt_archivedByUserId t) (dt_archivedReason t) (dt_lastActiveLane t) owner type areas prio sev
    declared minimum pversion phash (dt_readyContractVersion t) (dt_readyContractContent t)
    (dt_readyContractContentHash t) (dt_readyState t) (dt_readyApprovalContractVersion t)
    (dt_readyApprovalContentHash t) (dt_readyApprovedByUserId t) (dt_readyApprovalCommandId t)
    (dt_createdCommandId t).

Definition dt_set_contract (cversion : Z) (content : jsobj) (hash : string) (t : DevTicketRow) : DevTicketRow :=
  mkDevTicketRow (dt_id t) (dt_organizationId t) (dt_workspaceId t) (dt_version t)
    (dt_originKind t) (dt_sourceProposalId t) (dt_lane t) (dt_archivedAt t)
    (dt_archivedByUserId t) (dt_archivedReason t) (dt_lastActiveLane t) (dt_humanOwnerUserId t)
    (dt_devTicketType t) (dt_workAreas t) (dt_priority t) (dt_severity t)
    (dt_declaredChangeRisk t) (dt_minimumChangeRisk t) (dt_changeRiskPolicyVersion t)
    (dt_changeRiskPolicyHash t) cversion content hash (dt_readyState t)
    (dt_readyApprovalContractVersion t) (dt_readyApprovalContentHash t)
    (dt_readyApprovedByUserId t) (dt_readyApprovalCommandId t) (dt_createdCommandId t).

Definition dt_set_ready (st : ReadyState) (cversion : option Z) (hash by_ cmd : option string) (t : DevTicketRow) : DevTicketRow :=
  mkDevTicketRow (dt_id t) (dt_organizationId t) (dt_workspaceId t) (dt_version t)
    (dt_originKind t) (dt_sourceProposalId t) (dt_lane t) (dt_archivedAt t)
    (dt_archivedByUserId t) (dt_archivedReason t) (dt_lastActiveLane t) (dt_humanOwnerUserId t)
    (dt_devTicketType t) (dt_workAreas t) (dt_priority t) (dt_severity t)
    (dt_declaredChangeRisk t) (dt_minimumChangeRisk t) (dt_changeRiskPolicyVersion t)
    (dt_changeRiskPolicyHash t) (dt_readyContractVersion t) (dt_readyContractContent t)
    (dt_readyContractContentHash t) st cversion hash by_ cmd (dt_createdCommandId t).

(** [readyState: "draft"] with every approval field null. *)
Definition dt_clear_ready (t : DevTicketRow) : DevTicketRow := dt_set_ready RsDraft None None None None t.

(** ** Historical records and legacy tasks *)

Inductive CompletionGate : Type := GLegacyUnverified | GReconciledHistorical.
Inductive SourceDisposition : Type := DPromotedBacklog | DQuarantinedNoOwner | DHistoricalCandidate.

#[global] Instance CompletionGate_eq_dec : EqDecision CompletionGate.
Proof. solve_decision. Defined.
#[global] Instance SourceDisposition_eq_dec : EqDecision SourceDisposition.
Proof. solve_decision. Defined.

(** [recordClass] and [sourceKind] have one value each and are left out. *)
Record HistoricalRecordRow : Type := mkHistoricalRecordRow {
  hr_historicalRecordId : string;
  hr_organizationId : string;
  hr_workspaceId : string;
  hr_sourceTableRowIdentity : string;
  hr_completionGate : option CompletionGate;
  hr_sourceDisposition : SourceDisposition;
  hr_importedAt : Z;
  hr_sourceRecordedAt : Z;
  hr_preservedPayloadDigest : string;
  hr_sourceEpoch : option string;
  hr_sourceUpdatedAt : Z;
  hr_evidenceRefs : list jsobj;
  hr_promotionCommandId : option string;
  hr_version : Z;
}.

(** The next version of a record, with its disposition, gate and promotion. *)
Definition hr_advance (disposition : SourceDisposition) (gate : option CompletionGate)
    (cmd : option string) (h : HistoricalRecordRow) : HistoricalRecordRow :=
  mkHistoricalRecordRow (hr_historicalRecordId h) (hr_organizationId h) (hr_workspaceId h)
    (hr_sourceTableRowIdentity h) gate disposition (hr_importedAt h) (hr_sourceRecordedAt h)
    (hr_preservedPayloadDigest h) (hr_sourceEpoch h) (hr_sourceUpdatedAt h) (hr_evidenceRefs h)
    cmd (hr_version h + 1)%Z.

Record LegacyTaskAliasRow : Type := mkAlias {
  al_organizationId : string;
  al_workspaceId : string;
  al_legacyTaskId : string;
  al_legacyCardNumber : Z;
  al_devTicketId : option string;
  al_historicalRecordId : string;
  al_createdCommandId : string;
}.

Definition al_set_ticket (ticket : option string) (a : LegacyTaskAliasRow) : LegacyTaskAliasRow :=
  mkAlias (al_organizationId a) (al_workspaceId a) (al_legacyTaskId a) (al_legacyCardNumber a)
    ticket (al_historicalRecordId a) (al_createdCommandId a).

Record LegacyTaskSource : Type := mkSourceTask {
  lt_id : string;
  lt_organizationId : string;
  lt_workspaceId : string;
  lt_status : string;
  lt_assigneeUserId : option string;
  lt_cardNumber : Z;
  lt_createdAt : Z;
  lt_updatedAt : Z;
  lt_row : jsobj;
  lt_evidenceRefs : list jsobj;
}.

(** ** The Todo queue and the dependency graph *)

(** The lane of a queue header is always todo. *)
Record LaneQueueHeaderRow : Type := mkHeader {
  qh_organizationId : string;
  qh_workspaceId : string;
  qh_version : Z;
}.

(** A rank is a bigint. *)
Record TodoQueueMembershipRow : Type := mkMembership { qm_devTicketId : string; qm_rank : Z }.

Inductive EdgeState : Type := EActive | ERetired.

#[global] Instance EdgeState_eq_dec : EqDecision EdgeState.
Proof. solve_decision. Defined.

Record DependencyEdgeRow : Type := mkEdge {
  ed_id : string;
  ed_organizationId : string;
  ed_workspaceId : string;
  ed_version : Z;
  ed_dependentDevTicketId : string;
  ed_blockerDevTicketId : string;
  ed_lifecycleState : EdgeState;
  ed_createdCommandId : string;
  ed_retiredCommandId : option string;
}.

Definition ed_retire (cmd : string) (e : DependencyEdgeRow) : DependencyEdgeRow :=
  mkEdge (ed_id e) (ed_organizationId e) (ed_workspaceId e) (ed_version e + 1)%Z
    (ed_dependentDevTicketId e) (ed_blockerDevTicketId e) ERetired (ed_createdCommandId e) (Some cmd).

Record BlockerStatus : Type := mkBlocker { bl_devTicketId : string; bl_done : bool }.

Record DependencyLockStatus : Type := mkLockStatus {
  ls_locked : bool;
  ls_blockers : list BlockerStatus;
}.

(** ** Inputs of the mutations *)

Record InsertProposalInput : Type := mkInsertProposal {
  ip_id : string;
  ip_organizationId : string;
  ip_workspaceId : string;
  ip_discoverySummary : string;
  ip_blockingAssessment : BlockingAssessment;
  ip_suggestedContract : jsobj;
  ip_createdCommandId : string;
}.

(** [up_archive = None] stands for three absent archive fields, which keep the
    overlay; the commands give all three or none. *)
Record UpdateProposalInput : Type := mkUpdateProposal {
  up_organizationId : string;
  up_workspaceId : string;
  up_proposalId : string;
  up_expectedVersion : Z;
  up_lifecycleState : ProposalLifecycleState;
  up_acceptedCommandId : option string;
  up_acceptedDevTicketId : option string;
  up_archive : option (option Z * option string * option string);
}.

Record StoreArchiveDevTicketInput : Type := mkStoreArchive {
  sa_organizationId : string;
  sa_workspaceId : string;
  sa_devTicketId : string;
  sa_expectedVersion : Z;
  sa_archivedByUserId : string;
  sa_archivedReason : string;
}.

(** The inputs that name a ticket and the version it must have. *)
Record TicketVersionInput : Type := mkTicketVersion {
  tv_organizationId : string;
  tv_workspaceId : string;
  tv_devTicketId : string;
  tv_expectedVersion : Z;
}.

Record InsertDevTicketInput : Type := mkInsertDevTicket {
  it_id : string;
  it_organizationId : string;
  it_workspaceId : string;
  it_originKind : OriginKind;
  it_sourceProposalId : option string;
  it_humanOwnerUserId : string;
  it_readyContractContent : jsobj;
  it_readyContractContentHash : string;
  it_createdCommandId : string;
}.

Record InsertHistoricalRecordInput : Type := mkInsertHistorical {
  ih_id : string;
  ih_organizationId : string;
  ih_workspaceId : string;
  ih_sourceTableRowIdentity : string;
  ih_completionGate : option CompletionGate;
  ih_sourceDisposition : SourceDisposition;
  ih_sourceEpoch : option string;
  ih_sourceRecordedAt : Z;
  ih_sourceUpdatedAt : Z;
  ih_preservedPayloadDigest : string;
  ih_evidenceRefs : list jsobj;
  ih_promotionCommandId : option string;
}.

Record ResolveHistoricalInput : Type := mkResolve {
  rh_organizationId : string;
  rh_workspaceId : string;
  rh_historicalRecordId : string;
  rh_expectedVersion : Z;
  rh_sourceDisposition : SourceDisposition;
  rh_completionGate : option CompletionGate;
  rh_promotionCommandId : option string;
  rh_devTicketId : option string;
}.

Record ReconcileInput : Type := mkReconcile {
  rn_organizationId : string;
  rn_workspaceId : string;
  rn_historicalRecordId : string;
  rn_expectedVersion : Z;
}.

Record UpdateDevTicketForReadyApprovalInput : Type := mkReadyApproval {
  ra_organizationId : string;
  ra_workspaceId : string;
  ra_devTicketId : string;
  ra_expectedVersion : Z;
  ra_readyContractVersion : Z;
  ra_readyContractContent : jsobj;
  ra_readyContractContentHash : string;
  ra_readyApprovedByUserId : string;
  ra_readyApprovalCommandId : string;
}.

Record UpdateDevTicketClassificationInput : Type := mkUpdateClassification {
  uc_organizationId : string;
  uc_workspaceId : string;
  uc_devTicketId : string;
  uc_expectedVersion : Z;
  uc_humanOwnerUserId : string;
  uc_devTicketType : DevTicketType;
  uc_workAreas : list WorkArea;
  uc_priority : Priority;
  uc_severity : option Severity;
  uc_declaredChangeRisk : ChangeRisk;
  uc_minimumChangeRisk : ChangeRisk;
  uc_changeRiskPolicyVersion : string;
  uc_changeRiskPolicyHash : string;
  uc_readyContractContent : jsobj;
  uc_readyContractContentHash : string;
}.

Record InsertDependencyEdgeInput : Type := mkInsertEdge {
  ie_id : string;
  ie_organizationId : string;
  ie_workspaceId : string;
  ie_dependentDevTicketId : string;
  ie_blockerDevTicketId : string;
  ie_createdCommandId : string;
}.

Record RetireDependencyEdgeInput : Type := mkRetireEdge {
  re_organizationId : string;
  re_workspaceId : string;
  re_edgeId : string;
  re_expectedVersion : Z;
  re_retiredCommandId : string;
}.

Record QueueMembershipInput : Type := mkQueueInput {
  qi_organizationId : string;
  qi_workspaceId : string;
  qi_devTicketId : string;
  qi_rank : Z;
}.

(** ** Read projections *)

Record ArchivedDevTicketProjection : Type := mkArchivedTicket {
  at_devTicketId : string;
  at_lastActiveLane : option DevTicketLane;
  at_archivedAt : Z;
  at_archivedByUserId : option string;
  at_archivedReason : option string;
  at_activityAggregateId : string;
  at_planningAggregateId : string;
}.

Record ArchivedProposalProjection : Type := mkArchivedProposal {
  ap_proposalId : string;
  ap_archivedAt : Z;
  ap_archivedByUserId : option string;
  ap_archivedReason : option string;
  ap_activityAggregateId : string;
  ap_planningAggregateId : string;
}.

Record HistoricalRecordProjection : Type := mkHistoricalProjection {
  hp_historicalRecordId : string;
  hp_sourceTableRowIdentity : string;
  hp_completionGate : option CompletionGate;
  hp_sourceDisposition : SourceDisposition;
  hp_importedAt : Z;
  hp_sourceRecordedAt : Z;
  hp_preservedPayloadDigest : string;
}.
