(* ===== verification/PlanningStore.v ===== *)
(** * The in-memory planning store
    ([adapters/in-memory-dev-board-planning-store.ts])

    The state is the class's ten maps and sets; every method is a call over that
    state.  [new Date()] inside a method is the [now] argument. *)
From S2P Require Import Prelude JsString JsValue JsMap SharedKernel Effects DevBoardDomain.
From S2P Require Import PlanningRows.
From Stdlib Require Import Ascii.

(** [`${organizationId}:${workspaceId}:${id}`] *)
Definition key (organizationId workspaceId id : string) : string :=
  organizationId +:+ ":" +:+ workspaceId +:+ ":" +:+ id.

Record PlanningStore : Type := mkStore {
  proposals : jsmap ProposalRow;
  devTickets : jsmap DevTicketRow;
  dependencyEdges : jsmap DependencyEdgeRow;
  todoQueueHeaders : jsmap LaneQueueHeaderRow;
  todoQueueMemberships : jsmap TodoQueueMembershipRow;
  legacyTaskSources : jsmap LegacyTaskSource;
  legacyTaskAliases : jsmap LegacyTaskAliasRow;
  historicalRecords : jsmap HistoricalRecordRow;
  activeMembers : list string;
  organizationRoles : list string;
}.

Definition empty_store : PlanningStore := mkStore [] [] [] [] [] [] [] [] [] [].

Definition set_proposals v s := mkStore v (devTickets s) (dependencyEdges s) (todoQueueHeaders s)
  (todoQueueMemberships s) (legacyTaskSources s) (legacyTaskAliases s) (historicalRecords s)
  (activeMembers s) (organizationRoles s).
Definition set_devTickets v s := mkStore (proposals s) v (dependencyEdges s) (todoQueueHeaders s)
  (todoQueueMemberships s) (legacyTaskSources s) (legacyTaskAliases s) (historicalRecords s)
  (activeMembers s) (organizationRoles s).
Definition set_dependencyEdges v s := mkStore (proposals s) (devTickets s) v (todoQueueHeaders s)
  (todoQueueMemberships s) (legacyTaskSources s) (legacyTaskAliases s) (historicalRecords s)
  (activeMembers s) (organizationRoles s).
Definition set_todoQueueHeaders v s := mkStore (proposals s) (devTickets s) (dependencyEdges s) v
  (todoQueueMemberships s) (legacyTaskSources s) (legacyTaskAliases s) (historicalRecords s)
  (activeMembers s) (organizationRoles s).
Definition set_todoQueueMemberships v s := mkStore (proposals s) (devTickets s) (dependencyEdges s)
  (todoQueueHeaders s) v (legacyTaskSources s) (legacyTaskAliases s) (historicalRecords s)
  (activeMembers s) (organizationRoles s).
Definition set_legacyTaskAliases v s := mkStore (proposals s) (devTickets s) (dependencyEdges s)
  (todoQueueHeaders s) (todoQueueMemberships s) (legacyTaskSources s) v (historicalRecords s)
  (activeMembers s) (organizationRoles s).
Definition set_historicalRecords v s := mkStore (proposals s) (devTickets s) (dependencyEdges s)
  (todoQueueHeaders s) (todoQueueMemberships s) (legacyTaskSources s) (legacyTaskAliases s) v
  (activeMembers s) (organizationRoles s).

(** The maps of [snapshot] with the fixtures of [s]: what the [catch] block of
    [executeRiskyMutation] restores. *)
Definition restore_maps (snapshot s : PlanningStore) : PlanningStore :=
  mkStore (proposals snapshot) (devTickets snapshot) (dependencyEdges snapshot)
    (todoQueueHeaders snapshot) (todoQueueMemberships snapshot) (legacyTaskSources snapshot)
    (legacyTaskAliases snapshot) (historicalRecords snapshot) (activeMembers s) (organizationRoles s).

(** A method that only reads. *)
Definition reads {A} (f : PlanningStore → A) : M PlanningStore A := s ← get_state; mret (f s).

(** ** Authorization fixtures *)

Definition grantActiveMembership (organizationId userId : string) (s : PlanningStore) : PlanningStore :=
  mkStore (proposals s) (devTickets s) (dependencyEdges s) (todoQueueHeaders s)
    (todoQueueMemberships s) (legacyTaskSources s) (legacyTaskAliases s) (historicalRecords s)
    ((organizationId +:+ ":" +:+ userId) :: activeMembers s) (organizationRoles s).

Definition grantOrganizationRole (organizationId userId role : string) (s : PlanningStore) : PlanningStore :=
  mkStore (proposals s) (devTickets s) (dependencyEdges s) (todoQueueHeaders s)
    (todoQueueMemberships s) (legacyTaskSources s) (legacyTaskAliases s) (historicalRecords s)
    (activeMembers s) ((organizationId +:+ ":" +:+ userId +:+ ":" +:+ role) :: organizationRoles s).

Definition isActiveMember (organizationId userId : string) (s : PlanningStore) : bool :=
  bool_decide (organizationId +:+ ":" +:+ userId ∈ activeMembers s).

Definition hasOrganizationRole (organizationId userId role : string) (s : PlanningStore) : bool :=
  bool_decide (organizationId +:+ ":" +:+ userId +:+ ":" +:+ role ∈ organizationRoles s).

(** ** Savepoints *)

(** The [catch] block of [executeRiskyMutation]: constraint violations become
    domain errors, every other error is thrown again. *)
Definition risky_error {S A} (e : exn) : M S (Result A) :=
  let code := match e with
              | ExnObject code => Some code
              | ExnDomain d => Some (error_code d)
              | ExnForeign _ (JObj o) =>
                  match obj_get "code" o with JStr code => Some code | _ => None end
              | ExnForeign _ _ => None
              | ExnDatabase _ | ExnError _ | ExnType _ | ExnSentinel _ | ExnAttempt _ | ExnRollback _
              | ExnCloseIntent _ => None
              end in
  match code with
  | Some c =>
      if String.eqb c "23503" then
        mret (err (domain_error "dev_board.constraint_reference_invalid"
                     "A referenced Dev Board record is not valid."))
      else if String.eqb c "23505" then
        mret (err (domain_error "dev_board.constraint_conflict"
                     "A Dev Board record with this identity already exists."))
      else throw e
  | None => throw e
  end.

(** ** Proposals *)

Definition selectProposalForUpdate (org ws id : string) : M PlanningStore (option ProposalRow) :=
  reads (λ s, jm_get (key org ws id) (proposals s)).

Definition insertProposal (input : InsertProposalInput) : M PlanningStore ProposalRow :=
  let k := key (ip_organizationId input) (ip_workspaceId input) (ip_id input) in
  s ← get_state;
  if jm_has k (proposals s) then throw (ExnObject "23505")
  else
    let row := mkProposalRow (ip_id input) (ip_organizationId input) (ip_workspaceId input) 1 PDraft
      None None None (ip_discoverySummary input) (ip_blockingAssessment input)
      (ip_suggestedContract input) (ip_createdCommandId input) None None in
    put_state (set_proposals (jm_set k row (proposals s)) s);;
    mret row.

Definition updated_proposal (input : UpdateProposalInput) (current : ProposalRow) : ProposalRow :=
  let row := pr_set_decision (up_lifecycleState input) (up_acceptedCommandId input)
               (up_acceptedDevTicketId input) current in
  let row := match up_archive input with
             | None => row
             | Some (at_, by_, reason) => pr_set_archive at_ by_ reason row
             end in
  pr_bump row.

Definition updateProposal (input : UpdateProposalInput) : M PlanningStore (option ProposalRow) :=
  let k := key (up_organizationId input) (up_workspaceId input) (up_proposalId input) in
  s ← get_state;
  match jm_get k (proposals s) with
  | None => mret None
  | Some current =>
      if negb (pr_version current =? up_expectedVersion input)%Z then mret None
      else
        let row := updated_proposal input current in
        put_state (set_proposals (jm_set k row (proposals s)) s);;
        mret (Some row)
  end.

(** ** Tickets *)

Definition selectDevTicketForUpdate (org ws id : string) : M PlanningStore (option DevTicketRow) :=
  reads (λ s, jm_get (key org ws id) (devTickets s)).

Definition selectDevTicket (org ws id : string) : M PlanningStore (option DevTicketRow) :=
  reads (λ s, jm_get (key org ws id) (devTickets s)).

Definition new_ticket (input : InsertDevTicketInput) : DevTicketRow :=
  mkDevTicketRow (it_id input) (it_organizationId input) (it_workspaceId input) 1
    (it_originKind input) (it_sourceProposalId input) LBacklog None None None None
    (it_humanOwnerUserId input) None [] None None None None None None 1
    (it_readyContractContent input) (it_readyContractContentHash input) RsDraft None None None None
    (it_createdCommandId input).

(** Another ticket of the organization already comes from this proposal. *)
Definition source_taken (org : string) (source : option string) (s : PlanningStore) : bool :=
  match source with
  | None => false
  | Some p => existsb (λ row, String.eqb (dt_organizationId row) org
                              && bool_decide (dt_sourceProposalId row = Some p)) (jm_values (devTickets s))
  end.

Definition insertDevTicket (input : InsertDevTicketInput) : M PlanningStore DevTicketRow :=
  let k := key (it_organizationId input) (it_workspaceId input) (it_id input) in
  s ← get_state;
  if jm_has k (devTickets s) || source_taken (it_organizationId input) (it_sourceProposalId input) s
  then throw (ExnObject "23505")
  else
    put_state (set_devTickets (jm_set k (new_ticket input) (devTickets s)) s);;
    mret (new_ticket input).

(** The common shape of the ticket updates: the row under the key, if its
    version is the expected one and the guard holds, is replaced. *)
Definition update_ticket (org ws id : string) (expectedVersion : Z) (guard : DevTicketRow → bool)
    (f : DevTicketRow → DevTicketRow) : M PlanningStore (option DevTicketRow) :=
  let k := key org ws id in
  s ← get_state;
  match jm_get k (devTickets s) with
  | None => mret None
  | Some current =>
      if negb (dt_version current =? expectedVersion)%Z || negb (guard current) then mret None
      else
        let row := f current in
        put_state (set_devTickets (jm_set k row (devTickets s)) s);;
        mret (Some row)
  end.

Definition approved_ticket (input : UpdateDevTicketForReadyApprovalInput) (t : DevTicketRow) : DevTicketRow :=
  dt_bump (dt_set_lane LTodo
    (dt_set_contract (ra_readyContractVersion input) (ra_readyContractContent input)
       (ra_readyContractContentHash input)
    (dt_set_ready RsApproved (Some (ra_readyContractVersion input))
       (Some (ra_readyContractContentHash input)) (Some (ra_readyApprovedByUserId input))
       (Some (ra_readyApprovalCommandId input)) t))).

Definition updateDevTicketForReadyApproval (input : UpdateDevTicketForReadyApprovalInput)
    : M PlanningStore (option DevTicketRow) :=
  update_ticket (ra_organizationId input) (ra_workspaceId input) (ra_devTicketId input)
    (ra_expectedVersion input) (λ _, true) (approved_ticket input).

Definition classified_ticket (input : UpdateDevTicketClassificationInput) (t : DevTicketRow) : DevTicketRow :=
  dt_bump
    (dt_set_contract (dt_readyContractVersion t + 1) (uc_readyContractContent input)
       (uc_readyContractContentHash input)
    (dt_set_classification (uc_humanOwnerUserId input) (Some (uc_devTicketType input))
       (uc_workAreas input) (Some (uc_priority input)) (uc_severity input)
       (Some (uc_declaredChangeRisk input)) (Some (uc_minimumChangeRisk input))
       (Some (uc_changeRiskPolicyVersion input)) (Some (uc_changeRiskPolicyHash input)) t)).

Definition updateDevTicketClassification (input : UpdateDevTicketClassificationInput)
    : M PlanningStore (option DevTicketRow) :=
  update_ticket (uc_organizationId input) (uc_workspaceId input) (uc_devTicketId input)
    (uc_expectedVersion input) (λ _, true) (classified_ticket input).

Definition is_null {A} (o : option A) : bool := match o with None => true | Some _ => false end.

Definition archived_ticket (now : Z) (input : StoreArchiveDevTicketInput) (t : DevTicketRow) : DevTicketRow :=
  dt_bump (dt_set_lane LBacklog (dt_clear_ready (dt_set_last_lane (Some (dt_lane t))
    (dt_set_archive (Some now) (Some (sa_archivedByUserId input)) (Some (sa_archivedReason input)) t)))).

Definition archiveDevTicket (now : Z) (input : StoreArchiveDevTicketInput)
    : M PlanningStore (option DevTicketRow) :=
  update_ticket (sa_organizationId input) (sa_workspaceId input) (sa_devTicketId input)
    (sa_expectedVersion input) (λ t, is_null (dt_archivedAt t)) (archived_ticket now input).

Definition restored_ticket (t : DevTicketRow) : DevTicketRow :=
  dt_bump (dt_set_lane LBacklog (dt_clear_ready (dt_set_archive None None None t))).

Definition restoreDevTicket (input : TicketVersionInput) : M PlanningStore (option DevTicketRow) :=
  update_ticket (tv_organizationId input) (tv_workspaceId input) (tv_devTicketId input)
    (tv_expectedVersion input) (λ t, negb (is_null (dt_archivedAt t))) restored_ticket.

Definition bumpDevTicketVersion (input : TicketVersionInput) : M PlanningStore (option DevTicketRow) :=
  update_ticket (tv_organizationId input) (tv_workspaceId input) (tv_devTicketId input)
    (tv_expectedVersion input) (λ _, true) dt_bump.

(** Bumps the dependent; a Todo dependent loses Ready and returns to Backlog. *)
Definition dependent_changed (t : DevTicketRow) : DevTicketRow :=
  dt_bump (if bool_decide (dt_lane t = LTodo) then dt_set_lane LBacklog (dt_clear_ready t) else t).

Definition applyDependencyChangeToDependent (input : TicketVersionInput)
    : M PlanningStore (option DevTicketRow) :=
  update_ticket (tv_organizationId input) (tv_workspaceId input) (tv_devTicketId input)
    (tv_expectedVersion input) (λ _, true) dependent_changed.

(** ** Legacy import *)

Definition selectLegacyTaskSource (id : string) : M PlanningStore (option LegacyTaskSource) :=
  reads (λ s, jm_get id (legacyTaskSources s)).

Definition alias_key (org legacyTaskId : string) : string := org +:+ ":" +:+ legacyTaskId.

Definition selectLegacyTaskAliasForUpdate (org legacyTaskId : string)
    : M PlanningStore (option LegacyTaskAliasRow) :=
  reads (λ s, jm_get (alias_key org legacyTaskId) (legacyTaskAliases s)).

Definition historical_of (org ws id : string) (s : PlanningStore) : option HistoricalRecordRow :=
  match jm_get id (historicalRecords s) with
  | Some row =>
      if String.eqb (hr_organizationId row) org && String.eqb (hr_workspaceId row) ws
      then Some row else None
  | None => None
  end.

Definition selectHistoricalRecordForUpdate (org ws id : string)
    : M PlanningStore (option HistoricalRecordRow) :=
  reads (historical_of org ws id).

Definition insertHistoricalRecord (now : Z) (input : InsertHistoricalRecordInput)
    : M PlanningStore HistoricalRecordRow :=
  s ← get_state;
  if jm_has (ih_id input) (historicalRecords s) then throw (ExnObject "23505")
  else
    let row := mkHistoricalRecordRow (ih_id input) (ih_organizationId input) (ih_workspaceId input)
      (ih_sourceTableRowIdentity input) (ih_completionGate input) (ih_sourceDisposition input)
      now (ih_sourceRecordedAt input) (ih_preservedPayloadDigest input) (ih_sourceEpoch input)
      (ih_sourceUpdatedAt input) (ih_evidenceRefs input) (ih_promotionCommandId input) 1 in
    put_state (set_historicalRecords (jm_set (ih_id input) row (historicalRecords s)) s);;
    mret row.

Definition insertLegacyTaskAlias (input : LegacyTaskAliasRow) : M PlanningStore unit :=
  let k := alias_key (al_organizationId input) (al_legacyTaskId input) in
  s ← get_state;
  if jm_has k (legacyTaskAliases s) then throw (ExnObject "23505")
  else put_state (set_legacyTaskAliases (jm_set k input (legacyTaskAliases s)) s).

(** Quarantined records may advance; every other disposition is final, and no
    import may change the completion gate. *)
Definition transition_allowed (current : HistoricalRecordRow) (input : ResolveHistoricalInput) : bool :=
  (bool_decide (hr_sourceDisposition current = DQuarantinedNoOwner)
   || bool_decide (rh_sourceDisposition input = hr_sourceDisposition current))
  && bool_decide (rh_completionGate input = hr_completionGate current).

Definition historical_transition_invalid : DomainError :=
  domain_error "dev_board.historical_transition_invalid"
    "Imported historical records may only advance from quarantine without regressing their completion gate.".

Definition resolveImportedHistoricalRecord (input : ResolveHistoricalInput)
    : M PlanningStore (option HistoricalRecordRow) :=
  s ← get_state;
  match historical_of (rh_organizationId input) (rh_workspaceId input) (rh_historicalRecordId input) s with
  | None => mret None
  | Some current =>
      if negb (hr_version current =? rh_expectedVersion input)%Z then mret None
      else if negb (transition_allowed current input) then throw (ExnDomain historical_transition_invalid)
      else
        let row := hr_advance (rh_sourceDisposition input) (rh_completionGate input)
                     (rh_promotionCommandId input) current in
        let s := set_historicalRecords (jm_set (hr_historicalRecordId row) row (historicalRecords s)) s in
        let k := alias_key (rh_organizationId input) (hr_sourceTableRowIdentity current) in
        put_state
          match jm_get k (legacyTaskAliases s) with
          | Some alias =>
              set_legacyTaskAliases
                (jm_set k (al_set_ticket (rh_devTicketId input) alias) (legacyTaskAliases s)) s
          | None => s
          end;;
        mret (Some row)
  end.

Definition reconcileHistoricalCompletion (input : ReconcileInput)
    : M PlanningStore (option HistoricalRecordRow) :=
  s ← get_state;
  match historical_of (rn_organizationId input) (rn_workspaceId input) (rn_historicalRecordId input) s with
  | None => mret None
  | Some current =>
      if negb (hr_version current =? rn_expectedVersion input)%Z then mret None
      else
        let row := hr_advance (hr_sourceDisposition current) (Some GReconciledHistorical)
                     (hr_promotionCommandId current) current in
        put_state (set_historicalRecords (jm_set (hr_historicalRecordId row) row (historicalRecords s)) s);;
        mret (Some row)
  end.

(** ** The Todo queue *)

Definition RANK_STRIDE : Z := 1000000.

Definition getOrLockTodoQueueHeader (org ws : string) : M PlanningStore LaneQueueHeaderRow :=
  let k := key org ws "todo" in
  s ← get_state;
  match jm_get k (todoQueueHeaders s) with
  | Some current => mret current
  | None =>
      put_state (set_todoQueueHeaders (jm_set k (mkHeader org ws 1) (todoQueueHeaders s)) s);;
      mret (mkHeader org ws 1)
  end.

Definition casBumpTodoQueueVersion (org ws : string) (expectedVersion : Z)
    : M PlanningStore (option LaneQueueHeaderRow) :=
  let k := key org ws "todo" in
  s ← get_state;
  match jm_get k (todoQueueHeaders s) with
  | None => mret None
  | Some current =>
      if negb (qh_version current =? expectedVersion)%Z then mret None
      else
        let header := mkHeader (qh_organizationId current) (qh_workspaceId current) (qh_version current + 1) in
        put_state (set_todoQueueHeaders (jm_set k header (todoQueueHeaders s)) s);;
        mret (Some header)
  end.

Definition todoQueueMembership (org ws id : string) : M PlanningStore (option TodoQueueMembershipRow) :=
  reads (λ s, jm_get (key org ws id) (todoQueueMemberships s)).

Definition insertTodoQueueMembership (input : QueueMembershipInput) : M PlanningStore unit :=
  let k := key (qi_organizationId input) (qi_workspaceId input) (qi_devTicketId input) in
  s ← get_state;
  if jm_has k (todoQueueMemberships s) then throw (ExnObject "23505")
  else put_state (set_todoQueueMemberships
         (jm_set k (mkMembership (qi_devTicketId input) (qi_rank input)) (todoQueueMemberships s)) s).

(** The memberships after [updateTodoQueueMembershipRank]: an absent member is
    not created. *)
Definition rerank (k : string) (row : TodoQueueMembershipRow) (m : jsmap TodoQueueMembershipRow)
    : jsmap TodoQueueMembershipRow :=
  if jm_has k m then jm_set k row m else m.

Definition updateTodoQueueMembershipRank (input : QueueMembershipInput) : M PlanningStore bool :=
  let k := key (qi_organizationId input) (qi_workspaceId input) (qi_devTicketId input) in
  s ← get_state;
  put_state (set_todoQueueMemberships
    (rerank k (mkMembership (qi_devTicketId input) (qi_rank input)) (todoQueueMemberships s)) s);;
  mret (jm_has k (todoQueueMemberships s)).

Definition deleteTodoQueueMembership (org ws id : string) : M PlanningStore bool :=
  let k := key org ws id in
  s ← get_state;
  put_state (set_todoQueueMemberships (jm_delete k (todoQueueMemberships s)) s);;
  mret (jm_has k (todoQueueMemberships s)).

(** The loop of [rebalanceTodoBand] from a given index on. *)
Fixpoint rebalance_from (index : nat) (org ws : string) (ids : list string)
    (m : jsmap TodoQueueMembershipRow) : jsmap TodoQueueMembershipRow :=
  match ids with
  | [] => m
  | id :: ids =>
      rebalance_from (S index) org ws ids
        (rerank (key org ws id) (mkMembership id ((Z.of_nat index + 2) * RANK_STRIDE)) m)
  end.

Definition rebalanceTodoBand (org ws : string) (ids : list string) : M PlanningStore unit :=
  s ← get_state;
  put_state (set_todoQueueMemberships (rebalance_from 0 org ws ids (todoQueueMemberships s)) s).

Section queue_order.
Context {RT : NodeRuntime}.

(** The comparator of [listTodoQueueRanks]: the rank, then the ticket. *)
Definition membership_le (a b : TodoQueueMembershipRow) : Prop :=
  (qm_rank a < qm_rank b)%Z ∨
  (qm_rank a = qm_rank b ∧ (localeCompare (qm_devTicketId a) (qm_devTicketId b) <= 0)%Z).

#[global] Instance membership_le_dec : RelDecision membership_le.
Proof. intros a b. unfold membership_le. apply _. Defined.

Definition workspace_prefix (org ws : string) : string := org +:+ ":" +:+ ws +:+ ":".

Definition queue_members (org ws : string) (s : PlanningStore) : list TodoQueueMembershipRow :=
  (filter (λ kv, starts_with (workspace_prefix org ws) kv.1 = true) (todoQueueMemberships s)).*2.

Definition todo_queue (org ws : string) (s : PlanningStore) : list TodoQueueMembershipRow :=
  merge_sort membership_le (queue_members org ws s).

Definition listTodoQueueRanks (org ws : string) : M PlanningStore (list TodoQueueMembershipRow) :=
  reads (todo_queue org ws).

(** ** Read projections *)

Definition archived_le {A} (at_ : A → Z) (id : A → string) (a b : A) : Prop :=
  (at_ b < at_ a)%Z ∨ (at_ a = at_ b ∧ (localeCompare (id a) (id b) <= 0)%Z).

#[global] Instance archived_le_dec {A} (at_ : A → Z) (id : A → string) : RelDecision (archived_le at_ id).
Proof. intros a b. unfold archived_le. apply _. Defined.

Definition archived_ticket_projection (row : DevTicketRow) : ArchivedDevTicketProjection :=
  mkArchivedTicket (dt_id row) (dt_lastActiveLane row) (default 0%Z (dt_archivedAt row))
    (dt_archivedByUserId row) (dt_archivedReason row) (dt_id row) (dt_id row).

Definition listArchivedDevTickets (org ws : string) (s : PlanningStore) : list ArchivedDevTicketProjection :=
  archived_ticket_projection <$>
    merge_sort (archived_le (λ row, default 0%Z (dt_archivedAt row)) dt_id)
      (filter (λ row, dt_organizationId row = org ∧ dt_workspaceId row = ws ∧ is_Some (dt_archivedAt row))
        (jm_values (devTickets s))).

Definition archived_proposal_projection (row : ProposalRow) : ArchivedProposalProjection :=
  mkArchivedProposal (pr_id row) (default 0%Z (pr_archivedAt row)) (pr_archivedByUserId row)
    (pr_archivedReason row) (pr_id row) (pr_id row).

Definition listArchivedProposals (org ws : string) (s : PlanningStore) : list ArchivedProposalProjection :=
  archived_proposal_projection <$>
    merge_sort (archived_le (λ row, default 0%Z (pr_archivedAt row)) pr_id)
      (filter (λ row, pr_organizationId row = org ∧ pr_workspaceId row = ws ∧ is_Some (pr_archivedAt row))
        (jm_values (proposals s))).

Definition historical_projection (row : HistoricalRecordRow) : HistoricalRecordProjection :=
  mkHistoricalProjection (hr_historicalRecordId row) (hr_sourceTableRowIdentity row)
    (hr_completionGate row) (hr_sourceDisposition row) (hr_importedAt row) (hr_sourceRecordedAt row)
    (hr_preservedPayloadDigest row).

Definition listHistoricalRecords (org ws : string) (s : PlanningStore) : list HistoricalRecordProjection :=
  historical_projection <$>
    merge_sort (archived_le hr_importedAt hr_historicalRecordId)
      (filter (λ row, hr_organizationId row = org ∧ hr_workspaceId row = ws)
        (jm_values (historicalRecords s))).

End queue_order.

(** ** The dependency graph *)

(** An active edge of the workspace. *)
Definition edge_in (org ws : string) (e : DependencyEdgeRow) : bool :=
  String.eqb (ed_organizationId e) org && String.eqb (ed_workspaceId e) ws
  && bool_decide (ed_lifecycleState e = EActive).

Definition edge_from (org ws dependent : string) (e : DependencyEdgeRow) : bool :=
  edge_in org ws e && String.eqb (ed_dependentDevTicketId e) dependent.

Definition hasActiveDependencies (org ws id : string) (s : PlanningStore) : bool :=
  existsb (edge_from org ws id) (jm_values (dependencyEdges s)).

(** A no-op in memory: transactions are serial. *)
Definition lockDependencyGraph (ws : string) : M PlanningStore unit := mret tt.

Definition selectDependencyEdge (org ws edgeId : string) : M PlanningStore (option DependencyEdgeRow) :=
  reads (λ s, jm_get (key org ws edgeId) (dependencyEdges s)).

Definition active_edge (org ws dependent blocker : string) (s : PlanningStore) : option DependencyEdgeRow :=
  find (λ e, edge_from org ws dependent e && String.eqb (ed_blockerDevTicketId e) blocker)
    (jm_values (dependencyEdges s)).

Definition selectActiveDependencyEdge (org ws dependent blocker : string)
    : M PlanningStore (option DependencyEdgeRow) :=
  reads (active_edge org ws dependent blocker).

Definition active_blocker_edges (org ws blocker : string) (s : PlanningStore) : list DependencyEdgeRow :=
  filter (λ e, edge_in org ws e && String.eqb (ed_blockerDevTicketId e) blocker = true)
    (jm_values (dependencyEdges s)).

Definition selectActiveBlockerEdges (org ws blocker : string) : M PlanningStore (list DependencyEdgeRow) :=
  reads (active_blocker_edges org ws blocker).

Section cycle_search.
Variables (org ws dependent : string) (edges : list DependencyEdgeRow).

(** The closure [visit] with its set [seen], threaded in and out.  The recursion
    is bounded by [fuel]; [None] stands for fuel running out. *)
Fixpoint visit (fuel : nat) (seen : list string) (ticketId : string) : option (bool * list string) :=
  match fuel with
  | O => None
  | S fuel =>
      if String.eqb ticketId dependent then Some (true, seen)
      else if bool_decide (ticketId ∈ seen) then Some (false, seen)
      else
        (fix some (es : list DependencyEdgeRow) (seen : list string) : option (bool * list string) :=
          match es with
          | [] => Some (false, seen)
          | e :: es =>
              if edge_from org ws ticketId e then
                match visit fuel seen (ed_blockerDevTicketId e) with
                | None => None
                | Some (true, seen) => Some (true, seen)
                | Some (false, seen) => some es seen
                end
              else some es seen
          end) edges (ticketId :: seen)
  end.
End cycle_search.

(** One call per edge, and the first: [visit_total] shows the fuel is enough. *)
Definition cycle_fuel (edges : list DependencyEdgeRow) : nat := S (S (length edges)).

Definition dependency_creates_cycle (org ws dependent blocker : string) (s : PlanningStore) : bool :=
  let edges := jm_values (dependencyEdges s) in
  match visit org ws dependent edges (cycle_fuel edges) [] blocker with
  | Some (found, _) => found
  | None => false
  end.

Definition dependencyCreatesCycle (org ws dependent blocker : string) : M PlanningStore bool :=
  reads (dependency_creates_cycle org ws dependent blocker).

Definition new_edge (input : InsertDependencyEdgeInput) : DependencyEdgeRow :=
  mkEdge (ie_id input) (ie_organizationId input) (ie_workspaceId input) 1
    (ie_dependentDevTicketId input) (ie_blockerDevTicketId input) EActive
    (ie_createdCommandId input) None.

Definition insertDependencyEdge (input : InsertDependencyEdgeInput) : M PlanningStore DependencyEdgeRow :=
  let org := ie_organizationId input in
  let ws := ie_workspaceId input in
  s ← get_state;
  if String.eqb (ie_dependentDevTicketId input) (ie_blockerDevTicketId input)
     || negb (is_null (active_edge org ws (ie_dependentDevTicketId input) (ie_blockerDevTicketId input) s))
  then throw (ExnObject "23505")
  else if negb (jm_has (key org ws (ie_dependentDevTicketId input)) (devTickets s))
       || negb (jm_has (key org ws (ie_blockerDevTicketId input)) (devTickets s))
  then throw (ExnObject "23503")
  else
    put_state (set_dependencyEdges (jm_set (key org ws (ie_id input)) (new_edge input) (dependencyEdges s)) s);;
    mret (new_edge input).

Definition retireDependencyEdge (input : RetireDependencyEdgeInput)
    : M PlanningStore (option DependencyEdgeRow) :=
  let k := key (re_organizationId input) (re_workspaceId input) (re_edgeId input) in
  s ← get_state;
  match jm_get k (dependencyEdges s) with
  | None => mret None
  | Some current =>
      if negb (bool_decide (ed_lifecycleState current = EActive))
         || negb (ed_version current =? re_expectedVersion input)%Z
      then mret None
      else
        let row := ed_retire (re_retiredCommandId input) current in
        put_state (set_dependencyEdges (jm_set k row (dependencyEdges s)) s);;
        mret (Some row)
  end.

Definition blocker_status (org ws : string) (s : PlanningStore) (e : DependencyEdgeRow) : BlockerStatus :=
  mkBlocker (ed_blockerDevTicketId e)
    match jm_get (key org ws (ed_blockerDevTicketId e)) (devTickets s) with
    | Some t => bool_decide (dt_lane t = LDone)
    | None => false
    end.

Definition dependency_lock_status (org ws id : string) (s : PlanningStore) : DependencyLockStatus :=
  let blockers := blocker_status org ws s <$>
    filter (λ e, edge_from org ws id e = true) (jm_values (dependencyEdges s)) in
  mkLockStatus (existsb (λ b, negb (bl_done b)) blockers) blockers.
