(* ===== verification/DependencyGraph.v ===== *)
(** * The dependency graph: the cycle search is reachability

    [dependencyCreatesCycle] of the planning store walks the active edges of a
    workspace depth first with a [Set] of visited tickets and short-circuiting
    [some].  This file proves that the fuel of the model is never exhausted, that
    the search answers exactly whether the dependent is reachable from the
    blocker, and that adding an edge the search admits keeps the graph acyclic. *)
From S2P Require Import Prelude JsMap PlanningRows PlanningStore.

(** [a] depends on [b] by an active edge of the workspace. *)
Definition depends (org ws : string) (edges : list DependencyEdgeRow) (a b : string) : Prop :=
  ∃ e, e ∈ edges ∧ edge_from org ws a e = true ∧ ed_blockerDevTicketId e = b.

(** No ticket depends on itself through one or more edges. *)
Definition acyclic (org ws : string) (edges : list DependencyEdgeRow) : Prop :=
  ∀ a, ¬ tc (depends org ws edges) a a.

Section search.
Variables (org ws dependent : string) (edges : list DependencyEdgeRow).
Notation R := (depends org ws edges).
Notation search := (visit org ws dependent edges).

(** The [some] loop of one visit, over a suffix of the edges. *)
Fixpoint some_edge (fuel : nat) (ticketId : string) (es : list DependencyEdgeRow) (seen : list string)
    : option (bool * list string) :=
  match es with
  | [] => Some (false, seen)
  | e :: es =>
      if edge_from org ws ticketId e then
        match search fuel seen (ed_blockerDevTicketId e) with
        | None => None
        | Some (true, seen) => Some (true, seen)
        | Some (false, seen) => some_edge fuel ticketId es seen
        end
      else some_edge fuel ticketId es seen
  end.

Lemma visit_step fuel seen t :
  search (S fuel) seen t =
    if String.eqb t dependent then Some (true, seen)
    else if bool_decide (t ∈ seen) then Some (false, seen)
    else some_edge fuel t edges (t :: seen).
Proof.
  cbn [visit]. destruct (String.eqb t dependent); [done|].
  destruct (bool_decide (t ∈ seen)); [done|].
  generalize (t :: seen) as sn.
  assert (∀ es sn, (fix some (es : list DependencyEdgeRow) (seen : list string) :=
          match es with
          | [] => Some (false, seen)
          | e :: es =>
              if edge_from org ws t e then
                match search fuel seen (ed_blockerDevTicketId e) with
                | None => None
                | Some (true, seen) => Some (true, seen)
                | Some (false, seen) => some es seen
                end
              else some es seen
          end) es sn = some_edge fuel t es sn) as H; [|apply H].
  induction es as [|e es IH]; intros sn; cbn; [done|].
  destruct (edge_from org ws t e); [|apply IH].
  destruct (search fuel sn (ed_blockerDevTicketId e)) as [[[] ?]|]; [done|apply IH|done].
Qed.

(** ** Totality: one unit of fuel per unvisited ticket *)

(** The tickets the search can visit from [t]. *)
Definition nodes (t : string) : list string := t :: (ed_blockerDevTicketId <$> edges).

Definition unvisited (t : string) (seen : list string) : nat :=
  length (filter (λ x, x ∉ seen) (nodes t)).

Lemma filter_length_mono {A} (P Q : A → Prop) `{∀ x, Decision (P x), ∀ x, Decision (Q x)} (l : list A) :
  (∀ x, P x → Q x) → length (filter P l) <= length (filter Q l).
Proof.
  intros HPQ. induction l as [|x l IH]; [done|]. rewrite !filter_cons.
  repeat case_decide; simpl; naive_solver lia.
Qed.

Lemma filter_length_strict {A} (P Q : A → Prop) `{∀ x, Decision (P x), ∀ x, Decision (Q x)} (l : list A) x :
  (∀ x, P x → Q x) → x ∈ l → Q x → ¬ P x → length (filter P l) < length (filter Q l).
Proof.
  intros HPQ Hin HQ HP. induction l as [|y l IH]; [by apply elem_of_nil in Hin|].
  pose proof (filter_length_mono P Q l HPQ).
  rewrite !filter_cons. apply elem_of_cons in Hin as [->|Hin]; [|specialize (IH Hin)];
    repeat case_decide; simpl; naive_solver lia.
Qed.

Definition targets (seen : list string) : nat :=
  length (filter (λ x, x ∉ seen) (ed_blockerDevTicketId <$> edges)).

Lemma targets_mono seen seen' : seen ⊆ seen' → targets seen' <= targets seen.
Proof. intros H. apply filter_length_mono. set_solver. Qed.

Lemma some_edge_total fuel t es seen :
  es ⊆ edges →
  (∀ e seen', e ∈ edges → seen ⊆ seen' →
     ∃ b seen'', search fuel seen' (ed_blockerDevTicketId e) = Some (b, seen'') ∧ seen' ⊆ seen'') →
  ∃ b seen', some_edge fuel t es seen = Some (b, seen') ∧ seen ⊆ seen'.
Proof.
  revert seen. induction es as [|e es IH]; intros seen Hes Hv; simpl; [by eexists _, _|].
  destruct (edge_from org ws t e); [|apply IH; [set_solver|done]].
  destruct (Hv e seen) as (b & seen1 & -> & Hsub); [set_solver|done|].
  destruct b; [by eexists _, _|].
  destruct (IH seen1) as (b & seen2 & -> & Hsub2); [set_solver| |].
  - intros e' seen' He' Hs'. apply Hv; [done|set_solver].
  - eexists _, _. split; [done|set_solver].
Qed.

(** A blocker is visited with one unit of fuel to spare for each target that
    has not been seen. *)
Lemma visit_blocker_total fuel seen t :
  t ∈ ed_blockerDevTicketId <$> edges → targets seen < fuel →
  ∃ b seen', search fuel seen t = Some (b, seen') ∧ seen ⊆ seen'.
Proof.
  revert seen t. induction fuel as [|fuel IH]; intros seen t Ht Hfuel; [lia|].
  rewrite visit_step. destruct (String.eqb t dependent); [by eexists _, _|].
  case_bool_decide as Hseen; [by eexists _, _|].
  assert (targets (t :: seen) < targets seen) as Hlt.
  { apply (filter_length_strict _ _ _ t); set_solver. }
  destruct (some_edge_total fuel t edges (t :: seen)) as (b & seen' & -> & Hsub); [done| |].
  - intros e seen' He Hsub. apply IH; [by apply list_elem_of_fmap_2|].
    pose proof (targets_mono _ _ Hsub). lia.
  - eexists _, _. split; [done|set_solver].
Qed.

Lemma visit_total t : ∃ b seen, search (cycle_fuel edges) [] t = Some (b, seen).
Proof.
  unfold cycle_fuel. rewrite visit_step. destruct (String.eqb t dependent); [by eexists _, _|].
  case_bool_decide as Hseen; [set_solver|].
  destruct (some_edge_total (S (length edges)) t edges [t]) as (b & seen & -> & _); [done| |by eexists _, _].
  intros e seen' He _. apply visit_blocker_total; [by apply list_elem_of_fmap_2|].
  unfold targets. rewrite <-(length_fmap ed_blockerDevTicketId edges).
  pose proof (filter_length_mono (λ x, x ∉ seen') (λ _, True) (ed_blockerDevTicketId <$> edges) ltac:(done)) as Hle.
  pose proof (length_filter (λ _ : string, True) (ed_blockerDevTicketId <$> edges)). lia.
Qed.
End search.

(** ** Correctness *)

Section correctness.
Variables (org ws dependent : string) (edges : list DependencyEdgeRow).
Notation R := (depends org ws edges).
Notation search := (visit org ws dependent edges).

(** The tickets added between [seen] and [seen'] are not the dependent, and
    everything they depend on has been visited without meeting it. *)
Definition explored (seen seen' : list string) : Prop :=
  seen ⊆ seen' ∧
  ∀ x, x ∈ seen' → x ∉ seen → x ≠ dependent ∧ ∀ y, R x y → y ∈ seen' ∧ y ≠ dependent.

Lemma explored_refl seen : explored seen seen.
Proof. split; [done|]. naive_solver. Qed.

Lemma explored_trans s1 s2 s3 : explored s1 s2 → explored s2 s3 → explored s1 s3.
Proof.
  intros [Hs12 H12] [Hs23 H23]. split; [set_solver|].
  intros x Hx Hnx. destruct (decide (x ∈ s2)) as [Hx2|Hx2].
  - destruct (H12 x Hx2 Hnx) as [Hne Hy]. split; [done|]. intros y Hr.
    destruct (Hy y Hr). split; [set_solver|done].
  - by apply H23.
Qed.

(** What one visit and one [some] loop answer. *)
Definition visit_spec (fuel : nat) : Prop := ∀ seen t b seen',
  search fuel seen t = Some (b, seen') →
  if b then rtc R t dependent else explored seen seen' ∧ t ∈ seen' ∧ t ≠ dependent.

Lemma some_edge_spec fuel t es seen b seen' :
  visit_spec fuel → es ⊆ edges →
  some_edge org ws dependent edges fuel t es seen = Some (b, seen') →
  if b then rtc R t dependent
  else explored seen seen' ∧
       ∀ e, e ∈ es → edge_from org ws t e = true →
         ed_blockerDevTicketId e ∈ seen' ∧ ed_blockerDevTicketId e ≠ dependent.
Proof.
  intros Hv. revert seen. induction es as [|e es IH]; intros seen Hes H; simpl in H.
  - simplify_eq. split; [apply explored_refl|]. set_solver.
  - destruct (edge_from org ws t e) eqn:He.
    + destruct (search fuel seen (ed_blockerDevTicketId e)) as [[[] seen1]|] eqn:Hs; simplify_eq.
      * apply Hv in Hs; simpl in Hs. eapply rtc_l; [|done]. exists e. split_and!; [set_solver|done|done].
      * apply Hv in Hs as (Hex & Hin & Hne).
        apply IH in H; [|set_solver]. destruct b; [done|]. destruct H as [Hex' Hall].
        split; [by eapply explored_trans|]. intros e' [->|He']%elem_of_cons Hf; [|by apply Hall].
        split; [|done]. destruct Hex' as [Hsub _]. set_solver.
    + apply IH in H; [|set_solver]. destruct b; [done|]. destruct H as [Hex Hall].
      split; [done|]. intros e' [->|He']%elem_of_cons Hf; [congruence|by apply Hall].
Qed.

Lemma visit_correct fuel : visit_spec fuel.
Proof.
  induction fuel as [|fuel IH]; intros seen t b seen' H; [done|].
  rewrite visit_step in H. destruct (String.eqb_spec t dependent) as [->|Hne].
  { simplify_eq. apply rtc_refl. }
  case_bool_decide as Hseen; simplify_eq.
  { split_and!; [apply explored_refl|done|done]. }
  apply some_edge_spec in H; [|done|done]. destruct b; [done|]. destruct H as [[Hsub Hex] Hall].
  split_and!; [split; [set_solver|]|set_solver|done].
  intros x Hx Hnx. destruct (decide (x = t)) as [->|Hxt].
  - split; [done|]. intros y (e & He & Hf & <-). by apply Hall.
  - apply Hex; [done|]. set_solver.
Qed.

(** A set explored from the empty one is closed: nothing it holds reaches the
    dependent. *)
Lemma explored_no_path seen t : explored [] seen → t ∈ seen → ¬ rtc R t dependent.
Proof.
  intros [_ Hex] Hin Hpath.
  assert (∀ d, rtc R t d → d ∈ seen ∧ d ≠ dependent) as H; [|by apply (H dependent)].
  clear Hpath. intros d Hpath. induction Hpath as [x|x y z Hxy Hyz IH].
  - split; [done|]. apply Hex; [done|]. set_solver.
  - apply IH. destruct (Hex x Hin) as [_ Hy]; [set_solver|]. by apply Hy.
Qed.

End correctness.

(** The search answers reachability of the dependent from the blocker. *)
Lemma dependency_creates_cycle_spec org ws dependent blocker s :
  dependency_creates_cycle org ws dependent blocker s = true ↔
  rtc (depends org ws (jm_values (dependencyEdges s))) blocker dependent.
Proof.
  unfold dependency_creates_cycle. set (edges := jm_values (dependencyEdges s)).
  destruct (visit_total org ws dependent edges blocker) as (b & seen & Hv). rewrite Hv.
  apply visit_correct in Hv. destruct b; [by split|]. destruct Hv as (Hex & Hin & _).
  split; [done|]. intros Hpath. exfalso. by eapply explored_no_path.
Qed.

(** ** Growing and shrinking the graph *)

Lemma tc_mono {A} (R R' : A → A → Prop) a b : (∀ x y, R x y → R' x y) → tc R a b → tc R' a b.
Proof. intros HR H. induction H; [by apply tc_once, HR|]. eapply tc_l; [by apply HR|done]. Qed.

Lemma acyclic_mono org ws edges edges' :
  (∀ a b, depends org ws edges' a b → depends org ws edges a b) →
  acyclic org ws edges → acyclic org ws edges'.
Proof. intros Hsub Hac a Htc. by eapply Hac, tc_mono. Qed.

(** A path over the graph with one more edge either avoids the edge, or reaches
    its source over the old graph. *)
Lemma tc_new_edge {A} (R : A → A → Prop) d b x y :
  tc (λ u v, R u v ∨ (u = d ∧ v = b)) x y → tc R x y ∨ (rtc R x d ∧ rtc (λ u v, R u v ∨ (u = d ∧ v = b)) b y).
Proof.
  induction 1 as [x y [Hr|[-> ->]]|x y z [Hr|[-> ->]] Htc IH].
  - left. by apply tc_once.
  - right. split; apply rtc_refl.
  - destruct IH as [IH|[IH1 IH2]]; [left; by eapply tc_l|right]. split; [by eapply rtc_l|done].
  - right. split; [apply rtc_refl|]. by apply tc_rtc.
Qed.

Lemma rtc_new_edge {A} (R : A → A → Prop) d b x y :
  rtc (λ u v, R u v ∨ (u = d ∧ v = b)) x y → rtc R x y ∨ rtc R x d.
Proof.
  intros [->|H]%rtc_tc; [left; apply rtc_refl|].
  apply tc_new_edge in H as [H|[H _]]; [left; by apply tc_rtc|by right].
Qed.

Lemma acyclic_new_edge {A} (R : A → A → Prop) d b :
  (∀ a, ¬ tc R a a) → ¬ rtc R b d → ∀ a, ¬ tc (λ u v, R u v ∨ (u = d ∧ v = b)) a a.
Proof.
  intros Hac Hno a Htc. apply tc_new_edge in Htc as [Htc|[Had Hba]]; [by eapply Hac|].
  apply rtc_new_edge in Hba as [Hba|Hbd]; [|done]. apply Hno. by etrans.
Qed.

(** Adding the edge of an admitted command keeps the workspace acyclic. *)
Lemma acyclic_insert org ws edges edges' d b :
  (∀ x y, depends org ws edges' x y → depends org ws edges x y ∨ (x = d ∧ y = b)) →
  acyclic org ws edges → ¬ rtc (depends org ws edges) b d → acyclic org ws edges'.
Proof.
  intros Hsub Hac Hno a Htc. eapply (acyclic_new_edge (depends org ws edges) d b Hac Hno a).
  by eapply tc_mono.
Qed.
