(* ===== verification/CommandBase.v ===== *)
(** * The command spine
    ([application/dev-board-planning-commands.ts], shared functions)

    The state a command runs on, the calls it makes into the ports, receipt
    reservation, replay, acceptance and rejection, the ledger appends, and the
    weakest preconditions of each. *)
From S2P Require Import Prelude JsMap JsString JsValue SharedKernel Effects DevBoardDomain.
From S2P Require Import TenantContext Receipts Ledger PlanningRows PlanningStore.

(** The state: the three dependencies of the command layer, and how many UUIDs
    and clock readings have been drawn. *)
Record World (R L : Type) : Type := mkWorld {
  w_store : PlanningStore;
  w_receipts : R;
  w_ledger : L;
  w_uuids : nat;
  w_clock : nat;
}.
Arguments mkWorld {R L}.
Arguments w_store {R L}.
Arguments w_receipts {R L}.
Arguments w_ledger {R L}.
Arguments w_uuids {R L}.
Arguments w_clock {R L}.

Record CommandResult : Type := mkCommandResult {
  cr_commandId : string;
  cr_resultingVersions : list CommandExpectedVersion;
  cr_proposalId : option string;
  cr_devTicketId : option string;
  cr_dependencyEdgeId : option string;
}.

Definition failure (code message : string) : DomainError := domain_error code message.

(** [expected]: the version the envelope gives for a record, if it gives one. *)
Definition expected (e : CommandEnvelope) (kind id : string) : option Z :=
  match filter (λ v, recordKind v = kind ∧ recordId v = id) (env_expectedVersions e) with
  | [v] => Some (version_of v)
  | _ => None
  end.

(** [version === null || row === null || row.version !== version], negated: the
    row and version the command goes on with. *)
Definition versioned {A} (version_field : A → Z) (version : option Z) (row : option A) : option (A * Z) :=
  match version, row with
  | Some v, Some r => if (version_field r =? v)%Z then Some (r, v) else None
  | _, _ => None
  end.

(** [typeof summary[field] === "string" ? summary[field] : undefined] *)
Definition summary_string (field : string) (summary : jsobj) : option string :=
  match obj_get field summary with JStr s => Some s | _ => None end.

Definition replay (receipt : CommandReceiptResult) : Result CommandResult :=
  match rr_state receipt with
  | Accepted =>
      let summary := default [] (rr_resultSummary receipt) in
      ok (mkCommandResult (rr_commandId receipt) (default [] (rr_resultingVersions receipt))
            (summary_string "proposalId" summary) (summary_string "devTicketId" summary)
            (summary_string "dependencyEdgeId" summary))
  | state =>
      err (failure (default "dev_board.command_rejected" (rr_outcomeCode receipt))
        (if bool_decide (state = Reserved) then "The command is already in progress."
         else match rr_resultSummary receipt with
              | Some summary =>
                  match obj_get "message" summary with
                  | JStr m => m
                  | _ => "The command was rejected."
                  end
              | None => "The command was rejected."
              end))
  end.

Definition decisionReason (value : string) : Result string :=
  let normalized := normalize_spaces value in
  if String.length normalized =? 0 then
    err (failure "dev_board.decision_reason_required" "A decision reason is required.")
  else if 4000 <? String.length normalized then
    err (failure "dev_board.decision_reason_too_long" "Decision reason must be 4000 characters or fewer.")
  else ok normalized.

Section commands.
Context {R L : Type} {RP : CommandReceiptRepository R} {LP : DevBoardLedgerAppendPort L}.
Context {RT : NodeRuntime} {DB : TenantDatabase}.

Abbreviation world := (World R L).
Abbreviation Cmd := (M (World R L)).

(** ** Calls into the ports *)

Definition set_store (s : PlanningStore) (w : world) : world :=
  mkWorld s (w_receipts w) (w_ledger w) (w_uuids w) (w_clock w).
Definition set_receipts (r : R) (w : world) : world :=
  mkWorld (w_store w) r (w_ledger w) (w_uuids w) (w_clock w).
Definition set_ledger (l : L) (w : world) : world :=
  mkWorld (w_store w) (w_receipts w) l (w_uuids w) (w_clock w).

(** A method of the planning store. *)
Definition on_store {A} (m : M PlanningStore A) : Cmd A := λ w,
  let '(r, s) := m (w_store w) in (r, set_store s w).

(** A read of the planning store that is not one of its mutating methods. *)
Definition ask_store {A} (f : PlanningStore → A) : Cmd A := on_store (reads f).

Definition on_receipts {A} (f : R → A * R) : Cmd A := λ w,
  let '(a, r) := f (w_receipts w) in (Returned a, set_receipts r w).

Definition on_ledger {A} (f : L → A * L) : Cmd A := λ w,
  let '(a, l) := f (w_ledger w) in (Returned a, set_ledger l w).

(** [randomUUID()] *)
Definition randomUUID : Cmd string := λ w,
  (Returned (randomUUID_at (w_uuids w)),
   mkWorld (w_store w) (w_receipts w) (w_ledger w) (S (w_uuids w)) (w_clock w)).

(** [new Date()] *)
Definition newDate : Cmd Z := λ w,
  (Returned (dateNow_at (w_clock w)),
   mkWorld (w_store w) (w_receipts w) (w_ledger w) (w_uuids w) (S (w_clock w))).

(** [executeRiskyMutation]: on any exception the maps of the store go back to
    what they were. *)
Definition executeRiskyMutation {A} (mutation : Cmd A) : Cmd (Result A) :=
  before ← get_state;
  try_catch
    (value ← mutation; mret (ok value))
    (λ error,
       after ← get_state;
       put_state (set_store (restore_maps (w_store before) (w_store after)) after);;
       risky_error error).

(** ** Receipts *)

Definition reject_input (e : CommandEnvelope) (code message : string) (extra : jsobj)
    (resultRef : option string) : FinalizeCommandReceiptInput :=
  mkFinalize (env_organizationId e) (env_commandId e) ORejected (Some code) resultRef
    (Some (obj_spread [("message", JStr message)] extra)) None.

Definition reject_with (e : CommandEnvelope) (code message : string) (extra : jsobj)
    (resultRef : option string) : Cmd (Result CommandResult) :=
  result ← on_receipts (finalizeTransaction (reject_input e code message extra resultRef));
  match result with
  | err error => throw (ExnDomain error)
  | ok _ => mret (err (failure code message))
  end.

(** [reject] without its optional arguments. *)
Definition reject (e : CommandEnvelope) (code message : string) : Cmd (Result CommandResult) :=
  reject_with e code message [] None.

Definition reject_error (e : CommandEnvelope) (d : DomainError) : Cmd (Result CommandResult) :=
  reject e (error_code d) (error_message d).

Definition accept_input (e : CommandEnvelope) (outcomeCode resultRef : string)
    (versions : list CommandExpectedVersion) (ids : list (string * string)) : FinalizeCommandReceiptInput :=
  mkFinalize (env_organizationId e) (env_commandId e) OAccepted (Some outcomeCode) (Some resultRef)
    (Some ((λ kv, (kv.1, JStr kv.2)) <$> ids)) (Some versions).

(** [ids[field]] *)
Definition id_of (field : string) (ids : list (string * string)) : option string :=
  snd <$> find (λ kv, String.eqb field kv.1) ids.

Definition accepted_result (e : CommandEnvelope) (versions : list CommandExpectedVersion)
    (ids : list (string * string)) : CommandResult :=
  mkCommandResult (env_commandId e) versions (id_of "proposalId" ids) (id_of "devTicketId" ids)
    (id_of "dependencyEdgeId" ids).

Definition accept (e : CommandEnvelope) (outcomeCode resultRef : string)
    (versions : list CommandExpectedVersion) (ids : list (string * string)) : Cmd (Result CommandResult) :=
  finalized ← on_receipts (finalizeTransaction (accept_input e outcomeCode resultRef versions ids));
  match finalized with
  | err error => throw (ExnDomain error)
  | ok _ => mret (ok (accepted_result e versions ids))
  end.

(** [reserve]: [inl] goes on with a fresh reservation, [inr] is the answer the
    command returns at once. *)
Definition reserve (e : CommandEnvelope) : Cmd (CommandReceiptResult + Result CommandResult) :=
  result ← on_receipts (reserveOrReplayTransaction e);
  match result with
  | err error => mret (inr (err error))
  | ok receipt =>
      if negb (bool_decide (rr_state receipt = Reserved)) then mret (inr (replay receipt))
      else
        match parseCommandActorRef (actorRef_js (env_actorRef e)) with
        | err error =>
            answer ← reject_error e error;
            mret (inr answer)
        | ok _ => mret (inl receipt)
        end
  end.

(** [const reservation = await reserve(...); if ("ok" in reservation) return reservation; ...] *)
Definition reserved (e : CommandEnvelope) (body : Cmd (Result CommandResult)) : Cmd (Result CommandResult) :=
  reservation ← reserve e;
  match reservation with
  | inr answer => mret answer
  | inl _ => body
  end.

(** The frame of every command. *)
Definition command (e : CommandEnvelope) (body : Cmd (Result CommandResult)) : Cmd (Result CommandResult) :=
  withTenant (env_organizationId e) (reserved e body).

(** ** Ledger appends *)

Definition planning_input (e : CommandEnvelope) (aggregateId entryKind subject hash : string)
    (content : jsobj) : AppendPlanningDecisionEntryInput :=
  mkPlanningInput (env_organizationId e) (env_workspaceId e) (env_commandId e) aggregateId entryKind
    subject hash content.

Definition planning (e : CommandEnvelope) (aggregateId entryKind subject : string) (content : jsobj)
    : Cmd unit :=
  match computeReadyContractContentHash content with
  | None => throw (ExnType "Ready contract content must be JSON serializable.")
  | Some hash =>
      result ← on_ledger (appendPlanningDecisionEntry
                            (planning_input e aggregateId entryKind subject hash content));
      match result with err error => throw (ExnDomain error) | ok _ => mret tt end
  end.

Definition activity_input (e : CommandEnvelope) (aggregateId : string) (aggregateVersion : Z)
    (eventName : string) (now : Z) (payload : jsobj) : AppendActivityEventInput :=
  mkActivityInput (env_organizationId e) (env_workspaceId e) aggregateId aggregateVersion eventName
    (env_commandId e) (env_idempotencyKey e) (env_actorRef e) (env_sourceRef e)
    (env_authorizationVersion e) (env_correlationId e) (env_causationId e) now payload.

Definition activity (e : CommandEnvelope) (aggregateId : string) (aggregateVersion : Z)
    (eventName : string) (payload : jsobj) : Cmd unit :=
  now ← newDate;
  result ← on_ledger (appendActivityEvent
                        (activity_input e aggregateId aggregateVersion eventName now payload));
  match result with err error => throw (ExnDomain error) | ok _ => mret tt end.

(** ** Authorization *)

Definition is_user (e : CommandEnvelope) : bool := String.eqb (actor_kind (env_actorRef e)) "user".

Definition has_admin_role (e : CommandEnvelope) (s : PlanningStore) : bool :=
  hasOrganizationRole (env_organizationId e) (stableId (env_actorRef e)) "owner" s
  || hasOrganizationRole (env_organizationId e) (stableId (env_actorRef e)) "admin" s.

Definition authorizedDevTicketArchiveActor (e : CommandEnvelope) (ticket : DevTicketRow) : Cmd bool :=
  ask_store (λ s, is_user e && (String.eqb (stableId (env_actorRef e)) (dt_humanOwnerUserId ticket)
                                || has_admin_role e s)).

Definition authorizedProposalArchiveActor (e : CommandEnvelope) : Cmd bool :=
  ask_store (λ s, is_user e && has_admin_role e s).

Definition authorizedLegacyImportActor (e : CommandEnvelope) : Cmd bool :=
  ask_store (λ s, is_user e && has_admin_role e s).

End commands.

Definition proposal_version (p : ProposalRow) : CommandExpectedVersion :=
  mkExpected "proposal" (pr_id p) (pr_version p).
Definition ticket_version (t : DevTicketRow) : CommandExpectedVersion :=
  mkExpected "dev_ticket" (dt_id t) (dt_version t).
Definition queue_version (v : Z) : CommandExpectedVersion := mkExpected "lane_queue" "todo" v.
Definition edge_version (e : DependencyEdgeRow) : CommandExpectedVersion :=
  mkExpected "dependency_edge" (ed_id e) (ed_version e).
Definition historical_version (h : HistoricalRecordRow) : CommandExpectedVersion :=
  mkExpected "historical_record" (hr_historicalRecordId h) (hr_version h).

(** * Rules for reasoning about commands

    A weakest-precondition rule per call of the spine, the tactic [cmd_step] that
    applies them, and the postcondition every command is proved against. *)

(** The Todo header of the envelope's workspace may have been created on demand:
    the only store write a rejected command can leave behind. *)
Inductive opened (e : CommandEnvelope) (s : PlanningStore) : PlanningStore → Prop :=
| opened_same : opened e s s
| opened_header :
    let org := env_organizationId e in
    let ws := env_workspaceId e in
    jm_get (key org ws "todo") (todoQueueHeaders s) = None →
    opened e s (set_todoQueueHeaders (jm_set (key org ws "todo") (mkHeader org ws 1) (todoQueueHeaders s)) s).

#[export] Hint Constructors opened : opzava.

Section rules.
Context {R L : Type} {RP : CommandReceiptRepository R} {LP : DevBoardLedgerAppendPort L}.
Context {RT : NodeRuntime} {DB : TenantDatabase}.
Abbreviation world := (World R L).
Abbreviation Cmd := (M (World R L)).
Implicit Types (w : world).

(** ** Calls into the ports *)

Lemma wp_on_store {A} (m : M PlanningStore A) (Q : outcome A → world → Prop) w :
  wp m (λ r s, Q r (set_store s w)) (w_store w) → wp (on_store m) Q w.
Proof.
  intros H. apply wp_of_run. intros r w' Hrun. unfold on_store in Hrun.
  destruct (m (w_store w)) as [r' s'] eqn:Hm. simplify_eq. by eapply wp_run in H.
Qed.

Lemma wp_reads {A} (f : PlanningStore → A) Q s : Q (Returned (f s)) s → wp (reads f) Q s.
Proof. intros H. apply wp_bind, wp_get, wp_ret, H. Qed.

Lemma set_store_id w : set_store (w_store w) w = w.
Proof. by destruct w. Qed.

Lemma wp_ask_store {A} (f : PlanningStore → A) (Q : outcome A → world → Prop) w :
  Q (Returned (f (w_store w))) w → wp (ask_store f) Q w.
Proof. intros H. apply wp_on_store, wp_reads. by rewrite set_store_id. Qed.

Lemma wp_on_store_reads {A} (f : PlanningStore → A) (Q : outcome A → world → Prop) w :
  Q (Returned (f (w_store w))) w → wp (on_store (reads f)) Q w.
Proof. apply wp_ask_store. Qed.

Lemma wp_randomUUID (Q : outcome string → world → Prop) w :
  (∀ id n, Q (Returned id) (mkWorld (w_store w) (w_receipts w) (w_ledger w) n (w_clock w))) →
  wp randomUUID Q w.
Proof. intros H. apply wp_of_run. intros r w' [= <- <-]. apply H. Qed.

Lemma wp_newDate (Q : outcome Z → world → Prop) w :
  (∀ now n, Q (Returned now) (mkWorld (w_store w) (w_receipts w) (w_ledger w) (w_uuids w) n)) →
  wp newDate Q w.
Proof. intros H. apply wp_of_run. intros r w' [= <- <-]. apply H. Qed.

Lemma wp_on_receipts {A} (f : R → A * R) (Q : outcome A → world → Prop) w :
  (∀ a rc, f (w_receipts w) = (a, rc) → Q (Returned a) (set_receipts rc w)) →
  wp (on_receipts f) Q w.
Proof.
  intros H. apply wp_of_run. intros r w' Hrun. unfold on_receipts in Hrun.
  destruct (f (w_receipts w)) as [a rc] eqn:Hf. simplify_eq. auto.
Qed.

Lemma wp_on_ledger {A} (f : L → A * L) (Q : outcome A → world → Prop) w :
  (∀ a l, f (w_ledger w) = (a, l) → Q (Returned a) (set_ledger l w)) → wp (on_ledger f) Q w.
Proof.
  intros H. apply wp_of_run. intros r w' Hrun. unfold on_ledger in Hrun.
  destruct (f (w_ledger w)) as [a l] eqn:Hf. simplify_eq. auto.
Qed.

(** ** Savepoints *)

Lemma restore_maps_same s0 s :
  activeMembers s = activeMembers s0 → organizationRoles s = organizationRoles s0 →
  restore_maps s0 s = s0.
Proof. unfold restore_maps. intros -> ->. by destruct s0. Qed.

Lemma wp_risky_error {A} e (Q : outcome (Result A) → world → Prop) w :
  (∀ d, Q (Returned (err d)) w) → Q (Thrown e) w → wp (risky_error e) Q w.
Proof.
  intros Hr Ht. unfold risky_error.
  repeat case_match; first [by apply wp_ret | by apply wp_throw].
Qed.

(** When the mutation throws, the store is the one before the savepoint. *)
Lemma wp_executeRiskyMutation {A} (mutation : Cmd A) (Q : outcome (Result A) → world → Prop) w :
  wp mutation (λ r w', match r with
    | Returned a => Q (Returned (ok a)) w'
    | Thrown e => wp (risky_error e) Q (set_store (restore_maps (w_store w) (w_store w')) w')
    end) w →
  wp (executeRiskyMutation mutation) Q w.
Proof.
  intros H. apply wp_bind, wp_get, wp_try_catch, wp_bind.
  eapply wp_mono; [done|]. intros [a|e] w' HQ; [by apply wp_ret|].
  by apply wp_bind, wp_get, wp_bind, wp_put.
Qed.

(** ** Receipts and ledgers

    These rules forget what the ports hold: they are the ones the store
    properties need. *)

Lemma wp_reject_with e code message extra ref (Q : outcome (Result CommandResult) → world → Prop) w :
  (∀ rc, Q (Returned (err (failure code message))) (set_receipts rc w)) →
  (∀ rc d, Q (Thrown (ExnDomain d)) (set_receipts rc w)) →
  wp (reject_with e code message extra ref) Q w.
Proof.
  intros Hr Ht. apply wp_bind, wp_on_receipts. intros [u|d] rc _; [by apply wp_ret|by apply wp_throw].
Qed.

Lemma wp_accept e code ref versions ids (Q : outcome (Result CommandResult) → world → Prop) w :
  (∀ rc, Q (Returned (ok (accepted_result e versions ids))) (set_receipts rc w)) →
  (∀ rc d, Q (Thrown (ExnDomain d)) (set_receipts rc w)) →
  wp (accept e code ref versions ids) Q w.
Proof.
  intros Hr Ht. apply wp_bind, wp_on_receipts. intros [u|d] rc _; [by apply wp_ret|by apply wp_throw].
Qed.

Lemma wp_planning e agg kind subject content (Q : outcome unit → world → Prop) w :
  (∀ l, Q (Returned tt) (set_ledger l w)) → (∀ l x, Q (Thrown x) (set_ledger l w)) →
  wp (planning e agg kind subject content) Q w.
Proof.
  intros Hr Ht. unfold planning. case_match.
  - apply wp_bind, wp_on_ledger. intros [n|d] l _; [by apply wp_ret|by apply wp_throw].
  - apply wp_throw. specialize (Ht (w_ledger w) (ExnType "Ready contract content must be JSON serializable.")).
    by destruct w.
Qed.

Lemma wp_activity e agg v name payload (Q : outcome unit → world → Prop) w :
  (∀ l n, Q (Returned tt) (mkWorld (w_store w) (w_receipts w) l (w_uuids w) n)) →
  (∀ l n x, Q (Thrown x) (mkWorld (w_store w) (w_receipts w) l (w_uuids w) n)) →
  wp (activity e agg v name payload) Q w.
Proof.
  intros Hr Ht. apply wp_bind, wp_newDate. intros now n.
  apply wp_bind, wp_on_ledger. intros [m|d] l _; [apply wp_ret, Hr|apply wp_throw, Ht].
Qed.

(** ** The postcondition of a command

    [P res s s'] relates the stores around an accepted command with its result.
    - accepted: the answer is a replay and nothing moved, or [P] holds;
    - refused: the ledgers are untouched and the store too, up to the creation of
      a Todo header;
    - an exception leaves the store as a refusal or as an acceptance does. *)
Definition cmd_post (e : CommandEnvelope) (P : CommandResult → PlanningStore → PlanningStore → Prop) w
    (r : outcome (Result CommandResult)) w' : Prop :=
  match r with
  | Returned (ok res) => (w_store w' = w_store w ∧ w_ledger w' = w_ledger w) ∨ P res (w_store w) (w_store w')
  | Returned (err _) => opened e (w_store w) (w_store w') ∧ w_ledger w' = w_ledger w
  | Thrown _ => opened e (w_store w) (w_store w') ∨ ∃ res, P res (w_store w) (w_store w')
  end.

Lemma wp_reserved e body P w :
  (∀ rc, wp body (cmd_post e P w) (set_receipts rc w)) → wp (reserved e body) (cmd_post e P w) w.
Proof.
  intros H. apply wp_bind, wp_bind, wp_on_receipts. intros [receipt|d] rc _.
  - case_match; [apply wp_ret, wp_ret|].
    { destruct (replay receipt); simpl; [left|split]; eauto with opzava. }
    case_match; [apply wp_ret, H|].
    apply wp_bind, wp_reject_with; simpl.
    + intros rc'. apply wp_ret, wp_ret; simpl. split; [constructor|done].
    + intros rc' d. simpl. left. constructor.
  - apply wp_ret, wp_ret. simpl. split; [constructor|done].
Qed.

Lemma wp_command e body P w :
  (∀ rc, uuidPattern (env_organizationId e) = true → wp body (cmd_post e P w) (set_receipts rc w)) →
  wp (command e body) (cmd_post e P w) w.
Proof.
  intros H. apply wp_withTenant.
  - intros x. simpl. left. constructor.
  - intros Hu. eapply wp_mono; [by apply wp_reserved; auto|]. by intros [[]|] w'.
Qed.

End rules.
