(* ===== verification/ProposalCommands.v ===== *)
(** * Proposal commands
    ([application/dev-board-planning-commands.ts]: [draftProposal] to [restoreProposal]
    and [decideProposal]) *)
From S2P Require Import Prelude JsString JsValue JsMap SharedKernel Effects DevBoardDomain.
From S2P Require Import TenantContext Receipts Ledger PlanningRows PlanningStore CommandBase.

Record DraftProposalInput : Type := mkDraftProposal {
  dp_discoverySummary : string;
  dp_blockingAssessment : jsval;
  dp_suggestedContract : option jsval;
}.

Record AcceptProposalInput : Type := mkAcceptProposal {
  acp_proposalId : string;
  acp_humanOwnerUserId : string;
  acp_initialContractContent : option jsval;
}.

Record MergeProposalInput : Type := mkMergeProposal {
  mp_proposalId : string;
  mp_existingDevTicketId : string;
  mp_reason : string;
}.

(** [RejectProposalInput] and [ArchiveProposalInput] *)
Record ProposalReasonInput : Type := mkProposalReason { rp_proposalId : string; rp_reason : string }.

Section proposal_commands.
Context {R L : Type} {RP : CommandReceiptRepository R} {LP : DevBoardLedgerAppendPort L}.
Context {RT : NodeRuntime} {DB : TenantDatabase}.
Abbreviation Cmd := (M (World R L)).
Implicit Types (e : CommandEnvelope).

Definition proposal_drift e : Cmd (Result CommandResult) :=
  reject e "dev_board.expected_version_drift" "Proposal version has changed.".

Definition draftProposal e (input : DraftProposalInput) : Cmd (Result CommandResult) :=
  command e (
    match normalizeDiscoverySummary (dp_discoverySummary input) with
    | err d => reject_error e d
    | ok summary =>
    match parseBlockingAssessment (dp_blockingAssessment input) with
    | err d => reject_error e d
    | ok assessment =>
    match parseReadyContractContent (default (JObj []) (dp_suggestedContract input)) with
    | err d => reject_error e d
    | ok contract =>
      inserted ← executeRiskyMutation (on_store (insertProposal
        (mkInsertProposal (env_targetAggregateId e) (env_organizationId e) (env_workspaceId e)
           summary assessment contract (env_commandId e))));
      match inserted with
      | err d => reject_error e d
      | ok proposal =>
        planning e (pr_id proposal) "ProposalDrafted" "Proposal drafted"
          [("discoverySummary", JStr (pr_discoverySummary proposal));
           ("blockingAssessment", JStr (blocking_str (pr_blockingAssessment proposal)));
           ("suggestedContract", JObj (pr_suggestedContract proposal))];;
        accept e "dev_board.proposal_drafted" (pr_id proposal) [proposal_version proposal]
          [("proposalId", pr_id proposal)]
      end
    end end end).

Definition decision_input e (p : ProposalRow) (version : Z) (state : ProposalLifecycleState)
    : UpdateProposalInput :=
  mkUpdateProposal (env_organizationId e) (env_workspaceId e) (pr_id p) version state None None None.

Definition submitProposal e (proposalId : string) : Cmd (Result CommandResult) :=
  command e (
    let version := expected e "proposal" proposalId in
    proposal ← on_store (selectProposalForUpdate (env_organizationId e) (env_workspaceId e) proposalId);
    match versioned pr_version version proposal with
    | None => proposal_drift e
    | Some (proposal, version) =>
      if negb (bool_decide (pr_lifecycleState proposal = PDraft)) || negb (is_null (pr_archivedAt proposal))
      then reject e "dev_board.proposal_not_draft" "Proposal is not a decision draft."
      else
        changed ← executeRiskyMutation (on_store (updateProposal
          (decision_input e proposal version PAwaitingDecision)));
        match changed with
        | err d => reject_error e d
        | ok None => proposal_drift e
        | ok (Some updated) =>
          activity e (pr_id updated) (pr_version updated) "ProposalSubmitted"
            [("lifecycleState", JStr (lifecycle_str (pr_lifecycleState updated)))];;
          accept e "dev_board.proposal_submitted" (pr_id updated) [proposal_version updated]
            [("proposalId", pr_id updated)]
        end
    end).

Definition not_awaiting e : Cmd (Result CommandResult) :=
  reject e "dev_board.proposal_not_awaiting_decision" "Proposal is not awaiting a decision.".

(** [proposal.lifecycleState !== "awaiting_decision" || proposal.archivedAt !== null], negated *)
Definition awaiting (p : ProposalRow) : bool :=
  bool_decide (pr_lifecycleState p = PAwaitingDecision) && is_null (pr_archivedAt p).

(** The hash the code computes for contents it has already admitted. *)
Definition content_hash (content : jsobj) : string :=
  default "" (computeReadyContractContentHash content).

Definition accepted_ticket_input e (input : AcceptProposalInput) (proposal : ProposalRow)
    (contract : jsobj) (id : string) : InsertDevTicketInput :=
  mkInsertDevTicket id (env_organizationId e) (env_workspaceId e) OProposal (Some (pr_id proposal))
    (acp_humanOwnerUserId input) contract (content_hash contract) (env_commandId e).

Definition acceptance_input e (proposal : ProposalRow) (version : Z) (ticketId : string)
    : UpdateProposalInput :=
  mkUpdateProposal (env_organizationId e) (env_workspaceId e) (pr_id proposal) version PAccepted
    (Some (env_commandId e)) (Some ticketId) None.

Definition acceptProposal e (input : AcceptProposalInput) : Cmd (Result CommandResult) :=
  command e (
    let version := expected e "proposal" (acp_proposalId input) in
    proposal ← on_store (selectProposalForUpdate (env_organizationId e) (env_workspaceId e)
                           (acp_proposalId input));
    match versioned pr_version version proposal with
    | None => proposal_drift e
    | Some (proposal, version) =>
      if negb (awaiting proposal) then not_awaiting e
      else
        member ← ask_store (isActiveMember (env_organizationId e) (acp_humanOwnerUserId input));
        if negb member then
          reject e "dev_board.human_owner_not_active_member"
            "Human Owner must be an active organization member."
        else
        match parseReadyContractContent (default (JObj []) (acp_initialContractContent input)) with
        | err d => reject_error e d
        | ok contract =>
          mutation ← executeRiskyMutation (
            id ← randomUUID;
            devTicket ← on_store (insertDevTicket (accepted_ticket_input e input proposal contract id));
            updated ← on_store (updateProposal (acceptance_input e proposal version (dt_id devTicket)));
            mret (devTicket, updated));
          match mutation with
          | err d => reject_error e d
          | ok (_, None) => proposal_drift e
          | ok (devTicket, Some updated) =>
            planning e (dt_id devTicket) "ContractVersionCreated" "Initial ready contract"
              [("version", jsint (dt_readyContractVersion devTicket));
               ("content", JObj (dt_readyContractContent devTicket));
               ("contentHash", JStr (dt_readyContractContentHash devTicket))];;
            activity e (pr_id updated) (pr_version updated) "ProposalAccepted"
              [("devTicketId", JStr (dt_id devTicket))];;
            activity e (dt_id devTicket) (dt_version devTicket) "DevTicketCreated"
              [("lane", JStr (lane_str (dt_lane devTicket)));
               ("humanOwnerUserId", JStr (dt_humanOwnerUserId devTicket))];;
            accept e "dev_board.proposal_accepted" (dt_id devTicket)
              [proposal_version updated; ticket_version devTicket]
              [("proposalId", pr_id updated); ("devTicketId", dt_id devTicket)]
          end
        end
    end).

Definition mergeProposal e (input : MergeProposalInput) : Cmd (Result CommandResult) :=
  command e (
    match decisionReason (mp_reason input) with
    | err d => reject_error e d
    | ok reason =>
      let proposalVersion := expected e "proposal" (mp_proposalId input) in
      let ticketVersion := expected e "dev_ticket" (mp_existingDevTicketId input) in
      proposal ← on_store (selectProposalForUpdate (env_organizationId e) (env_workspaceId e)
                             (mp_proposalId input));
      ticket ← on_store (selectDevTicketForUpdate (env_organizationId e) (env_workspaceId e)
                           (mp_existingDevTicketId input));
      match versioned pr_version proposalVersion proposal, versioned dt_version ticketVersion ticket with
      | Some (proposal, version), Some (ticket, _) =>
        if negb (awaiting proposal) then not_awaiting e
        else if negb (is_null (dt_archivedAt ticket)) then
          reject e "dev_board.dev_ticket_not_active"
            "DevTicket is archived and cannot receive a Proposal merge."
        else
          changed ← executeRiskyMutation (on_store (updateProposal
            (decision_input e proposal version PMerged)));
          match changed with
          | err d => reject_error e d
          | ok None => proposal_drift e
          | ok (Some updated) =>
            planning e (dt_id ticket) "ProposalDecisionRationaleRecorded" "Proposal merged into DevTicket"
              [("proposalId", JStr (pr_id proposal));
               ("discoverySummary", JStr (pr_discoverySummary proposal));
               ("blockingAssessment", JStr (blocking_str (pr_blockingAssessment proposal)));
               ("reason", JStr reason)];;
            activity e (pr_id updated) (pr_version updated) "ProposalMerged"
              [("devTicketId", JStr (dt_id ticket))];;
            accept e "dev_board.proposal_merged" (pr_id updated)
              [proposal_version updated; ticket_version ticket]
              [("proposalId", pr_id updated); ("devTicketId", dt_id ticket)]
          end
      | _, _ => reject e "dev_board.expected_version_drift" "Proposal or DevTicket version has changed."
      end
    end).

Definition decideProposal e (input : ProposalReasonInput) (lifecycleState : ProposalLifecycleState)
    (eventName outcomeCode subject : string) : Cmd (Result CommandResult) :=
  command e (
    match decisionReason (rp_reason input) with
    | err d => reject_error e d
    | ok reason =>
      let version := expected e "proposal" (rp_proposalId input) in
      proposal ← on_store (selectProposalForUpdate (env_organizationId e) (env_workspaceId e)
                             (rp_proposalId input));
      match versioned pr_version version proposal with
      | None => proposal_drift e
      | Some (proposal, version) =>
        if negb (awaiting proposal) then not_awaiting e
        else
          changed ← executeRiskyMutation (on_store (updateProposal
            (decision_input e proposal version lifecycleState)));
          match changed with
          | err d => reject_error e d
          | ok None => proposal_drift e
          | ok (Some updated) =>
            planning e (pr_id updated) "ProposalDecisionRationaleRecorded" subject
              [("reason", JStr reason)];;
            activity e (pr_id updated) (pr_version updated) eventName
              [("lifecycleState", JStr (lifecycle_str (pr_lifecycleState updated)))];;
            accept e outcomeCode (pr_id updated) [proposal_version updated]
              [("proposalId", pr_id updated)]
          end
      end
    end).

Definition rejectProposal e (input : ProposalReasonInput) : Cmd (Result CommandResult) :=
  decideProposal e input PRejected "ProposalRejected" "dev_board.proposal_rejected" "Proposal rejected".

(** The update of [archiveProposal] and [restoreProposal]: the decision fields
    are written back unchanged. *)
Definition overlay_input e (p : ProposalRow) (version : Z) (at_ : option Z) (by_ reason : option string)
    : UpdateProposalInput :=
  mkUpdateProposal (env_organizationId e) (env_workspaceId e) (pr_id p) version (pr_lifecycleState p)
    (pr_acceptedCommandId p) (pr_acceptedDevTicketId p) (Some (at_, by_, reason)).

Definition archiveProposal e (input : ProposalReasonInput) : Cmd (Result CommandResult) :=
  command e (
    match decisionReason (rp_reason input) with
    | err d => reject_error e d
    | ok reason =>
      let version := expected e "proposal" (rp_proposalId input) in
      proposal ← on_store (selectProposalForUpdate (env_organizationId e) (env_workspaceId e)
                             (rp_proposalId input));
      match versioned pr_version version proposal with
      | None => proposal_drift e
      | Some (proposal, version) =>
        if negb (is_null (pr_archivedAt proposal)) then
          reject e "dev_board.proposal_already_archived" "Proposal is already archived."
        else
          authorized ← authorizedProposalArchiveActor e;
          if negb authorized then
            reject e "dev_board.archive_authorization_required"
              "Archive requires an authorized organization owner or admin."
          else
            changed ← executeRiskyMutation (
              now ← newDate;
              on_store (updateProposal (overlay_input e proposal version (Some now)
                                          (Some (stableId (env_actorRef e))) (Some reason))));
            match changed with
            | err d => reject_error e d
            | ok None => proposal_drift e
            | ok (Some updated) =>
              planning e (pr_id updated) "ProposalDecisionRationaleRecorded" "Proposal archived"
                [("reason", JStr reason)];;
              activity e (pr_id updated) (pr_version updated) "ProposalArchived"
                [("lifecycleState", JStr (lifecycle_str (pr_lifecycleState updated)))];;
              accept e "dev_board.proposal_archived" (pr_id updated) [proposal_version updated]
                [("proposalId", pr_id updated)]
            end
      end
    end).

Definition restoreProposal e (proposalId : string) : Cmd (Result CommandResult) :=
  command e (
    let version := expected e "proposal" proposalId in
    proposal ← on_store (selectProposalForUpdate (env_organizationId e) (env_workspaceId e) proposalId);
    match versioned pr_version version proposal with
    | None => proposal_drift e
    | Some (proposal, _) =>
      if is_null (pr_archivedAt proposal) then
        reject e "dev_board.proposal_not_archived" "Proposal is not archived."
      else
        authorized ← authorizedProposalArchiveActor e;
        if negb authorized then
          reject e "dev_board.restore_authorization_required"
            "Restore requires an authorized organization owner or admin."
        else
          changed ← executeRiskyMutation (on_store (updateProposal
            (overlay_input e proposal (pr_version proposal) None None None)));
          match changed with
          | err d => reject_error e d
          | ok None => proposal_drift e
          | ok (Some updated) =>
            planning e (pr_id updated) "ArchiveRestored" "Proposal restored"
              [("restoredByUserId", JStr (stableId (env_actorRef e)))];;
            activity e (pr_id updated) (pr_version updated) "ProposalRestored"
              [("lifecycleState", JStr (lifecycle_str (pr_lifecycleState updated)))];;
            accept e "dev_board.proposal_restored" (pr_id updated) [proposal_version updated]
              [("proposalId", pr_id updated)]
          end
    end).

End proposal_commands.
