(* ===== verification/TicketCommands.v ===== *)
(** * Ticket commands
    ([application/dev-board-planning-commands.ts], [archiveDevTicket],
    [restoreDevTicket], [setDevTicketClassification], [approveReadyToTodo]) *)
From S2P Require Import Prelude JsString JsValue JsMap SharedKernel Effects DevBoardDomain.
From S2P Require Import TenantContext Receipts Ledger PlanningRows PlanningStore CommandBase.

Record ArchiveDevTicketInput : Type := mkArchiveDevTicket {
  adt_devTicketId : string;
  adt_reason : string;
}.

(** The fields of type [unknown] are values; an absent one is [JUndefined]. *)
Record SetDevTicketClassificationInput : Type := mkSetClassification {
  sc_devTicketId : string;
  sc_type : jsval;
  sc_workAreas : jsval;
  sc_priority : jsval;
  sc_severity : jsval;
  sc_declaredChangeRisk : jsval;
  sc_humanOwnerUserId : option string;
}.

Record ApproveReadyToTodoInput : Type := mkApproveReady {
  ar_devTicketId : string;
  ar_readyContractContent : jsval;
  ar_expectedContractVersion : Z;
  ar_expectedContractContentHash : string;
  ar_expectedTodoQueueVersion : Z;
}.

(** [FIRST_TODO_RANK] and [POSTGRES_BIGINT_MAX]; [RANK_STRIDE] is the store's. *)
Definition FIRST_TODO_RANK : Z := 2 * RANK_STRIDE.
Definition POSTGRES_BIGINT_MAX : Z := 9223372036854775807.

Definition opt_str {A} (f : A → string) (o : option A) : jsval := js_null (f <$> o).

Definition work_areas_js (areas : list WorkArea) : jsval := JArr ((λ w, JStr (workArea_str w)) <$> areas).

Section ticket_commands.
Context {R L : Type} {RP : CommandReceiptRepository R} {LP : DevBoardLedgerAppendPort L}.
Context {RT : NodeRuntime} {DB : TenantDatabase}.
Abbreviation Cmd := (M (World R L)).
Implicit Types (e : CommandEnvelope).

Definition ticket_drift e : Cmd (Result CommandResult) :=
  reject e "dev_board.expected_version_drift" "DevTicket version has changed.".

Definition queue_drift e : Cmd (Result CommandResult) :=
  reject e "dev_board.lane_queue_version_drift" "Todo queue changed; reload and submit a new command/key.".

(** [try { mutation } catch (error) { if (error === sentinel) ... throw error; }]:
    [None] when the sentinel was caught. *)
Definition catch_sentinel {A} (message : string) (mutation : Cmd (Result A)) : Cmd (option (Result A)) :=
  try_catch (r ← mutation; mret (Some r))
    (λ error, match error with
              | ExnSentinel m => if String.eqb m message then mret None else throw error
              | _ => throw error
              end).

(** The queue part of a mutation that takes a ticket out of Todo: its
    membership is deleted and the queue version is bumped. *)
Definition leave_todo_queue e (drift : string) (ticketId : string) (queueVersion : option Z) : Cmd Z :=
  deleted ← on_store (deleteTodoQueueMembership (env_organizationId e) (env_workspaceId e) ticketId);
  if negb deleted then throw (ExnSentinel drift)
  else
    bumped ← on_store (casBumpTodoQueueVersion (env_organizationId e) (env_workspaceId e)
                         (default 0%Z queueVersion));
    match bumped with
    | None => throw (ExnSentinel drift)
    | Some header => mret (qh_version header)
    end.

(** [if (ticket.lane === "todo") { ... todoQueueVersion = bumped.version; }], which
    the archive and the dependency commands share. *)
Definition depart_todo e (drift : string) (ticket : DevTicketRow) : Cmd (option Z) :=
  if bool_decide (dt_lane ticket = LTodo) then
    v ← leave_todo_queue e drift (dt_id ticket) (expected e "lane_queue" "todo");
    mret (Some v)
  else mret None.

Definition archiveMutationDrift : string := "DevTicket version or Todo membership has changed.".

Definition archive_mutation e (ticket : DevTicketRow) (reason : string)
    : Cmd (DevTicketRow * option Z) :=
  todoQueueVersion ← depart_todo e archiveMutationDrift ticket;
  now ← newDate;
  updated ← on_store (PlanningStore.archiveDevTicket now
    (mkStoreArchive (env_organizationId e) (env_workspaceId e) (dt_id ticket) (dt_version ticket)
       (stableId (env_actorRef e)) reason));
  match updated with
  | None => throw (ExnSentinel archiveMutationDrift)
  | Some updated => mret (updated, todoQueueVersion)
  end.

(** The header check of a ticket in Todo: [true] when the queue is at the
    version the envelope expects, or the ticket is in another lane. *)
Definition todo_version_ok e (ticket : DevTicketRow) : Cmd bool :=
  if bool_decide (dt_lane ticket = LTodo) then
    header ← on_store (getOrLockTodoQueueHeader (env_organizationId e) (env_workspaceId e));
    mret (bool_decide (expected e "lane_queue" "todo" = Some (qh_version header)))
  else mret true.

Definition archiveDevTicket e (input : ArchiveDevTicketInput) : Cmd (Result CommandResult) :=
  command e (
    match decisionReason (adt_reason input) with
    | err d => reject_error e d
    | ok reason =>
      let version := expected e "dev_ticket" (adt_devTicketId input) in
      ticket ← on_store (selectDevTicketForUpdate (env_organizationId e) (env_workspaceId e)
                           (adt_devTicketId input));
      match versioned dt_version version ticket with
      | None => ticket_drift e
      | Some (ticket, _) =>
        if negb (is_null (dt_archivedAt ticket)) then
          reject e "dev_board.dev_ticket_already_archived" "DevTicket is already archived."
        else
        authorized ← authorizedDevTicketArchiveActor e ticket;
        if negb authorized then
          reject e "dev_board.archive_authorization_required"
            "Archive requires the Human Owner or an authorized organization owner or admin."
        else
        on_store (lockDependencyGraph (env_workspaceId e));;
        activeDependents ← on_store (selectActiveBlockerEdges (env_organizationId e) (env_workspaceId e)
                                       (dt_id ticket));
        if 0 <? length activeDependents then
          reject e "dev_board.archive_active_dependents"
            "DevTicket has active dependents and cannot be archived."
        else
        current ← todo_version_ok e ticket;
        if negb current then queue_drift e
        else
        mutation ← catch_sentinel archiveMutationDrift
          (executeRiskyMutation (archive_mutation e ticket reason));
        match mutation with
        | None => reject e "dev_board.expected_version_drift" archiveMutationDrift
        | Some (err d) => reject_error e d
        | Some (ok (updated, todoQueueVersion)) =>
          planning e (dt_id updated) "ArchiveRationaleRecorded" "DevTicket archived"
            [("reason", JStr reason);
             ("archivedByUserId", JStr (stableId (env_actorRef e)));
             ("lastActiveLane", opt_str lane_str (dt_lastActiveLane updated))];;
          activity e (dt_id updated) (dt_version updated) "DevTicketArchived"
            [("readyDeactivated", JBool true);
             ("queueRemoved", JBool (bool_decide (dt_lane ticket = LTodo)));
             ("lastActiveLane", opt_str lane_str (dt_lastActiveLane updated))];;
          accept e "dev_board.dev_ticket_archived" (dt_id updated)
            (ticket_version updated :: option_list (queue_version <$> todoQueueVersion))
            [("devTicketId", dt_id updated)]
        end
      end
    end).

Definition restoreDevTicket e (devTicketId : string) : Cmd (Result CommandResult) :=
  command e (
    let version := expected e "dev_ticket" devTicketId in
    ticket ← on_store (selectDevTicketForUpdate (env_organizationId e) (env_workspaceId e) devTicketId);
    match versioned dt_version version ticket with
    | None => ticket_drift e
    | Some (ticket, _) =>
      if is_null (dt_archivedAt ticket) then
        reject e "dev_board.dev_ticket_not_archived" "DevTicket is not archived."
      else if bool_decide (dt_lastActiveLane ticket = Some LDone) || bool_decide (dt_lane ticket = LDone) then
        reject e "dev_board.done_restore_history_only"
          "Done DevTicket history cannot be restored to executable work."
      else
        authorized ← authorizedDevTicketArchiveActor e ticket;
        if negb authorized then
          reject e "dev_board.restore_authorization_required"
            "Restore requires the Human Owner or an authorized organization owner or admin."
        else
          changed ← executeRiskyMutation (on_store (PlanningStore.restoreDevTicket
            (mkTicketVersion (env_organizationId e) (env_workspaceId e) (dt_id ticket) (dt_version ticket))));
          match changed with
          | err d => reject_error e d
          | ok None => ticket_drift e
          | ok (Some updated) =>
            planning e (dt_id updated) "ArchiveRestored" "DevTicket restored"
              [("restoredByUserId", JStr (stableId (env_actorRef e)));
               ("lastActiveLane", opt_str lane_str (dt_lastActiveLane updated))];;
            activity e (dt_id updated) (dt_version updated) "DevTicketRestored"
              [("lastActiveLane", opt_str lane_str (dt_lastActiveLane updated));
               ("readyState", JStr "draft")];;
            accept e "dev_board.dev_ticket_restored" (dt_id updated) [ticket_version updated]
              [("devTicketId", dt_id updated)]
          end
    end).

(** ** Classification *)

(** What the parsers of [setDevTicketClassification] admit. *)
Record Classification : Type := mkClassification {
  cl_type : DevTicketType;
  cl_workAreas : list WorkArea;
  cl_priority : Priority;
  cl_severity : option Severity;
  cl_declaredChangeRisk : ChangeRisk;
}.

(** The parses in the order of the code; severity is for bugs only. *)
Definition parse_classification_input (input : SetDevTicketClassificationInput) : Result Classification :=
  match parseDevTicketType (sc_type input) with
  | err d => err d
  | ok type =>
  match normalizeWorkAreas (sc_workAreas input) with
  | err d => err d
  | ok areas =>
  match parsePriority (sc_priority input) with
  | err d => err d
  | ok priority =>
  match parseChangeRisk (sc_declaredChangeRisk input) with
  | err d => err d
  | ok declared =>
    if is_undefined (sc_severity input) then ok (mkClassification type areas priority None declared)
    else
    match parseSeverity (sc_severity input) with
    | err d => err d
    | ok severity =>
      if negb (bool_decide (type = TBug)) then
        err (failure "dev_board.classification_invalid" "Severity is permitted only for Bug DevTickets.")
      else ok (mkClassification type areas priority (Some severity) declared)
    end
  end end end end.

Definition severity_field (severity : option Severity) : jsobj :=
  match severity with None => [] | Some s => [("severity", JStr (severity_str s))] end.

(** [{ type, workAreas, priority, ...(severity), declaredChangeRisk }] *)
Definition classification_js (c : Classification) : jsobj :=
  [("type", JStr (devTicketType_str (cl_type c)));
   ("workAreas", work_areas_js (cl_workAreas c));
   ("priority", JStr (priority_str (cl_priority c)))]
  ++ severity_field (cl_severity c)
  ++ [("declaredChangeRisk", JStr (changeRisk_str (cl_declaredChangeRisk c)))].

(** The ticket already has this owner, classification and policy result. *)
Definition classification_unchanged (t : DevTicketRow) (owner : string) (c : Classification)
    (ev : ChangeRiskEvaluation) : bool :=
  String.eqb (dt_humanOwnerUserId t) owner
  && bool_decide (dt_devTicketType t = Some (cl_type c))
  && bool_decide (dt_workAreas t = cl_workAreas c)
  && bool_decide (dt_priority t = Some (cl_priority c))
  && bool_decide (dt_severity t = cl_severity c)
  && bool_decide (dt_declaredChangeRisk t = Some (cl_declaredChangeRisk c))
  && bool_decide (dt_minimumChangeRisk t = Some (ev_minimumChangeRisk ev))
  && bool_decide (dt_changeRiskPolicyVersion t = Some (ev_policyVersion ev))
  && bool_decide (dt_changeRiskPolicyHash t = Some (ev_policyHash ev)).

Definition classified_content (t : DevTicketRow) (owner : string) (c : Classification)
    (ev : ChangeRiskEvaluation) : jsobj :=
  obj_spread (dt_readyContractContent t)
    [("humanOwnerUserId", JStr owner); ("classification", JObj (classification_js c));
     ("changeRiskPolicy", evaluation_js ev)].

Definition reason_codes (t : DevTicketRow) (owner : string) (c : Classification) : list string :=
  (if String.eqb (dt_humanOwnerUserId t) owner then [] else ["human_owner_changed"])
  ++ (if bool_decide (dt_priority t = Some (cl_priority c)) then [] else ["priority_changed"])
  ++ (if bool_decide (dt_declaredChangeRisk t = Some (cl_declaredChangeRisk c)) then []
      else ["change_risk_changed"])
  ++ (if bool_decide (dt_devTicketType t = Some (cl_type c)) then [] else ["type_changed"])
  ++ (if bool_decide (dt_workAreas t = cl_workAreas c) then [] else ["work_areas_changed"]).

Definition materiality (t updated : DevTicketRow) (owner : string) (c : Classification)
    (ev : ChangeRiskEvaluation) : jsobj :=
  [("base", JObj [("contractVersion", jsint (dt_readyContractVersion t));
                  ("contentHash", JStr (dt_readyContractContentHash t))]);
   ("result", JObj [("contractVersion", jsint (dt_readyContractVersion updated));
                    ("contentHash", JStr (dt_readyContractContentHash updated))]);
   ("old", JObj [("humanOwnerUserId", JStr (dt_humanOwnerUserId t));
                 ("type", opt_str devTicketType_str (dt_devTicketType t));
                 ("workAreas", work_areas_js (dt_workAreas t));
                 ("priority", opt_str priority_str (dt_priority t));
                 ("severity", opt_str severity_str (dt_severity t));
                 ("declaredChangeRisk", opt_str changeRisk_str (dt_declaredChangeRisk t))]);
   ("next", JObj (obj_spread [("humanOwnerUserId", JStr owner)] (classification_js c)));
   ("policyEvaluation", evaluation_js ev); ("material", JBool true);
   ("reasonCodes", JArr (JStr <$> reason_codes t owner c))].

(** [computeReadyContractContentHash], which throws on unserializable content. *)
Definition contract_hash (content : jsobj) : Cmd string :=
  match computeReadyContractContentHash content with
  | Some h => mret h
  | None => throw (ExnType "Ready contract content must be JSON serializable.")
  end.

Definition classification_input e (t : DevTicketRow) (owner : string) (c : Classification)
    (ev : ChangeRiskEvaluation) (content : jsobj) (hash : string) : UpdateDevTicketClassificationInput :=
  mkUpdateClassification (env_organizationId e) (env_workspaceId e) (dt_id t) (dt_version t) owner
    (cl_type c) (cl_workAreas c) (cl_priority c) (cl_severity c) (cl_declaredChangeRisk c)
    (ev_minimumChangeRisk ev) (ev_policyVersion ev) (ev_policyHash ev) content hash.

Definition setDevTicketClassification e (input : SetDevTicketClassificationInput)
    : Cmd (Result CommandResult) :=
  command e (
    let version := expected e "dev_ticket" (sc_devTicketId input) in
    ticket ← on_store (selectDevTicketForUpdate (env_organizationId e) (env_workspaceId e)
                         (sc_devTicketId input));
    match versioned dt_version version ticket with
    | None => ticket_drift e
    | Some (ticket, _) =>
      if negb (bool_decide (dt_lane ticket = LBacklog)) then
        reject e "dev_board.classification_revision_required"
          "Classification changes require a governed revision outside Backlog."
      else
      match parse_classification_input input with
      | err d => reject_error e d
      | ok c =>
        let owner := default (dt_humanOwnerUserId ticket) (sc_humanOwnerUserId input) in
        member ← ask_store (isActiveMember (env_organizationId e) owner);
        if negb (String.eqb owner (dt_humanOwnerUserId ticket)) && negb member then
          reject e "dev_board.human_owner_not_active_member"
            "Human Owner must be an active organization member."
        else
        dependencies ← ask_store (hasActiveDependencies (env_organizationId e) (env_workspaceId e)
                                    (dt_id ticket));
        let evaluation := evaluateChangeRisk (cl_type c) (cl_workAreas c) dependencies in
        if (compareChangeRisk (cl_declaredChangeRisk c) (ev_minimumChangeRisk evaluation) <? 0)%Z then
          reject e "dev_board.change_risk_below_policy_minimum"
            "Declared Change Risk is below the policy minimum."
        else if classification_unchanged ticket owner c evaluation then
          reject e "dev_board.classification_unchanged" "Classification is unchanged."
        else
        let content := classified_content ticket owner c evaluation in
        hash ← contract_hash content;
        mutation ← executeRiskyMutation (on_store (updateDevTicketClassification
          (classification_input e ticket owner c evaluation content hash)));
        match mutation with
        | err d => reject_error e d
        | ok None => ticket_drift e
        | ok (Some updated) =>
          planning e (dt_id updated) "ClassificationMaterialityAssessed"
            "Classification materiality assessed" (materiality ticket updated owner c evaluation);;
          activity e (dt_id updated) (dt_version updated) "DevTicketClassificationChanged"
            [("classification", JObj (classification_js c)); ("humanOwnerUserId", JStr owner);
             ("policyEvaluation", evaluation_js evaluation);
             ("consequences", JObj [("readyContractVersion", jsint (dt_readyContractVersion updated))])];;
          accept e "dev_board.classification_set" (dt_id updated) [ticket_version updated]
            [("devTicketId", dt_id updated)]
        end
      end
    end).

(** ** Ready approval *)

(** The classification the ready contract must bind. *)
Definition expected_classification (t : DevTicketRow) : jsobj :=
  [("type", opt_str devTicketType_str (dt_devTicketType t));
   ("workAreas", work_areas_js (dt_workAreas t));
   ("priority", opt_str priority_str (dt_priority t))]
  ++ severity_field (dt_severity t)
  ++ [("declaredChangeRisk", opt_str changeRisk_str (dt_declaredChangeRisk t))].

(** [canonicalJson], which throws on unserializable values. *)
Definition canonical (v : jsval) : Cmd string :=
  match canonicalJson v with
  | Some t => mret t
  | None => throw (ExnType "Ready contract content must be JSON serializable.")
  end.

(** [submittedClassification !== undefined && submittedPolicy !== undefined &&
    canonicalJson(...) === canonicalJson(...) && content.humanOwnerUserId === owner] *)
Definition binds_classification (content : jsobj) (t : DevTicketRow) : Cmd bool :=
  if is_undefined (obj_get "classification" content) || is_undefined (obj_get "changeRiskPolicy" content)
  then mret false
  else
    submitted ← canonical (obj_get "classification" content);
    wanted ← canonical (JObj (expected_classification t));
    mret (String.eqb submitted wanted
          && is_string (dt_humanOwnerUserId t) (obj_get "humanOwnerUserId" content)).

(** The stored policy result and the submitted one are those of the current evaluation. *)
Definition binds_policy (content : jsobj) (t : DevTicketRow) (ev : ChangeRiskEvaluation) : Cmd bool :=
  if negb (bool_decide (dt_minimumChangeRisk t = Some (ev_minimumChangeRisk ev)))
     || negb (bool_decide (dt_changeRiskPolicyVersion t = Some (ev_policyVersion ev)))
     || negb (bool_decide (dt_changeRiskPolicyHash t = Some (ev_policyHash ev)))
  then mret false
  else
    submitted ← canonical (obj_get "changeRiskPolicy" content);
    wanted ← canonical (evaluation_js ev);
    mret (String.eqb submitted wanted).

(** The rank of a ticket appended to the queue: [Some (rank, rebalance)], or
    [None] when the rank capacity is exhausted. *)
Definition append_rank (members : list TodoQueueMembershipRow) : option (Z * bool) :=
  let rank := match last members with
              | None => FIRST_TODO_RANK
              | Some m => (qm_rank m + RANK_STRIDE)%Z
              end in
  let capacity := ((Z.of_nat (length members) + 2) * RANK_STRIDE)%Z in
  if (POSTGRES_BIGINT_MAX <? rank)%Z then
    if (POSTGRES_BIGINT_MAX <? capacity)%Z then None else Some (capacity, true)
  else Some (rank, false).

Definition approval_input e (t : DevTicketRow) (version : Z) (content : jsobj) (hash : string)
    : UpdateDevTicketForReadyApprovalInput :=
  mkReadyApproval (env_organizationId e) (env_workspaceId e) (dt_id t) version
    (dt_readyContractVersion t + 1) content hash (stableId (env_actorRef e)) (env_commandId e).

Definition approval_mutation e (t : DevTicketRow) (version : Z) (content : jsobj) (hash : string)
    (members : list TodoQueueMembershipRow) (rank : Z) (rebalance : bool)
    : Cmd (option DevTicketRow) :=
  updated ← on_store (updateDevTicketForReadyApproval (approval_input e t version content hash));
  match updated with
  | None => mret None
  | Some updated =>
      (if rebalance : bool then
         on_store (rebalanceTodoBand (env_organizationId e) (env_workspaceId e) (qm_devTicketId <$> members))
       else mret tt);;
      on_store (insertTodoQueueMembership
        (mkQueueInput (env_organizationId e) (env_workspaceId e) (dt_id updated) rank));;
      mret (Some updated)
  end.

(** The part of [approveReadyToTodo] after every check on the ticket and its contract. *)
Definition append_approved e (input : ApproveReadyToTodoInput) (ticket : DevTicketRow) (version : Z)
    (content : jsobj) : Cmd (Result CommandResult) :=
  hash ← contract_hash content;
  header ← on_store (getOrLockTodoQueueHeader (env_organizationId e) (env_workspaceId e));
  if negb (qh_version header =? ar_expectedTodoQueueVersion input)%Z then queue_drift e
  else
  members ← on_store (listTodoQueueRanks (env_organizationId e) (env_workspaceId e));
  match append_rank members with
  | None => reject e "dev_board.todo_rank_capacity_exhausted" "Todo rank capacity is exhausted."
  | Some (rank, rebalance) =>
    changed ← executeRiskyMutation (approval_mutation e ticket version content hash members rank rebalance);
    match changed with
    | err d => reject_error e d
    | ok None => ticket_drift e
    | ok (Some updated) =>
      bumpedQueue ← on_store (casBumpTodoQueueVersion (env_organizationId e) (env_workspaceId e)
                                (ar_expectedTodoQueueVersion input));
      match bumpedQueue with
      | None => throw (ExnError "Todo queue header drifted while locked.")
      | Some queue =>
        planning e (dt_id updated) "ContractVersionCreated" "Ready contract approved"
          [("version", jsint (dt_readyContractVersion updated));
           ("content", JObj (dt_readyContractContent updated));
           ("contentHash", JStr (dt_readyContractContentHash updated))];;
        activity e (dt_id updated) (dt_version updated) "ReadyApproved"
          [("lane", JStr (lane_str (dt_lane updated)));
           ("readyApprovalContractVersion",
             match dt_readyApprovalContractVersion updated with Some v => jsint v | None => JNull end);
           ("readyApprovalContentHash", js_null (dt_readyApprovalContentHash updated))];;
        accept e "dev_board.ready_approved_to_todo" (dt_id updated)
          [ticket_version updated; queue_version (qh_version queue)]
          [("devTicketId", dt_id updated)]
      end
    end
  end.

Definition approveReadyToTodo e (input : ApproveReadyToTodoInput) : Cmd (Result CommandResult) :=
  command e (
    let version := expected e "dev_ticket" (ar_devTicketId input) in
    ticket ← on_store (selectDevTicketForUpdate (env_organizationId e) (env_workspaceId e)
                         (ar_devTicketId input));
    match versioned dt_version version ticket with
    | None => ticket_drift e
    | Some (ticket, version) =>
      if negb (bool_decide (dt_lane ticket = LBacklog)) || negb (bool_decide (dt_readyState ticket = RsDraft))
         || negb (is_null (dt_archivedAt ticket))
      then reject e "dev_board.dev_ticket_not_ready_for_approval" "DevTicket is not an active Backlog draft."
      else
      authorized ← authorizedDevTicketArchiveActor e ticket;
      if negb authorized then
        reject e "dev_board.ready_approval_human_authorization_required"
          "Ready approval requires the Human Owner or an authorized admin."
      else
      match dt_devTicketType ticket with
      | None => reject e "dev_board.classification_type_required"
                  "DevTicket type is required before Ready approval."
      | Some type =>
      if bool_decide (dt_workAreas ticket = []) then
        reject e "dev_board.classification_work_areas_required"
          "At least one work area is required before Ready approval."
      else if is_null (dt_priority ticket) then
        reject e "dev_board.classification_priority_required" "Priority is required before Ready approval."
      else if negb (dt_readyContractVersion ticket =? ar_expectedContractVersion input)%Z
              || negb (String.eqb (dt_readyContractContentHash ticket) (ar_expectedContractContentHash input))
      then reject e "dev_board.stale_ready_contract" "Ready contract head has changed."
      else
      match parseReadyContractContent (ar_readyContractContent input) with
      | err d => reject_error e d
      | ok content =>
        bound ← binds_classification content ticket;
        if negb bound then
          reject e "dev_board.ready_contract_missing_classification"
            "Ready contract must bind the current classification and Human Owner."
        else
        match dt_declaredChangeRisk ticket, dt_minimumChangeRisk ticket,
              dt_changeRiskPolicyVersion ticket, dt_changeRiskPolicyHash ticket with
        | Some declared, Some _, Some _, Some _ =>
          dependencies ← ask_store (hasActiveDependencies (env_organizationId e) (env_workspaceId e)
                                      (dt_id ticket));
          let currentPolicy := evaluateChangeRisk type (dt_workAreas ticket) dependencies in
          if (compareChangeRisk declared (ev_minimumChangeRisk currentPolicy) <? 0)%Z then
            reject e "dev_board.change_risk_below_policy_minimum"
              "Declared Change Risk is below the policy minimum."
          else
          current ← binds_policy content ticket currentPolicy;
          if negb current then
            reject e "dev_board.change_risk_policy_drift" "Change Risk policy evaluation has drifted."
          else append_approved e input ticket version content
        | _, _, _, _ =>
          reject e "dev_board.ready_contract_missing_classification"
            "Ready contract must bind the current Change Risk policy."
        end
      end
      end
    end).

End ticket_commands.
