(* ===== verification/QueueCommands.v ===== *)
(** * Reordering the Todo queue
    ([application/dev-board-planning-commands.ts], [reorderTodo]) *)
From S2P Require Import Prelude JsString JsValue JsMap SharedKernel Effects DevBoardDomain.
From S2P Require Import TenantContext Receipts Ledger PlanningRows PlanningStore CommandBase.
From S2P Require Import TicketCommands.

Inductive AnchorKind : Type := ABefore | AAfter.

#[global] Instance AnchorKind_eq_dec : EqDecision AnchorKind.
Proof. solve_decision. Defined.

(** [TodoReorderAnchor]; the keys an [empty_band] anchor carries besides its
    kind, and an unknown kind, are what [validTodoAnchor] refuses.  The version
    is [unknown] there, so it is a number of any sort. *)
Inductive TodoReorderAnchor : Type :=
| Neighbor (kind : AnchorKind) (neighborDevTicketId : string) (neighborVersion : jsnum)
| EmptyBand (extraKeys : list string)
| UnknownAnchor (kind : string).

(** The lanes arrive from outside; [ri_extraFields] are the properties of the
    input that its type does not declare. *)
Record ReorderTodoInput : Type := mkReorderTodo {
  ri_devTicketId : string;
  ri_sourceLane : string;
  ri_sourceVersion : Z;
  ri_targetLane : string;
  ri_targetVersion : Z;
  ri_anchor : TodoReorderAnchor;
  ri_extraFields : list string;
}.

(** [Number.isSafeInteger(v) && v > 0] *)
Definition positive_safe_integer (n : jsnum) : bool :=
  match n with
  | NInt z => (0 <? z)%Z && (z <=? 9007199254740991)%Z
  | NFrac _ | NNonFinite => false
  end.

Definition validTodoAnchor (anchor : TodoReorderAnchor) : bool :=
  match anchor with
  | EmptyBand extraKeys => bool_decide (extraKeys = [])
  | Neighbor _ id version => (0 <? String.length id) && positive_safe_integer version
  | UnknownAnchor _ => false
  end.

Inductive ForbiddenField : Type := FTier | FNumeric.

Definition forbiddenTodoOrderingField (input : ReorderTodoInput) : option ForbiddenField :=
  let present := λ field, bool_decide (field ∈ ri_extraFields input) in
  if existsb present ["reviewReworkPlacement"; "orderingTier"; "tier"] then Some FTier
  else if existsb present ["rank"; "position"; "priority"; "placement"] then Some FNumeric
  else None.

(** Every ticket is in the one band [all_todo]. *)
Definition deriveTodoOrderingBand (ticket : DevTicketRow) : string := "all_todo".

Definition queue_ids (members : list TodoQueueMembershipRow) : list string := qm_devTicketId <$> members.

(** The queue without the moved ticket. *)
Definition others_of (id : string) (members : list TodoQueueMembershipRow) : list TodoQueueMembershipRow :=
  filter (λ m, qm_devTicketId m ≠ id) members.

Definition neighbor_index (id : string) (others : list TodoQueueMembershipRow) : option nat :=
  find_index (λ m, String.eqb (qm_devTicketId m) id) others.

(** [orderedIds.splice(insertionIndex, 0, moved.id)] *)
Definition ordered_ids (index : nat) (id : string) (others : list TodoQueueMembershipRow) : list string :=
  insert_at index id (queue_ids others).

(** The rank between the neighbours of an insertion index; 0 when they leave no room. *)
Definition rank_between (index : nat) (others : list TodoQueueMembershipRow) : Z :=
  let lower := if index =? 0 then None else qm_rank <$> (others !! (index - 1)) in
  let upper := if index =? length others then None else qm_rank <$> (others !! index) in
  match lower, upper with
  | None, None => FIRST_TODO_RANK
  | None, Some upper => upper - RANK_STRIDE
  | Some lower, None => lower + RANK_STRIDE
  | Some lower, Some upper =>
      if (2 <=? upper - lower)%Z then lower + Z.quot (upper - lower) 2 else 0
  end%Z.

(** A rank the column cannot hold. *)
Definition rank_out_of_range (rank : Z) : bool := (rank <=? 0)%Z || (POSTGRES_BIGINT_MAX <? rank)%Z.

(** [(BigInt(orderedIds.length) + 1n) * RANK_STRIDE > POSTGRES_BIGINT_MAX] *)
Definition capacity_exhausted (ids : list string) : bool :=
  (POSTGRES_BIGINT_MAX <? (Z.of_nat (length ids) + 1) * RANK_STRIDE)%Z.

Definition anchor_kind_str (kind : AnchorKind) : string :=
  match kind with ABefore => "before" | AAfter => "after" end.

Definition rank_policy (anchor : TodoReorderAnchor) : jsval :=
  match anchor with
  | Neighbor kind id _ =>
      JObj [("anchorKind", JStr (anchor_kind_str kind)); ("neighborDevTicketId", JStr id)]
  | EmptyBand _ => JObj [("anchorKind", JStr "empty_band")]
  | UnknownAnchor kind => JObj [("anchorKind", JStr kind)]
  end.

(** The insertion index an anchor names among the other members, or the code and
    message of the refusal; a read of the store. *)
Definition insertion_place (org ws : string) (moved : DevTicketRow) (others : list TodoQueueMembershipRow)
    (anchor : TodoReorderAnchor) (s : PlanningStore) : string * string + nat :=
  let invalid := λ message : string, inl ("dev_board.todo_anchor_invalid"%string, message) in
  match anchor with
  | EmptyBand _ =>
      if negb (length others =? 0) then invalid "The Todo ordering band is not empty." else inr 0
  | Neighbor kind id version =>
      match jm_get (key org ws id) (devTickets s), neighbor_index id others with
      | Some neighbor, Some index =>
          if negb (bool_decide (dt_lane neighbor = LTodo)) then
            invalid "Todo anchor is no longer available."
          else if negb (bool_decide (version = NInt (dt_version neighbor))) then
            inl ("dev_board.expected_version_drift", "Todo anchor version has changed.")
          else if negb (String.eqb (deriveTodoOrderingBand neighbor) (deriveTodoOrderingBand moved)) then
            inl ("dev_board.todo_anchor_band_mismatch", "Todo anchor is in another ordering band.")
          else inr match kind with ABefore => index | AAfter => S index end
      | _, _ => invalid "Todo anchor is no longer available."
      end
  | UnknownAnchor _ => invalid "Todo anchor is no longer available."   (* [validTodoAnchor] has refused it *)
  end.

Section queue_commands.
Context {R L : Type} {RP : CommandReceiptRepository R} {LP : DevBoardLedgerAppendPort L}.
Context {RT : NodeRuntime} {DB : TenantDatabase}.
Abbreviation Cmd := (M (World R L)).
Implicit Types (e : CommandEnvelope).

(** The write of the new rank, or of every rank of the band when it does not fit;
    the tickets that were rebalanced. *)
Definition place_membership e (moved : DevTicketRow) (orderedIds : list string) (rank : Z)
    : Cmd (list string) :=
  if rank_out_of_range rank then
    on_store (rebalanceTodoBand (env_organizationId e) (env_workspaceId e) orderedIds);;
    mret orderedIds
  else
    updatedMembership ← on_store (updateTodoQueueMembershipRank
      (mkQueueInput (env_organizationId e) (env_workspaceId e) (dt_id moved) rank));
    if negb updatedMembership then
      throw (ExnError "Todo membership disappeared after being locked.")
    else mret [].

(** The writes of [reorderTodo], once every check has passed. *)
Definition apply_reorder e (input : ReorderTodoInput) (moved : DevTicketRow) (version : Z)
    (orderedIds : list string) (rank : Z) : Cmd (Result CommandResult) :=
  bumpedQueue ← on_store (casBumpTodoQueueVersion (env_organizationId e) (env_workspaceId e)
                            (ri_sourceVersion input));
  match bumpedQueue with
  | None => queue_drift e
  | Some queue =>
    rebalancedDevTicketIds ← place_membership e moved orderedIds rank;
    updated ← on_store (bumpDevTicketVersion
      (mkTicketVersion (env_organizationId e) (env_workspaceId e) (dt_id moved) version));
    match updated with
    | None => throw (ExnError "Todo DevTicket disappeared after being locked.")
    | Some updated =>
      activity e (dt_id updated) (dt_version updated) "TodoReordered"
        ([("rankPolicy", rank_policy (ri_anchor input)); ("queueVersion", jsint (qh_version queue))]
         ++ (if length rebalancedDevTicketIds =? 0 then []
             else [("rebalancedDevTicketIds", JArr (JStr <$> rebalancedDevTicketIds))]));;
      accept e "dev_board.todo_reordered" (dt_id updated)
        [ticket_version updated; queue_version (qh_version queue)]
        [("devTicketId", dt_id updated)]
    end
  end.

Definition reorderTodo e (input : ReorderTodoInput) : Cmd (Result CommandResult) :=
  command e (
    match forbiddenTodoOrderingField input with
    | Some FTier =>
        reject e "dev_board.todo_ordering_tier_server_derived" "Todo ordering tier is server-derived."
    | Some FNumeric =>
        reject e "dev_board.todo_numeric_position_forbidden"
          "Todo rank and numeric position are server-derived."
    | None =>
      if negb (String.eqb (ri_sourceLane input) "todo") || negb (String.eqb (ri_targetLane input) "todo")
         || negb (ri_sourceVersion input =? ri_targetVersion input)%Z
         || negb (validTodoAnchor (ri_anchor input))
      then reject e "dev_board.todo_anchor_invalid"
             "Todo reorder requires one valid Todo anchor and matching queue versions."
      else
      let expectedTicketVersion := expected e "dev_ticket" (ri_devTicketId input) in
      moved ← on_store (selectDevTicketForUpdate (env_organizationId e) (env_workspaceId e)
                          (ri_devTicketId input));
      match versioned dt_version expectedTicketVersion moved with
      | None => ticket_drift e
      | Some (moved, version) =>
        if negb (bool_decide (dt_lane moved = LTodo)) then
          reject e "dev_board.dev_ticket_not_in_todo" "DevTicket is not in Todo."
        else
        header ← on_store (getOrLockTodoQueueHeader (env_organizationId e) (env_workspaceId e));
        if negb (qh_version header =? ri_sourceVersion input)%Z then queue_drift e
        else
        movedMembership ← on_store (todoQueueMembership (env_organizationId e) (env_workspaceId e)
                                      (dt_id moved));
        if is_null movedMembership then
          reject e "dev_board.dev_ticket_not_in_todo" "DevTicket has no Todo queue membership."
        else
        members ← on_store (listTodoQueueRanks (env_organizationId e) (env_workspaceId e));
        let others := others_of (dt_id moved) members in
        place ← ask_store (insertion_place (env_organizationId e) (env_workspaceId e) moved others (ri_anchor input));
        match place with
        | inl (code, message) => reject e code message
        | inr insertionIndex =>
          let orderedIds := ordered_ids insertionIndex (dt_id moved) others in
          let rank := rank_between insertionIndex others in
          if rank_out_of_range rank && capacity_exhausted orderedIds then
            reject e "dev_board.todo_rank_capacity_exhausted" "Todo rank capacity is exhausted."
          else apply_reorder e input moved version orderedIds rank
        end
      end
    end).

End queue_commands.
