(* ===== verification/DependencyCommands.v ===== *)
(** * Dependency commands
    ([application/dev-board-planning-commands.ts], [addDependency],
    [removeDependency], [dependencyLockStatus]) and the disabled workflow
    commands ([claim], [start], [submitForReview], [admitDone]) *)
From S2P Require Import Prelude JsString JsValue JsMap SharedKernel Effects DevBoardDomain.
From S2P Require Import TenantContext Receipts Ledger PlanningRows PlanningStore CommandBase.
From S2P Require Import TicketCommands.

Record AddDependencyInput : Type := mkAddDependency {
  ad_dependentDevTicketId : string;
  ad_blockerDevTicketId : string;
  ad_reason : string;
}.

Record RemoveDependencyInput : Type := mkRemoveDependency {
  rd_edgeId : string;
  rd_expectedEdgeVersion : Z;
  rd_reason : string;
}.

(** No Sprint storage exists in this schema. *)
Definition hasLiveSprintMembership (ticketId : string) : bool := false.

Definition dependencyEndpointFailure (endpoint : option DevTicketRow) : option (string * string) :=
  match endpoint with
  | None => Some ("dev_board.constraint_reference_invalid", "A dependency endpoint does not exist.")
  | Some t =>
      if negb (is_null (dt_archivedAt t)) then
        Some ("dev_board.dev_ticket_not_active", "Archived DevTickets cannot be dependency endpoints.")
      else if bool_decide (dt_lane t = LDone) then
        Some ("dev_board.dev_ticket_done_immutable", "Done DevTickets cannot be changed in place.")
      else None
  end.

(** [dependencyEndpointFailure(dependent) ?? dependencyEndpointFailure(blocker)] *)
Definition endpoints_failure (dependent blocker : DevTicketRow) : option (string * string) :=
  match dependencyEndpointFailure (Some dependent) with
  | Some f => Some f
  | None => dependencyEndpointFailure (Some blocker)
  end.

Section dependency_commands.
Context {R L : Type} {RP : CommandReceiptRepository R} {LP : DevBoardLedgerAppendPort L}.
Context {RT : NodeRuntime} {DB : TenantDatabase}.
Abbreviation Cmd := (M (World R L)).
Implicit Types (e : CommandEnvelope).

(** [dependencyLockStatus]: a live read. *)
Definition dependencyLockStatus (org ws devTicketId : string) : Cmd DependencyLockStatus :=
  withTenant org (ask_store (dependency_lock_status org ws devTicketId)).

(** [endpointRows]: the rows of the two endpoints, selected in the order of
    their ids; the map has one entry per id. *)
Fixpoint endpoint_rows e (ids : list string) (rows : jsmap (option DevTicketRow))
    : Cmd (jsmap (option DevTicketRow)) :=
  match ids with
  | [] => mret rows
  | id :: ids =>
      row ← on_store (selectDevTicketForUpdate (env_organizationId e) (env_workspaceId e) id);
      endpoint_rows e ids (jm_set id row rows)
  end.

Definition endpoint (id : string) (rows : jsmap (option DevTicketRow)) : option DevTicketRow :=
  default None (jm_get id rows).

(** The planning entry carries the reason; the event carries the consequence for a Todo dependent. *)
Definition dependency_event (edge : DependencyEdgeRow) (previousLane : DevTicketLane) (dependent : DevTicketRow)
    : jsobj :=
  [("edgeId", JStr (ed_id edge)); ("dependentId", JStr (ed_dependentDevTicketId edge));
   ("blockerId", JStr (ed_blockerDevTicketId edge))]
  ++ (if bool_decide (previousLane = LTodo) && bool_decide (dt_lane dependent = LBacklog)
      then [("readyInvalidated", JBool true);
            ("laneChanged", JObj [("from", JStr "todo"); ("to", JStr "backlog")])]
      else []).

Definition appendDependencyEffects e (edge : DependencyEdgeRow) (reason eventName : string)
    (previousLane : DevTicketLane) (dependent : DevTicketRow) : Cmd unit :=
  planning e (ed_dependentDevTicketId edge) "DependencyDecisionRationaleRecorded"
    (if String.eqb eventName "DependencyAdded" then "Dependency added" else "Dependency removed")
    [("reason", JStr reason); ("dependentId", JStr (ed_dependentDevTicketId edge));
     ("blockerId", JStr (ed_blockerDevTicketId edge)); ("edgeId", JStr (ed_id edge))];;
  activity e (dt_id dependent) (dt_version dependent) eventName
    (dependency_event edge previousLane dependent).

Definition dependentVersionDrift : string := "Dependent DevTicket version has changed.".

(** What the mutations of both commands do to the dependent: leave the Todo
    queue if it is in Todo, then the version bump. *)
Definition change_dependent e (dependent : DevTicketRow) : Cmd (DevTicketRow * option Z) :=
  todoQueueVersion ← depart_todo e dependentVersionDrift dependent;
  updated ← on_store (applyDependencyChangeToDependent
    (mkTicketVersion (env_organizationId e) (env_workspaceId e) (dt_id dependent) (dt_version dependent)));
  match updated with
  | None => throw (ExnSentinel dependentVersionDrift)
  | Some updated => mret (updated, todoQueueVersion)
  end.

Definition add_mutation e (dependent blocker : DevTicketRow)
    : Cmd (DependencyEdgeRow * DevTicketRow * option Z) :=
  id ← randomUUID;
  edge ← on_store (insertDependencyEdge
    (mkInsertEdge id (env_organizationId e) (env_workspaceId e) (dt_id dependent) (dt_id blocker)
       (env_commandId e)));
  changed ← change_dependent e dependent;
  mret (edge, changed.1, changed.2).

Definition addDependency e (input : AddDependencyInput) : Cmd (Result CommandResult) :=
  command e (
    match decisionReason (ad_reason input) with
    | err d => reject_error e d
    | ok reason =>
      let dependentId := ad_dependentDevTicketId input in
      let blockerId := ad_blockerDevTicketId input in
      if String.eqb dependentId blockerId then
        reject e "dev_board.dependency_cycle_rejected" "A DevTicket cannot depend on itself."
      else
      rows ← endpoint_rows e (sort_strings [dependentId; blockerId]) [];
      match endpoint dependentId rows, endpoint blockerId rows with
      | Some dependent, Some blocker =>
        on_store (lockDependencyGraph (env_workspaceId e));;
        duplicate ← on_store (selectActiveDependencyEdge (env_organizationId e) (env_workspaceId e)
                                dependentId blockerId);
        match duplicate with
        | Some edge =>
            accept e "dev_board.dependency_already_active" (ed_id edge) [edge_version edge]
              [("dependencyEdgeId", ed_id edge); ("devTicketId", ed_dependentDevTicketId edge)]
        | None =>
          if negb (bool_decide (expected e "dev_ticket" dependentId = Some (dt_version dependent)))
             || negb (bool_decide (expected e "dev_ticket" blockerId = Some (dt_version blocker)))
          then reject e "dev_board.expected_version_drift" "Dependency endpoint version has changed."
          else
          match endpoints_failure dependent blocker with
          | Some (code, message) => reject e code message
          | None =>
            if hasLiveSprintMembership (dt_id dependent) || hasLiveSprintMembership (dt_id blocker) then
              reject e "dev_board.sprint_coordination_required"
                "Dependency changes for Sprint members require Sprint coordination."
            else
            cycle ← on_store (dependencyCreatesCycle (env_organizationId e) (env_workspaceId e)
                                dependentId blockerId);
            if cycle : bool then
              reject e "dev_board.dependency_cycle_rejected" "The dependency would create a cycle."
            else
            current ← todo_version_ok e dependent;
            if negb current then queue_drift e
            else
            mutation ← catch_sentinel dependentVersionDrift
              (executeRiskyMutation (add_mutation e dependent blocker));
            match mutation with
            | None => reject e "dev_board.expected_version_drift" dependentVersionDrift
            | Some (err d) => reject_error e d
            | Some (ok (edge, updated, todoQueueVersion)) =>
              appendDependencyEffects e edge reason "DependencyAdded" (dt_lane dependent) updated;;
              accept e "dev_board.dependency_added" (ed_id edge)
                ([edge_version edge; ticket_version updated; ticket_version blocker]
                 ++ option_list (queue_version <$> todoQueueVersion))
                [("dependencyEdgeId", ed_id edge); ("devTicketId", dt_id updated)]
            end
          end
        end
      | _, _ => reject e "dev_board.constraint_reference_invalid" "A dependency endpoint does not exist."
      end
    end).

Definition remove_mutation e (input : RemoveDependencyInput) (edge : DependencyEdgeRow)
    (dependent : DevTicketRow) : Cmd (option (DependencyEdgeRow * DevTicketRow * option Z)) :=
  retired ← on_store (retireDependencyEdge
    (mkRetireEdge (env_organizationId e) (env_workspaceId e) (ed_id edge) (rd_expectedEdgeVersion input)
       (env_commandId e)));
  match retired with
  | None => mret None
  | Some retired =>
      changed ← change_dependent e dependent;
      mret (Some (retired, changed.1, changed.2))
  end.

Definition identity_conflict e : Cmd (Result CommandResult) :=
  reject e "dev_board.dependency_identity_conflict"
    "The dependency edge identity or version has changed.".

Definition removeDependency e (input : RemoveDependencyInput) : Cmd (Result CommandResult) :=
  command e (
    match decisionReason (rd_reason input) with
    | err d => reject_error e d
    | ok reason =>
      edge ← on_store (selectDependencyEdge (env_organizationId e) (env_workspaceId e) (rd_edgeId input));
      match edge with
      | None => reject e "dev_board.dependency_not_active" "The dependency edge is not active."
      | Some edge =>
        if bool_decide (ed_lifecycleState edge = ERetired) then
          reject_with e "dev_board.already_removed" "The dependency edge was already removed."
            [("dependencyEdgeId", JStr (ed_id edge));
             ("originalRemovalCommandId", js_null (ed_retiredCommandId edge))]
            (Some (default (ed_id edge) (ed_retiredCommandId edge)))
        else if negb (ed_version edge =? rd_expectedEdgeVersion input)%Z then identity_conflict e
        else
        let dependentId := ed_dependentDevTicketId edge in
        let blockerId := ed_blockerDevTicketId edge in
        rows ← endpoint_rows e (sort_strings [dependentId; blockerId]) [];
        match endpoint dependentId rows, endpoint blockerId rows with
        | Some dependent, Some blocker =>
          match endpoints_failure dependent blocker with
          | Some (code, message) => reject e code message
          | None =>
            if hasLiveSprintMembership (dt_id dependent) || hasLiveSprintMembership (dt_id blocker) then
              reject e "dev_board.sprint_coordination_required"
                "Dependency changes for Sprint members require Sprint coordination."
            else
            on_store (lockDependencyGraph (env_workspaceId e));;
            current ← todo_version_ok e dependent;
            if negb current then queue_drift e
            else
            mutation ← catch_sentinel dependentVersionDrift
              (executeRiskyMutation (remove_mutation e input edge dependent));
            match mutation with
            | None => reject e "dev_board.expected_version_drift" dependentVersionDrift
            | Some (err d) => reject_error e d
            | Some (ok None) => identity_conflict e
            | Some (ok (Some (retired, updated, todoQueueVersion))) =>
              appendDependencyEffects e retired reason "DependencyRemoved" (dt_lane dependent) updated;;
              accept e "dev_board.dependency_removed" (ed_id retired)
                ([edge_version retired; ticket_version updated]
                 ++ option_list (queue_version <$> todoQueueVersion))
                [("dependencyEdgeId", ed_id retired); ("devTicketId", dt_id updated)]
            end
          end
        | _, _ => reject e "dev_board.constraint_reference_invalid" "A dependency endpoint does not exist."
        end
      end
    end).

(** ** Workflow commands that no gate has opened yet *)

Definition locked_message (blockerIds : list string) : string :=
  "DevTicket is locked by unfinished dependencies: " +:+ join ", " blockerIds +:+ ".".

Definition rejectUntilGate e (code message : string) (checkDependencyLock : bool)
    : Cmd (Result CommandResult) :=
  command e (
    status ← (if checkDependencyLock then
                ask_store (λ s, Some (dependency_lock_status (env_organizationId e) (env_workspaceId e)
                                        (env_targetAggregateId e) s))
              else mret None);
    match status with
    | Some status =>
        if ls_locked status then
          let blockerIds := bl_devTicketId <$> filter (λ b, bl_done b = false) (ls_blockers status) in
          reject_with e "dev_board.dependency_locked" (locked_message blockerIds)
            [("blockerDevTicketIds", JArr (JStr <$> blockerIds))] None
        else reject e code message
    | None => reject e code message
    end).

Definition claim e : Cmd (Result CommandResult) :=
  rejectUntilGate e "dev_board.gate.claim_disabled_until_tb02" "Claim is disabled until TB-02 ships." true.

Definition start e : Cmd (Result CommandResult) :=
  rejectUntilGate e "dev_board.gate.start_disabled_until_tb02" "Start is disabled until TB-02 ships." true.

Definition submitForReview e : Cmd (Result CommandResult) :=
  rejectUntilGate e "dev_board.gate.submit_for_review_disabled_until_tb-rv1"
    "Submit for Review is disabled until TB-RV1 ships." false.

Definition admitDone e : Cmd (Result CommandResult) :=
  rejectUntilGate e "dev_board.gate.admit_done_disabled_until_tb-rv1"
    "Done admission is disabled until TB-RV1 ships." false.

End dependency_commands.
