(* ===== verification/LegacyCommands.v ===== *)
(** * Legacy import and historical reconciliation
    ([application/dev-board-planning-commands.ts], [importLegacyDevTicket],
    [reconcileHistoricalCompletion]) *)
From S2P Require Import Prelude JsString JsValue JsMap SharedKernel Effects DevBoardDomain.
From S2P Require Import TenantContext Receipts Ledger PlanningRows PlanningStore CommandBase.
From S2P Require Import TicketCommands.

Record ImportLegacyDevTicketInput : Type := mkImportLegacy {
  il_legacyTaskId : string;
  il_humanOwnerUserId : option string;
}.

Record ReconcileHistoricalCompletionInput : Type := mkReconcileCompletion {
  rc_historicalRecordId : string;
  rc_reconciliationEpoch : string;
}.

Definition legacyOutcome (disposition : SourceDisposition) : string :=
  match disposition with
  | DPromotedBacklog => "dev_board.legacy_import_promoted"
  | DHistoricalCandidate => "dev_board.legacy_import_historical"
  | DQuarantinedNoOwner => "dev_board.legacy_import_quarantined"
  end.

Definition legacyCompletionGate (status : string) (disposition : SourceDisposition) : option CompletionGate :=
  if String.eqb status "done" && negb (bool_decide (disposition = DPromotedBacklog))
  then Some GLegacyUnverified else None.

(** [value !== null && value !== undefined] *)
Definition is_present (v : jsval) : bool := match v with JNull | JUndefined => false | _ => true end.

Definition frozenEvidenceHasReference (refs : list jsobj) : bool :=
  existsb (λ ref,
    match obj_get "evidenceId" ref with JStr _ => true | _ => false end
    && existsb is_present [obj_get "objectRef" ref; obj_get "url" ref; obj_get "filename" ref]) refs.

(** Some reference carries an approved task quality review. *)
Definition approved_review (refs : list jsobj) : bool :=
  existsb (λ ref, match obj_get "taskQualityReview" ref with
                  | JObj review => is_string "approved" (obj_get "status" review)
                  | _ => false
                  end) refs.

Definition importable_statuses : list string := ["todo"; "in_progress"; "blocked"; "done"].

(** The disposition of a source, by its status and whether its owner is confirmed. *)
Definition legacy_disposition (status : string) (ownerConfirmed : bool) : SourceDisposition :=
  if String.eqb status "done" then
    if ownerConfirmed then DHistoricalCandidate else DQuarantinedNoOwner
  else
    if ownerConfirmed then DPromotedBacklog else DQuarantinedNoOwner.

Section legacy_commands.
Context {R L : Type} {RP : CommandReceiptRepository R} {LP : DevBoardLedgerAppendPort L}.
Context {RT : NodeRuntime} {DB : TenantDatabase}.
Abbreviation Cmd := (M (World R L)).
Implicit Types (e : CommandEnvelope).

(** [legacyDigest], which throws on unserializable rows. *)
Definition legacyDigest (row : jsobj) : Cmd string := contract_hash row.

(** [date.toISOString()] *)
Definition iso (t : Z) : Cmd string :=
  match toISOString t with
  | Some text => mret text
  | None => throw (ExnError "Invalid time value")
  end.

Definition append_import e (source : LegacyTaskSource) (aggregateId : string) : Cmd unit :=
  recorded ← iso (lt_createdAt source);
  updated ← iso (lt_updatedAt source);
  planning e aggregateId "LegacyDevTicketImported" "Legacy DevTicket imported"
    [("status", JStr (lt_status source)); ("cardNumber", JStr (pretty (lt_cardNumber source)));
     ("sourceRecordedAt", JStr recorded); ("sourceUpdatedAt", JStr updated);
     ("assigneeUserId", js_null (lt_assigneeUserId source))].

(** The ticket a promotion creates: it takes the id of the task. *)
Definition promoted_ticket_input e (source : LegacyTaskSource) (owner : string) : InsertDevTicketInput :=
  mkInsertDevTicket (lt_id source) (env_organizationId e) (env_workspaceId e) OLegacy None owner []
    (default "" (computeReadyContractContentHash [])) (env_commandId e).

Definition resolve_input e (historical : HistoricalRecordRow) (disposition : SourceDisposition)
    (promotionCommandId ticketId : option string) : ResolveHistoricalInput :=
  mkResolve (env_organizationId e) (env_workspaceId e) (hr_historicalRecordId historical)
    (hr_version historical) disposition (hr_completionGate historical) promotionCommandId ticketId.

Definition promotion_mutation e (source : LegacyTaskSource) (owner : string)
    (historical : HistoricalRecordRow) (disposition : SourceDisposition)
    : Cmd (DevTicketRow * HistoricalRecordRow) :=
  ticket ← on_store (insertDevTicket (promoted_ticket_input e source owner));
  resolved ← on_store (resolveImportedHistoricalRecord
    (resolve_input e historical disposition (Some (env_commandId e)) (Some (dt_id ticket))));
  match resolved with
  | None => throw (ExnError "Historical record version has changed.")
  | Some resolved => mret (ticket, resolved)
  end.

Definition ticket_ids (promotedId : option string) : list (string * string) :=
  match promotedId with None => [] | Some id => [("devTicketId", id)] end.

Definition ticket_collision e : Cmd (Result CommandResult) :=
  reject e "dev_board.legacy_ticket_id_collision" "Legacy Task UUID already belongs to a DevTicket.".

Definition historical_drift e : Cmd (Result CommandResult) :=
  reject e "dev_board.expected_version_drift" "Historical record version has changed.".

(** Promotion of a task that an earlier import quarantined. *)
Definition promote_existing e (source : LegacyTaskSource) (owner : string)
    (historical : HistoricalRecordRow) (disposition : SourceDisposition) : Cmd (Result CommandResult) :=
  collision ← on_store (selectDevTicketForUpdate (env_organizationId e) (env_workspaceId e) (lt_id source));
  if negb (is_null collision) then ticket_collision e
  else
    mutation ← executeRiskyMutation (promotion_mutation e source owner historical disposition);
    match mutation with
    | err d => reject_error e d
    | ok (ticket, resolved) =>
        append_import e source (dt_id ticket);;
        accept e (legacyOutcome disposition) (hr_historicalRecordId historical)
          [mkExpected "historical_record" (hr_historicalRecordId historical) (hr_version resolved);
           ticket_version ticket]
          [("devTicketId", dt_id ticket)]
    end.

(** The closure [resolveExistingAlias]. *)
Definition resolveExistingAlias e (input : ImportLegacyDevTicketInput) (source : LegacyTaskSource)
    (disposition : SourceDisposition) (digest : string) (existingAlias : LegacyTaskAliasRow)
    : Cmd (Result CommandResult) :=
  historical ← on_store (selectHistoricalRecordForUpdate (env_organizationId e) (env_workspaceId e)
                           (al_historicalRecordId existingAlias));
  match historical with
  | None => reject e "dev_board.legacy_task_not_found" "Legacy import alias has no historical record."
  | Some historical =>
    if negb (String.eqb (hr_preservedPayloadDigest historical) digest) then
      reject e "dev_board.idempotency_conflict" "source changed since the original import"
    else if
      match expected e "historical_record" (hr_historicalRecordId historical) with
      | Some requested => negb (requested =? hr_version historical)%Z
      | None => false
      end
    then historical_drift e
    else
    let promotedId := al_devTicketId existingAlias in
    if bool_decide (disposition = DPromotedBacklog) && is_null promotedId then
      promote_existing e source (default "" (il_humanOwnerUserId input)) historical disposition
    else
    let resolvedDisposition :=
      if bool_decide (hr_sourceDisposition historical = DQuarantinedNoOwner) then disposition
      else hr_sourceDisposition historical in
    if bool_decide (resolvedDisposition = hr_sourceDisposition historical) then
      (* no transition: neither a version nor a ledger entry *)
      ticket ← match promotedId with
               | None => mret None
               | Some id => on_store (selectDevTicketForUpdate (env_organizationId e) (env_workspaceId e) id)
               end;
      accept e (legacyOutcome (hr_sourceDisposition historical)) (hr_historicalRecordId historical)
        (historical_version historical :: option_list (ticket_version <$> ticket))
        (ticket_ids promotedId)
    else
      resolved ← executeRiskyMutation (on_store (resolveImportedHistoricalRecord
        (resolve_input e historical resolvedDisposition
           (if bool_decide (resolvedDisposition = DPromotedBacklog)
            then hr_promotionCommandId historical else None) promotedId)));
      match resolved with
      | err d => reject_error e d
      | ok None => historical_drift e
      | ok (Some resolved) =>
        append_import e source (default (hr_historicalRecordId resolved) promotedId);;
        accept e (legacyOutcome disposition) (hr_historicalRecordId resolved)
          [historical_version resolved] (ticket_ids promotedId)
      end
  end.

Definition historical_input e (source : LegacyTaskSource) (disposition : SourceDisposition)
    (digest epoch historicalId : string) (ticket : option DevTicketRow) : InsertHistoricalRecordInput :=
  mkInsertHistorical historicalId (env_organizationId e) (env_workspaceId e) (lt_id source)
    (legacyCompletionGate (lt_status source) disposition) disposition (Some epoch) (lt_createdAt source)
    (lt_updatedAt source) digest (lt_evidenceRefs source)
    (match ticket with None => None | Some _ => Some (env_commandId e) end).

Definition alias_input e (source : LegacyTaskSource) (ticket : option DevTicketRow)
    (historical : HistoricalRecordRow) : LegacyTaskAliasRow :=
  mkAlias (env_organizationId e) (env_workspaceId e) (lt_id source) (lt_cardNumber source)
    (dt_id <$> ticket) (hr_historicalRecordId historical) (env_commandId e).

Definition import_mutation e (source : LegacyTaskSource) (owner : string)
    (disposition : SourceDisposition) (digest historicalId : string)
    : Cmd (option DevTicketRow * HistoricalRecordRow) :=
  ticket ←
    (if bool_decide (disposition = DPromotedBacklog) then
       t ← on_store (insertDevTicket (promoted_ticket_input e source owner)); mret (Some t)
     else mret None);
  epoch ← iso (lt_updatedAt source);
  now ← newDate;
  historical ← on_store (insertHistoricalRecord now
    (historical_input e source disposition digest epoch historicalId ticket));
  on_store (insertLegacyTaskAlias (alias_input e source ticket historical));;
  mret (ticket, historical).

(** The import of a task without an alias. *)
Definition import_new e (input : ImportLegacyDevTicketInput) (source : LegacyTaskSource)
    (disposition : SourceDisposition) (digest : string) : Cmd (Result CommandResult) :=
  collision ←
    (if bool_decide (disposition = DPromotedBacklog) then
       on_store (selectDevTicketForUpdate (env_organizationId e) (env_workspaceId e) (lt_id source))
     else mret None);
  if negb (is_null collision) then ticket_collision e
  else
  historicalId ← randomUUID;
  mutation ← executeRiskyMutation (import_mutation e source (default "" (il_humanOwnerUserId input))
                                     disposition digest historicalId);
  match mutation with
  | err d =>
      if String.eqb (error_code d) "dev_board.constraint_conflict" then
        winnerAlias ← on_store (selectLegacyTaskAliasForUpdate (env_organizationId e) (lt_id source));
        match winnerAlias with
        | Some winner => resolveExistingAlias e input source disposition digest winner
        | None => reject_error e d
        end
      else reject_error e d
  | ok (ticket, historical) =>
      let aggregateId := default (hr_historicalRecordId historical) (dt_id <$> ticket) in
      let aggregateVersion := default (hr_version historical) (dt_version <$> ticket) in
      append_import e source aggregateId;;
      activity e aggregateId aggregateVersion "LegacyDevTicketImported"
        [("historicalRecordId", JStr (hr_historicalRecordId historical));
         ("status", JStr (lt_status source))];;
      accept e (legacyOutcome disposition) (hr_historicalRecordId historical)
        (historical_version historical :: option_list (ticket_version <$> ticket))
        (ticket_ids (dt_id <$> ticket))
  end.

(** Authentication and authorization come before the receipt: an untrusted caller
    can neither discover nor pin a command key. *)
Definition authorized_command e (refusal : string) (body : Cmd (Result CommandResult))
    : Cmd (Result CommandResult) :=
  withTenant (env_organizationId e) (
    match parseCommandActorRef (actorRef_js (env_actorRef e)) with
    | err d => mret (err d)
    | ok _ =>
        authorized ← authorizedLegacyImportActor e;
        if negb authorized then mret (err (failure "dev_board.import_authorization_required" refusal))
        else reserved e body
    end).

Definition importLegacyDevTicket e (input : ImportLegacyDevTicketInput) : Cmd (Result CommandResult) :=
  authorized_command e "Legacy import requires an authorized organization owner or admin." (
    source ← on_store (selectLegacyTaskSource (il_legacyTaskId input));
    match source with
    | None => reject e "dev_board.legacy_task_not_found" "Legacy Task was not found in this organization."
    | Some source =>
      if negb (String.eqb (lt_organizationId source) (env_organizationId e)) then
        reject e "dev_board.legacy_task_not_found" "Legacy Task was not found in this organization."
      else if negb (String.eqb (lt_workspaceId source) (env_workspaceId e)) then
        reject e "dev_board.legacy_workspace_mismatch" "Legacy Task belongs to another workspace."
      else if negb (bool_decide (lt_status source ∈ importable_statuses)) then
        reject e "dev_board.legacy_task_not_found" "Legacy Task is not importable."
      else
      ownerConfirmed ← match il_humanOwnerUserId input with
                       | None => mret false
                       | Some owner => ask_store (isActiveMember (env_organizationId e) owner)
                       end;
      let disposition := legacy_disposition (lt_status source) ownerConfirmed in
      digest ← legacyDigest (lt_row source);
      existingAlias ← on_store (selectLegacyTaskAliasForUpdate (env_organizationId e) (lt_id source));
      match existingAlias with
      | Some existing => resolveExistingAlias e input source disposition digest existing
      | None => import_new e input source disposition digest
      end
    end).

Definition reconcile_invalid e : Cmd (Result CommandResult) :=
  reject e "dev_board.reconcile_target_invalid" "Historical record is not eligible for reconciliation.".

Definition reconcileHistoricalCompletion e (input : ReconcileHistoricalCompletionInput)
    : Cmd (Result CommandResult) :=
  authorized_command e "Historical reconciliation requires an authorized organization owner or admin." (
    historical ← on_store (selectHistoricalRecordForUpdate (env_organizationId e) (env_workspaceId e)
                             (rc_historicalRecordId input));
    match historical with
    | None => reconcile_invalid e
    | Some historical =>
      if bool_decide (hr_sourceDisposition historical = DPromotedBacklog) then reconcile_invalid e
      else
      match hr_completionGate historical with
      | Some GReconciledHistorical =>
          reject e "dev_board.already_reconciled" "Historical record is already reconciled."
      | None => reconcile_invalid e
      | Some GLegacyUnverified =>
        source ← on_store (selectLegacyTaskSource (hr_sourceTableRowIdentity historical));
        let approved := match source with
                        | Some source => approved_review (lt_evidenceRefs source)
                        | None => false
                        end in
        if negb approved || negb (frozenEvidenceHasReference (hr_evidenceRefs historical)) then
          reject e "dev_board.reconcile_evidence_insufficient"
            "Approved legacy review and frozen evidence are required."
        else
        changed ← executeRiskyMutation (on_store (PlanningStore.reconcileHistoricalCompletion
          (mkReconcile (env_organizationId e) (env_workspaceId e) (hr_historicalRecordId historical)
             (hr_version historical))));
        match changed with
        | err d => reject_error e d
        | ok None => historical_drift e
        | ok (Some changed) =>
          let content := [("reconciliationEpoch", JStr (rc_reconciliationEpoch input));
                          ("evidenceRefs", JArr (JObj <$> hr_evidenceRefs changed))] in
          planning e (hr_historicalRecordId changed) "HistoricalCompletionReconciled"
            "Historical completion reconciled" content;;
          activity e (hr_historicalRecordId changed) (hr_version changed)
            "HistoricalCompletionReconciled" content;;
          accept e "dev_board.historical_completion_reconciled" (hr_historicalRecordId changed)
            [historical_version changed] []
        end
      end
    end).

End legacy_commands.
