(* ===== verification/StoreRules.v ===== *)
(** * The shape of the planning store

    Every row is stored under the key made of its own fields, so a lookup by key
    finds the row it asks for; the writes of the commands as functions on the
    store, and the weakest preconditions of the store methods in terms of them. *)
From S2P Require Import Prelude JsMap JsString JsValue SharedKernel Effects DevBoardDomain.
From S2P Require Import TenantContext Receipts Ledger PlanningRows PlanningStore CommandBase.
From S2P Require Import TicketCommands.
From Stdlib Require Import Ascii.

(** ** Keys *)

Definition no_colon (s : string) : bool := string_forall (λ c, negb (Ascii.eqb c ":")) s.

Lemma key_inj org ws id org' ws' id' :
  no_colon org = true → no_colon org' = true → no_colon ws = true → no_colon ws' = true →
  key org ws id = key org' ws' id' → org = org' ∧ ws = ws' ∧ id = id'.
Proof.
  unfold key. intros Ho Ho' Hw Hw' H.
  apply separator_inj in H as [-> H]; [|done..]. by apply separator_inj in H as [-> ->].
Qed.

Lemma matches_classes_forall (q : ascii → bool) cs s :
  Forall (λ p : ascii → bool, ∀ c, p c = true → q c = true) cs →
  matches_classes cs s = true → string_forall q s = true.
Proof.
  intros Hcs. revert s. induction Hcs as [|p cs Hp Hcs IH]; intros [|c s]; simpl; try done.
  intros [??]%andb_true_iff. apply andb_true_iff; auto.
Qed.

(** A UUID holds no colon: the separator of the keys. *)
Lemma uuid_no_colon s : uuidPattern s = true → no_colon s = true.
Proof.
  apply matches_classes_forall.
  rewrite !Forall_app, !Forall_cons. split_and!;
    repeat first [apply Forall_replicate | apply Forall_nil_2 | split];
    intros [[] [] [] [] [] [] [] []]; vm_compute; congruence.
Qed.

(** ** Keyed maps *)

Section keyed.
Context {V : Type} (org ws id : V → string).
Implicit Types (m : jsmap V).

Definition own_key (v : V) : string := key (org v) (ws v) (id v).

Definition tenant_row (v : V) : Prop := no_colon (org v) = true ∧ no_colon (ws v) = true.

Definition rows_keyed m : Prop :=
  jm_wf m ∧ ∀ k v, jm_get k m = Some v → k = own_key v ∧ tenant_row v.

Lemma rows_keyed_nil : rows_keyed [].
Proof. split; [apply jm_wf_nil|done]. Qed.

Lemma rows_keyed_get m o w i v :
  rows_keyed m → no_colon o = true → no_colon w = true →
  jm_get (key o w i) m = Some v → org v = o ∧ ws v = w ∧ id v = i.
Proof.
  intros [_ Hm] Ho Hw Hget. apply Hm in Hget as [Hk [??]].
  apply key_inj in Hk as (-> & -> & ->); done.
Qed.

Lemma rows_keyed_set m v : rows_keyed m → tenant_row v → rows_keyed (jm_set (own_key v) v m).
Proof.
  intros [Hwf Hm] Hv. split; [by apply jm_wf_set|].
  intros k v' [[-> ->]|[_ H]]%jm_get_set_Some; auto.
Qed.

(** Under a keyed map, the values are the rows found by their own key. *)
Lemma rows_keyed_values m v : rows_keyed m → v ∈ jm_values m ↔ jm_get (own_key v) m = Some v.
Proof.
  intros [Hwf Hm]. rewrite elem_of_jm_values by done. split; [|by eauto].
  intros [k Hk]. by destruct (Hm _ _ Hk) as [-> _].
Qed.

End keyed.

Abbreviation proposal_key := (own_key pr_organizationId pr_workspaceId pr_id).
Abbreviation ticket_key := (own_key dt_organizationId dt_workspaceId dt_id).
Abbreviation edge_key := (own_key ed_organizationId ed_workspaceId ed_id).

Definition members_keyed (m : jsmap TodoQueueMembershipRow) : Prop :=
  jm_wf m ∧ ∀ k v, jm_get k m = Some v →
    ∃ org ws, k = key org ws (qm_devTicketId v) ∧ no_colon org = true ∧ no_colon ws = true.

Definition historical_keyed (m : jsmap HistoricalRecordRow) : Prop :=
  jm_wf m ∧ ∀ k v, jm_get k m = Some v → k = hr_historicalRecordId v.

Definition aliases_keyed (m : jsmap LegacyTaskAliasRow) : Prop :=
  jm_wf m ∧ ∀ k v, jm_get k m = Some v →
    k = alias_key (al_organizationId v) (al_legacyTaskId v) ∧ no_colon (al_organizationId v) = true.

(** How the maps of a store are keyed: proposals, tickets and edges under their
    organization, workspace and identifier; the header of a queue under its
    organization and workspace and the word todo; a membership under its ticket, in
    some organization and workspace; historical records under their identifier; and
    aliases under their organization and legacy identifier. *)
Record keyed (s : PlanningStore) : Prop := {
  keyed_proposals : rows_keyed pr_organizationId pr_workspaceId pr_id (proposals s);
  keyed_tickets : rows_keyed dt_organizationId dt_workspaceId dt_id (devTickets s);
  keyed_edges : rows_keyed ed_organizationId ed_workspaceId ed_id (dependencyEdges s);
  keyed_headers : rows_keyed qh_organizationId qh_workspaceId (λ _, "todo") (todoQueueHeaders s);
  keyed_members : members_keyed (todoQueueMemberships s);
  keyed_historical : historical_keyed (historicalRecords s);
  keyed_aliases : aliases_keyed (legacyTaskAliases s);
}.

(** The tenant of an envelope: the organization is a UUID, and the workspace
    identifier holds no colon, being a UUID as well. *)
Definition tenant_ok (e : CommandEnvelope) : Prop :=
  no_colon (env_organizationId e) = true ∧ no_colon (env_workspaceId e) = true.

(** ** Lookups and writes of a command *)

Section writes.
Variable e : CommandEnvelope.

Abbreviation org := (env_organizationId e).
Abbreviation ws := (env_workspaceId e).

Definition find_proposal (id : string) (s : PlanningStore) : option ProposalRow :=
  jm_get (key org ws id) (proposals s).
Definition find_ticket (id : string) (s : PlanningStore) : option DevTicketRow :=
  jm_get (key org ws id) (devTickets s).
Definition find_edge (id : string) (s : PlanningStore) : option DependencyEdgeRow :=
  jm_get (key org ws id) (dependencyEdges s).
Definition find_member (id : string) (s : PlanningStore) : option TodoQueueMembershipRow :=
  jm_get (key org ws id) (todoQueueMemberships s).

(** The Todo header, as it is or as it would be created. *)
Definition queue_header (s : PlanningStore) : LaneQueueHeaderRow :=
  default (mkHeader org ws 1) (jm_get (key org ws "todo") (todoQueueHeaders s)).

Definition put_header (h : LaneQueueHeaderRow) (s : PlanningStore) : PlanningStore :=
  set_todoQueueHeaders (jm_set (key org ws "todo") h (todoQueueHeaders s)) s.

Definition bump_queue (s : PlanningStore) : PlanningStore :=
  put_header (mkHeader org ws (qh_version (queue_header s) + 1)) s.

Definition drop_member (id : string) (s : PlanningStore) : PlanningStore :=
  set_todoQueueMemberships (jm_delete (key org ws id) (todoQueueMemberships s)) s.

Definition put_member (id : string) (rank : Z) (s : PlanningStore) : PlanningStore :=
  set_todoQueueMemberships
    (jm_set (key org ws id) (mkMembership id rank) (todoQueueMemberships s)) s.

Definition rebalance (ids : list string) (s : PlanningStore) : PlanningStore :=
  set_todoQueueMemberships (rebalance_from 0 org ws ids (todoQueueMemberships s)) s.

(** A ticket taken out of Todo, when it is there: its membership goes and the
    queue version moves. *)
Definition leave_queue (t : DevTicketRow) (s : PlanningStore) : PlanningStore :=
  let todo := bool_decide (dt_lane t = LTodo) in
  set_todoQueueHeaders
    (if todo then todoQueueHeaders (bump_queue s) else todoQueueHeaders s)
    (set_todoQueueMemberships
       (if todo then todoQueueMemberships (drop_member (dt_id t) s) else todoQueueMemberships s) s).

Lemma leave_queue_todo t s : dt_lane t = LTodo → leave_queue t s = bump_queue (drop_member (dt_id t) s).
Proof. intros H. unfold leave_queue. by rewrite bool_decide_true. Qed.

Lemma leave_queue_other t s : dt_lane t ≠ LTodo → leave_queue t s = s.
Proof. intros H. unfold leave_queue. rewrite bool_decide_false by done. by destruct s. Qed.

End writes.

Definition put_proposal (p : ProposalRow) (s : PlanningStore) : PlanningStore :=
  set_proposals (jm_set (proposal_key p) p (proposals s)) s.
Definition put_ticket (t : DevTicketRow) (s : PlanningStore) : PlanningStore :=
  set_devTickets (jm_set (ticket_key t) t (devTickets s)) s.
Definition put_edge (d : DependencyEdgeRow) (s : PlanningStore) : PlanningStore :=
  set_dependencyEdges (jm_set (edge_key d) d (dependencyEdges s)) s.
Definition put_historical (h : HistoricalRecordRow) (s : PlanningStore) : PlanningStore :=
  set_historicalRecords (jm_set (hr_historicalRecordId h) h (historicalRecords s)) s.
Definition put_alias (a : LegacyTaskAliasRow) (s : PlanningStore) : PlanningStore :=
  set_legacyTaskAliases
    (jm_set (alias_key (al_organizationId a) (al_legacyTaskId a)) a (legacyTaskAliases s)) s.

(** * Rules for the store methods

    What each mutating method does when the row it names is there at the version
    it expects, in terms of those writes; and the treatment of
    savepoints, refusals and ledger effects that every command proof shares. *)

(** ** Rows found by a command *)

Definition found_proposal (e : CommandEnvelope) (p : ProposalRow) (s : PlanningStore) : Prop :=
  find_proposal e (pr_id p) s = Some p ∧
  pr_organizationId p = env_organizationId e ∧ pr_workspaceId p = env_workspaceId e.

Definition found_ticket (e : CommandEnvelope) (t : DevTicketRow) (s : PlanningStore) : Prop :=
  find_ticket e (dt_id t) s = Some t ∧
  dt_organizationId t = env_organizationId e ∧ dt_workspaceId t = env_workspaceId e.

Definition found_edge (e : CommandEnvelope) (d : DependencyEdgeRow) (s : PlanningStore) : Prop :=
  find_edge e (ed_id d) s = Some d ∧
  ed_organizationId d = env_organizationId e ∧ ed_workspaceId d = env_workspaceId e.

Lemma find_proposal_found e id p s :
  keyed s → tenant_ok e → find_proposal e id s = Some p → pr_id p = id ∧ found_proposal e p s.
Proof.
  intros Hk [Ho Hw] Hf. pose proof Hf as Hf'.
  apply (rows_keyed_get _ _ _ _ _ _ _ _ (keyed_proposals _ Hk)) in Hf' as (? & ? & <-); done.
Qed.

Lemma find_ticket_found e id t s :
  keyed s → tenant_ok e → find_ticket e id s = Some t → dt_id t = id ∧ found_ticket e t s.
Proof.
  intros Hk [Ho Hw] Hf. pose proof Hf as Hf'.
  apply (rows_keyed_get _ _ _ _ _ _ _ _ (keyed_tickets _ Hk)) in Hf' as (? & ? & <-); done.
Qed.

Lemma find_edge_found e id d s :
  keyed s → tenant_ok e → find_edge e id s = Some d → ed_id d = id ∧ found_edge e d s.
Proof.
  intros Hk [Ho Hw] Hf. pose proof Hf as Hf'.
  apply (rows_keyed_get _ _ _ _ _ _ _ _ (keyed_edges _ Hk)) in Hf' as (? & ? & <-); done.
Qed.

Lemma versioned_Some {A} (f : A → Z) v row x n :
  versioned f v row = Some (x, n) → v = Some n ∧ row = Some x ∧ f x = n.
Proof.
  unfold versioned. destruct v as [v|], row as [y|]; [|done..].
  destruct (Z.eqb_spec (f y) v); naive_solver.
Qed.

Lemma is_null_true {A} (o : option A) : is_null o = true → o = None.
Proof. by destruct o. Qed.

Lemma is_null_false {A} (o : option A) : is_null o = false → is_Some o.
Proof. destruct o; naive_solver. Qed.

Lemma no_rows {A} (l : list A) : (0 <? length l) = false → l = [].
Proof. by destruct l. Qed.

Lemma same_or_admitted a b c : negb (String.eqb a b) && negb c = false → a = b ∨ c = true.
Proof. destruct (String.eqb_spec a b), c; naive_solver. Qed.

Lemma guarded_false a b : a && b = false → a = true → b = false.
Proof. by destruct a. Qed.

Lemma dependent_changed_key t : ticket_key (dependent_changed t) = ticket_key t.
Proof. unfold dependent_changed. by case_bool_decide. Qed.

(** ** Proposals and tickets *)

Lemma wp_insertProposal input Q s :
  (jm_get (key (ip_organizationId input) (ip_workspaceId input) (ip_id input)) (proposals s) = None →
   let p := mkProposalRow (ip_id input) (ip_organizationId input) (ip_workspaceId input) 1 PDraft
      None None None (ip_discoverySummary input) (ip_blockingAssessment input)
      (ip_suggestedContract input) (ip_createdCommandId input) None None in
   Q (Returned p) (put_proposal p s)) →
  (∀ x, Q (Thrown x) s) → wp (insertProposal input) Q s.
Proof.
  intros Hok Ht. apply wp_bind, wp_get. case_match eqn:Hh; [by apply wp_throw|].
  apply wp_bind, wp_put, wp_ret, Hok. by apply jm_has_false.
Qed.

Lemma wp_updateProposal e p input Q s :
  found_proposal e p s →
  up_organizationId input = env_organizationId e → up_workspaceId input = env_workspaceId e →
  up_proposalId input = pr_id p → up_expectedVersion input = pr_version p →
  Q (Returned (Some (updated_proposal input p))) (put_proposal (updated_proposal input p) s) →
  wp (updateProposal input) Q s.
Proof.
  intros (Hf & Ho & Hw) Hio Hiw Hid Hv HQ. apply wp_bind, wp_get.
  rewrite Hio, Hiw, Hid. unfold find_proposal in Hf. rewrite Hf, Hv, Z.eqb_refl.
  apply wp_bind, wp_put, wp_ret. unfold put_proposal, own_key in HQ.
  assert (pr_organizationId (updated_proposal input p) = env_organizationId e ∧
          pr_workspaceId (updated_proposal input p) = env_workspaceId e ∧
          pr_id (updated_proposal input p) = pr_id p) as (E1 & E2 & E3);
    [by unfold updated_proposal; destruct (up_archive input) as [[[]]|]|].
  by rewrite E1, E2, E3 in HQ.
Qed.

Lemma wp_insertDevTicket input Q s :
  (jm_get (ticket_key (new_ticket input)) (devTickets s) = None →
   source_taken (it_organizationId input) (it_sourceProposalId input) s = false →
   Q (Returned (new_ticket input)) (put_ticket (new_ticket input) s)) →
  (∀ x, Q (Thrown x) s) → wp (insertDevTicket input) Q s.
Proof.
  intros Hok Ht. apply wp_bind, wp_get. case_match eqn:Hh; [by apply wp_throw|].
  apply orb_false_iff in Hh as [Hh%jm_has_false ?].
  apply wp_bind, wp_put, wp_ret. by apply Hok.
Qed.

(** The update of a ticket found at the version and in the state the method wants. *)
Lemma wp_update_ticket e t org ws id v g f Q s :
  found_ticket e t s → org = env_organizationId e → ws = env_workspaceId e → id = dt_id t →
  v = dt_version t → g t = true → ticket_key (f t) = ticket_key t →
  Q (Returned (Some (f t))) (put_ticket (f t) s) →
  wp (update_ticket org ws id v g f) Q s.
Proof.
  intros (Hf & Ho & Hw) -> -> -> -> Hg Hkey HQ. apply wp_bind, wp_get.
  unfold find_ticket in Hf. rewrite Hf, Z.eqb_refl, Hg.
  apply wp_bind, wp_put, wp_ret. unfold put_ticket in HQ. rewrite Hkey in HQ.
  unfold own_key in HQ. by rewrite Ho, Hw in HQ.
Qed.

(** ** The Todo queue *)

(** The headers after [getOrLockTodoQueueHeader]. *)
Definition open_queue (e : CommandEnvelope) (s : PlanningStore) : PlanningStore :=
  set_todoQueueHeaders
    (match jm_get (key (env_organizationId e) (env_workspaceId e) "todo") (todoQueueHeaders s) with
     | Some _ => todoQueueHeaders s
     | None => jm_set (key (env_organizationId e) (env_workspaceId e) "todo")
                 (mkHeader (env_organizationId e) (env_workspaceId e) 1) (todoQueueHeaders s)
     end) s.

Lemma set_headers_id s : set_todoQueueHeaders (todoQueueHeaders s) s = s.
Proof. by destruct s. Qed.

Lemma opened_open_queue e s : opened e s (open_queue e s).
Proof.
  unfold open_queue. destruct (jm_get _ _) eqn:Hg; [rewrite set_headers_id; constructor|].
  by constructor.
Qed.

Lemma wp_getOrLock e Q s :
  Q (Returned (queue_header e s)) (open_queue e s) →
  wp (getOrLockTodoQueueHeader (env_organizationId e) (env_workspaceId e)) Q s.
Proof.
  unfold open_queue, queue_header. intros HQ. apply wp_bind, wp_get.
  destruct (jm_get _ _); [apply wp_ret; by rewrite set_headers_id in HQ|].
  by apply wp_bind, wp_put, wp_ret.
Qed.

Lemma open_queue_header e s :
  jm_get (key (env_organizationId e) (env_workspaceId e) "todo") (todoQueueHeaders (open_queue e s))
  = Some (queue_header e s).
Proof.
  unfold open_queue, queue_header; simpl.
  destruct (jm_get _ (todoQueueHeaders s)) eqn:Hg; simpl; [done|].
  apply jm_get_set_eq.
Qed.

Lemma open_queue_headers_set e h s :
  jm_set (key (env_organizationId e) (env_workspaceId e) "todo") h (todoQueueHeaders (open_queue e s))
  = jm_set (key (env_organizationId e) (env_workspaceId e) "todo") h (todoQueueHeaders s).
Proof. unfold open_queue; simpl. destruct (jm_get _ _); [done|]. apply jm_set_twice. Qed.

(** The header a command bumps: opened in the store it started from, and not
    touched since. *)
Definition queue_opened (e : CommandEnvelope) (s0 s : PlanningStore) : Prop :=
  todoQueueHeaders s = todoQueueHeaders (open_queue e s0).

Lemma queue_header_tenant e s :
  keyed s → tenant_ok e →
  qh_organizationId (queue_header e s) = env_organizationId e ∧
  qh_workspaceId (queue_header e s) = env_workspaceId e.
Proof.
  intros Hk [Ho Hw]. unfold queue_header. destruct (jm_get _ _) as [h|] eqn:Hg; [|done]. simpl.
  by apply (rows_keyed_get _ _ _ _ _ _ _ _ (keyed_headers _ Hk)) in Hg as (? & ? & _).
Qed.

Lemma wp_casBump e s0 v Q s :
  keyed s0 → tenant_ok e → queue_opened e s0 s → v = qh_version (queue_header e s0) →
  Q (Returned (Some (mkHeader (env_organizationId e) (env_workspaceId e) (qh_version (queue_header e s0) + 1))))
    (set_todoQueueHeaders (todoQueueHeaders (bump_queue e s0)) s) →
  wp (casBumpTodoQueueVersion (env_organizationId e) (env_workspaceId e) v) Q s.
Proof.
  intros Hk Ht Hop -> HQ. apply wp_bind, wp_get. unfold queue_opened in Hop.
  rewrite Hop, open_queue_header, Z.eqb_refl. apply wp_bind, wp_put, wp_ret.
  destruct (queue_header_tenant e s0 Hk Ht) as [-> ->]. by rewrite open_queue_headers_set.
Qed.

Lemma rerank_has k k' row m : jm_has k (rerank k' row m) = jm_has k m.
Proof.
  unfold rerank. destruct (jm_has k' m) eqn:Hk'; [|done]. unfold jm_has in *. rewrite jm_get_set.
  destruct (String.eqb_spec k k') as [->|]; [|done]. by destruct (jm_get k' m).
Qed.

Lemma rebalance_from_has k i o w ids m : jm_has k (rebalance_from i o w ids m) = jm_has k m.
Proof. revert i m. induction ids as [|id ids IH]; intros i m; simpl; [done|]. by rewrite IH, rerank_has. Qed.

Lemma find_member_rebalance e id ids s : find_member e id (rebalance e ids s) = None → find_member e id s = None.
Proof. unfold find_member. rewrite <-!jm_has_false. simpl. by rewrite rebalance_from_has. Qed.

Lemma wp_insertMember e id rank (Q : outcome unit → PlanningStore → Prop) s :
  (find_member e id s = None → Q (Returned tt) (put_member e id rank s)) → (∀ x, Q (Thrown x) s) →
  wp (insertTodoQueueMembership
        (mkQueueInput (env_organizationId e) (env_workspaceId e) id rank)) Q s.
Proof.
  intros Hok Ht. apply wp_bind, wp_get. case_match eqn:Hh; [by apply wp_throw|].
  by apply wp_put, Hok, jm_has_false.
Qed.

Lemma wp_rebalance e ids (Q : outcome unit → PlanningStore → Prop) s :
  Q (Returned tt) (rebalance e ids s) →
  wp (rebalanceTodoBand (env_organizationId e) (env_workspaceId e) ids) Q s.
Proof. intros HQ. by apply wp_bind, wp_get, wp_put. Qed.

Lemma wp_updateRank e id rank Q s :
  is_Some (find_member e id s) → Q (Returned true) (put_member e id rank s) →
  wp (updateTodoQueueMembershipRank
        (mkQueueInput (env_organizationId e) (env_workspaceId e) id rank)) Q s.
Proof.
  intros Hm%jm_has_get HQ. apply wp_bind, wp_get, wp_bind, wp_put, wp_ret.
  unfold rerank; simpl. by rewrite Hm.
Qed.

(** ** Savepoints *)

Definition same_fixtures (s s' : PlanningStore) : Prop :=
  activeMembers s' = activeMembers s ∧ organizationRoles s' = organizationRoles s.

Section command_rules.
Context {R L : Type} {RP : CommandReceiptRepository R} {LP : DevBoardLedgerAppendPort L}.
Context {RT : NodeRuntime} {DB : TenantDatabase}.
Abbreviation world := (World R L).
Abbreviation Cmd := (M (World R L)).
Implicit Types (w : world) (e : CommandEnvelope) (P : CommandResult → PlanningStore → PlanningStore → Prop).

(** The answers a failed savepoint gives. *)
Definition failed {A} (r : outcome (Result A)) : Prop :=
  match r with Returned (ok _) => False | _ => True end.

(** A mutation that throws leaves the store as it was. *)
Lemma wp_risky {A} (mutation : Cmd A) (Q : outcome (Result A) → world → Prop) w :
  wp mutation (λ r w', match r with
    | Returned a => Q (Returned (ok a)) w'
    | Thrown x => same_fixtures (w_store w) (w_store w') ∧
                  ∀ r, failed r → Q r (set_store (w_store w) w')
    end) w →
  wp (executeRiskyMutation mutation) Q w.
Proof.
  intros H. apply wp_executeRiskyMutation. eapply wp_mono; [exact H|].
  intros [a|x] w'; [done|]. intros [[??] HQ]. rewrite restore_maps_same by done.
  apply wp_risky_error; intros; by apply HQ.
Qed.

(** [None] stands for the sentinel: the callers refuse in the same way. *)
Lemma wp_catch_sentinel {A} message (mutation : Cmd (Result A)) (Q : outcome (option (Result A)) → world → Prop) w :
  wp mutation (λ r w', match r with
    | Returned a => Q (Returned (Some a)) w'
    | Thrown x => Q (Returned None) w' ∧ Q (Thrown x) w'
    end) w →
  wp (catch_sentinel message mutation) Q w.
Proof.
  intros H. apply wp_try_catch, wp_bind. eapply wp_mono; [exact H|].
  intros [a|x] w'; [intros HQ; by apply wp_ret|]. intros [HN HT].
  repeat case_match; first [by apply wp_ret | by apply wp_throw].
Qed.

(** ** Refusals, ledger effects and acceptance *)

Lemma wp_reject_post e code message extra ref P w0 w :
  opened e (w_store w0) (w_store w) → w_ledger w = w_ledger w0 →
  wp (reject_with e code message extra ref) (cmd_post e P w0) w.
Proof. intros Ho Hl. by apply wp_reject_with; intros; simpl; [split|left]. Qed.

Lemma wp_reject_plain_post e code message P w0 w :
  opened e (w_store w0) (w_store w) → w_ledger w = w_ledger w0 →
  wp (reject e code message) (cmd_post e P w0) w.
Proof. apply wp_reject_post. Qed.

Lemma wp_reject_error_post e d P w0 w :
  opened e (w_store w0) (w_store w) → w_ledger w = w_ledger w0 →
  wp (reject_error e d) (cmd_post e P w0) w.
Proof. apply wp_reject_post. Qed.

Lemma wp_planning_post e agg kind subject content P w0 res Q w :
  P res (w_store w0) (w_store w) → (∀ l, Q (Returned tt) (set_ledger l w)) →
  (∀ x w', w_store w' = w_store w → cmd_post e P w0 (Thrown x) w' → Q (Thrown x) w') →
  wp (planning e agg kind subject content) Q w.
Proof.
  intros HP HQ HT. apply wp_planning; [done|]. intros l x. apply HT; [done|]. simpl. right. by exists res.
Qed.

Lemma wp_activity_post e agg v name payload P w0 res Q w :
  P res (w_store w0) (w_store w) →
  (∀ l n, Q (Returned tt) (mkWorld (w_store w) (w_receipts w) l (w_uuids w) n)) →
  (∀ x w', w_store w' = w_store w → cmd_post e P w0 (Thrown x) w' → Q (Thrown x) w') →
  wp (activity e agg v name payload) Q w.
Proof.
  intros HP HQ HT. apply wp_activity; [done|]. intros l n x. apply HT; [done|]. simpl. right. by exists res.
Qed.

Lemma wp_accept_post e code ref versions ids P w0 w :
  P (accepted_result e versions ids) (w_store w0) (w_store w) →
  wp (accept e code ref versions ids) (cmd_post e P w0) w.
Proof. intros HP. apply wp_accept; intros; simpl; [by right|right; eauto]. Qed.

End command_rules.

(** The store a refusal leaves. *)
Ltac store_untouched := first [apply opened_same | apply opened_open_queue].

(** One step of a command: the rule of the call it makes. *)
Ltac cmd_step :=
  lazymatch goal with
  | |- wp (command _ _) _ _ => apply wp_command; let rc := fresh "rc" in let Hu := fresh "Hu" in intros rc Hu
  | |- wp (_ ≫= _) _ _ => apply wp_bind
  | |- wp (mret _) _ _ => apply wp_ret
  | |- wp (throw _) _ _ => apply wp_throw
  | |- wp (reject_with _ _ _ _ _) _ _ => apply wp_reject_post; [store_untouched | done]
  | |- wp (reject _ _ _) _ _ => apply wp_reject_plain_post; [store_untouched | done]
  | |- wp (reject_error _ _) _ _ => apply wp_reject_error_post; [store_untouched | done]
  | |- wp (ask_store _) _ _ => apply wp_ask_store
  | |- wp (on_store (selectProposalForUpdate _ _ _)) _ _ => apply wp_on_store_reads
  | |- wp (on_store (selectDevTicketForUpdate _ _ _)) _ _ => apply wp_on_store_reads
  | |- wp (on_store (selectDevTicket _ _ _)) _ _ => apply wp_on_store_reads
  | |- wp (on_store (selectDependencyEdge _ _ _)) _ _ => apply wp_on_store_reads
  | |- wp (on_store (selectActiveDependencyEdge _ _ _ _)) _ _ => apply wp_on_store_reads
  | |- wp (on_store (selectActiveBlockerEdges _ _ _)) _ _ => apply wp_on_store_reads
  | |- wp (on_store (dependencyCreatesCycle _ _ _ _)) _ _ => apply wp_on_store_reads
  | |- wp (on_store (listTodoQueueRanks _ _)) _ _ => apply wp_on_store_reads
  | |- wp (on_store (todoQueueMembership _ _ _)) _ _ => apply wp_on_store_reads
  | |- wp (on_store (lockDependencyGraph _)) _ _ => apply wp_on_store, wp_ret; rewrite set_store_id
  | |- wp (on_store (getOrLockTodoQueueHeader _ _)) _ _ => apply wp_on_store, wp_getOrLock
  | |- wp (on_store (selectLegacyTaskSource _)) _ _ => apply wp_on_store_reads
  | |- wp (on_store (selectLegacyTaskAliasForUpdate _ _)) _ _ => apply wp_on_store_reads
  | |- wp (on_store (selectHistoricalRecordForUpdate _ _ _)) _ _ => apply wp_on_store_reads
  | |- wp (executeRiskyMutation _) _ _ => apply wp_risky
  | |- wp (catch_sentinel _ _) _ _ => apply wp_catch_sentinel
  | |- wp newDate _ _ => apply wp_newDate; intros ??
  | |- wp randomUUID _ _ => apply wp_randomUUID; intros ??
  | |- wp (authorizedDevTicketArchiveActor _ _) _ _ => apply wp_ask_store
  | |- wp (authorizedProposalArchiveActor _) _ _ => apply wp_ask_store
  | |- wp (authorizedLegacyImportActor _) _ _ => apply wp_ask_store
  | |- wp (on_store (rebalanceTodoBand _ _ _)) _ _ => apply wp_on_store, wp_rebalance
  | |- wp (on_store _) _ _ => apply wp_on_store
  | |- cmd_post _ _ _ (Thrown _) _ => simpl; left; store_untouched
  | |- let _ := _ in _ => cbv zeta
  | |- wp (let x := _ in _) _ _ => cbv zeta
  | |- wp (match ?x with _ => _ end) _ _ => let E := fresh "E" in destruct x eqn:E; try discriminate E
  end; cbv beta iota.

(** The facts the guards passed so far give. *)
Ltac cmd_facts := bool_hyps;
  repeat match goal with
  | H : versioned _ _ _ = Some (_, _) |- _ => apply versioned_Some in H as (? & ? & ?)
  | H : is_null _ = true |- _ => apply is_null_true in H
  | H : is_null _ = false |- _ => apply is_null_false in H
  | H : (0 <? length _) = false |- _ => apply no_rows in H
  | H : String.eqb _ _ = true |- _ => apply String.eqb_eq in H
  | H : String.eqb _ _ = false |- _ => apply String.eqb_neq in H
  | H : is_string _ _ = true |- _ => apply is_string_true in H
  | H : negb (String.eqb _ _) && negb _ = false |- _ => apply same_or_admitted in H
  | Hk : keyed ?s, Ht : tenant_ok ?e, H : find_ticket ?e ?id ?s = Some ?t |- _ =>
      lazymatch goal with
      | _ : found_ticket e t s |- _ => fail
      | _ => destruct (find_ticket_found e id t s Hk Ht H)
      end
  | Hk : keyed ?s, Ht : tenant_ok ?e,
    H : jm_get (key (env_organizationId ?e) (env_workspaceId ?e) ?id) (proposals ?s) = Some ?p |- _ =>
      lazymatch goal with
      | _ : found_proposal e p s |- _ => fail
      | _ => destruct (find_proposal_found e id p s Hk Ht H)
      end
  | Hk : keyed ?s, Ht : tenant_ok ?e,
    H : jm_get (key (env_organizationId ?e) (env_workspaceId ?e) ?id) (devTickets ?s) = Some ?t |- _ =>
      lazymatch goal with
      | _ : found_ticket e t s |- _ => fail
      | _ => destruct (find_ticket_found e id t s Hk Ht H)
      end
  | Hk : keyed ?s, Ht : tenant_ok ?e,
    H : jm_get (key (env_organizationId ?e) (env_workspaceId ?e) ?id) (dependencyEdges ?s) = Some ?d |- _ =>
      lazymatch goal with
      | _ : found_edge e d s |- _ => fail
      | _ => destruct (find_edge_found e id d s Hk Ht H)
      end
  end; subst.

(** Runs a command up to its next mutation, closing the branches that refuse. *)
Ltac cmd_run := repeat cmd_step.

(** A mutation that threw: the store is as it was, and the command refuses. *)
Ltac cmd_thrown := first [ simpl; left; store_untouched | split; [cmd_run|cmd_thrown] ].
Ltac cmd_fail :=
  intros; split; [done|];
  let Hf := fresh "Hf" in intros [[]|] Hf; [done | cmd_run | cmd_thrown].

(** After the mutation: the ledger appends and the acceptance, given the effect. *)
Ltac cmd_tail HP :=
  repeat first
    [ eapply wp_planning_post; [exact HP| |intros; assumption]; intros
    | eapply wp_activity_post; [exact HP| |intros; assumption]; intros
    | eapply wp_accept_post; exact HP
    | match goal with |- cmd_post _ _ _ (Thrown _) _ => simpl; right; eexists; exact HP end
    | cmd_step ].

(** The guard of a ticket update, from what the command checked. *)
Ltac ticket_guard :=
  first
    [ done
    | match goal with E : dt_archivedAt _ = None |- _ => by rewrite E end
    | match goal with E : is_Some (dt_archivedAt _) |- _ => by destruct E as [? ->] end ].

(** The update of the row the command found. *)
Ltac wp_found :=
  match goal with
  | H : found_proposal ?e ?p _ |- wp (updateProposal _) _ _ =>
      eapply (wp_updateProposal e p); [exact H|done..|]
  | H : found_ticket ?e ?t _ |- wp _ _ _ =>
      eapply (wp_update_ticket e t); [exact H|done|done|done|done|ticket_guard|first [done | apply dependent_changed_key]|]
  end; cbv beta iota.

(** The command goes through, with the effect that [rule] describes. *)
Tactic Notation "cmd_accept" uconstr(rule) :=
  match goal with
  | |- wp _ ?Q ?w =>
      match Q with
      | context [cmd_post _ ?P ?w0] =>
          let HP := fresh "HP" in
          eassert (HP : P _ (w_store w0) (w_store w)) by (simpl; eapply rule; first [by eauto with opzava | congruence]);
          cmd_tail HP
      end
  end.
