(* ===== verification/Board.v ===== *)
(** * The Dev Board: commands and their effects

    The commands as data, [run] as the code runs them, and [effect]: the abstract
    specification of an accepted command as a relation between the store before,
    the result, and the store after.  Each constructor lists the conditions under
    which the command is accepted and everything it writes. *)
From S2P Require Import Prelude JsString JsValue JsMap SharedKernel Effects DevBoardDomain.
From S2P Require Import TenantContext Receipts Ledger PlanningRows PlanningStore CommandBase.
From S2P Require Import TicketCommands ProposalCommands QueueCommands DependencyCommands.
From S2P Require Import LegacyCommands StoreRules.

Inductive board_command : Type :=
| DraftProposal (input : DraftProposalInput)
| SubmitProposal (proposalId : string)
| AcceptProposal (input : AcceptProposalInput)
| MergeProposal (input : MergeProposalInput)
| RejectProposal (input : ProposalReasonInput)
| ArchiveProposal (input : ProposalReasonInput)
| RestoreProposal (proposalId : string)
| ArchiveDevTicket (input : ArchiveDevTicketInput)
| RestoreDevTicket (devTicketId : string)
| SetDevTicketClassification (input : SetDevTicketClassificationInput)
| ApproveReadyToTodo (input : ApproveReadyToTodoInput)
| ReorderTodo (input : ReorderTodoInput)
| AddDependency (input : AddDependencyInput)
| RemoveDependency (input : RemoveDependencyInput)
| ImportLegacyDevTicket (input : ImportLegacyDevTicketInput)
| ReconcileHistoricalCompletion (input : ReconcileHistoricalCompletionInput)
| Claim
| Start
| SubmitForReview
| AdmitDone.

Section run.
Context {R L : Type} {RP : CommandReceiptRepository R} {LP : DevBoardLedgerAppendPort L}.
Context {RT : NodeRuntime} {DB : TenantDatabase}.

Definition run (c : board_command) (e : CommandEnvelope) : M (World R L) (Result CommandResult) :=
  match c with
  | DraftProposal input => draftProposal e input
  | SubmitProposal id => submitProposal e id
  | AcceptProposal input => acceptProposal e input
  | MergeProposal input => mergeProposal e input
  | RejectProposal input => rejectProposal e input
  | ArchiveProposal input => archiveProposal e input
  | RestoreProposal id => restoreProposal e id
  | ArchiveDevTicket input => TicketCommands.archiveDevTicket e input
  | RestoreDevTicket id => TicketCommands.restoreDevTicket e id
  | SetDevTicketClassification input => setDevTicketClassification e input
  | ApproveReadyToTodo input => approveReadyToTodo e input
  | ReorderTodo input => reorderTodo e input
  | AddDependency input => addDependency e input
  | RemoveDependency input => removeDependency e input
  | ImportLegacyDevTicket input => importLegacyDevTicket e input
  | ReconcileHistoricalCompletion input => LegacyCommands.reconcileHistoricalCompletion e input
  | Claim => claim e
  | Start => start e
  | SubmitForReview => submitForReview e
  | AdmitDone => admitDone e
  end.

End run.

(** ** Abstract specification *)

Section effects.
Context {RT : NodeRuntime}.
Variable e : CommandEnvelope.

Abbreviation org := (env_organizationId e).
Abbreviation ws := (env_workspaceId e).

Definition may_manage_ticket (t : DevTicketRow) (s : PlanningStore) : bool :=
  is_user e && (String.eqb (stableId (env_actorRef e)) (dt_humanOwnerUserId t) || has_admin_role e s).

Definition is_admin_user (s : PlanningStore) : bool := is_user e && has_admin_role e s.

Lemma may_manage_ticket_intro t s :
  is_user e = true →
  String.eqb (stableId (env_actorRef e)) (dt_humanOwnerUserId t) || has_admin_role e s = true →
  may_manage_ticket t s = true.
Proof. unfold may_manage_ticket. by intros -> ->. Qed.

Lemma is_admin_user_intro s :
  is_user e = true → has_admin_role e s = true → is_admin_user s = true.
Proof. unfold is_admin_user. by intros -> ->. Qed.

Definition drafted (summary : string) (assessment : BlockingAssessment) (contract : jsobj) : ProposalRow :=
  mkProposalRow (env_targetAggregateId e) org ws 1 PDraft None None None summary assessment contract
    (env_commandId e) None None.

(** The next version of a proposal that took a decision. *)
Definition decided (state : ProposalLifecycleState) (cmd ticket : option string) (p : ProposalRow) : ProposalRow :=
  pr_bump (pr_set_decision state cmd ticket p).

Definition overlaid (at_ : option Z) (by_ reason : option string) (p : ProposalRow) : ProposalRow :=
  pr_bump (pr_set_archive at_ by_ reason p).

(** The queue version a ticket in Todo must be quoted at. *)
Definition todo_quoted (t : DevTicketRow) (s : PlanningStore) : Prop :=
  dt_lane t = LTodo → expected e "lane_queue" "todo" = Some (qh_version (queue_header e s)).

(** The queue version reported when a ticket left Todo. *)
Definition left_queue_version (t : DevTicketRow) (s : PlanningStore) : option Z :=
  if bool_decide (dt_lane t = LTodo) then Some (qh_version (queue_header e s) + 1)%Z else None.

Definition left_version (t : DevTicketRow) (s : PlanningStore) : list CommandExpectedVersion :=
  option_list (queue_version <$> left_queue_version t s).

(** The rows a promotion to Backlog may start from. *)
Definition importable (input : ImportLegacyDevTicketInput) (source : LegacyTaskSource)
    (disposition : SourceDisposition) (digest : string) (s : PlanningStore) : Prop :=
  is_admin_user s = true ∧
  jm_get (il_legacyTaskId input) (legacyTaskSources s) = Some source ∧
  lt_organizationId source = org ∧ lt_workspaceId source = ws ∧
  lt_status source ∈ importable_statuses ∧
  disposition = legacy_disposition (lt_status source)
    match il_humanOwnerUserId input with
    | None => false
    | Some owner => isActiveMember org owner s
    end ∧
  computeReadyContractContentHash (lt_row source) = Some digest.

Definition promoted_ticket (source : LegacyTaskSource) (input : ImportLegacyDevTicketInput) : DevTicketRow :=
  new_ticket (promoted_ticket_input e source (default "" (il_humanOwnerUserId input))).

(** The rows an import creates for a task without an alias. *)
Definition imported_ticket (input : ImportLegacyDevTicketInput) (source : LegacyTaskSource)
    (disposition : SourceDisposition) : option DevTicketRow :=
  if bool_decide (disposition = DPromotedBacklog) then Some (promoted_ticket source input) else None.

Definition imported_record (input : ImportLegacyDevTicketInput) (source : LegacyTaskSource)
    (disposition : SourceDisposition) (digest historicalId epoch : string) (now : Z) : HistoricalRecordRow :=
  mkHistoricalRecordRow historicalId org ws (lt_id source)
    (legacyCompletionGate (lt_status source) disposition) disposition now (lt_createdAt source)
    digest (Some epoch) (lt_updatedAt source) (lt_evidenceRefs source)
    (match imported_ticket input source disposition with None => None | Some _ => Some (env_commandId e) end) 1.

Definition imported (input : ImportLegacyDevTicketInput) (source : LegacyTaskSource)
    (disposition : SourceDisposition) (digest historicalId epoch : string) (now : Z) (s : PlanningStore)
    : PlanningStore :=
  let ticket := imported_ticket input source disposition in
  let h := imported_record input source disposition digest historicalId epoch now in
  put_alias (alias_input e source ticket h)
    (put_historical h (match ticket with None => s | Some t => put_ticket t s end)).

(** The alias of the record's source, if there is one, points to [ticket]. *)
Definition realias (h : HistoricalRecordRow) (ticket : option string) (s : PlanningStore) : PlanningStore :=
  match jm_get (alias_key org (hr_sourceTableRowIdentity h)) (legacyTaskAliases s) with
  | Some a => put_alias (al_set_ticket ticket a) s
  | None => s
  end.

(** The queue memberships after a reordering. *)
Definition reordered (id : string) (index : nat) (others : list TodoQueueMembershipRow) (s : PlanningStore)
    : PlanningStore :=
  let rank := rank_between index others in
  set_todoQueueMemberships
    (if rank_out_of_range rank then todoQueueMemberships (rebalance e (ordered_ids index id others) s)
     else todoQueueMemberships (put_member e id rank s)) s.

Inductive effect : board_command → CommandResult → PlanningStore → PlanningStore → Prop :=
| eff_draft input summary assessment contract s :
    normalizeDiscoverySummary (dp_discoverySummary input) = ok summary →
    parseBlockingAssessment (dp_blockingAssessment input) = ok assessment →
    parseReadyContractContent (default (JObj []) (dp_suggestedContract input)) = ok contract →
    find_proposal e (env_targetAggregateId e) s = None →
    let p := drafted summary assessment contract in
    effect (DraftProposal input)
      (accepted_result e [proposal_version p] [("proposalId", pr_id p)]) s (put_proposal p s)
| eff_submit id p s :
    find_proposal e id s = Some p → expected e "proposal" id = Some (pr_version p) →
    pr_lifecycleState p = PDraft → pr_archivedAt p = None →
    let p' := decided PAwaitingDecision None None p in
    effect (SubmitProposal id)
      (accepted_result e [proposal_version p'] [("proposalId", pr_id p')]) s (put_proposal p' s)
| eff_accept input p contract ticketId s :
    find_proposal e (acp_proposalId input) s = Some p →
    expected e "proposal" (acp_proposalId input) = Some (pr_version p) →
    awaiting p = true →
    isActiveMember org (acp_humanOwnerUserId input) s = true →
    parseReadyContractContent (default (JObj []) (acp_initialContractContent input)) = ok contract →
    let t := new_ticket (accepted_ticket_input e input p contract ticketId) in
    let p' := decided PAccepted (Some (env_commandId e)) (Some ticketId) p in
    find_ticket e ticketId s = None →
    source_taken org (Some (pr_id p)) s = false →
    effect (AcceptProposal input)
      (accepted_result e [proposal_version p'; ticket_version t]
         [("proposalId", pr_id p'); ("devTicketId", ticketId)])
      s (put_proposal p' (put_ticket t s))
| eff_merge input reason p t s :
    decisionReason (mp_reason input) = ok reason →
    find_proposal e (mp_proposalId input) s = Some p →
    expected e "proposal" (mp_proposalId input) = Some (pr_version p) →
    find_ticket e (mp_existingDevTicketId input) s = Some t →
    expected e "dev_ticket" (mp_existingDevTicketId input) = Some (dt_version t) →
    awaiting p = true → dt_archivedAt t = None →
    let p' := decided PMerged None None p in
    effect (MergeProposal input)
      (accepted_result e [proposal_version p'; ticket_version t]
         [("proposalId", pr_id p'); ("devTicketId", dt_id t)])
      s (put_proposal p' s)
| eff_reject input reason p s :
    decisionReason (rp_reason input) = ok reason →
    find_proposal e (rp_proposalId input) s = Some p →
    expected e "proposal" (rp_proposalId input) = Some (pr_version p) →
    awaiting p = true →
    let p' := decided PRejected None None p in
    effect (RejectProposal input)
      (accepted_result e [proposal_version p'] [("proposalId", pr_id p')]) s (put_proposal p' s)
| eff_archive_proposal input reason now p s :
    decisionReason (rp_reason input) = ok reason →
    find_proposal e (rp_proposalId input) s = Some p →
    expected e "proposal" (rp_proposalId input) = Some (pr_version p) →
    pr_archivedAt p = None → is_admin_user s = true →
    let p' := overlaid (Some now) (Some (stableId (env_actorRef e))) (Some reason) p in
    effect (ArchiveProposal input)
      (accepted_result e [proposal_version p'] [("proposalId", pr_id p')]) s (put_proposal p' s)
| eff_restore_proposal id p s :
    find_proposal e id s = Some p → expected e "proposal" id = Some (pr_version p) →
    is_Some (pr_archivedAt p) → is_admin_user s = true →
    let p' := overlaid None None None p in
    effect (RestoreProposal id)
      (accepted_result e [proposal_version p'] [("proposalId", pr_id p')]) s (put_proposal p' s)
| eff_archive_ticket input reason now t s :
    decisionReason (adt_reason input) = ok reason →
    find_ticket e (adt_devTicketId input) s = Some t →
    expected e "dev_ticket" (adt_devTicketId input) = Some (dt_version t) →
    dt_archivedAt t = None → may_manage_ticket t s = true →
    active_blocker_edges org ws (dt_id t) s = [] →
    todo_quoted t s →
    let t' := archived_ticket now (mkStoreArchive org ws (dt_id t) (dt_version t)
                (stableId (env_actorRef e)) reason) t in
    effect (ArchiveDevTicket input)
      (accepted_result e (ticket_version t' :: left_version t s) [("devTicketId", dt_id t')])
      s (put_ticket t' (leave_queue e t s))
| eff_restore_ticket id t s :
    find_ticket e id s = Some t → expected e "dev_ticket" id = Some (dt_version t) →
    is_Some (dt_archivedAt t) → dt_lastActiveLane t ≠ Some LDone → dt_lane t ≠ LDone →
    may_manage_ticket t s = true →
    let t' := restored_ticket t in
    effect (RestoreDevTicket id)
      (accepted_result e [ticket_version t'] [("devTicketId", dt_id t')]) s (put_ticket t' s)
| eff_classify input c owner hash t s :
    find_ticket e (sc_devTicketId input) s = Some t →
    expected e "dev_ticket" (sc_devTicketId input) = Some (dt_version t) →
    dt_lane t = LBacklog →
    parse_classification_input input = ok c →
    owner = default (dt_humanOwnerUserId t) (sc_humanOwnerUserId input) →
    (owner = dt_humanOwnerUserId t ∨ isActiveMember org owner s = true) →
    let ev := evaluateChangeRisk (cl_type c) (cl_workAreas c) (hasActiveDependencies org ws (dt_id t) s) in
    (0 <= compareChangeRisk (cl_declaredChangeRisk c) (ev_minimumChangeRisk ev))%Z →
    classification_unchanged t owner c ev = false →
    computeReadyContractContentHash (classified_content t owner c ev) = Some hash →
    let t' := classified_ticket
                (classification_input e t owner c ev (classified_content t owner c ev) hash) t in
    effect (SetDevTicketClassification input)
      (accepted_result e [ticket_version t'] [("devTicketId", dt_id t')]) s (put_ticket t' s)
| eff_approve input content hash type declared rank balance t s :
    find_ticket e (ar_devTicketId input) s = Some t →
    expected e "dev_ticket" (ar_devTicketId input) = Some (dt_version t) →
    dt_lane t = LBacklog → dt_readyState t = RsDraft → dt_archivedAt t = None →
    may_manage_ticket t s = true →
    dt_devTicketType t = Some type → dt_workAreas t ≠ [] → is_Some (dt_priority t) →
    dt_readyContractVersion t = ar_expectedContractVersion input →
    dt_readyContractContentHash t = ar_expectedContractContentHash input →
    parseReadyContractContent (ar_readyContractContent input) = ok content →
    canonicalJson (obj_get "classification" content) = canonicalJson (JObj (expected_classification t)) →
    obj_get "humanOwnerUserId" content = JStr (dt_humanOwnerUserId t) →
    dt_declaredChangeRisk t = Some declared →
    let ev := evaluateChangeRisk type (dt_workAreas t) (hasActiveDependencies org ws (dt_id t) s) in
    (0 <= compareChangeRisk declared (ev_minimumChangeRisk ev))%Z →
    dt_minimumChangeRisk t = Some (ev_minimumChangeRisk ev) →
    dt_changeRiskPolicyVersion t = Some (ev_policyVersion ev) →
    dt_changeRiskPolicyHash t = Some (ev_policyHash ev) →
    canonicalJson (obj_get "changeRiskPolicy" content) = canonicalJson (evaluation_js ev) →
    computeReadyContractContentHash content = Some hash →
    qh_version (queue_header e s) = ar_expectedTodoQueueVersion input →
    append_rank (todo_queue org ws s) = Some (rank, balance) →
    find_member e (dt_id t) s = None →
    let t' := approved_ticket (approval_input e t (dt_version t) content hash) t in
    let s1 := if balance : bool then rebalance e (queue_ids (todo_queue org ws s)) s else s in
    effect (ApproveReadyToTodo input)
      (accepted_result e [ticket_version t'; queue_version (qh_version (queue_header e s) + 1)]
         [("devTicketId", dt_id t')])
      s (bump_queue e (put_member e (dt_id t) rank (put_ticket t' s1)))
| eff_reorder input index t s :
    ri_sourceLane input = "todo" → ri_targetLane input = "todo" →
    ri_sourceVersion input = ri_targetVersion input → forbiddenTodoOrderingField input = None →
    validTodoAnchor (ri_anchor input) = true →
    find_ticket e (ri_devTicketId input) s = Some t →
    expected e "dev_ticket" (ri_devTicketId input) = Some (dt_version t) →
    dt_lane t = LTodo →
    qh_version (queue_header e s) = ri_sourceVersion input →
    is_Some (find_member e (dt_id t) s) →
    let others := others_of (dt_id t) (todo_queue org ws s) in
    insertion_place org ws t others (ri_anchor input) s = inr index →
    (rank_out_of_range (rank_between index others) = true →
     capacity_exhausted (ordered_ids index (dt_id t) others) = false) →
    let t' := dt_bump t in
    effect (ReorderTodo input)
      (accepted_result e [ticket_version t'; queue_version (qh_version (queue_header e s) + 1)]
         [("devTicketId", dt_id t')])
      s (put_ticket t' (bump_queue e (reordered (dt_id t) index others s)))
| eff_dependency_present input reason d s :
    decisionReason (ad_reason input) = ok reason →
    active_edge org ws (ad_dependentDevTicketId input) (ad_blockerDevTicketId input) s = Some d →
    effect (AddDependency input)
      (accepted_result e [edge_version d]
         [("dependencyEdgeId", ed_id d); ("devTicketId", ed_dependentDevTicketId d)]) s s
| eff_add_dependency input reason edgeId dependent blocker s :
    let dependentId := ad_dependentDevTicketId input in
    let blockerId := ad_blockerDevTicketId input in
    decisionReason (ad_reason input) = ok reason →
    find_ticket e dependentId s = Some dependent → find_ticket e blockerId s = Some blocker →
    expected e "dev_ticket" dependentId = Some (dt_version dependent) →
    expected e "dev_ticket" blockerId = Some (dt_version blocker) →
    dependentId ≠ blockerId →
    active_edge org ws dependentId blockerId s = None →
    endpoints_failure dependent blocker = None →
    dependency_creates_cycle org ws dependentId blockerId s = false →
    todo_quoted dependent s →
    let d := new_edge (mkInsertEdge edgeId org ws (dt_id dependent) (dt_id blocker) (env_commandId e)) in
    let t' := dependent_changed dependent in
    effect (AddDependency input)
      (accepted_result e ([edge_version d; ticket_version t'; ticket_version blocker]
                          ++ left_version dependent s)
         [("dependencyEdgeId", edgeId); ("devTicketId", dt_id t')])
      s (put_ticket t' (leave_queue e dependent (put_edge d s)))
| eff_remove_dependency input reason d dependent blocker s :
    decisionReason (rd_reason input) = ok reason →
    find_edge e (rd_edgeId input) s = Some d →
    ed_lifecycleState d = EActive → ed_version d = rd_expectedEdgeVersion input →
    find_ticket e (ed_dependentDevTicketId d) s = Some dependent →
    find_ticket e (ed_blockerDevTicketId d) s = Some blocker →
    endpoints_failure dependent blocker = None →
    todo_quoted dependent s →
    let d' := ed_retire (env_commandId e) d in
    let t' := dependent_changed dependent in
    effect (RemoveDependency input)
      (accepted_result e ([edge_version d'; ticket_version t'] ++ left_version dependent s)
         [("dependencyEdgeId", ed_id d'); ("devTicketId", dt_id t')])
      s (put_ticket t' (leave_queue e dependent (put_edge d' s)))
| eff_import_new input source disposition digest epoch historicalId now s :
    importable input source disposition digest s →
    jm_get (alias_key org (lt_id source)) (legacyTaskAliases s) = None →
    toISOString (lt_updatedAt source) = Some epoch →
    jm_get historicalId (historicalRecords s) = None →
    (disposition = DPromotedBacklog → find_ticket e (lt_id source) s = None) →
    let ticket := imported_ticket input source disposition in
    let h := imported_record input source disposition digest historicalId epoch now in
    effect (ImportLegacyDevTicket input)
      (accepted_result e (historical_version h :: option_list (ticket_version <$> ticket))
         (ticket_ids (dt_id <$> ticket)))
      s (imported input source disposition digest historicalId epoch now s)
| eff_import_promote input source digest a h s :
    importable input source DPromotedBacklog digest s →
    jm_get (alias_key org (lt_id source)) (legacyTaskAliases s) = Some a →
    historical_of org ws (al_historicalRecordId a) s = Some h →
    hr_preservedPayloadDigest h = digest →
    al_devTicketId a = None → hr_sourceDisposition h ≠ DHistoricalCandidate →
    find_ticket e (lt_id source) s = None →
    let t := promoted_ticket source input in
    let h' := hr_advance DPromotedBacklog (hr_completionGate h) (Some (env_commandId e)) h in
    effect (ImportLegacyDevTicket input)
      (accepted_result e [historical_version h'; ticket_version t] [("devTicketId", dt_id t)])
      s (realias h (Some (dt_id t)) (put_historical h' (put_ticket t s)))
| eff_import_same input source disposition digest a h tickets s :
    importable input source disposition digest s →
    jm_get (alias_key org (lt_id source)) (legacyTaskAliases s) = Some a →
    historical_of org ws (al_historicalRecordId a) s = Some h →
    hr_preservedPayloadDigest h = digest →
    (hr_sourceDisposition h = DQuarantinedNoOwner → disposition = DQuarantinedNoOwner) →
    tickets = match al_devTicketId a with None => None | Some id => find_ticket e id s end →
    effect (ImportLegacyDevTicket input)
      (accepted_result e (historical_version h :: option_list (ticket_version <$> tickets))
         (ticket_ids (al_devTicketId a))) s s
| eff_import_advance input source disposition digest a h s :
    importable input source disposition digest s →
    jm_get (alias_key org (lt_id source)) (legacyTaskAliases s) = Some a →
    historical_of org ws (al_historicalRecordId a) s = Some h →
    hr_preservedPayloadDigest h = digest →
    hr_sourceDisposition h = DQuarantinedNoOwner → disposition ≠ DQuarantinedNoOwner →
    (disposition = DPromotedBacklog → is_Some (al_devTicketId a)) →
    let cmd := if bool_decide (disposition = DPromotedBacklog) then hr_promotionCommandId h else None in
    let h' := hr_advance disposition (hr_completionGate h) cmd h in
    effect (ImportLegacyDevTicket input)
      (accepted_result e [historical_version h'] (ticket_ids (al_devTicketId a)))
      s (realias h (al_devTicketId a) (put_historical h' s))
| eff_reconcile input h source s :
    is_admin_user s = true →
    historical_of org ws (rc_historicalRecordId input) s = Some h →
    hr_sourceDisposition h ≠ DPromotedBacklog →
    hr_completionGate h = Some GLegacyUnverified →
    jm_get (hr_sourceTableRowIdentity h) (legacyTaskSources s) = Some source →
    approved_review (lt_evidenceRefs source) = true →
    frozenEvidenceHasReference (hr_evidenceRefs h) = true →
    let h' := hr_advance (hr_sourceDisposition h) (Some GReconciledHistorical) (hr_promotionCommandId h) h in
    effect (ReconcileHistoricalCompletion input)
      (accepted_result e [historical_version h'] []) s (put_historical h' s).

End effects.

#[export] Hint Resolve may_manage_ticket_intro is_admin_user_intro : opzava.
