(* ===== verification/Refinement.v ===== *)
(** * The commands implement their specification

    Proposals, tickets and queue, dependencies, legacy commands; then the board as
    a whole. *)

From S2P Require Import Prelude JsMap JsString JsValue SharedKernel Effects DevBoardDomain.
From S2P Require Import TenantContext Receipts Ledger PlanningRows PlanningStore CommandBase.
From S2P Require Import ProposalCommands TicketCommands QueueCommands DependencyCommands.
From S2P Require Import LegacyCommands StoreRules Board.

Section refine_proposals.
Context {R L : Type} {RP : CommandReceiptRepository R} {LP : DevBoardLedgerAppendPort L}.
Context {RT : NodeRuntime} {DB : TenantDatabase}.
Implicit Types (w : World R L) (e : CommandEnvelope).

Lemma draftProposal_refines e input w :
  keyed (w_store w) → tenant_ok e →
  wp (draftProposal e input) (cmd_post e (effect e (DraftProposal input)) w) w.
Proof.
  intros Hk Ht. unfold draftProposal. cmd_run.
  apply wp_insertProposal; simpl.
  - intros Hnone. cmd_run.
    cmd_accept eff_draft.
  - cmd_fail.
Qed.

Lemma submitProposal_refines e id w :
  keyed (w_store w) → tenant_ok e →
  wp (submitProposal e id) (cmd_post e (effect e (SubmitProposal id)) w) w.
Proof.
  intros Hk Ht. unfold submitProposal, proposal_drift. cmd_run. cmd_facts.
  wp_found. cmd_run.
  cmd_accept eff_submit.
Qed.

Lemma acceptProposal_refines e input w :
  keyed (w_store w) → tenant_ok e →
  wp (acceptProposal e input) (cmd_post e (effect e (AcceptProposal input)) w) w.
Proof.
  intros Hk Ht. unfold acceptProposal, proposal_drift, not_awaiting. cmd_run. cmd_facts.
  apply wp_insertDevTicket; [intros Hfresh Hsource|cmd_fail]. cmd_run.
  wp_found. cmd_run.
  cmd_accept eff_accept.
Qed.

Lemma mergeProposal_refines e input w :
  keyed (w_store w) → tenant_ok e →
  wp (mergeProposal e input) (cmd_post e (effect e (MergeProposal input)) w) w.
Proof.
  intros Hk Ht. unfold mergeProposal, proposal_drift, not_awaiting. cmd_run. cmd_facts.
  wp_found. cmd_run.
  cmd_accept eff_merge.
Qed.

Lemma rejectProposal_refines e input w :
  keyed (w_store w) → tenant_ok e →
  wp (rejectProposal e input) (cmd_post e (effect e (RejectProposal input)) w) w.
Proof.
  intros Hk Ht. unfold rejectProposal, decideProposal, proposal_drift, not_awaiting. cmd_run. cmd_facts.
  wp_found. cmd_run.
  cmd_accept eff_reject.
Qed.

Lemma updated_overlay e p version at_ by_ reason :
  updated_proposal (overlay_input e p version at_ by_ reason) p = overlaid at_ by_ reason p.
Proof. reflexivity. Qed.

Lemma archiveProposal_refines e input w :
  keyed (w_store w) → tenant_ok e →
  wp (archiveProposal e input) (cmd_post e (effect e (ArchiveProposal input)) w) w.
Proof.
  intros Hk Ht. unfold archiveProposal, proposal_drift. cmd_run. cmd_facts.
  wp_found. rewrite updated_overlay. cmd_run.
  cmd_accept eff_archive_proposal.
Qed.

Lemma restoreProposal_refines e id w :
  keyed (w_store w) → tenant_ok e →
  wp (restoreProposal e id) (cmd_post e (effect e (RestoreProposal id)) w) w.
Proof.
  intros Hk Ht. unfold restoreProposal, proposal_drift. cmd_run. cmd_facts.
  wp_found. rewrite updated_overlay. cmd_run.
  cmd_accept eff_restore_proposal.
Qed.

End refine_proposals.

(** * Tickets and the queue *)

(** ** Leaving Todo *)

(** The store after [todo_version_ok]: the header is there if the ticket is in Todo. *)
Definition visited (e : CommandEnvelope) (t : DevTicketRow) (s : PlanningStore) : PlanningStore :=
  set_todoQueueHeaders
    (if bool_decide (dt_lane t = LTodo) then todoQueueHeaders (open_queue e s) else todoQueueHeaders s) s.

Lemma set_headers_back hs s : set_todoQueueHeaders (todoQueueHeaders s) (set_todoQueueHeaders hs s) = s.
Proof. by destruct s. Qed.

Lemma opened_visited e t s : opened e s (visited e t s).
Proof.
  unfold visited. case_bool_decide; [apply opened_open_queue|]. rewrite set_headers_id. constructor.
Qed.

Ltac store_untouched ::=
  first [apply opened_same | apply opened_open_queue | apply opened_visited].

Section leaving.
Context {R L : Type} {RP : CommandReceiptRepository R} {LP : DevBoardLedgerAppendPort L}.
Context {RT : NodeRuntime} {DB : TenantDatabase}.
Implicit Types (w : World R L) (e : CommandEnvelope).

Lemma wp_todo_version_ok e t (Q : outcome bool → World R L → Prop) w :
  (todo_quoted e t (w_store w) → Q (Returned true) (set_store (visited e t (w_store w)) w)) →
  Q (Returned false) (set_store (visited e t (w_store w)) w) →
  wp (todo_version_ok e t) Q w.
Proof.
  unfold todo_version_ok, todo_quoted, visited. intros Ht Hf.
  destruct (bool_decide (dt_lane t = LTodo)) eqn:Hlane; [apply wp_bind|apply wp_ret].
  - apply wp_on_store, wp_getOrLock, wp_ret. clear Hlane.
    case_bool_decide; [by apply Ht|done].
  - rewrite set_headers_id, set_store_id in Ht. apply Ht. intros Hl.
    by apply bool_decide_eq_false in Hlane.
Qed.

Lemma wp_depart e t drift s0 s1 (Q : outcome (option Z) → World R L → Prop) w :
  keyed s0 → tenant_ok e → todo_quoted e t s0 →
  todoQueueHeaders (w_store w) = todoQueueHeaders (visited e t s0) →
  s1 = set_todoQueueHeaders (todoQueueHeaders s0) (w_store w) →
  Q (Returned (left_queue_version e t s0)) (set_store (leave_queue e t s1) w) →
  (∀ x s', same_fixtures (w_store w) s' → Q (Thrown x) (set_store s' w)) →
  wp (depart_todo e drift t) Q w.
Proof.
  intros Hk Ht Hq Hhs -> HQ HT. unfold depart_todo, left_queue_version in *.
  unfold visited in Hhs. cbn [todoQueueHeaders set_todoQueueHeaders] in Hhs.
  destruct (bool_decide (dt_lane t = LTodo)) eqn:Hlane.
  - apply bool_decide_eq_true in Hlane. rewrite (Hq Hlane). rewrite leave_queue_todo in HQ by done.
    apply wp_bind, wp_bind, wp_on_store, wp_bind, wp_get, wp_bind, wp_put, wp_ret.
    cmd_step; [by apply wp_throw, HT|].
    apply wp_bind, wp_on_store, (wp_casBump e s0); [done|done|done|done|].
    simpl. by do 2 apply wp_ret.
  - apply bool_decide_eq_false in Hlane. rewrite leave_queue_other in HQ by done.
    apply wp_ret. by rewrite <-Hhs, set_headers_id, set_store_id in HQ.
Qed.

End leaving.

Section refine_tickets.
Context {R L : Type} {RP : CommandReceiptRepository R} {LP : DevBoardLedgerAppendPort L}.
Context {RT : NodeRuntime} {DB : TenantDatabase}.
Implicit Types (w : World R L) (e : CommandEnvelope).

Lemma archiveDevTicket_refines e input w :
  keyed (w_store w) → tenant_ok e →
  wp (TicketCommands.archiveDevTicket e input) (cmd_post e (effect e (ArchiveDevTicket input)) w) w.
Proof.
  intros Hk Ht. unfold TicketCommands.archiveDevTicket, ticket_drift, queue_drift, archive_mutation.
  cmd_run. cmd_facts. apply wp_todo_version_ok; [intros Hq|cmd_run].
  cmd_run. apply (wp_depart e d _ (w_store w) (w_store w)); [done..|symmetry; apply set_headers_back| |].
  2: { intros x s' Hs'. cmd_fail. }
  cmd_run. wp_found. cmd_run. cmd_accept eff_archive_ticket.
Qed.

Lemma restoreDevTicket_refines e id w :
  keyed (w_store w) → tenant_ok e →
  wp (TicketCommands.restoreDevTicket e id) (cmd_post e (effect e (RestoreDevTicket id)) w) w.
Proof.
  intros Hk Ht. unfold TicketCommands.restoreDevTicket, ticket_drift.
  cmd_run. cmd_facts. wp_found. cmd_run. cmd_accept eff_restore_ticket.
Qed.

Lemma setDevTicketClassification_refines e input w :
  keyed (w_store w) → tenant_ok e →
  wp (setDevTicketClassification e input) (cmd_post e (effect e (SetDevTicketClassification input)) w) w.
Proof.
  intros Hk Ht. unfold setDevTicketClassification, contract_hash, ticket_drift.
  cmd_run. cmd_facts. wp_found. cmd_run.
  cmd_accept eff_classify.
Qed.

Lemma approveReadyToTodo_refines e input w :
  keyed (w_store w) → tenant_ok e →
  wp (approveReadyToTodo e input) (cmd_post e (effect e (ApproveReadyToTodo input)) w) w.
Proof.
  intros Hk Ht. unfold approveReadyToTodo, binds_classification, binds_policy, canonical, append_approved,
    contract_hash, ticket_drift, queue_drift, approval_mutation.
  cmd_run. cmd_facts. wp_found. apply wp_bind.
  match goal with
  | H : append_rank (todo_queue ?o ?w (open_queue e ?s)) = Some (_, ?b) |- _ =>
      change (todo_queue o w (open_queue e s)) with (todo_queue o w s) in *; destruct b
  end; cmd_run; (apply wp_insertMember; [intros Hfree|cmd_fail]); cmd_run;
    (apply (wp_casBump e (w_store w)); [done..|]); cmd_run.
  - apply (find_member_rebalance e) in Hfree.
    cmd_accept (eff_approve e input _ _ _ _ _ true d (w_store w)).
  - cmd_accept (eff_approve e input _ _ _ _ _ false d (w_store w)).
Qed.

Lemma wp_place_membership e t index others (Q : outcome (list string) → World R L → Prop) w :
  is_Some (find_member e (dt_id t) (w_store w)) →
  (∀ ids, Q (Returned ids) (set_store (reordered e (dt_id t) index others (w_store w)) w)) →
  wp (place_membership e t (ordered_ids index (dt_id t) others) (rank_between index others)) Q w.
Proof.
  intros Hm HQ. unfold place_membership, reordered in *. destruct (rank_out_of_range _); cmd_run.
  - apply HQ.
  - by apply wp_updateRank; [|cmd_run; apply HQ].
Qed.

Lemma reorderTodo_refines e input w :
  keyed (w_store w) → tenant_ok e →
  wp (reorderTodo e input) (cmd_post e (effect e (ReorderTodo input)) w) w.
Proof.
  intros Hk Ht. unfold reorderTodo, apply_reorder, ticket_drift, queue_drift.
  cmd_run. cmd_facts.
  match goal with
  | H : rank_out_of_range (rank_between ?i (others_of ?d (todo_queue ?o ?w (open_queue e ?s)))) && _ = false |- _ =>
      change (todo_queue o w (open_queue e s)) with (todo_queue o w s) in *;
      assert (Hcap := guarded_false _ _ H)
  end.
  apply (wp_casBump e (w_store w)); [done..|]. cmd_run.
  apply wp_place_membership; [done|intros ids]. cmd_run. wp_found. cmd_run.
  cmd_accept (eff_reorder e input _ d (w_store w)).
Qed.

End refine_tickets.

(** * Dependencies and the workflow gates *)

Section refine_dependencies.
Context {R L : Type} {RP : CommandReceiptRepository R} {LP : DevBoardLedgerAppendPort L}.
Context {RT : NodeRuntime} {DB : TenantDatabase}.
Implicit Types (w : World R L) (e : CommandEnvelope).

(** The rows collected for the endpoints are those of the store. *)
Lemma wp_endpoint_rows e ids rows (Q : outcome (jsmap (option DevTicketRow)) → World R L → Prop) w :
  (∀ rows', (∀ id, id ∈ ids → endpoint id rows' = find_ticket e id (w_store w)) → Q (Returned rows') w) →
  wp (endpoint_rows e ids rows) Q w.
Proof.
  assert (∀ (done : list string) rows,
    (∀ id, id ∈ done → endpoint id rows = find_ticket e id (w_store w)) →
    (∀ rows', (∀ id, id ∈ done ∨ id ∈ ids → endpoint id rows' = find_ticket e id (w_store w)) →
              Q (Returned rows') w) →
    wp (endpoint_rows e ids rows) Q w) as Hind.
  { induction ids as [|i ids IH]; intros done rows' Hdone HQ; simpl.
    - apply wp_ret, HQ. intros id [Hid|Hid]; [auto|by apply elem_of_nil in Hid].
    - apply wp_bind, wp_on_store_reads, (IH (i :: done)).
      + intros id Hid. unfold endpoint. rewrite jm_get_set.
        destruct (String.eqb_spec id i) as [->|Hne]; [done|].
        apply Hdone. by apply elem_of_cons in Hid as [|].
      + intros rows'' Hrows. apply HQ. intros id Hid. apply Hrows. rewrite elem_of_cons in Hid |- *. tauto. }
  intros HQ. apply (Hind []); [by intros id ?%elem_of_nil|].
  intros rows' Hrows. apply HQ. auto.
Qed.

Lemma elem_of_sort_strings x l : x ∈ sort_strings l ↔ x ∈ l.
Proof. unfold sort_strings. by rewrite merge_sort_Permutation. Qed.

Lemma wp_insertDependencyEdge e edgeId dependent blocker Q s :
  let d := new_edge (mkInsertEdge edgeId (env_organizationId e) (env_workspaceId e) dependent blocker
                       (env_commandId e)) in
  (Q (Returned d) (put_edge d s)) → (∀ x, Q (Thrown x) s) →
  wp (insertDependencyEdge (mkInsertEdge edgeId (env_organizationId e) (env_workspaceId e) dependent blocker
                              (env_commandId e))) Q s.
Proof.
  intros d HQ HT. apply wp_bind, wp_get. simpl. repeat (cmd_step; [by apply wp_throw|]).
  by apply wp_bind, wp_put, wp_ret.
Qed.

Lemma wp_retireDependencyEdge e d v Q s :
  found_edge e d s → ed_lifecycleState d = EActive → ed_version d = v →
  Q (Returned (Some (ed_retire (env_commandId e) d))) (put_edge (ed_retire (env_commandId e) d) s) →
  wp (retireDependencyEdge
        (mkRetireEdge (env_organizationId e) (env_workspaceId e) (ed_id d) v (env_commandId e))) Q s.
Proof.
  intros (Hf & Ho & Hw) Hst <- HQ. apply wp_bind, wp_get. unfold find_edge in Hf. simpl.
  rewrite Hf, Hst, Z.eqb_refl. simpl. apply wp_bind, wp_put, wp_ret.
  unfold put_edge, own_key in HQ; simpl in HQ. by rewrite Ho, Hw in HQ.
Qed.

Lemma addDependency_refines e input w :
  keyed (w_store w) → tenant_ok e →
  wp (addDependency e input) (cmd_post e (effect e (AddDependency input)) w) w.
Proof.
  intros Hk Ht. unfold addDependency, queue_drift, add_mutation, change_dependent, appendDependencyEffects.
  cmd_run. apply wp_endpoint_rows. intros rows Hrows.
  rewrite !Hrows by (rewrite elem_of_sort_strings; set_solver).
  cmd_run; cmd_facts; [cmd_accept eff_dependency_present|].
  apply wp_todo_version_ok; [intros Hq|cmd_run]. cmd_run.
  apply wp_insertDependencyEdge; [|cmd_fail]. cmd_run.
  eapply (wp_depart e d _ (w_store w)); [done..|reflexivity| |].
  2: { intros x s' Hs'. cmd_fail. }
  cmd_run. wp_found. cmd_run.
  cmd_accept (eff_add_dependency e input _ _ d d0 (w_store w)).
Qed.

Lemma removeDependency_refines e input w :
  keyed (w_store w) → tenant_ok e →
  wp (removeDependency e input) (cmd_post e (effect e (RemoveDependency input)) w) w.
Proof.
  intros Hk Ht. unfold removeDependency, queue_drift, identity_conflict, remove_mutation, change_dependent,
    appendDependencyEffects.
  cmd_run. apply wp_endpoint_rows. intros rows Hrows.
  rewrite !Hrows by (rewrite elem_of_sort_strings; set_solver).
  cmd_run; cmd_facts. apply wp_todo_version_ok; [intros Hq|cmd_run]. cmd_run.
  assert (ed_lifecycleState d = EActive) as Hact by (by destruct (ed_lifecycleState d)).
  apply (wp_retireDependencyEdge e d); [done..|]. cmd_run.
  eapply (wp_depart e d0 _ (w_store w)); [done..|reflexivity| |].
  2: { intros x s' Hs'. cmd_fail. }
  cmd_run. wp_found. cmd_run.
  cmd_accept (eff_remove_dependency e input _ d d0 d1 (w_store w)).
Qed.

Lemma rejectUntilGate_refines e code message check P w :
  wp (rejectUntilGate e code message check) (cmd_post e P w) w.
Proof. unfold rejectUntilGate. destruct check; cmd_run. Qed.

End refine_dependencies.

(** * The legacy commands, and the whole board *)

(** ** Store rules *)

Lemma historical_of_key e id h s :
  historical_keyed (historicalRecords s) →
  historical_of (env_organizationId e) (env_workspaceId e) id s = Some h →
  id = hr_historicalRecordId h ∧ hr_organizationId h = env_organizationId e ∧
  hr_workspaceId h = env_workspaceId e.
Proof.
  intros Hk Hf. unfold historical_of in Hf. repeat case_match; simplify_eq.
  bool_hyps. rewrite !String.eqb_eq in *. split_and!; try done.
  by eapply Hk.
Qed.

Lemma wp_insertHistoricalRecord now input Q s :
  let h := mkHistoricalRecordRow (ih_id input) (ih_organizationId input) (ih_workspaceId input)
      (ih_sourceTableRowIdentity input) (ih_completionGate input) (ih_sourceDisposition input)
      now (ih_sourceRecordedAt input) (ih_preservedPayloadDigest input) (ih_sourceEpoch input)
      (ih_sourceUpdatedAt input) (ih_evidenceRefs input) (ih_promotionCommandId input) 1 in
  (jm_get (ih_id input) (historicalRecords s) = None → Q (Returned h) (put_historical h s)) →
  (∀ x, Q (Thrown x) s) → wp (insertHistoricalRecord now input) Q s.
Proof.
  intros h Hok Ht. apply wp_bind, wp_get. case_match eqn:Hh; [by apply wp_throw|].
  by apply wp_bind, wp_put, wp_ret, Hok, jm_has_false.
Qed.

Lemma wp_insertLegacyTaskAlias a (Q : outcome unit → PlanningStore → Prop) s :
  Q (Returned tt) (put_alias a s) → (∀ x, Q (Thrown x) s) → wp (insertLegacyTaskAlias a) Q s.
Proof.
  intros Hok Ht. apply wp_bind, wp_get. case_match; [by apply wp_throw|]. by apply wp_put.
Qed.

Lemma wp_resolveImported e h disposition cmd ticket id Q s :
  historical_keyed (historicalRecords s) → aliases_keyed (legacyTaskAliases s) →
  historical_of (env_organizationId e) (env_workspaceId e) id s = Some h →
  (hr_sourceDisposition h = DQuarantinedNoOwner ∨ disposition = hr_sourceDisposition h →
   let h' := hr_advance disposition (hr_completionGate h) cmd h in
   Q (Returned (Some h')) (realias e h ticket (put_historical h' s))) →
  (∀ x, Q (Thrown x) s) →
  wp (resolveImportedHistoricalRecord (resolve_input e h disposition cmd ticket)) Q s.
Proof.
  intros Hk Hka Hf HQ HT. pose proof (historical_of_key _ _ _ _ Hk Hf) as (-> & _ & _).
  apply wp_bind, wp_get. simpl. rewrite Hf, Z.eqb_refl. unfold transition_allowed; simpl.
  rewrite (bool_decide_true (hr_completionGate h = _)), andb_true_r by done.
  cmd_step; [by apply wp_throw|]. bool_hyps. apply wp_bind, wp_put, wp_ret.
  apply orb_true_iff in E. rewrite !bool_decide_eq_true in E.
  specialize (HQ E). unfold realias in HQ; simpl in HQ. simpl.
  destruct (jm_get _ (legacyTaskAliases s)) as [a|] eqn:Ha; [|done].
  destruct (proj2 Hka _ _ Ha) as [-> _]. done.
Qed.

Lemma wp_reconcile e h v Q s :
  historical_of (env_organizationId e) (env_workspaceId e) (hr_historicalRecordId h) s = Some h →
  v = hr_version h →
  (let h' := hr_advance (hr_sourceDisposition h) (Some GReconciledHistorical) (hr_promotionCommandId h) h in
   Q (Returned (Some h')) (put_historical h' s)) →
  wp (PlanningStore.reconcileHistoricalCompletion
        (mkReconcile (env_organizationId e) (env_workspaceId e) (hr_historicalRecordId h) v)) Q s.
Proof.
  intros Hf -> HQ. apply wp_bind, wp_get. simpl. rewrite Hf, Z.eqb_refl.
  by apply wp_bind, wp_put, wp_ret.
Qed.

Section refine_legacy.
Context {R L : Type} {RP : CommandReceiptRepository R} {LP : DevBoardLedgerAppendPort L}.
Context {RT : NodeRuntime} {DB : TenantDatabase}.
Implicit Types (w : World R L) (e : CommandEnvelope).

Lemma wp_authorized_command e refusal body P w :
  (∀ rc, uuidPattern (env_organizationId e) = true → is_admin_user e (w_store w) = true →
     wp body (cmd_post e P w) (set_receipts rc w)) →
  wp (authorized_command e refusal body) (cmd_post e P w) w.
Proof.
  intros H. apply wp_withTenant; [intros x; simpl; left; constructor|].
  intros Hu. cmd_run; [by split; [constructor|]| |by split; [constructor|]].
  eapply wp_mono; [apply wp_reserved; intros rc; apply H; [done|by apply negb_false_iff]|].
  by intros [[]|] w'.
Qed.

Lemma wp_append_import_post e source aggregateId P (w0 : World R L) res Q w :
  P res (w_store w0) (w_store w) → (∀ l, Q (Returned tt) (set_ledger l w)) →
  (∀ x w', w_store w' = w_store w → cmd_post e P w0 (Thrown x) w' → Q (Thrown x) w') →
  wp (append_import e source aggregateId) Q w.
Proof.
  intros HP HQ HT. assert (∀ x, Q (Thrown x) w) by (intros x; apply HT; simpl; eauto).
  unfold append_import, iso. cmd_run; try done. by eapply wp_planning_post.
Qed.

(** A command in progress: the store and the ledger are those it started from. *)
Abbreviation in_progress w rc u c := (mkWorld (w_store w) rc (w_ledger w) u c).

Ltac cmd_import HP := eapply wp_append_import_post; [exact HP| |intros; assumption]; intros; cmd_tail HP.

Lemma promote_existing_refines e input source digest a h w rc u c :
  keyed (w_store w) → tenant_ok e →
  importable e input source DPromotedBacklog digest (w_store w) →
  jm_get (alias_key (env_organizationId e) (lt_id source)) (legacyTaskAliases (w_store w)) = Some a →
  historical_of (env_organizationId e) (env_workspaceId e) (al_historicalRecordId a) (w_store w) = Some h →
  hr_preservedPayloadDigest h = digest → al_devTicketId a = None →
  wp (promote_existing e source (default "" (il_humanOwnerUserId input)) h DPromotedBacklog)
     (cmd_post e (effect e (ImportLegacyDevTicket input)) w) (in_progress w rc u c).
Proof.
  intros Hk Ht Himp Ha Hh Hdig Hnone. unfold promote_existing, ticket_collision, promotion_mutation.
  cmd_run. cmd_facts. apply wp_insertDevTicket; [intros Hfresh _|cmd_fail]. cmd_run.
  eapply wp_resolveImported; [apply Hk..|exact Hh| |cmd_fail]. intros Hallowed. cmd_run.
  eassert (HP : effect e (ImportLegacyDevTicket input) _ (w_store w) _) by
    (eapply (eff_import_promote e input source _ a h); [done..|by destruct Hallowed as [->|<-]|done]).
  cmd_import HP.
Qed.

Lemma disposition_kept d q :
  (if bool_decide (q = DQuarantinedNoOwner) then d else q) = q →
  q = DQuarantinedNoOwner → d = DQuarantinedNoOwner.
Proof. intros H ->. by rewrite bool_decide_true in H. Qed.

Lemma disposition_advanced d q :
  (if bool_decide (q = DQuarantinedNoOwner) then d else q) ≠ q →
  q = DQuarantinedNoOwner ∧ d ≠ DQuarantinedNoOwner.
Proof. case_bool_decide; [by subst|done]. Qed.

Lemma not_promoted {A} d (o : option A) :
  bool_decide (d = DPromotedBacklog) && is_null o = false → d = DPromotedBacklog → is_Some o.
Proof. intros H ->. rewrite bool_decide_true in H by done. by destruct o. Qed.

Lemma resolveExistingAlias_refines e input source disposition digest a w rc u c :
  keyed (w_store w) → tenant_ok e →
  importable e input source disposition digest (w_store w) →
  jm_get (alias_key (env_organizationId e) (lt_id source)) (legacyTaskAliases (w_store w)) = Some a →
  wp (resolveExistingAlias e input source disposition digest a)
     (cmd_post e (effect e (ImportLegacyDevTicket input)) w) (in_progress w rc u c).
Proof.
  intros Hk Ht Himp Ha. unfold resolveExistingAlias, historical_drift.
  cmd_run; cmd_facts.
  - by eapply promote_existing_refines.
  - match goal with H : _ = hr_sourceDisposition h |- _ => pose proof (disposition_kept _ _ H) as Hkept end.
    pose proof (eff_import_same e input source disposition _ a h _ (w_store w) Himp Ha E eq_refl Hkept eq_refl)
      as HP.
    match goal with H : al_devTicketId a = _ |- _ => rewrite H in HP end. apply wp_accept_post, HP.
  - match goal with H : _ = hr_sourceDisposition h |- _ => pose proof (disposition_kept _ _ H) as Hkept end.
    pose proof (eff_import_same e input source disposition _ a h _ (w_store w) Himp Ha E eq_refl Hkept eq_refl)
      as HP.
    match goal with H : al_devTicketId a = _ |- _ => rewrite H in HP end. apply wp_accept_post, HP.
  - match goal with H : _ ≠ hr_sourceDisposition h |- _ => destruct (disposition_advanced _ _ H) as [Hq Hd] end.
    match goal with H : _ && is_null _ = false |- _ => pose proof (not_promoted _ _ H) as Hsome end.
    assert ((if bool_decide (hr_sourceDisposition h = DQuarantinedNoOwner) then disposition
             else hr_sourceDisposition h) = disposition) as -> by (by rewrite bool_decide_true).
    eapply wp_resolveImported; [apply Hk..|exact E| |cmd_fail]. intros _. cmd_run.
    pose proof (eff_import_advance e input source disposition _ a h (w_store w) Himp Ha E eq_refl Hq Hd Hsome)
      as HP. cmd_import HP.
Qed.

Lemma wp_import_mutation e input source disposition digest historicalId Q w :
  (∀ epoch now c,
     toISOString (lt_updatedAt source) = Some epoch →
     jm_get historicalId (historicalRecords (w_store w)) = None →
     (disposition = DPromotedBacklog → find_ticket e (lt_id source) (w_store w) = None) →
     Q (Returned (imported_ticket e input source disposition,
                  imported_record e input source disposition digest historicalId epoch now))
       (mkWorld (imported e input source disposition digest historicalId epoch now (w_store w))
          (w_receipts w) (w_ledger w) (w_uuids w) c)) →
  (∀ x s c, same_fixtures (w_store w) s →
     Q (Thrown x) (mkWorld s (w_receipts w) (w_ledger w) (w_uuids w) c)) →
  wp (import_mutation e source (default "" (il_humanOwnerUserId input)) disposition digest historicalId) Q w.
Proof.
  unfold imported, imported_record, imported_ticket. intros HQ HT.
  unfold import_mutation, iso, historical_input.
  assert (∀ x s, same_fixtures (w_store w) s → Q (Thrown x) (set_store s w)) as HT' by (intros; by apply HT).
  assert (∀ x, Q (Thrown x) w) as HT0 by (intros x; rewrite <-(set_store_id w); by apply HT').
  destruct (bool_decide (disposition = DPromotedBacklog)) eqn:E.
  - cmd_run. apply wp_insertDevTicket; [intros Hfresh _|intros; by apply HT']. cmd_run; [|by apply HT'].
    apply wp_insertHistoricalRecord; simpl; [intros Hnone|intros; by apply HT]. cmd_run.
    apply wp_insertLegacyTaskAlias; [|intros; by apply HT]. cmd_run. by apply HQ.
  - cmd_run; [|done].
    apply wp_insertHistoricalRecord; simpl; [intros Hnone|intros; by apply HT]. cmd_run.
    apply wp_insertLegacyTaskAlias; [|intros; by apply HT]. cmd_run. apply HQ; [done..|].
    intros ->. by rewrite bool_decide_true in E.
Qed.

Lemma import_new_refines e input source disposition digest w rc u c :
  keyed (w_store w) → tenant_ok e →
  importable e input source disposition digest (w_store w) →
  jm_get (alias_key (env_organizationId e) (lt_id source)) (legacyTaskAliases (w_store w)) = None →
  wp (import_new e input source disposition digest)
     (cmd_post e (effect e (ImportLegacyDevTicket input)) w) (in_progress w rc u c).
Proof.
  intros Hk Ht Himp Ha. unfold import_new, ticket_collision.
  apply wp_bind. destruct (bool_decide (disposition = DPromotedBacklog)) eqn:Hp; cmd_run.
  all: apply wp_import_mutation.
  2, 4: intros x s c' Hs; split; [done|]; intros [[]|] Hf; [done| |simpl; left; constructor]; cmd_run;
    match goal with H : jm_get _ (legacyTaskAliases _) = Some _ |- _ => simpl in H; congruence end.
  all: intros epoch now c' Hiso Hfree Hnone.
  all: pose proof (eff_import_new e input source disposition _ epoch _ now (w_store w) Himp Ha Hiso Hfree Hnone) as HP.
  all: cmd_run; cmd_import HP.
Qed.

Lemma importLegacyDevTicket_refines e input w :
  keyed (w_store w) → tenant_ok e →
  wp (importLegacyDevTicket e input) (cmd_post e (effect e (ImportLegacyDevTicket input)) w) w.
Proof.
  intros Hk Ht. apply wp_authorized_command. intros rc Hu Hadmin. unfold legacyDigest, contract_hash.
  repeat (lazymatch goal with |- wp (resolveExistingAlias _ _ _ _ _ _) _ _ => fail
                            | |- wp (import_new _ _ _ _ _) _ _ => fail | _ => cmd_step end).
  all: cmd_facts.
  all: first [eapply resolveExistingAlias_refines | eapply import_new_refines]; try done.
  all: split_and!; by rewrite ?String.eqb_eq in *; simplify_option_eq.
Qed.

Lemma reconcile_refines e input w :
  keyed (w_store w) → tenant_ok e →
  wp (LegacyCommands.reconcileHistoricalCompletion e input)
     (cmd_post e (effect e (ReconcileHistoricalCompletion input)) w) w.
Proof.
  intros Hk Ht. apply wp_authorized_command. intros rc Hu Hadmin. unfold reconcile_invalid, historical_drift.
  cmd_run. cmd_facts. case_match; [|done].
  pose proof (historical_of_key _ _ _ _ (keyed_historical _ Hk) E) as (Hid & _ & _).
  apply (wp_reconcile e h); [by rewrite <-Hid|done|]. cmd_run.
  cmd_accept (eff_reconcile e input h _ (w_store w)).
Qed.

(** ** The whole board *)

(** Every command, run in a store whose rows are under their own keys and for a
    well-formed tenant, is accepted with its specified effect, refused without a
    write, or replayed. *)
Theorem run_refines c e w :
  keyed (w_store w) → tenant_ok e → wp (run c e) (cmd_post e (effect e c) w) w.
Proof.
  intros Hk Ht. destruct c; simpl;
    eauto using draftProposal_refines, submitProposal_refines, acceptProposal_refines,
      mergeProposal_refines, rejectProposal_refines, archiveProposal_refines, restoreProposal_refines,
      archiveDevTicket_refines, restoreDevTicket_refines, setDevTicketClassification_refines,
      approveReadyToTodo_refines, reorderTodo_refines, addDependency_refines, removeDependency_refines,
      importLegacyDevTicket_refines, reconcile_refines, rejectUntilGate_refines.
Qed.

End refine_legacy.
