(* ===== verification/Reachability.v ===== *)
(** * Effects keep rows under their own keys, and the boards they reach *)
From S2P Require Import Prelude JsMap JsString JsValue SharedKernel Effects DevBoardDomain.
From S2P Require Import TenantContext Receipts Ledger PlanningRows PlanningStore CommandBase.
From S2P Require Import ProposalCommands TicketCommands QueueCommands DependencyCommands.
From S2P Require Import LegacyCommands StoreRules Board Refinement.

(** ** Rows of a tenant *)

Lemma own_tenant {V} (org ws : V → string) e v :
  tenant_ok e → org v = env_organizationId e → ws v = env_workspaceId e → tenant_row org ws v.
Proof. intros [Ho Hw] Eo Ew. unfold tenant_row. by rewrite Eo, Ew. Qed.

Lemma keyed_put_proposal p s :
  keyed s → tenant_row pr_organizationId pr_workspaceId p → keyed (put_proposal p s).
Proof. intros [] Hp. split; simpl; try done. by apply rows_keyed_set. Qed.

Lemma keyed_put_ticket t s :
  keyed s → tenant_row dt_organizationId dt_workspaceId t → keyed (put_ticket t s).
Proof. intros [] Ht. split; simpl; try done. by apply rows_keyed_set. Qed.

Lemma keyed_put_edge d s :
  keyed s → tenant_row ed_organizationId ed_workspaceId d → keyed (put_edge d s).
Proof. intros [] Hd. split; simpl; try done. by apply rows_keyed_set. Qed.

Lemma keyed_put_header e h s :
  keyed s → tenant_ok e →
  qh_organizationId h = env_organizationId e → qh_workspaceId h = env_workspaceId e → keyed (put_header e h s).
Proof.
  intros [] Ht Eo Ew. split; simpl; try done. unfold put_header; simpl. rewrite <-Eo, <-Ew.
  apply (rows_keyed_set _ _ (λ _, "todo") (todoQueueHeaders s) h); [done|by eapply own_tenant].
Qed.

Lemma keyed_bump_queue e s : keyed s → tenant_ok e → keyed (bump_queue e s).
Proof. intros. by apply keyed_put_header. Qed.

Lemma members_keyed_set e id rank m :
  tenant_ok e → members_keyed m →
  members_keyed (jm_set (key (env_organizationId e) (env_workspaceId e) id) (mkMembership id rank) m).
Proof.
  intros [Ho Hw] [Hwf Hm]. split; [by apply jm_wf_set|].
  intros k v [[-> ->]|[_ H]]%jm_get_set_Some; [by eexists _, _|auto].
Qed.

Lemma members_keyed_rebalance e i ids m :
  tenant_ok e → members_keyed m →
  members_keyed (rebalance_from i (env_organizationId e) (env_workspaceId e) ids m).
Proof.
  intros Ht. revert i m. induction ids as [|id ids IH]; intros i m Hm; simpl; [done|].
  apply IH. unfold rerank. case_match; [by apply members_keyed_set|done].
Qed.

Lemma members_keyed_delete k m : members_keyed m → members_keyed (jm_delete k m).
Proof.
  intros [Hwf Hm]. split; [by apply jm_wf_delete|]. intros k' v Hget.
  rewrite jm_get_delete in Hget. case_match; [done|auto].
Qed.

Lemma keyed_put_member e id rank s : keyed s → tenant_ok e → keyed (put_member e id rank s).
Proof. intros [] Ht. split; simpl; try done. by apply members_keyed_set. Qed.

Lemma keyed_rebalance e ids s : keyed s → tenant_ok e → keyed (rebalance e ids s).
Proof. intros [] Ht. split; simpl; try done. by apply members_keyed_rebalance. Qed.

Lemma keyed_reordered e id i others s : keyed s → tenant_ok e → keyed (reordered e id i others s).
Proof.
  intros [] Ht. unfold reordered. split; simpl; try done.
  case_match; [by apply members_keyed_rebalance|by apply members_keyed_set].
Qed.

Lemma keyed_leave_queue e t s : keyed s → tenant_ok e → keyed (leave_queue e t s).
Proof.
  intros Hk Ht. destruct (decide (dt_lane t = LTodo)).
  - rewrite leave_queue_todo by done. apply keyed_bump_queue; [|done].
    destruct Hk. split; simpl; try done. by apply members_keyed_delete.
  - by rewrite leave_queue_other.
Qed.

Lemma keyed_put_historical h s : keyed s → keyed (put_historical h s).
Proof.
  intros []. split; simpl; try done. destruct keyed_historical as [Hwf Hm].
  split; [by apply jm_wf_set|]. intros k v [[-> ->]|[_ H]]%jm_get_set_Some; auto.
Qed.

Lemma keyed_put_alias a s : keyed s → no_colon (al_organizationId a) = true → keyed (put_alias a s).
Proof.
  intros [] Ha. split; simpl; try done. destruct keyed_aliases as [Hwf Hm].
  split; [by apply jm_wf_set|]. intros k v [[-> ->]|[_ H]]%jm_get_set_Some; auto.
Qed.

Lemma keyed_realias e h ticket s : keyed s → keyed (realias e h ticket s).
Proof.
  intros Hk. unfold realias. case_match eqn:Ha; [|done].
  apply (proj2 (keyed_aliases _ Hk)) in Ha as [_ Ha]. by apply keyed_put_alias.
Qed.

Lemma keyed_opened e s s' : tenant_ok e → opened e s s' → keyed s → keyed s'.
Proof. intros Ht [|org ws H] Hk; [done|]. by apply (keyed_put_header e (mkHeader org ws 1) s). Qed.

Lemma dependent_changed_row t :
  tenant_row dt_organizationId dt_workspaceId t →
  tenant_row dt_organizationId dt_workspaceId (dependent_changed t).
Proof. unfold dependent_changed. by case_bool_decide. Qed.

Lemma keyed_imported `{NodeRuntime} e input source disposition digest hid epoch now s :
  keyed s → tenant_ok e → keyed (imported e input source disposition digest hid epoch now s).
Proof.
  intros Hk Ht. apply keyed_put_alias; [|by destruct Ht]. apply keyed_put_historical.
  unfold imported_ticket. case_match; [|done]. apply keyed_put_ticket; [done|].
  case_bool_decide; simplify_eq. by eapply own_tenant.
Qed.

#[export] Hint Resolve dependent_changed_row keyed_imported : opzava.
#[export] Hint Resolve keyed_put_proposal keyed_put_ticket keyed_put_edge keyed_bump_queue keyed_put_member
  keyed_rebalance keyed_reordered keyed_leave_queue keyed_put_historical keyed_put_alias keyed_realias : opzava.

Lemma effect_keyed `{NodeRuntime} e c res s s' :
  keyed s → tenant_ok e → effect e c res s s' → keyed s'.
Proof.
  intros Hk Ht Heff. destruct Heff;
    repeat match goal with
    | H : find_proposal e _ s = Some _ |- _ => apply find_proposal_found in H as [_ (_ & ? & ?)]; [|done..]
    | H : find_ticket e _ s = Some _ |- _ => apply find_ticket_found in H as [_ (_ & ? & ?)]; [|done..]
    | H : find_edge e _ s = Some _ |- _ => apply find_edge_found in H as [_ (_ & ? & ?)]; [|done..]
    end.
  all: repeat match goal with x := if ?b then _ else _ |- _ => destruct b end.
  all: eauto 10 using own_tenant with opzava.
Qed.

(** * Reachable boards

    The states a board can be in: commands run in any order by any tenant, each
    accepted, refused, replayed or aborted, with changes of the memberships, the
    roles and the legacy source table in between.  [reachable_store] reduces an
    invariant of the store to the effects of [Board]. *)

(** The board has no rows yet. *)
Definition seeded (s : PlanningStore) : Prop :=
  proposals s = [] ∧ devTickets s = [] ∧ dependencyEdges s = [] ∧ todoQueueHeaders s = [] ∧
  todoQueueMemberships s = [] ∧ legacyTaskAliases s = [] ∧ historicalRecords s = [].

(** The rows of the board are the same; its surroundings may have changed. *)
Record same_board (s s' : PlanningStore) : Prop := {
  same_proposals : proposals s' = proposals s;
  same_tickets : devTickets s' = devTickets s;
  same_edges : dependencyEdges s' = dependencyEdges s;
  same_headers : todoQueueHeaders s' = todoQueueHeaders s;
  same_members : todoQueueMemberships s' = todoQueueMemberships s;
  same_aliases : legacyTaskAliases s' = legacyTaskAliases s;
  same_historical : historicalRecords s' = historicalRecords s;
}.

Lemma keyed_same_board s s' : same_board s s' → keyed s → keyed s'.
Proof. intros [] []. by split; congruence. Qed.

Lemma keyed_seeded s : seeded s → keyed s.
Proof.
  intros (H1 & H2 & H3 & H4 & H5 & H6 & H7).
  split; rewrite ?H1, ?H2, ?H3, ?H4, ?H5, ?H6, ?H7; split; try apply jm_wf_nil; done.
Qed.

Section reachability.
Context {R L : Type} {RP : CommandReceiptRepository R} {LP : DevBoardLedgerAppendPort L}.
Context {RT : NodeRuntime} {DB : TenantDatabase}.

Inductive reachable : World R L → Prop :=
| reach_start w : seeded (w_store w) → reachable w
| reach_run c e w r w' :
    reachable w → tenant_ok e → run c e w = (r, w') → reachable w'
| reach_surroundings w w' :
    reachable w → same_board (w_store w) (w_store w') → reachable w'.

(** What a command does to the store. *)
Inductive store_step (e : CommandEnvelope) (c : board_command) (s : PlanningStore) : PlanningStore → Prop :=
| step_effect res s' : effect e c res s s' → store_step e c s s'
| step_opened s' : opened e s s' → store_step e c s s'.

Lemma run_store_step c e (w : World R L) r w' :
  keyed (w_store w) → tenant_ok e → run c e w = (r, w') → store_step e c (w_store w) (w_store w').
Proof.
  intros Hk Ht Hrun. pose proof (wp_run _ _ _ _ _ (run_refines c e w Hk Ht) Hrun) as Hpost.
  destruct r as [[res|d]|x]; simpl in Hpost.
  - destruct Hpost as [[-> _]|Heff]; [apply step_opened; constructor|by eapply step_effect].
  - destruct Hpost as [Ho _]. by apply step_opened.
  - destruct Hpost as [Ho|[res Heff]]; [by apply step_opened|by eapply step_effect].
Qed.

Lemma store_step_keyed e c s s' : keyed s → tenant_ok e → store_step e c s s' → keyed s'.
Proof. intros Hk Ht []; [by eapply effect_keyed|by eapply keyed_opened]. Qed.

Lemma reachable_keyed w : reachable w → keyed (w_store w).
Proof.
  induction 1 as [w Hs|c e w r w' Hr IH Ht Hrun|w w' Hr IH Hsame].
  - by apply keyed_seeded.
  - eapply store_step_keyed; [done..|]. by eapply run_store_step.
  - by eapply keyed_same_board.
Qed.

(** An invariant of the store, relative to one established before: it holds of an
    empty board, it does not depend on the surroundings, and the opening of a
    queue and every effect preserve it. *)
Class BoardInvariant (J I : PlanningStore → Prop) : Prop := {
  invariant_seeded s : seeded s → I s;
  invariant_same s s' : same_board s s' → I s → I s';
  invariant_opened e s s' : opened e s s' → I s → I s';
  invariant_effect e c res s s' :
    keyed s → tenant_ok e → effect e c res s s' → J s → I s → I s';
}.

Lemma reachable_store (J I : PlanningStore → Prop) `{!BoardInvariant J I} :
  (∀ w, reachable w → J (w_store w)) → ∀ w, reachable w → I (w_store w).
Proof.
  intros HJ. induction 1 as [w Hs|c e w r w' Hr IH Ht Hrun|w w' Hr IH Hsame].
  - by apply invariant_seeded.
  - pose proof (reachable_keyed _ Hr) as Hk. destruct (run_store_step c e w r w' Hk Ht Hrun).
    + eapply invariant_effect; eauto.
    + by eapply invariant_opened.
  - by eapply invariant_same.
Qed.

End reachability.

(** No invariant established before. *)
Abbreviation unconditional := (λ _ : PlanningStore, True).

(** Replaces the local definitions of an effect by what they stand for. *)
Ltac subst_lets := repeat match goal with x := _ |- _ => subst x end.
