(* ===== verification/TicketInvariant.v ===== *)
(** * Classification and the Change Risk policy

    What the parsers of [classification.ts] admit, and what the policy of
    [change-risk-policy.ts] promises: a minimum that depends only on the set of
    work areas, is raised by every rule that applies, and never lowered by more
    areas or by dependencies. *)
From S2P Require Import Prelude JsMap JsString JsValue SharedKernel Effects DevBoardDomain.
From S2P Require Import TenantContext Receipts Ledger PlanningRows PlanningStore CommandBase.
From S2P Require Import ProposalCommands TicketCommands QueueCommands DependencyCommands.
From S2P Require Import LegacyCommands StoreRules Board Reachability.

(** ** Duplicate removal and sorting *)

Section js_unique.
Context {A : Type} `{EqDecision A}.
Implicit Types (l acc : list A).

Lemma unique_from_spec l acc :
  NoDup acc →
  let u := fold_left (λ acc x, if decide (x ∈ acc) then acc else acc ++ [x]) l acc in
  NoDup u ∧ (∀ x, x ∈ u ↔ x ∈ acc ∨ x ∈ l) ∧ length u <= length acc + length l ∧
  (length u = length acc + length l → u = acc ++ l).
Proof.
  revert acc. induction l as [|x l IH]; intros acc Hnd; simpl.
  - split_and!; [done|set_solver|lia|]. by rewrite app_nil_r.
  - case_decide as Hin.
    + destruct (IH acc Hnd) as (H1 & H2 & H3 & _). split_and!; [done| |lia|lia].
      intros y. rewrite H2. set_solver.
    + assert (NoDup (acc ++ [x])) as Hnd'.
      { apply NoDup_app. split_and!; [done|set_solver|apply NoDup_singleton]. }
      destruct (IH _ Hnd') as (H1 & H2 & H3 & H4). rewrite length_app in *; simpl in *.
      split_and!; [done| |lia|].
      * intros y. rewrite H2. set_solver.
      * intros Hlen. rewrite H4 by lia. by rewrite <-app_assoc.
Qed.

Lemma js_unique_NoDup l : NoDup (js_unique l).
Proof. apply (unique_from_spec l []), NoDup_nil_2. Qed.

Lemma elem_of_js_unique x l : x ∈ js_unique l ↔ x ∈ l.
Proof.
  destruct (unique_from_spec l [] (NoDup_nil_2)) as (_ & H & _). unfold js_unique. rewrite H. set_solver.
Qed.

Lemma js_unique_length l : length (js_unique l) = length l ↔ NoDup l.
Proof.
  destruct (unique_from_spec l [] NoDup_nil_2) as (Hnd & _ & _ & Heq). simpl in *. split.
  - intros Hlen. apply Heq in Hlen. unfold js_unique in *. by rewrite <-Hlen.
  - intros Hl. apply Permutation_length, NoDup_Permutation; [done|done|intros x; apply elem_of_js_unique].
Qed.

Lemma js_unique_id l : NoDup l → js_unique l = l.
Proof.
  intros Hl%js_unique_length. by destruct (unique_from_spec l [] NoDup_nil_2) as (_ & _ & _ & Heq); apply Heq.
Qed.

End js_unique.

Lemma workArea_str_inj : Inj (=) (=) workArea_str.
Proof. by intros [] []. Qed.

#[export] Instance workArea_le_trans : Transitive workArea_le.
Proof. intros a b c. unfold workArea_le. apply transitivity. Qed.
#[export] Instance workArea_le_total : Total workArea_le.
Proof. intros a b. unfold workArea_le. apply total, _. Qed.
#[export] Instance workArea_le_antisym : AntiSymm (=) workArea_le.
Proof. intros a b Hab Hba. apply workArea_str_inj. by apply (anti_symm String.le). Qed.

Lemma sort_workAreas_spec l : Sorted workArea_le (sort_workAreas l) ∧ sort_workAreas l ≡ₚ l.
Proof. split; [apply Sorted_merge_sort, _|apply merge_sort_Permutation]. Qed.

(** Sorted lists with the same elements are equal. *)
Lemma sort_workAreas_ext l l' : l ≡ₚ l' → sort_workAreas l = sort_workAreas l'.
Proof.
  intros H. apply (Sorted_unique workArea_le); [apply sort_workAreas_spec..|].
  by rewrite (proj2 (sort_workAreas_spec l)), (proj2 (sort_workAreas_spec l')).
Qed.

Lemma normal_areas_ext l l' :
  (∀ w, w ∈ l ↔ w ∈ l') → sort_workAreas (js_unique l) = sort_workAreas (js_unique l').
Proof.
  intros H. apply sort_workAreas_ext, NoDup_Permutation; [apply js_unique_NoDup..|].
  intros w. by rewrite !elem_of_js_unique.
Qed.

Lemma elem_of_normal_areas w l : w ∈ sort_workAreas (js_unique l) ↔ w ∈ l.
Proof. by rewrite (proj2 (sort_workAreas_spec _)), elem_of_js_unique. Qed.

(** ** Parsers *)

Lemma parse_enum_ok {T} (f : T → string) values code message v x :
  Inj (=) (=) f → (∀ y, y ∈ values) →
  parse_enum f values code message v = ok x ↔ v = JStr (f x).
Proof.
  intros Hinj Hall. unfold parse_enum. split.
  - intros H. destruct v; try done. destruct (find _ values) as [y|] eqn:Hf; simplify_eq.
    apply find_some in Hf as [_ Hx]. by apply String.eqb_eq in Hx as ->.
  - intros ->. destruct (find _ values) as [y|] eqn:Hf.
    + apply find_some in Hf as [_ Hy]. apply String.eqb_eq in Hy. by apply Hinj in Hy as ->.
    + pose proof (find_none _ _ Hf x (proj1 (list_elem_of_In _ _) (Hall x))) as Hn.
      simpl in Hn. by rewrite String.eqb_refl in Hn.
Qed.

Lemma parseWorkArea_ok v w : parseWorkArea v = ok w ↔ v = JStr (workArea_str w).
Proof. apply parse_enum_ok; [apply workArea_str_inj|]. intros []; set_solver. Qed.

Lemma parse_workAreas_ok items ws :
  parse_workAreas items = ok ws ↔ items = (λ w, JStr (workArea_str w)) <$> ws.
Proof.
  revert ws. induction items as [|i items IH]; intros ws; simpl.
  - split; [by intros [= <-]|by destruct ws].
  - split.
    + intros H. destruct (parseWorkArea i) as [w|] eqn:Hw; [|done]. apply parseWorkArea_ok in Hw as ->.
      destruct (parse_workAreas items) as [ws'|]; simplify_eq. csimpl. f_equal. by apply IH.
    + intros H. destruct ws as [|w ws]; csimpl in H; simplify_eq.
      assert (parseWorkArea (JStr (workArea_str w)) = ok w) as -> by (by apply parseWorkArea_ok).
      assert (parse_workAreas ((λ w, JStr (workArea_str w)) <$> ws) = ok ws) as -> by (by apply IH). done.
Qed.

Lemma normalizeWorkAreas_ok v areas :
  normalizeWorkAreas v = ok areas ↔
  ∃ listed, v = JArr ((λ w, JStr (workArea_str w)) <$> listed) ∧ listed ≠ [] ∧ NoDup listed ∧
            areas ≡ₚ listed ∧ Sorted workArea_le areas.
Proof.
  unfold normalizeWorkAreas. split.
  - intros H. destruct v as [| | | | |[|x xs]| |]; try done.
    destruct (parse_workAreas (x :: xs)) as [ws|] eqn:Hp; [|done].
    apply parse_workAreas_ok in Hp. destruct (negb _) eqn:Hlen; simplify_eq.
    apply negb_false_iff, Nat.eqb_eq in Hlen.
    rewrite (proj2 (sort_workAreas_spec _)) in Hlen. apply js_unique_length in Hlen as Hnd.
    exists ws. rewrite Hp, js_unique_id by done.
    split_and!; [done|by intros ->|done|apply sort_workAreas_spec..].
  - intros (listed & -> & Hne & Hnd & Hperm & Hs).
    assert (parse_workAreas ((λ w, JStr (workArea_str w)) <$> listed) = ok listed) as Hp
      by (by apply parse_workAreas_ok).
    destruct listed as [|w listed]; [done|]. csimpl in *. rewrite Hp, js_unique_id by done.
    assert (length (sort_workAreas (w :: listed)) = S (length listed)) as ->
      by (by rewrite (proj2 (sort_workAreas_spec _))).
    rewrite Nat.eqb_refl. simpl. f_equal.
    apply (Sorted_unique workArea_le); [apply sort_workAreas_spec|done|].
    by rewrite (proj2 (sort_workAreas_spec _)).
Qed.

(** What [setDevTicketClassification] has parsed is complete and normalized. *)
Lemma parse_classification_input_ok input c :
  parse_classification_input input = ok c →
  cl_workAreas c ≠ [] ∧ Sorted workArea_le (cl_workAreas c) ∧ NoDup (cl_workAreas c) ∧
  (is_Some (cl_severity c) → cl_type c = TBug).
Proof.
  unfold parse_classification_input. intros H.
  destruct (parseDevTicketType _) as [type|]; [|done].
  destruct (normalizeWorkAreas _) as [areas|] eqn:Ha; [|done].
  apply normalizeWorkAreas_ok in Ha as (listed & _ & Hne & Hnd & Hperm & Hs).
  assert (areas ≠ []) as Hne' by (intros ->; by apply Permutation_nil in Hperm).
  rewrite <-Hperm in Hnd.
  repeat case_match; simplify_eq; simpl; bool_hyps; split_and!; try done; by intros [].
Qed.

(** ** The Change Risk policy *)

Section policy.
Context {RT : NodeRuntime}.

(** The level the rules give: security on sensitive data or infrastructure, or in
    a bug, is high; security or a bug alone is medium; dependencies add a step. *)
Definition policy_level (type : DevTicketType) (areas : list WorkArea) (dependencies : bool) : Z :=
  let bug := bool_decide (type = TBug) in
  let security := bool_decide (WSecurity ∈ areas) in
  let sensitive := bool_decide (WDataDatabase ∈ areas) || bool_decide (WInfrastructure ∈ areas) in
  (if security && (bug || sensitive) then 2 else if security || bug then 1 else 0)
  + (if dependencies then 1 else 0).

Lemma changeRisk_index_at i : (0 <= i <= 3)%Z → changeRisk_index (changeRisk_at i) = i.
Proof. intros H. assert (i = 0 ∨ i = 1 ∨ i = 2 ∨ i = 3)%Z as [-> | [-> | [-> | ->]]] by lia; done. Qed.

Lemma minimum_is_level type areas dependencies :
  changeRisk_index (ev_minimumChangeRisk (evaluateChangeRisk type areas dependencies))
  = policy_level type areas dependencies.
Proof.
  unfold evaluateChangeRisk, policy_level, ev_minimumChangeRisk.
  rewrite !(bool_decide_ext _ _ (elem_of_normal_areas _ areas)).
  destruct (bool_decide (type = TBug)), (bool_decide (WSecurity ∈ areas)),
    (bool_decide (WDataDatabase ∈ areas)), (bool_decide (WInfrastructure ∈ areas)), dependencies; done.
Qed.

(** The evaluation depends on the work areas as a set. *)
Lemma evaluate_ext type areas areas' dependencies :
  (∀ w, w ∈ areas ↔ w ∈ areas') →
  evaluateChangeRisk type areas dependencies = evaluateChangeRisk type areas' dependencies.
Proof. intros H. unfold evaluateChangeRisk. by rewrite (normal_areas_ext areas areas'). Qed.

(** More areas, or dependencies, never lower the minimum. *)
Lemma minimum_mono type areas areas' dependencies dependencies' :
  areas ⊆ areas' → (dependencies = true → dependencies' = true) →
  (compareChangeRisk (ev_minimumChangeRisk (evaluateChangeRisk type areas dependencies))
     (ev_minimumChangeRisk (evaluateChangeRisk type areas' dependencies')) <= 0)%Z.
Proof.
  intros Hsub Hdep. unfold compareChangeRisk. rewrite !minimum_is_level. unfold policy_level.
  assert (∀ w, bool_decide (w ∈ areas) = true → bool_decide (w ∈ areas') = true) as H.
  { intros w. rewrite !bool_decide_eq_true. apply Hsub. }
  pose proof (H WSecurity). pose proof (H WDataDatabase). pose proof (H WInfrastructure).
  destruct (bool_decide (type = TBug)), (bool_decide (WSecurity ∈ areas)), (bool_decide (WSecurity ∈ areas')),
    (bool_decide (WDataDatabase ∈ areas)), (bool_decide (WDataDatabase ∈ areas')),
    (bool_decide (WInfrastructure ∈ areas)), (bool_decide (WInfrastructure ∈ areas')),
    dependencies, dependencies'; simpl; try lia; naive_solver.
Qed.

End policy.

(** * The rows of reachable boards: tickets

    Every ticket of a reachable board is in Backlog or in Todo, its approval binds
    the current contract exactly when it is in Todo, its contract hash is that of
    its content, and its classification is complete and respects the Change Risk
    policy. *)

Section ticket_rows.
Context {RT : NodeRuntime}.

(** No approval is recorded. *)
Definition not_approved (t : DevTicketRow) : Prop :=
  dt_readyState t = RsDraft ∧ dt_readyApprovalContractVersion t = None ∧
  dt_readyApprovalContentHash t = None ∧ dt_readyApprovedByUserId t = None ∧
  dt_readyApprovalCommandId t = None.

(** The approval binds the current contract. *)
Definition approved (t : DevTicketRow) : Prop :=
  dt_readyState t = RsApproved ∧ dt_readyApprovalContractVersion t = Some (dt_readyContractVersion t) ∧
  dt_readyApprovalContentHash t = Some (dt_readyContractContentHash t) ∧
  is_Some (dt_readyApprovedByUserId t) ∧ is_Some (dt_readyApprovalCommandId t).

Definition unclassified (t : DevTicketRow) : Prop :=
  dt_devTicketType t = None ∧ dt_workAreas t = [] ∧ dt_priority t = None ∧ dt_severity t = None ∧
  dt_declaredChangeRisk t = None ∧ dt_minimumChangeRisk t = None ∧
  dt_changeRiskPolicyVersion t = None ∧ dt_changeRiskPolicyHash t = None.

(** A complete classification, judged by the policy with or without dependencies. *)
Definition classified (t : DevTicketRow) : Prop :=
  ∃ c dependencies,
    let ev := evaluateChangeRisk (cl_type c) (cl_workAreas c) dependencies in
    dt_devTicketType t = Some (cl_type c) ∧ dt_workAreas t = cl_workAreas c ∧
    dt_priority t = Some (cl_priority c) ∧ dt_severity t = cl_severity c ∧
    dt_declaredChangeRisk t = Some (cl_declaredChangeRisk c) ∧
    dt_minimumChangeRisk t = Some (ev_minimumChangeRisk ev) ∧
    dt_changeRiskPolicyVersion t = Some (ev_policyVersion ev) ∧
    dt_changeRiskPolicyHash t = Some (ev_policyHash ev) ∧
    cl_workAreas c ≠ [] ∧ Sorted workArea_le (cl_workAreas c) ∧ NoDup (cl_workAreas c) ∧
    (is_Some (cl_severity c) → cl_type c = TBug) ∧
    (0 <= compareChangeRisk (cl_declaredChangeRisk c) (ev_minimumChangeRisk ev))%Z.

Record ticket_ok (t : DevTicketRow) : Prop := {
  ticket_lane :
    dt_lane t = LBacklog ∧ not_approved t ∨
    dt_lane t = LTodo ∧ approved t ∧ dt_archivedAt t = None ∧ classified t;
  ticket_versions : (1 <= dt_version t)%Z ∧ (1 <= dt_readyContractVersion t)%Z;
  ticket_hash :
    computeReadyContractContentHash (dt_readyContractContent t) = Some (dt_readyContractContentHash t);
  ticket_classification : unclassified t ∨ classified t;
  ticket_archive :
    is_Some (dt_archivedAt t) ↔ is_Some (dt_archivedByUserId t) ∧ is_Some (dt_archivedReason t);
}.

Definition tickets_ok (s : PlanningStore) : Prop :=
  ∀ k t, jm_get k (devTickets s) = Some t → ticket_ok t.

(** ** Rows after each operation *)

Lemma admitted_hash v content :
  parseReadyContractContent v = ok content →
  computeReadyContractContentHash content = Some (content_hash content).
Proof.
  unfold parseReadyContractContent, content_hash. intros H. destruct v; try done.
  destruct (computeReadyContractContentHash o) eqn:Hh; simplify_eq. by rewrite Hh.
Qed.

Lemma new_ticket_ok input :
  computeReadyContractContentHash (it_readyContractContent input) = Some (it_readyContractContentHash input) →
  ticket_ok (new_ticket input).
Proof.
  intros Hh. split; simpl; [by left|lia|done|by left|].
  split; [by intros []|by intros [[] _]].
Qed.

Lemma archived_ticket_ok now input t : ticket_ok t → ticket_ok (archived_ticket now input t).
Proof. intros [? [? ?] ? ? ?]. split; simpl; [by left|lia|done|done|]. by split; eauto. Qed.

Lemma restored_ticket_ok t : ticket_ok t → ticket_ok (restored_ticket t).
Proof.
  intros [? [? ?] ? ? ?]. split; simpl; [by left|lia|done|done|].
  split; [by intros []|by intros [[] _]].
Qed.

Lemma bumped_ticket_ok t : ticket_ok t → ticket_ok (dt_bump t).
Proof. intros [? [? ?] ? ? ?]. split; simpl; [done|lia|done..]. Qed.

Lemma dependent_changed_ok t : ticket_ok t → ticket_ok (dependent_changed t).
Proof.
  intros Hok. unfold dependent_changed. apply bumped_ticket_ok.
  case_bool_decide as Hl; [|done]. destruct Hok as [? [? ?] ? ? ?]. split; simpl; [by left|lia|done..].
Qed.

Lemma classified_ticket_ok input t :
  dt_lane t = LBacklog → ticket_ok t →
  computeReadyContractContentHash (uc_readyContractContent input) = Some (uc_readyContractContentHash input) →
  classified (classified_ticket input t) → ticket_ok (classified_ticket input t).
Proof.
  intros Hl [Hlane [? ?] ? ? ?] Hh Hc. split; simpl; [|lia|done|by right|done].
  left. split; [done|]. destruct Hlane as [[_ Hn]|[Hl' _]]; [exact Hn|congruence].
Qed.

Lemma approved_ticket_ok input t :
  ticket_ok t → dt_archivedAt t = None → is_Some (dt_devTicketType t) →
  ra_readyContractVersion input = (dt_readyContractVersion t + 1)%Z →
  computeReadyContractContentHash (ra_readyContractContent input) = Some (ra_readyContractContentHash input) →
  ticket_ok (approved_ticket input t).
Proof.
  intros [Hlane [? ?] ? Hc ?] Harch [type Htype] Hv Hh.
  assert (classified t) as Hcl by (destruct Hc as [(Hnone & _)|]; [congruence|done]).
  split; simpl; [|lia|done|by right|done].
  right. by split_and!.
Qed.

Lemma tickets_ok_put t s : tickets_ok s → ticket_ok t → tickets_ok (put_ticket t s).
Proof. intros Hs Ht k t' [[-> ->]|[_ H]]%jm_get_set_Some; eauto. Qed.

Lemma tickets_ok_find e id t s : tickets_ok s → find_ticket e id s = Some t → ticket_ok t.
Proof. intros Hs H. by apply Hs in H. Qed.

Lemma realias_tickets e h ticket s : devTickets (realias e h ticket s) = devTickets s.
Proof. unfold realias. by case_match. Qed.

Lemma tickets_ok_realias e h ticket s : tickets_ok s → tickets_ok (realias e h ticket s).
Proof. unfold tickets_ok. by rewrite realias_tickets. Qed.

(** The contract of a promoted task is empty. *)
Lemma promoted_ticket_ok e source input : ticket_ok (promoted_ticket e source input).
Proof. by apply new_ticket_ok. Qed.

(** The row [setDevTicketClassification] writes. *)
Lemma classification_written_ok e t owner c dependencies content hash input :
  ticket_ok t → dt_lane t = LBacklog → parse_classification_input input = ok c →
  let ev := evaluateChangeRisk (cl_type c) (cl_workAreas c) dependencies in
  (0 <= compareChangeRisk (cl_declaredChangeRisk c) (ev_minimumChangeRisk ev))%Z →
  computeReadyContractContentHash content = Some hash →
  ticket_ok (classified_ticket (classification_input e t owner c ev content hash) t).
Proof.
  intros Hok Hl (? & ? & ? & ?)%parse_classification_input_ok ev Hge Hh.
  apply classified_ticket_ok; [done..|]. by exists c, dependencies.
Qed.

#[local] Hint Resolve tickets_ok_find archived_ticket_ok restored_ticket_ok
  bumped_ticket_ok dependent_changed_ok classification_written_ok : tickets.

#[export] Instance tickets_ok_invariant : BoardInvariant unconditional tickets_ok.
Proof.
  split.
  - intros s (_ & Ht & _) k t. by rewrite Ht.
  - intros s s' [] Hs. unfold tickets_ok. by replace (devTickets s') with (devTickets s).
  - by intros e s s' [|].
  - intros e c res s s' Hk Ht Heff _ Hs. destruct Heff; try exact Hs; subst_lets.
    + apply (tickets_ok_put _ s Hs), new_ticket_ok. by eapply admitted_hash.
    + apply (tickets_ok_put _ s Hs). eauto with tickets.
    + apply (tickets_ok_put _ s Hs). eauto with tickets.
    + apply (tickets_ok_put _ s Hs). eapply classification_written_ok; eauto with tickets.
    + assert (tickets_ok (put_ticket (approved_ticket (approval_input e t (dt_version t) content hash) t) s))
        by (apply tickets_ok_put; [done|]; apply approved_ticket_ok; eauto with tickets).
      by destruct balance.
    + apply (tickets_ok_put _ s Hs). eauto with tickets.
    + apply (tickets_ok_put _ s Hs). eauto with tickets.
    + apply (tickets_ok_put _ s Hs). eauto with tickets.
    + unfold imported. destruct (imported_ticket e input source disposition) as [t|] eqn:Hi; [|exact Hs].
      unfold imported_ticket in Hi. case_bool_decide; simplify_eq.
      apply (tickets_ok_put _ s Hs), promoted_ticket_ok.
    + apply tickets_ok_realias, (tickets_ok_put _ s Hs), promoted_ticket_ok.
    + by apply tickets_ok_realias.
Qed.

End ticket_rows.
