(* ===== verification/QueueInvariant.v ===== *)
(** * The Todo queue of reachable boards: membership

    A ticket has a membership in the Todo queue exactly when it is in Todo. *)
From S2P Require Import Prelude JsMap JsString JsValue SharedKernel Effects DevBoardDomain.
From S2P Require Import TenantContext Receipts Ledger PlanningRows PlanningStore CommandBase.
From S2P Require Import ProposalCommands TicketCommands QueueCommands DependencyCommands.
From S2P Require Import LegacyCommands StoreRules Board Reachability TicketInvariant.

Section queue_membership.
Context {RT : NodeRuntime}.

Definition in_todo (o : option DevTicketRow) : bool :=
  match o with Some t => bool_decide (dt_lane t = LTodo) | None => false end.

(** Tickets and memberships are stored under the same keys. *)
Definition queue_ok (s : PlanningStore) : Prop :=
  ∀ k, jm_has k (todoQueueMemberships s) = in_todo (jm_get k (devTickets s)).

Lemma found_ticket_key e t s :
  found_ticket e t s → ticket_key t = key (env_organizationId e) (env_workspaceId e) (dt_id t).
Proof. intros (_ & Ho & Hw). unfold own_key. by rewrite Ho, Hw. Qed.

Lemma found_ticket_get e t s : found_ticket e t s → jm_get (ticket_key t) (devTickets s) = Some t.
Proof. intros Hf. rewrite (found_ticket_key _ _ _ Hf). apply Hf. Qed.

(** A write that keeps the ticket on its side of Todo. *)
Lemma queue_ok_put t' s :
  queue_ok s → in_todo (Some t') = in_todo (jm_get (ticket_key t') (devTickets s)) →
  queue_ok (put_ticket t' s).
Proof.
  intros Hq Ht k. simpl. rewrite Hq, jm_get_set. by destruct (String.eqb_spec k (ticket_key t')) as [->|].
Qed.

Lemma queue_ok_leave e t t' s :
  queue_ok s → found_ticket e t s → ticket_key t' = ticket_key t → dt_lane t' ≠ LTodo →
  queue_ok (put_ticket t' (leave_queue e t s)).
Proof.
  intros Hq Hf Hkey Hl k. simpl. rewrite jm_get_set, Hkey.
  rewrite <-(found_ticket_key _ _ _ Hf). destruct (bool_decide (dt_lane t = LTodo)) eqn:Hb.
  - rewrite jm_has_delete, Hq. destruct (String.eqb k (ticket_key t)); [|done]. simpl.
    by rewrite bool_decide_false.
  - rewrite Hq. destruct (String.eqb_spec k (ticket_key t)) as [->|]; [|done].
    rewrite (found_ticket_get _ _ _ Hf). simpl. by rewrite Hb, bool_decide_false.
Qed.

Lemma queue_ok_join e t t' rank s :
  queue_ok s → found_ticket e t s → ticket_key t' = ticket_key t → dt_lane t' = LTodo →
  queue_ok (bump_queue e (put_member e (dt_id t) rank (put_ticket t' s))).
Proof.
  intros Hq Hf Hkey Hl k. simpl. rewrite jm_has_set, jm_get_set, Hkey, Hq.
  rewrite <-(found_ticket_key _ _ _ Hf). destruct (String.eqb k (ticket_key t)); [|done].
  simpl. by rewrite bool_decide_true.
Qed.

Lemma reordered_has e id i others s k :
  is_Some (find_member e id s) →
  jm_has k (todoQueueMemberships (reordered e id i others s)) = jm_has k (todoQueueMemberships s).
Proof.
  intros Hm%jm_has_get. unfold reordered; simpl. case_match; simpl; [apply rebalance_from_has|].
  rewrite jm_has_set. by destruct (String.eqb_spec k (key (env_organizationId e) (env_workspaceId e) id)) as [->|].
Qed.

Lemma queue_ok_reordered e id i others s :
  queue_ok s → is_Some (find_member e id s) → queue_ok (reordered e id i others s).
Proof. intros Hq Hm k. rewrite reordered_has by done. apply Hq. Qed.

Lemma queue_ok_rebalance e ids s : queue_ok s → queue_ok (rebalance e ids s).
Proof. intros Hq k. simpl. rewrite rebalance_from_has. apply Hq. Qed.

Lemma queue_ok_realias e h ticket s : queue_ok s → queue_ok (realias e h ticket s).
Proof. intros Hq. unfold realias. by case_match. Qed.

Lemma queue_ok_new e t s :
  queue_ok s → tenant_ok e → dt_organizationId t = env_organizationId e →
  dt_workspaceId t = env_workspaceId e → find_ticket e (dt_id t) s = None → dt_lane t ≠ LTodo →
  queue_ok (put_ticket t s).
Proof.
  intros Hq Ht Ho Hw Hnone Hl. apply queue_ok_put; [done|]. unfold own_key. rewrite Ho, Hw.
  unfold find_ticket in Hnone. rewrite Hnone. simpl. by rewrite bool_decide_false.
Qed.

(** The same, for an update of a row that was found and keeps its lane. *)
Lemma queue_ok_same_lane e t t' s :
  queue_ok s → found_ticket e t s → ticket_key t' = ticket_key t → dt_lane t' = dt_lane t →
  queue_ok (put_ticket t' s).
Proof.
  intros Hq Hf Hkey Hl. apply queue_ok_put; [done|]. rewrite Hkey, (found_ticket_get _ _ _ Hf).
  simpl. by rewrite Hl.
Qed.

Lemma dependent_changed_lane t : dt_lane (dependent_changed t) ≠ LTodo.
Proof. unfold dependent_changed. by case_bool_decide. Qed.

#[export] Instance queue_ok_invariant : BoardInvariant tickets_ok queue_ok.
Proof.
  split.
  - intros s (_ & Ht & _ & _ & Hm & _) k. by rewrite Ht, Hm.
  - intros s s' [] Hs. unfold queue_ok. by replace (devTickets s') with (devTickets s);
      replace (todoQueueMemberships s') with (todoQueueMemberships s).
  - by intros e s s' [|].
  - intros e c res s s' Hk Ht Heff Htok Hs.
    destruct Heff; try exact Hs; subst_lets;
      repeat match goal with
      | H : find_ticket e _ s = Some _ |- _ => apply find_ticket_found in H as [? ?]; [|done..]
      end.
    + by apply (queue_ok_new e).
    + by apply queue_ok_leave.
    + apply (queue_ok_put _ s Hs). change (ticket_key (restored_ticket t)) with (ticket_key t).
      assert (found_ticket e t s) as Hf by done. rewrite (found_ticket_get _ _ _ Hf). simpl.
      symmetry. apply bool_decide_eq_false. intros Hl.
      destruct (ticket_lane _ (Htok _ _ (found_ticket_get _ _ _ Hf))) as [[? _]|(_ & _ & Hnone & _)];
        [congruence|]. by destruct (dt_archivedAt t); [|eapply is_Some_None].
    + by eapply (queue_ok_same_lane e t _ s).
    + apply (queue_ok_join e t); [|by destruct balance|done..]. by destruct balance; [apply queue_ok_rebalance|].
    + apply (queue_ok_same_lane e t _ (reordered e (dt_id t) index _ s)); [by apply queue_ok_reordered|done..].
    + apply (queue_ok_leave e dependent _ (put_edge _ s)); [done..|apply dependent_changed_key|apply dependent_changed_lane].
    + apply (queue_ok_leave e dependent _ (put_edge _ s)); [done..|apply dependent_changed_key|apply dependent_changed_lane].
    + unfold imported. destruct (imported_ticket e input source disposition) as [t|] eqn:Hi; [|exact Hs].
      unfold imported_ticket in Hi. case_bool_decide; simplify_eq.
      by apply (queue_ok_new e (promoted_ticket e source input) s); auto.
    + apply queue_ok_realias. by apply (queue_ok_new e (promoted_ticket e source input) s).
    + by apply queue_ok_realias.
Qed.

End queue_membership.

(** * The order of the Todo queue

    The ranks of a queue are positive, fit the column and are distinct; the queue
    is read back in rank order; a reordering produces exactly the order it was
    asked for, whether it writes one rank or rebalances the band. *)

(** ** Sorted lists *)

Section sorted.
Context {A : Type} (R : relation A).

Lemma StronglySorted_filter (P : A → Prop) `{∀ x, Decision (P x)} l :
  StronglySorted R l → StronglySorted R (filter P l).
Proof.
  induction 1 as [|x l Hl IH Hx]; [constructor|]. rewrite filter_cons. case_decide; [|done].
  constructor; [done|]. rewrite Forall_forall in *. intros y Hy. apply Hx.
  by apply list_elem_of_filter in Hy as [_ Hy].
Qed.

Lemma StronglySorted_lookup l i j x y :
  StronglySorted R l → l !! i = Some x → l !! j = Some y → i < j → R x y.
Proof.
  intros Hl. revert i j. induction Hl as [|z l Hl IH Hz]; intros i j Hi Hj Hlt; [done|].
  destruct j as [|j]; [lia|]. destruct i as [|i]; simplify_eq/=.
  - rewrite Forall_forall in Hz. by apply Hz, list_elem_of_lookup_2 with j.
  - apply (IH i j); [done..|lia].
Qed.

Lemma StronglySorted_insert_at i x l :
  StronglySorted R l →
  (∀ j y, l !! j = Some y → j < i → R y x) → (∀ j y, l !! j = Some y → i <= j → R x y) →
  StronglySorted R (insert_at i x l).
Proof.
  intros Hl Hlow Hup. unfold insert_at. rewrite <-(take_drop i l) in Hl.
  apply StronglySorted_app in Hl as (Hcross & Ht & Hd).
  apply StronglySorted_app. split_and!; [|done|].
  - intros y z Hy [->|Hz]%elem_of_cons; [|by apply Hcross].
    apply list_elem_of_lookup in Hy as [j Hj]. apply lookup_take_Some in Hj as [Hj Hlt].
    by eapply Hlow.
  - constructor; [done|]. apply Forall_forall. intros z Hz.
    apply list_elem_of_lookup in Hz as [j Hj]. rewrite lookup_drop in Hj.
    eapply Hup; [done|lia].
Qed.

End sorted.

Section queue_order.
Context {RT : NodeRuntime} {LO : LocaleOrder}.

#[export] Instance membership_le_total : Total membership_le.
Proof.
  intros a b. unfold membership_le. destruct (Z.lt_trichotomy (qm_rank a) (qm_rank b)) as [|[Heq|]]; [auto| |auto].
  destruct (locale_total (qm_devTicketId a) (qm_devTicketId b)); auto.
Qed.

#[export] Instance membership_le_trans : Transitive membership_le.
Proof.
  intros a b c [Hab|[Hab Hl]] [Hbc|[Hbc Hl']]; unfold membership_le; [left; lia..|].
  right. split; [congruence|]. by eapply locale_trans.
Qed.

#[export] Instance membership_le_antisym : AntiSymm (=) membership_le.
Proof.
  intros [i x] [j y] [Hab|[Hab Hl]] [Hba|[Hba Hl']]; simpl in *; try lia. subst.
  f_equal. by apply locale_antisym.
Qed.

(** ** The queue of a tenant *)

Section tenant.
Variables (org ws : string).
Hypothesis (Horg : no_colon org = true) (Hws : no_colon ws = true).

Lemma key_id_inj i j : key org ws i = key org ws j → i = j.
Proof. intros H. apply key_inj in H as (_ & _ & ->); done. Qed.

Lemma queue_entry s k m :
  members_keyed (todoQueueMemberships s) →
  (k, m) ∈ filter (λ kv, starts_with (workspace_prefix org ws) kv.1 = true) (todoQueueMemberships s) ↔
  k = key org ws (qm_devTicketId m) ∧ jm_get k (todoQueueMemberships s) = Some m.
Proof.
  intros [Hwf Hm]. rewrite list_elem_of_filter, <-jm_get_entry by done. simpl. split.
  - intros [Hp Hget]. split; [|done]. destruct (Hm _ _ Hget) as (o & w & -> & Ho & Hw).
    apply starts_with_app in Hp as [r Hr]. unfold workspace_prefix in Hr.
    rewrite !string_app_assoc in Hr.
    by apply (key_inj o w _ org ws r) in Hr as (-> & -> & _).
  - intros [-> Hget]. split; [|done]. apply starts_with_app. exists (qm_devTicketId m).
    unfold key, workspace_prefix. by rewrite !string_app_assoc.
Qed.

Lemma elem_of_queue s m :
  members_keyed (todoQueueMemberships s) →
  m ∈ todo_queue org ws s ↔ jm_get (key org ws (qm_devTicketId m)) (todoQueueMemberships s) = Some m.
Proof.
  intros Hk. unfold todo_queue, queue_members. rewrite merge_sort_Permutation, list_elem_of_fmap. split.
  - intros ([k m'] & -> & Hin). by apply queue_entry in Hin as [-> Hget].
  - intros Hget. exists (key org ws (qm_devTicketId m), m). split; [done|]. by apply queue_entry.
Qed.

Lemma queue_members_NoDup s : members_keyed (todoQueueMemberships s) → NoDup (queue_members org ws s).
Proof.
  intros Hk. unfold queue_members. apply NoDup_fmap_2_strong.
  - intros [k m] [k' m'] H1 H2 Heq; simpl in Heq; subst.
    apply queue_entry in H1 as [-> _], H2 as [-> _]; done.
  - apply NoDup_filter. destruct Hk as [Hwf _]. unfold jm_wf, jm_keys in Hwf.
    by apply NoDup_fmap_1 in Hwf.
Qed.

Lemma todo_queue_sorted s : StronglySorted membership_le (todo_queue org ws s).
Proof. apply StronglySorted_merge_sort; apply _. Qed.

Lemma queue_ids_NoDup s : members_keyed (todoQueueMemberships s) → NoDup (queue_ids (todo_queue org ws s)).
Proof.
  intros Hk. unfold queue_ids. apply NoDup_fmap_2_strong.
  - intros m m' H1 H2 Heq. apply (elem_of_queue s) in H1; [|done]. apply (elem_of_queue s) in H2; [|done].
    rewrite Heq in H1. congruence.
  - unfold todo_queue. rewrite merge_sort_Permutation. by apply queue_members_NoDup.
Qed.

(** ** Rebalancing *)

Lemma rerank_get k k' row m :
  jm_get k (rerank k' row m) = if String.eqb k k' && jm_has k m then Some row else jm_get k m.
Proof.
  unfold rerank. destruct (String.eqb_spec k k') as [->|Hne]; simpl.
  - case_match; [apply jm_get_set_eq|done].
  - case_match; [by apply jm_get_set_ne|done].
Qed.

Lemma rebalance_from_other i ids m k :
  (∀ id, id ∈ ids → k ≠ key org ws id) → jm_get k (rebalance_from i org ws ids m) = jm_get k m.
Proof.
  revert i m. induction ids as [|id ids IH]; intros i m Hk; simpl; [done|].
  rewrite IH by set_solver. rewrite rerank_get.
  by destruct (String.eqb_spec k (key org ws id)) as [->|]; [destruct (Hk id); set_solver|].
Qed.

Lemma rebalance_from_get i ids m j id :
  NoDup ids → ids !! j = Some id → jm_has (key org ws id) m = true →
  jm_get (key org ws id) (rebalance_from i org ws ids m)
  = Some (mkMembership id ((Z.of_nat (i + j) + 2) * RANK_STRIDE)).
Proof.
  revert i j m. induction ids as [|id' ids IH]; intros i j m Hnd Hj Hhas; [done|].
  apply NoDup_cons in Hnd as [Hni Hnd]. destruct j as [|j]; simplify_eq/=.
  - rewrite rebalance_from_other, rerank_get, String.eqb_refl, Hhas; [by rewrite Nat.add_0_r|].
    intros id' Hid' Heq. apply key_id_inj in Heq as ->. done.
  - rewrite (IH (S i) j); [by rewrite <-Nat.add_succ_comm|done|done|by rewrite rerank_has].
Qed.

(** The queue is the sorted list with the memberships of the tenant. *)
Lemma todo_queue_unique s l :
  members_keyed (todoQueueMemberships s) → NoDup l → StronglySorted membership_le l →
  (∀ m, m ∈ l ↔ jm_get (key org ws (qm_devTicketId m)) (todoQueueMemberships s) = Some m) →
  todo_queue org ws s = l.
Proof.
  intros Hk Hnd Hs Hl. apply (StronglySorted_unique membership_le); [apply todo_queue_sorted|done|].
  apply NoDup_Permutation; [|done|intros m; by rewrite elem_of_queue, Hl].
  unfold todo_queue. rewrite merge_sort_Permutation. by apply queue_members_NoDup.
Qed.

(** ** Ranks *)

(** The ranks of the tenant's queue fit the column and are distinct. *)
Definition ranks_at (m : jsmap TodoQueueMembershipRow) : Prop :=
  (∀ id x, jm_get (key org ws id) m = Some x → 0 < qm_rank x <= POSTGRES_BIGINT_MAX)%Z ∧
  (∀ i j x y, jm_get (key org ws i) m = Some x → jm_get (key org ws j) m = Some y →
              qm_rank x = qm_rank y → i = j).

Lemma ranks_at_ext m m' :
  (∀ id, jm_get (key org ws id) m' = jm_get (key org ws id) m) → ranks_at m → ranks_at m'.
Proof. intros H [Hr Hi]. split; intros *; rewrite !H; eauto. Qed.

Lemma ranks_at_delete k m : ranks_at m → ranks_at (jm_delete k m).
Proof.
  intros [Hr Hi].
  assert (∀ id x, jm_get (key org ws id) (jm_delete k m) = Some x → jm_get (key org ws id) m = Some x) as H.
  { intros id x. rewrite jm_get_delete. by case_match. }
  split; eauto.
Qed.

Lemma ranks_at_set id rank m :
  ranks_at m → (0 < rank <= POSTGRES_BIGINT_MAX)%Z →
  (∀ j x, j ≠ id → jm_get (key org ws j) m = Some x → qm_rank x ≠ rank) →
  ranks_at (jm_set (key org ws id) (mkMembership id rank) m).
Proof.
  intros [Hr Hi] Hrank Hne. split.
  - intros j x [[Hj ->]|[_ Hx]]%jm_get_set_Some; [done|eauto].
  - intros i j x y [[Hi' ->]|[Hni Hx]]%jm_get_set_Some [[Hj' ->]|[Hnj Hy]]%jm_get_set_Some Heq; simpl in *.
    + apply key_id_inj in Hi', Hj'. congruence.
    + apply key_id_inj in Hi' as ->. destruct (Hne j y); [congruence|done|done].
    + apply key_id_inj in Hj' as ->. destruct (Hne i x); [congruence|done|done].
    + eauto.
Qed.

(** A rebalancing of every member leaves ranks in the order of the list. *)
Lemma ranks_at_rebalance ids m :
  NoDup ids → (∀ id, id ∈ ids ↔ jm_has (key org ws id) m = true) →
  ((Z.of_nat (length ids) + 1) * RANK_STRIDE <= POSTGRES_BIGINT_MAX)%Z →
  ranks_at (rebalance_from 0 org ws ids m).
Proof.
  intros Hnd Hids Hcap.
  assert (∀ id x, jm_get (key org ws id) (rebalance_from 0 org ws ids m) = Some x →
            ∃ j, ids !! j = Some id ∧ qm_rank x = (Z.of_nat j + 2) * RANK_STRIDE)%Z as Hget.
  { intros id x Hx. assert (id ∈ ids) as Hin.
    { apply Hids. rewrite <-(rebalance_from_has _ 0 org ws ids). unfold jm_has. by rewrite Hx. }
    apply list_elem_of_lookup in Hin as [j Hj].
    rewrite (rebalance_from_get 0 ids m j) in Hx; [|done..|apply Hids; by eapply list_elem_of_lookup_2].
    exists j. split; [done|]. simplify_eq. done. }
  split.
  - intros id x (j & Hj & ->)%Hget. apply lookup_lt_Some in Hj. unfold RANK_STRIDE in *. lia.
  - intros i j x y (a & Ha & Hx)%Hget (b & Hb & Hy)%Hget Heq.
    assert (a = b) as -> by (unfold RANK_STRIDE in *; lia). congruence.
Qed.

End tenant.

Definition ranks_ok (s : PlanningStore) : Prop :=
  ∀ org ws, no_colon org = true → no_colon ws = true → ranks_at org ws (todoQueueMemberships s).

(** A write to the queue of one tenant. *)
Lemma ranks_ok_tenant e m' s :
  tenant_ok e → ranks_ok s →
  (∀ o w id, (o ≠ env_organizationId e ∨ w ≠ env_workspaceId e) → no_colon o = true → no_colon w = true →
     jm_get (key o w id) m' = jm_get (key o w id) (todoQueueMemberships s)) →
  ranks_at (env_organizationId e) (env_workspaceId e) m' →
  ranks_ok (set_todoQueueMemberships m' s).
Proof.
  intros Ht Hs Hother Hown o w Ho Hw. simpl.
  destruct (decide (o = env_organizationId e)) as [->|], (decide (w = env_workspaceId e)) as [->|]; [done|..];
    (eapply ranks_at_ext; [|by apply Hs]); intros id; apply Hother; auto.
Qed.

Lemma other_tenant_key e o w i j :
  tenant_ok e → (o ≠ env_organizationId e ∨ w ≠ env_workspaceId e) → no_colon o = true → no_colon w = true →
  key o w i ≠ key (env_organizationId e) (env_workspaceId e) j.
Proof. intros [Hoe Hwe] Hne Ho Hw Heq. apply key_inj in Heq as (-> & -> & _); naive_solver. Qed.

(** ** The ranks the commands choose *)

Lemma rank_le a b : membership_le a b → (qm_rank a <= qm_rank b)%Z.
Proof. unfold membership_le. lia. Qed.

Lemma sorted_last_rank q x m :
  StronglySorted membership_le q → last q = Some x → m ∈ q → (qm_rank m <= qm_rank x)%Z.
Proof.
  intros Hs Hl [i Hi]%list_elem_of_lookup. rewrite last_lookup in Hl.
  pose proof (lookup_lt_Some _ _ _ Hi). destruct (decide (i = pred (length q))) as [->|].
  - assert (m = x) as -> by congruence. lia.
  - apply rank_le. eapply StronglySorted_lookup; [done..|]. lia.
Qed.

Lemma append_rank_fresh q rank m :
  StronglySorted membership_le q → append_rank q = Some (rank, false) → m ∈ q → (qm_rank m < rank)%Z.
Proof.
  unfold append_rank. intros Hs Hr Hm. destruct (last q) as [x|] eqn:Hl.
  - pose proof (sorted_last_rank _ _ _ Hs Hl Hm). repeat case_match; simplify_eq. unfold RANK_STRIDE. lia.
  - apply last_None in Hl as ->. by apply elem_of_nil in Hm.
Qed.

Lemma append_rank_range q rank b :
  (∀ m, m ∈ q → 0 < qm_rank m)%Z → append_rank q = Some (rank, b) →
  (0 < rank <= POSTGRES_BIGINT_MAX)%Z ∧
  (b = true → rank = (Z.of_nat (length q) + 2) * RANK_STRIDE)%Z.
Proof.
  unfold append_rank. intros Hpos Hr.
  assert (0 < match last q with Some m => qm_rank m + RANK_STRIDE | None => FIRST_TODO_RANK end)%Z.
  { destruct (last q) as [x|] eqn:Hl; [|done]. apply last_Some in Hl as [q' ->].
    specialize (Hpos x ltac:(set_solver)). unfold RANK_STRIDE. lia. }
  repeat case_match; simplify_eq; bool_hyps; split; try done; unfold RANK_STRIDE in *; lia.
Qed.

(** A rank that fits lies strictly between the ranks on both sides. *)
Lemma rank_between_spec index others :
  StronglySorted membership_le others → index <= length others →
  rank_out_of_range (rank_between index others) = false →
  (∀ j y, others !! j = Some y → (j < index)%nat → qm_rank y < rank_between index others)%Z ∧
  (∀ j y, others !! j = Some y → (index <= j)%nat → rank_between index others < qm_rank y)%Z.
Proof.
  intros Hs Hlen Hr.
  assert (∀ i j x y, others !! i = Some x → others !! j = Some y → (i <= j)%nat → qm_rank x <= qm_rank y)%Z as Hmono.
  { intros i j x y Hx Hy Hij. destruct (decide (i = j)) as [->|]; [simplify_eq; lia|].
    apply rank_le. eapply StronglySorted_lookup; [done..|lia]. }
  unfold rank_between in *. destruct (Nat.eqb_spec index 0) as [->|Hi0].
  - simpl in *. split; [lia|]. intros j y Hy _. pose proof (lookup_lt_Some _ _ _ Hy).
    destruct (length others) as [|n] eqn:Hn; [lia|].
    destruct (lookup_lt_is_Some_2 others 0) as [x Hx]; [lia|]. rewrite Hx in *. simpl.
    pose proof (Hmono 0 j x y Hx Hy ltac:(lia)). unfold RANK_STRIDE. lia.
  - destruct (lookup_lt_is_Some_2 others (index - 1)) as [x Hx]; [lia|]. rewrite Hx in *. simpl in *.
    destruct (Nat.eqb_spec index (length others)) as [->|Hne].
    + simpl in *. split.
      * intros j y Hy Hj. pose proof (Hmono j _ y x Hy Hx ltac:(lia)). unfold RANK_STRIDE. lia.
      * intros j y Hy Hj. apply lookup_lt_Some in Hy. lia.
    + destruct (lookup_lt_is_Some_2 others index) as [z Hz]; [lia|]. rewrite Hz in *. simpl in *.
      destruct (Z.leb_spec 2 (qm_rank z - qm_rank x)); [|done].
      pose proof (Z.quot_lt (qm_rank z - qm_rank x) 2 ltac:(lia) ltac:(lia)).
      assert (1 <= Z.quot (qm_rank z - qm_rank x) 2)%Z by (apply Z.quot_le_lower_bound; lia).
      split; intros j y Hy Hj.
      * pose proof (Hmono j _ y x Hy Hx ltac:(lia)). lia.
      * pose proof (Hmono _ j z y Hz Hy ltac:(lia)). lia.
Qed.

Lemma insertion_place_bound org ws t others anchor s index :
  insertion_place org ws t others anchor s = inr index → index <= length others.
Proof.
  unfold insertion_place. intros H. destruct anchor as [kind id v|extra|k]; [|case_match; simplify_eq; lia|done].
  destruct (jm_get _ _) as [n|]; [|done]. destruct (neighbor_index id others) as [i|] eqn:Hi; [|done].
  apply find_index_Some in Hi as (x & Hx & _). apply lookup_lt_Some in Hx.
  repeat case_match; simplify_eq; lia.
Qed.

End queue_order.

(** * Ranks of reachable boards, and the effect of a reordering *)

Lemma StronglySorted_of_lookup {A} (R : relation A) l :
  (∀ i j x y, l !! i = Some x → l !! j = Some y → i < j → R x y) → StronglySorted R l.
Proof.
  induction l as [|x l IH]; intros H; [constructor|]. constructor.
  - apply IH. intros i j y z Hy Hz Hij. apply (H (S i) (S j)); [done..|lia].
  - apply Forall_forall. intros y [j Hj]%list_elem_of_lookup. apply (H 0 (S j)); [done..|lia].
Qed.

Section queue_ranks.
Context {RT : NodeRuntime} {LO : LocaleOrder}.

Lemma elem_of_queue_ids org ws s i :
  no_colon org = true → no_colon ws = true → members_keyed (todoQueueMemberships s) →
  i ∈ queue_ids (todo_queue org ws s) ↔ jm_has (key org ws i) (todoQueueMemberships s) = true.
Proof.
  intros Ho Hw Hk. unfold queue_ids. rewrite list_elem_of_fmap, jm_has_get. split.
  - intros (m & -> & Hm%elem_of_queue); [|done..]. by eexists.
  - intros [m Hm]. destruct (proj2 Hk _ _ Hm) as (o & w & Heq & Ho' & Hw').
    apply key_inj in Heq as (<- & <- & ->); [|done..]. exists m. split; [done|]. by apply elem_of_queue.
Qed.

Section reordering.
Variables (e : CommandEnvelope) (s : PlanningStore).
Hypothesis (Ht : tenant_ok e) (Hk : members_keyed (todoQueueMemberships s)).

Abbreviation org := (env_organizationId e).
Abbreviation ws := (env_workspaceId e).
Abbreviation queue := (todo_queue org ws s).

Lemma in_queue_ids i :
  i ∈ queue_ids queue ↔ jm_has (key org ws i) (todoQueueMemberships s) = true.
Proof. by destruct Ht; apply elem_of_queue_ids. Qed.

Lemma queue_ids_others id : queue_ids (others_of id queue) = filter (λ i, i ≠ id) (queue_ids queue).
Proof.
  unfold queue_ids, others_of. induction queue as [|m q IH]; [done|].
  rewrite filter_cons. csimpl. rewrite filter_cons. by repeat case_decide; csimpl; rewrite IH.
Qed.

Lemma ordered_ids_spec id index :
  is_Some (find_member e id s) →
  let ids := ordered_ids index id (others_of id queue) in
  NoDup ids ∧ ∀ i, i ∈ ids ↔ jm_has (key org ws i) (todoQueueMemberships s) = true.
Proof.
  intros Hm ids. destruct Ht as [Ho Hw]. split.
  - unfold ids, ordered_ids. rewrite insert_at_Permutation, queue_ids_others. apply NoDup_cons.
    split; [rewrite list_elem_of_filter; naive_solver|]. apply NoDup_filter, queue_ids_NoDup; done.
  - intros i. unfold ids, ordered_ids. rewrite elem_of_insert_at, queue_ids_others, list_elem_of_filter, in_queue_ids.
    destruct (decide (i = id)) as [->|]; [|naive_solver]. apply jm_has_get in Hm. naive_solver.
Qed.

(** The memberships a rebalancing gives, in the order of the list. *)
Definition rebalanced (ids : list string) : list TodoQueueMembershipRow :=
  imap (λ j i, mkMembership i ((Z.of_nat j + 2) * RANK_STRIDE)) ids.

Lemma rebalanced_ids ids : queue_ids (rebalanced ids) = ids.
Proof.
  apply list_eq. intros j. unfold queue_ids, rebalanced. rewrite list_lookup_fmap, list_lookup_imap.
  by destruct (ids !! j).
Qed.

Lemma rebalanced_sorted ids : StronglySorted membership_le (rebalanced ids).
Proof.
  apply StronglySorted_of_lookup. unfold rebalanced. intros i j x y Hx Hy Hij.
  rewrite list_lookup_imap in Hx, Hy. apply fmap_Some in Hx as (a & _ & ->), Hy as (b & _ & ->).
  left. simpl. unfold RANK_STRIDE. lia.
Qed.

Lemma rebalanced_queue ids :
  NoDup ids → (∀ i, i ∈ ids ↔ jm_has (key org ws i) (todoQueueMemberships s) = true) →
  todo_queue org ws (rebalance e ids s) = rebalanced ids.
Proof.
  intros Hnd Hids. destruct Ht as [Ho Hw]. apply todo_queue_unique; try done.
  - by apply members_keyed_rebalance.
  - apply (NoDup_fmap_1 qm_devTicketId). fold (queue_ids (rebalanced ids)). by rewrite rebalanced_ids.
  - apply rebalanced_sorted.
  - intros m. unfold rebalanced. simpl. split.
    + intros [j Hj]%list_elem_of_lookup. rewrite list_lookup_imap in Hj.
      apply fmap_Some in Hj as (i & Hi & ->). simpl.
      rewrite (rebalance_from_get _ _ Ho Hw 0 ids _ j); [done..|]. by apply Hids, list_elem_of_lookup_2 with j.
    + intros Hget. assert (qm_devTicketId m ∈ ids) as [j Hj]%list_elem_of_lookup.
      { apply Hids. rewrite <-(rebalance_from_has _ 0 org ws ids). unfold jm_has. by rewrite Hget. }
      rewrite (rebalance_from_get _ _ Ho Hw 0 ids _ j) in Hget; [|done..|by apply Hids, list_elem_of_lookup_2 with j].
      apply list_elem_of_lookup. exists j. rewrite list_lookup_imap, Hj. simplify_eq. simpl.
      by destruct m; simplify_eq/=.
Qed.

(** One rank written between its neighbours puts the ticket between them. *)
Lemma placed_queue id index :
  let others := others_of id queue in
  let rank := rank_between index others in
  index <= length others → rank_out_of_range rank = false →
  todo_queue org ws (put_member e id rank s) = insert_at index (mkMembership id rank) others.
Proof.
  intros others rank Hlen Hr. destruct Ht as [Ho Hw].
  assert (StronglySorted membership_le others) as Hsort
    by (apply StronglySorted_filter, todo_queue_sorted).
  destruct (rank_between_spec _ _ Hsort Hlen Hr) as [Hlow Hup].
  assert (∀ m, m ∈ others ↔ qm_devTicketId m ≠ id ∧
            jm_get (key org ws (qm_devTicketId m)) (todoQueueMemberships s) = Some m) as Hin.
  { intros m. unfold others, others_of. rewrite list_elem_of_filter. by rewrite elem_of_queue. }
  apply todo_queue_unique; try done.
  - by apply members_keyed_set.
  - rewrite insert_at_Permutation. apply NoDup_cons. split.
    + rewrite Hin. simpl. naive_solver.
    + apply NoDup_filter. unfold todo_queue. rewrite merge_sort_Permutation. by apply queue_members_NoDup.
  - apply StronglySorted_insert_at; [done|..]; intros j y Hy Hj; left; simpl; [by eapply Hlow|by eapply Hup].
  - intros m. rewrite elem_of_insert_at, Hin. simpl. rewrite jm_get_set.
    destruct (String.eqb_spec (key org ws (qm_devTicketId m)) (key org ws id)) as [Heq|Hne].
    + apply key_id_inj in Heq; [|done..]. split; [by intros [->|[??]]|]. intros [= <-]. by left.
    + split; [intros [->|[_ ?]]; [done|done]|]. intros Hget. right. split; [|done]. intros Heq. by rewrite Heq in Hne.
Qed.

(** The queue after a reordering, whichever way it was written. *)
Lemma reordered_queue id index :
  let others := others_of id queue in
  is_Some (find_member e id s) → index <= length others →
  queue_ids (todo_queue org ws (reordered e id index others s)) = ordered_ids index id others.
Proof.
  intros others Hm Hlen. unfold reordered. set (rank := rank_between index others).
  destruct (rank_out_of_range rank) eqn:Hr.
  - destruct (ordered_ids_spec id index Hm) as [Hnd Hids].
    change (todo_queue org ws _) with (todo_queue org ws (rebalance e (ordered_ids index id others) s)).
    by rewrite rebalanced_queue, rebalanced_ids.
  - change (todo_queue org ws _) with (todo_queue org ws (put_member e id rank s)).
    unfold rank. rewrite placed_queue by done. unfold ordered_ids, insert_at, queue_ids.
    by rewrite fmap_app, fmap_cons, fmap_take, fmap_drop.
Qed.

End reordering.

(** ** The invariant *)

Section rank_effects.
Variables (e : CommandEnvelope) (s : PlanningStore).
Hypothesis (Ht : tenant_ok e) (Hk : keyed s) (Hs : ranks_ok s).

Abbreviation org := (env_organizationId e).
Abbreviation ws := (env_workspaceId e).
Abbreviation queue := (todo_queue org ws s).

Lemma own_ranks : ranks_at org ws (todoQueueMemberships s).
Proof. destruct Ht. by apply Hs. Qed.

Lemma queue_positive m : m ∈ queue → (0 < qm_rank m)%Z.
Proof.
  destruct Ht. intros Hm%elem_of_queue; [|done..|apply Hk]. by apply (proj1 own_ranks) in Hm as [? _].
Qed.

Lemma ranks_ok_rebalance ids :
  NoDup ids → (∀ i, i ∈ ids ↔ jm_has (key org ws i) (todoQueueMemberships s) = true) →
  ((Z.of_nat (length ids) + 1) * RANK_STRIDE <= POSTGRES_BIGINT_MAX)%Z →
  ranks_ok (rebalance e ids s).
Proof.
  intros Hnd Hids Hcap. apply (ranks_ok_tenant e); [done|done| |destruct Ht; by apply ranks_at_rebalance].
  intros o w i Hne Ho Hw. apply rebalance_from_other; [by destruct Ht..|]. intros j _. by apply other_tenant_key.
Qed.

Lemma ranks_ok_put_member id rank :
  (0 < rank <= POSTGRES_BIGINT_MAX)%Z →
  (∀ j x, j ≠ id → jm_get (key org ws j) (todoQueueMemberships s) = Some x → qm_rank x ≠ rank) →
  ranks_ok (put_member e id rank s).
Proof.
  intros Hr Hne. apply (ranks_ok_tenant e); [done|done| |destruct Ht; apply ranks_at_set; [done..|apply own_ranks|done|done]].
  intros o w i Ho Hoo How. apply jm_get_set_ne. by apply other_tenant_key.
Qed.

(** A ticket appended to the queue. *)
Lemma ranks_ok_append id rank :
  append_rank queue = Some (rank, false) → ranks_ok (put_member e id rank s).
Proof.
  intros Hr. destruct (append_rank_range _ _ _ queue_positive Hr) as [Hrange _].
  apply ranks_ok_put_member; [done|]. intros j x _ Hx.
  assert (x ∈ queue) as Hin.
  { destruct Ht as [Ho Hw]. apply elem_of_queue; [done..|apply Hk|].
    destruct (proj2 (keyed_members _ Hk) _ _ Hx) as (o & w & Heq & ? & ?).
    by apply key_inj in Heq as (_ & _ & ->). }
  pose proof (append_rank_fresh _ _ x (todo_queue_sorted _ _ s) Hr Hin). lia.
Qed.

(** A ticket moved inside the queue. *)
Lemma ranks_ok_reordered id index :
  is_Some (find_member e id s) → index <= length (others_of id queue) →
  (rank_out_of_range (rank_between index (others_of id queue)) = true →
   capacity_exhausted (ordered_ids index id (others_of id queue)) = false) →
  ranks_ok (reordered e id index (others_of id queue) s).
Proof.
  intros Hm Hlen Hcap. unfold reordered. destruct (rank_out_of_range _) eqn:Hr.
  - destruct (ordered_ids_spec e s Ht (keyed_members _ Hk) id index Hm) as [Hnd Hids].
    apply (ranks_ok_rebalance _ Hnd Hids). specialize (Hcap eq_refl). unfold capacity_exhausted in Hcap.
    by apply Z.ltb_ge in Hcap.
  - destruct (rank_between_spec _ _ (StronglySorted_filter _ _ _ (todo_queue_sorted _ _ s)) Hlen Hr) as [Hlow Hup].
    apply ranks_ok_put_member.
    + unfold rank_out_of_range in Hr. bool_hyps. lia.
    + intros j x Hj Hx. destruct Ht as [Ho Hw].
      assert (qm_devTicketId x = j) as Hid.
      { destruct (proj2 (keyed_members _ Hk) _ _ Hx) as (o & w & Heq & ? & ?).
        apply key_inj in Heq as (_ & _ & ->); done. }
      assert (x ∈ others_of id queue) as [i Hi]%list_elem_of_lookup.
      { unfold others_of. rewrite list_elem_of_filter, Hid, (elem_of_queue _ _ Ho Hw), Hid; [done|apply Hk]. }
      fold (others_of id queue) in Hlow, Hup.
      destruct (Nat.lt_ge_cases i index) as [Hlt|Hge]; [specialize (Hlow i x Hi Hlt)|specialize (Hup i x Hi Hge)]; lia.
Qed.

End rank_effects.

(** Appending behind a rebalanced queue. *)
Lemma ranks_ok_append_rebalanced e s id rank :
  tenant_ok e → keyed s → ranks_ok s →
  let queue := todo_queue (env_organizationId e) (env_workspaceId e) s in
  append_rank queue = Some (rank, true) →
  ranks_ok (put_member e id rank (rebalance e (queue_ids queue) s)).
Proof.
  intros Ht Hk Hs queue Hr. subst queue. set (queue := todo_queue _ _ _) in *.
  destruct (append_rank_range _ _ _ (queue_positive e s Ht Hk Hs) Hr) as [Hrange Heq].
  fold queue in Heq. specialize (Heq eq_refl).
  pose proof (in_queue_ids e s Ht (keyed_members _ Hk)) as Hids.
  assert (NoDup (queue_ids queue)) as Hnd by (destruct Ht; apply queue_ids_NoDup; [done..|apply Hk]).
  assert (length (queue_ids queue) = length queue) as Hlen by apply length_fmap.
  assert (ranks_ok (rebalance e (queue_ids queue) s)) as Hs'.
  { apply ranks_ok_rebalance; [done..|]. rewrite Hlen. unfold RANK_STRIDE in *. lia. }
  apply ranks_ok_put_member; [done..|]. intros j x _ Hx. destruct Ht as [Ho Hw].
  assert (j ∈ queue_ids queue) as [i Hi]%list_elem_of_lookup.
  { apply Hids. rewrite <-(rebalance_from_has _ 0 (env_organizationId e) (env_workspaceId e) (queue_ids queue)).
    simpl in Hx. unfold jm_has. by rewrite Hx. }
  simpl in Hx. rewrite (rebalance_from_get _ _ Ho Hw 0 _ _ i) in Hx;
    [|done..|by apply Hids, list_elem_of_lookup_2 with i].
  apply lookup_lt_Some in Hi. simplify_eq. simpl. unfold RANK_STRIDE. lia.
Qed.

Lemma ranks_ok_leave e t s : ranks_ok s → ranks_ok (leave_queue e t s).
Proof.
  intros Hs o w Ho Hw. simpl. case_match; [by apply ranks_at_delete, Hs|by apply Hs].
Qed.

Lemma ranks_ok_realias e h ticket s : ranks_ok s → ranks_ok (realias e h ticket s).
Proof. intros Hs. unfold realias. by case_match. Qed.

Lemma ranks_ok_imported e input source disposition digest id epoch now s :
  ranks_ok s → ranks_ok (imported e input source disposition digest id epoch now s).
Proof. intros Hs. unfold imported. by case_match. Qed.

#[export] Instance ranks_ok_invariant : BoardInvariant unconditional ranks_ok.
Proof.
  split.
  - intros s (_ & _ & _ & _ & Hm & _) o w Ho Hw. rewrite Hm. by split.
  - intros s s' [] Hs o w. replace (todoQueueMemberships s') with (todoQueueMemberships s). apply Hs.
  - by intros e s s' [|].
  - intros e c res s s' Hk Ht Heff _ Hs. destruct Heff; try exact Hs; subst_lets.
    + by apply ranks_ok_leave.
    + destruct balance.
      * exact (ranks_ok_append_rebalanced e s (dt_id t) rank Ht Hk Hs ltac:(done)).
      * exact (ranks_ok_append e s Ht Hk Hs (dt_id t) rank ltac:(done)).
    + apply (ranks_ok_reordered e s Ht Hk Hs); [done| |done]. by eapply insertion_place_bound.
    + by apply ranks_ok_leave.
    + by apply ranks_ok_leave.
    + by apply ranks_ok_imported.
    + by apply ranks_ok_realias.
    + by apply ranks_ok_realias.
Qed.

(** ** The queue as it is read *)

(** Distinct ranks make the order strict. *)
Lemma ranked_queue_sorted org ws s :
  no_colon org = true → no_colon ws = true → members_keyed (todoQueueMemberships s) →
  ranks_at org ws (todoQueueMemberships s) →
  StronglySorted (λ a b, (qm_rank a < qm_rank b)%Z) (todo_queue org ws s).
Proof.
  intros Ho Hw Hk [_ Hinj]. apply StronglySorted_of_lookup. intros i j x y Hx Hy Hij.
  pose proof (StronglySorted_lookup _ _ _ _ _ _ (todo_queue_sorted org ws s) Hx Hy Hij) as Hle%rank_le.
  assert (qm_rank x ≠ qm_rank y); [|lia]. intros Heq.
  pose proof (list_elem_of_lookup_2 _ _ _ Hx) as Gx%elem_of_queue; [|done..].
  pose proof (list_elem_of_lookup_2 _ _ _ Hy) as Gy%elem_of_queue; [|done..].
  pose proof (Hinj _ _ _ _ Gx Gy Heq) as Hid.
  pose proof (queue_ids_NoDup org ws Ho Hw s Hk) as Hnd.
  assert (i = j); [|lia].
  eapply (NoDup_lookup (queue_ids (todo_queue org ws s))); [done|..];
    unfold queue_ids; rewrite list_lookup_fmap, ?Hx, ?Hy; simpl; [done|by rewrite Hid].
Qed.

End queue_ranks.
