(* ===== verification/ProposalInvariant.v ===== *)
(** * The dependency graph and the proposals of reachable boards

    The active edges of a workspace form an acyclic graph, no pair of tickets is
    joined by two active edges, the endpoints of an edge are tickets of the same
    workspace, and the blocker of an active edge is not archived.  An accepted
    proposal, and no other, names the ticket it became; the ticket exists and names
    the proposal as its source; the tickets that name a source are exactly those. *)
From S2P Require Import Prelude JsMap JsString JsValue SharedKernel Effects DevBoardDomain.
From S2P Require Import TenantContext Receipts Ledger PlanningRows PlanningStore DependencyGraph.
From S2P Require Import CommandBase ProposalCommands TicketCommands QueueCommands.
From S2P Require Import DependencyCommands LegacyCommands StoreRules Board Reachability.
From S2P Require Import TicketInvariant QueueInvariant.

(** ** The graph *)

(** The keys of the endpoints of an edge, in the tickets of its workspace. *)
Definition dependent_key (d : DependencyEdgeRow) : string :=
  key (ed_organizationId d) (ed_workspaceId d) (ed_dependentDevTicketId d).
Definition blocker_key (d : DependencyEdgeRow) : string :=
  key (ed_organizationId d) (ed_workspaceId d) (ed_blockerDevTicketId d).

Definition active (d : DependencyEdgeRow) : Prop := ed_lifecycleState d = EActive.

(** Two edges between the same tickets of the same workspace. *)
Definition same_endpoints (d d' : DependencyEdgeRow) : Prop :=
  ed_organizationId d = ed_organizationId d' ∧ ed_workspaceId d = ed_workspaceId d' ∧
  ed_dependentDevTicketId d = ed_dependentDevTicketId d' ∧ ed_blockerDevTicketId d = ed_blockerDevTicketId d'.

Record graph_ok (s : PlanningStore) : Prop := {
  graph_acyclic org ws : acyclic org ws (jm_values (dependencyEdges s));
  graph_unique d d' :
    d ∈ jm_values (dependencyEdges s) → d' ∈ jm_values (dependencyEdges s) →
    active d → active d' → same_endpoints d d' → d = d';
  graph_endpoints d :
    d ∈ jm_values (dependencyEdges s) →
    jm_has (dependent_key d) (devTickets s) = true ∧ jm_has (blocker_key d) (devTickets s) = true;
  graph_blockers d t :
    d ∈ jm_values (dependencyEdges s) → active d →
    jm_get (blocker_key d) (devTickets s) = Some t → dt_archivedAt t = None;
}.

Lemma edge_in_active org ws d :
  edge_in org ws d = true ↔ ed_organizationId d = org ∧ ed_workspaceId d = ws ∧ active d.
Proof. unfold edge_in, active. rewrite !andb_true_iff, bool_decide_eq_true, !String.eqb_eq. tauto. Qed.

Lemma edge_from_active org ws a d :
  edge_from org ws a d = true ↔
  ed_organizationId d = org ∧ ed_workspaceId d = ws ∧ active d ∧ ed_dependentDevTicketId d = a.
Proof. unfold edge_from. rewrite andb_true_iff, edge_in_active, String.eqb_eq. tauto. Qed.

(** ** Writes of tickets *)

Lemma graph_ok_put_ticket t s :
  graph_ok s →
  (∀ d, d ∈ jm_values (dependencyEdges s) → active d → blocker_key d = ticket_key t → dt_archivedAt t = None) →
  graph_ok (put_ticket t s).
Proof.
  intros [Hac Hun Hend Hbl] Ht. split; simpl; [done|done|..].
  - intros d Hd. rewrite !jm_has_set. destruct (Hend d Hd) as [-> ->]. by rewrite !orb_true_r.
  - intros d t' Hd Ha [[Hk ->]|[_ Hget]]%jm_get_set_Some; [by eapply Ht|by eapply Hbl].
Qed.

(** A row that keeps its archive overlay, or drops it. *)
Lemma graph_ok_update t t' s :
  graph_ok s → jm_get (ticket_key t) (devTickets s) = Some t → ticket_key t' = ticket_key t →
  (dt_archivedAt t = None → dt_archivedAt t' = None) → graph_ok (put_ticket t' s).
Proof.
  intros Hg Hget Hkey Harch. apply graph_ok_put_ticket; [done|]. intros d Hd Ha Hk.
  apply Harch. eapply graph_blockers; [done..|]. by rewrite Hk, Hkey.
Qed.

Lemma graph_ok_new t s : graph_ok s → dt_archivedAt t = None → graph_ok (put_ticket t s).
Proof. intros Hg Ht. by apply graph_ok_put_ticket. Qed.

(** ** Writes of edges *)

Lemma active_edge_none org ws a b s :
  active_edge org ws a b s = None ↔
  ∀ d, d ∈ jm_values (dependencyEdges s) → active d → ed_organizationId d = org → ed_workspaceId d = ws →
       ed_dependentDevTicketId d = a → ed_blockerDevTicketId d ≠ b.
Proof.
  unfold active_edge. split.
  - intros Hf d Hd Ha Ho Hw Hdep Hb. pose proof (find_none _ _ Hf d (proj1 (list_elem_of_In _ _) Hd)) as Hno.
    simpl in Hno.
    apply andb_false_iff in Hno as [Hno|Hno]; [|by apply String.eqb_neq in Hno].
    apply not_true_iff_false in Hno. apply Hno. by apply edge_from_active.
  - intros H. destruct (find _ _) as [d|] eqn:Hf; [|done]. exfalso.
    apply find_some in Hf as [Hd [(? & ? & ? & ?)%edge_from_active Hb%String.eqb_eq]%andb_true_iff].
    by eapply (H d); [apply list_elem_of_In|..].
Qed.

Lemma graph_ok_add e d s :
  graph_ok s → active d →
  ed_organizationId d = env_organizationId e → ed_workspaceId d = env_workspaceId e →
  active_edge (env_organizationId e) (env_workspaceId e)
    (ed_dependentDevTicketId d) (ed_blockerDevTicketId d) s = None →
  dependency_creates_cycle (env_organizationId e) (env_workspaceId e)
    (ed_dependentDevTicketId d) (ed_blockerDevTicketId d) s = false →
  jm_has (dependent_key d) (devTickets s) = true →
  (∃ b, jm_get (blocker_key d) (devTickets s) = Some b ∧ dt_archivedAt b = None) →
  graph_ok (put_edge d s).
Proof.
  intros [Hac Hun Hend Hbl] Ha Ho Hw Hnone Hcyc Hdep (b & Hb & Hlive).
  rewrite active_edge_none in Hnone.
  assert (∀ d', d' ∈ jm_values (dependencyEdges (put_edge d s)) → d' = d ∨ d' ∈ jm_values (dependencyEdges s))
    as Hin by (intros d'; apply elem_of_jm_values_set).
  split.
  - intros org ws. destruct (decide (org = env_organizationId e ∧ ws = env_workspaceId e)) as [[-> ->]|Hne].
    + apply (acyclic_insert _ _ (jm_values (dependencyEdges s)) _ (ed_dependentDevTicketId d) (ed_blockerDevTicketId d));
        [|done|].
      * intros x y (d' & [->|Hd']%Hin & Hf & <-); [right; by apply edge_from_active in Hf as (_ & _ & _ & ->)|].
        left. by exists d'.
      * rewrite <-dependency_creates_cycle_spec. by rewrite Hcyc.
    + apply (acyclic_mono _ _ (jm_values (dependencyEdges s))); [|done].
      intros x y (d' & [->|Hd']%Hin & Hf & <-); [|by exists d'].
      apply edge_from_active in Hf as (<- & <- & _). destruct Hne. by split.
  - intros d1 d2 [->|H1]%Hin [->|H2]%Hin A1 A2 (E1 & E2 & E3 & E4); [done|..].
    + destruct (Hnone d2); congruence.
    + destruct (Hnone d1); congruence.
    + by apply Hun.
  - intros d' [->|H']%Hin; simpl; [|by apply Hend]. split; [done|]. by apply jm_has_get; eexists.
  - intros d' t [->|H']%Hin A' Ht; simpl in *; [congruence|by eapply Hbl].
Qed.

Lemma graph_ok_retire cmd d s :
  graph_ok s → d ∈ jm_values (dependencyEdges s) → graph_ok (put_edge (ed_retire cmd d) s).
Proof.
  intros [Hac Hun Hend Hbl] Hd.
  assert (∀ d', d' ∈ jm_values (dependencyEdges (put_edge (ed_retire cmd d) s)) →
          d' = ed_retire cmd d ∨ d' ∈ jm_values (dependencyEdges s)) as Hin by (intros d'; apply elem_of_jm_values_set).
  split.
  - intros org ws. apply (acyclic_mono _ _ (jm_values (dependencyEdges s))); [|done].
    intros x y (d' & [->|Hd']%Hin & Hf & <-); [|by exists d'].
    by apply edge_from_active in Hf as (_ & _ & ? & _).
  - intros d1 d2 [->|H1]%Hin [->|H2]%Hin A1 A2 Hs; [done..|by apply Hun].
  - intros d' [->|H']%Hin; [by apply (Hend d)|by apply Hend].
  - intros d' t [->|H']%Hin A' Ht; [done|by eapply Hbl].
Qed.

(** ** The invariant *)

Section graph_effects.
Context {RT : NodeRuntime}.

Lemma find_edge_value e id d s : find_edge e id s = Some d → d ∈ jm_values (dependencyEdges s).
Proof. apply jm_get_values. Qed.

(** The endpoints a command has found and admitted. *)
Lemma endpoints_not_archived dependent blocker :
  endpoints_failure dependent blocker = None → dt_archivedAt dependent = None ∧ dt_archivedAt blocker = None.
Proof.
  unfold endpoints_failure. simpl.
  destruct (dt_archivedAt dependent), (dt_archivedAt blocker); simpl; repeat case_bool_decide; naive_solver.
Qed.

Lemma no_blocker_edges org ws id s d :
  active_blocker_edges org ws id s = [] → d ∈ jm_values (dependencyEdges s) → active d →
  ed_organizationId d = org → ed_workspaceId d = ws → ed_blockerDevTicketId d ≠ id.
Proof.
  intros Hnone Hd Ha Ho Hw Hb. apply (not_elem_of_nil d). rewrite <-Hnone. unfold active_blocker_edges.
  apply list_elem_of_filter. split; [|done]. rewrite andb_true_iff, edge_in_active. split; [done|].
  by apply String.eqb_eq.
Qed.

(** An edge of another tenant has other keys. *)
Lemma blocker_key_tenant e d s id :
  keyed s → tenant_ok e → d ∈ jm_values (dependencyEdges s) →
  blocker_key d = key (env_organizationId e) (env_workspaceId e) id →
  ed_organizationId d = env_organizationId e ∧ ed_workspaceId d = env_workspaceId e ∧
  ed_blockerDevTicketId d = id.
Proof.
  intros Hk [Ho Hw] (k & Hget)%elem_of_jm_values; [|apply Hk]. intros Heq.
  destruct (proj2 (keyed_edges _ Hk) _ _ Hget) as [_ [??]]. by apply key_inj in Heq.
Qed.

Lemma graph_ok_leave e t t' s :
  graph_ok s → found_ticket e t s → ticket_key t' = ticket_key t →
  (dt_archivedAt t = None → dt_archivedAt t' = None) → graph_ok (put_ticket t' (leave_queue e t s)).
Proof.
  intros Hg Hf Hkey Harch. assert (graph_ok (leave_queue e t s)) as Hg' by (destruct Hg; by split).
  apply (graph_ok_update t); [done| |done..]. by eapply found_ticket_get.
Qed.

Lemma graph_ok_realias e h ticket s : graph_ok s → graph_ok (realias e h ticket s).
Proof. intros Hg. unfold realias. case_match; [|done]. destruct Hg; by split. Qed.

Lemma dependent_changed_archive t : dt_archivedAt (dependent_changed t) = dt_archivedAt t.
Proof. unfold dependent_changed. by case_bool_decide. Qed.

Lemma graph_ok_frame s s' :
  devTickets s' = devTickets s → dependencyEdges s' = dependencyEdges s → graph_ok s → graph_ok s'.
Proof. intros Ht Hd [Hac Hun Hend Hbl]. split; rewrite ?Ht, ?Hd; done. Qed.

#[export] Instance graph_ok_invariant : BoardInvariant unconditional graph_ok.
Proof.
  split.
  - intros s (_ & Ht & Hd & _). split; rewrite ?Hd; [|set_solver..].
    intros org ws a Htc. by inversion Htc as [? ? (x & Hx%elem_of_nil & _)|? ? ? (x & Hx%elem_of_nil & _)].
  - intros s s' [] Hs. by apply (graph_ok_frame s).
  - by intros e s s' [|]; [|apply graph_ok_frame].
  - intros e c res s s' Hk Ht Heff _ Hs. destruct Heff; try exact Hs; subst_lets;
      try (by apply (graph_ok_frame s));
      repeat match goal with
      | H : find_ticket e _ s = Some _ |- _ => apply find_ticket_found in H as [? ?]; [|done..]
      end.
    + by apply (graph_ok_frame (put_ticket (new_ticket (accepted_ticket_input e input p contract ticketId)) s));
        [..|apply graph_ok_new].
    + apply graph_ok_put_ticket; [apply (graph_ok_frame s); done|]. intros d Hd Ha Hb. exfalso.
      match goal with H : found_ticket e t s |- _ => rename H into Hf end.
      change (ticket_key _) with (ticket_key t) in Hb. rewrite (found_ticket_key _ _ _ Hf) in Hb.
      destruct (blocker_key_tenant e d s (dt_id t) Hk Ht Hd Hb) as (? & ? & ?).
      by eapply no_blocker_edges.
    + eapply (graph_ok_update t); [done|by eapply found_ticket_get|done..].
    + eapply (graph_ok_update t); [done|by eapply found_ticket_get|done..].
    + match goal with H : found_ticket e t s |- _ => rename H into Hf end.
      set (t' := approved_ticket _ _).
      apply (graph_ok_frame (put_ticket t' s)); [by destruct balance..|].
      eapply (graph_ok_update t); [done|by eapply found_ticket_get|done..].
    + eapply (graph_ok_update t); [by apply (graph_ok_frame s)|by eapply (found_ticket_get e t s)|done..].
    + match goal with H : endpoints_failure _ _ = None |- _ =>
        apply endpoints_not_archived in H as [Hdep Hblk] end.
      apply (graph_ok_leave e dependent _ (put_edge _ s));
        [|done|apply dependent_changed_key|by rewrite dependent_changed_archive].
      match goal with H : found_ticket e dependent s, H' : found_ticket e blocker s |- _ =>
        rename H into Hfd, H' into Hfb end.
      repeat match goal with H : dt_id ?t = _ |- _ => rewrite <-H in *; clear H end.
      apply (graph_ok_add e); try done.
      * apply jm_has_get. exists dependent. apply Hfd.
      * exists blocker. split; [apply Hfb|done].
    + apply (graph_ok_leave e dependent _ (put_edge _ s));
        [|done|apply dependent_changed_key|by rewrite dependent_changed_archive].
      apply graph_ok_retire; [done|]. by eapply find_edge_value.
    + unfold imported. destruct (imported_ticket e input source disposition) as [t|] eqn:Hi.
      * apply (graph_ok_frame (put_ticket t s)); [done..|]. unfold imported_ticket in Hi.
        case_bool_decide; simplify_eq. by apply graph_ok_new.
      * by apply (graph_ok_frame s).
    + apply graph_ok_realias, (graph_ok_frame (put_ticket (promoted_ticket e source input) s)); [done..|].
      by apply graph_ok_new.
    + by apply graph_ok_realias, (graph_ok_frame s).
Qed.

End graph_effects.

Record proposal_ok (p : ProposalRow) : Prop := {
  proposal_versions : (1 <= pr_version p)%Z;
  proposal_accepted : pr_lifecycleState p = PAccepted ↔ is_Some (pr_acceptedDevTicketId p);
  proposal_command : is_Some (pr_acceptedCommandId p) ↔ is_Some (pr_acceptedDevTicketId p);
  proposal_archive :
    is_Some (pr_archivedAt p) ↔ is_Some (pr_archivedByUserId p) ∧ is_Some (pr_archivedReason p);
}.

(** The key of a row of the proposal's tenant. *)
Definition beside_proposal (p : ProposalRow) (id : string) : string :=
  key (pr_organizationId p) (pr_workspaceId p) id.
Definition beside_ticket (t : DevTicketRow) (id : string) : string :=
  key (dt_organizationId t) (dt_workspaceId t) id.

Record provenance (s : PlanningStore) : Prop := {
  prov_ok k p : jm_get k (proposals s) = Some p → proposal_ok p;
  prov_ticket k p id :
    jm_get k (proposals s) = Some p → pr_acceptedDevTicketId p = Some id →
    ∃ t, jm_get (beside_proposal p id) (devTickets s) = Some t ∧ dt_sourceProposalId t = Some (pr_id p);
  prov_source k t id :
    jm_get k (devTickets s) = Some t → dt_sourceProposalId t = Some id →
    ∃ p, jm_get (beside_ticket t id) (proposals s) = Some p ∧ pr_acceptedDevTicketId p = Some (dt_id t);
}.

(** ** Writes *)

Lemma provenance_frame s s' :
  proposals s' = proposals s → devTickets s' = devTickets s → provenance s → provenance s'.
Proof. intros Hp Ht []. split; intros *; rewrite ?Hp, ?Ht; eauto. Qed.

Lemma provenance_new_proposal p s :
  provenance s → jm_get (proposal_key p) (proposals s) = None →
  proposal_ok p → pr_acceptedDevTicketId p = None → provenance (put_proposal p s).
Proof.
  intros [Hok Ht Hs] Hnew Hp Hnone. split; simpl.
  - intros k p' [[_ ->]|[_ H]]%jm_get_set_Some; eauto.
  - intros k p' id [[_ ->]|[_ H]]%jm_get_set_Some; [congruence|eauto].
  - intros k t id Hget Hsrc. destruct (Hs _ _ _ Hget Hsrc) as (p' & Hp' & Hacc).
    exists p'. split; [|done]. rewrite jm_get_set_ne; [done|]. intros Heq. congruence.
Qed.

Lemma provenance_put_proposal p p' s :
  provenance s → jm_get (proposal_key p) (proposals s) = Some p → proposal_key p' = proposal_key p →
  beside_proposal p' = beside_proposal p → pr_id p' = pr_id p →
  pr_acceptedDevTicketId p' = pr_acceptedDevTicketId p → proposal_ok p' → provenance (put_proposal p' s).
Proof.
  intros [Hok Ht Hs] Hp Hkey Hbeside Hid Hacc Hp'. split; simpl.
  - intros k q [[_ ->]|[_ H]]%jm_get_set_Some; eauto.
  - intros k q id [[_ ->]|[_ H]]%jm_get_set_Some; [|eauto]. rewrite Hacc, Hbeside, Hid. eauto.
  - intros k t id Hget Hsrc. destruct (Hs _ _ _ Hget Hsrc) as (q & Hq & Hqa). rewrite jm_get_set.
    destruct (String.eqb_spec (beside_ticket t id) (proposal_key p')) as [Heq|]; [|by exists q].
    exists p'. split; [done|]. rewrite Hacc. congruence.
Qed.

Lemma provenance_put_ticket t t' s :
  provenance s → jm_get (ticket_key t) (devTickets s) = Some t → ticket_key t' = ticket_key t →
  beside_ticket t' = beside_ticket t → dt_id t' = dt_id t → dt_sourceProposalId t' = dt_sourceProposalId t →
  provenance (put_ticket t' s).
Proof.
  intros [Hok Ht Hs] Hget Hkey Hbeside Hid Hsrc. split; simpl; [done|..].
  - intros k p id Hp Hacc. destruct (Ht _ _ _ Hp Hacc) as (u & Hu & Hus). rewrite jm_get_set.
    destruct (String.eqb_spec (beside_proposal p id) (ticket_key t')) as [Heq|]; [|by exists u].
    exists t'. split; [done|]. rewrite Hsrc. congruence.
  - intros k u id [[_ ->]|[_ H]]%jm_get_set_Some; [|eauto]. rewrite Hsrc, Hbeside, Hid. eauto.
Qed.

Lemma provenance_new_ticket t s :
  provenance s → jm_get (ticket_key t) (devTickets s) = None → dt_sourceProposalId t = None →
  provenance (put_ticket t s).
Proof.
  intros [Hok Ht Hs] Hnew Hnone. split; simpl; [done|..].
  - intros k p id Hp Hacc. destruct (Ht _ _ _ Hp Hacc) as (u & Hu & Hus). exists u. split; [|done].
    rewrite jm_get_set_ne; [done|]. intros Heq. congruence.
  - intros k u id [[_ ->]|[_ H]]%jm_get_set_Some; [congruence|eauto].
Qed.

(** The acceptance writes both sides of the link. *)
Lemma provenance_accept p p' t s :
  provenance s → jm_get (proposal_key p) (proposals s) = Some p → pr_acceptedDevTicketId p = None →
  jm_get (ticket_key t) (devTickets s) = None →
  proposal_key p' = proposal_key p → pr_id p' = pr_id p → proposal_ok p' →
  dt_sourceProposalId t = Some (pr_id p) → pr_acceptedDevTicketId p' = Some (dt_id t) →
  beside_proposal p' (dt_id t) = ticket_key t → beside_ticket t (pr_id p) = proposal_key p →
  provenance (put_proposal p' (put_ticket t s)).
Proof.
  intros [Hok Ht Hs] Hp Hnone Hnew Hkey Hid Hok' Hsrc Hacc Hb1 Hb2. split; simpl.
  - intros k q [[_ ->]|[_ H]]%jm_get_set_Some; eauto.
  - intros k q id [[_ ->]|[_ H]]%jm_get_set_Some Hq.
    + assert (id = dt_id t) as -> by congruence. exists t. by rewrite Hb1, jm_get_set_eq, Hid.
    + destruct (Ht _ _ _ H Hq) as (u & Hu & Hus). exists u. split; [|done].
      rewrite jm_get_set_ne; [done|]. intros Heq. congruence.
  - intros k u id [[_ ->]|[_ H]]%jm_get_set_Some Hu.
    + assert (id = pr_id p) as -> by congruence. exists p'. by rewrite Hb2, Hkey, jm_get_set_eq.
    + destruct (Hs _ _ _ H Hu) as (q & Hq & Hqa). exists q. split; [|done].
      rewrite jm_get_set_ne; [done|]. rewrite Hkey. intros Heq. congruence.
Qed.

(** ** Rows after a decision and an overlay *)

Lemma decided_ok state p :
  proposal_ok p → pr_lifecycleState p ≠ PAccepted → state ≠ PAccepted → proposal_ok (decided state None None p).
Proof.
  intros [Hv Ha Hc Harch] Hp Hs. split; simpl; [lia| |done|done].
  split; [done|]. by intros [].
Qed.

Lemma decided_accepted_ok cmd id p : proposal_ok p → proposal_ok (decided PAccepted (Some cmd) (Some id) p).
Proof. intros [Hv Ha Hc Harch]. by split; simpl; [lia|..]. Qed.

Lemma overlaid_ok at_ by_ reason p :
  proposal_ok p → (is_Some at_ ↔ is_Some by_ ∧ is_Some reason) → proposal_ok (overlaid at_ by_ reason p).
Proof. intros [Hv Ha Hc Harch] H. by split; simpl; [lia|..]. Qed.

Lemma not_accepted p : proposal_ok p → pr_lifecycleState p ≠ PAccepted → pr_acceptedDevTicketId p = None.
Proof. intros [_ Ha _ _] Hp. apply eq_None_not_Some. by rewrite <-Ha. Qed.

Lemma awaiting_state p : awaiting p = true → pr_lifecycleState p = PAwaitingDecision ∧ pr_archivedAt p = None.
Proof.
  unfold awaiting. intros [H%bool_decide_eq_true ?]%andb_true_iff. by destruct (pr_archivedAt p).
Qed.

Lemma found_proposal_get e p s : found_proposal e p s → jm_get (proposal_key p) (proposals s) = Some p.
Proof. intros (H & Ho & Hw). unfold own_key. rewrite Ho, Hw. exact H. Qed.

Section proposal_effects.
Context {RT : NodeRuntime}.

Lemma provenance_update e p p' s :
  provenance s → found_proposal e p s → proposal_ok p' → pr_id p' = pr_id p →
  pr_organizationId p' = pr_organizationId p → pr_workspaceId p' = pr_workspaceId p →
  pr_acceptedDevTicketId p' = pr_acceptedDevTicketId p → provenance (put_proposal p' s).
Proof.
  intros Hs Hf Hok Hid Ho Hw Hacc. eapply (provenance_put_proposal p); try done.
  - by eapply found_proposal_get.
  - unfold own_key. by rewrite Hid, Ho, Hw.
  - unfold beside_proposal. by rewrite Ho, Hw.
Qed.

Lemma provenance_update_ticket e t t' s :
  provenance s → found_ticket e t s → dt_id t' = dt_id t → dt_organizationId t' = dt_organizationId t →
  dt_workspaceId t' = dt_workspaceId t → dt_sourceProposalId t' = dt_sourceProposalId t →
  provenance (put_ticket t' s).
Proof.
  intros Hs Hf Hid Ho Hw Hsrc. eapply (provenance_put_ticket t); try done.
  - by eapply found_ticket_get.
  - unfold own_key. by rewrite Hid, Ho, Hw.
  - unfold beside_ticket. by rewrite Ho, Hw.
Qed.

Lemma provenance_promote e source input s :
  provenance s → find_ticket e (lt_id source) s = None → provenance (put_ticket (promoted_ticket e source input) s).
Proof. intros Hs Hf. by apply provenance_new_ticket. Qed.

Lemma provenance_realias e h ticket s : provenance s → provenance (realias e h ticket s).
Proof. intros Hs. unfold realias. case_match; [by apply (provenance_frame s)|done]. Qed.

Lemma dependent_changed_fields t :
  dt_id (dependent_changed t) = dt_id t ∧ dt_organizationId (dependent_changed t) = dt_organizationId t ∧
  dt_workspaceId (dependent_changed t) = dt_workspaceId t ∧
  dt_sourceProposalId (dependent_changed t) = dt_sourceProposalId t.
Proof. unfold dependent_changed. by case_bool_decide. Qed.

#[export] Instance provenance_invariant : BoardInvariant unconditional provenance.
Proof.
  split.
  - intros s (Hp & Ht & _). split; intros *; rewrite ?Hp, ?Ht; done.
  - intros s s' [] Hs. by apply (provenance_frame s).
  - by intros e s s' [|]; [|apply provenance_frame].
  - intros e c res s s' Hk Ht Heff _ Hs. destruct Heff; try exact Hs; subst_lets;
      try (by apply (provenance_frame s));
      repeat match goal with
      | H : find_ticket e _ s = Some _ |- _ => apply find_ticket_found in H as [? ?]; [|done..]
      | H : find_proposal e _ s = Some _ |- _ => apply find_proposal_found in H as [? ?]; [|done..]
      end;
      try match goal with H : found_proposal e ?p s |- _ =>
        pose proof (prov_ok _ Hs _ _ (found_proposal_get _ _ _ H)) as Hok end;
      try match goal with H : awaiting _ = true |- _ => apply awaiting_state in H as [Haw Hlive] end.
    + apply provenance_new_proposal; [done|done| |done]. by split; simpl; [lia|..]; split; intros; destruct_and?; naive_solver.
    + eapply (provenance_update e p); try done; [apply decided_ok; congruence|].
      symmetry. apply not_accepted; [done|congruence].
    + match goal with H : found_proposal e p s |- _ => rename H into Hf end.
      apply (provenance_accept p); try done.
      * by eapply found_proposal_get.
      * apply not_accepted; [done|congruence].
      * by apply decided_accepted_ok.
      * destruct Hf as (_ & Ho & Hw). unfold beside_proposal. simpl. by rewrite Ho, Hw.
      * destruct Hf as (_ & Ho & Hw). unfold own_key, beside_ticket. simpl. by rewrite Ho, Hw.
    + eapply (provenance_update e p); try done; [apply decided_ok; congruence|].
      symmetry. apply not_accepted; [done|congruence].
    + eapply (provenance_update e p); try done; [apply decided_ok; congruence|].
      symmetry. apply not_accepted; [done|congruence].
    + eapply (provenance_update e p); try done. apply overlaid_ok; [done|]. by split; eauto.
    + eapply (provenance_update e p); try done. apply overlaid_ok; [done|].
      split; [by intros []|by intros [[] _]].
    + apply (provenance_frame (put_ticket (archived_ticket now (mkStoreArchive (env_organizationId e)
        (env_workspaceId e) (dt_id t) (dt_version t) (stableId (env_actorRef e)) reason) t) s)); [done..|].
      eapply (provenance_update_ticket e t); done.
    + eapply (provenance_update_ticket e t); done.
    + eapply (provenance_update_ticket e t); done.
    + apply (provenance_frame (put_ticket (approved_ticket (approval_input e t (dt_version t) content hash) t) s));
        [by destruct balance..|]. eapply (provenance_update_ticket e t); done.
    + apply (provenance_frame (put_ticket (dt_bump t) s)); [done..|].
      eapply (provenance_update_ticket e t); done.
    + apply (provenance_frame (put_ticket (dependent_changed dependent) s)); [done..|].
      eapply (provenance_update_ticket e dependent); try done; apply dependent_changed_fields.
    + apply (provenance_frame (put_ticket (dependent_changed dependent) s)); [done..|].
      eapply (provenance_update_ticket e dependent); try done; apply dependent_changed_fields.
    + unfold imported. destruct (imported_ticket e input source disposition) as [t|] eqn:Hi.
      * apply (provenance_frame (put_ticket t s)); [done..|]. unfold imported_ticket in Hi.
        case_bool_decide; simplify_eq. apply provenance_promote; auto.
      * by apply (provenance_frame s).
    + apply provenance_realias, (provenance_frame (put_ticket (promoted_ticket e source input) s)); [done..|].
      by apply provenance_promote.
    + by apply provenance_realias, (provenance_frame s).
Qed.

End proposal_effects.
