(* ===== verification/Replay.v ===== *)
(** * How the rows of a board change, and retried commands

    A command never removes a proposal, a ticket or a historical record; each row
    stays or takes one step of its state machine, and a step adds one to its
    version.

    Every command settles its receipt with the answer it gives, so a retry with
    the same key and the same request gets the same answer and changes nothing.

    [quiet]: a call that leaves the receipts alone.  [settles]: a body whose
    every returned answer has just been written to the receipt.  Both are proved
    of the commands by the rules of this file, over the bodies as they are. *)
From S2P Require Import Prelude JsMap JsString JsValue SharedKernel Effects DevBoardDomain.
From S2P Require Import TenantContext Receipts Ledger PlanningRows PlanningStore DependencyGraph.
From S2P Require Import CommandBase ProposalCommands TicketCommands QueueCommands.
From S2P Require Import DependencyCommands LegacyCommands StoreRules Board Refinement Reachability.
From S2P Require Import TicketInvariant QueueInvariant ProposalInvariant.

(** ** Steps of the rows of a map *)

Section rows_step.
Context {V : Type} (R : V → V → Prop).

Definition rows_step (m m' : jsmap V) : Prop :=
  ∀ k v, jm_get k m = Some v → ∃ v', jm_get k m' = Some v' ∧ (v' = v ∨ R v v').

Lemma rows_step_refl m : rows_step m m.
Proof. intros k v Hv. exists v. auto. Qed.

Lemma rows_step_update k v v' m : jm_get k m = Some v → R v v' → rows_step m (jm_set k v' m).
Proof.
  intros Hv HR k' u Hu. rewrite jm_get_set. destruct (String.eqb_spec k' k) as [->|]; [|eauto].
  exists v'. split; [done|]. right. congruence.
Qed.

Lemma rows_step_new k v m : jm_get k m = None → rows_step m (jm_set k v m).
Proof.
  intros Hk k' u Hu. rewrite jm_get_set. destruct (String.eqb_spec k' k) as [->|]; [congruence|eauto].
Qed.

End rows_step.

(** ** Proposals *)

(** The lifecycle: draft, then awaiting a decision, then one of three decisions;
    an archive overlay that comes and goes. *)
Inductive proposal_step (p : ProposalRow) : ProposalRow → Prop :=
| step_submit :
    pr_lifecycleState p = PDraft → pr_archivedAt p = None →
    proposal_step p (decided PAwaitingDecision None None p)
| step_accept cmd ticket :
    pr_lifecycleState p = PAwaitingDecision → pr_archivedAt p = None →
    proposal_step p (decided PAccepted (Some cmd) (Some ticket) p)
| step_close state :
    pr_lifecycleState p = PAwaitingDecision → pr_archivedAt p = None → state = PMerged ∨ state = PRejected →
    proposal_step p (decided state None None p)
| step_archive now user reason :
    pr_archivedAt p = None → proposal_step p (overlaid (Some now) (Some user) (Some reason) p)
| step_restore :
    is_Some (pr_archivedAt p) → proposal_step p (overlaid None None None p).

(** ** Tickets *)

(** The lanes a planning command moves a ticket between. *)
Inductive lane_step (t t' : DevTicketRow) : Prop :=
| lane_stays : dt_lane t' = dt_lane t → dt_readyState t' = dt_readyState t → lane_step t t'
| lane_enters :
    dt_lane t = LBacklog → dt_readyState t = RsDraft → dt_archivedAt t = None →
    dt_lane t' = LTodo → dt_readyState t' = RsApproved →
    dt_readyContractVersion t' = (dt_readyContractVersion t + 1)%Z → lane_step t t'
| lane_leaves :
    dt_lane t = LTodo → dt_lane t' = LBacklog → dt_readyState t' = RsDraft → lane_step t t'.

Record ticket_step (t t' : DevTicketRow) : Prop := {
  ticket_step_version : dt_version t' = (dt_version t + 1)%Z;
  ticket_step_identity :
    dt_id t' = dt_id t ∧ dt_organizationId t' = dt_organizationId t ∧
    dt_workspaceId t' = dt_workspaceId t ∧ dt_originKind t' = dt_originKind t ∧
    dt_sourceProposalId t' = dt_sourceProposalId t ∧ dt_createdCommandId t' = dt_createdCommandId t;
  ticket_step_contract :
    dt_readyContractVersion t' = (dt_readyContractVersion t + 1)%Z ∨
    dt_readyContractVersion t' = dt_readyContractVersion t ∧
    dt_readyContractContent t' = dt_readyContractContent t ∧
    dt_readyContractContentHash t' = dt_readyContractContentHash t;
  ticket_step_lane : lane_step t t';
}.

(** ** Historical records *)

(** A record that was promoted or is a candidate keeps that disposition; the
    completion gate changes from legacy-unverified to reconciled only; of the rest,
    only the promoting command and the version change. *)
Inductive historical_step (h : HistoricalRecordRow) : HistoricalRecordRow → Prop :=
| step_disposition disposition cmd :
    hr_sourceDisposition h ≠ DHistoricalCandidate →
    (hr_sourceDisposition h = DPromotedBacklog → disposition = DPromotedBacklog) →
    historical_step h (hr_advance disposition (hr_completionGate h) cmd h)
| step_reconciled :
    hr_completionGate h = Some GLegacyUnverified → hr_sourceDisposition h ≠ DPromotedBacklog →
    historical_step h (hr_advance (hr_sourceDisposition h) (Some GReconciledHistorical) (hr_promotionCommandId h) h).

(** ** What the steps change, field by field *)

Inductive lifecycle_step (p p' : ProposalRow) : Prop :=
| life_submitted :
    pr_lifecycleState p = PDraft → pr_lifecycleState p' = PAwaitingDecision →
    pr_archivedAt p = None → pr_archivedAt p' = None → lifecycle_step p p'
| life_accepted :
    pr_lifecycleState p = PAwaitingDecision → pr_lifecycleState p' = PAccepted →
    is_Some (pr_acceptedCommandId p') → is_Some (pr_acceptedDevTicketId p') →
    pr_archivedAt p = None → pr_archivedAt p' = None → lifecycle_step p p'
| life_closed :
    pr_lifecycleState p = PAwaitingDecision → pr_lifecycleState p' = PMerged ∨ pr_lifecycleState p' = PRejected →
    pr_acceptedDevTicketId p' = None → pr_archivedAt p = None → pr_archivedAt p' = None → lifecycle_step p p'
| life_overlaid :
    pr_lifecycleState p' = pr_lifecycleState p → pr_acceptedCommandId p' = pr_acceptedCommandId p →
    pr_acceptedDevTicketId p' = pr_acceptedDevTicketId p → (is_Some (pr_archivedAt p) ↔ pr_archivedAt p' = None) →
    lifecycle_step p p'.

Record proposal_change (p p' : ProposalRow) : Prop := {
  proposal_change_version : pr_version p' = (pr_version p + 1)%Z;
  proposal_change_identity :
    pr_id p' = pr_id p ∧ pr_organizationId p' = pr_organizationId p ∧ pr_workspaceId p' = pr_workspaceId p ∧
    pr_discoverySummary p' = pr_discoverySummary p ∧ pr_blockingAssessment p' = pr_blockingAssessment p ∧
    pr_suggestedContract p' = pr_suggestedContract p ∧ pr_createdCommandId p' = pr_createdCommandId p;
  proposal_change_lifecycle : lifecycle_step p p';
}.

Record record_change (h h' : HistoricalRecordRow) : Prop := {
  record_change_version : hr_version h' = (hr_version h + 1)%Z;
  record_change_identity :
    hr_historicalRecordId h' = hr_historicalRecordId h ∧ hr_organizationId h' = hr_organizationId h ∧
    hr_workspaceId h' = hr_workspaceId h ∧ hr_sourceTableRowIdentity h' = hr_sourceTableRowIdentity h;
  record_change_evidence :
    hr_importedAt h' = hr_importedAt h ∧ hr_sourceRecordedAt h' = hr_sourceRecordedAt h ∧
    hr_preservedPayloadDigest h' = hr_preservedPayloadDigest h ∧ hr_sourceEpoch h' = hr_sourceEpoch h ∧
    hr_sourceUpdatedAt h' = hr_sourceUpdatedAt h ∧ hr_evidenceRefs h' = hr_evidenceRefs h;
  record_change_disposition :
    hr_sourceDisposition h ≠ DQuarantinedNoOwner → hr_sourceDisposition h' = hr_sourceDisposition h;
  record_change_gate :
    hr_completionGate h' = hr_completionGate h ∨
    hr_completionGate h = Some GLegacyUnverified ∧ hr_completionGate h' = Some GReconciledHistorical;
}.

Lemma proposal_step_change p p' : proposal_step p p' → proposal_change p p'.
Proof.
  destruct 1 as [Hl Ha|cmd ticket Hl Ha|state Hl Ha Hs|now user reason Ha|[at_ Ha]]; split; try done.
  - by apply life_submitted.
  - by apply life_accepted.
  - by apply life_closed.
  - apply life_overlaid; [done..|]. rewrite Ha. by split; [intros []|].
  - apply life_overlaid; [done..|]. by rewrite Ha.
Qed.

Lemma historical_step_change h h' : historical_step h h' → record_change h h'.
Proof.
  destruct 1 as [disposition cmd Hd Hp|Hg Hd]; split; try done; [|by left|by right].
  intros Hq. simpl. destruct (hr_sourceDisposition h); [by apply Hp|done|done].
Qed.

Lemma rows_step_mono {V} (R R' : V → V → Prop) m m' : (∀ v v', R v v' → R' v v') → rows_step R m m' → rows_step R' m m'.
Proof. intros HR Hm k v (v' & Hv' & Hs)%Hm. exists v'. split; [done|]. destruct Hs as [->|Hs]; auto. Qed.

Section steps.
Context {RT : NodeRuntime}.

Lemma backlog_not_approved t : ticket_ok t → dt_lane t = LBacklog → dt_readyState t = RsDraft.
Proof. intros [[[_ [H _]]|[H _]] _ _ _ _]; [done|congruence]. Qed.

Lemma ticket_lanes t : ticket_ok t → dt_lane t = LBacklog ∧ dt_readyState t = RsDraft ∨ dt_lane t = LTodo.
Proof. intros Hok. pose proof (backlog_not_approved t Hok). destruct Hok as [[[]|[]] _ _ _ _]; naive_solver. Qed.

Lemma archived_step now input t : ticket_ok t → ticket_step t (archived_ticket now input t).
Proof.
  intros Hok. split; simpl; [done|done|by right|].
  destruct (ticket_lanes t Hok) as [[Hl Hr]|Hl]; [by apply lane_stays|by apply lane_leaves].
Qed.

Lemma restored_step t : ticket_ok t → ticket_step t (restored_ticket t).
Proof.
  intros Hok. split; simpl; [done|done|by right|].
  destruct (ticket_lanes t Hok) as [[Hl Hr]|Hl]; [by apply lane_stays|by apply lane_leaves].
Qed.

Lemma bumped_step t : ticket_step t (dt_bump t).
Proof. split; simpl; [done|done|by right|by apply lane_stays]. Qed.

Lemma dependent_changed_step t : ticket_step t (dependent_changed t).
Proof.
  unfold dependent_changed. case_bool_decide as Hl; [|apply bumped_step].
  split; simpl; [done|done|by right|by apply lane_leaves].
Qed.

Lemma classified_step input t : ticket_step t (classified_ticket input t).
Proof. split; simpl; [done|done|by left|by apply lane_stays]. Qed.

Lemma approved_step e version content hash t :
  dt_lane t = LBacklog → dt_readyState t = RsDraft → dt_archivedAt t = None →
  ticket_step t (approved_ticket (approval_input e t version content hash) t).
Proof. intros ???. split; simpl; [done|done|by left|by apply lane_enters]. Qed.

(** The rows of the four tables after an accepted command. *)
Record board_step (s s' : PlanningStore) : Prop := {
  board_proposals : rows_step proposal_step (proposals s) (proposals s');
  board_tickets : rows_step ticket_step (devTickets s) (devTickets s');
  board_historical : rows_step historical_step (historicalRecords s) (historicalRecords s');
}.

Lemma board_step_refl s : board_step s s.
Proof. split; apply rows_step_refl. Qed.

Lemma realias_historical e h ticket s : historicalRecords (realias e h ticket s) = historicalRecords s.
Proof. unfold realias. by case_match. Qed.

Lemma realias_proposals e h ticket s : proposals (realias e h ticket s) = proposals s.
Proof. unfold realias. by case_match. Qed.

Lemma board_step_proposal e p p' s s' :
  found_proposal e p s → proposal_step p p' → proposal_key p' = proposal_key p →
  proposals s' = jm_set (proposal_key p') p' (proposals s) → devTickets s' = devTickets s →
  historicalRecords s' = historicalRecords s → board_step s s'.
Proof.
  intros Hf Hstep Hk Hp Ht Hh. split; rewrite ?Hp, ?Ht, ?Hh; try apply rows_step_refl.
  eapply rows_step_update; [|done]. rewrite Hk. by eapply found_proposal_get.
Qed.

Lemma board_step_ticket e t t' s s' :
  found_ticket e t s → ticket_step t t' →
  proposals s' = proposals s → devTickets s' = jm_set (ticket_key t') t' (devTickets s) →
  historicalRecords s' = historicalRecords s → board_step s s'.
Proof.
  intros Hf Hstep Hp Ht Hh. split; rewrite ?Hp, ?Ht, ?Hh; try apply rows_step_refl.
  eapply rows_step_update; [|done].
  assert (ticket_key t' = ticket_key t) as ->
    by (destruct Hstep as [_ (Hi & Ho & Hw & _) _ _]; unfold own_key; congruence).
  by eapply found_ticket_get.
Qed.

Lemma board_step_historical h h' s s' :
  jm_get (hr_historicalRecordId h) (historicalRecords s) = Some h → historical_step h h' →
  hr_historicalRecordId h' = hr_historicalRecordId h →
  proposals s' = proposals s → devTickets s' = devTickets s →
  historicalRecords s' = jm_set (hr_historicalRecordId h') h' (historicalRecords s) → board_step s s'.
Proof.
  intros Hget Hstep Hid Hp Ht Hh. split; rewrite ?Hp, ?Ht, ?Hh; try apply rows_step_refl.
  eapply rows_step_update; [by rewrite Hid|done].
Qed.

Lemma historical_found s org ws id h :
  keyed s → historical_of org ws id s = Some h →
  jm_get (hr_historicalRecordId h) (historicalRecords s) = Some h.
Proof.
  intros Hk. unfold historical_of. destruct (jm_get id (historicalRecords s)) as [row|] eqn:Hget; [|done].
  case_match; [|done]. intros [= ->]. by rewrite <-(proj2 (keyed_historical _ Hk) _ _ Hget).
Qed.

Lemma effect_board_step e c res s s' :
  keyed s → tenant_ok e → tickets_ok s → effect e c res s s' → board_step s s'.
Proof.
  intros Hk Ht Htok Heff. destruct Heff; subst_lets;
    try (apply board_step_refl);
    repeat match goal with
    | H : find_ticket e _ s = Some ?t |- _ =>
        pose proof (tickets_ok_find e _ _ s Htok H); apply find_ticket_found in H as [? ?]; [|done..]
    | H : find_proposal e _ s = Some _ |- _ => apply find_proposal_found in H as [? ?]; [|done..]
    end;
    try match goal with H : awaiting _ = true |- _ => apply awaiting_state in H as [Haw Hlive] end.
  - split; [by apply rows_step_new|apply rows_step_refl..].
  - eapply (board_step_proposal e p); [done|by apply step_submit|done..].
  - match goal with H : found_proposal e p s |- _ => rename H into Hf end.
    split; [|by apply rows_step_new|apply rows_step_refl].
    eapply (rows_step_update _ (proposal_key p)); [by eapply found_proposal_get|by apply step_accept].
  - eapply (board_step_proposal e p (decided PMerged None None p)); [done|apply step_close; auto|done..].
  - eapply (board_step_proposal e p (decided PRejected None None p)); [done|apply step_close; auto|done..].
  - eapply (board_step_proposal e p); [done|by apply step_archive|done..].
  - eapply (board_step_proposal e p); [done|by apply step_restore|done..].
  - eapply (board_step_ticket e t); [done|by apply archived_step|done..].
  - eapply (board_step_ticket e t); [done|by apply restored_step|done..].
  - eapply (board_step_ticket e t); [done|by apply classified_step|done..].
  - eapply (board_step_ticket e t); [done|by apply approved_step|by destruct balance..].
  - eapply (board_step_ticket e t); [done|by apply bumped_step|done..].
  - eapply (board_step_ticket e dependent); [done|by apply dependent_changed_step|done..].
  - eapply (board_step_ticket e dependent); [done|by apply dependent_changed_step|done..].
  - unfold imported. split; simpl.
    + destruct (imported_ticket _ _ _ _); apply rows_step_refl.
    + unfold imported_ticket in *. case_bool_decide; [|apply rows_step_refl]. by apply rows_step_new; auto.
    + destruct (imported_ticket _ _ _ _); by apply rows_step_new.
  - split; rewrite ?realias_proposals, ?realias_tickets, ?realias_historical.
    + apply rows_step_refl.
    + by apply rows_step_new.
    + eapply (rows_step_update _ (hr_historicalRecordId h)); [by eapply (historical_found s)|by apply step_disposition].
  - eapply (board_step_historical h);
      [by eapply historical_found|apply step_disposition; congruence|done
      |by rewrite realias_proposals|by rewrite realias_tickets|by rewrite realias_historical].
  - eapply (board_step_historical h); [by eapply historical_found|by apply step_reconciled|done..].
Qed.

Lemma store_step_board e c s s' :
  keyed s → tenant_ok e → tickets_ok s → store_step e c s s' → board_step s s'.
Proof.
  intros Hk Ht Htok [res s1 Heff|s1 Ho]; [by eapply effect_board_step|].
  destruct Ho; [apply board_step_refl|]. split; apply rows_step_refl.
Qed.

End steps.

(** * Change Risk of the tickets in Todo

    The declared Change Risk of a ticket in Todo is never below the minimum the
    policy computes from its present type, areas and dependencies: a command that
    changes the dependencies of a ticket sends it back to Backlog. *)

Section policy.
Context {RT : NodeRuntime}.

(** The present minimum of a ticket, given whether it has active dependencies. *)
Definition covered (t : DevTicketRow) (dependencies : bool) : Prop :=
  ∃ type declared, dt_devTicketType t = Some type ∧ dt_declaredChangeRisk t = Some declared ∧
    (0 <= compareChangeRisk declared (ev_minimumChangeRisk (evaluateChangeRisk type (dt_workAreas t) dependencies)))%Z.

Definition has_dependencies (t : DevTicketRow) (s : PlanningStore) : bool :=
  hasActiveDependencies (dt_organizationId t) (dt_workspaceId t) (dt_id t) s.

Definition todo_policy (s : PlanningStore) : Prop :=
  ∀ k t, jm_get k (devTickets s) = Some t → dt_lane t = LTodo → covered t (has_dependencies t s).

Lemma covered_mono t d d' : covered t d → (d' = true → d = true) → covered t d'.
Proof.
  intros (type & declared & Ht & Hd & Hc) Himp. exists type, declared. split_and!; [done..|].
  pose proof (minimum_mono type (dt_workAreas t) (dt_workAreas t) d' d ltac:(done) Himp).
  unfold compareChangeRisk in *. lia.
Qed.

Lemma has_dependencies_true t s :
  has_dependencies t s = true ↔
  ∃ d, d ∈ jm_values (dependencyEdges s) ∧ active d ∧ dependent_key d = ticket_key t ∧
       ed_organizationId d = dt_organizationId t ∧ ed_workspaceId d = dt_workspaceId t ∧
       ed_dependentDevTicketId d = dt_id t.
Proof.
  unfold has_dependencies, hasActiveDependencies. rewrite existsb_exists. split.
  - intros (d & Hd%list_elem_of_In & (Ho & Hw & Ha & Hdep)%edge_from_active). exists d.
    unfold dependent_key, own_key. by rewrite Ho, Hw, Hdep.
  - intros (d & Hd%list_elem_of_In & Ha & _ & Ho & Hw & Hdep). exists d. split; [done|].
    by apply edge_from_active.
Qed.

(** ** Writes *)

Lemma todo_policy_frame s s' :
  devTickets s' = devTickets s → dependencyEdges s' = dependencyEdges s → todo_policy s → todo_policy s'.
Proof.
  intros Ht Hd Hs k t. unfold has_dependencies, hasActiveDependencies. rewrite Ht, Hd. apply Hs.
Qed.

Lemma todo_policy_put t s :
  todo_policy s → (dt_lane t = LTodo → covered t (has_dependencies t s)) → todo_policy (put_ticket t s).
Proof. intros Hs Ht k t' [[_ ->]|[_ Hget]]%jm_get_set_Some Hl; [by apply Ht|by eapply Hs]. Qed.

(** The dependent of a written edge leaves Todo. *)
Lemma todo_policy_edge d t' s :
  keyed s → todo_policy s → dependent_key d = ticket_key t' → dt_lane t' ≠ LTodo →
  todo_policy (put_ticket t' (put_edge d s)).
Proof.
  intros Hk Hs Hkey Hl k t [[_ ->]|[Hne Hget]]%jm_get_set_Some Hlane; [done|]. simpl in Hget.
  eapply covered_mono; [by eapply Hs|]. rewrite !has_dependencies_true.
  intros (d' & Hd' & Ha & Heq & Hrest). exists d'. split; [|done].
  apply elem_of_jm_values_set in Hd' as [->|]; [|done]. exfalso. apply Hne.
  destruct (proj2 (keyed_tickets _ Hk) _ _ Hget) as [-> _]. congruence.
Qed.

Lemma todo_policy_realias e h ticket s : todo_policy s → todo_policy (realias e h ticket s).
Proof. intros Hs. unfold realias. case_match; [by apply (todo_policy_frame s)|done]. Qed.

(** The edge of a command leads from its dependent. *)
Lemma written_edge_key e d t s :
  ed_organizationId d = env_organizationId e → ed_workspaceId d = env_workspaceId e →
  ed_dependentDevTicketId d = dt_id t → found_ticket e t s →
  dependent_key d = ticket_key (dependent_changed t).
Proof.
  intros Ho Hw Hd Hf. rewrite dependent_changed_key, (found_ticket_key _ _ _ Hf).
  unfold dependent_key. by rewrite Ho, Hw, Hd.
Qed.

#[export] Instance todo_policy_invariant : BoardInvariant unconditional todo_policy.
Proof.
  split.
  - intros s (_ & Ht & _) k t. by rewrite Ht.
  - intros s s' [] Hs. by apply (todo_policy_frame s).
  - by intros e s s' [|]; [|apply todo_policy_frame].
  - intros e c res s s' Hk Ht Heff _ Hs. destruct Heff; try exact Hs; subst_lets;
      try (by apply (todo_policy_frame s));
      repeat match goal with
      | H : find_ticket e _ s = Some _ |- _ => apply find_ticket_found in H as [? ?]; [|done..]
      | H : find_edge e _ s = Some _ |- _ => apply find_edge_found in H as [? ?]; [|done..]
      end.
    + by apply (todo_policy_frame (put_ticket (new_ticket (accepted_ticket_input e input p contract ticketId)) s));
        [..|apply todo_policy_put].
    + apply todo_policy_put; [by apply (todo_policy_frame s)|done].
    + by apply todo_policy_put.
    + apply todo_policy_put; [done|]. intros Hl. simpl in Hl. congruence.
    + match goal with H : found_ticket e t s |- _ => destruct H as (_ & Ho & Hw) end.
      set (t' := approved_ticket _ _). apply (todo_policy_frame (put_ticket t' s)); [by destruct balance..|].
      apply todo_policy_put; [done|]. intros _. exists type, declared. split_and!; [done..|].
      unfold has_dependencies. simpl. by rewrite Ho, Hw.
    + match goal with H : found_ticket e t s |- _ => rename H into Hf end.
      apply (todo_policy_frame (put_ticket (dt_bump t) s)); [done..|]. apply todo_policy_put; [done|].
      intros Hl. by apply (Hs (ticket_key t) t); [eapply found_ticket_get|].
    + match goal with H : found_ticket e dependent s |- _ => rename H into Hf end.
      eapply (todo_policy_frame (put_ticket (dependent_changed dependent) (put_edge _ s))); [done..|].
      apply todo_policy_edge; [done..| |apply dependent_changed_lane]. by eapply written_edge_key.
    + match goal with H : found_ticket e dependent s, H' : found_edge e d s |- _ =>
        rename H into Hf; destruct H' as (_ & Ho & Hw) end.
      eapply (todo_policy_frame (put_ticket (dependent_changed dependent) (put_edge _ s))); [done..|].
      apply todo_policy_edge; [done..| |apply dependent_changed_lane]. by eapply written_edge_key.
    + unfold imported. destruct (imported_ticket e input source disposition) as [t|] eqn:Hi.
      * apply (todo_policy_frame (put_ticket t s)); [done..|]. unfold imported_ticket in Hi.
        case_bool_decide; simplify_eq. by apply todo_policy_put.
      * by apply (todo_policy_frame s).
    + apply todo_policy_realias, (todo_policy_frame (put_ticket (promoted_ticket e source input) s)); [done..|].
      by apply todo_policy_put.
    + by apply todo_policy_realias, (todo_policy_frame s).
Qed.

End policy.

Section replay.
Context {R L : Type} {RP : CommandReceiptRepository R} {LP : DevBoardLedgerAppendPort L}.
Context {RT : NodeRuntime} {DB : TenantDatabase}.
Abbreviation Cmd := (M (World R L)).
Implicit Types (e : CommandEnvelope) (w : World R L).

(** ** Quiet calls *)

Definition quiet {A} (m : Cmd A) : Prop := ∀ w, w_receipts (m w).2 = w_receipts w.

Lemma quiet_ret {A} (a : A) : quiet (mret a).
Proof. done. Qed.

Lemma quiet_throw {A} x : quiet (throw x : Cmd A).
Proof. done. Qed.

Lemma quiet_bind {A B} (m : Cmd A) (k : A → Cmd B) : quiet m → (∀ a, quiet (k a)) → quiet (m ≫= k).
Proof.
  intros Hm Hk w. unfold mbind, M_bind. specialize (Hm w). destruct (m w) as [[a|x] w']; [|done].
  by rewrite Hk.
Qed.

Lemma quiet_try_catch {A} (m : Cmd A) h : quiet m → (∀ x, quiet (h x)) → quiet (try_catch m h).
Proof.
  intros Hm Hh w. unfold try_catch. specialize (Hm w). destruct (m w) as [[a|x] w']; [done|].
  by rewrite Hh.
Qed.

Lemma quiet_on_store {A} (m : M PlanningStore A) : quiet (on_store m).
Proof. intros w. unfold on_store. by destruct (m (w_store w)). Qed.

Lemma quiet_ask_store {A} (f : PlanningStore → A) : quiet (ask_store f).
Proof. apply quiet_on_store. Qed.

Lemma quiet_on_ledger {A} (f : L → A * L) : quiet (on_ledger f).
Proof. intros w. unfold on_ledger. by destruct (f (w_ledger w)). Qed.

Lemma quiet_randomUUID : quiet randomUUID.
Proof. done. Qed.

Lemma quiet_newDate : quiet newDate.
Proof. done. Qed.

Lemma quiet_risky_error {A} x : quiet (risky_error x : Cmd (Result A)).
Proof. unfold risky_error. repeat case_match; done. Qed.

Lemma quiet_executeRiskyMutation {A} (m : Cmd A) : quiet m → quiet (executeRiskyMutation m).
Proof.
  intros Hm w. unfold executeRiskyMutation, try_catch, mbind, M_bind, get_state, put_state, mret, M_ret.
  specialize (Hm w). destruct (m w) as [[a|x] w']; [done|]. by rewrite quiet_risky_error.
Qed.

(** ** Settling bodies *)

(** The finalization records this answer for whoever replays the receipt. *)
Definition answers e (fi : FinalizeCommandReceiptInput) (ans : Result CommandResult) : Prop :=
  fin_organizationId fi = env_organizationId e ∧ fin_commandId fi = env_commandId e ∧
  ∀ rc, rr_commandId (rc_result rc) = env_commandId e → replay (rc_result (finalized fi rc)) = ans.

Definition settles e (m : Cmd (Result CommandResult)) : Prop := ∀ w,
  match (m w).1 with
  | Returned ans => ∃ fi, answers e fi ans ∧
      finalizeTransaction fi (w_receipts w) = (ok tt, w_receipts (m w).2)
  | Thrown _ => True
  end.

Lemma settles_throw e x : settles e (throw x).
Proof. done. Qed.

Lemma settles_bind {A} e (m : Cmd A) k : quiet m → (∀ a, settles e (k a)) → settles e (m ≫= k).
Proof.
  intros Hm Hk w. unfold mbind, M_bind. specialize (Hm w). destruct (m w) as [[a|x] w']; [|done].
  simpl in Hm. specialize (Hk a w'). by rewrite Hm in Hk.
Qed.

(** The message a refusal stores is the one it answers with. *)
Lemma settles_reject_with e code message extra ref :
  obj_get "message" (obj_spread [("message", JStr message)] extra) = JStr message →
  settles e (reject_with e code message extra ref).
Proof.
  intros Hmsg w. unfold reject_with, mbind, M_bind, on_receipts.
  destruct (finalizeTransaction _ (w_receipts w)) as [[[]|d] rc] eqn:Hf; simpl; [|done].
  eexists. split; [|exact Hf]. split_and!; [done..|]. intros r _. unfold replay. simpl. by rewrite Hmsg.
Qed.

Lemma settles_reject e code message : settles e (reject e code message).
Proof. by apply settles_reject_with. Qed.

Lemma summary_of_ids field ids :
  summary_string field ((λ kv, (kv.1, JStr kv.2)) <$> ids) = id_of field ids.
Proof.
  unfold summary_string, id_of. induction ids as [|[k v] ids IH]; csimpl; [done|].
  destruct (String.eqb field k); [done|]. exact IH.
Qed.

Lemma settles_accept e code ref versions ids : settles e (accept e code ref versions ids).
Proof.
  intros w. unfold accept, mbind, M_bind, on_receipts.
  destruct (finalizeTransaction _ (w_receipts w)) as [[[]|d] rc] eqn:Hf; simpl; [|done].
  eexists. split; [|exact Hf]. split_and!; [done..|]. intros r Hr. unfold replay, finalized, accept_input. simpl.
  by rewrite !summary_of_ids, Hr.
Qed.

End replay.

#[export] Hint Resolve quiet_ret quiet_throw quiet_on_store quiet_ask_store quiet_on_ledger quiet_randomUUID
  quiet_newDate quiet_risky_error settles_throw settles_reject settles_accept : quiet.

(** Replaces a named part of a body by its definition. *)
Ltac unfold_head m :=
  lazymatch m with
  | ?f _ => unfold_head f
  | ?f => unfold f
  end.

(** Walks through a body, splitting on its tests. *)
Ltac quiet_step :=
  lazymatch goal with
  | |- quiet (mbind _ _) => apply quiet_bind; [|intros ?]
  | |- quiet (try_catch _ _) => apply quiet_try_catch; [|intros ?]
  | |- quiet (executeRiskyMutation _) => apply quiet_executeRiskyMutation
  | |- settles _ (mbind _ _) => apply settles_bind; [|intros ?]
  | |- settles _ (reject_error _ _) => apply settles_reject
  | |- settles _ (reject_with _ _ _ _ _) => apply settles_reject_with; reflexivity
  | |- _ (match _ with _ => _ end) => case_match
  | |- _ _ (match _ with _ => _ end) => case_match
  | |- settles _ (let _ := _ in _) => cbv zeta
  | |- quiet (let _ := _ in _) => cbv zeta
  | |- settles _ ?m => unfold_head m
  | |- quiet ?m => unfold_head m
  end.
Ltac quiet_run := repeat first [solve [auto with quiet] | quiet_step].

Section commands_settle.
Context {R L : Type} {RP : CommandReceiptRepository R} {LP : DevBoardLedgerAppendPort L}.
Context {RT : NodeRuntime} {DB : TenantDatabase}.
Abbreviation Cmd := (M (World R L)).
Implicit Types (e : CommandEnvelope) (w : World R L).

(** ** The shared calls *)

Lemma quiet_planning e agg kind subject content : quiet (R:=R) (L:=L) (planning e agg kind subject content).
Proof. unfold planning. quiet_run. Qed.

Lemma quiet_activity e agg v name payload : quiet (R:=R) (L:=L) (activity e agg v name payload).
Proof. unfold activity. quiet_run. Qed.

Lemma quiet_catch_sentinel {A} message (m : Cmd (Result A)) : quiet m → quiet (catch_sentinel message m).
Proof. intros Hm. unfold catch_sentinel. quiet_run. Qed.

Lemma quiet_contract_hash content : quiet (R:=R) (L:=L) (contract_hash content).
Proof. unfold contract_hash. quiet_run. Qed.

Lemma quiet_canonical v : quiet (R:=R) (L:=L) (canonical v).
Proof. unfold canonical. quiet_run. Qed.

Lemma quiet_iso t : quiet (R:=R) (L:=L) (iso t).
Proof. unfold iso. quiet_run. Qed.
#[local] Hint Resolve quiet_planning quiet_activity quiet_contract_hash quiet_canonical quiet_iso : quiet.
#[local] Hint Extern 1 (quiet (catch_sentinel _ _)) => apply quiet_catch_sentinel : quiet.

Lemma quiet_depart_todo e drift t : quiet (R:=R) (L:=L) (depart_todo e drift t).
Proof. unfold depart_todo, leave_todo_queue. quiet_run. Qed.

Lemma quiet_todo_version_ok e t : quiet (R:=R) (L:=L) (todo_version_ok e t).
Proof. unfold todo_version_ok. quiet_run. Qed.

Lemma quiet_endpoint_rows e ids rows : quiet (R:=R) (L:=L) (endpoint_rows e ids rows).
Proof. revert rows. induction ids; intros rows; simpl; quiet_run. Qed.

Lemma quiet_append_import e source agg : quiet (R:=R) (L:=L) (append_import e source agg).
Proof. unfold append_import. quiet_run. Qed.
#[local] Hint Resolve quiet_depart_todo quiet_todo_version_ok quiet_endpoint_rows quiet_append_import : quiet.

Lemma quiet_change_dependent e t : quiet (R:=R) (L:=L) (change_dependent e t).
Proof. unfold change_dependent. quiet_run. Qed.
#[local] Hint Resolve quiet_change_dependent : quiet.

(** ** The commands *)

(** The frame of a command: the receipt, behind an authorization check when the
    command has one with this refusal. *)
Definition frame (refusal : option string) e (body : Cmd (Result CommandResult)) : Cmd (Result CommandResult) :=
  match refusal with
  | None => command e body
  | Some refusal => authorized_command e refusal body
  end.

Definition framed (refusal : option string) e (m : Cmd (Result CommandResult)) : Prop :=
  ∃ body, m = frame refusal e body ∧ settles e body.

Definition import_refusal : string := "Legacy import requires an authorized organization owner or admin.".
Definition reconcile_refusal : string :=
  "Historical reconciliation requires an authorized organization owner or admin.".

Ltac framed_run := eexists; split; [reflexivity|]; quiet_run.

Lemma framed_draft e input : framed None e (draftProposal e input).
Proof. framed_run. Qed.
Lemma framed_submit e id : framed None e (submitProposal e id).
Proof. framed_run. Qed.
Lemma framed_accept e input : framed None e (acceptProposal e input).
Proof. framed_run. Qed.
Lemma framed_merge e input : framed None e (mergeProposal e input).
Proof. framed_run. Qed.
Lemma framed_reject e input : framed None e (rejectProposal e input).
Proof. framed_run. Qed.
Lemma framed_archive_proposal e input : framed None e (archiveProposal e input).
Proof. framed_run. Qed.
Lemma framed_restore_proposal e id : framed None e (restoreProposal e id).
Proof. framed_run. Qed.
Lemma framed_archive_ticket e input : framed None e (TicketCommands.archiveDevTicket e input).
Proof. framed_run. Qed.
Lemma framed_restore_ticket e id : framed None e (TicketCommands.restoreDevTicket e id).
Proof. framed_run. Qed.
Lemma framed_classify e input : framed None e (setDevTicketClassification e input).
Proof. framed_run. Qed.
Lemma framed_approve e input : framed None e (approveReadyToTodo e input).
Proof. framed_run. Qed.
Lemma framed_reorder e input : framed None e (reorderTodo e input).
Proof. framed_run. Qed.
Lemma framed_add e input : framed None e (addDependency e input).
Proof. framed_run. Qed.
Lemma framed_remove e input : framed None e (removeDependency e input).
Proof. framed_run. Qed.
Lemma framed_import e input : framed (Some import_refusal) e (importLegacyDevTicket e input).
Proof. framed_run. Qed.
Lemma framed_reconcile e input : framed (Some reconcile_refusal) e (LegacyCommands.reconcileHistoricalCompletion e input).
Proof. framed_run. Qed.
Lemma framed_gate e code message lock : framed None e (rejectUntilGate e code message lock).
Proof. framed_run. Qed.

End commands_settle.

(** ** The surroundings a command leaves alone *)

Lemma effect_roles {RT : NodeRuntime} e c res s s' :
  effect e c res s s' → organizationRoles s' = organizationRoles s.
Proof.
  intros Heff. destruct Heff; try done; subst_lets; try (by unfold realias; case_match); simpl.
  by case_match.
Qed.

Lemma opened_roles e s s' : opened e s s' → organizationRoles s' = organizationRoles s.
Proof. by intros []. Qed.

(** ** Retries *)

(** The same request under the same key by the same actor: the command id, the
    expected versions and the correlation may differ. *)
Definition retry (e e' : CommandEnvelope) : Prop :=
  envelope_lookup e' = envelope_lookup e ∧ env_requestHash e' = env_requestHash e ∧
  env_actorRef e' = env_actorRef e.

Section retries.
Context {R L : Type} {RP : CommandReceiptRepository R} {RL : CommandReceiptLaws R}.
Context {LP : DevBoardLedgerAppendPort L} {RT : NodeRuntime} {DB : TenantDatabase}.
Implicit Types (e : CommandEnvelope) (w : World R L).

(** The key has no receipt yet, and the command id is new in the organization. *)
Definition unused e (r : R) : Prop :=
  receipts_wf r ∧ readReceipt (envelope_lookup e) r = None ∧
  command_unused (env_organizationId e) (env_commandId e) r.

(** The receipt of the key holds this answer. *)
Definition settled_as e (ans : Result CommandResult) (r : R) : Prop :=
  receipts_wf r ∧ ∃ rc, readReceipt (envelope_lookup e) r = Some rc ∧
    rc_requestHash rc = env_requestHash e ∧ rr_state (rc_result rc) ≠ Reserved ∧ replay (rc_result rc) = ans.

(** A settling call over the reservation leaves the receipt with its answer. *)
Lemma settles_reserved e r r' fi ans r1 :
  unused e r → receipts_wf r' → readReceipt (envelope_lookup e) r' = Some (reserved_receipt e) →
  (∀ lk, lk ≠ envelope_lookup e → readReceipt lk r' = readReceipt lk r) →
  answers e fi ans → finalizeTransaction fi r' = (ok tt, r1) → settled_as e ans r1.
Proof.
  intros (_ & _ & Hunused) Hwf Hread Hother (Ho & Hc & Hans) Hfin.
  destruct (finalize_reserved fi r' (envelope_lookup e) (reserved_receipt e)) as (r2 & Hf & Hwf2 & Hr2 & _);
    [done..| |].
  { intros lk rc Hlk Horg Hcid. destruct (decide (lk = envelope_lookup e)) as [->|Hne]; [done|].
    exfalso. rewrite Hother in Hlk by done. rewrite Ho in Horg. rewrite Hc in Hcid. by eapply Hunused. }
  rewrite Hf in Hfin. simplify_eq. split; [done|]. eexists. split; [exact Hr2|].
  split_and!; [done| |by apply Hans]. by destruct fi as [? ? []].
Qed.

Lemma reserved_settles e body w ans w1 :
  unused e (w_receipts w) → settles e body → reserved e body w = (Returned ans, w1) →
  settled_as e ans (w_receipts w1).
Proof.
  intros Hu Hbody Hrun. pose proof Hu as (Hwf & Hnone & _).
  destruct (reserve_fresh e (w_receipts w) Hwf Hnone) as (r' & Hres & Hwf' & Hread & Hother).
  assert (∀ m : M (World R L) (Result CommandResult), settles e m → m (set_receipts r' w) = (Returned ans, w1) →
            settled_as e ans (w_receipts w1)) as Hsettle.
  { intros m Hm Hmrun. specialize (Hm (set_receipts r' w)). rewrite Hmrun in Hm.
    destruct Hm as (fi & Hans & Hfin). by eapply (settles_reserved e (w_receipts w) r'). }
  unfold reserved, reserve, mbind, M_bind, on_receipts in Hrun. rewrite Hres in Hrun.
  cbn -[parseCommandActorRef reject_error mret] in Hrun.
  rewrite (bool_decide_true (Reserved = Reserved)) in Hrun by done.
  destruct (parseCommandActorRef _) as [a|d]; [by eapply Hsettle|].
  apply (Hsettle (reject_error e d)); [apply settles_reject|].
  unfold mret, M_ret in Hrun.
  cbn -[reject_error] in Hrun. destruct (reject_error e d (set_receipts r' w)) as [[b|x] w2]; congruence.
Qed.

Lemma reserved_replays e e' body w ans :
  settled_as e ans (w_receipts w) → retry e e' → reserved e' body w = (Returned ans, w).
Proof.
  intros (Hwf & rc & Hread & Hhash & Hst & Hans) (Hlk & Hh & _).
  unfold reserved, reserve, mbind, M_bind, on_receipts.
  rewrite (reserve_present e' _ rc), Hhash, Hh, String.eqb_refl by (done || by rewrite Hlk). simpl.
  rewrite bool_decide_false by done. simpl. unfold mret, M_ret. rewrite Hans. by destruct w.
Qed.

(** ** Runs *)

(** The commands that check the authorization before the receipt, with the
    message of their refusal. *)
Definition refusal_of (c : board_command) : option string :=
  match c with
  | ImportLegacyDevTicket _ => Some import_refusal
  | ReconcileHistoricalCompletion _ => Some reconcile_refusal
  | _ => None
  end.

Lemma run_framed (c : board_command) e : framed (R:=R) (L:=L) (refusal_of c) e (run c e).
Proof.
  destruct c as [i|i|i|i|i|i|i|i|i|i|i|i|i|i|i|i| | | | ].
  - exact (framed_draft e i).
  - exact (framed_submit e i).
  - exact (framed_accept e i).
  - exact (framed_merge e i).
  - exact (framed_reject e i).
  - exact (framed_archive_proposal e i).
  - exact (framed_restore_proposal e i).
  - exact (framed_archive_ticket e i).
  - exact (framed_restore_ticket e i).
  - exact (framed_classify e i).
  - exact (framed_approve e i).
  - exact (framed_reorder e i).
  - exact (framed_add e i).
  - exact (framed_remove e i).
  - exact (framed_import e i).
  - exact (framed_reconcile e i).
  - exact (framed_gate e _ _ _).
  - exact (framed_gate e _ _ _).
  - exact (framed_gate e _ _ _).
  - exact (framed_gate e _ _ _).
Qed.

Lemma frame_retried refusal e e' body body' w ans w1 :
  unused e (w_receipts w) → settles e body → retry e e' →
  organizationRoles (w_store w1) = organizationRoles (w_store w) →
  frame refusal e body w = (Returned ans, w1) → frame refusal e' body' w1 = (Returned ans, w1).
Proof.
  intros Hu Hbody Hretry Hroles Hrun. pose proof Hretry as (Hlk & _ & Hactor).
  assert (env_organizationId e' = env_organizationId e) as Horg by (unfold envelope_lookup in Hlk; congruence).
  destruct refusal as [refusal|]; simpl in *.
  - unfold authorized_command in *. apply withTenant_returned in Hrun as [Hrun Hguard].
    rewrite Horg. apply Hguard. rewrite Hactor.
    destruct (parseCommandActorRef _) as [a|d]; [|unfold mret, M_ret in *; congruence].
    unfold authorizedLegacyImportActor, ask_store, on_store, reads, get_state, mbind, M_bind, mret, M_ret in *.
    unfold is_user, has_admin_role, hasOrganizationRole in *. rewrite Horg, Hactor, Hroles. simpl in *.
    destruct w as [s r l u n]. simpl in *. case_match.
    + simplify_eq. done.
    + destruct w1 as [s1 r1 l1 u1 n1]. eapply (reserved_replays e); [|done]. by eapply reserved_settles in Hrun.
  - unfold command in *. apply withTenant_returned in Hrun as [Hrun Hguard]. rewrite Horg. apply Hguard.
    eapply reserved_replays; [|done]. by eapply reserved_settles.
Qed.

(** The second of two runs of a command answers as the first and does nothing. *)
Lemma run_retried c e e' w ans w1 :
  keyed (w_store w) → tenant_ok e → unused e (w_receipts w) → retry e e' →
  run c e w = (Returned ans, w1) → run c e' w1 = (Returned ans, w1).
Proof.
  intros Hk Ht Hu Hretry Hrun.
  assert (organizationRoles (w_store w1) = organizationRoles (w_store w)) as Hroles.
  { destruct (run_store_step c e w _ _ Hk Ht Hrun) as [res s1 Heff|s1 Ho];
      [by eapply effect_roles|by eapply opened_roles]. }
  destruct (run_framed c e) as (body & Heq & Hbody), (run_framed c e') as (body' & Heq' & _).
  rewrite Heq in Hrun. rewrite Heq'. by eapply frame_retried.
Qed.

End retries.

(** * The ledgers only grow

    A relation between the ledger before and after that the two appends respect,
    and that is reflexive and transitive, holds across every command.  It is
    proved once over the bodies of the commands, and used for the append-only
    property of any ledger and for the sequence numbers of the in-memory one. *)

Section growth.
Context {R L : Type} {RP : CommandReceiptRepository R} {LP : DevBoardLedgerAppendPort L}.
Context {RT : NodeRuntime} {DB : TenantDatabase}.
Context (G : relation L) {G_order : PreOrder G}.
Abbreviation Cmd := (M (World R L)).
Implicit Types (e : CommandEnvelope) (w : World R L).

(** The relation admits the two appends. *)
Hypothesis G_planning : ∀ input l, G l (appendPlanningDecisionEntry input l).2.
Hypothesis G_activity : ∀ input l, G l (appendActivityEvent input l).2.

Definition grows {A} (m : Cmd A) : Prop := ∀ w, G (w_ledger w) (w_ledger (m w).2).

Lemma grows_ret {A} (a : A) : grows (mret a).
Proof using G_order. intros w. reflexivity. Qed.

Lemma grows_throw {A} x : grows (throw x : Cmd A).
Proof using G_order. intros w. reflexivity. Qed.

Lemma grows_bind {A B} (m : Cmd A) (k : A → Cmd B) : grows m → (∀ a, grows (k a)) → grows (m ≫= k).
Proof using G_order.
  intros Hm Hk w. unfold mbind, M_bind. specialize (Hm w). destruct (m w) as [[a|x] w']; [|exact Hm].
  transitivity (w_ledger w'); [exact Hm|apply Hk].
Qed.

Lemma grows_try_catch {A} (m : Cmd A) h : grows m → (∀ x, grows (h x)) → grows (try_catch m h).
Proof using G_order.
  intros Hm Hh w. unfold try_catch. specialize (Hm w). destruct (m w) as [[a|x] w']; [exact Hm|].
  transitivity (w_ledger w'); [exact Hm|apply Hh].
Qed.

Lemma grows_on_store {A} (m : M PlanningStore A) : grows (on_store m).
Proof using G_order. intros w. unfold on_store. destruct (m (w_store w)); reflexivity. Qed.

Lemma grows_ask_store {A} (f : PlanningStore → A) : grows (ask_store f).
Proof using G_order. apply grows_on_store. Qed.

Lemma grows_on_receipts {A} (f : R → A * R) : grows (on_receipts f).
Proof using G_order. intros w. unfold on_receipts. destruct (f (w_receipts w)); reflexivity. Qed.

Lemma grows_on_planning input : grows (on_ledger (appendPlanningDecisionEntry input)).
Proof using G_planning.
  intros w. unfold on_ledger. specialize (G_planning input (w_ledger w)). by destruct (appendPlanningDecisionEntry _ _).
Qed.

Lemma grows_on_activity input : grows (on_ledger (appendActivityEvent input)).
Proof using G_activity.
  intros w. unfold on_ledger. specialize (G_activity input (w_ledger w)). by destruct (appendActivityEvent _ _).
Qed.

Lemma grows_randomUUID : grows randomUUID.
Proof using G_order. intros w. reflexivity. Qed.

Lemma grows_newDate : grows newDate.
Proof using G_order. intros w. reflexivity. Qed.

Lemma grows_risky_error {A} x : grows (risky_error x : Cmd (Result A)).
Proof using G_order. unfold risky_error. repeat case_match; first [apply grows_ret | apply grows_throw]. Qed.

(** A rolled back mutation restores the store, not the ledger. *)
Lemma grows_executeRiskyMutation {A} (m : Cmd A) : grows m → grows (executeRiskyMutation m).
Proof using G_order.
  intros Hm w. unfold executeRiskyMutation, try_catch, mbind, M_bind, get_state, put_state, mret, M_ret.
  specialize (Hm w). destruct (m w) as [[a|x] w']; [exact Hm|]. simpl in *.
  transitivity (w_ledger w'); [exact Hm|]. apply (grows_risky_error x (set_store _ w')).
Qed.

Lemma grows_run_query sent q : grows (run_query sent q).
Proof using G_order. unfold run_query. case_match; [apply grows_ret|apply grows_throw]. Qed.

End growth.

#[export] Hint Resolve grows_ret grows_throw grows_on_store grows_ask_store grows_on_receipts grows_on_planning
  grows_on_activity grows_randomUUID grows_newDate grows_risky_error grows_run_query : grows.

Ltac unfold_ledger_head m :=
  lazymatch m with
  | ?f _ => unfold_ledger_head f
  | ?f => unfold f
  end.

(** Walks through a body, splitting on its tests. *)
Ltac grows_step :=
  lazymatch goal with
  | |- grows _ (mbind _ _) => apply grows_bind; [assumption| |intros ?]
  | |- grows _ (try_catch _ _) => apply grows_try_catch; [assumption| |intros ?]
  | |- grows _ (executeRiskyMutation _) => apply grows_executeRiskyMutation; [assumption|]
  | |- grows _ (match _ with _ => _ end) => case_match
  | |- grows _ (let _ := _ in _) => cbv zeta
  | |- grows _ ?m => unfold_ledger_head m
  end.
Ltac grows_run := repeat first [solve [auto with grows] | grows_step].

Section commands_grow.
Context {R L : Type} {RP : CommandReceiptRepository R} {LP : DevBoardLedgerAppendPort L}.
Context {RT : NodeRuntime} {DB : TenantDatabase}.
Context (G : relation L) {G_order : PreOrder G}.
Hypothesis G_planning : ∀ input l, G l (appendPlanningDecisionEntry input l).2.
Hypothesis G_activity : ∀ input l, G l (appendActivityEvent input l).2.
Implicit Types (e : CommandEnvelope).

Lemma grows_planning e agg kind subject content : grows (R:=R) G (planning e agg kind subject content).
Proof. grows_run. Qed.

Lemma grows_activity e agg v name payload : grows (R:=R) G (activity e agg v name payload).
Proof. grows_run. Qed.

Lemma grows_reject_with e code message extra ref : grows (R:=R) G (reject_with e code message extra ref).
Proof. grows_run. Qed.

Lemma grows_accept e code ref versions ids : grows (R:=R) G (accept e code ref versions ids).
Proof. grows_run. Qed.

Lemma grows_endpoint_rows e ids rows : grows (R:=R) G (endpoint_rows e ids rows).
Proof. revert rows. induction ids; intros rows; simpl; grows_run. Qed.
#[local] Hint Resolve grows_planning grows_activity grows_reject_with grows_accept grows_endpoint_rows : grows.

Lemma run_grows c e : grows (R:=R) G (run c e).
Proof. destruct c; grows_run. Qed.

End commands_grow.

(** ** Append-only ledgers *)

Section append_only.
Context {R L : Type} {RP : CommandReceiptRepository R} {LP : DevBoardLedgerAppendPort L}.
Context {LL : DevBoardLedgerLaws L} {RT : NodeRuntime} {DB : TenantDatabase}.

(** The entries and events of the first ledger begin those of the second. *)
Definition appends (l l' : L) : Prop :=
  planning_entries l `prefix_of` planning_entries l' ∧ activity_events l `prefix_of` activity_events l'.

#[export] Instance appends_order : PreOrder appends.
Proof.
  split; [by split|]. intros l1 l2 l3 [Hp Ha] [Hp' Ha'].
  split; [by transitivity (planning_entries l2)|by transitivity (activity_events l2)].
Qed.

Lemma run_appends c e (w : World R L) : appends (w_ledger w) (w_ledger (run c e w).2).
Proof.
  apply run_grows; [apply _|..]; intros input l.
  - destruct (appendPlanningDecisionEntry input l) as [r l'] eqn:Hl.
    apply append_planning in Hl as [Ha Hp]. split; simpl; [|by rewrite Ha].
    destruct r; rewrite Hp; [by apply prefix_app_r|done].
  - destruct (appendActivityEvent input l) as [r l'] eqn:Hl.
    apply append_activity in Hl as [Hp Ha]. split; simpl; [by rewrite Hp|].
    destruct r; rewrite Ha; [by apply prefix_app_r|done].
Qed.

End append_only.

(** ** Sequences of the in-memory ledgers *)

Section gapless_runs.
Import InMemoryDevBoardLedgerAppendStore.
Context {R : Type} {RP : CommandReceiptRepository R} {RT : NodeRuntime} {DB : TenantDatabase}.

Definition gapless_ledger (l : ledger) : Prop :=
  gapless pl_workspaceId (planningDecisionEntries l) ∧ gapless ac_workspaceId (activityEvents l).

#[local] Instance gapless_order : PreOrder (λ l l', gapless_ledger l → gapless_ledger l').
Proof. split; [by intros l|]. intros l1 l2 l3; auto. Qed.

Lemma run_gapless c e (w : World R ledger) :
  gapless_ledger (w_ledger w) → gapless_ledger (w_ledger (run c e w).2).
Proof.
  refine (run_grows (λ l l', gapless_ledger l → gapless_ledger l') _ _ c e w).
  - intros input l [Hp Ha]. split; [by apply gapless_append|done].
  - intros input l [Hp Ha]. split; [done|by apply gapless_append].
Qed.

End gapless_runs.
