(* ===== verification/BoardFacts.v ===== *)
(** * Facts of the board

    Tenants do not see each other: a command writes only rows of the organization and workspace of its envelope:
    whatever any other tenant can select is the same before and after. *)
From S2P Require Import Prelude JsMap JsString JsValue SharedKernel Effects DevBoardDomain.
From S2P Require Import TenantContext Receipts Ledger PlanningRows PlanningStore DependencyGraph.
From S2P Require Import CommandBase ProposalCommands TicketCommands QueueCommands.
From S2P Require Import DependencyCommands LegacyCommands StoreRules Board Reachability.
From S2P Require Import TicketInvariant QueueInvariant Replay ProposalInvariant.

(** ** Commands that no gate has opened *)

(** What a gated command looks at and says. *)
Record gate : Type := mkGate { gate_code : string; gate_message : string; gate_checks_lock : bool }.

Definition gate_of (c : board_command) : option gate :=
  match c with
  | Claim => Some (mkGate "dev_board.gate.claim_disabled_until_tb02" "Claim is disabled until TB-02 ships." true)
  | Start => Some (mkGate "dev_board.gate.start_disabled_until_tb02" "Start is disabled until TB-02 ships." true)
  | SubmitForReview =>
      Some (mkGate "dev_board.gate.submit_for_review_disabled_until_tb-rv1"
              "Submit for Review is disabled until TB-RV1 ships." false)
  | AdmitDone =>
      Some (mkGate "dev_board.gate.admit_done_disabled_until_tb-rv1"
              "Done admission is disabled until TB-RV1 ships." false)
  | _ => None
  end.

Definition unfinished (status : DependencyLockStatus) : list string :=
  bl_devTicketId <$> filter (λ b, bl_done b = false) (ls_blockers status).

Definition gate_refusal (g : gate) (status : DependencyLockStatus) : DomainError :=
  if gate_checks_lock g && ls_locked status
  then failure "dev_board.dependency_locked" (locked_message (unfinished status))
  else failure (gate_code g) (gate_message g).

Section gates.
Context {R L : Type} {RP : CommandReceiptRepository R} {LP : DevBoardLedgerAppendPort L}.
Context {RT : NodeRuntime} {DB : TenantDatabase}.
Implicit Types (e : CommandEnvelope) (w : World R L).

Lemma run_gate c g e :
  gate_of c = Some g →
  run (R:=R) (L:=L) c e = rejectUntilGate e (gate_code g) (gate_message g) (gate_checks_lock g).
Proof. intros Hg. destruct c; simplify_eq/=; reflexivity. Qed.

Lemma reject_with_answer e code message extra ref w ans w' :
  reject_with e code message extra ref w = (Returned ans, w') →
  ans = err (failure code message) ∧ w_store w' = w_store w.
Proof.
  unfold reject_with, mbind, M_bind, on_receipts. destruct (finalizeTransaction _ _) as [[[]|d] rc]; [|done].
  by intros [= <- <-].
Qed.

(** A valid actor of a fresh command gets the answer of the body. *)
Lemma reserved_fresh {RL : CommandReceiptLaws R} e body w :
  unused e (w_receipts w) → result_ok (parseCommandActorRef (actorRef_js (env_actorRef e))) = true →
  ∃ rc, reserved e body w = body (set_receipts rc w).
Proof.
  intros (Hwf & Hnone & _) Hactor.
  destruct (reserve_fresh e (w_receipts w) Hwf Hnone) as (r' & Hres & _). exists r'.
  unfold reserved, reserve, mbind, M_bind, on_receipts. rewrite Hres.
  cbn -[parseCommandActorRef reject_error mret].
  rewrite (bool_decide_true (Reserved = Reserved)) by done. cbn -[parseCommandActorRef reject_error mret].
  by destruct (parseCommandActorRef _).
Qed.

Lemma gate_answer {RL : CommandReceiptLaws R} c g e w ans w' :
  gate_of c = Some g → unused e (w_receipts w) →
  result_ok (parseCommandActorRef (actorRef_js (env_actorRef e))) = true →
  run c e w = (Returned ans, w') →
  ans = err (gate_refusal g (dependency_lock_status (env_organizationId e) (env_workspaceId e)
                               (env_targetAggregateId e) (w_store w))) ∧
  w_store w' = w_store w.
Proof.
  intros Hg Hu Ha Hrun. rewrite (run_gate c g) in Hrun by done. unfold rejectUntilGate, command in Hrun.
  apply withTenant_returned in Hrun as [Hrun _].
  match type of Hrun with reserved _ ?body _ = _ =>
    destruct (reserved_fresh e body w Hu Ha) as [rc Hfresh]; rewrite Hfresh in Hrun end.
  unfold gate_refusal, unfinished. destruct (gate_checks_lock g); cbn [andb].
  - unfold ask_store, on_store, reads, get_state, mbind, M_bind, mret, M_ret in Hrun.
    cbn -[dependency_lock_status reject reject_with] in Hrun.
    case_match; by apply reject_with_answer in Hrun.
  - by apply reject_with_answer in Hrun.
Qed.

End gates.

(** ** The lock *)

Lemma blocker_done_spec org ws s d :
  bl_done (blocker_status org ws s d) = true ↔
  ∃ t, jm_get (key org ws (ed_blockerDevTicketId d)) (devTickets s) = Some t ∧ dt_lane t = LDone.
Proof. unfold blocker_status. simpl. destruct (jm_get _ _); rewrite ?bool_decide_eq_true; naive_solver. Qed.

(** A ticket is locked exactly when an active blocker is not done. *)
Lemma locked_spec org ws id s :
  ls_locked (dependency_lock_status org ws id s) = true ↔
  ∃ d, d ∈ jm_values (dependencyEdges s) ∧ edge_from org ws id d = true ∧
       ¬ ∃ t, jm_get (key org ws (ed_blockerDevTicketId d)) (devTickets s) = Some t ∧ dt_lane t = LDone.
Proof.
  unfold dependency_lock_status. simpl. rewrite existsb_exists. split.
  - intros (b & Hb%list_elem_of_In & Hnd%negb_true_iff). apply list_elem_of_fmap in Hb as (d & -> & Hd).
    apply list_elem_of_filter in Hd as [Hf Hd]. exists d. split_and!; [done..|].
    rewrite <-blocker_done_spec. by rewrite Hnd.
  - intros (d & Hd & Hf & Hn). exists (blocker_status org ws s d). split.
    + apply list_elem_of_In, list_elem_of_fmap_2, list_elem_of_filter. done.
    + apply negb_true_iff, not_true_iff_false. by rewrite blocker_done_spec.
Qed.

(** No ticket of a reachable board is done, so every dependency locks. *)
Lemma locked_by_dependency `{NodeRuntime} org ws id s :
  tickets_ok s → ls_locked (dependency_lock_status org ws id s) = hasActiveDependencies org ws id s.
Proof.
  intros Hs. apply eq_true_iff_eq. rewrite locked_spec. unfold hasActiveDependencies. rewrite existsb_exists.
  split.
  - intros (d & Hd & Hf & _). exists d. by rewrite <-list_elem_of_In.
  - intros (d & Hd%list_elem_of_In & Hf). exists d. split_and!; [done..|].
    intros (t & Hget & Hl). destruct (ticket_lane _ (Hs _ _ Hget)) as [[? _]|[? _]]; congruence.
Qed.

Section isolation.
Variable e : CommandEnvelope.

(** The rows of another tenant under every key it can ask for. *)
Definition other_tenant (o w : string) : Prop :=
  (o ≠ env_organizationId e ∨ w ≠ env_workspaceId e) ∧ no_colon o = true ∧ no_colon w = true.

Definition rows_isolated {V} (m m' : jsmap V) : Prop :=
  ∀ o w id, other_tenant o w → jm_get (key o w id) m' = jm_get (key o w id) m.

Record isolated (s s' : PlanningStore) : Prop := {
  isolated_proposals : rows_isolated (proposals s) (proposals s');
  isolated_tickets : rows_isolated (devTickets s) (devTickets s');
  isolated_edges : rows_isolated (dependencyEdges s) (dependencyEdges s');
  isolated_headers : rows_isolated (todoQueueHeaders s) (todoQueueHeaders s');
  isolated_members : rows_isolated (todoQueueMemberships s) (todoQueueMemberships s');
  isolated_historical k h :
    jm_get k (historicalRecords s) = Some h →
    hr_organizationId h ≠ env_organizationId e ∨ hr_workspaceId h ≠ env_workspaceId e →
    jm_get k (historicalRecords s') = Some h;
  isolated_aliases o id :
    o ≠ env_organizationId e → no_colon o = true →
    jm_get (alias_key o id) (legacyTaskAliases s') = jm_get (alias_key o id) (legacyTaskAliases s);
}.

Lemma rows_isolated_refl {V} (m : jsmap V) : rows_isolated m m.
Proof. done. Qed.

Lemma isolated_refl s : isolated s s.
Proof. by split. Qed.

Hypothesis Ht : tenant_ok e.

Lemma rows_isolated_set {V} (m m' : jsmap V) id v :
  rows_isolated m m' →
  rows_isolated m (jm_set (key (env_organizationId e) (env_workspaceId e) id) v m').
Proof.
  intros Hm o w i (Hne & Ho & Hw). rewrite jm_get_set_ne; [by apply Hm|]. by apply other_tenant_key.
Qed.

Lemma rows_isolated_delete {V} (m m' : jsmap V) id :
  rows_isolated m m' →
  rows_isolated m (jm_delete (key (env_organizationId e) (env_workspaceId e) id) m').
Proof.
  intros Hm o w i (Hne & Ho & Hw). rewrite jm_get_delete.
  destruct (String.eqb_spec (key o w i) (key (env_organizationId e) (env_workspaceId e) id)) as [Heq|];
    [by apply other_tenant_key in Heq|by apply Hm].
Qed.

(** A row of the tenant, under its own key. *)
Lemma rows_isolated_own {V} (org ws id : V → string) (m m' : jsmap V) v :
  rows_isolated m m' → org v = env_organizationId e → ws v = env_workspaceId e →
  rows_isolated m (jm_set (own_key org ws id v) v m').
Proof. intros Hm Ho Hw. unfold own_key. rewrite Ho, Hw. by apply rows_isolated_set. Qed.

Lemma rows_isolated_rebalance i ids m m' :
  rows_isolated m m' →
  rows_isolated m (rebalance_from i (env_organizationId e) (env_workspaceId e) ids m').
Proof.
  revert i m'. induction ids as [|id ids IH]; intros i m' Hm; simpl; [done|].
  apply IH. unfold rerank. case_match; [by apply rows_isolated_set|done].
Qed.

(** ** Writes *)

Lemma isolated_put_proposal p s s' :
  isolated s s' → pr_organizationId p = env_organizationId e → pr_workspaceId p = env_workspaceId e →
  isolated s (put_proposal p s').
Proof. intros [] Ho Hw. split; simpl; try done. by apply rows_isolated_own. Qed.

Lemma isolated_put_ticket t s s' :
  isolated s s' → dt_organizationId t = env_organizationId e → dt_workspaceId t = env_workspaceId e →
  isolated s (put_ticket t s').
Proof. intros [] Ho Hw. split; simpl; try done. by apply rows_isolated_own. Qed.

Lemma isolated_put_edge d s s' :
  isolated s s' → ed_organizationId d = env_organizationId e → ed_workspaceId d = env_workspaceId e →
  isolated s (put_edge d s').
Proof. intros [] Ho Hw. split; simpl; try done. by apply rows_isolated_own. Qed.

Lemma isolated_bump_queue s s' : isolated s s' → isolated s (bump_queue e s').
Proof. intros []. split; simpl; try done. by apply rows_isolated_set. Qed.

Lemma isolated_put_member id rank s s' : isolated s s' → isolated s (put_member e id rank s').
Proof. intros []. split; simpl; try done. by apply rows_isolated_set. Qed.

Lemma isolated_rebalance ids s s' : isolated s s' → isolated s (rebalance e ids s').
Proof. intros []. split; simpl; try done. by apply rows_isolated_rebalance. Qed.

Lemma isolated_reordered id i others s s' : isolated s s' → isolated s (reordered e id i others s').
Proof.
  intros []. split; simpl; try done. case_match; [by apply rows_isolated_rebalance|by apply rows_isolated_set].
Qed.

Lemma isolated_leave_queue t s s' : isolated s s' → isolated s (leave_queue e t s').
Proof.
  intros []. split; simpl; try done; case_match; try done; [by apply rows_isolated_set|by apply rows_isolated_delete].
Qed.

Lemma isolated_put_historical h s s' :
  isolated s s' →
  (∀ h0, jm_get (hr_historicalRecordId h) (historicalRecords s) = Some h0 →
     hr_organizationId h0 = env_organizationId e ∧ hr_workspaceId h0 = env_workspaceId e) →
  isolated s (put_historical h s').
Proof.
  intros [] Hh. split; simpl; try done. intros k h0 Hget Hne. rewrite jm_get_set_ne; [eauto|].
  intros ->. apply Hh in Hget. naive_solver.
Qed.

Lemma alias_key_inj o o' id id' :
  no_colon o = true → no_colon o' = true → alias_key o id = alias_key o' id' → o = o'.
Proof. unfold alias_key. intros Ho Ho' H. by apply separator_inj in H as [-> _]. Qed.

Lemma isolated_put_alias a s s' :
  isolated s s' → al_organizationId a = env_organizationId e → isolated s (put_alias a s').
Proof.
  intros [] Ha. split; simpl; try done. intros o id Hne Ho. rewrite jm_get_set_ne; [eauto|].
  rewrite Ha. intros Heq. apply alias_key_inj in Heq; [done|done|apply Ht].
Qed.

Lemma isolated_realias h ticket s s' :
  isolated s s' → keyed s' → isolated s (realias e h ticket s').
Proof.
  intros Hs Hk. unfold realias. destruct (jm_get _ (legacyTaskAliases s')) as [a|] eqn:Ha; [|done].
  apply (proj2 (keyed_aliases _ Hk)) in Ha as [Heq Ha].
  apply isolated_put_alias; [done|]. simpl. symmetry. eapply alias_key_inj; [apply Ht|done|exact Heq].
Qed.

Lemma isolated_opened s s' : opened e s s' → isolated s s'.
Proof. intros []; [apply isolated_refl|]. split; simpl; try done. by apply rows_isolated_set. Qed.

(** A row the command has found is its own. *)
Lemma historical_own s id h :
  keyed s → historical_of (env_organizationId e) (env_workspaceId e) id s = Some h →
  ∀ h0, jm_get (hr_historicalRecordId h) (historicalRecords s) = Some h0 →
    hr_organizationId h0 = env_organizationId e ∧ hr_workspaceId h0 = env_workspaceId e.
Proof.
  intros Hk. unfold historical_of. destruct (jm_get id (historicalRecords s)) as [row|] eqn:Hget; [|done].
  case_match eqn:Hown; [|done]. intros [= ->] h0. rewrite <-(proj2 (keyed_historical _ Hk) _ _ Hget), Hget.
  intros [= <-]. bool_hyps. by rewrite <-!String.eqb_eq.
Qed.

End isolation.

Section isolation_effect.
Context {RT : NodeRuntime}.

Lemma dependent_changed_tenant t :
  dt_organizationId (dependent_changed t) = dt_organizationId t ∧
  dt_workspaceId (dependent_changed t) = dt_workspaceId t.
Proof. unfold dependent_changed. by case_bool_decide. Qed.

Lemma isolated_dependent e dependent s s' :
  tenant_ok e → isolated e s s' → found_ticket e dependent s →
  isolated e s (put_ticket (dependent_changed dependent) (leave_queue e dependent s')).
Proof.
  intros Ht Hs (_ & Ho & Hw). destruct (dependent_changed_tenant dependent) as [Ho' Hw'].
  apply isolated_put_ticket; [done| |congruence..]. by apply isolated_leave_queue.
Qed.

(** Peels the writes of an effect, outermost first. *)
Ltac isolated_step :=
  lazymatch goal with
  | |- isolated _ ?s ?s => apply isolated_refl
  | |- isolated _ _ (put_proposal _ _) => apply isolated_put_proposal; [assumption| |done..]
  | |- isolated _ _ (put_ticket (dependent_changed _) (leave_queue _ _ _)) => apply isolated_dependent; [assumption| |done]
  | |- isolated _ _ (put_ticket _ _) => apply isolated_put_ticket; [assumption| |done..]
  | |- isolated _ _ (put_edge _ _) => apply isolated_put_edge; [assumption| |done..]
  | |- isolated _ _ (bump_queue _ _) => apply isolated_bump_queue; [assumption|]
  | |- isolated _ _ (put_member _ _ _ _) => apply isolated_put_member; [assumption|]
  | |- isolated _ _ (rebalance _ _ _) => apply isolated_rebalance; [assumption|]
  | |- isolated _ _ (reordered _ _ _ _ _) => apply isolated_reordered; [assumption|]
  | |- isolated _ _ (leave_queue _ _ _) => apply isolated_leave_queue; [assumption|]
  | |- isolated _ _ (if ?b then _ else _) => destruct b
  end.

Lemma effect_isolated e c res s s' :
  keyed s → tenant_ok e → effect e c res s s' → isolated e s s'.
Proof.
  intros Hk Ht Heff. destruct Heff; subst_lets;
    repeat match goal with
    | H : find_proposal e _ s = Some _ |- _ => apply find_proposal_found in H as [? (_ & ? & ?)]; [|done..]
    | H : find_ticket e _ s = Some ?t |- _ =>
        let Hf := fresh "Hf" in
        apply find_ticket_found in H as [? Hf]; [|done..]; destruct (Hf) as (_ & ? & ?)
    | H : find_edge e _ s = Some _ |- _ => apply find_edge_found in H as [? (_ & ? & ?)]; [|done..]
    end;
    repeat isolated_step.
  - unfold imported. apply isolated_put_alias; [done| |done]. apply isolated_put_historical; [|simpl; congruence].
    unfold imported_ticket. case_bool_decide; simpl; repeat isolated_step.
  - apply isolated_realias; [done|..].
    + apply isolated_put_historical; [repeat isolated_step|by apply (historical_own _ s (al_historicalRecordId a) h)].
    + apply keyed_put_historical, keyed_put_ticket; [done|by eapply own_tenant].
  - apply isolated_realias; [done|..].
    + apply isolated_put_historical; [apply isolated_refl|by apply (historical_own _ s (al_historicalRecordId a) h)].
    + by apply keyed_put_historical.
  - apply isolated_put_historical; [apply isolated_refl|by apply (historical_own _ s (rc_historicalRecordId input) h)].
Qed.

Lemma store_step_isolated e c s s' :
  keyed s → tenant_ok e → store_step e c s s' → isolated e s s'.
Proof. intros Hk Ht [res s1 Heff|s1 Ho]; [by eapply effect_isolated|by apply isolated_opened]. Qed.

End isolation_effect.

(** * Further facts of the board: how a ticket enters Todo, where a reordering
    puts it, and what a savepoint undoes *)

(** ** The way into Todo *)

Section todo_entry.
Context {RT : NodeRuntime}.

(** The ticket of a key is in Todo after [s'] and was not in [s]. *)
Definition enters_todo (k : string) (s s' : PlanningStore) : Prop :=
  in_todo (jm_get k (devTickets s)) = false ∧ in_todo (jm_get k (devTickets s')) = true.

Lemma enters_todo_put k t s s0 :
  devTickets s0 = devTickets s → enters_todo k s (put_ticket t s0) → dt_lane t = LTodo ∧ k = ticket_key t.
Proof.
  intros Hs [H1 H2]. simpl in H2. rewrite Hs, jm_get_set in H2.
  destruct (String.eqb_spec k (ticket_key t)) as [->|]; [|congruence].
  by apply bool_decide_eq_true in H2.
Qed.

Lemma enters_todo_same k s s' : devTickets s' = devTickets s → ¬ enters_todo k s s'.
Proof. intros Hs [H1 H2]. rewrite Hs in H2. congruence. Qed.

(** An update that keeps the lane of a ticket it has found is no way in. *)
Lemma enters_todo_same_lane e k t t' s s0 :
  devTickets s0 = devTickets s → found_ticket e t s → ticket_key t' = ticket_key t → dt_lane t' = dt_lane t →
  ¬ enters_todo k s (put_ticket t' s0).
Proof.
  intros Hs Hf Hkey Hl Hin. destruct (enters_todo_put _ _ _ _ Hs Hin) as [Hlane ->].
  destruct Hin as [H1 _]. rewrite Hkey, (found_ticket_get _ _ _ Hf) in H1. simpl in H1.
  apply bool_decide_eq_false in H1. congruence.
Qed.

Lemma effect_enters_todo e c res s s' k :
  keyed s → tenant_ok e → tickets_ok s → effect e c res s s' → enters_todo k s s' →
  ∃ input t, c = ApproveReadyToTodo input ∧ found_ticket e t s ∧ k = ticket_key t ∧
    may_manage_ticket e t s = true.
Proof.
  intros Hk Ht Htok Heff. destruct Heff; subst_lets;
    try (intros Hin; exfalso; by eapply enters_todo_same, Hin);
    repeat match goal with
    | H : find_ticket e _ s = Some _ |- _ => apply find_ticket_found in H as [? ?]; [|done..]
    end.
  - intros [Hl _]%(enters_todo_put k (new_ticket (accepted_ticket_input e input p contract ticketId)) s s); done.
  - intros [Hl _]%enters_todo_put; done.
  - intros [Hl _]%enters_todo_put; done.
  - intros Hin. exfalso. by eapply (enters_todo_same_lane e k t), Hin.
  - intros Hin. exists input, t. split_and!; [done..| |done]. destruct balance.
    + by apply (enters_todo_put k (approved_ticket (approval_input e t (dt_version t) content hash) t) s
                  (rebalance e (queue_ids (todo_queue (env_organizationId e) (env_workspaceId e) s)) s)) in Hin as [_ ->].
    + by apply (enters_todo_put k (approved_ticket (approval_input e t (dt_version t) content hash) t) s s) in Hin as [_ ->].
  - intros Hin. exfalso. by eapply (enters_todo_same_lane e k t), Hin.
  - intros [Hl _]%enters_todo_put; [|done]. by apply dependent_changed_lane in Hl.
  - intros [Hl _]%enters_todo_put; [|done]. by apply dependent_changed_lane in Hl.
  - unfold imported. destruct (imported_ticket e input source disposition) as [t|] eqn:Hi.
    + intros [Hl _]%(enters_todo_put k t s s); [|done]. unfold imported_ticket in Hi. by case_bool_decide; simplify_eq.
    + intros Hin. exfalso. by eapply enters_todo_same, Hin.
  - intros Hin. destruct (enters_todo_put k (promoted_ticket e source input) s s) as [Hl _]; [done| |done].
    destruct Hin as [E1 E2]. split; [done|]. by rewrite realias_tickets in E2.
  - intros [E1 E2]. rewrite realias_tickets in E2. simpl in E2. congruence.
Qed.

End todo_entry.

(** ** The place of a reordered ticket *)

Section reorder_place.
Context {RT : NodeRuntime} {LO : LocaleOrder}.

Definition todo_ids (e : CommandEnvelope) (s : PlanningStore) : list string :=
  queue_ids (todo_queue (env_organizationId e) (env_workspaceId e) s).

(** The moved ticket and its anchor, in the order the anchor asks for. *)
Definition beside (kind : AnchorKind) (moved anchor : string) : list string :=
  match kind with ABefore => [moved; anchor] | AAfter => [anchor; moved] end.

Lemma ordered_beside kind index id n i others :
  neighbor_index n others = Some i → index = match kind with ABefore => i | AAfter => S i end →
  ∃ before after, queue_ids others = before ++ n :: after ∧
    ordered_ids index id others = before ++ beside kind id n ++ after.
Proof.
  intros Hi ->. apply find_index_Some in Hi as (m & Hm & Hn%String.eqb_eq & _).
  pose proof (take_drop_middle others i m Hm) as Hsplit.
  assert (queue_ids others = queue_ids (take i others) ++ n :: queue_ids (drop (S i) others)) as Hids.
  { rewrite <-Hsplit at 1. unfold queue_ids. by rewrite fmap_app, fmap_cons, Hn. }
  assert (length (queue_ids (take i others)) = i) as Hlen.
  { unfold queue_ids. rewrite length_fmap, length_take. apply lookup_lt_Some in Hm. lia. }
  exists (queue_ids (take i others)), (queue_ids (drop (S i) others)). split; [done|].
  unfold ordered_ids. rewrite Hids. unfold insert_at. destruct kind.
  - by rewrite take_app_length', drop_app_length' by done.
  - assert (length (queue_ids (take i others) ++ [n]) = S i) as Hlen' by (rewrite length_app; simpl; lia).
    set (front := queue_ids (take i others)) in *.
    rewrite (cons_middle n front), app_assoc, (take_app_length' (front ++ [n])), (drop_app_length' (front ++ [n])) by done.
    simpl. by rewrite <-app_assoc.
Qed.

Lemma effect_reorder_place e input res s s' kind n v :
  keyed s → tenant_ok e → effect e (ReorderTodo input) res s s' → ri_anchor input = Neighbor kind n v →
  ∃ before after,
    filter (λ i, i ≠ ri_devTicketId input) (todo_ids e s) = before ++ n :: after ∧
    todo_ids e s' = before ++ beside kind (ri_devTicketId input) n ++ after.
Proof.
  intros Hk Ht Heff Hanchor. inversion Heff as [| | | | | | | | | | |? index t ? _ _ _ _ _ Hf _ _ _ Hm others Hp Hcap t' | | | | | | | |].
  subst. apply find_ticket_found in Hf as [Hid Hf]; [|done..]. rewrite <-Hid.
  pose proof (insertion_place_bound _ _ _ _ _ _ _ Hp) as Hlen.
  pose proof (reordered_queue e s Ht (keyed_members _ Hk) (dt_id t) index Hm Hlen) as Hq.
  unfold todo_ids. rewrite <-(queue_ids_others e s (dt_id t)).
  change (todo_queue _ _ (put_ticket _ _)) with
    (todo_queue (env_organizationId e) (env_workspaceId e) (reordered e (dt_id t) index others s)).
  unfold others. rewrite Hq. rewrite Hanchor in Hp. simpl in Hp.
  destruct (jm_get _ (devTickets s)); [|done]. destruct (neighbor_index n _) as [i|] eqn:Hi; [|done].
  repeat case_match; simplify_eq; by eapply ordered_beside.
Qed.

End reorder_place.

(** ** Savepoints *)

Section savepoint.
Context {R L : Type} {RT : NodeRuntime}.

Lemma risky_error_world {A} x (w : World R L) r w' :
  risky_error (A:=A) x w = (r, w') → w' = w ∧ ∀ a, r ≠ Returned (ok a).
Proof. unfold risky_error. repeat case_match; intros [= <- <-]; by split. Qed.

Lemma savepoint_undone {A} (m : M (World R L) A) w r w' :
  executeRiskyMutation m w = (r, w') → (∀ a, r ≠ Returned (ok a)) →
  ∃ s1, w_store w' = restore_maps (w_store w) s1.
Proof.
  unfold executeRiskyMutation, try_catch, mbind, M_bind, get_state, put_state, mret, M_ret.
  destruct (m w) as [[a|x] w1]; [intros [= <- <-] H; by destruct (H a)|].
  intros [-> _]%risky_error_world _. by exists (w_store w1).
Qed.

End savepoint.
