(* ===== verification/ExampleBoard.v ===== *)
(** * A concrete board

    A runtime, a tenant and a short history of commands on which the theorems
    are applied: two proposals become tickets, a legacy task is imported, one
    ticket is classified and approved to Todo, and a dependency is added. *)
From S2P Require Import Prelude JsString JsValue JsMap SharedKernel Effects DevBoardDomain.
From S2P Require Import TenantContext Receipts Ledger PlanningRows PlanningStore CommandBase.
From S2P Require Import TicketCommands ProposalCommands QueueCommands DependencyCommands.
From S2P Require Import LegacyCommands StoreRules Board Refinement Reachability.

Module Example.

(** ** The runtime *)

(** The text itself stands for its hash, UUIDs and clock readings are numbered,
    and strings are compared by their code units. *)
#[local] Instance example_runtime : NodeRuntime := {|
  sha256_hex text := text;
  randomUUID_at n := "00000000-0000-4000-8000-" +:+ pad 12 (Z.of_nat n);
  dateNow_at n := (1700000000000 + 1000 * Z.of_nat n)%Z;
  localeCompare s t := if decide (s = t) then 0%Z else if decide (String.le s t) then (-1)%Z else 1%Z;
|}.

#[local] Instance example_locale : LocaleOrder.
Proof.
  assert (∀ s t, (localeCompare s t <= 0)%Z ↔ String.le s t) as H.
  { intros s t. simpl. repeat case_decide; subst; split; intros; try done; lia. }
  split.
  - intros s. simpl. by rewrite decide_True.
  - intros s t. rewrite !H. apply (total String.le).
  - intros s t u. rewrite !H. apply transitivity.
  - intros s t. rewrite !H. apply (anti_symm String.le).
Qed.

#[local] Instance example_database : TenantDatabase := application_database.

Definition world : Type :=
  World InMemoryCommandReceiptRepository.repository InMemoryDevBoardLedgerAppendStore.ledger.

(** ** The tenant *)

Definition org : string := "11111111-1111-4111-8111-111111111111".
Definition ws : string := "22222222-2222-4222-8222-222222222222".
Definition owner : string := "33333333-3333-4333-8333-333333333333".
Definition proposal1 : string := "44444444-4444-4444-8444-444444444441".
Definition proposal2 : string := "44444444-4444-4444-8444-444444444442".
Definition task : string := "55555555-5555-4555-8555-555555555555".
Definition ticket1 : string := "00000000-0000-4000-8000-000000000000".
Definition ticket2 : string := "00000000-0000-4000-8000-000000000001".

Definition legacy_task : LegacyTaskSource :=
  mkSourceTask task org ws "todo" (Some owner) 7 1690000000000 1690000001000 [("title", JStr "Old task")] [].

Definition seed : PlanningStore :=
  mkStore [] [] [] [] [] [(task, legacy_task)] [] [] [org +:+ ":" +:+ owner] [org +:+ ":" +:+ owner +:+ ":owner"].

Definition start_world : world :=
  mkWorld seed [] InMemoryDevBoardLedgerAppendStore.empty_ledger 0 0.

(** The envelope of the n-th command. *)
Definition envelope (n : string) (name target : string) (versions : list CommandExpectedVersion) : CommandEnvelope :=
  mkEnvelope ("command-" +:+ n) ("key-" +:+ n) ("hash-" +:+ n) org ws name target
    (mkActor "user" owner "human_owner") (mkSource "web" "test") 1 ("correlation-" +:+ n) None versions.

Definition proposal_at (id : string) (v : Z) := mkExpected "proposal" id v.
Definition ticket_at (id : string) (v : Z) := mkExpected "dev_ticket" id v.
Definition todo_at (v : Z) := mkExpected "lane_queue" "todo" v.

Lemma envelope_tenant n name target versions : tenant_ok (envelope n name target versions).
Proof. by split. Qed.

(** ** The history *)

Definition draft (n id : string) : board_command * CommandEnvelope :=
  (DraftProposal (mkDraftProposal "  Login   fails " (JStr "blocking") None), envelope n "draftProposal" id []).
Definition submit (n id : string) : board_command * CommandEnvelope :=
  (SubmitProposal id, envelope n "submitProposal" id [proposal_at id 1]).
Definition accept (n id : string) : board_command * CommandEnvelope :=
  (AcceptProposal (mkAcceptProposal id owner None), envelope n "acceptProposal" id [proposal_at id 2]).
Definition import (n : string) : board_command * CommandEnvelope :=
  (ImportLegacyDevTicket (mkImportLegacy task (Some owner)), envelope n "importLegacyDevTicket" task []).
Definition classify (n id : string) : board_command * CommandEnvelope :=
  (SetDevTicketClassification (mkSetClassification id (JStr "bug") (JArr [JStr "security"; JStr "frontend"])
      (JStr "p1") JUndefined (JStr "high") None),
   envelope n "setDevTicketClassification" id [ticket_at id 1]).

(** The contract of the classified ticket. *)
Definition bug : Classification := mkClassification TBug [WFrontend; WSecurity] P1 None RHigh.
Definition contract : jsobj :=
  [("humanOwnerUserId", JStr owner); ("classification", JObj (classification_js bug));
   ("changeRiskPolicy", evaluation_js (evaluateChangeRisk TBug [WFrontend; WSecurity] false))].

Definition approve_at (n id : string) (queue : Z) : board_command * CommandEnvelope :=
  (ApproveReadyToTodo
     (mkApproveReady id (JObj contract) 2 (default "" (computeReadyContractContentHash contract)) queue),
   envelope n "approveReadyToTodo" id [ticket_at id 2]).
Definition approve (n id : string) : board_command * CommandEnvelope := approve_at n id 1.
Definition depend (n dependent blocker : string) : board_command * CommandEnvelope :=
  (AddDependency (mkAddDependency dependent blocker "needs it"),
   envelope n "addDependency" dependent [ticket_at dependent 1; ticket_at blocker 1]).

Definition history : list (board_command * CommandEnvelope) :=
  [draft "1" proposal1; submit "2" proposal1; accept "3" proposal1;
   draft "4" proposal2; submit "5" proposal2; accept "6" proposal2;
   import "7"; classify "8" ticket1; approve "9" ticket1; depend "10" ticket2 task].

(** The world after a history. *)
Fixpoint replayed (cs : list (board_command * CommandEnvelope)) (w : world) : world :=
  match cs with
  | [] => w
  | (c, e) :: cs => replayed cs (run c e w).2
  end.

(** The answers of a history. *)
Fixpoint answered (cs : list (board_command * CommandEnvelope)) (w : world) : list (outcome (Result CommandResult)) :=
  match cs with
  | [] => []
  | (c, e) :: cs => (run c e w).1 :: answered cs (run c e w).2
  end.

Definition example_world : world := replayed history start_world.

Lemma reachable_start : reachable start_world.
Proof. apply reach_start. by split_and!. Qed.

Lemma reachable_replayed cs w :
  Forall (λ ce, tenant_ok ce.2) cs → reachable w → reachable (replayed cs w).
Proof.
  revert w. induction cs as [|[c e] cs IH]; intros w Hcs Hw; simpl; [done|].
  apply Forall_cons in Hcs as [He Hcs]. apply IH; [done|]. eapply reach_run; [done|done|apply surjective_pairing].
Qed.

Lemma history_tenant : Forall (λ ce, tenant_ok ce.2) history.
Proof. repeat constructor. Qed.

Lemma reachable_example : reachable example_world.
Proof. apply reachable_replayed; [apply history_tenant|apply reachable_start]. Qed.

(** Every command of the history is accepted. *)
Example history_accepted :
  forallb (λ r, match r with Returned r => result_ok r | Thrown _ => false end) (answered history start_world) = true.
Proof. vm_compute. reflexivity. Qed.

(** Two tickets in Todo, for the reorderings. *)
Definition two_in_todo : list (board_command * CommandEnvelope) :=
  [draft "1" proposal1; submit "2" proposal1; accept "3" proposal1;
   draft "4" proposal2; submit "5" proposal2; accept "6" proposal2;
   classify "7" ticket1; approve "8" ticket1; classify "9" ticket2; approve_at "10" ticket2 2].

Definition queue_world : world := replayed two_in_todo start_world.

Lemma reachable_queue : reachable queue_world.
Proof. apply reachable_replayed; [repeat constructor|apply reachable_start]. Qed.

Definition reorder (n id : string) (anchor : TodoReorderAnchor) : board_command * CommandEnvelope :=
  (ReorderTodo (mkReorderTodo id "todo" 3 "todo" 3 anchor []), envelope n "reorderTodo" id [ticket_at id 3]).

End Example.
