(* ===== verification/DomainTheorems.v ===== *)
(** * What the domain functions promise

    Vocabulary parsers, work areas, the Change Risk policy, canonical JSON, texts
    typed by people, and the search for dependency cycles. *)
From S2P Require Import Prelude JsMap JsString JsValue SharedKernel Effects DevBoardDomain.
From S2P Require Import PlanningRows PlanningStore DependencyGraph CommandBase TicketCommands.
From S2P Require Import TicketInvariant ExampleBoard.

(** ** Canonical JSON does not depend on the order of properties *)

(** ** Equality up to the order of properties *)

Inductive json_eq : jsval → jsval → Prop :=
| json_eq_refl v : json_eq v v
| json_eq_arr l l' : items_eq l l' → json_eq (JArr l) (JArr l')
| json_eq_obj o o' o'' :
    NoDup (o.*1) → entries_eq o o' → o' ≡ₚ o'' → json_eq (JObj o) (JObj o'')
with items_eq : list jsval → list jsval → Prop :=
| items_eq_nil : items_eq [] []
| items_eq_cons v v' l l' : json_eq v v' → items_eq l l' → items_eq (v :: l) (v' :: l')
with entries_eq : jsobj → jsobj → Prop :=
| entries_eq_nil : entries_eq [] []
| entries_eq_cons k v v' o o' : json_eq v v' → entries_eq o o' → entries_eq ((k, v) :: o) ((k, v') :: o').

Scheme json_eq_mind := Minimality for json_eq Sort Prop
  with items_eq_mind := Minimality for items_eq Sort Prop
  with entries_eq_mind := Minimality for entries_eq Sort Prop.
Combined Scheme json_eq_mutind from json_eq_mind, items_eq_mind, entries_eq_mind.

(** ** The loops of [canonicalJson] *)

Definition entry_canonical (kv : string * jsval) : option (string * string) :=
  pair kv.1 <$> canonicalJson kv.2.

Lemma canonicalJson_arr l :
  canonicalJson (JArr l) = (λ parts, "[" +:+ join "," parts +:+ "]") <$> map_option canonicalJson l.
Proof.
  unfold canonicalJson; fold canonicalJson. f_equal.
  induction l as [|v l IH]; [done|]. simpl. by rewrite IH.
Qed.

Lemma canonicalJson_obj o :
  canonicalJson (JObj o) =
  (λ entries, "{" +:+ join "," (entry_text <$> sort_entries entries) +:+ "}") <$> map_option entry_canonical o.
Proof.
  unfold canonicalJson; fold canonicalJson. f_equal.
  induction o as [|[k v] o IH]; [done|]. simpl. rewrite IH. unfold entry_canonical at 2. simpl.
  by destruct (canonicalJson v).
Qed.

(** ** Sorting the entries *)

Lemma entry_canonical_keys o entries : map_option entry_canonical o = Some entries → entries.*1 = o.*1.
Proof.
  rewrite map_option_Forall2. unfold entry_canonical. induction 1 as [|[k v] e o es He _ IH]; [done|].
  csimpl in *. apply fmap_Some in He as (t & _ & ->). by rewrite IH.
Qed.

Lemma map_option_Permutation {A B} (f : A → option B) l l' :
  l ≡ₚ l' → (map_option f l = None ∧ map_option f l' = None) ∨
            ∃ r r', map_option f l = Some r ∧ map_option f l' = Some r' ∧ r ≡ₚ r'.
Proof.
  induction 1 as [|x l l' _ IH|x y l|l1 l2 l3 _ IH1 _ IH2]; simpl.
  - right. by exists [], [].
  - destruct (f x) as [y|]; [|by left]. destruct IH as [[-> ->]|(r & r' & -> & -> & Hr)]; [by left|].
    right. exists (y :: r), (y :: r'). split_and!; [done..|]. by apply perm_skip.
  - destruct (f x) as [a|], (f y) as [b|], (map_option f l) as [r|]; try (by left).
    right. exists (b :: a :: r), (a :: b :: r). split_and!; [done..|]. apply Permutation_swap.
  - destruct IH1 as [[-> E2]|(r1 & r2 & -> & E2 & H12)], IH2 as [[E2' ->]|(r2' & r3 & E2' & -> & H23)];
      rewrite E2' in E2; simplify_eq; [by left|].
    right. exists r1, r3. split_and!; [done..|]. by etrans.
Qed.

Lemma sort_entries_unique {A} (l l' : list (string * A)) :
  NoDup (l.*1) → l ≡ₚ l' → sort_entries l = sort_entries l'.
Proof.
  intros Hnd Hp. unfold sort_entries.
  assert (Transitive (@key_le A)) by (intros a b c; unfold key_le; apply transitivity).
  assert (Total (@key_le A)) by (intros a b; unfold key_le; apply total; apply _).
  apply (StronglySorted_unique_strong key_le).
  - intros x y Hx Hy Hxy Hyx. rewrite merge_sort_Permutation in Hx. rewrite merge_sort_Permutation, <-Hp in Hy.
    assert (x.1 = y.1) as Heq by (by apply (anti_symm String.le)).
    destruct x as [k a], y as [k' b]; simpl in *; subst. f_equal.
    apply list_elem_of_lookup in Hx as [i Hi], Hy as [j Hj].
    assert (i = j) as ->; [|by simplify_eq].
    eapply (NoDup_lookup (l.*1)); [done|by rewrite list_lookup_fmap, Hi|by rewrite list_lookup_fmap, Hj].
  - by apply StronglySorted_merge_sort.
  - by apply StronglySorted_merge_sort.
  - by rewrite !merge_sort_Permutation.
Qed.

(** ** The text *)

Lemma canonical_ext_all :
  (∀ v v', json_eq v v' → canonicalJson v = canonicalJson v') ∧
  (∀ l l', items_eq l l' → map_option canonicalJson l = map_option canonicalJson l') ∧
  (∀ o o', entries_eq o o' → map_option entry_canonical o = map_option entry_canonical o').
Proof.
  apply json_eq_mutind; try done.
  - intros l l' _ IH. by rewrite !canonicalJson_arr, IH.
  - intros o o' o'' Hnd _ IH Hp. rewrite !canonicalJson_obj, IH.
    destruct (map_option_Permutation entry_canonical _ _ Hp) as [[-> ->]|(r & r' & Hr & -> & Hrr)]; [done|].
    rewrite Hr. simpl. rewrite (sort_entries_unique r r'); [done| |done].
    rewrite (entry_canonical_keys o); [done|]. by rewrite IH.
  - intros v v' l l' _ IH _ IHl. simpl. by rewrite IH, IHl.
  - intros k v v' o o' _ IH _ IHo. simpl. unfold entry_canonical at 1 3. simpl. by rewrite IH, IHo.
Qed.

Lemma canonical_ext v v' : json_eq v v' → canonicalJson v = canonicalJson v'.
Proof. apply canonical_ext_all. Qed.

(** ** Vocabularies *)

Ltac parser_exact :=
  apply parse_enum_ok;
    [intros [] []; simpl; intros; congruence | intros []; set_solver].

(** Each parser of the domain accepts exactly the strings of its vocabulary,
    and reads back the value whose string it is given. *)
Theorem vocabularies_round_trip v :
  (∀ x, parseDevTicketType v = ok x ↔ v = JStr (devTicketType_str x)) ∧
  (∀ x, parseWorkArea v = ok x ↔ v = JStr (workArea_str x)) ∧
  (∀ x, parsePriority v = ok x ↔ v = JStr (priority_str x)) ∧
  (∀ x, parseSeverity v = ok x ↔ v = JStr (severity_str x)) ∧
  (∀ x, parseChangeRisk v = ok x ↔ v = JStr (changeRisk_str x)) ∧
  (∀ x, parseDevTicketLane v = ok x ↔ v = JStr (lane_str x)) ∧
  (∀ x, parseReadyState v = ok x ↔ v = JStr (readyState_str x)) ∧
  (∀ x, parseOriginKind v = ok x ↔ v = JStr (originKind_str x)) ∧
  (∀ x, parseBlockingAssessment v = ok x ↔ v = JStr (blocking_str x)) ∧
  (∀ x, parseProposalLifecycleState v = ok x ↔ v = JStr (lifecycle_str x)).
Proof. split_and!; intros x; parser_exact. Qed.

(** [normalizeWorkAreas] accepts exactly the non-empty arrays of distinct work
    areas, and returns them in the order of their strings. *)
Theorem work_areas_are_normalized v areas :
  normalizeWorkAreas v = ok areas ↔
  ∃ listed, v = JArr ((λ w, JStr (workArea_str w)) <$> listed) ∧ listed ≠ [] ∧ NoDup listed ∧
            areas ≡ₚ listed ∧ Sorted workArea_le areas.
Proof. apply normalizeWorkAreas_ok. Qed.

(** ** The Change Risk policy *)

Section policy.
Context {RT : NodeRuntime}.

(** The minimum Change Risk is the level the rules give, and depends on the
    work areas as a set: neither their order nor their repetition counts. *)
Theorem policy_minimum type areas areas' dependencies :
  (∀ w, w ∈ areas ↔ w ∈ areas') →
  evaluateChangeRisk type areas dependencies = evaluateChangeRisk type areas' dependencies ∧
  changeRisk_index (ev_minimumChangeRisk (evaluateChangeRisk type areas dependencies))
  = policy_level type areas' dependencies.
Proof. intros H. rewrite <-(evaluate_ext type areas areas' dependencies H). split; [done|].
  rewrite (evaluate_ext type areas areas' dependencies H). apply minimum_is_level. Qed.

(** More work areas, or an active dependency, never lower the minimum. *)
Theorem policy_is_monotone type areas areas' dependencies dependencies' :
  areas ⊆ areas' → (dependencies = true → dependencies' = true) →
  (compareChangeRisk (ev_minimumChangeRisk (evaluateChangeRisk type areas dependencies))
     (ev_minimumChangeRisk (evaluateChangeRisk type areas' dependencies')) <= 0)%Z.
Proof. apply minimum_mono. Qed.

(** ** Contracts *)

(** Two contents that differ only in the order of properties, at any depth,
    have the same canonical text and the same contract hash. *)
Theorem contract_hash_ignores_property_order o o' :
  json_eq (JObj o) (JObj o') →
  canonicalJson (JObj o) = canonicalJson (JObj o') ∧
  computeReadyContractContentHash o = computeReadyContractContentHash o'.
Proof.
  intros Heq%canonical_ext. split; [done|]. unfold computeReadyContractContentHash. by rewrite Heq.
Qed.

End policy.

(** ** Texts *)

(** The checks of both functions on a normalized text. *)
Lemma bounded_text (s t : string) (d d' : DomainError) :
  (if String.length s =? 0 then err d else if 4000 <? String.length s then err d' else ok s) = ok t ↔
  t = s ∧ 1 <= String.length t <= 4000.
Proof.
  destruct (Nat.eqb_spec (String.length s) 0), (Nat.ltb_spec 4000 (String.length s));
    split; intros Heq; simplify_eq; destruct_and?; subst; first [done | split; [done|lia] | lia].
Qed.

(** A decision reason and a discovery summary are accepted exactly when they
    hold between 1 and 4000 characters once their white space is normalized;
    what is stored is that normal form, which is accepted again as it is. *)
Theorem texts_are_normalized value text :
  (decisionReason value = ok text ↔ text = normalize_spaces value ∧ 1 <= String.length text <= 4000) ∧
  (normalizeDiscoverySummary value = ok text ↔ text = normalize_spaces value ∧ 1 <= String.length text <= 4000) ∧
  (decisionReason value = ok text → decisionReason text = ok text).
Proof.
  split_and!; [apply bounded_text|apply bounded_text|].
  intros [-> Hlen]%bounded_text. apply bounded_text. by rewrite normalize_spaces_idemp.
Qed.

(** ** Dependency cycles *)

(** C38. [dependencyCreatesCycle] answers exactly whether the dependent can be
    reached from the blocker along active dependencies of the workspace, and
    adding an edge it admits keeps an acyclic workspace acyclic. *)
Theorem cycle_search_is_reachability org ws dependent blocker s :
  (dependency_creates_cycle org ws dependent blocker s = true ↔
   rtc (depends org ws (jm_values (dependencyEdges s))) blocker dependent) ∧
  (acyclic org ws (jm_values (dependencyEdges s)) → dependency_creates_cycle org ws dependent blocker s = false →
   ∀ a, ¬ tc (λ x y, depends org ws (jm_values (dependencyEdges s)) x y ∨ (x = dependent ∧ y = blocker)) a a).
Proof.
  split; [apply dependency_creates_cycle_spec|]. intros Hac Hno. apply acyclic_new_edge; [done|].
  rewrite <-dependency_creates_cycle_spec. by rewrite Hno.
Qed.

(** C39. The search terminates on every graph, cyclic ones included: the fuel
    [cycle_fuel], two more than the number of edges, is always enough. *)
Theorem cycle_search_terminates org ws dependent edges ticketId :
  ∃ answer seen, visit org ws dependent edges (cycle_fuel edges) [] ticketId = Some (answer, seen).
Proof. apply visit_total. Qed.

(** ** The theorems at work *)

Section witnesses.
#[local] Existing Instance Example.example_runtime.

Lemma policy_minimum_witness :
  changeRisk_index (ev_minimumChangeRisk (evaluateChangeRisk TBug [WSecurity; WFrontend; WSecurity] true))
  = policy_level TBug [WFrontend; WSecurity] true ∧
  policy_level TBug [WFrontend; WSecurity] true = 3%Z.
Proof.
  split; [|reflexivity].
  apply (policy_minimum TBug [WSecurity; WFrontend; WSecurity] [WFrontend; WSecurity] true). set_solver.
Defined.

(** Two contents whose nested objects list their properties in another order. *)
Definition content1 : jsobj := [("b", JObj [("x", jsint 1); ("y", JNull)]); ("a", JArr [JStr "s"])].
Definition content2 : jsobj := [("a", JArr [JStr "s"]); ("b", JObj [("y", JNull); ("x", jsint 1)])].

Lemma contract_hash_ignores_property_order_witness :
  computeReadyContractContentHash content1 = computeReadyContractContentHash content2.
Proof.
  apply (contract_hash_ignores_property_order content1 content2). unfold content1, content2.
  eapply (json_eq_obj _ [("b", JObj [("y", JNull); ("x", jsint 1)]); ("a", JArr [JStr "s"])]).
  - simpl. repeat constructor; set_solver.
  - repeat constructor. eapply (json_eq_obj _ [("x", jsint 1); ("y", JNull)]).
    + simpl. repeat constructor; set_solver.
    + repeat constructor.
    + apply Permutation_swap.
  - apply Permutation_swap.
Defined.

(** The edges 1 -> 2 and 2 -> 3 of a workspace: 3 may not depend on 1. *)
Definition chain_edge (id a b : string) : DependencyEdgeRow := mkEdge id "o" "w" 1 a b EActive "c" None.
Definition chain : PlanningStore :=
  set_dependencyEdges [("e1", chain_edge "e1" "1" "2"); ("e2", chain_edge "e2" "2" "3")] empty_store.

Lemma cycle_search_is_reachability_witness :
  rtc (depends "o" "w" (jm_values (dependencyEdges chain))) "1" "3" ∧
  dependency_creates_cycle "o" "w" "1" "3" chain = false.
Proof.
  split; [|reflexivity]. apply (cycle_search_is_reachability "o" "w" "3" "1" chain). reflexivity.
Defined.

End witnesses.
