(* ===== verification/KernelTheorems.v ===== *)
(** * What the shared kernel, the tenant guard and the receipts promise *)
From S2P Require Import Prelude JsString JsValue JsMap SharedKernel Effects DevBoardDomain.
From S2P Require Import TenantContext Receipts Ledger PlanningStore CommandBase Replay ExampleBoard.
From Stdlib Require Import Ascii.

(** ** Opaque identifiers *)

(** An opaque identifier is accepted exactly when it is a string of 2 to 128
    letters, digits, underscores and hyphens that starts with a letter or a
    digit; [makeOpaqueId] throws the error [parseOpaqueId] answers with. *)
Theorem opaque_ids name value s :
  (Ids.parseOpaqueId name value = ok s ↔
   value = JStr s ∧ 2 <= String.length s <= 128 ∧ string_forall Ids.is_id_char s = true ∧
   ∃ c r, s = String c r ∧ Ids.is_alnum c = true) ∧
  Ids.makeOpaqueId name s = match Ids.parseOpaqueId name (JStr s) with ok v => inl v | err e => inr e end.
Proof.
  split; [|done]. rewrite Ids.parseOpaqueId_ok. unfold Ids.opaqueIdPattern. destruct s as [|c s].
  { split; [by intros []|intros (_ & ? & _); simpl in *; lia]. }
  rewrite !andb_true_iff, !Nat.leb_le. cbn [String.length string_forall]. rewrite andb_true_iff. split.
  - intros (-> & ((Hc & Hs) & ?) & ?). split; [done|]. split; [lia|].
    split; [|by exists c, s]. by unfold Ids.is_id_char; rewrite Hc.
  - intros (-> & ? & (_ & Hs) & (c' & r & [= <- <-] & Hc)). split_and!; done || lia.
Qed.

(** ** Money *)

(** What [parse] accepts is a non-negative safe integer with a three-letter
    upper-case currency, and such a value is read back from its JSON form. *)
Theorem money_round_trip m v :
  (Money.parse v = ok m → Money.valid m ∧ (0 <= Money.amountMinor m)%Z) ∧
  (Money.valid m → (0 <= Money.amountMinor m)%Z → Money.parse (JObj (Money.toJSON m)) = ok m).
Proof.
  split.
  - unfold Money.parse. intros H. repeat case_match; simplify_eq.
    match goal with Hc : Money.create _ _ = inl _ |- _ => apply Money.create_inv in Hc as (-> & Hv & _) end.
    split; [done|]. simpl in *. lia.
  - intros [Hz Hc] Hpos. unfold Money.parse, Money.toJSON. cbn -[Money.create Z.ltb].
    destruct (Z.ltb_spec (Money.amountMinor m) 0); [lia|].
    rewrite Money.create_valid by done. by destruct m.
Qed.

(** Sums and differences of valid amounts are exact or refused: the currencies
    must be the same and the result must be a safe integer, and what was added
    can be subtracted again. *)
Theorem money_arithmetic a b c :
  Money.valid a → Money.valid b →
  (Money.add a b = inl c ↔
   Money.currency a = Money.currency b ∧ c = Money.mkMoney (Money.amountMinor a + Money.amountMinor b) (Money.currency a) ∧
   (Z.abs (Money.amountMinor a + Money.amountMinor b) <= Money.max_safe_integer)%Z) ∧
  (Money.subtract a b = inl c ↔
   Money.currency a = Money.currency b ∧ c = Money.mkMoney (Money.amountMinor a - Money.amountMinor b) (Money.currency a) ∧
   (Z.abs (Money.amountMinor a - Money.amountMinor b) <= Money.max_safe_integer)%Z) ∧
  (Money.add a b = inl c → Money.subtract c b = inl a).
Proof.
  intros [Ha Hca] [Hb Hcb].
  assert (∀ z, Money.create (NInt z) (Money.currency a) = inl c ↔
            c = Money.mkMoney z (Money.currency a) ∧ (Z.abs z <= Money.max_safe_integer)%Z) as Hcreate.
  { intros z. split.
    - intros H. apply Money.create_inv in H as ([= ->] & [Hz _] & Hcur).
      rewrite Money.currency_normal in Hcur by done. rewrite <-Hcur. split; [by destruct c|done].
    - intros [-> Hz]. by apply Money.create_valid. }
  assert (∀ z, (if String.eqb (Money.currency a) (Money.currency b) then Money.create (NInt z) (Money.currency a)
                else inr (Money.currencyMismatch a b)) = inl c ↔
            Money.currency a = Money.currency b ∧ c = Money.mkMoney z (Money.currency a) ∧
            (Z.abs z <= Money.max_safe_integer)%Z) as Hsame.
  { intros z. destruct (String.eqb_spec (Money.currency a) (Money.currency b)) as [Heq|Hne].
    - rewrite Hcreate. naive_solver.
    - split; [done|]. by intros []. }
  assert (Money.add a b = if String.eqb (Money.currency a) (Money.currency b)
            then Money.create (NInt (Money.amountMinor a + Money.amountMinor b)) (Money.currency a)
            else inr (Money.currencyMismatch a b)) as Hadd
    by (unfold Money.add, Money.assertSameCurrency; by case_match).
  assert (Money.subtract a b = if String.eqb (Money.currency a) (Money.currency b)
            then Money.create (NInt (Money.amountMinor a - Money.amountMinor b)) (Money.currency a)
            else inr (Money.currencyMismatch a b)) as Hsub
    by (unfold Money.subtract, Money.assertSameCurrency; by case_match).
  split_and!; [by rewrite Hadd, Hsame|by rewrite Hsub, Hsame|].
  rewrite Hadd, Hsame. intros (Hcur & -> & Hz). unfold Money.subtract, Money.assertSameCurrency. cbn -[Money.create].
  rewrite Hcur, String.eqb_refl. replace (_ + _ - _)%Z with (Money.amountMinor a) by lia.
  rewrite Money.create_valid by done. rewrite <-Hcur. by destruct a.
Qed.

(** ** External references *)

(** A reference is made exactly when its three parts hold more than white
    space; its parts are trimmed, and making it again gives it back. *)
Theorem references_are_normal input r :
  Refs.makeOpaqueExternalRef input = inl r →
  r = Refs.mkRef (trim (Refs.ref_system input)) (trim (Refs.ref_kind input)) (trim (Refs.ref_value input)) ∧
  Refs.makeOpaqueExternalRef r = inl r.
Proof.
  assert (∀ f v s, Refs.normalizePart f v = inl s ↔ s = trim v ∧ trim v ≠ "") as Hpart.
  { intros f v s. unfold Refs.normalizePart. destruct (trim v) as [|c t]; simpl; naive_solver. }
  intros H. unfold Refs.makeOpaqueExternalRef in H. repeat case_match; simplify_eq.
  repeat match goal with Hn : Refs.normalizePart _ _ = inl _ |- _ => apply Hpart in Hn as [-> Hn] end.
  split; [done|]. unfold Refs.makeOpaqueExternalRef. cbn [Refs.ref_system Refs.ref_kind Refs.ref_value].
  assert (∀ f v, trim v ≠ "" → Refs.normalizePart f (trim v) = inl (trim v)) as Hagain.
  { intros f v Hv. apply Hpart. by rewrite trim_idemp. }
  by rewrite !Hagain.
Qed.

(** ** The tenant guard *)

(** The answer of the driver to a query, when it gave one. *)
Definition answer_of `{TenantDatabase} (sent : list tenant_query) (q : tenant_query) (v : jsval) : Prop :=
  execute sent q = Returned v.

(** C40. The body of [withTenant] runs only when the organization is a UUID, the
    session is the application's role, neither superuser nor exempt from row
    security, and the tenant setting of the transaction is that organization;
    otherwise nothing is written. *)
Theorem tenant_guard_is_sound {S A} `{TenantDatabase} orgId (fn : M S A) s r s' :
  withTenant orgId fn s = (r, s') →
  (∃ e, r = Thrown e ∧ s' = s) ∨
  (uuidPattern orgId = true ∧
   (∃ role, answer_of [] QRuntimeRole role ∧ first_row_field "session_role" role = JStr "opzava_app" ∧
      first_row_field "is_super" role ≠ JBool true ∧ first_row_field "bypass_rls" role ≠ JBool true) ∧
   (∃ current o, answer_of [QRuntimeRole; QSetCurrentOrg orgId] QCurrentOrg current ∧
      first_row_field "current_org_id" current = JStr o ∧ to_lower o = to_lower orgId) ∧
   r = match (fn s).1 with Returned a => Returned a | Thrown e => Thrown (mapDatabaseError e) end ∧
   s' = (fn s).2).
Proof.
  rewrite withTenant_guard. destruct ((tenant_guard orgId s).1) as [u|x] eqn:Hg; [|intros [= <- <-]; by left; eexists].
  intros Hr. right. apply guard_passed in Hg as (Hu & Hrole & Hcur).
  split_and!; [done|exact Hrole|exact Hcur|..]; by destruct (fn s) as [[a|x] s1]; simplify_eq.
Qed.

(** ** Database errors *)

(** Mapping an error twice is mapping it once; an error that carries a
    SQLSTATE always leaves as one of the public errors, chosen by the state; and
    the state of a driver error is found below at most five wrappers, no deeper. *)
Theorem database_errors_are_mapped x :
  mapDatabaseError (mapDatabaseError x) = mapDatabaseError x ∧
  (∀ state, findSqlState x = Some state →
    mapDatabaseError x = ExnDatabase
      (if bool_decide (state ∈ forbiddenSqlStates) then ForbiddenError
       else if bool_decide (state ∈ conflictSqlStates) || starts_with "23" state then ConflictError
       else DatabaseOperationError)) ∧
  ∀ n b o state, obj_get "code" o = JStr state → sqlStatePattern state = true →
    findSqlState (ExnForeign b (wrapped n (JObj o))) = if n <? 6 then Some state else None.
Proof.
  assert (∀ state, findSqlState x = Some state → isPublicDatabaseError x = false) as Hpub by (by destruct x).
  split_and!.
  - unfold mapDatabaseError at 2 3. destruct (isPublicDatabaseError x) eqn:Hp; [unfold mapDatabaseError; by rewrite Hp|].
    destruct (findSqlState x) as [state|] eqn:Hs.
    + repeat case_match; reflexivity.
    + destruct (is_Error x) eqn:He; [unfold mapDatabaseError; by rewrite Hp, Hs, He|reflexivity].
  - intros state Hs. unfold mapDatabaseError. rewrite (Hpub _ Hs), Hs. by repeat case_match.
  - intros n b o state Hcode Hpat. unfold findSqlState; simpl thrown_value. destruct (Nat.ltb_spec n 6) as [Hn|Hn].
    + rewrite find_sql_state_wrapped by lia. destruct (6 - n) as [|f] eqn:Hf; [lia|].
      simpl. by rewrite Hcode, Hpat.
    + destruct (decide (n = 6)) as [->|]; [by rewrite find_sql_state_wrapped by lia|].
      apply find_sql_state_too_deep. lia.
Qed.

(** ** Receipts *)

(** Two commands share a receipt of the in-memory repository exactly when they
    agree on the organization, the workspace, the command name and the
    idempotency key, whatever characters these hold. *)
Theorem receipt_slots_are_separate lk lk' :
  InMemoryCommandReceiptRepository.receiptKey lk = InMemoryCommandReceiptRepository.receiptKey lk' ↔ lk = lk'.
Proof. split; [apply InMemoryCommandReceiptRepository.receiptKey_inj|by intros ->]. Qed.

(** Through any lawful repository a fresh command reserves its key, finalizes
    it once, and from then on the key answers with that outcome to the same
    request and with a conflict to any other. *)
Theorem receipt_life_cycle {R} `{CommandReceiptLaws R} e fi r :
  unused e r → fin_organizationId fi = env_organizationId e → fin_commandId fi = env_commandId e →
  ∃ r1 r2,
    reserveOrReplayTransaction e r = (ok (reserved_result (env_commandId e)), r1) ∧
    finalizeTransaction fi r1 = (ok tt, r2) ∧
    ∀ e', envelope_lookup e' = envelope_lookup e →
      reserveOrReplayTransaction e' r2 =
        (if String.eqb (env_requestHash e) (env_requestHash e')
         then ok (rc_result (finalized fi (reserved_receipt e))) else err idempotencyConflict, r2).
Proof.
  intros (Hwf & Hnone & Hunused) Ho Hc.
  destruct (reserve_fresh e r Hwf Hnone) as (r1 & Hres & Hwf1 & Hread & Hother).
  destruct (finalize_reserved fi r1 (envelope_lookup e) (reserved_receipt e)) as (r2 & Hf & Hwf2 & Hr2 & _); [done..| |].
  { intros lk rc Hlk Horg Hcid. destruct (decide (lk = envelope_lookup e)) as [->|Hne]; [done|].
    rewrite Hother in Hlk by done. rewrite Ho in Horg. rewrite Hc in Hcid. by destruct (Hunused lk rc). }
  exists r1, r2. split_and!; [done..|]. intros e' Hlk. by rewrite (reserve_present e' r2 _ Hwf2) by (by rewrite Hlk).
Qed.

(** ** The theorems at work *)

Section witnesses.
#[local] Existing Instance Example.example_database.
Import Example.

Lemma money_round_trip_witness :
  Money.parse (JObj (Money.toJSON (Money.mkMoney 1250 "EUR"))) = ok (Money.mkMoney 1250 "EUR").
Proof. apply (money_round_trip (Money.mkMoney 1250 "EUR") JNull); [split; [done|reflexivity]|done]. Defined.

Lemma money_arithmetic_witness :
  Money.subtract (Money.mkMoney 1300 "EUR") (Money.mkMoney 50 "EUR") = inl (Money.mkMoney 1250 "EUR").
Proof.
  apply (money_arithmetic (Money.mkMoney 1250 "EUR") (Money.mkMoney 50 "EUR"));
    [split; [done|reflexivity]|split; [done|reflexivity]|reflexivity].
Defined.

Lemma references_are_normal_witness :
  Refs.makeOpaqueExternalRef (Refs.mkRef "github" "issue" "42") = inl (Refs.mkRef "github" "issue" "42").
Proof. apply (references_are_normal (Refs.mkRef " github" "issue " " 42 ")). reflexivity. Defined.

(** The guard of the example's driver lets the tenant through. *)
Lemma tenant_guard_is_sound_witness :
  withTenant org (mret 7 : M nat nat) 0 = (Returned 7, 0) ∧ uuidPattern org = true.
Proof.
  assert (withTenant org (mret 7 : M nat nat) 0 = (Returned 7, 0)) as Hrun by (vm_compute; reflexivity).
  split; [exact Hrun|].
  destruct (tenant_guard_is_sound org (mret 7 : M nat nat) 0 _ _ Hrun) as [(x & Hx & _)|[Hu _]];
    [discriminate Hx|exact Hu].
Defined.

(** A unique violation below two wrappers. *)
Lemma database_errors_are_mapped_witness :
  mapDatabaseError (ExnForeign true (wrapped 2 (JObj [("code", JStr "23505")]))) = ExnDatabase ConflictError.
Proof.
  destruct (database_errors_are_mapped (ExnForeign true (wrapped 2 (JObj [("code", JStr "23505")]))))
    as (_ & Hpublic & Hdeep).
  apply (Hpublic "23505"). apply (Hdeep 2 true [("code", JStr "23505")] "23505"); reflexivity.
Defined.

(** An acceptance of the first draft. *)
Definition first_draft : CommandEnvelope := envelope "1" "draftProposal" proposal1 [].
Definition acceptance : FinalizeCommandReceiptInput :=
  mkFinalize org "command-1" OAccepted (Some "dev_board.proposal_drafted") None None (Some [proposal_at proposal1 1]).

Lemma receipt_life_cycle_witness :
  ∃ r1 r2, reserveOrReplayTransaction first_draft ([] : InMemoryCommandReceiptRepository.repository)
           = (ok (reserved_result "command-1"), r1) ∧
    finalizeTransaction acceptance r1 = (ok tt, r2).
Proof.
  destruct (receipt_life_cycle first_draft acceptance ([] : InMemoryCommandReceiptRepository.repository))
    as (r1 & r2 & H1 & H2 & _).
  - split_and!; [apply InMemoryCommandReceiptRepository.wf_nil|done|intros lk rc H; done].
  - reflexivity.
  - reflexivity.
  - exists r1, r2. split; [exact H1|exact H2].
Defined.

End witnesses.
