(* ===== verification/BoardTheorems.v ===== *)
(** * What the Dev Board promises

    The properties of the commands and of the boards they reach, each with an
    application to the concrete board of [ExampleBoard]. *)
From S2P Require Import Prelude JsString JsValue JsMap SharedKernel Effects DevBoardDomain.
From S2P Require Import TenantContext Receipts Ledger PlanningRows PlanningStore DependencyGraph.
From S2P Require Import CommandBase TicketCommands ProposalCommands QueueCommands.
From S2P Require Import DependencyCommands LegacyCommands StoreRules Reachability Board.
From S2P Require Import Refinement TicketInvariant QueueInvariant.
From S2P Require Import ProposalInvariant.
From S2P Require Import BoardFacts Replay ExampleBoard.

Section board.
Context {R L : Type} {RP : CommandReceiptRepository R} {LP : DevBoardLedgerAppendPort L}.
Context {RT : NodeRuntime} {DB : TenantDatabase}.
Implicit Types (e : CommandEnvelope) (w : World R L).

(** C1. Every command refines the abstract specification [effect]: an accepted
    answer is a replay that moved nothing, or exactly the specified result and
    store; a refusal leaves the ledgers alone and the store too, up to the
    creation of an empty Todo header; an exception leaves the store as a refusal
    or as an acceptance does. *)
Theorem command_refinement c e w r w' :
  reachable w → tenant_ok e → run c e w = (r, w') →
  match r with
  | Returned (ok res) =>
      (w_store w' = w_store w ∧ w_ledger w' = w_ledger w) ∨ effect e c res (w_store w) (w_store w')
  | Returned (err _) => opened e (w_store w) (w_store w') ∧ w_ledger w' = w_ledger w
  | Thrown _ => opened e (w_store w) (w_store w') ∨ ∃ res, effect e c res (w_store w) (w_store w')
  end.
Proof.
  intros Hr Ht Hrun.
  exact (wp_run _ _ _ _ _ (run_refines c e w (reachable_keyed w Hr) Ht) Hrun).
Qed.

(** C25. A retried command answers as the first run did, whatever that answer was,
    and changes nothing, be it the store, the receipts or the ledgers. *)
Theorem retry_is_idempotent `{!CommandReceiptLaws R} c e e' w ans w1 :
  reachable w → tenant_ok e → unused e (w_receipts w) → retry e e' →
  run c e w = (Returned ans, w1) → run c e' w1 = (Returned ans, w1).
Proof. intros Hr Ht Hu Hretry Hrun. eapply run_retried; eauto using reachable_keyed. Qed.

(** C26. Commands of one tenant, whatever their outcome, leave every row that
    another tenant can select as it was. *)
Theorem tenants_are_isolated c e w r w' :
  reachable w → tenant_ok e → run c e w = (r, w') → isolated e (w_store w) (w_store w').
Proof.
  intros Hr Ht Hrun. pose proof (reachable_keyed w Hr) as Hk.
  by eapply store_step_isolated, run_store_step.
Qed.

(** C28. Every ticket of a reachable board is a draft in Backlog, or is in Todo with
    an approval that binds its present contract version and hash; its hash is
    that of its content; it is unclassified or completely classified with a
    declared Change Risk that respects the policy. *)
Theorem reachable_tickets w k t :
  reachable w → jm_get k (devTickets (w_store w)) = Some t → ticket_ok t.
Proof. intros Hr. apply (reachable_store unconditional tickets_ok); [done|exact Hr]. Qed.

(** C29. On a reachable board a ticket has a membership in the Todo queue exactly
    when its lane is Todo. *)
Theorem todo_is_the_queue w k :
  reachable w →
  jm_has k (todoQueueMemberships (w_store w)) = in_todo (jm_get k (devTickets (w_store w))).
Proof.
  intros Hr. apply (reachable_store tickets_ok queue_ok); [|exact Hr].
  apply (reachable_store unconditional tickets_ok). done.
Qed.

(** C32. The queue a tenant reads is in strictly increasing order of its ranks,
    which fit a PostgreSQL bigint, and holds exactly the tenant's Todo tickets. *)
Theorem todo_queue_ordered `{!LocaleOrder} w org ws :
  reachable w → no_colon org = true → no_colon ws = true →
  let queue := todo_queue org ws (w_store w) in
  StronglySorted (λ a b, (qm_rank a < qm_rank b)%Z) queue ∧
  (∀ m, m ∈ queue → (0 < qm_rank m <= POSTGRES_BIGINT_MAX)%Z) ∧
  (∀ id, id ∈ queue_ids queue ↔ in_todo (jm_get (key org ws id) (devTickets (w_store w))) = true).
Proof.
  intros Hr Ho Hw queue. pose proof (reachable_keyed w Hr) as Hk.
  pose proof (reachable_store unconditional ranks_ok (λ _ _, I) w Hr org ws Ho Hw) as Hranks.
  assert (queue_ok (w_store w)) as Hq.
  { apply (reachable_store tickets_ok queue_ok); [|exact Hr].
    apply (reachable_store unconditional tickets_ok). done. }
  split_and!.
  - apply ranked_queue_sorted; [done|done|apply Hk|done].
  - intros m Hm%elem_of_queue; [|done..|apply Hk]. by apply (proj1 Hranks) in Hm.
  - intros id. rewrite <-Hq. apply elem_of_queue_ids; [done|done|apply Hk].
Qed.

(** An accepted reordering puts the ticket immediately before or after the
    neighbour it names, and keeps the order of every other ticket. *)
Theorem reorder_places_the_ticket `{!LocaleOrder} e w input res w' kind n v :
  reachable w → tenant_ok e → ri_anchor input = Neighbor kind n v →
  run (ReorderTodo input) e w = (Returned (ok res), w') →
  w_store w' = w_store w ∨
  ∃ before after,
    filter (λ i, i ≠ ri_devTicketId input) (todo_ids e (w_store w)) = before ++ n :: after ∧
    todo_ids e (w_store w') = before ++ beside kind (ri_devTicketId input) n ++ after.
Proof.
  intros Hr Ht Ha Hrun. pose proof (reachable_keyed w Hr) as Hk.
  pose proof (wp_run _ _ _ _ _ (run_refines _ e w Hk Ht) Hrun) as [[Hs _]|Heff]; [by left|right].
  by eapply effect_reorder_place.
Qed.

(** C33. The active dependencies of every workspace of a reachable board are
    acyclic, at most one active edge joins two tickets, the endpoints of an edge
    are tickets of its workspace, and the blocker of an active edge is not
    archived. *)
Theorem reachable_graph w : reachable w → graph_ok (w_store w).
Proof. apply (reachable_store unconditional graph_ok). done. Qed.

(** On a reachable board a proposal names the ticket it became exactly when it
    is accepted; that ticket exists and names the proposal as its source; and a
    ticket that names a source is the one its source names. *)
Theorem reachable_provenance w : reachable w → provenance (w_store w).
Proof. apply (reachable_store unconditional provenance). done. Qed.

(** A ticket in Todo declares at least the Change Risk the policy computes
    from its type, its areas and its dependencies as they are now. *)
Theorem todo_respects_policy w k t :
  reachable w → jm_get k (devTickets (w_store w)) = Some t → dt_lane t = LTodo →
  covered t (has_dependencies t (w_store w)).
Proof. intros Hr. apply (reachable_store unconditional todo_policy); [done|exact Hr]. Qed.

(** A ticket enters Todo only by an approval, of the Human Owner of the ticket
    or of an owner or admin of the organization, who is a user. *)
Theorem only_approval_enters_todo c e w r w' k :
  reachable w → tenant_ok e → run c e w = (r, w') → enters_todo k (w_store w) (w_store w') →
  ∃ input t, c = ApproveReadyToTodo input ∧ found_ticket e t (w_store w) ∧ k = ticket_key t ∧
    may_manage_ticket e t (w_store w) = true.
Proof.
  intros Hr Ht Hrun Hin. pose proof (reachable_keyed w Hr) as Hk.
  destruct (run_store_step c e w r w' Hk Ht Hrun) as [res s' Heff|s' Ho].
  - eapply effect_enters_todo; try done. by apply (reachable_store unconditional tickets_ok).
  - exfalso. destruct Ho; by eapply enters_todo_same, Hin.
Qed.

(** C34. A command removes no proposal, ticket or historical record, and moves each
    along one step of its state machine at most; a step adds one to the version.  A
    proposal keeps its content and goes from draft to awaiting a decision, and from
    there to accepted with a ticket, or to merged or rejected without one, while its
    archive comes and goes.  A ticket keeps its
    identity and its lane, or enters Todo from a Backlog draft under the next contract
    version, or goes back from Todo to a Backlog draft; its contract changes only with
    the version of the contract.  A historical record keeps its evidence, one that was promoted or is
    a candidate keeps that disposition, and the gate only turns from legacy-unverified
    to reconciled. *)
Theorem rows_follow_their_state_machines c e w r w' :
  reachable w → tenant_ok e → run c e w = (r, w') →
  rows_step proposal_change (proposals (w_store w)) (proposals (w_store w')) ∧
  rows_step ticket_step (devTickets (w_store w)) (devTickets (w_store w')) ∧
  rows_step record_change (historicalRecords (w_store w)) (historicalRecords (w_store w')).
Proof.
  intros Hr Ht Hrun. pose proof (reachable_keyed w Hr) as Hk.
  assert (board_step (w_store w) (w_store w')) as [Hp Hd Hh].
  { eapply store_step_board; [done|done| |by eapply run_store_step]. by apply (reachable_store unconditional tickets_ok). }
  split_and!; [|exact Hd|].
  - exact (rows_step_mono _ _ _ _ proposal_step_change Hp).
  - exact (rows_step_mono _ _ _ _ historical_step_change Hh).
Qed.

(** Claim, Start, Submit for Review and Admit Done are refused and leave the
    store alone: with the list of the unfinished blockers when the command looks
    at the dependency lock and the ticket is locked, with the message of the
    gate otherwise. *)
Theorem gates_are_closed `{!CommandReceiptLaws R} c g e w ans w' :
  gate_of c = Some g → unused e (w_receipts w) →
  result_ok (parseCommandActorRef (actorRef_js (env_actorRef e))) = true →
  run c e w = (Returned ans, w') →
  ans = err (gate_refusal g (dependency_lock_status (env_organizationId e) (env_workspaceId e)
                               (env_targetAggregateId e) (w_store w))) ∧
  w_store w' = w_store w.
Proof. apply gate_answer. Qed.

(** On a reachable board a ticket is locked exactly when it has an active
    dependency: no ticket is done. *)
Theorem lock_is_dependency w org ws id :
  reachable w →
  ls_locked (dependency_lock_status org ws id (w_store w)) = hasActiveDependencies org ws id (w_store w).
Proof. intros Hr. by apply locked_by_dependency, (reachable_store unconditional tickets_ok). Qed.

(** The ledgers are append-only: whatever a command does, the entries and
    events that were there stay, in place. *)
Theorem ledgers_are_append_only `{!DevBoardLedgerLaws L} c e w r w' :
  run c e w = (r, w') →
  planning_entries (w_ledger w) `prefix_of` planning_entries (w_ledger w') ∧
  activity_events (w_ledger w) `prefix_of` activity_events (w_ledger w').
Proof. intros Hrun. pose proof (run_appends c e w) as H. by rewrite Hrun in H. Qed.

(** A mutation inside a savepoint that does not succeed leaves every map of
    the store as it was before the savepoint. *)
Theorem savepoint_rolls_back {A} (m : M (World R L) A) w r w' :
  executeRiskyMutation m w = (r, w') → (∀ a, r ≠ Returned (ok a)) →
  ∃ s1, w_store w' = restore_maps (w_store w) s1.
Proof. apply savepoint_undone. Qed.

End board.

(** The sequences of both in-memory ledgers stay 1, 2, 3, ... in every
    workspace, whatever the commands do. *)
Theorem sequences_are_gapless {R} `{CommandReceiptRepository R} `{NodeRuntime} `{TenantDatabase} c e
    (w w' : World R InMemoryDevBoardLedgerAppendStore.ledger) r :
  gapless_ledger (w_ledger w) → run c e w = (r, w') → gapless_ledger (w_ledger w').
Proof. intros Hg Hrun. pose proof (run_gapless c e w Hg) as H'. by rewrite Hrun in H'. Qed.

(** ** The theorems at work *)

Section witnesses.
#[local] Existing Instance Example.example_runtime.
#[local] Existing Instance Example.example_locale.
#[local] Existing Instance Example.example_database.
Import Example.

Lemma run_pair c e (w : world) r : (run c e w).1 = r → run c e w = (r, (run c e w).2).
Proof. intros <-. apply surjective_pairing. Qed.

(** The board just before the approval of the history. *)
Definition before_approval : world := replayed (take 8 history) start_world.

Lemma reachable_before : reachable before_approval.
Proof. apply reachable_replayed; [repeat constructor|apply reachable_start]. Qed.

Definition approval : board_command * CommandEnvelope := approve "9" ticket1.

Lemma command_refinement_witness :
  ∃ res, (run approval.1 approval.2 before_approval).1 = Returned (ok res) ∧
    effect approval.2 approval.1 res (w_store before_approval)
      (w_store (run approval.1 approval.2 before_approval).2).
Proof.
  eexists. assert (run approval.1 approval.2 before_approval = _) as Hrun
    by (apply run_pair; vm_compute; reflexivity).
  split; [by rewrite Hrun|].
  destruct (command_refinement _ _ _ _ _ reachable_before (envelope_tenant _ _ _ _) Hrun) as [[Hs _]|Heff].
  - apply (f_equal (λ s, length (todoQueueMemberships s))) in Hs. vm_compute in Hs. discriminate Hs.
  - exact Heff.
Defined.

(** The first draft again, under another command id. *)
Definition draft_again : CommandEnvelope :=
  mkEnvelope "command-99" "key-1" "hash-1" org ws "draftProposal" proposal1
    (mkActor "user" owner "human_owner") (mkSource "web" "test") 1 "correlation-99" None [].

Lemma unused_start n name target versions :
  unused (envelope n name target versions) (w_receipts start_world).
Proof. split_and!; [apply InMemoryCommandReceiptRepository.wf_nil|done|intros lk rc H; done]. Qed.

Lemma retry_is_idempotent_witness :
  ∃ ans w1, run (draft "1" proposal1).1 (draft "1" proposal1).2 start_world = (Returned ans, w1) ∧
    run (draft "1" proposal1).1 draft_again w1 = (Returned ans, w1) ∧ result_ok ans = true.
Proof.
  eexists _, _. assert (run (draft "1" proposal1).1 (draft "1" proposal1).2 start_world = (Returned _, _)) as Hrun
    by (apply run_pair; vm_compute; reflexivity).
  split; [exact Hrun|]. split; [|reflexivity].
  apply (retry_is_idempotent _ (draft "1" proposal1).2 draft_again start_world _ _ reachable_start);
    [apply envelope_tenant|apply unused_start|by split_and!|exact Hrun].
Defined.

Lemma tenants_are_isolated_witness :
  isolated approval.2 (w_store before_approval) (w_store (run approval.1 approval.2 before_approval).2).
Proof.
  apply (tenants_are_isolated approval.1 approval.2 before_approval _ _ reachable_before (envelope_tenant _ _ _ _)
           (surjective_pairing _)).
Defined.

Lemma reachable_tickets_witness :
  ∃ t, jm_get (key org ws ticket1) (devTickets (w_store example_world)) = Some t ∧ dt_lane t = LTodo ∧ ticket_ok t.
Proof.
  eexists. assert (jm_get (key org ws ticket1) (devTickets (w_store example_world)) = Some _) as Hget
    by (vm_compute; reflexivity).
  split; [exact Hget|]. split; [reflexivity|]. exact (reachable_tickets _ _ _ reachable_example Hget).
Defined.

Lemma todo_is_the_queue_witness :
  in_todo (jm_get (key org ws ticket1) (devTickets (w_store example_world))) = true ∧
  jm_has (key org ws ticket1) (todoQueueMemberships (w_store example_world)) = true.
Proof.
  split; [vm_compute; reflexivity|]. rewrite (todo_is_the_queue _ (key org ws ticket1) reachable_example).
  vm_compute. reflexivity.
Defined.

Lemma todo_queue_ordered_witness :
  queue_ids (todo_queue org ws (w_store queue_world)) = [ticket1; ticket2] ∧
  StronglySorted (λ a b, (qm_rank a < qm_rank b)%Z) (todo_queue org ws (w_store queue_world)).
Proof.
  split; [vm_compute; reflexivity|]. apply (todo_queue_ordered queue_world org ws reachable_queue); reflexivity.
Defined.

(** The second ticket moved before the first. *)
Definition moved : board_command * CommandEnvelope := reorder "11" ticket2 (Neighbor ABefore ticket1 (NInt 3)).

Lemma reorder_places_the_ticket_witness :
  todo_ids moved.2 (w_store queue_world) = [ticket1; ticket2] ∧
  ∃ before after,
    [ticket1] = before ++ ticket1 :: after ∧
    todo_ids moved.2 (w_store (run moved.1 moved.2 queue_world).2) = before ++ [ticket2; ticket1] ++ after.
Proof.
  split; [vm_compute; reflexivity|].
  assert (run moved.1 moved.2 queue_world = (Returned (ok _), _)) as Hrun by (apply run_pair; vm_compute; reflexivity).
  destruct (reorder_places_the_ticket moved.2 queue_world
              (mkReorderTodo ticket2 "todo" 3 "todo" 3 (Neighbor ABefore ticket1 (NInt 3)) []) _ _ ABefore ticket1 (NInt 3)
              reachable_queue (envelope_tenant _ _ _ _) eq_refl Hrun) as [Hs|(before & after & Hb & Ha)].
  - apply (f_equal (todo_ids moved.2)) in Hs. rewrite Hrun in Hs. vm_compute in Hs. discriminate Hs.
  - exists before, after. split; [|exact Ha]. rewrite <-Hb. vm_compute. reflexivity.
Defined.

Lemma reachable_graph_witness :
  length (dependencyEdges (w_store example_world)) = 1 ∧ graph_ok (w_store example_world).
Proof. split; [vm_compute; reflexivity|]. exact (reachable_graph _ reachable_example). Defined.

Lemma reachable_provenance_witness :
  length (proposals (w_store example_world)) = 2 ∧ provenance (w_store example_world).
Proof. split; [vm_compute; reflexivity|]. exact (reachable_provenance _ reachable_example). Defined.

Lemma todo_respects_policy_witness :
  ∃ t, jm_get (key org ws ticket1) (devTickets (w_store example_world)) = Some t ∧
    covered t (has_dependencies t (w_store example_world)).
Proof.
  eexists. assert (jm_get (key org ws ticket1) (devTickets (w_store example_world)) = Some _) as Hget
    by (vm_compute; reflexivity).
  split; [exact Hget|]. exact (todo_respects_policy _ _ _ reachable_example Hget eq_refl).
Defined.

Lemma only_approval_enters_todo_witness :
  ∃ input t, approval.1 = ApproveReadyToTodo input ∧ found_ticket approval.2 t (w_store before_approval) ∧
    key org ws ticket1 = ticket_key t ∧ may_manage_ticket approval.2 t (w_store before_approval) = true.
Proof.
  apply (only_approval_enters_todo approval.1 approval.2 before_approval _ _ (key org ws ticket1)
           reachable_before (envelope_tenant _ _ _ _) (surjective_pairing _)).
  split; vm_compute; reflexivity.
Defined.

Lemma rows_follow_their_state_machines_witness :
  let after := (run approval.1 approval.2 before_approval).2 in
  rows_step proposal_change (proposals (w_store before_approval)) (proposals (w_store after)) ∧
  rows_step ticket_step (devTickets (w_store before_approval)) (devTickets (w_store after)) ∧
  rows_step record_change (historicalRecords (w_store before_approval)) (historicalRecords (w_store after)).
Proof.
  apply (rows_follow_their_state_machines approval.1 approval.2 before_approval _ _ reachable_before
           (envelope_tenant _ _ _ _) (surjective_pairing _)).
Defined.

(** Claiming the ticket that waits for the legacy task. *)
Definition claimed : CommandEnvelope := envelope "11" "claim" ticket2 [].

(** A command id that no receipt of a concrete repository carries. *)
Definition is_fresh (e : CommandEnvelope) (r : InMemoryCommandReceiptRepository.repository) : bool :=
  forallb (λ kv, negb (InMemoryCommandReceiptRepository.is_command (env_organizationId e) (env_commandId e) kv)) r.

Lemma fresh_unused e (r : InMemoryCommandReceiptRepository.repository) :
  InMemoryCommandReceiptRepository.wf r → readReceipt (envelope_lookup e) r = None → is_fresh e r = true → unused e r.
Proof.
  intros Hwf Hnone Hfresh. split_and!; [done..|]. intros lk rc Hread [Ho Hc].
  apply (jm_get_entry _ _ _ (proj1 Hwf)) in Hread. unfold is_fresh in Hfresh. rewrite forallb_forall in Hfresh.
  apply list_elem_of_In, Hfresh, negb_true_iff in Hread. unfold InMemoryCommandReceiptRepository.is_command in Hread.
  simpl in Hread. by rewrite Ho, Hc, !String.eqb_refl in Hread.
Qed.

Lemma example_receipts_wf : InMemoryCommandReceiptRepository.wf (w_receipts example_world).
Proof.
  split.
  - apply (bool_decide_unpack _). vm_compute. exact I.
  - intros k rc Hget. apply jm_get_values in Hget as Hin.
    assert (Forall (λ kv, kv.1 = InMemoryCommandReceiptRepository.receiptKey (rc_lookup kv.2))
              (w_receipts example_world)) as Hall by (apply (bool_decide_unpack _); vm_compute; exact I).
    rewrite Forall_forall in Hall. apply (Hall (k, rc)). apply jm_get_entry; [|done].
    apply (bool_decide_unpack _). vm_compute. exact I.
Qed.

Lemma gates_are_closed_witness :
  ∃ w', run Claim claimed example_world =
    (Returned (err (failure "dev_board.dependency_locked" (locked_message [task]))), w') ∧
    w_store w' = w_store example_world.
Proof.
  eexists. assert (run Claim claimed example_world = _) as Hrun by (apply run_pair; vm_compute; reflexivity).
  split; [exact Hrun|].
  refine (proj2 (gates_are_closed Claim _ claimed example_world _ _ eq_refl _ eq_refl Hrun)).
  apply fresh_unused; [apply example_receipts_wf|vm_compute; reflexivity|vm_compute; reflexivity].
Defined.

Lemma lock_is_dependency_witness :
  ls_locked (dependency_lock_status org ws ticket2 (w_store example_world)) = true.
Proof. rewrite (lock_is_dependency _ org ws ticket2 reachable_example). vm_compute. reflexivity. Defined.

Lemma ledgers_are_append_only_witness :
  planning_entries (w_ledger before_approval)
  `prefix_of` planning_entries (w_ledger (run approval.1 approval.2 before_approval).2).
Proof.
  apply (ledgers_are_append_only approval.1 approval.2 before_approval _ _ (surjective_pairing _)).
Defined.

(** A mutation that wipes the store and then meets a unique violation. *)
Definition wiping : M world unit := on_store (put_state empty_store);; throw (ExnObject "23505").

Lemma savepoint_rolls_back_witness :
  ∃ s1, w_store (executeRiskyMutation wiping example_world).2 = restore_maps (w_store example_world) s1.
Proof.
  apply (savepoint_rolls_back wiping example_world _ _ (surjective_pairing _)). intros a. vm_compute. discriminate.
Defined.

Lemma sequences_are_gapless_witness :
  gapless_ledger (w_ledger (run (draft "1" proposal1).1 (draft "1" proposal1).2 start_world).2).
Proof.
  refine (sequences_are_gapless (draft "1" proposal1).1 (draft "1" proposal1).2 start_world _ _ _
            (surjective_pairing _)).
  split; intros w; reflexivity.
Defined.

End witnesses.
