(* ===== verification/JsText.v ===== *)
(** * Texts of JavaScript values

    [JSON.stringify], the key-sorted serialization of the runtime stores,
    [String(value)] and substring search. *)
From S2P Require Import Prelude JsString JsValue SharedKernel Effects DevBoardDomain.
From Stdlib Require Import Ascii.

(** [s.includes(sub)] *)
Fixpoint includes (sub s : string) : bool :=
  starts_with sub s || match s with EmptyString => false | String _ s => includes sub s end.

(** [JSON.stringify(value)] of a value that is neither an array nor an object:
    [None] when it throws (a bigint), [Some None] for [undefined]. *)
Definition stringify_leaf (value : jsval) : option (option string) :=
  match value with
  | JNull => Some (Some "null")
  | JBool b => Some (Some (if b then "true" else "false"))
  | JStr s => Some (Some (json_quote s))
  | JNum n => Some (Some (default "null" (number_text n)))
  | JUndefined => Some None
  | JOther kind => if String.eqb kind "bigint" then None else Some None
  | JArr _ | JObj _ => Some None
  end.

(** [stableJson]: objects with sorted keys, ["null"] for what JSON leaves out;
    [None] when [JSON.stringify] throws. *)
Fixpoint stableJson (value : jsval) : option string :=
  match value with
  | JArr l =>
      (λ parts, "[" +:+ join "," parts +:+ "]") <$>
      (fix go (l : list jsval) : option (list string) :=
        match l with
        | [] => Some []
        | v :: l =>
            match stableJson v, go l with
            | Some t, Some ts => Some (t :: ts)
            | _, _ => None
            end
        end) l
  | JObj o =>
      (λ entries, "{" +:+ join "," (entry_text <$> sort_entries entries) +:+ "}") <$>
      (fix go (o : list (string * jsval)) : option (list (string * string)) :=
        match o with
        | [] => Some []
        | (k, v) :: o =>
            match stableJson v, go o with
            | Some t, Some ts => Some ((k, t) :: ts)
            | _, _ => None
            end
        end) o
  | leaf => default "null" <$> stringify_leaf leaf
  end.

(** [JSON.stringify(value)] of any value: an array writes ["null"] for an
    undefined element, an object leaves an undefined property out. *)
Fixpoint jsonStringify (value : jsval) : option (option string) :=
  match value with
  | JArr l =>
      (λ parts, Some ("[" +:+ join "," parts +:+ "]")) <$>
      (fix go (l : list jsval) : option (list string) :=
        match l with
        | [] => Some []
        | v :: l =>
            match jsonStringify v, go l with
            | Some t, Some ts => Some (default "null" t :: ts)
            | _, _ => None
            end
        end) l
  | JObj o =>
      (λ entries, Some ("{" +:+ join "," (entry_text <$> entries) +:+ "}")) <$>
      (fix go (o : list (string * jsval)) : option (list (string * string)) :=
        match o with
        | [] => Some []
        | (k, v) :: o =>
            match jsonStringify v, go o with
            | Some (Some t), Some ts => Some ((k, t) :: ts)
            | Some None, Some ts => Some ts
            | _, _ => None
            end
        end) o
  | leaf => stringify_leaf leaf
  end.

(** [String(value)] of the values whose text the model does not hold: NaN and the
    infinities, bigints, symbols and functions. *)
Class OpaqueTexts := { opaque_text : jsval → string }.

Section js_to_string.
Context `{OpaqueTexts}.

Fixpoint js_to_string (value : jsval) : string :=
  match value with
  | JUndefined => "undefined"
  | JNull => "null"
  | JBool b => if b then "true" else "false"
  | JNum n => default (opaque_text value) (number_text n)
  | JStr s => s
  | JArr l =>
      join "," ((fix go (l : list jsval) : list string :=
        match l with
        | [] => []
        | (JUndefined | JNull) :: l => "" :: go l
        | v :: l => js_to_string v :: go l
        end) l)
  | JObj _ => "[object Object]"
  | JOther _ => opaque_text value
  end.
End js_to_string.
