(* ===== verification/RuntimeDomain.v ===== *)
(** * Runtime Control: domain and port types
    ([packages/runtime-control/src/domain/assistant.ts],
    [ports/runtime-conversation-store.ts])

    Conversations, turns and tool outcomes, their statuses and which transitions
    they admit, and the inputs and answers of the conversation store. *)
From S2P Require Import Prelude JsString JsValue SharedKernel DevBoardDomain.

(** ** Statuses and roles *)

Inductive ConversationStatus : Type := CvOpen | CvArchived.
Inductive TurnRole : Type := RUser | RAssistant | RTool | RSystem.
Inductive TurnStatus : Type := TQueued | TStreaming | TFinalizing | TFinal | TFailed.
Inductive OutcomeStatus : Type := OStarted | OSucceeded | OFailed.

#[global] Instance ConversationStatus_eq_dec : EqDecision ConversationStatus.
Proof. solve_decision. Defined.
#[global] Instance TurnRole_eq_dec : EqDecision TurnRole.
Proof. solve_decision. Defined.
#[global] Instance TurnStatus_eq_dec : EqDecision TurnStatus.
Proof. solve_decision. Defined.
#[global] Instance OutcomeStatus_eq_dec : EqDecision OutcomeStatus.
Proof. solve_decision. Defined.

Definition conversationStatuses : list ConversationStatus := [CvOpen; CvArchived].
Definition turnRoles : list TurnRole := [RUser; RAssistant; RTool; RSystem].
Definition turnStatuses : list TurnStatus := [TQueued; TStreaming; TFinalizing; TFinal; TFailed].
Definition outcomeStatuses : list OutcomeStatus := [OStarted; OSucceeded; OFailed].

Definition conversationStatus_str (s : ConversationStatus) : string :=
  match s with CvOpen => "open" | CvArchived => "archived" end.
Definition turnRole_str (r : TurnRole) : string :=
  match r with RUser => "user" | RAssistant => "assistant" | RTool => "tool" | RSystem => "system" end.
Definition turnStatus_str (s : TurnStatus) : string :=
  match s with
  | TQueued => "queued" | TStreaming => "streaming" | TFinalizing => "finalizing"
  | TFinal => "final" | TFailed => "failed"
  end.
Definition outcomeStatus_str (s : OutcomeStatus) : string :=
  match s with OStarted => "started" | OSucceeded => "succeeded" | OFailed => "failed" end.

Definition parseAssistantConversationStatus :=
  parse_enum conversationStatus_str conversationStatuses "runtimeControl.invalidConversationStatus"
    "Assistant conversation status is invalid.".
Definition parseAssistantTurnRole :=
  parse_enum turnRole_str turnRoles "runtimeControl.invalidTurnRole" "Assistant turn role is invalid.".
Definition parseAssistantTurnStatus :=
  parse_enum turnStatus_str turnStatuses "runtimeControl.invalidTurnStatus" "Assistant turn status is invalid.".
Definition parseAssistantToolOutcomeStatus :=
  parse_enum outcomeStatus_str outcomeStatuses "runtimeControl.invalidToolOutcomeStatus"
    "Assistant tool outcome status is invalid.".

(** [normalizeRuntimeKey(value, field)] *)
Definition normalizeRuntimeKey (value field : string) : Result string :=
  let normalized := trim value in
  if (String.length normalized =? 0)%nat then
    err (domain_error "runtimeControl.emptyRuntimeKey" (field +:+ " must be a non-empty string."))
  else if (180 <? String.length normalized)%nat then
    err (domain_error "runtimeControl.runtimeKeyTooLong" (field +:+ " must be 180 characters or fewer."))
  else ok normalized.

Definition canAppendAssistantDelta (s : TurnStatus) : bool :=
  match s with TQueued | TStreaming => true | _ => false end.
Definition canFinalizeAssistantTurn (s : TurnStatus) : bool :=
  match s with TQueued | TStreaming => true | _ => false end.
Definition isTerminalAssistantTurnStatus (s : TurnStatus) : bool :=
  match s with TFinal | TFailed => true | _ => false end.

(** ** Records; a [Date] is its time value in milliseconds *)

Record AssistantConversation : Type := mkConversation {
  cv_id : string;
  cv_organizationId : string;
  cv_workspaceId : string;
  cv_surface : string;
  cv_assistantKey : string;
  cv_status : ConversationStatus;
  cv_createdByUserId : string;
  cv_createdAt : Z;
  cv_updatedAt : Z;
}.

Record AssistantTurn : Type := mkTurn {
  tn_id : string;
  tn_conversationId : string;
  tn_organizationId : string;
  tn_workspaceId : string;
  tn_role : TurnRole;
  tn_status : TurnStatus;
  tn_actorUserId : option string;
  tn_assistantKey : option string;
  tn_content : jsobj;
  tn_idempotencyKey : string;
  tn_openclawSessionRef : option string;
  tn_openclawRunRef : option string;
  tn_createdAt : Z;
  tn_updatedAt : Z;
  tn_finalizedAt : option Z;
}.

Record AssistantToolOutcome : Type := mkOutcome {
  oc_id : string;
  oc_organizationId : string;
  oc_workspaceId : string;
  oc_turnId : string;
  oc_toolName : string;
  oc_toolCallId : string;
  oc_idempotencyKey : string;
  oc_status : OutcomeStatus;
  oc_requestSummary : jsobj;
  oc_resultSummary : jsobj;
  oc_targetRef : option string;
  oc_createdAt : Z;
  oc_updatedAt : Z;
  oc_completedAt : option Z;
}.

(** ** Inputs and answers of the store port.  An optional field that may also be
    [null] is an option of an option: [None] for [undefined]. *)

Record WorkspaceScope : Type := mkScope { sc_organizationId : string; sc_workspaceId : string }.

Record CreateRuntimeConversation : Type := mkCreateConversation {
  cc_scope : WorkspaceScope;     (* the input's own [organizationId] and [workspaceId] *)
  cc_surface : string;
  cc_assistantKey : string;
  cc_createdByUserId : string;
}.

Record FindOpenRuntimeConversation : Type := mkFindOpen {
  fo_surface : string;
  fo_assistantKey : string;
  fo_createdByUserId : string;
}.

Record AppendRuntimeUserTurn : Type := mkAppendUser {
  au_scope : WorkspaceScope;
  au_conversationId : string;
  au_actorUserId : string;
  au_idempotencyKey : string;
  au_content : jsobj;
}.

Record QueueRuntimeAssistantTurn : Type := mkQueueTurn {
  qt_scope : WorkspaceScope;
  qt_conversationId : string;
  qt_idempotencyKey : string;
  qt_assistantKey : string;
  qt_content : option jsobj;
  qt_openclawSessionRef : option string;    (* [?? null] makes [undefined] and [null] one *)
  qt_openclawRunRef : option string;
}.

Record AppendRuntimeAssistantDelta : Type := mkDelta { ad_turnId : string; ad_deltaText : string }.

Record FinalizeRuntimeAssistantTurn : Type := mkFinalizeTurn {
  ft_turnId : string;
  ft_content : jsobj;
  ft_openclawSessionRef : option string;
  ft_openclawRunRef : option string;
}.

Record FailRuntimeAssistantTurn : Type := mkFailTurn {
  xt_turnId : string;
  xt_errorCode : string;
  xt_errorMessage : string;
}.

Record StartRuntimeToolOutcome : Type := mkStartOutcome {
  so_scope : WorkspaceScope;
  so_turnId : string;
  so_toolName : string;
  so_toolCallId : string;
  so_idempotencyKey : string;
  so_requestSummary : jsobj;
  so_targetRef : option (option string);
}.

(** [status: "succeeded" | "failed"] *)
Inductive FinishStatus : Type := FSucceeded | FFailed.

Definition finish_status (s : FinishStatus) : OutcomeStatus :=
  match s with FSucceeded => OSucceeded | FFailed => OFailed end.

Record FinishRuntimeToolOutcome : Type := mkFinishOutcome {
  fi_turnId : string;
  fi_toolName : string;
  fi_toolCallId : string;
  fi_idempotencyKey : string;
  fi_status : FinishStatus;
  fi_requestSummary : jsobj;
  fi_resultSummary : jsobj;
  fi_targetRef : option (option string);
}.

(** [RuntimeTurnInsert], [RuntimeToolOutcomeInsert] *)
Inductive RuntimeInsert (A : Type) : Type :=
| Inserted (record : A)
| Replayed (record : A).
Arguments Inserted {A} record.
Arguments Replayed {A} record.

(** [RuntimeTurnTransition], [RuntimeToolOutcomeTransition] *)
Inductive RuntimeTransition (A : Type) : Type :=
| Updated (record : A)
| AlreadyFinal (record : A)
| NotFound
| InvalidState (record : A).
Arguments Updated {A} record.
Arguments AlreadyFinal {A} record.
Arguments NotFound {A}.
Arguments InvalidState {A} record.
