(* ===== verification/RuntimeStore.v ===== *)
(** * The in-memory conversation store
    ([packages/runtime-control/src/adapters/in-memory/runtime-conversation-store.ts])

    The state is the class's three maps and its clock, with the number of UUIDs
    drawn; every method is a call over that state. *)
From S2P Require Import Prelude JsString JsValue JsMap SharedKernel Effects DevBoardDomain JsText.
From S2P Require Import RuntimeDomain.

Module InMemoryRuntimeConversationStore.

Record store : Type := mkStore {
  conversations : jsmap AssistantConversation;
  turns : jsmap AssistantTurn;
  outcomes : jsmap AssistantToolOutcome;
  sequence : Z;
  uuids : nat;      (* calls of [randomUUID] so far *)
}.

Definition empty_store : store := mkStore [] [] [] 0 0.

Definition set_conversation (c : AssistantConversation) (s : store) : store :=
  mkStore (jm_set (cv_id c) c (conversations s)) (turns s) (outcomes s) (sequence s) (uuids s).
Definition set_turn (t : AssistantTurn) (s : store) : store :=
  mkStore (conversations s) (jm_set (tn_id t) t (turns s)) (outcomes s) (sequence s) (uuids s).
Definition set_outcome (o : AssistantToolOutcome) (s : store) : store :=
  mkStore (conversations s) (turns s) (jm_set (oc_id o) o (outcomes s)) (sequence s) (uuids s).

Definition inScope (organizationId workspaceId : string) (scope : WorkspaceScope) : bool :=
  String.eqb organizationId (sc_organizationId scope) && String.eqb workspaceId (sc_workspaceId scope).

Definition scope_of (scope input : WorkspaceScope) : bool :=
  inScope (sc_organizationId input) (sc_workspaceId input) scope.
Definition cv_in (scope : WorkspaceScope) (c : AssistantConversation) : bool :=
  inScope (cv_organizationId c) (cv_workspaceId c) scope.
Definition tn_in (scope : WorkspaceScope) (t : AssistantTurn) : bool :=
  inScope (tn_organizationId t) (tn_workspaceId t) scope.
Definition oc_in (scope : WorkspaceScope) (o : AssistantToolOutcome) : bool :=
  inScope (oc_organizationId o) (oc_workspaceId o) scope.

Definition assertScopedWrite (scope input : WorkspaceScope) : Result unit :=
  if scope_of scope input then ok tt else err TenantAccessDeniedError.

Definition targeted {A} (in_scope : A → bool) (records : jsmap A) (id : string) : Result (option A) :=
  match jm_get id records with
  | None => ok None
  | Some record => if in_scope record then ok (Some record) else err TenantAccessDeniedError
  end.

(** Increasing creation time, then id: the sort of every list the store returns. *)
Section created_order.
Context `{NodeRuntime}.
Context {A : Type} (created : A → Z) (id : A → string).

Definition created_le (a b : A) : Prop :=
  (created a < created b)%Z ∨ (created a = created b ∧ (localeCompare (id a) (id b) <= 0)%Z).

#[global] Instance created_le_dec : RelDecision created_le.
Proof. intros a b. unfold created_le. apply _. Defined.

Definition sort_created : list A → list A := merge_sort created_le.
End created_order.

Section methods.
Context `{NodeRuntime} `{OpaqueTexts}.

(** [this.now()] *)
Definition now : M store Z := λ s,
  let next := (sequence s + 1)%Z in
  (Returned next, mkStore (conversations s) (turns s) (outcomes s) next (uuids s)).

Definition randomUUID : M store string := λ s,
  (Returned (randomUUID_at (uuids s)),
   mkStore (conversations s) (turns s) (outcomes s) (sequence s) (S (uuids s))).

Definition modify (f : store → store) : M store unit := λ s, (Returned tt, f s).

(** [stableJson], which throws on a bigint. *)
Definition stable (value : jsval) : M store string :=
  match stableJson value with
  | Some text => mret text
  | None => throw (ExnType "Do not know how to serialize a BigInt")
  end.

Definition sameJson (left right : jsobj) : M store bool :=
  l ← stable (JObj left); r ← stable (JObj right); mret (String.eqb l r).

(** [a && sameJson(left, right)]: the texts are computed only when [a] holds. *)
Definition and_sameJson (a : bool) (left right : jsobj) : M store bool :=
  if a then sameJson left right else mret false.

Definition runtime_failure (code message : string) {A} : Result A := err (domain_error code message).

Definition idempotencyConflict {A} : Result A :=
  runtime_failure "runtimeControl.idempotencyConflict"
    "Idempotency key was reused with a different assistant turn payload.".
Definition toolOutcomeConflict {A} : Result A :=
  runtime_failure "runtimeControl.toolOutcomeConflict"
    "Tool call id was reused with a different payload.".

Definition createConversation (scope : WorkspaceScope) (input : CreateRuntimeConversation)
    : M store (Result AssistantConversation) :=
  match assertScopedWrite scope (cc_scope input) with
  | err d => mret (err d)
  | ok _ =>
      now ← now;
      id ← randomUUID;
      let conversation := mkConversation id (sc_organizationId scope) (sc_workspaceId scope)
        (cc_surface input) (cc_assistantKey input) CvOpen (cc_createdByUserId input) now now in
      modify (set_conversation conversation);;
      mret (ok conversation)
  end.

Definition open_match (scope : WorkspaceScope) (input : FindOpenRuntimeConversation)
    (c : AssistantConversation) : bool :=
  cv_in scope c && bool_decide (cv_status c = CvOpen) && String.eqb (cv_surface c) (fo_surface input)
  && String.eqb (cv_assistantKey c) (fo_assistantKey input)
  && String.eqb (cv_createdByUserId c) (fo_createdByUserId input).

Definition findOpenConversation (scope : WorkspaceScope) (input : FindOpenRuntimeConversation)
    (s : store) : Result (option AssistantConversation) :=
  ok (head (sort_created cv_createdAt cv_id
    (filter (λ c, open_match scope input c = true) (jm_values (conversations s))))).

Definition listTurns (scope : WorkspaceScope) (conversationId : string) (s : store)
    : Result (list AssistantTurn) :=
  match targeted (cv_in scope) (conversations s) conversationId with
  | err d => err d
  | ok None => ok []
  | ok (Some _) =>
      ok (sort_created tn_createdAt tn_id
        (filter (λ t, tn_in scope t && String.eqb (tn_conversationId t) conversationId = true)
           (jm_values (turns s))))
  end.

Definition conversationForWrite (scope : WorkspaceScope) (conversationId : string) (s : store)
    : Result AssistantConversation :=
  match targeted (cv_in scope) (conversations s) conversationId with
  | err d => err d
  | ok None => runtime_failure "runtimeControl.conversationNotFound" "Assistant conversation was not found."
  | ok (Some c) => ok c
  end.

(** The turn that already carries an idempotency key in a conversation. *)
Definition existing_turn (organizationId conversationId idempotencyKey : string) (s : store)
    : option AssistantTurn :=
  find (λ t, String.eqb (tn_organizationId t) organizationId
             && String.eqb (tn_conversationId t) conversationId
             && String.eqb (tn_idempotencyKey t) idempotencyKey) (jm_values (turns s)).

(** The common part of [appendUserTurn] and [queueAssistantTurn]: the checks, the
    replay of a present key, the insertion of a new turn. *)
Definition insert_turn (scope input_scope : WorkspaceScope) (conversationId idempotencyKey : string)
    (content : jsobj) (same_author : AssistantTurn → bool) (new_turn : Z → string → AssistantTurn)
    : M store (Result (RuntimeInsert AssistantTurn)) :=
  match assertScopedWrite scope input_scope with
  | err d => mret (err d)
  | ok _ =>
    s ← get_state;
    match conversationForWrite scope conversationId s with
    | err d => mret (err d)
    | ok _ =>
      match existing_turn (sc_organizationId scope) conversationId idempotencyKey s with
      | Some existing =>
          same ← and_sameJson (same_author existing) (tn_content existing) content;
          mret (if same : bool then ok (Replayed existing) else idempotencyConflict)
      | None =>
          now ← now;
          id ← randomUUID;
          modify (set_turn (new_turn now id));;
          mret (ok (Inserted (new_turn now id)))
      end
    end
  end.

Definition user_turn (scope : WorkspaceScope) (input : AppendRuntimeUserTurn) (now : Z) (id : string)
    : AssistantTurn :=
  mkTurn id (au_conversationId input) (sc_organizationId scope) (sc_workspaceId scope) RUser TFinal
    (Some (au_actorUserId input)) None (au_content input) (au_idempotencyKey input) None None
    now now (Some now).

Definition by_user (input : AppendRuntimeUserTurn) (existing : AssistantTurn) : bool :=
  bool_decide (tn_role existing = RUser)
  && bool_decide (tn_actorUserId existing = Some (au_actorUserId input)).

Definition appendUserTurn (scope : WorkspaceScope) (input : AppendRuntimeUserTurn)
    : M store (Result (RuntimeInsert AssistantTurn)) :=
  insert_turn scope (au_scope input) (au_conversationId input) (au_idempotencyKey input)
    (au_content input) (by_user input) (user_turn scope input).

Definition queued_turn (scope : WorkspaceScope) (input : QueueRuntimeAssistantTurn) (now : Z) (id : string)
    : AssistantTurn :=
  mkTurn id (qt_conversationId input) (sc_organizationId scope) (sc_workspaceId scope) RAssistant TQueued
    None (Some (qt_assistantKey input)) (default [] (qt_content input)) (qt_idempotencyKey input)
    (qt_openclawSessionRef input) (qt_openclawRunRef input) now now None.

Definition by_assistant (input : QueueRuntimeAssistantTurn) (existing : AssistantTurn) : bool :=
  bool_decide (tn_role existing = RAssistant)
  && bool_decide (tn_assistantKey existing = Some (qt_assistantKey input)).

Definition queueAssistantTurn (scope : WorkspaceScope) (input : QueueRuntimeAssistantTurn)
    : M store (Result (RuntimeInsert AssistantTurn)) :=
  insert_turn scope (qt_scope input) (qt_conversationId input) (qt_idempotencyKey input)
    (default [] (qt_content input)) (by_assistant input) (queued_turn scope input).

(** ** Transitions of assistant turns *)

(** A transition: the turn is looked up, [settled] recognises the state it already
    has, [admits] the states it may leave, [next] is the record it becomes. *)
Definition transition_turn (scope : WorkspaceScope) (turnId : string)
    (settled admits : TurnStatus → bool) (next : Z → AssistantTurn → AssistantTurn)
    : M store (Result (RuntimeTransition AssistantTurn)) :=
  s ← get_state;
  match targeted (tn_in scope) (turns s) turnId with
  | err d => mret (err d)
  | ok None => mret (ok NotFound)
  | ok (Some current) =>
      let assistant := bool_decide (tn_role current = RAssistant) in
      if assistant && settled (tn_status current) then mret (ok (AlreadyFinal current))
      else if negb assistant || negb (admits (tn_status current)) then mret (ok (InvalidState current))
      else
        now ← now;
        modify (set_turn (next now current));;
        mret (ok (Updated (next now current)))
  end.

Definition with_status (status : TurnStatus) (content : jsobj) (updatedAt : Z) (t : AssistantTurn)
    : AssistantTurn :=
  mkTurn (tn_id t) (tn_conversationId t) (tn_organizationId t) (tn_workspaceId t) (tn_role t) status
    (tn_actorUserId t) (tn_assistantKey t) content (tn_idempotencyKey t) (tn_openclawSessionRef t)
    (tn_openclawRunRef t) (tn_createdAt t) updatedAt (tn_finalizedAt t).

Definition with_refs (session run : option string) (t : AssistantTurn) : AssistantTurn :=
  mkTurn (tn_id t) (tn_conversationId t) (tn_organizationId t) (tn_workspaceId t) (tn_role t) (tn_status t)
    (tn_actorUserId t) (tn_assistantKey t) (tn_content t) (tn_idempotencyKey t) session run
    (tn_createdAt t) (tn_updatedAt t) (tn_finalizedAt t).

Definition with_finalizedAt (now : Z) (t : AssistantTurn) : AssistantTurn :=
  mkTurn (tn_id t) (tn_conversationId t) (tn_organizationId t) (tn_workspaceId t) (tn_role t) (tn_status t)
    (tn_actorUserId t) (tn_assistantKey t) (tn_content t) (tn_idempotencyKey t) (tn_openclawSessionRef t)
    (tn_openclawRunRef t) (tn_createdAt t) (tn_updatedAt t) (Some now).

Definition content_text (content : jsobj) : string :=
  match obj_get "text" content with JStr text => text | _ => "" end.
Definition content_deltas (content : jsobj) : list string :=
  match obj_get "deltas" content with JArr l => js_to_string <$> l | _ => [] end.

(** [{ ...content, text: `${text}${deltaText}`, deltas: [...deltas, deltaText] }] *)
Definition contentWithDelta (content : jsobj) (deltaText : string) : jsobj :=
  obj_spread content
    [("text", JStr (content_text content +:+ deltaText));
     ("deltas", JArr (JStr <$> (content_deltas content ++ [deltaText])))].

Definition streamed_turn (deltaText : string) (now : Z) (t : AssistantTurn) : AssistantTurn :=
  with_status TStreaming (contentWithDelta (tn_content t) deltaText) now t.

Definition appendAssistantDelta (scope : WorkspaceScope) (input : AppendRuntimeAssistantDelta)
    : M store (Result (RuntimeTransition AssistantTurn)) :=
  transition_turn scope (ad_turnId input) (λ _, false)
    (λ s, match s with TQueued | TStreaming => true | _ => false end) (streamed_turn (ad_deltaText input)).

Definition final_turn (input : FinalizeRuntimeAssistantTurn) (now : Z) (t : AssistantTurn) : AssistantTurn :=
  with_finalizedAt now (with_refs (ft_openclawSessionRef input) (ft_openclawRunRef input)
    (with_status TFinal (ft_content input) now t)).

Definition finalizeAssistantTurn (scope : WorkspaceScope) (input : FinalizeRuntimeAssistantTurn)
    : M store (Result (RuntimeTransition AssistantTurn)) :=
  transition_turn scope (ft_turnId input) (λ s, bool_decide (s = TFinal))
    (λ s, match s with TQueued | TStreaming => true | _ => false end) (final_turn input).

Definition failed_content (code message : string) : jsobj :=
  [("error", JObj [("code", JStr code); ("message", JStr message)])].

Definition failed_turn (input : FailRuntimeAssistantTurn) (now : Z) (t : AssistantTurn) : AssistantTurn :=
  with_finalizedAt now
    (with_status TFailed (failed_content (xt_errorCode input) (xt_errorMessage input)) now t).

Definition failAssistantTurn (scope : WorkspaceScope) (input : FailRuntimeAssistantTurn)
    : M store (Result (RuntimeTransition AssistantTurn)) :=
  transition_turn scope (xt_turnId input) (λ s, bool_decide (s = TFailed))
    (λ s, match s with TQueued | TStreaming | TFinalizing => true | _ => false end) (failed_turn input).

(** ** Tool outcomes *)

(** The receipt of a tool call of a turn. *)
Definition existing_outcome (turnId toolCallId : string) (s : store) : option AssistantToolOutcome :=
  find (λ o, String.eqb (oc_turnId o) turnId && String.eqb (oc_toolCallId o) toolCallId)
    (jm_values (outcomes s)).

Definition started_outcome (scope : WorkspaceScope) (input : StartRuntimeToolOutcome) (now : Z) (id : string)
    : AssistantToolOutcome :=
  mkOutcome id (sc_organizationId scope) (sc_workspaceId scope) (so_turnId input) (so_toolName input)
    (so_toolCallId input) (so_idempotencyKey input) OStarted (so_requestSummary input) []
    (default None (so_targetRef input)) now now None.

Definition startToolOutcome (scope : WorkspaceScope) (input : StartRuntimeToolOutcome)
    : M store (Result (RuntimeInsert AssistantToolOutcome)) :=
  match assertScopedWrite scope (so_scope input) with
  | err d => mret (err d)
  | ok _ =>
    s ← get_state;
    match targeted (tn_in scope) (turns s) (so_turnId input) with
    | err d => mret (err d)
    | ok None => mret (runtime_failure "runtimeControl.turnNotFound" "Assistant turn was not found.")
    | ok (Some turn) =>
      if negb (bool_decide (tn_role turn = RAssistant)) then
        mret (runtime_failure "runtimeControl.invalidToolOutcomeTurn"
                "Tool outcome receipts must bind to an assistant turn.")
      else
      match existing_outcome (so_turnId input) (so_toolCallId input) s with
      | Some existing =>
          same ← and_sameJson (String.eqb (oc_toolName existing) (so_toolName input)
                               && String.eqb (oc_idempotencyKey existing) (so_idempotencyKey input))
                   (oc_requestSummary existing) (so_requestSummary input);
          mret (if (same : bool) && match so_targetRef input with
                                    | None => true
                                    | Some ref => bool_decide (ref = oc_targetRef existing)
                                    end
                then ok (Replayed existing) else toolOutcomeConflict)
      | None =>
          now ← now;
          id ← randomUUID;
          modify (set_outcome (started_outcome scope input now id));;
          mret (ok (Inserted (started_outcome scope input now id)))
      end
    end
  end.

Definition finished_outcome (input : FinishRuntimeToolOutcome) (now : Z) (o : AssistantToolOutcome)
    : AssistantToolOutcome :=
  mkOutcome (oc_id o) (oc_organizationId o) (oc_workspaceId o) (oc_turnId o) (oc_toolName o)
    (oc_toolCallId o) (oc_idempotencyKey o) (finish_status (fi_status input)) (oc_requestSummary o)
    (fi_resultSummary input)
    (match fi_targetRef input with Some (Some ref) => Some ref | _ => oc_targetRef o end)
    (oc_createdAt o) now (Some now).

Definition finishToolOutcome (scope : WorkspaceScope) (input : FinishRuntimeToolOutcome)
    : M store (Result (RuntimeTransition AssistantToolOutcome)) :=
  s ← get_state;
  match existing_outcome (fi_turnId input) (fi_toolCallId input) s with
  | None => mret (ok NotFound)
  | Some existing =>
    if negb (oc_in scope existing) then mret (err TenantAccessDeniedError)
    else
    same ← and_sameJson (String.eqb (oc_toolName existing) (fi_toolName input)
                         && String.eqb (oc_idempotencyKey existing) (fi_idempotencyKey input))
             (oc_requestSummary existing) (fi_requestSummary input);
    if negb same then mret toolOutcomeConflict
    else if negb (bool_decide (oc_status existing = OStarted)) then
      same ← and_sameJson (bool_decide (oc_status existing = finish_status (fi_status input)))
               (oc_resultSummary existing) (fi_resultSummary input);
      mret (ok (if same : bool then AlreadyFinal existing else InvalidState existing))
    else
      now ← now;
      modify (set_outcome (finished_outcome input now existing));;
      mret (ok (Updated (finished_outcome input now existing)))
  end.

(** ** The runs of a task *)

Definition outcomes_of (scope : WorkspaceScope) (turnId : string) (s : store) : list AssistantToolOutcome :=
  filter (λ o, oc_in scope o && String.eqb (oc_turnId o) turnId = true) (jm_values (outcomes s)).

(** The assistant turns of the scope whose content mentions the task or one of whose
    outcomes targets it; [None] when [JSON.stringify] throws. *)
Definition mentions_task (scope : WorkspaceScope) (taskId : string) (s : store) (t : AssistantTurn)
    : option bool :=
  content ← jsonStringify (JObj (tn_content t));
  mret (includes taskId (default "" content)
        || existsb (λ o, bool_decide (oc_targetRef o = Some taskId)) (outcomes_of scope (tn_id t) s)).

Fixpoint filter_option {A} (p : A → option bool) (l : list A) : option (list A) :=
  match l with
  | [] => Some []
  | x :: l =>
      match p x, filter_option p l with
      | Some b, Some l => Some (if b then x :: l else l)
      | _, _ => None
      end
  end.

Definition listTaskAssistantRuns (scope : WorkspaceScope) (taskId : string)
    : M store (Result (list (AssistantTurn * list AssistantToolOutcome))) :=
  s ← get_state;
  match filter_option (mentions_task scope taskId s)
          (filter (λ t, tn_in scope t && bool_decide (tn_role t = RAssistant) = true) (jm_values (turns s))) with
  | None => throw (ExnType "Do not know how to serialize a BigInt")
  | Some found =>
      mret (ok ((λ t, (t, sort_created oc_createdAt oc_id (outcomes_of scope (tn_id t) s)))
                <$> sort_created tn_createdAt tn_id found))
  end.

End methods.
End InMemoryRuntimeConversationStore.
