(* ===== verification/RuntimeInvariant.v ===== *)
(** * Reachable conversation stores

    What one call of the in-memory conversation store does to its records
    ([change]), the stores the calls reach, and the invariant of their records:
    rows under their own ids, turns and outcomes in states of their state
    machines, one turn per idempotency key and one receipt per tool call. *)
From S2P Require Import Prelude JsMap JsString JsValue SharedKernel Effects DevBoardDomain JsText.
From S2P Require Import RuntimeDomain RuntimeStore.

Import InMemoryRuntimeConversationStore.

(** The documented behaviour of [randomUUID]: no value is drawn twice. *)
Class DistinctUuids `{NodeRuntime} : Prop := {
  randomUUID_distinct i j : randomUUID_at i = randomUUID_at j → i = j;
}.

(** ** One call *)

Definition tick (s : store) : store :=
  mkStore (conversations s) (turns s) (outcomes s) (sequence s + 1) (uuids s).
Definition draw (s : store) : store :=
  mkStore (conversations s) (turns s) (outcomes s) (sequence s) (S (uuids s)).

(** The identity of a turn, which no transition changes. *)
Definition turn_identity (t : AssistantTurn) :=
  (tn_id t, tn_conversationId t, tn_organizationId t, tn_workspaceId t, tn_role t, tn_actorUserId t,
   tn_assistantKey t, tn_idempotencyKey t, tn_createdAt t).

(** One transition of an assistant turn at time [now]. *)
Record turn_step (now : Z) (t t' : AssistantTurn) : Prop := {
  step_identity : turn_identity t' = turn_identity t;
  step_assistant : tn_role t = RAssistant;
  step_open : isTerminalAssistantTurnStatus (tn_status t) = false;
  step_status : tn_status t' ∈ [TStreaming; TFinal; TFailed];
  step_finalized : tn_finalizedAt t' =
    if isTerminalAssistantTurnStatus (tn_status t') then Some now else tn_finalizedAt t;
  step_updated : tn_updatedAt t' = now;
}.

Definition outcome_identity (o : AssistantToolOutcome) :=
  (oc_id o, oc_organizationId o, oc_workspaceId o, oc_turnId o, oc_toolName o, oc_toolCallId o,
   oc_idempotencyKey o, oc_requestSummary o, oc_createdAt o).

Record outcome_step (now : Z) (o o' : AssistantToolOutcome) : Prop := {
  finish_identity : outcome_identity o' = outcome_identity o;
  finish_started : oc_status o = OStarted;
  finish_done : oc_status o' ≠ OStarted;
  finish_completed : oc_completedAt o' = Some now;
  finish_updated : oc_updatedAt o' = now;
}.

(** A turn as it is inserted at time [now]. *)
Definition fresh_turn (now : Z) (t : AssistantTurn) : Prop :=
  tn_createdAt t = now ∧ tn_updatedAt t = now ∧
  ((tn_role t = RUser ∧ tn_status t = TFinal ∧ tn_finalizedAt t = Some now ∧
    is_Some (tn_actorUserId t) ∧ tn_assistantKey t = None) ∨
   (tn_role t = RAssistant ∧ tn_status t = TQueued ∧ tn_finalizedAt t = None ∧
    tn_actorUserId t = None ∧ is_Some (tn_assistantKey t))).

Section runtime.
Context `{NodeRuntime} `{OpaqueTexts}.
Implicit Types (scope : WorkspaceScope) (s : store).

(** What a call in a scope may do to the store. *)
Inductive change scope s : store → Prop :=
| change_none : change scope s s
| change_conversation c :
    cv_id c = randomUUID_at (uuids s) → cv_in scope c = true → cv_status c = CvOpen →
    cv_createdAt c = (sequence s + 1)%Z →
    change scope s (set_conversation c (draw (tick s)))
| change_insert_turn c t :
    jm_get (tn_conversationId t) (conversations s) = Some c → cv_in scope c = true →
    tn_in scope t = true → tn_id t = randomUUID_at (uuids s) → fresh_turn (sequence s + 1) t →
    existing_turn (tn_organizationId t) (tn_conversationId t) (tn_idempotencyKey t) s = None →
    change scope s (set_turn t (draw (tick s)))
| change_turn k t t' :
    jm_get k (turns s) = Some t → tn_in scope t = true → turn_step (sequence s + 1) t t' →
    change scope s (set_turn t' (tick s))
| change_insert_outcome t o :
    jm_get (oc_turnId o) (turns s) = Some t → tn_in scope t = true → tn_role t = RAssistant →
    oc_in scope o = true → oc_id o = randomUUID_at (uuids s) →
    existing_outcome (oc_turnId o) (oc_toolCallId o) s = None →
    oc_status o = OStarted → oc_completedAt o = None → oc_resultSummary o = [] →
    oc_createdAt o = (sequence s + 1)%Z →
    change scope s (set_outcome o (draw (tick s)))
| change_outcome o o' :
    o ∈ jm_values (outcomes s) → oc_in scope o = true → outcome_step (sequence s + 1) o o' →
    change scope s (set_outcome o' (tick s)).

(** ** Every call is a change *)

Lemma inScope_self organizationId workspaceId :
  inScope organizationId workspaceId (mkScope organizationId workspaceId) = true.
Proof. unfold inScope; simpl. by rewrite !String.eqb_refl. Qed.

Lemma inScope_true organizationId workspaceId scope :
  inScope organizationId workspaceId scope = true ↔
  organizationId = sc_organizationId scope ∧ workspaceId = sc_workspaceId scope.
Proof. unfold inScope. by rewrite andb_true_iff, !String.eqb_eq. Qed.

Lemma inScope_scope scope : inScope (sc_organizationId scope) (sc_workspaceId scope) scope = true.
Proof. by apply inScope_true. Qed.

Lemma targeted_some {A} (p : A → bool) m id x :
  targeted p m id = ok (Some x) → jm_get id m = Some x ∧ p x = true.
Proof. unfold targeted. repeat case_match; naive_solver. Qed.

(** A call that only computes texts leaves the store alone. *)
Lemma wp_and_sameJson a l r Q s : (∀ x, Q x s) → wp (and_sameJson a l r) Q s.
Proof.
  intros HQ. unfold and_sameJson, sameJson, stable. destruct a; [|apply wp_ret, HQ].
  apply wp_bind. destruct (stableJson (JObj l)); [apply wp_ret, wp_bind|apply wp_throw, HQ].
  destruct (stableJson (JObj r)); [apply wp_ret, wp_ret, HQ|apply wp_throw, HQ].
Qed.

Lemma wp_now Q s : Q (Returned (sequence s + 1)%Z) (tick s) → wp now Q s.
Proof. intros HQ. apply wp_of_run. by intros r s' [= <- <-]. Qed.

Lemma wp_draw Q s : Q (Returned (randomUUID_at (uuids s))) (draw s) → wp randomUUID Q s.
Proof. intros HQ. apply wp_of_run. by intros r s' [= <- <-]. Qed.

Lemma wp_modify f (Q : Effects.outcome unit → store → Prop) s : Q (Returned tt) (f s) → wp (modify f) Q s.
Proof. intros HQ. apply wp_of_run. by intros r s' [= <- <-]. Qed.

End runtime.

(** Steps through a method of the store. *)
Ltac store_step :=
  lazymatch goal with
  | |- wp (mbind _ _) _ _ => apply wp_bind
  | |- wp get_state _ _ => apply wp_get
  | |- wp now _ _ => apply wp_now
  | |- wp randomUUID _ _ => apply wp_draw
  | |- wp (modify _) _ _ => apply wp_modify
  | |- wp (and_sameJson _ _ _) _ _ => apply wp_and_sameJson; intros [?|?]
  | |- wp (mret _) _ _ => apply wp_ret
  | |- wp (throw _) _ _ => apply wp_throw
  | |- wp (match ?x with _ => _ end) _ _ => destruct x eqn:?
  end.

Section calls.
Context `{NodeRuntime} `{OpaqueTexts}.
Implicit Types (scope : WorkspaceScope) (s : store).

Lemma change_createConversation scope input s :
  wp (createConversation scope input) (λ _, change scope s) s.
Proof.
  unfold createConversation. repeat store_step; [|apply change_none].
  apply change_conversation; [done|apply inScope_scope|done|done].
Qed.

Lemma change_insert scope iscope conv key content author new s :
  (∀ id, tn_id (new (sequence s + 1)%Z id) = id ∧ tn_in scope (new (sequence s + 1)%Z id) = true ∧
         tn_conversationId (new (sequence s + 1)%Z id) = conv ∧
         tn_idempotencyKey (new (sequence s + 1)%Z id) = key ∧
         tn_organizationId (new (sequence s + 1)%Z id) = sc_organizationId scope ∧
         fresh_turn (sequence s + 1) (new (sequence s + 1)%Z id)) →
  wp (insert_turn scope iscope conv key content author new) (λ _, change scope s) s.
Proof.
  intros Hnew. unfold insert_turn. repeat store_step; try apply change_none.
  destruct (Hnew (randomUUID_at (uuids s))) as (Hid & Hin & Hconv & Hkey & Horg & Hfresh).
  unfold conversationForWrite in *. destruct (targeted _ _ _) as [[c|]|] eqn:Ht; simplify_eq.
  apply targeted_some in Ht as [Hc Hsc].
  change (uuids (tick s)) with (uuids s).
  eapply change_insert_turn; rewrite ?Hconv, ?Hkey, ?Horg; done.
Qed.

Lemma change_appendUserTurn scope input s : wp (appendUserTurn scope input) (λ _, change scope s) s.
Proof.
  apply change_insert. intros id. do 5 (split; [first [done | apply inScope_scope]|]).
  do 2 (split; [done|]). left. do 3 (split; [done|]). by split; [eexists|].
Qed.

Lemma change_queueAssistantTurn scope input s : wp (queueAssistantTurn scope input) (λ _, change scope s) s.
Proof.
  apply change_insert. intros id. do 5 (split; [first [done | apply inScope_scope]|]).
  do 2 (split; [done|]). right. do 4 (split; [done|]). by eexists.
Qed.

Lemma change_transition scope turnId settled admits next s :
  (∀ st, admits st = true → isTerminalAssistantTurnStatus st = false) →
  (∀ t, tn_role t = RAssistant → isTerminalAssistantTurnStatus (tn_status t) = false →
     turn_step (sequence s + 1) t (next (sequence s + 1)%Z t)) →
  wp (transition_turn scope turnId settled admits next) (λ _, change scope s) s.
Proof.
  intros Hadm Hnext. unfold transition_turn. repeat store_step; try apply change_none.
  match goal with Ht : targeted _ _ _ = _ |- _ => apply targeted_some in Ht as [Ht Hin] end.
  bool_hyps. eapply change_turn; [done|done|]. apply Hnext; [done|]. by apply Hadm.
Qed.

Lemma change_appendAssistantDelta scope input s :
  wp (appendAssistantDelta scope input) (λ _, change scope s) s.
Proof. apply change_transition; [by intros []|]. intros t Hr Ho. split; [done..|set_solver|done|done]. Qed.

Lemma change_finalizeAssistantTurn scope input s :
  wp (finalizeAssistantTurn scope input) (λ _, change scope s) s.
Proof. apply change_transition; [by intros []|]. intros t Hr Ho. split; [done..|set_solver|done|done]. Qed.

Lemma change_failAssistantTurn scope input s :
  wp (failAssistantTurn scope input) (λ _, change scope s) s.
Proof. apply change_transition; [by intros []|]. intros t Hr Ho. split; [done..|set_solver|done|done]. Qed.

Lemma change_startToolOutcome scope input s : wp (startToolOutcome scope input) (λ _, change scope s) s.
Proof.
  unfold startToolOutcome. repeat store_step; try apply change_none.
  match goal with Ht : targeted _ _ _ = _ |- _ => apply targeted_some in Ht as [Ht Hin] end.
  bool_hyps. eapply change_insert_outcome; try done. apply inScope_scope.
Qed.

Lemma find_elem {A} (p : A → bool) l x : find p l = Some x → x ∈ l ∧ p x = true.
Proof. intros Hf. apply find_some in Hf as [Hin Hp]. by rewrite list_elem_of_In. Qed.

Lemma change_finishToolOutcome scope input s : wp (finishToolOutcome scope input) (λ _, change scope s) s.
Proof.
  unfold finishToolOutcome. repeat store_step; try apply change_none.
  match goal with Hf : existing_outcome _ _ _ = _ |- _ => apply find_elem in Hf as [Hf _] end.
  bool_hyps. eapply change_outcome; [done|done|]. split; try done. simpl. by destruct (fi_status input).
Qed.

End calls.

(** ** Runs *)

Inductive runtime_call : Type :=
| CreateConversation (input : CreateRuntimeConversation)
| AppendUserTurn (input : AppendRuntimeUserTurn)
| QueueAssistantTurn (input : QueueRuntimeAssistantTurn)
| AppendAssistantDelta (input : AppendRuntimeAssistantDelta)
| FinalizeAssistantTurn (input : FinalizeRuntimeAssistantTurn)
| FailAssistantTurn (input : FailRuntimeAssistantTurn)
| StartToolOutcome (input : StartRuntimeToolOutcome)
| FinishToolOutcome (input : FinishRuntimeToolOutcome).

Section runs.
Context `{NodeRuntime} `{OpaqueTexts}.
Implicit Types (scope : WorkspaceScope) (s : store).

(** The store a call in a scope leaves, whatever it answers. *)
Definition store_after scope (c : runtime_call) s : store :=
  match c with
  | CreateConversation input => (createConversation scope input s).2
  | AppendUserTurn input => (appendUserTurn scope input s).2
  | QueueAssistantTurn input => (queueAssistantTurn scope input s).2
  | AppendAssistantDelta input => (appendAssistantDelta scope input s).2
  | FinalizeAssistantTurn input => (finalizeAssistantTurn scope input s).2
  | FailAssistantTurn input => (failAssistantTurn scope input s).2
  | StartToolOutcome input => (startToolOutcome scope input s).2
  | FinishToolOutcome input => (finishToolOutcome scope input s).2
  end.

Lemma wp_after {A} (m : M store A) (P : store → Prop) s : wp m (λ _, P) s → P (m s).2.
Proof. intros Hwp. destruct (m s) as [r s'] eqn:Hm. exact (wp_run m (λ _, P) s r s' Hwp Hm). Qed.

Lemma store_after_change scope c s : change scope s (store_after scope c s).
Proof.
  destruct c; simpl; apply wp_after;
    [ apply change_createConversation | apply change_appendUserTurn | apply change_queueAssistantTurn
    | apply change_appendAssistantDelta | apply change_finalizeAssistantTurn | apply change_failAssistantTurn
    | apply change_startToolOutcome | apply change_finishToolOutcome ].
Qed.

Definition runtime_step s s' : Prop := ∃ scope c, s' = store_after scope c s.

(** The stores that calls reach from an empty one. *)
Definition runtime_reachable s : Prop := rtc runtime_step empty_store s.

(** ** Rows under their own ids *)

Record rows_ok {A} (id : A → string) (m : jsmap A) (n : nat) : Prop := {
  rows_wf : jm_wf m;
  rows_own k x : jm_get k m = Some x → id x = k;
  rows_drawn k x : jm_get k m = Some x → ∃ i, i < n ∧ k = randomUUID_at i;
}.

Lemma rows_ok_nil {A} (id : A → string) n : rows_ok id [] n.
Proof. by split; [apply jm_wf_nil|..]. Qed.

Lemma rows_ok_mono {A} (id : A → string) m n n' : n <= n' → rows_ok id m n → rows_ok id m n'.
Proof. intros Hn [Hwf Hown Hd]. split; [done..|]. intros k x Hk. destruct (Hd k x Hk) as (i & ? & ->). exists i. split; [lia|done]. Qed.

Lemma rows_fresh `{!DistinctUuids} {A} (id : A → string) m n :
  rows_ok id m n → jm_get (randomUUID_at n) m = None.
Proof.
  intros [_ _ Hd]. destruct (jm_get _ m) as [x|] eqn:Hk; [|done].
  apply Hd in Hk as (i & Hi & ->%randomUUID_distinct). lia.
Qed.

Lemma rows_insert {A} (id : A → string) m n x :
  rows_ok id m n → id x = randomUUID_at n → rows_ok id (jm_set (id x) x m) (S n).
Proof.
  intros [Hwf Hown Hd] Hid. split; [by apply jm_wf_set|..].
  - intros k y [[-> ->]|[_ Hk]]%jm_get_set_Some; [done|by apply Hown].
  - intros k y [[-> ->]|[_ Hk]]%jm_get_set_Some; [exists n; split; [lia|done]|].
    apply Hd in Hk as (i & Hi & ->). exists i. split; [lia|done].
Qed.

Lemma rows_update {A} (id : A → string) m n x y :
  rows_ok id m n → jm_get (id x) m = Some y → rows_ok id (jm_set (id x) x m) n.
Proof.
  intros [Hwf Hown Hd] Hy. split; [by apply jm_wf_set|..].
  - intros k z [[-> ->]|[_ Hk]]%jm_get_set_Some; [done|by apply Hown].
  - intros k z [[-> ->]|[_ Hk]]%jm_get_set_Some; [by eapply Hd|by eapply Hd].
Qed.

End runs.

(** * The invariant of reachable conversation stores

    [runtime_ok] holds of every store that calls reach, and [records_step] says
    what one call may do to the records that are already there. *)

Import InMemoryRuntimeConversationStore.

(** ** The invariant *)

Definition turn_key (t : AssistantTurn) := (tn_organizationId t, tn_conversationId t, tn_idempotencyKey t).
Definition outcome_call (o : AssistantToolOutcome) := (oc_turnId o, oc_toolCallId o).

(** A user turn is final from the start; an assistant turn is never left in
    [finalizing]; a turn has a finalization time exactly when it is terminal. *)
Record turn_ok (s : store) (t : AssistantTurn) : Prop := {
  turn_conversation : ∃ c, jm_get (tn_conversationId t) (conversations s) = Some c ∧
    cv_organizationId c = tn_organizationId t ∧ cv_workspaceId c = tn_workspaceId t;
  turn_times : (tn_createdAt t <= tn_updatedAt t <= sequence s)%Z;
  turn_author :
    (tn_role t = RUser ∧ tn_status t = TFinal ∧ is_Some (tn_actorUserId t) ∧ tn_assistantKey t = None) ∨
    (tn_role t = RAssistant ∧ tn_status t ≠ TFinalizing ∧ tn_actorUserId t = None ∧
     is_Some (tn_assistantKey t));
  turn_finalized : is_Some (tn_finalizedAt t) ↔ isTerminalAssistantTurnStatus (tn_status t) = true;
}.

(** A receipt belongs to an assistant turn of its scope, and is completed exactly
    when it is no longer started. *)
Record outcome_ok (s : store) (o : AssistantToolOutcome) : Prop := {
  outcome_turn : ∃ t, jm_get (oc_turnId o) (turns s) = Some t ∧ tn_role t = RAssistant ∧
    tn_organizationId t = oc_organizationId o ∧ tn_workspaceId t = oc_workspaceId o;
  outcome_completed : is_Some (oc_completedAt o) ↔ oc_status o ≠ OStarted;
  outcome_result : oc_status o = OStarted → oc_resultSummary o = [];
}.

Section reachable.
Context `{NodeRuntime} `{OpaqueTexts}.
Implicit Types (scope : WorkspaceScope) (s : store).

Record runtime_ok s : Prop := {
  ok_conversations : rows_ok cv_id (conversations s) (uuids s);
  ok_turns : rows_ok tn_id (turns s) (uuids s);
  ok_outcomes : rows_ok oc_id (outcomes s) (uuids s);
  ok_turn k t : jm_get k (turns s) = Some t → turn_ok s t;
  ok_turn_key k k' t t' : jm_get k (turns s) = Some t → jm_get k' (turns s) = Some t' →
    turn_key t = turn_key t' → k = k';
  ok_outcome k o : jm_get k (outcomes s) = Some o → outcome_ok s o;
  ok_outcome_call k k' o o' : jm_get k (outcomes s) = Some o → jm_get k' (outcomes s) = Some o' →
    outcome_call o = outcome_call o' → k = k';
}.

(** ** Frames *)

Lemma turn_ok_mono s s' t :
  (∀ k c, jm_get k (conversations s) = Some c → jm_get k (conversations s') = Some c) →
  (sequence s <= sequence s')%Z → turn_ok s t → turn_ok s' t.
Proof.
  intros Hc Hs [(c & Hget & Horg & Hws) Ht Ha Hf]. split; [|lia|done|done].
  exists c. by split; [apply Hc|].
Qed.

Lemma outcome_ok_mono s s' o :
  (∀ k t, jm_get k (turns s) = Some t → ∃ t', jm_get k (turns s') = Some t' ∧
     turn_identity t' = turn_identity t) →
  outcome_ok s o → outcome_ok s' o.
Proof.
  intros Ht [(t & Hget & Hr & Horg & Hws) Hc Hres]. split; [|done|done].
  destruct (Ht _ _ Hget) as (t' & Hget' & Hid). exists t'. injection Hid as ???? Er ????.
  split_and!; congruence.
Qed.

Lemma existing_turn_none org conv key s k t :
  existing_turn org conv key s = None → jm_get k (turns s) = Some t → turn_key t ≠ (org, conv, key).
Proof.
  intros Hnone Hk [= <- <- <-]. apply jm_get_values, list_elem_of_In in Hk.
  by pose proof (find_none _ _ Hnone _ Hk) as Hf; simpl in Hf; rewrite !String.eqb_refl in Hf.
Qed.

Lemma existing_outcome_none turnId callId s k o :
  existing_outcome turnId callId s = None → jm_get k (outcomes s) = Some o →
  outcome_call o ≠ (turnId, callId).
Proof.
  intros Hnone Hk [= <- <-]. apply jm_get_values, list_elem_of_In in Hk.
  by pose proof (find_none _ _ Hnone _ Hk) as Hf; simpl in Hf; rewrite !String.eqb_refl in Hf.
Qed.

(** ** What one call does to the records that are there *)

(** No record disappears; conversations stay as they are, turns and outcomes take
    at most one transition, at the new time. *)
Record records_step s s' : Prop := {
  conversations_stay k c : jm_get k (conversations s) = Some c → jm_get k (conversations s') = Some c;
  turns_step k t : jm_get k (turns s) = Some t → ∃ t', jm_get k (turns s') = Some t' ∧
    (t' = t ∨ turn_step (sequence s') t t');
  outcomes_step k o : jm_get k (outcomes s) = Some o → ∃ o', jm_get k (outcomes s') = Some o' ∧
    (o' = o ∨ outcome_step (sequence s') o o');
  clock_grows : (sequence s <= sequence s')%Z;
}.

Lemma identity_id t t' : turn_identity t' = turn_identity t → tn_id t' = tn_id t.
Proof. by intros [=]. Qed.
Lemma identity_oc o o' : outcome_identity o' = outcome_identity o → oc_id o' = oc_id o.
Proof. by intros [=]. Qed.

Lemma jm_get_set_fresh {A} k k' (v w : A) m :
  jm_get k m = None → jm_get k' m = Some w → jm_get k' (jm_set k v m) = Some w.
Proof. intros Hn Hs. rewrite jm_get_set_ne; [done|]. congruence. Qed.

Lemma change_records `{!DistinctUuids} scope s s' : runtime_ok s → change scope s s' → records_step s s'.
Proof.
  intros Hok Hch. destruct Hch as [|c Hid|c t _ _ _ Hid|k0 t0 t1 Ht _ Hstep|t o _ _ _ _ Hid|o0 o1 Ho _ Hstep].
  - split; [done|by eauto..|done].
  - split; simpl; [|by eauto..|lia]. intros k c' Hk. rewrite Hid.
    apply jm_get_set_fresh; [apply (rows_fresh cv_id)|done]. apply Hok.
  - split; simpl; [done| |by eauto|lia]. intros k t' Hk. exists t'. split; [|by left]. rewrite Hid.
    apply jm_get_set_fresh; [apply (rows_fresh tn_id)|done]. apply Hok.
  - split; simpl; [done| |by eauto|lia]. intros k t Hk.
    assert (tn_id t1 = k0) as Hid.
    { rewrite (identity_id t0); [by apply Hok|apply Hstep]. }
    rewrite jm_get_set, Hid. destruct (String.eqb_spec k k0) as [->|]; [|by eauto].
    exists t1. split; [done|]. right. by simplify_eq.
  - split; simpl; [done|by eauto| |lia]. intros k o' Hk. exists o'. split; [|by left]. rewrite Hid.
    apply jm_get_set_fresh; [apply (rows_fresh oc_id)|done]. apply Hok.
  - split; simpl; [done|by eauto| |lia]. intros k o Hk.
    apply elem_of_jm_values in Ho as [k0 Ho]; [|apply Hok].
    assert (oc_id o1 = k0) as Hid.
    { rewrite (identity_oc o0); [by apply Hok|apply Hstep]. }
    rewrite jm_get_set, Hid. destruct (String.eqb_spec k k0) as [->|]; [|by eauto].
    exists o1. split; [done|]. right. by simplify_eq.
Qed.

(** ** Every change preserves the invariant *)

Lemma fresh_turn_ok s t c :
  fresh_turn (sequence s) t → jm_get (tn_conversationId t) (conversations s) = Some c →
  cv_organizationId c = tn_organizationId t → cv_workspaceId c = tn_workspaceId t → turn_ok s t.
Proof.
  intros (Hc & Hu & Hf) Hget Horg Hws. split.
  - by exists c.
  - rewrite Hc, Hu. lia.
  - destruct Hf as [(-> & -> & _ & ? & ?)|(-> & -> & _ & ? & ?)]; [by left|by right].
  - destruct Hf as [(_ & -> & -> & _)|(_ & -> & -> & _)]; simpl; [by split; eauto|by split; [intros [? [=]]|]].
Qed.

Lemma turn_step_ok s t t' :
  turn_step (sequence s + 1) t t' → turn_ok s t → turn_ok (tick s) t'.
Proof.
  intros [Hid Hr Hopen Hst Hfin Hup] [Hc Ht Ha Hf].
  injection Hid as Eid Econv Eorg Ews Erole Eactor Ekey Eidem Ecreated.
  split.
  - by rewrite Econv, Eorg, Ews.
  - rewrite Ecreated, Hup. simpl. lia.
  - right. rewrite Erole, Eactor, Ekey. destruct Ha as [[Hr' _]|(_ & _ & Hact & Hkey)]; [congruence|].
    split; [done|]. split; [|done]. intros E. rewrite E in Hst. set_solver.
  - rewrite Hfin. destruct (isTerminalAssistantTurnStatus (tn_status t')) eqn:E; [by split; eauto|].
    by rewrite Hf, Hopen.
Qed.

Lemma runtime_ok_change `{!DistinctUuids} scope s s' : runtime_ok s → change scope s s' → runtime_ok s'.
Proof.
  intros Hok Hch. pose proof (change_records _ _ _ Hok Hch) as [Hcs Hts Hos Hclock].
  assert (∀ t, turn_ok s t → turn_ok s' t) as Hturn.
  { intros t. by apply turn_ok_mono. }
  assert (∀ o, outcome_ok s o → outcome_ok s' o) as Hout.
  { intros o. apply outcome_ok_mono. intros k t Hk. destruct (Hts k t Hk) as (t' & Hk' & [->|Hst]);
      eexists; split; [done|done|done|apply Hst]. }
  destruct Hok as [Rc Rt Ro Pt Kt Po Ko].
  destruct Hch as [|c Hid|c t Hc Hcin Htin Hid Hfresh Hnone|k0 t0 t1 Ht _ Hstep
                  |t o Ht Htin Hrole Hoin Hid Hnone Hst Hcomp Hres Hcreated|o0 o1 Ho _ Hstep].
  - by split.
  - split; simpl; [by apply rows_insert|by eapply rows_ok_mono; [|done]; lia..| | | |]; eauto.
  - split; simpl; [by eapply rows_ok_mono; [|done]; lia|by apply rows_insert
                  |by eapply rows_ok_mono; [|done]; lia| | |by eauto|by eauto].
    + intros k t' [[-> ->]|[_ Hk]]%jm_get_set_Some; [|by eauto].
      apply inScope_true in Hcin as [??], Htin as [??].
      apply (fresh_turn_ok _ _ c); simpl; [done|done|congruence..].
    + intros k k' t1 t2 [[-> ->]|[_ Hk]]%jm_get_set_Some [[-> ->]|[_ Hk']]%jm_get_set_Some Hkey;
        [done| | |by eauto]; [|symmetry in Hkey]; by destruct (existing_turn_none _ _ _ _ _ _ Hnone ltac:(eassumption)).
  - assert (tn_id t1 = k0) as Hid by (rewrite (identity_id t0); [by apply Rt|apply Hstep]).
    assert (turn_key t1 = turn_key t0) as Hkey by (by destruct Hstep as [[=]]; unfold turn_key; congruence).
    split; simpl; [done|eapply rows_update; [done|by rewrite Hid]|done| | |by eauto|by eauto].
    + intros k t [[-> ->]|[_ Hk]]%jm_get_set_Some; [|by eauto].
      apply (turn_ok_mono (tick s)); [done|simpl; lia|]. by eapply turn_step_ok; eauto.
    + rewrite Hid. intros k k' t t' [[-> ->]|[_ Hk]]%jm_get_set_Some [[-> ->]|[_ Hk']]%jm_get_set_Some He;
        [done| | |by eauto];
        [apply (Kt k0 k' t0 t')|apply (Kt k k0 t t0)]; congruence.
  - split; simpl; [by eapply rows_ok_mono; [|done]; lia..|by apply rows_insert|by eauto|by eauto| |].
    + intros k o' [[-> ->]|[_ Hk]]%jm_get_set_Some; [|by eauto].
      apply inScope_true in Htin as [??], Hoin as [??]. split; [exists t; simpl; split_and!; congruence|..].
      * rewrite Hcomp, Hst. by split; [intros [? [=]]|].
      * done.
    + intros k k' o1 o2 [[-> ->]|[_ Hk]]%jm_get_set_Some [[-> ->]|[_ Hk']]%jm_get_set_Some Hcall;
        [done| | |by eauto]; [symmetry in Hcall|]; by destruct (existing_outcome_none _ _ _ _ _ Hnone ltac:(eassumption)).
  - apply elem_of_jm_values in Ho as [k0 Ho]; [|apply Ro].
    assert (oc_id o1 = k0) as Hid by (rewrite (identity_oc o0); [by apply Ro|apply Hstep]).
    assert (outcome_call o1 = outcome_call o0) as Hcall by (by destruct Hstep as [[=]]; unfold outcome_call; congruence).
    split; simpl; [done|done|eapply rows_update; [done|by rewrite Hid]|by eauto|by eauto| |].
    + intros k o [[-> ->]|[_ Hk]]%jm_get_set_Some; [|by eauto].
      destruct Hstep as [[=] Hs Hd Hc _]. destruct (Po _ _ Ho) as [(t & Ht & Hr & Horg & Hws) _ _].
      split; [exists t; simpl; split_and!; congruence| |done]. rewrite Hc. by split; eauto.
    + rewrite Hid. intros k k' o o' [[-> ->]|[_ Hk]]%jm_get_set_Some [[-> ->]|[_ Hk']]%jm_get_set_Some He;
        [done| | |by eauto];
        [apply (Ko k0 k' o0 o')|apply (Ko k k0 o o0)]; congruence.
Qed.

Lemma runtime_ok_empty : runtime_ok empty_store.
Proof. split; [apply rows_ok_nil..|done|done|done|done]. Qed.

Lemma runtime_reachable_ok `{!DistinctUuids} s : runtime_reachable s → runtime_ok s.
Proof.
  intros Hr. refine (rtc_ind_r runtime_ok empty_store runtime_ok_empty _ s Hr).
  intros s1 s2 _ (scope & c & ->) Hok. eapply runtime_ok_change; [done|]. apply store_after_change.
Qed.

End reachable.

(** ** Runs of the conversation store *)

Import InMemoryRuntimeConversationStore.

(** Runs a call over a state step by step. *)
Ltac run_step :=
  unfold get_state, modify, now, randomUUID, throw, mbind, M_bind, mret, M_ret; cbn beta iota.

(** The progress of a turn: queued, under way, over. *)
Definition turn_rank (s : TurnStatus) : nat :=
  match s with TQueued => 0 | TStreaming | TFinalizing => 1 | TFinal | TFailed => 2 end.

(** What calls may have made of a turn, of a tool outcome and of a store. *)
Record turn_later (t t' : AssistantTurn) : Prop := {
  later_identity : turn_identity t' = turn_identity t;
  later_terminal : isTerminalAssistantTurnStatus (tn_status t) = true → t' = t;
  later_rank : turn_rank (tn_status t) <= turn_rank (tn_status t');
}.

Record outcome_later (o o' : AssistantToolOutcome) : Prop := {
  outcome_later_identity : outcome_identity o' = outcome_identity o;
  outcome_later_finished : oc_status o ≠ OStarted → o' = o;
}.

Record later (s s' : store) : Prop := {
  later_conversations k c : jm_get k (conversations s) = Some c → jm_get k (conversations s') = Some c;
  later_turns k t : jm_get k (turns s) = Some t → ∃ t', jm_get k (turns s') = Some t' ∧ turn_later t t';
  later_outcomes k o : jm_get k (outcomes s) = Some o →
    ∃ o', jm_get k (outcomes s') = Some o' ∧ outcome_later o o';
  later_clock : (sequence s <= sequence s')%Z;
}.

#[global] Instance turn_later_preorder : PreOrder turn_later.
Proof.
  split; [by intros t; split|]. intros t1 t2 t3 [I1 T1 R1] [I2 T2 R2]. split; [congruence| |lia].
  intros Ht. rewrite <-(T1 Ht). apply T2. by rewrite (T1 Ht).
Qed.

#[global] Instance outcome_later_preorder : PreOrder outcome_later.
Proof.
  split; [by intros o; split|]. intros o1 o2 o3 [I1 T1] [I2 T2]. split; [congruence|].
  intros Ho. rewrite <-(T1 Ho). apply T2. by rewrite (T1 Ho).
Qed.

#[global] Instance later_preorder : PreOrder later.
Proof.
  split.
  - intros s. split; [done| | |done]; intros k x Hk; exists x; by split.
  - intros s1 s2 s3 [C1 T1 O1 S1] [C2 T2 O2 S2]. split; [by eauto| | |lia].
    + intros k t1 (t2 & Hk2 & L1)%T1. apply T2 in Hk2 as (t3 & Hk3 & L2). exists t3. split; [done|by etrans].
    + intros k o1 (o2 & Hk2 & L1)%O1. apply O2 in Hk2 as (o3 & Hk3 & L2). exists o3. split; [done|by etrans].
Qed.

Lemma turn_step_later now t t' : turn_step now t t' → turn_later t t'.
Proof.
  intros [Hid _ Hopen Hst _ _]. split; [done|congruence|].
  rewrite !elem_of_cons, elem_of_nil in Hst.
  destruct (tn_status t); simplify_eq/=; destruct Hst as [->|[->|[->|[]]]]; simpl; lia.
Qed.

Lemma outcome_step_later now o o' : outcome_step now o o' → outcome_later o o'.
Proof. intros [Hid Hst _ _ _]. by split; [|congruence]. Qed.

Lemma records_step_later s s' : records_step s s' → later s s'.
Proof.
  intros [C T O S]. split; [done| | |done].
  - intros k t (t' & Hk & Hst)%T. exists t'. split; [done|].
    destruct Hst as [->|Hst]; [done|by eapply turn_step_later].
  - intros k o (o' & Hk & Hst)%O. exists o'. split; [done|].
    destruct Hst as [->|Hst]; [done|by eapply outcome_step_later].
Qed.

Section runs.
Context `{NodeRuntime} `{OpaqueTexts}.
Implicit Types (scope : WorkspaceScope) (s : store).

Lemma runs_later `{!DistinctUuids} s s' :
  runtime_ok s → rtc runtime_step s s' → runtime_ok s' ∧ later s s'.
Proof.
  intros Hok Hr. revert Hok. induction Hr as [s|s s1 s' (scope & c & ->) _ IH]; intros Hok; [by split|].
  pose proof (store_after_change scope c s) as Hch.
  destruct IH as [Hok' Hl]; [by eapply runtime_ok_change|]. split; [done|].
  etrans; [|done]. eapply records_step_later, change_records; done.
Qed.

(** ** Isolation of one call *)

Lemma change_conversations_isolated `{!DistinctUuids} scope s s' k c :
  runtime_ok s → change scope s s' → cv_in scope c = false →
  jm_get k (conversations s') = Some c ↔ jm_get k (conversations s) = Some c.
Proof.
  intros Hok Hch Hout. destruct Hch as [|c' Hid Hin _|?|?|?|?]; try done. simpl. rewrite jm_get_set.
  destruct (String.eqb_spec k (cv_id c')) as [->|]; [|done]. rewrite Hid.
  rewrite (rows_fresh cv_id) by apply Hok. split; congruence.
Qed.

Lemma change_turns_isolated `{!DistinctUuids} scope s s' k t :
  runtime_ok s → change scope s s' → tn_in scope t = false →
  jm_get k (turns s') = Some t ↔ jm_get k (turns s) = Some t.
Proof.
  intros Hok Hch Hout.
  destruct Hch as [|?|c t' _ _ Hin Hid|k0 t0 t1 Ht Hin Hst|?|?]; try done; simpl; rewrite jm_get_set.
  - destruct (String.eqb_spec k (tn_id t')) as [->|]; [|done]. rewrite Hid.
    rewrite (rows_fresh tn_id) by apply Hok. split; congruence.
  - assert (tn_id t1 = k0) as -> by (rewrite (identity_id t0); [by apply Hok|apply Hst]).
    destruct (String.eqb_spec k k0) as [->|]; [|done].
    assert (tn_in scope t1 = true).
    { destruct Hst as [Hid]. injection Hid as ?? Eo Ew ?????. unfold tn_in. by rewrite Eo, Ew. }
    rewrite Ht. split; congruence.
Qed.

Lemma change_outcomes_isolated `{!DistinctUuids} scope s s' k o :
  runtime_ok s → change scope s s' → oc_in scope o = false →
  jm_get k (outcomes s') = Some o ↔ jm_get k (outcomes s) = Some o.
Proof.
  intros Hok Hch Hout.
  destruct Hch as [|?|?|?|t o' _ _ _ Hin Hid|o0 o1 Ho Hin Hst]; try done; simpl; rewrite jm_get_set.
  - destruct (String.eqb_spec k (oc_id o')) as [->|]; [|done]. rewrite Hid.
    rewrite (rows_fresh oc_id) by apply Hok. split; congruence.
  - apply elem_of_jm_values in Ho as [k0 Ho]; [|apply Hok].
    assert (oc_id o1 = k0) as -> by (rewrite (identity_oc o0); [by apply Hok|apply Hst]).
    destruct (String.eqb_spec k k0) as [->|]; [|done].
    assert (oc_in scope o1 = true).
    { destruct Hst as [Hid]. injection Hid as ? Eo Ew ??????. unfold oc_in. by rewrite Eo, Ew. }
    rewrite Ho. split; congruence.
Qed.

(** ** Insertion and replay *)

Lemma existing_turn_found s k t :
  runtime_ok s → jm_get k (turns s) = Some t →
  existing_turn (tn_organizationId t) (tn_conversationId t) (tn_idempotencyKey t) s = Some t.
Proof.
  intros Hok Hk. destruct (existing_turn _ _ _ s) as [t'|] eqn:He.
  - apply find_elem in He as [[k' Hk']%elem_of_jm_values Hkey]; [|apply Hok]. bool_hyps.
    repeat match goal with E : String.eqb _ _ = true |- _ => apply String.eqb_eq in E end.
    assert (k' = k) as -> by (apply (ok_turn_key s Hok k' k t' t); [done|done|unfold turn_key; congruence]).
    congruence.
  - by destruct (existing_turn_none _ _ _ _ _ _ He Hk).
Qed.

Lemma insert_turn_inserted scope iscope conv key content author new s t s' :
  insert_turn scope iscope conv key content author new s = (Returned (ok (Inserted t)), s') →
  scope_of scope iscope = true ∧
  (∃ c, jm_get conv (conversations s) = Some c ∧ cv_in scope c = true) ∧
  t = new (sequence s + 1)%Z (randomUUID_at (uuids s)) ∧ s' = set_turn t (draw (tick s)) ∧
  existing_turn (sc_organizationId scope) conv key s = None.
Proof.
  unfold insert_turn, assertScopedWrite, conversationForWrite, targeted.
  destruct (scope_of scope iscope); [|done]. run_step.
  destruct (jm_get conv (conversations s)) as [c|]; [|done]. destruct (cv_in scope c) eqn:Hin; [|done].
  destruct (existing_turn _ _ _ s) as [t0|].
  - unfold and_sameJson, sameJson, stable. run_step.
    destruct (author t0), (stableJson (JObj (tn_content t0))), (stableJson (JObj content)); cbn; try done.
    by destruct (String.eqb _ _).
  - intros [= <- <-]. repeat split; try done. by exists c.
Qed.

Lemma insert_turn_existing scope iscope conv key content author new s c t text text' :
  scope_of scope iscope = true → jm_get conv (conversations s) = Some c → cv_in scope c = true →
  existing_turn (sc_organizationId scope) conv key s = Some t →
  stableJson (JObj (tn_content t)) = Some text → stableJson (JObj content) = Some text' →
  insert_turn scope iscope conv key content author new s =
    (Returned (if author t && String.eqb text text' then ok (Replayed t) else idempotencyConflict), s).
Proof.
  intros Hs Hc Hin Ht Htext Htext'.
  unfold insert_turn, assertScopedWrite, conversationForWrite, targeted. rewrite Hs. run_step. rewrite Hc, Hin, Ht.
  unfold and_sameJson, sameJson, stable. rewrite Htext, Htext'. run_step.
  by destruct (author t).
Qed.

(** A transition that is admitted. *)
Lemma transition_turn_run scope turnId settled admits next s t :
  jm_get turnId (turns s) = Some t → tn_in scope t = true → tn_role t = RAssistant →
  settled (tn_status t) = false → admits (tn_status t) = true →
  transition_turn scope turnId settled admits next s =
    (Returned (ok (Updated (next (sequence s + 1)%Z t))), set_turn (next (sequence s + 1)%Z t) (tick s)).
Proof.
  intros Ht Hin Hr Hset Had. unfold transition_turn, targeted. run_step. rewrite Ht, Hin.
  by rewrite Hr, Hset, Had.
Qed.

End runs.
