(* ===== verification/Authorization.v ===== *)
(** * Authorization
    ([packages/ports/src/authorization.ts], [authorization-contract.ts],
    [packages/runtime-control/src/application/authorization.ts],
    [packages/project-management/src/application/authorization.ts])

    The types of the authorization port, the role-key ports that Runtime Control
    and project management use by default, and the contract every port has to
    satisfy. *)
From S2P Require Import Prelude JsString JsValue SharedKernel.

(** ** The port *)

Record AuthorizationSubject : Type := mkSubject {
  sb_userId : string;
  sb_tenantId : string;
  sb_orgId : string;
  sb_workspaceIds : list string;
  sb_roleKeys : option (list string);
}.

Inductive AuthorizationAction : Type :=
| ActRead | ActCreate | ActUpdate | ActDelete | ActAdmin | ActApprove | ActExecute.

Inductive ResourceType : Type :=
| ResTenant | ResOrganization | ResWorkspace | ResProject | ResTask | ResAgent | ResGateway | ResSecret.

#[global] Instance AuthorizationAction_eq_dec : EqDecision AuthorizationAction.
Proof. solve_decision. Defined.
#[global] Instance ResourceType_eq_dec : EqDecision ResourceType.
Proof. solve_decision. Defined.

Record AuthorizationResource : Type := mkResource {
  rs_type : ResourceType;
  rs_tenantId : string;
  rs_orgId : option string;
  rs_workspaceId : option string;
  rs_projectId : option string;
  rs_id : option string;
}.

Record AuthorizationDecision : Type := mkDecision {
  dc_allowed : bool;
  dc_reason : option string;
}.

Inductive TenantGrant : Type := GOwner | GAdmin | GMember | GGuest.
Inductive ProjectGrant : Type := PgAdmin | PgWrite | PgRead.

Record TenantGrantCheckInput : Type := mkTenantGrantCheck {
  tg_subject : AuthorizationSubject;
  tg_tenantId : string;
  tg_grant : TenantGrant;
}.

Record ProjectGrantCheckInput : Type := mkProjectGrantCheck {
  pg_subject : AuthorizationSubject;
  pg_tenantId : string;
  pg_projectId : string;
  pg_grant : ProjectGrant;
}.

Record AuthorizationPort : Type := mkAuthorizationPort {
  can : AuthorizationSubject → AuthorizationAction → AuthorizationResource → Result AuthorizationDecision;
  hasTenantGrant : TenantGrantCheckInput → Result AuthorizationDecision;
  hasProjectGrant : ProjectGrantCheckInput → Result AuthorizationDecision;
}.

(** ** Role-key ports

    The ports of Runtime Control and of project management differ in the
    resources and actions they support and in the reason of a missing role. *)

(** [list.includes(key)], [set.has(key)] *)
Definition includes_key (key : string) (keys : list string) : bool := existsb (String.eqb key) keys.

Definition runtimeControlRoles : list string := ["owner"; "admin"; "member"].

Definition roleAllows (required : TenantGrant) (roleKeys : list string) : bool :=
  match required with
  | GGuest => includes_key "guest" roleKeys
  | GMember => existsb (λ roleKey, includes_key roleKey runtimeControlRoles) roleKeys
  | GAdmin => includes_key "owner" roleKeys || includes_key "admin" roleKeys
  | GOwner => includes_key "owner" roleKeys
  end.

Definition decision (allowed : bool) (reason : option string) : Result AuthorizationDecision :=
  ok (mkDecision allowed reason).

Definition roleDecision (allowed : bool) (reason : string) : Result AuthorizationDecision :=
  if allowed then decision true None else decision false (Some reason).

(** [field !== undefined && !test(field)] *)
Definition mismatch (field : option string) (test : string → bool) : bool :=
  match field with Some value => negb (test value) | None => false end.

Definition role_key_can (supported_resource : ResourceType → bool) (supported_action : AuthorizationAction → bool)
    (missing_role : string) (subject : AuthorizationSubject) (action : AuthorizationAction)
    (resource : AuthorizationResource) : Result AuthorizationDecision :=
  if negb (supported_resource (rs_type resource)) then decision false (Some "unsupported-resource")
  else if negb (String.eqb (rs_tenantId resource) (sb_tenantId subject)) then
    decision false (Some "tenant-mismatch")
  else if mismatch (rs_orgId resource) (String.eqb (sb_orgId subject)) then
    decision false (Some "organization-mismatch")
  else if mismatch (rs_workspaceId resource) (λ w, includes_key w (sb_workspaceIds subject)) then
    decision false (Some "workspace-mismatch")
  else if negb (supported_action action) then decision false (Some "unsupported-action")
  else roleDecision (roleAllows GMember (default [] (sb_roleKeys subject))) missing_role.

Definition role_key_tenant_grant (input : TenantGrantCheckInput) : Result AuthorizationDecision :=
  if negb (String.eqb (tg_tenantId input) (sb_tenantId (tg_subject input))) then
    decision false (Some "tenant-mismatch")
  else roleDecision (roleAllows (tg_grant input) (default [] (sb_roleKeys (tg_subject input))))
         "missing-tenant-grant".

Definition role_key_project_grant (input : ProjectGrantCheckInput) : Result AuthorizationDecision :=
  if negb (String.eqb (pg_tenantId input) (sb_tenantId (pg_subject input))) then
    decision false (Some "tenant-mismatch")
  else roleDecision (roleAllows GMember (default [] (sb_roleKeys (pg_subject input))))
         "missing-project-grant".

Module RoleKeyRuntimeControlAuthorizationPort.

Definition supported_resource (type : ResourceType) : bool :=
  match type with ResAgent | ResWorkspace => true | _ => false end.
Definition supported_action (action : AuthorizationAction) : bool :=
  match action with ActRead | ActCreate | ActUpdate | ActExecute => true | _ => false end.

Definition can := role_key_can supported_resource supported_action "missing-runtime-control-role".
Definition port : AuthorizationPort := mkAuthorizationPort can role_key_tenant_grant role_key_project_grant.

End RoleKeyRuntimeControlAuthorizationPort.

Module RoleKeyTaskAuthorizationPort.

Definition supported_resource (type : ResourceType) : bool :=
  match type with ResTask | ResWorkspace => true | _ => false end.
Definition supported_action (action : AuthorizationAction) : bool :=
  match action with ActRead | ActCreate | ActUpdate | ActDelete => true | _ => false end.

Definition can := role_key_can supported_resource supported_action "missing-task-role".
Definition port : AuthorizationPort := mkAuthorizationPort can role_key_tenant_grant role_key_project_grant.

End RoleKeyTaskAuthorizationPort.

(** ** Laws *)

Lemma includes_key_true key keys : includes_key key keys = true ↔ key ∈ keys.
Proof.
  unfold includes_key. rewrite existsb_exists. setoid_rewrite String.eqb_eq.
  setoid_rewrite <-list_elem_of_In. split; [by intros (? & ? & ->)|by exists key].
Qed.

Lemma roleAllows_member roleKeys :
  roleAllows GMember roleKeys = true ↔ "owner" ∈ roleKeys ∨ "admin" ∈ roleKeys ∨ "member" ∈ roleKeys.
Proof.
  unfold roleAllows, runtimeControlRoles. rewrite existsb_exists. setoid_rewrite includes_key_true.
  setoid_rewrite <-list_elem_of_In. setoid_rewrite elem_of_cons. setoid_rewrite elem_of_cons.
  setoid_rewrite list_elem_of_singleton. naive_solver.
Qed.

(** The subject belongs where the resource is. *)
Definition subject_within (subject : AuthorizationSubject) (resource : AuthorizationResource) : Prop :=
  rs_tenantId resource = sb_tenantId subject ∧
  (∀ org, rs_orgId resource = Some org → org = sb_orgId subject) ∧
  (∀ workspace, rs_workspaceId resource = Some workspace → workspace ∈ sb_workspaceIds subject).

Lemma mismatch_false field test :
  mismatch field test = false ↔ ∀ value, field = Some value → test value = true.
Proof.
  unfold mismatch. destruct field as [v|]; [|by split].
  rewrite negb_false_iff. split; [by intros ? ? [= <-]|by auto].
Qed.

Lemma role_key_can_allowed resources actions reason subject action resource :
  role_key_can resources actions reason subject action resource = decision true None ↔
  resources (rs_type resource) = true ∧ actions action = true ∧ subject_within subject resource ∧
  roleAllows GMember (default [] (sb_roleKeys subject)) = true.
Proof.
  unfold role_key_can, roleDecision, decision, subject_within.
  destruct (resources _) eqn:Hr; simpl; [|by naive_solver].
  destruct (String.eqb_spec (rs_tenantId resource) (sb_tenantId subject)); simpl; [|by naive_solver].
  destruct (mismatch (rs_orgId resource) _) eqn:Ho; simpl.
  { split; [done|]. intros (_ & _ & (_ & Horg & _) & _). rewrite <-not_false_iff_true in Ho. destruct Ho.
    apply mismatch_false. intros v ->%Horg. apply String.eqb_refl. }
  destruct (mismatch (rs_workspaceId resource) _) eqn:Hw; simpl.
  { split; [done|]. intros (_ & _ & (_ & _ & Hws) & _). rewrite <-not_false_iff_true in Hw. destruct Hw.
    apply mismatch_false. intros v Hv. by apply includes_key_true, Hws. }
  rewrite mismatch_false in Ho, Hw. setoid_rewrite String.eqb_eq in Ho. setoid_rewrite includes_key_true in Hw.
  destruct (actions action); simpl; [|by naive_solver].
  destruct (existsb _ _); naive_solver.
Qed.

(** Every answer is a decision, and a denial has a reason. *)
Lemma role_key_can_decides resources actions reason subject action resource :
  ∃ d, role_key_can resources actions reason subject action resource = ok d ∧
    (dc_allowed d = true → d = mkDecision true None) ∧ (dc_allowed d = false → is_Some (dc_reason d)).
Proof.
  unfold role_key_can, roleDecision, decision.
  repeat case_match; eexists; split_and!; simpl; naive_solver.
Qed.

Definition defaultRuntimeControlAuthorizationPort : AuthorizationPort :=
  RoleKeyRuntimeControlAuthorizationPort.port.
Definition defaultTaskAuthorizationPort : AuthorizationPort := RoleKeyTaskAuthorizationPort.port.

(** ** The contract *)

Record AuthorizationContractCase : Type := mkContractCase {
  ac_name : string;
  ac_subject : AuthorizationSubject;
  ac_action : AuthorizationAction;
  ac_resource : AuthorizationResource;
  ac_expected : AuthorizationDecision;
}.

Module AuthorizationContract.

Definition tenantId : string := "authz-contract-tenant".
Definition otherTenantId : string := "authz-contract-other-tenant".
Definition orgId : string := "authz-contract-org".
Definition otherOrgId : string := "authz-contract-other-org".
Definition workspaceId : string := "authz-contract-workspace".
Definition otherWorkspaceId : string := "authz-contract-other-workspace".
Definition projectId : string := "authz-contract-project".

Definition subject (roleKeys : list string) : AuthorizationSubject :=
  let joined := join "-" roleKeys in
  mkSubject ("authz-contract-" +:+ (if String.eqb joined "" then "none" else joined) +:+ "-user")
    tenantId orgId [workspaceId] (Some roleKeys).

(** [workspaceResource()]; its overrides are written as updates of one field. *)
Definition workspaceResource : AuthorizationResource :=
  mkResource ResWorkspace tenantId (Some orgId) (Some workspaceId) (Some projectId) None.

Definition allowed : AuthorizationDecision := mkDecision true None.
Definition denied : AuthorizationDecision := mkDecision false None.

Definition authorizationContractCases : list AuthorizationContractCase := [
  mkContractCase "owner can update a workspace in their tenant and workspace set"
    (subject ["owner"]) ActUpdate workspaceResource allowed;
  mkContractCase "member can read a workspace in their tenant and workspace set"
    (subject ["member"]) ActRead workspaceResource allowed;
  mkContractCase "guest cannot create in a workspace"
    (subject ["guest"]) ActCreate workspaceResource denied;
  mkContractCase "owner cannot act across workspaces" (subject ["owner"]) ActRead
    (mkResource ResWorkspace tenantId (Some orgId) (Some otherWorkspaceId) (Some projectId) None) denied;
  mkContractCase "owner cannot act across tenants" (subject ["owner"]) ActRead
    (mkResource ResWorkspace otherTenantId (Some orgId) (Some workspaceId) (Some projectId) None) denied;
  mkContractCase "owner cannot act across organizations" (subject ["owner"]) ActRead
    (mkResource ResWorkspace tenantId (Some otherOrgId) (Some workspaceId) (Some projectId) None) denied;
  mkContractCase "owner cannot use an unsupported shared action"
    (subject ["owner"]) ActApprove workspaceResource denied;
  mkContractCase "owner cannot use an unsupported shared resource" (subject ["owner"]) ActRead
    (mkResource ResTenant tenantId (Some orgId) (Some workspaceId) (Some projectId) None) denied
].

(** The name of the first case the port fails, by an error or by another answer:
    the assertion error [assertAuthorizationPortContract] throws. *)
Definition case_holds (port : AuthorizationPort) (c : AuthorizationContractCase) : bool :=
  match can port (ac_subject c) (ac_action c) (ac_resource c) with
  | ok decision => Bool.eqb (dc_allowed decision) (dc_allowed (ac_expected c))
  | err _ => false
  end.

Definition assertAuthorizationPortContract (port : AuthorizationPort) : option string :=
  ac_name <$> find (λ c, negb (case_holds port c)) authorizationContractCases.

End AuthorizationContract.
