(* ===== verification/RuntimeSql.v ===== *)
(** * Runtime Control: the SQL boundary
    ([packages/runtime-control/src/application/assistant-conversation-lifecycle.ts],
    its rows and statements)

    The statements the application layer sends, the rows it reads back and their
    decoding.  The database is a parameter: [RuntimeDriver] answers a statement. *)
From S2P Require Import Prelude JsString JsValue SharedKernel Effects DevBoardDomain JsText RuntimeDomain.
From S2P Require Import TenantContext.

(** ** Rows *)

(** A column value: a [Date] object or any other JavaScript value. *)
Inductive cell : Type :=
| CDate (time : Z)
| CVal (value : jsval).

Definition QueryRow : Type := list (string * cell).

(** [row[key]] *)
Fixpoint column (key : string) (row : QueryRow) : cell :=
  match row with
  | [] => CVal JUndefined
  | (k, c) :: row => if String.eqb key k then c else column key row
  end.

(** The answer of [tx.execute]: an array of rows, an object with an array of rows,
    or anything else. *)
Inductive execute_result : Type :=
| RowArray (rows : list QueryRow)
| RowsProperty (rows : list QueryRow)
| NoRows.

Definition rowsFromExecuteResult (result : execute_result) : list QueryRow :=
  match result with
  | RowArray rows | RowsProperty rows => rows
  | NoRows => []
  end.

(** ** Statements *)

(** One constructor per SQL statement of the application layer, and then of the
    PostgreSQL adapter of the store port where its text differs, with the values
    bound into it; a JSON column is bound as its text. *)
Inductive statement : Type :=
| InsertConversation (org workspace surface assistantKey user : string)
| SelectConversation (id org workspace : string)
| InsertUserTurn (conversation org workspace user contentText key : string)
| InsertAssistantTurn (conversation org workspace assistantKey contentText key : string)
    (session run : option string)
| SelectTurnByKey (org conversation key : string)
| SelectTurn (id org workspace : string) (lock : bool)
| StreamTurn (id org workspace contentText : string)
| ClaimTurn (id org workspace : string)
| FinalizeTurn (id org workspace contentText : string) (session run : option string)
| FailTurn (id org workspace contentText : string)
| InsertOutcome (org workspace turn toolName callId key requestText : string) (target : option string)
| SelectOutcomeByCall (turn callId : string)
| SelectOutcomeForUpdate (turn callId org workspace : string)
| FinishOutcome (id : string) (status : FinishStatus) (resultText : string) (target : option string)
| SelectOpenConversation (org workspace surface assistantKey user : string)
| SelectTurns (org workspace conversation : string)
| InsertTurn (conversation org workspace : string) (role : TurnRole) (status : TurnStatus)
    (user assistantKey : option string) (contentText key : string) (session run : option string)
    (finalized : bool)
| SelectTurnByKeyInScope (org workspace conversation key : string)
| SelectOutcomeInScope (turn callId org workspace : string)
| FinishOutcomeInScope (id org workspace : string) (status : FinishStatus) (resultText : string)
    (target : option string)
| SelectTaskRuns (org workspace taskId : string).

(** The driver over a database state, and what the decoding needs of the host:
    the text of a [Date] and [Date.parse]. *)
Class RuntimeDriver (S : Type) := {
  execute_sql : statement → M S execute_result;
}.

Class NodeDates := {
  date_text : Z → string;                  (* [String(date)] *)
  date_parse : string → option Z;          (* [new Date(text).getTime()], [None] for NaN *)
}.

Section rows.
Context {S : Type} `{NodeDates} `{OpaqueTexts}.

Definition runtimeError (code message : string) : DomainError := domain_error code message.

(** The value of a [make...Id] call, which throws on a malformed identifier. *)
Definition made (r : string + DomainError) : M S string :=
  match r with inl v => mret v | inr e => throw (ExnDomain e) end.

(** A parse whose error is thrown. *)
Definition or_throw {A} (r : Result A) : M S A :=
  match r with ok a => mret a | err e => throw (ExnDomain e) end.

(** [String(cell)] *)
Definition cell_text (c : cell) : string :=
  match c with CDate t => date_text t | CVal v => js_to_string v end.

(** The value an enum parser sees: a [Date] is not a string. *)
Definition cell_value (c : cell) : jsval :=
  match c with CDate _ => JOther "date" | CVal v => v end.

Definition parseDate (c : cell) : M S Z :=
  let invalid := throw (ExnDomain (runtimeError "runtimeControl.invalidTimestamp"
                   "Runtime-Control record contains an invalid timestamp.")) in
  match c with
  | CDate t => mret t
  | CVal (JStr text) => match date_parse text with Some t => mret t | None => invalid end
  | CVal _ => invalid
  end.

Definition stringOrNull (c : cell) : option string :=
  match c with
  | CVal (JStr s) => if String.eqb (trim s) "" then None else Some s
  | _ => None
  end.

(** A [Date] is an object without enumerable properties. *)
Definition jsonRecord (c : cell) : jsobj :=
  match c with CVal (JObj o) => o | _ => [] end.

(** [cell === null || cell === undefined] *)
Definition absent (c : cell) : bool :=
  match c with CVal (JNull | JUndefined) => true | _ => false end.

Definition optional_date (c : cell) : M S (option Z) :=
  if absent c then mret None else t ← parseDate c; mret (Some t).

Definition rowToConversation (row : QueryRow) : M S AssistantConversation :=
  status ← or_throw (parseAssistantConversationStatus (cell_value (column "status" row)));
  organizationId ← made (Ids.makeOrgId (cell_text (column "organization_id" row)));
  workspaceId ← made (Ids.makeWorkspaceId (cell_text (column "workspace_id" row)));
  createdByUserId ← made (Ids.makeUserId (cell_text (column "created_by_user_id" row)));
  createdAt ← parseDate (column "created_at" row);
  updatedAt ← parseDate (column "updated_at" row);
  mret (mkConversation (cell_text (column "id" row)) organizationId workspaceId
    (cell_text (column "surface" row)) (cell_text (column "assistant_key" row)) status createdByUserId
    createdAt updatedAt).

Definition rowToTurn (row : QueryRow) : M S AssistantTurn :=
  role ← or_throw (parseAssistantTurnRole (cell_value (column "role" row)));
  status ← or_throw (parseAssistantTurnStatus (cell_value (column "status" row)));
  organizationId ← made (Ids.makeOrgId (cell_text (column "organization_id" row)));
  workspaceId ← made (Ids.makeWorkspaceId (cell_text (column "workspace_id" row)));
  actorUserId ← (if absent (column "actor_user_id" row) then mret None
                 else id ← made (Ids.makeUserId (cell_text (column "actor_user_id" row))); mret (Some id));
  createdAt ← parseDate (column "created_at" row);
  updatedAt ← parseDate (column "updated_at" row);
  finalizedAt ← optional_date (column "finalized_at" row);
  mret (mkTurn (cell_text (column "id" row)) (cell_text (column "conversation_id" row)) organizationId
    workspaceId role status actorUserId (stringOrNull (column "assistant_key" row))
    (jsonRecord (column "content" row)) (cell_text (column "idempotency_key" row))
    (stringOrNull (column "openclaw_session_ref" row)) (stringOrNull (column "openclaw_run_ref" row))
    createdAt updatedAt finalizedAt).

Definition rowToToolOutcome (row : QueryRow) : M S AssistantToolOutcome :=
  status ← or_throw (parseAssistantToolOutcomeStatus (cell_value (column "status" row)));
  organizationId ← made (Ids.makeOrgId (cell_text (column "organization_id" row)));
  workspaceId ← made (Ids.makeWorkspaceId (cell_text (column "workspace_id" row)));
  createdAt ← parseDate (column "created_at" row);
  updatedAt ← parseDate (column "updated_at" row);
  completedAt ← optional_date (column "completed_at" row);
  mret (mkOutcome (cell_text (column "id" row)) organizationId workspaceId
    (cell_text (column "turn_id" row)) (cell_text (column "tool_name" row))
    (cell_text (column "tool_call_id" row)) (cell_text (column "idempotency_key" row)) status
    (jsonRecord (column "request_summary" row)) (jsonRecord (column "result_summary" row))
    (stringOrNull (column "target_ref" row)) createdAt updatedAt completedAt).

(** [JSON.stringify(record)] *)
Definition stringify (o : jsobj) : M S string :=
  match jsonStringify (JObj o) with
  | Some text => mret (default "" text)
  | None => throw (ExnType "Do not know how to serialize a BigInt")
  end.

(** [stableJson], which throws on a bigint, and the comparison of two records. *)
Definition stable (o : jsobj) : M S string :=
  match stableJson (JObj o) with
  | Some text => mret text
  | None => throw (ExnType "Do not know how to serialize a BigInt")
  end.

Definition sameJson (left right : jsobj) : M S bool :=
  l ← stable left; r ← stable right; mret (String.eqb l r).

End rows.

(** ** Transactions *)

Section transactions.
Context {S : Type} `{TenantDatabase}.

(** [withTenant(orgId, fn)] on the database: the transaction the driver runs it in
    is rolled back when an error leaves it. *)
Definition inTransaction {A} (orgId : string) (fn : M S A) : M S A := λ s,
  match withTenant orgId fn s with
  | (Thrown e, _) => (Thrown e, s)
  | returned => returned
  end.

(** The [try]/[catch] around every transaction of the layer: the error it answers
    carries the mapped database error as its cause, which is only logged. *)
Definition attempt {A} (orgId code message : string) (fn : M S (Result A)) : M S (Result A) :=
  try_catch (inTransaction orgId fn) (λ _, mret (err (runtimeError code message))).

(** Whatever the body does, an attempt answers; when it answers an error of its
    own, the database is as it was. *)
Lemma attempt_returns {A} orgId code message (fn : M S (Result A)) s :
  ∃ r s', attempt orgId code message fn s = (Returned r, s') ∧
    ((r = err (runtimeError code message) ∧ s' = s) ∨ fn s = (Returned r, s')).
Proof.
  unfold attempt, try_catch, inTransaction.
  destruct (withTenant orgId fn s) as [[r|e] s'] eqn:Hw.
  - exists r, s'. split; [done|]. right. by apply withTenant_returned in Hw as [Hw _].
  - exists (err (runtimeError code message)), s. split; [done|]. by left.
Qed.

End transactions.
