(* ===== verification/RuntimeLifecycle.v ===== *)
(** * Runtime Control: conversations and turns in the database
    ([packages/runtime-control/src/application/assistant-conversation-lifecycle.ts])

    Every operation validates its context, asks the authorization port, and runs
    its statements in one transaction of the tenant. *)
From S2P Require Import Prelude JsString JsValue SharedKernel Effects DevBoardDomain JsText RuntimeDomain.
From S2P Require Import TenantContext RuntimeSql Authorization.
From S2P Require RuntimeStore.

(** ** Contexts and inputs *)

Record RuntimeControlActor : Type := mkActor { ra_userId : string; ra_roleKeys : list string }.

Record RuntimeControlApplicationContext : Type := mkContext {
  cx_orgId : string;
  cx_workspaceId : string;
  cx_actor : RuntimeControlActor;
}.

Record SessionDerivedPrincipal : Type := mkPrincipal {
  sp_context : RuntimeControlApplicationContext;
  sp_sessionId : string;
}.

Record ToolExecutionContext : Type := mkToolContext {
  tx_context : RuntimeControlApplicationContext;
  tx_sessionId : string;
  tx_conversationId : string;
  tx_assistantTurnId : string;
  tx_commandIdempotencyKey : string;
}.

Record ToolExecutionContextInput : Type := mkToolContextInput {
  ti_principal : SessionDerivedPrincipal;
  ti_conversationId : string;
  ti_assistantTurnId : string;
  ti_commandIdempotencyKey : string;
}.

(** [RuntimeControlDependencies]: the authorization port, when one is given. *)
Definition RuntimeControlDependencies : Type := option AuthorizationPort.

Record CreateConversationInput : Type := mkCreate {
  ci_context : RuntimeControlApplicationContext;
  ci_surface : string;
  ci_assistantKey : string;
}.

Record AppendUserTurnInput : Type := mkUserTurn {
  ui_context : RuntimeControlApplicationContext;
  ui_conversationId : string;
  ui_idempotencyKey : string;
  ui_content : jsobj;
}.

Record StartAssistantTurnInput : Type := mkStartTurn {
  ai_context : RuntimeControlApplicationContext;
  ai_conversationId : string;
  ai_idempotencyKey : string;
  ai_assistantKey : string;
  ai_content : option jsobj;
  ai_openclawSessionRef : option string;
  ai_openclawRunRef : option string;
}.

Record AppendAssistantDeltaInput : Type := mkAppendDelta {
  di_context : RuntimeControlApplicationContext;
  di_turnId : string;
  di_deltaText : string;
}.

Record FinalizeAssistantTurnInput : Type := mkFinalizeInput {
  zi_context : RuntimeControlApplicationContext;
  zi_turnId : string;
  zi_content : jsobj;
  zi_openclawSessionRef : option string;
  zi_openclawRunRef : option string;
}.

Record FailAssistantTurnInput : Type := mkFailInput {
  xi_context : RuntimeControlApplicationContext;
  xi_turnId : string;
  xi_errorCode : string;
  xi_errorMessage : string;
}.

Section lifecycle.
Context {S : Type} `{RuntimeDriver S} `{TenantDatabase} `{NodeDates} `{OpaqueTexts}.

(** ** Validation and authorization *)

Definition invalidContext : DomainError :=
  runtimeError "runtimeControl.invalidContext"
    "Runtime-Control context contains an invalid organization, workspace, or actor id.".

Definition assertKnownContext (input : RuntimeControlApplicationContext) : M S (Result unit) :=
  try_catch
    (_ ← made (Ids.makeTenantId (cx_orgId input));
     _ ← made (Ids.makeOrgId (cx_orgId input));
     _ ← made (Ids.makeWorkspaceId (cx_workspaceId input));
     _ ← made (Ids.makeUserId (ra_userId (cx_actor input)));
     mret (ok tt))
    (λ _, mret (err invalidContext)).

Definition authorizationSubject (input : RuntimeControlApplicationContext) : M S AuthorizationSubject :=
  userId ← made (Ids.makeUserId (ra_userId (cx_actor input)));
  tenantId ← made (Ids.makeTenantId (cx_orgId input));
  orgId ← made (Ids.makeOrgId (cx_orgId input));
  workspaceId ← made (Ids.makeWorkspaceId (cx_workspaceId input));
  mret (mkSubject userId tenantId orgId [workspaceId] (Some (ra_roleKeys (cx_actor input)))).

Definition forbidden : DomainError :=
  runtimeError "runtimeControl.forbidden" "You are not allowed to use Runtime-Control.".

Definition authorizeRuntimeControl (input : RuntimeControlApplicationContext) (action : AuthorizationAction)
    (authorizationPort : AuthorizationPort) : M S (Result unit) :=
  subject ← authorizationSubject input;
  tenantId ← made (Ids.makeTenantId (cx_orgId input));
  orgId ← made (Ids.makeOrgId (cx_orgId input));
  workspaceId ← made (Ids.makeWorkspaceId (cx_workspaceId input));
  mret match can authorizationPort subject action
               (mkResource ResAgent tenantId (Some orgId) (Some workspaceId) None None) with
       | err e => err e
       | ok decision => if dc_allowed decision then ok tt else err forbidden
       end.

Definition validateCommonInput (input : RuntimeControlApplicationContext)
    (dependencies : RuntimeControlDependencies) (action : AuthorizationAction) : M S (Result unit) :=
  knownContext ← assertKnownContext input;
  match knownContext with
  | err e => mret (err e)
  | ok _ =>
      authorizeRuntimeControl input action (default defaultRuntimeControlAuthorizationPort dependencies)
  end.

(** ** Lookups *)

(** The first row of a statement's answer. *)
Definition first_row (q : statement) : M S (option QueryRow) :=
  result ← execute_sql q; mret (head (rowsFromExecuteResult result)).

Definition conversationNotFound : DomainError :=
  runtimeError "runtimeControl.conversationNotFound" "Assistant conversation was not found.".
Definition turnNotFound : DomainError :=
  runtimeError "runtimeControl.turnNotFound" "Assistant turn was not found.".
Definition invalidTurnTransition (message : string) : DomainError :=
  runtimeError "runtimeControl.invalidTurnTransition" message.

Definition loadConversationInScope (cx : RuntimeControlApplicationContext) (conversationId : string)
    : M S (Result AssistantConversation) :=
  row ← first_row (SelectConversation conversationId (cx_orgId cx) (cx_workspaceId cx));
  match row with
  | None => mret (err conversationNotFound)
  | Some row => c ← rowToConversation row; mret (ok c)
  end.

Definition selectTurnInScope (cx : RuntimeControlApplicationContext) (turnId : string) (lock : bool)
    : M S (Result AssistantTurn) :=
  row ← first_row (SelectTurn turnId (cx_orgId cx) (cx_workspaceId cx) lock);
  match row with
  | None => mret (err turnNotFound)
  | Some row => t ← rowToTurn row; mret (ok t)
  end.

(** ** Replays *)

(** [expected.actorUserId === undefined || ...]: [None] is [undefined]. *)
Definition matches_field (expected : option (option string)) (existing : option string) : bool :=
  match expected with None => true | Some field => bool_decide (existing = field) end.

Definition idempotencyConflict : DomainError :=
  runtimeError "runtimeControl.idempotencyConflict"
    "Idempotency key was reused with a different assistant turn payload.".

Definition validateIdempotentTurnReplay (existing : AssistantTurn) (role : TurnRole)
    (actorUserId assistantKey : option (option string)) (content : jsobj) : M S (Result AssistantTurn) :=
  if negb (bool_decide (tn_role existing = role)) || negb (matches_field actorUserId (tn_actorUserId existing))
     || negb (matches_field assistantKey (tn_assistantKey existing))
  then mret (err idempotencyConflict)
  else
    same ← sameJson (tn_content existing) content;
    mret (if same : bool then ok existing else err idempotencyConflict).

Definition toolOutcomeConflict (message : string) : DomainError :=
  runtimeError "runtimeControl.toolOutcomeConflict" message.

Definition validateToolOutcomeReplay (existing : AssistantToolOutcome) (toolName idempotencyKey : string)
    (requestSummary : jsobj) (targetRef : option (option string)) : M S (Result AssistantToolOutcome) :=
  let conflict := toolOutcomeConflict "Tool call id was reused with a different payload." in
  if negb (String.eqb (oc_toolName existing) toolName)
     || negb (String.eqb (oc_idempotencyKey existing) idempotencyKey)
     || negb (matches_field targetRef (oc_targetRef existing))
  then mret (err conflict)
  else
    same ← sameJson (oc_requestSummary existing) requestSummary;
    mret (if same : bool then ok existing else err conflict).

(** ** The execution context of tools *)

Definition toolExecutionContextFromSessionPrincipal (input : ToolExecutionContextInput)
    : M S (Result ToolExecutionContext) :=
  knownContext ← assertKnownContext (sp_context (ti_principal input));
  match knownContext with
  | err e => mret (err e)
  | ok _ =>
    mret match normalizeRuntimeKey (ti_conversationId input) "conversationId" with
    | err e => err e
    | ok conversationId =>
      match normalizeRuntimeKey (ti_assistantTurnId input) "assistantTurnId" with
      | err e => err e
      | ok assistantTurnId =>
        match normalizeRuntimeKey (ti_commandIdempotencyKey input) "commandIdempotencyKey" with
        | err e => err e
        | ok idempotencyKey =>
            ok (mkToolContext (sp_context (ti_principal input)) (sp_sessionId (ti_principal input))
                  conversationId assistantTurnId idempotencyKey)
        end
      end
    end
  end.

(** ** Operations *)

(** [const authorized = await validateCommonInput(...); if (!authorized.ok) ...] *)
Definition authorized {A} (cx : RuntimeControlApplicationContext) (dependencies : RuntimeControlDependencies)
    (action : AuthorizationAction) (body : M S (Result A)) : M S (Result A) :=
  authorized ← validateCommonInput cx dependencies action;
  match authorized with err e => mret (err e) | ok _ => body end.

Definition createConversation (input : CreateConversationInput) (dependencies : RuntimeControlDependencies)
    : M S (Result AssistantConversation) :=
  let cx := ci_context input in
  authorized cx dependencies ActCreate
  match normalizeRuntimeKey (ci_surface input) "surface",
        normalizeRuntimeKey (ci_assistantKey input) "assistantKey" with
  | err e, _ => mret (err e)
  | ok _, err e => mret (err e)
  | ok surface, ok assistantKey =>
      let failed := runtimeError "runtimeControl.conversationCreateFailed"
                      "Assistant conversation could not be created." in
      attempt (cx_orgId cx) "runtimeControl.conversationCreateFailed"
        "Assistant conversation could not be created."
        (row ← first_row (InsertConversation (cx_orgId cx) (cx_workspaceId cx) surface assistantKey
                            (ra_userId (cx_actor cx)));
         match row with
         | None => mret (err failed)
         | Some row => c ← rowToConversation row; mret (ok c)
         end)
  end.

(** The transaction of [appendUserTurn] and [startAssistantTurn]: the conversation
    is looked up, the turn inserted unless its key is present, and a present turn
    is replayed. *)
Definition insert_or_replay (cx : RuntimeControlApplicationContext) (conversationId key : string)
    (insertion : M S statement) (replay : AssistantTurn → M S (Result AssistantTurn))
    : M S (Result AssistantTurn) :=
  conversation ← loadConversationInScope cx conversationId;
  match conversation with
  | err e => mret (err e)
  | ok _ =>
      insertion ← insertion;
      inserted ← first_row insertion;
      match inserted with
      | Some row => t ← rowToTurn row; mret (ok t)
      | None =>
          existing ← first_row (SelectTurnByKey (cx_orgId cx) conversationId key);
          match existing with
          | None => mret (err turnNotFound)
          | Some row => t ← rowToTurn row; replay t
          end
      end
  end.

Definition appendUserTurn (input : AppendUserTurnInput) (dependencies : RuntimeControlDependencies)
    : M S (Result AssistantTurn) :=
  let cx := ui_context input in
  authorized cx dependencies ActCreate
  match normalizeRuntimeKey (ui_idempotencyKey input) "idempotencyKey" with
  | err e => mret (err e)
  | ok key =>
      attempt (cx_orgId cx) "runtimeControl.userTurnAppendFailed" "User turn could not be appended."
        (insert_or_replay cx (ui_conversationId input) key
           (text ← stringify (ui_content input);
            mret (InsertUserTurn (ui_conversationId input) (cx_orgId cx) (cx_workspaceId cx)
                    (ra_userId (cx_actor cx)) text key))
           (λ existing, validateIdempotentTurnReplay existing RUser
              (Some (Some (ra_userId (cx_actor cx)))) None (ui_content input)))
  end.

Definition startAssistantTurn (input : StartAssistantTurnInput) (dependencies : RuntimeControlDependencies)
    : M S (Result AssistantTurn) :=
  let cx := ai_context input in
  authorized cx dependencies ActExecute
  match normalizeRuntimeKey (ai_idempotencyKey input) "idempotencyKey",
        normalizeRuntimeKey (ai_assistantKey input) "assistantKey" with
  | err e, _ => mret (err e)
  | ok _, err e => mret (err e)
  | ok key, ok assistantKey =>
      let content := default [] (ai_content input) in
      attempt (cx_orgId cx) "runtimeControl.assistantTurnStartFailed" "Assistant turn could not be started."
        (insert_or_replay cx (ai_conversationId input) key
           (text ← stringify content;
            mret (InsertAssistantTurn (ai_conversationId input) (cx_orgId cx) (cx_workspaceId cx)
                    assistantKey text key (ai_openclawSessionRef input) (ai_openclawRunRef input)))
           (λ existing, validateIdempotentTurnReplay existing RAssistant None (Some (Some assistantKey)) content))
  end.

Definition appendAssistantDelta (input : AppendAssistantDeltaInput) (dependencies : RuntimeControlDependencies)
    : M S (Result AssistantTurn) :=
  let cx := di_context input in
  authorized cx dependencies ActUpdate
  (attempt (cx_orgId cx) "runtimeControl.assistantDeltaAppendFailed" "Assistant delta could not be appended."
     (current ← selectTurnInScope cx (di_turnId input) true;
      match current with
      | err e => mret (err e)
      | ok current =>
          if negb (bool_decide (tn_role current = RAssistant))
             || negb (canAppendAssistantDelta (tn_status current))
          then mret (err (invalidTurnTransition
                 "Assistant delta cannot be appended in the current turn state."))
          else
            text ← stringify (RuntimeStore.InMemoryRuntimeConversationStore.contentWithDelta
                               (tn_content current) (di_deltaText input));
            row ← first_row (StreamTurn (di_turnId input) (cx_orgId cx) (cx_workspaceId cx) text);
            match row with
            | None => mret (err (invalidTurnTransition
                        "Assistant delta could not be appended in the current turn state."))
            | Some row => t ← rowToTurn row; mret (ok t)
            end
      end)).

Definition finalizeAssistantTurn (input : FinalizeAssistantTurnInput) (dependencies : RuntimeControlDependencies)
    : M S (Result AssistantTurn) :=
  let cx := zi_context input in
  authorized cx dependencies ActUpdate
  (attempt (cx_orgId cx) "runtimeControl.assistantTurnFinalizeFailed" "Assistant turn could not be finalized."
     (claimed ← first_row (ClaimTurn (zi_turnId input) (cx_orgId cx) (cx_workspaceId cx));
      match claimed with
      | None =>
          existing ← selectTurnInScope cx (zi_turnId input) false;
          mret match existing with
               | err e => err e
               | ok t =>
                   if bool_decide (tn_role t = RAssistant) && bool_decide (tn_status t = TFinal) then ok t
                   else err (invalidTurnTransition "Assistant turn cannot be finalized in the current state.")
               end
      | Some _ =>
          text ← stringify (zi_content input);
          row ← first_row (FinalizeTurn (zi_turnId input) (cx_orgId cx) (cx_workspaceId cx) text
                             (zi_openclawSessionRef input) (zi_openclawRunRef input));
          match row with
          | None => mret (err (invalidTurnTransition
                      "Assistant turn finalization lost its single-writer claim."))
          | Some row => t ← rowToTurn row; mret (ok t)
          end
      end)).

Definition failAssistantTurn (input : FailAssistantTurnInput) (dependencies : RuntimeControlDependencies)
    : M S (Result AssistantTurn) :=
  let cx := xi_context input in
  authorized cx dependencies ActUpdate
  (attempt (cx_orgId cx) "runtimeControl.assistantTurnFailFailed" "Assistant turn could not be marked failed."
     (text ← stringify (RuntimeStore.InMemoryRuntimeConversationStore.failed_content
                         (xi_errorCode input) (xi_errorMessage input));
      row ← first_row (FailTurn (xi_turnId input) (cx_orgId cx) (cx_workspaceId cx) text);
      match row with
      | Some row => t ← rowToTurn row; mret (ok t)
      | None =>
          existing ← selectTurnInScope cx (xi_turnId input) false;
          mret match existing with
               | err e => err e
               | ok t =>
                   if bool_decide (tn_role t = RAssistant) && bool_decide (tn_status t = TFailed) then ok t
                   else err (invalidTurnTransition "Assistant turn cannot be failed in the current state.")
               end
      end)).

End lifecycle.
