(* ===== verification/RuntimeTables.v ===== *)
(** * Runtime Control: the tables

    The statements of the SQL boundary over tables, with the semantics their text
    has: a reference driver on which the application layer runs.  The tables are
    those of the in-memory store; [W] is the rest of the database, which the
    statements do not touch. *)
From S2P Require Import Prelude JsMap JsString JsValue SharedKernel Effects DevBoardDomain.
From S2P Require Import TenantContext JsText RuntimeDomain RuntimeStore RuntimeInvariant RuntimeSql.
From Stdlib Require Import Ascii.

Import InMemoryRuntimeConversationStore.

(** PostgreSQL's [text::jsonb] as the driver reads it back, and the text
    [column::text] of a jsonb column. *)
Class Jsonb := { jsonb : string → jsval; jsonb_text : jsobj → string }.

(** [text like pattern]: [%] stands for any text, [_] for any character, and a
    backslash takes the next character as it is. *)
Fixpoint sql_like (pattern text : string) : bool :=
  match pattern with
  | EmptyString => match text with EmptyString => true | _ => false end
  | String c pattern =>
      if Ascii.eqb c "%" then
        (fix any (text : string) : bool :=
          sql_like pattern text || match text with EmptyString => false | String _ text => any text end) text
      else
        match text with
        | EmptyString => false
        | String d text =>
            if Ascii.eqb c "\" then
              match pattern with
              | EmptyString => false
              | String e pattern => Ascii.eqb e d && sql_like pattern text
              end
            else (Ascii.eqb c "_" || Ascii.eqb c d) && sql_like pattern text
        end
  end.

(** [order by created_at asc, id asc]: a uuid is compared byte by byte. *)
Section row_order.
Context {A : Type} (created : A → Z) (id : A → string).

Definition row_le (a b : A) : Prop :=
  (created a < created b)%Z ∨ (created a = created b ∧ String.leb (id a) (id b) = true).

#[global] Instance row_le_dec : RelDecision row_le.
Proof. intros a b. unfold row_le. apply _. Defined.

Definition sort_rows : list A → list A := merge_sort row_le.
End row_order.

(** ** Rows *)

Definition text_cell (s : string) : cell := CVal (JStr s).
Definition null_text (s : option string) : cell := CVal (js_null s).
Definition null_date (d : option Z) : cell := match d with Some t => CDate t | None => CVal JNull end.

Definition conversation_row (c : AssistantConversation) : QueryRow := [
  ("id", text_cell (cv_id c)); ("organization_id", text_cell (cv_organizationId c));
  ("workspace_id", text_cell (cv_workspaceId c)); ("surface", text_cell (cv_surface c));
  ("assistant_key", text_cell (cv_assistantKey c)); ("status", text_cell (conversationStatus_str (cv_status c)));
  ("created_by_user_id", text_cell (cv_createdByUserId c)); ("created_at", CDate (cv_createdAt c));
  ("updated_at", CDate (cv_updatedAt c))].

Definition turn_row (t : AssistantTurn) : QueryRow := [
  ("id", text_cell (tn_id t)); ("conversation_id", text_cell (tn_conversationId t));
  ("organization_id", text_cell (tn_organizationId t)); ("workspace_id", text_cell (tn_workspaceId t));
  ("role", text_cell (turnRole_str (tn_role t))); ("status", text_cell (turnStatus_str (tn_status t)));
  ("actor_user_id", null_text (tn_actorUserId t)); ("assistant_key", null_text (tn_assistantKey t));
  ("content", CVal (JObj (tn_content t))); ("idempotency_key", text_cell (tn_idempotencyKey t));
  ("openclaw_session_ref", null_text (tn_openclawSessionRef t));
  ("openclaw_run_ref", null_text (tn_openclawRunRef t)); ("created_at", CDate (tn_createdAt t));
  ("updated_at", CDate (tn_updatedAt t)); ("finalized_at", null_date (tn_finalizedAt t))].

Definition outcome_row (o : AssistantToolOutcome) : QueryRow := [
  ("id", text_cell (oc_id o)); ("organization_id", text_cell (oc_organizationId o));
  ("workspace_id", text_cell (oc_workspaceId o)); ("turn_id", text_cell (oc_turnId o));
  ("tool_name", text_cell (oc_toolName o)); ("tool_call_id", text_cell (oc_toolCallId o));
  ("idempotency_key", text_cell (oc_idempotencyKey o)); ("status", text_cell (outcomeStatus_str (oc_status o)));
  ("request_summary", CVal (JObj (oc_requestSummary o))); ("result_summary", CVal (JObj (oc_resultSummary o)));
  ("target_ref", null_text (oc_targetRef o)); ("created_at", CDate (oc_createdAt o));
  ("updated_at", CDate (oc_updatedAt o)); ("completed_at", null_date (oc_completedAt o))].

(** ** What can be read back: identifiers the decoder accepts, texts it does not
    read as null *)

Definition id_ok (id : string) : Prop := Ids.opaqueIdPattern id = true.
Definition not_blank (text : option string) : Prop :=
  match text with Some s => String.eqb (trim s) "" = false | None => True end.

Record conversation_storable (c : AssistantConversation) : Prop := {
  cs_org : id_ok (cv_organizationId c);
  cs_workspace : id_ok (cv_workspaceId c);
  cs_user : id_ok (cv_createdByUserId c);
}.

Record turn_storable (t : AssistantTurn) : Prop := {
  ts_org : id_ok (tn_organizationId t);
  ts_workspace : id_ok (tn_workspaceId t);
  ts_actor : match tn_actorUserId t with Some id => id_ok id | None => True end;
  ts_assistant : not_blank (tn_assistantKey t);
  ts_session : not_blank (tn_openclawSessionRef t);
  ts_run : not_blank (tn_openclawRunRef t);
}.

Record outcome_storable (o : AssistantToolOutcome) : Prop := {
  os_org : id_ok (oc_organizationId o);
  os_workspace : id_ok (oc_workspaceId o);
  os_target : not_blank (oc_targetRef o);
}.

Section decoding.
Context {S : Type} `{NodeDates} `{OpaqueTexts}.

Lemma made_ok (make : string → string + DomainError) name id (s : S) :
  make = Ids.makeOpaqueId name → id_ok id → made (make id) s = (Returned id, s).
Proof.
  intros -> Hid. unfold Ids.makeOpaqueId, Ids.parseOpaqueId. unfold id_ok in Hid. by rewrite Hid.
Qed.

Lemma stringOrNull_text text : not_blank text → stringOrNull (null_text text) = text.
Proof. destruct text as [s|]; [|done]. simpl. by intros ->. Qed.

Lemma optional_date_null d (s : S) : optional_date (null_date d) s = (Returned d, s).
Proof. by destruct d. Qed.

(** Decoding of stored rows.  Every step of a decoder returns on such a row. *)
Ltac decode_ids :=
  repeat (erewrite made_ok; [|reflexivity|assumption]; cbn -[made optional_date]).

Lemma decode_conversation c (s : S) :
  conversation_storable c → rowToConversation (conversation_row c) s = (Returned c, s).
Proof.
  intros [Ho Hw Hu]. unfold rowToConversation, mbind, M_bind.
  destruct c as [? ? ? ? ? st ? ? ?]. destruct st; cbn -[made] in *; by decode_ids.
Qed.

Lemma decode_turn t (s : S) : turn_storable t → rowToTurn (turn_row t) s = (Returned t, s).
Proof.
  intros [Ho Hw Ha Hk Hs Hr]. unfold rowToTurn, mbind, M_bind.
  destruct t as [? ? ? ? role st actor ? ? ? ? ? ? ? fin]. cbn -[made stringOrNull null_text optional_date] in *.
  rewrite !stringOrNull_text by assumption.
  destruct role, st; cbn -[made optional_date]; decode_ids;
    (destruct actor; cbn -[made optional_date]; decode_ids); by rewrite optional_date_null.
Qed.

Lemma decode_outcome o (s : S) : outcome_storable o → rowToToolOutcome (outcome_row o) s = (Returned o, s).
Proof.
  intros [Ho Hw Ht]. unfold rowToToolOutcome, mbind, M_bind.
  destruct o as [? ? ? ? ? ? ? st ? ? ? ? ? fin]. cbn -[made stringOrNull null_text optional_date] in *.
  rewrite !stringOrNull_text by assumption.
  destruct st; cbn -[made optional_date]; decode_ids; by rewrite optional_date_null.
Qed.

End decoding.

(** ** The statements *)

Abbreviation database W := (store * W)%type.

Section driver.
Context {W : Type} `{NodeRuntime} `{Jsonb}.

Definition json_record (text : string) : jsobj := match jsonb text with JObj o => o | _ => [] end.

(** An answer of rows that leaves the tables as they are, and one that changes
    them. *)
Definition answer (rows : list QueryRow) : M (database W) execute_result := mret (RowArray rows).
Definition change_tables (f : store → store) (rows : list QueryRow) : M (database W) execute_result :=
  λ db, (Returned (RowArray rows), (f db.1, db.2)).

(** [now()]: one time for all statements of a transaction.  The clock advances with
    the last write of every transaction of the layer; the claim of a finalization,
    which is followed by another write, does not advance it. *)
Definition sql_now (s : store) : Z := (sequence s + 1)%Z.

Definition insert_turn_row (t : AssistantTurn) : M (database W) execute_result :=
  db ← get_state;
  match existing_turn (tn_organizationId t) (tn_conversationId t) (tn_idempotencyKey t) db.1 with
  | Some _ => answer []      (* on conflict do nothing *)
  | None => change_tables (λ s, set_turn t (draw (tick s))) [turn_row t]
  end.

(** [update ... where id = ... and ... and role = 'assistant' and status in (...)] *)
Definition update_turn_row (id org workspace : string) (statuses : list TurnStatus) (advance : store → store)
    (next : Z → AssistantTurn → AssistantTurn) : M (database W) execute_result :=
  db ← get_state;
  match jm_get id (turns db.1) with
  | Some t =>
      if tn_in (mkScope org workspace) t && bool_decide (tn_role t = RAssistant)
         && bool_decide (tn_status t ∈ statuses)
      then let t' := next (sql_now db.1) t in change_tables (λ s, set_turn t' (advance s)) [turn_row t']
      else answer []
  | None => answer []
  end.

Definition filter_row {A} (test : A → bool) (row : A → QueryRow) (found : option A) : list QueryRow :=
  match found with Some x => if test x then [row x] else [] | None => [] end.

Definition user_turn_values (conversation org workspace user contentText key : string) (s : store)
    : AssistantTurn :=
  mkTurn (randomUUID_at (uuids s)) conversation org workspace RUser TFinal (Some user) None
    (json_record contentText) key None None (sql_now s) (sql_now s) (Some (sql_now s)).

Definition assistant_turn_values (conversation org workspace assistantKey contentText key : string)
    (session run : option string) (s : store) : AssistantTurn :=
  mkTurn (randomUUID_at (uuids s)) conversation org workspace RAssistant TQueued None (Some assistantKey)
    (json_record contentText) key session run (sql_now s) (sql_now s) None.

Definition finished_values (status : FinishStatus) (resultText : string) (target : option string) (now : Z)
    (o : AssistantToolOutcome) : AssistantToolOutcome :=
  mkOutcome (oc_id o) (oc_organizationId o) (oc_workspaceId o) (oc_turnId o) (oc_toolName o)
    (oc_toolCallId o) (oc_idempotencyKey o) (finish_status status) (oc_requestSummary o)
    (json_record resultText) target (oc_createdAt o) now (Some now).

Definition inserted_turn_values (conversation org workspace : string) (role : TurnRole) (status : TurnStatus)
    (user assistantKey : option string) (contentText key : string) (session run : option string)
    (finalized : bool) (s : store) : AssistantTurn :=
  mkTurn (randomUUID_at (uuids s)) conversation org workspace role status user assistantKey
    (json_record contentText) key session run (sql_now s) (sql_now s)
    (if finalized then Some (sql_now s) else None).

(** The update that finishes a started receipt which passes the other conditions. *)
Definition finish_outcome_row (id : string) (test : AssistantToolOutcome → bool) (status : FinishStatus)
    (resultText : string) (target : option string) : M (database W) execute_result :=
  db ← get_state;
  match jm_get id (outcomes db.1) with
  | Some o =>
      if test o && bool_decide (oc_status o = OStarted) then
        let o' := finished_values status resultText target (sql_now db.1) o in
        change_tables (λ s, set_outcome o' (tick s)) [outcome_row o']
      else answer []
  | None => answer []
  end.

(** The rows of the join of assistant turns with their receipts: one row per
    receipt, or one with nulls. *)
Definition run_columns (t : AssistantTurn) : QueryRow := [
  ("turn_id", text_cell (tn_id t)); ("conversation_id", text_cell (tn_conversationId t));
  ("organization_id", text_cell (tn_organizationId t)); ("workspace_id", text_cell (tn_workspaceId t));
  ("role", text_cell (turnRole_str (tn_role t))); ("status", text_cell (turnStatus_str (tn_status t)));
  ("actor_user_id", null_text (tn_actorUserId t)); ("assistant_key", null_text (tn_assistantKey t));
  ("content", CVal (JObj (tn_content t))); ("idempotency_key", text_cell (tn_idempotencyKey t));
  ("openclaw_session_ref", null_text (tn_openclawSessionRef t));
  ("openclaw_run_ref", null_text (tn_openclawRunRef t)); ("created_at", CDate (tn_createdAt t));
  ("updated_at", CDate (tn_updatedAt t)); ("finalized_at", null_date (tn_finalizedAt t))].

Definition run_outcome_columns (o : AssistantToolOutcome) : QueryRow := [
  ("outcome_id", text_cell (oc_id o)); ("outcome_turn_id", text_cell (oc_turnId o));
  ("outcome_organization_id", text_cell (oc_organizationId o));
  ("outcome_workspace_id", text_cell (oc_workspaceId o)); ("tool_name", text_cell (oc_toolName o));
  ("tool_call_id", text_cell (oc_toolCallId o)); ("outcome_idempotency_key", text_cell (oc_idempotencyKey o));
  ("outcome_status", text_cell (outcomeStatus_str (oc_status o)));
  ("request_summary", CVal (JObj (oc_requestSummary o))); ("result_summary", CVal (JObj (oc_resultSummary o)));
  ("target_ref", null_text (oc_targetRef o)); ("outcome_created_at", CDate (oc_createdAt o));
  ("outcome_updated_at", CDate (oc_updatedAt o)); ("completed_at", null_date (oc_completedAt o))].

Definition no_outcome_columns : QueryRow :=
  (λ name, (name, CVal JNull)) <$>
    ["outcome_id"; "outcome_turn_id"; "outcome_organization_id"; "outcome_workspace_id"; "tool_name";
     "tool_call_id"; "outcome_idempotency_key"; "outcome_status"; "request_summary"; "result_summary";
     "target_ref"; "outcome_created_at"; "outcome_updated_at"; "completed_at"].

Definition joined_outcomes (s : store) (t : AssistantTurn) : list AssistantToolOutcome :=
  sort_rows oc_createdAt oc_id
    (filter (λ o, String.eqb (oc_turnId o) (tn_id t)
                  && oc_in (mkScope (tn_organizationId t) (tn_workspaceId t)) o = true)
       (jm_values (outcomes s))).

Definition run_rows (s : store) (t : AssistantTurn) : list QueryRow :=
  match joined_outcomes s t with
  | [] => [run_columns t ++ no_outcome_columns]
  | os => (λ o, run_columns t ++ run_outcome_columns o) <$> os
  end.

(** [content::text like '%task%' or exists (... linked.target_ref = task)] *)
Definition run_selected (org workspace taskId : string) (s : store) (t : AssistantTurn) : bool :=
  tn_in (mkScope org workspace) t && bool_decide (tn_role t = RAssistant)
  && (sql_like ("%" +:+ taskId +:+ "%") (jsonb_text (tn_content t))
      || existsb (λ o, bool_decide (oc_targetRef o = Some taskId)) (joined_outcomes s t)).

Definition execute_table (q : statement) : M (database W) execute_result :=
  db ← get_state;
  let s := db.1 in
  match q with
  | InsertConversation org workspace surface assistantKey user =>
      let c := mkConversation (randomUUID_at (uuids s)) org workspace surface assistantKey CvOpen user
                 (sql_now s) (sql_now s) in
      change_tables (λ s, set_conversation c (draw (tick s))) [conversation_row c]
  | SelectConversation id org workspace =>
      answer (filter_row (cv_in (mkScope org workspace)) conversation_row (jm_get id (conversations s)))
  | InsertUserTurn conversation org workspace user contentText key =>
      insert_turn_row (user_turn_values conversation org workspace user contentText key s)
  | InsertAssistantTurn conversation org workspace assistantKey contentText key session run =>
      insert_turn_row (assistant_turn_values conversation org workspace assistantKey contentText key session run s)
  | SelectTurnByKey org conversation key =>
      answer (filter_row (λ _, true) turn_row (existing_turn org conversation key s))
  | SelectTurn id org workspace _ =>
      answer (filter_row (tn_in (mkScope org workspace)) turn_row (jm_get id (turns s)))
  | StreamTurn id org workspace contentText =>
      update_turn_row id org workspace [TQueued; TStreaming] tick (with_status TStreaming (json_record contentText))
  | ClaimTurn id org workspace =>
      update_turn_row id org workspace [TQueued; TStreaming] (λ s, s)
        (λ now t, with_status TFinalizing (tn_content t) now t)
  | FinalizeTurn id org workspace contentText session run =>
      update_turn_row id org workspace [TFinalizing] tick
        (λ now t, with_finalizedAt now (with_refs session run (with_status TFinal (json_record contentText) now t)))
  | FailTurn id org workspace contentText =>
      update_turn_row id org workspace [TQueued; TStreaming; TFinalizing] tick
        (λ now t, with_finalizedAt now (with_status TFailed (json_record contentText) now t))
  | InsertOutcome org workspace turn toolName callId key requestText target =>
      match existing_outcome turn callId s with
      | Some _ => answer []  (* on conflict do nothing *)
      | None =>
          let o := mkOutcome (randomUUID_at (uuids s)) org workspace turn toolName callId key OStarted
                     (json_record requestText) [] target (sql_now s) (sql_now s) None in
          change_tables (λ s, set_outcome o (draw (tick s))) [outcome_row o]
      end
  | SelectOutcomeByCall turn callId =>
      answer (filter_row (λ _, true) outcome_row (existing_outcome turn callId s))
  | SelectOutcomeForUpdate turn callId org workspace =>
      answer (filter_row (oc_in (mkScope org workspace)) outcome_row (existing_outcome turn callId s))
  | FinishOutcome id status resultText target => finish_outcome_row id (λ _, true) status resultText target
  | SelectOpenConversation org workspace surface assistantKey user =>
      answer (conversation_row <$> take 1 (sort_rows cv_createdAt cv_id
        (filter (λ c, open_match (mkScope org workspace) (mkFindOpen surface assistantKey user) c = true)
           (jm_values (conversations s)))))
  | SelectTurns org workspace conversation =>
      answer (turn_row <$> sort_rows tn_createdAt tn_id
        (filter (λ t, tn_in (mkScope org workspace) t && String.eqb (tn_conversationId t) conversation = true)
           (jm_values (turns s))))
  | InsertTurn conversation org workspace role status user assistantKey contentText key session run finalized =>
      insert_turn_row (inserted_turn_values conversation org workspace role status user assistantKey contentText
                         key session run finalized s)
  | SelectTurnByKeyInScope org workspace conversation key =>
      answer (filter_row (tn_in (mkScope org workspace)) turn_row (existing_turn org conversation key s))
  | SelectOutcomeInScope turn callId org workspace =>
      answer (filter_row (oc_in (mkScope org workspace)) outcome_row (existing_outcome turn callId s))
  | FinishOutcomeInScope id org workspace status resultText target =>
      finish_outcome_row id (oc_in (mkScope org workspace)) status resultText target
  | SelectTaskRuns org workspace taskId =>
      answer (mjoin (run_rows s <$> sort_rows tn_createdAt tn_id
                       (filter (λ t, run_selected org workspace taskId s t = true) (jm_values (turns s)))))
  end.

#[global] Instance table_driver : RuntimeDriver (database W) := {| execute_sql := execute_table |}.

End driver.

(** * Creation times of the conversation store

    The clock of the store gives every record a creation time of its own, so the
    lists it returns do not depend on how ids are compared: the in-memory order
    ([localeCompare]) and the order of the database ([uuid]) agree. *)

Import InMemoryRuntimeConversationStore.

(** ** Records with creation times of their own *)

Record clocked {A} (created : A → Z) (m : jsmap A) (now : Z) : Prop := {
  clocked_past k x : jm_get k m = Some x → (created x <= now)%Z;
  clocked_distinct k k' x x' :
    jm_get k m = Some x → jm_get k' m = Some x' → created x = created x' → k = k';
}.

Section clocked.
Context {A : Type} (created : A → Z).
Implicit Types (m : jsmap A) (now : Z).

Lemma clocked_nil now : clocked created [] now.
Proof. done. Qed.

Lemma clocked_mono m now now' : (now <= now')%Z → clocked created m now → clocked created m now'.
Proof. intros Hn [Hp Hd]. split; [|done]. intros k x Hk. specialize (Hp k x Hk). lia. Qed.

Lemma clocked_insert m now k x :
  created x = (now + 1)%Z → clocked created m now → clocked created (jm_set k x m) (now + 1).
Proof.
  intros Hx [Hp Hd]. split.
  - intros k' y [[-> ->]|[_ Hk]]%jm_get_set_Some; [lia|]. specialize (Hp k' y Hk). lia.
  - intros k1 k2 y z [[-> ->]|[_ H1]]%jm_get_set_Some [[-> ->]|[_ H2]]%jm_get_set_Some E; [done| | |by eauto].
    + specialize (Hp _ _ H2). lia.
    + specialize (Hp _ _ H1). lia.
Qed.

Lemma clocked_update m now k x y :
  jm_get k m = Some x → created y = created x → clocked created m now → clocked created (jm_set k y m) now.
Proof.
  intros Hk E [Hp Hd]. split.
  - intros k' z [[-> ->]|[_ H1]]%jm_get_set_Some; [rewrite E|]; eauto.
  - intros k1 k2 z z' [[-> ->]|[_ H1]]%jm_get_set_Some [[-> ->]|[_ H2]]%jm_get_set_Some E'; [done| | |by eauto].
    + apply (Hd _ _ x z'); congruence.
    + apply (Hd _ _ z x); congruence.
Qed.

(** ** One order, however ids are compared *)

Context (id : A → string) `{LocaleOrder}.

#[local] Instance created_le_total : Total (created_le created id).
Proof.
  intros x y. unfold created_le. destruct (locale_total (id x) (id y)); lia.
Qed.
#[local] Instance row_le_total : Total (row_le created id).
Proof.
  intros x y. unfold row_le. destruct (Z.lt_trichotomy (created x) (created y)) as [|[E|]]; [by left; left| |by right; left].
  destruct (String.leb_total (id x) (id y)); [left|right]; right; split; congruence.
Qed.

Lemma sorted_by_time (R : relation A) l :
  (∀ x y, R x y → (created x <= created y)%Z) → Sorted R l → StronglySorted (λ x y, (created x <= created y)%Z) l.
Proof.
  intros HR Hl. apply Sorted_StronglySorted; [intros x y z; lia|].
  induction Hl as [|x l Hl IH Hhd]; constructor; [done|]. destruct Hhd; constructor. by apply HR.
Qed.

Lemma orders_agree l :
  (∀ x y, x ∈ l → y ∈ l → created x = created y → x = y) →
  sort_rows created id l = sort_created created id l.
Proof.
  intros Hd. eapply (StronglySorted_unique_strong (λ x y, (created x <= created y)%Z)).
  - intros x y Hx Hy. unfold sort_rows in Hx. unfold sort_created in Hy.
    rewrite merge_sort_Permutation in Hx. rewrite merge_sort_Permutation in Hy. intros. apply Hd; [done..|lia].
  - apply (sorted_by_time (row_le created id)); [|apply Sorted_merge_sort; apply _]. unfold row_le. lia.
  - apply (sorted_by_time (created_le created id)); [|apply Sorted_merge_sort; apply _]. unfold created_le. lia.
  - unfold sort_rows, sort_created. by rewrite !merge_sort_Permutation.
Qed.

End clocked.

(** ** The stores *)

Section stores.
Context `{NodeRuntime} `{OpaqueTexts}.
Implicit Types (s : store).

Record clocked_store s : Prop := {
  clocked_conversations : clocked cv_createdAt (conversations s) (sequence s);
  clocked_turns : clocked tn_createdAt (turns s) (sequence s);
  clocked_outcomes : clocked oc_createdAt (outcomes s) (sequence s);
}.

Lemma clocked_change scope s s' : runtime_ok s → change scope s s' → clocked_store s → clocked_store s'.
Proof.
  intros Hok Hch [Hc Ht Ho].
  destruct Hch as [|c _ _ _ Hnow|c t _ _ _ _ (Hnow & _) _|k t t' Hk _ Hstep|t o _ _ _ _ _ _ _ _ _ Hnow|o o' Hin _ Hstep];
    [done|split; simpl..].
  - by apply clocked_insert.
  - eapply clocked_mono; [|done]; lia.
  - eapply clocked_mono; [|done]; lia.
  - eapply clocked_mono; [|done]; lia.
  - by apply clocked_insert.
  - eapply clocked_mono; [|done]; lia.
  - eapply clocked_mono; [|done]; lia.
  - eapply clocked_mono; [|eapply clocked_update; [| |done]]; [lia| |by destruct Hstep as [[=]]].
    replace (tn_id t') with k; [done|].
    rewrite (identity_id t t') by apply Hstep. symmetry. by apply (ok_turns s Hok).
  - eapply clocked_mono; [|done]; lia.
  - eapply clocked_mono; [|done]; lia.
  - eapply clocked_mono; [|done]; lia.
  - by apply clocked_insert.
  - eapply clocked_mono; [|done]; lia.
  - eapply clocked_mono; [|done]; lia.
  - apply elem_of_jm_values in Hin as [k Hk]; [|apply Hok].
    eapply clocked_mono; [|eapply clocked_update; [| |done]]; [lia| |by destruct Hstep as [[=]]].
    replace (oc_id o') with k; [done|].
    rewrite (identity_oc o o') by apply Hstep. symmetry. by apply (ok_outcomes s Hok).
Qed.

Lemma runtime_reachable_clocked `{!DistinctUuids} s : runtime_reachable s → clocked_store s.
Proof.
  intros Hr. refine (proj2 (rtc_ind_r (λ s, runtime_ok s ∧ clocked_store s) empty_store _ _ s Hr)).
  - split; [apply runtime_ok_empty|]. split; apply clocked_nil.
  - intros s1 s2 _ (scope & c & ->) [Hok Hcl]. pose proof (store_after_change scope c s1) as Hch.
    split; [by eapply runtime_ok_change|by eapply clocked_change].
Qed.

(** Values of a map that share a creation time are one record. *)
Lemma clocked_values {A} (created : A → Z) m now (p : A → Prop) `{!∀ x, Decision (p x)} :
  jm_wf m → clocked created m now →
  ∀ x y, x ∈ filter p (jm_values m) → y ∈ filter p (jm_values m) → created x = created y → x = y.
Proof.
  intros Hwf [_ Hd] x y [_ Hx]%list_elem_of_filter [_ Hy]%list_elem_of_filter E.
  apply elem_of_jm_values in Hx as [k Hk]; [|done]. apply elem_of_jm_values in Hy as [k' Hk']; [|done].
  pose proof (Hd _ _ _ _ Hk Hk' E) as <-. congruence.
Qed.

End stores.
