(* ===== verification/RuntimePostgres.v ===== *)
(** * The PostgreSQL conversation store
    ([packages/runtime-control/src/adapters/postgres/runtime-conversation-store.ts])

    The port of [ports/runtime-conversation-store.ts] as a class, with the
    in-memory adapter and the PostgreSQL adapter as its instances. *)
From S2P Require Import Prelude JsString JsValue JsMap SharedKernel Effects DevBoardDomain JsText.
From S2P Require Import RuntimeDomain RuntimeStore RuntimeInvariant TenantContext RuntimeSql Authorization RuntimeLifecycle.

(** ** The port *)

Abbreviation RuntimeTurnInsert := (RuntimeInsert AssistantTurn).
Abbreviation RuntimeTurnTransition := (RuntimeTransition AssistantTurn).
Abbreviation RuntimeToolOutcomeInsert := (RuntimeInsert AssistantToolOutcome).
Abbreviation RuntimeToolOutcomeTransition := (RuntimeTransition AssistantToolOutcome).
Abbreviation RuntimeTaskAssistantRun := (AssistantTurn * list AssistantToolOutcome)%type.

Class RuntimeConversationStore (S : Type) := {
  createConversation : WorkspaceScope → CreateRuntimeConversation → M S (Result AssistantConversation);
  findOpenConversation : WorkspaceScope → FindOpenRuntimeConversation → M S (Result (option AssistantConversation));
  listTurns : WorkspaceScope → string → M S (Result (list AssistantTurn));
  appendUserTurn : WorkspaceScope → AppendRuntimeUserTurn → M S (Result RuntimeTurnInsert);
  queueAssistantTurn : WorkspaceScope → QueueRuntimeAssistantTurn → M S (Result RuntimeTurnInsert);
  appendAssistantDelta : WorkspaceScope → AppendRuntimeAssistantDelta → M S (Result RuntimeTurnTransition);
  finalizeAssistantTurn : WorkspaceScope → FinalizeRuntimeAssistantTurn → M S (Result RuntimeTurnTransition);
  failAssistantTurn : WorkspaceScope → FailRuntimeAssistantTurn → M S (Result RuntimeTurnTransition);
  startToolOutcome : WorkspaceScope → StartRuntimeToolOutcome → M S (Result RuntimeToolOutcomeInsert);
  finishToolOutcome : WorkspaceScope → FinishRuntimeToolOutcome → M S (Result RuntimeToolOutcomeTransition);
  listTaskAssistantRuns : WorkspaceScope → string → M S (Result (list RuntimeTaskAssistantRun));
}.

(** ** The in-memory adapter *)

Module Memory := InMemoryRuntimeConversationStore.

(** A method that only reads the maps. *)
Definition reading {S A} (f : S → A) : M S A := s ← get_state; mret (f s).

#[export] Instance memory_store `{NodeRuntime} `{OpaqueTexts} : RuntimeConversationStore Memory.store := {|
  createConversation := Memory.createConversation;
  findOpenConversation scope input := reading (Memory.findOpenConversation scope input);
  listTurns scope conversationId := reading (Memory.listTurns scope conversationId);
  appendUserTurn := Memory.appendUserTurn;
  queueAssistantTurn := Memory.queueAssistantTurn;
  appendAssistantDelta := Memory.appendAssistantDelta;
  finalizeAssistantTurn := Memory.finalizeAssistantTurn;
  failAssistantTurn := Memory.failAssistantTurn;
  startToolOutcome := Memory.startToolOutcome;
  finishToolOutcome := Memory.finishToolOutcome;
  listTaskAssistantRuns := Memory.listTaskAssistantRuns;
|}.

(** ** The PostgreSQL adapter *)

Module PostgresRuntimeConversationStore.

Section adapter.
Context {S : Type} `{RuntimeDriver S} `{TenantDatabase} `{NodeDates} `{OpaqueTexts}.

Definition storeError (code message : string) : DomainError := domain_error code message.

(** What a caught error is answered as; its cause is only logged. *)
Definition store_failure (error : exn) : DomainError :=
  match mapTenantStoreError error with
  | ExnDomain mapped => mapped
  | _ => storeError "runtimeControl.storeOperationFailed" "Runtime conversation store operation failed."
  end.

Definition tenant {A} (scope : WorkspaceScope) (operation : M S (Result A)) : M S (Result A) :=
  try_catch (inTransaction (sc_organizationId scope) operation) (λ error, mret (err (store_failure error))).

(** [row === undefined ? null : decode(row)] *)
Definition decoded {A} (decode : QueryRow → M S A) (row : option QueryRow) : M S (option A) :=
  match row with None => mret None | Some row => x ← decode row; mret (Some x) end.

Definition conversation (scope : WorkspaceScope) (id : string) : M S (option AssistantConversation) :=
  row ← first_row (SelectConversation id (sc_organizationId scope) (sc_workspaceId scope));
  decoded rowToConversation row.

Definition turn (scope : WorkspaceScope) (id : string) (lock : bool) : M S (option AssistantTurn) :=
  row ← first_row (SelectTurn id (sc_organizationId scope) (sc_workspaceId scope) lock);
  decoded rowToTurn row.

Definition scopedWrite (scope input : WorkspaceScope) : Result unit :=
  if String.eqb (sc_organizationId input) (sc_organizationId scope)
     && String.eqb (sc_workspaceId input) (sc_workspaceId scope)
  then ok tt else err TenantAccessDeniedError.

Definition createConversation (scope : WorkspaceScope) (input : CreateRuntimeConversation)
    : M S (Result AssistantConversation) :=
  tenant scope
    match scopedWrite scope (cc_scope input) with
    | err e => mret (err e)
    | ok _ =>
        row ← first_row (InsertConversation (sc_organizationId (cc_scope input)) (sc_workspaceId (cc_scope input))
                           (cc_surface input) (cc_assistantKey input) (cc_createdByUserId input));
        match row with
        | None => mret (err (storeError "runtimeControl.conversationCreateFailed"
                              "Assistant conversation could not be created."))
        | Some row => c ← rowToConversation row; mret (ok c)
        end
    end.

Definition findOpenConversation (scope : WorkspaceScope) (input : FindOpenRuntimeConversation)
    : M S (Result (option AssistantConversation)) :=
  tenant scope
    (row ← first_row (SelectOpenConversation (sc_organizationId scope) (sc_workspaceId scope)
                        (fo_surface input) (fo_assistantKey input) (fo_createdByUserId input));
     c ← decoded rowToConversation row;
     mret (ok c)).

(** [rows.map(decode)] *)
Fixpoint map_rows {A} (decode : QueryRow → M S A) (rows : list QueryRow) : M S (list A) :=
  match rows with
  | [] => mret []
  | row :: rows => x ← decode row; xs ← map_rows decode rows; mret (x :: xs)
  end.

Definition listTurns (scope : WorkspaceScope) (conversationId : string) : M S (Result (list AssistantTurn)) :=
  tenant scope
    (found ← conversation scope conversationId;
     match found with
     | None => mret (err TenantAccessDeniedError)
     | Some _ =>
         result ← execute_sql (SelectTurns (sc_organizationId scope) (sc_workspaceId scope) conversationId);
         turns ← map_rows rowToTurn (rowsFromExecuteResult result);
         mret (ok turns)
     end).

(** The input of [insertTurn]: [AppendRuntimeUserTurn | QueueRuntimeAssistantTurn],
    told apart by the role. *)
Inductive turn_input : Type :=
| UserTurn (input : AppendRuntimeUserTurn)
| AssistantTurnInput (input : QueueRuntimeAssistantTurn).

Definition ti_scope (input : turn_input) : WorkspaceScope :=
  match input with UserTurn i => au_scope i | AssistantTurnInput i => qt_scope i end.
Definition ti_conversation (input : turn_input) : string :=
  match input with UserTurn i => au_conversationId i | AssistantTurnInput i => qt_conversationId i end.
Definition ti_key (input : turn_input) : string :=
  match input with UserTurn i => au_idempotencyKey i | AssistantTurnInput i => qt_idempotencyKey i end.
Definition ti_content (input : turn_input) : jsobj :=
  match input with UserTurn i => au_content i | AssistantTurnInput i => default [] (qt_content i) end.

Definition insert_statement (input : turn_input) (contentText : string) : statement :=
  let org := sc_organizationId (ti_scope input) in
  let workspace := sc_workspaceId (ti_scope input) in
  match input with
  | UserTurn i =>
      InsertTurn (au_conversationId i) org workspace RUser TFinal (Some (au_actorUserId i)) None contentText
        (au_idempotencyKey i) None None true
  | AssistantTurnInput i =>
      InsertTurn (qt_conversationId i) org workspace RAssistant TQueued None (Some (qt_assistantKey i)) contentText
        (qt_idempotencyKey i) (qt_openclawSessionRef i) (qt_openclawRunRef i) false
  end.

(** The fields a replay must agree on, before the content. *)
Definition same_author (input : turn_input) (turn : AssistantTurn) : bool :=
  match input with
  | UserTurn i =>
      bool_decide (tn_role turn = RUser) && bool_decide (tn_actorUserId turn = Some (au_actorUserId i))
      && bool_decide (tn_assistantKey turn = None)
  | AssistantTurnInput i =>
      bool_decide (tn_role turn = RAssistant) && bool_decide (tn_actorUserId turn = None)
      && bool_decide (tn_assistantKey turn = Some (qt_assistantKey i))
  end.

Definition insertTurn (scope : WorkspaceScope) (input : turn_input) : M S (Result RuntimeTurnInsert) :=
  tenant scope
    match scopedWrite scope (ti_scope input) with
    | err e => mret (err e)
    | ok _ =>
      found ← conversation scope (ti_conversation input);
      match found with
      | None => mret (err (storeError "runtimeControl.conversationNotFound" "Assistant conversation was not found."))
      | Some _ =>
        contentText ← stringify (ti_content input);
        inserted ← first_row (insert_statement input contentText);
        match inserted with
        | Some row => t ← rowToTurn row; mret (ok (Inserted t))
        | None =>
          replay ← first_row (SelectTurnByKeyInScope (sc_organizationId scope) (sc_workspaceId scope)
                                (ti_conversation input) (ti_key input));
          match replay with
          | None => mret (err (storeError "runtimeControl.turnNotFound" "Assistant turn was not found."))
          | Some row =>
              t ← rowToTurn row;
              matches ← (if same_author input t then sameJson (tn_content t) (ti_content input) else mret false);
              mret (if matches : bool then ok (Replayed t)
                    else err (storeError "runtimeControl.idempotencyConflict"
                               "Idempotency key was reused with a different assistant turn payload."))
          end
        end
      end
    end.

Definition appendUserTurn (scope : WorkspaceScope) (input : AppendRuntimeUserTurn) :=
  insertTurn scope (UserTurn input).
Definition queueAssistantTurn (scope : WorkspaceScope) (input : QueueRuntimeAssistantTurn) :=
  insertTurn scope (AssistantTurnInput input).

(** ** Transitions *)

Definition is_role (t : AssistantTurn) : bool := bool_decide (tn_role t = RAssistant).

Definition appendAssistantDelta (scope : WorkspaceScope) (input : AppendRuntimeAssistantDelta)
    : M S (Result RuntimeTurnTransition) :=
  tenant scope
    (found ← turn scope (ad_turnId input) true;
     match found with
     | None => mret (ok NotFound)
     | Some current =>
         if negb (is_role current) || negb (canAppendAssistantDelta (tn_status current))
         then mret (ok (InvalidState current))
         else
           contentText ← stringify (Memory.contentWithDelta (tn_content current) (ad_deltaText input));
           row ← first_row (StreamTurn (ad_turnId input) (sc_organizationId scope) (sc_workspaceId scope) contentText);
           match row with
           | None => mret (ok (InvalidState current))
           | Some row => t ← rowToTurn row; mret (ok (Updated t))
           end
     end).

(** The answer for a turn that an update did not match. *)
Definition unmatched (scope : WorkspaceScope) (turnId : string) (settled : TurnStatus)
    : M S (Result RuntimeTurnTransition) :=
  found ← turn scope turnId false;
  mret (ok match found with
           | None => NotFound
           | Some current =>
               if is_role current && bool_decide (tn_status current = settled) then AlreadyFinal current
               else InvalidState current
           end).

Definition finalizeAssistantTurn (scope : WorkspaceScope) (input : FinalizeRuntimeAssistantTurn)
    : M S (Result RuntimeTurnTransition) :=
  tenant scope
    (claimed ← first_row (ClaimTurn (ft_turnId input) (sc_organizationId scope) (sc_workspaceId scope));
     match claimed with
     | None => unmatched scope (ft_turnId input) TFinal
     | Some _ =>
         contentText ← stringify (ft_content input);
         row ← first_row (FinalizeTurn (ft_turnId input) (sc_organizationId scope) (sc_workspaceId scope)
                            contentText (ft_openclawSessionRef input) (ft_openclawRunRef input));
         match row with
         | None => throw (ExnDomain (storeError "runtimeControl.finalizationClaimLost"
                            "Assistant turn finalization lost its single-writer claim."))
         | Some row => t ← rowToTurn row; mret (ok (Updated t))
         end
     end).

Definition failAssistantTurn (scope : WorkspaceScope) (input : FailRuntimeAssistantTurn)
    : M S (Result RuntimeTurnTransition) :=
  tenant scope
    (contentText ← stringify (Memory.failed_content (xt_errorCode input) (xt_errorMessage input));
     row ← first_row (FailTurn (xt_turnId input) (sc_organizationId scope) (sc_workspaceId scope) contentText);
     match row with
     | Some row => t ← rowToTurn row; mret (ok (Updated t))
     | None => unmatched scope (xt_turnId input) TFailed
     end).

(** ** Tool outcomes *)

Definition toolOutcomeConflict {A} : Result A :=
  err (storeError "runtimeControl.toolOutcomeConflict" "Tool call id was reused with a different payload.").

Definition startToolOutcome (scope : WorkspaceScope) (input : StartRuntimeToolOutcome)
    : M S (Result RuntimeToolOutcomeInsert) :=
  tenant scope
    match scopedWrite scope (so_scope input) with
    | err e => mret (err e)
    | ok _ =>
      found ← turn scope (so_turnId input) false;
      match found with
      | None => mret (err (storeError "runtimeControl.turnNotFound" "Assistant turn was not found."))
      | Some turn =>
        if negb (is_role turn) then
          mret (err (storeError "runtimeControl.invalidToolOutcomeTurn"
                      "Tool outcome receipts must bind to an assistant turn."))
        else
          requestText ← stringify (so_requestSummary input);
          inserted ← first_row (InsertOutcome (sc_organizationId (so_scope input)) (sc_workspaceId (so_scope input))
                                  (so_turnId input) (so_toolName input) (so_toolCallId input) (so_idempotencyKey input)
                                  requestText (default None (so_targetRef input)));
          match inserted with
          | Some row => o ← rowToToolOutcome row; mret (ok (Inserted o))
          | None =>
            existing ← first_row (SelectOutcomeInScope (so_turnId input) (so_toolCallId input)
                                    (sc_organizationId scope) (sc_workspaceId scope));
            match existing with
            | None => mret (err (storeError "runtimeControl.toolOutcomeNotFound" "Tool outcome was not found."))
            | Some row =>
                o ← rowToToolOutcome row;
                same ← (if String.eqb (oc_toolName o) (so_toolName input)
                           && String.eqb (oc_idempotencyKey o) (so_idempotencyKey input)
                        then sameJson (oc_requestSummary o) (so_requestSummary input) else mret false);
                mret (if (same : bool) && match so_targetRef input with
                                          | None => true
                                          | Some ref => bool_decide (ref = oc_targetRef o)
                                          end
                      then ok (Replayed o) else toolOutcomeConflict)
            end
          end
      end
    end.

Definition finishToolOutcome (scope : WorkspaceScope) (input : FinishRuntimeToolOutcome)
    : M S (Result RuntimeToolOutcomeTransition) :=
  tenant scope
    (row ← first_row (SelectOutcomeForUpdate (fi_turnId input) (fi_toolCallId input)
                        (sc_organizationId scope) (sc_workspaceId scope));
     match row with
     | None => mret (ok NotFound)
     | Some row =>
       current ← rowToToolOutcome row;
       matches ← (if String.eqb (oc_toolName current) (fi_toolName input)
                     && String.eqb (oc_idempotencyKey current) (fi_idempotencyKey input)
                  then sameJson (oc_requestSummary current) (fi_requestSummary input) else mret false);
       if negb matches then mret toolOutcomeConflict
       else if negb (bool_decide (oc_status current = OStarted)) then
         same ← (if bool_decide (oc_status current = finish_status (fi_status input))
                 then sameJson (oc_resultSummary current) (fi_resultSummary input) else mret false);
         mret (ok (if same : bool then AlreadyFinal current else InvalidState current))
       else
         resultText ← stringify (fi_resultSummary input);
         updated ← first_row (FinishOutcomeInScope (oc_id current) (sc_organizationId scope) (sc_workspaceId scope)
                                (fi_status input) resultText
                                (match fi_targetRef input with Some (Some ref) => Some ref | _ => oc_targetRef current end));
         match updated with
         | None => mret (ok (InvalidState current))
         | Some row => o ← rowToToolOutcome row; mret (ok (Updated o))
         end
     end).

(** ** The runs of a task *)

(** The receipt of a joined row, under the column names of its own table. *)
Definition outcome_columns (row : QueryRow) : QueryRow := [
  ("id", column "outcome_id" row); ("turn_id", column "outcome_turn_id" row);
  ("organization_id", column "outcome_organization_id" row); ("workspace_id", column "outcome_workspace_id" row);
  ("tool_name", column "tool_name" row); ("tool_call_id", column "tool_call_id" row);
  ("idempotency_key", column "outcome_idempotency_key" row); ("status", column "outcome_status" row);
  ("request_summary", column "request_summary" row); ("result_summary", column "result_summary" row);
  ("target_ref", column "target_ref" row); ("created_at", column "outcome_created_at" row);
  ("updated_at", column "outcome_updated_at" row); ("completed_at", column "completed_at" row)].

(** One joined row added to the runs, a [Map] from turn ids. *)
Definition add_run (runs : jsmap RuntimeTaskAssistantRun) (row : QueryRow) : M S (jsmap RuntimeTaskAssistantRun) :=
  turn ← rowToTurn (("id", column "turn_id" row) :: row);   (* [{ ...row, id: row["turn_id"] }] *)
  let run := default (turn, []) (jm_get (tn_id turn) runs) in
  run ← (if absent (column "outcome_id" row) then mret run
         else o ← rowToToolOutcome (outcome_columns row); mret (run.1, run.2 ++ [o]));
  mret (jm_set (tn_id turn) run runs).

Fixpoint collect_runs (rows : list QueryRow) (runs : jsmap RuntimeTaskAssistantRun)
    : M S (jsmap RuntimeTaskAssistantRun) :=
  match rows with
  | [] => mret runs
  | row :: rows => runs ← add_run runs row; collect_runs rows runs
  end.

Definition listTaskAssistantRuns (scope : WorkspaceScope) (taskId : string)
    : M S (Result (list RuntimeTaskAssistantRun)) :=
  tenant scope
    (result ← execute_sql (SelectTaskRuns (sc_organizationId scope) (sc_workspaceId scope) taskId);
     runs ← collect_runs (rowsFromExecuteResult result) [];
     mret (ok (jm_values runs))).

End adapter.

#[global] Instance postgres_store {S} `{RuntimeDriver S} `{TenantDatabase} `{NodeDates} `{OpaqueTexts}
    : RuntimeConversationStore S := {|
  RuntimePostgres.createConversation := createConversation;
  RuntimePostgres.findOpenConversation := findOpenConversation;
  RuntimePostgres.listTurns := listTurns;
  RuntimePostgres.appendUserTurn := appendUserTurn;
  RuntimePostgres.queueAssistantTurn := queueAssistantTurn;
  RuntimePostgres.appendAssistantDelta := appendAssistantDelta;
  RuntimePostgres.finalizeAssistantTurn := finalizeAssistantTurn;
  RuntimePostgres.failAssistantTurn := failAssistantTurn;
  RuntimePostgres.startToolOutcome := startToolOutcome;
  RuntimePostgres.finishToolOutcome := finishToolOutcome;
  RuntimePostgres.listTaskAssistantRuns := listTaskAssistantRuns;
|}.

End PostgresRuntimeConversationStore.
