(* ===== verification/RuntimeRefine.v ===== *)
(** * The SQL layer refines the in-memory store

    Run over the tables, the application layer answers and leaves what the
    in-memory adapter of the port answers and leaves, call by call. *)
From S2P Require Import Prelude JsString JsValue JsMap SharedKernel Effects DevBoardDomain JsText.
From S2P Require Import RuntimeDomain RuntimeStore RuntimeInvariant.
From S2P Require Import TenantContext RuntimeSql Authorization RuntimeLifecycle RuntimeTables.
Import InMemoryRuntimeConversationStore.

(** Sound tables whose rows can be read back. *)
Record tables_ok `{NodeRuntime} (s : store) : Prop := {
  tables_runtime : runtime_ok s;
  tables_conversations k c : jm_get k (conversations s) = Some c → conversation_storable c;
  tables_turns k t : jm_get k (turns s) = Some t → turn_storable t;
  tables_outcomes k o : jm_get k (outcomes s) = Some o → outcome_storable o;
}.

(** A JSON value that PostgreSQL gives back as it was. *)
Definition json_faithful `{Jsonb} (o : jsobj) : Prop :=
  ∃ text, jsonStringify (JObj o) = Some (Some text) ∧ jsonb text = JObj o.

Definition cx_scope (cx : RuntimeControlApplicationContext) : WorkspaceScope :=
  mkScope (cx_orgId cx) (cx_workspaceId cx).

(** The answers of the layer for the answers of the port: a record of another scope
    is not found, and whether a record was inserted or found again is not told. *)
Definition hidden (not_found e : DomainError) : DomainError :=
  if String.eqb (error_code e) (error_code TenantAccessDeniedError) then not_found else e.

Definition insert_answer {A} (r : Result (RuntimeInsert A)) : Result A :=
  match r with
  | ok (Inserted x) | ok (Replayed x) => ok x
  | err e => err (hidden conversationNotFound e)
  end.

Definition transition_answer {A} (message : string) (r : Result (RuntimeTransition A)) : Result A :=
  match r with
  | ok (Updated x) | ok (AlreadyFinal x) => ok x
  | ok NotFound => err turnNotFound
  | ok (InvalidState _) => err (invalidTurnTransition message)
  | err e => err (hidden turnNotFound e)
  end.

(** A run of the layer that mirrors a run of the in-memory store; an exception of
    the store is answered as a failure, and the transaction is rolled back. *)
Definition mirrored {A B W} (code message : string) (f : Result A → Result B)
    (run : outcome (Result A) * store) (db : database W) : outcome (Result B) * database W :=
  match run with
  | (Returned r, s') => (Returned (f r), (s', db.2))
  | (Thrown _, _) => (Returned (err (runtimeError code message)), db)
  end.

(** A normalized key is not blank. *)
Lemma normalized_not_blank key field key' :
  normalizeRuntimeKey key field = ok key' → String.eqb (trim key') "" = false.
Proof.
  unfold normalizeRuntimeKey. destruct (Nat.eqb_spec (String.length (trim key)) 0) as [|Hne]; [done|].
  case_match; [done|]. intros [= <-]. rewrite trim_idemp. apply String.eqb_neq. intros E. by rewrite E in Hne.
Qed.

Section refine.
Context {W : Type} `{NodeRuntime} `{NodeDates} `{OpaqueTexts} `{TenantDatabase} `{Jsonb}.
Implicit Types (cx : RuntimeControlApplicationContext) (s : store) (w : W).

(** ** Sessions *)

(** A context and an action that validation, the authorization port and the tenant
    guard admit. *)
Definition admitted cx (dependencies : RuntimeControlDependencies) (action : AuthorizationAction) : Prop :=
  ∀ db : database W, validateCommonInput cx dependencies action db = (Returned (ok tt), db) ∧
    (tenant_guard (cx_orgId cx) db).1 = Returned tt.

Lemma made_inv {S} make name id (s s' : S) v :
  make = Ids.makeOpaqueId name → made (make id) s = (Returned v, s') → id_ok id ∧ v = id ∧ s' = s.
Proof.
  intros ->. unfold Ids.makeOpaqueId, Ids.parseOpaqueId, id_ok. destruct (Ids.opaqueIdPattern id) eqn:E; [|done].
  by intros [= <- <-].
Qed.

Lemma known_context {S} cx (s s' : S) :
  assertKnownContext cx s = (Returned (ok tt), s') →
  id_ok (cx_orgId cx) ∧ id_ok (cx_workspaceId cx) ∧ id_ok (ra_userId (cx_actor cx)).
Proof.
  unfold assertKnownContext, try_catch, mbind, M_bind.
  destruct (made (Ids.makeTenantId (cx_orgId cx)) s) as [[v|e] s1] eqn:Hm1; [|done].
  destruct (made (Ids.makeOrgId (cx_orgId cx)) s1) as [[v1|e] s2] eqn:Hm2; [|done].
  destruct (made (Ids.makeWorkspaceId (cx_workspaceId cx)) s2) as [[v2|e] s3] eqn:Hm3; [|done].
  destruct (made (Ids.makeUserId (ra_userId (cx_actor cx))) s3) as [[v3|e] s4] eqn:Hm4; [|done].
  intros _. apply (made_inv _ "TenantId") in Hm1 as (? & -> & ->); [|done].
  apply (made_inv _ "WorkspaceId") in Hm3 as (? & -> & ->); [|done].
  by apply (made_inv _ "UserId") in Hm4 as (? & -> & ->).
Qed.

Lemma admitted_ids cx deps action (db : database W) :
  admitted cx deps action →
  id_ok (cx_orgId cx) ∧ id_ok (cx_workspaceId cx) ∧ id_ok (ra_userId (cx_actor cx)).
Proof.
  intros Had. destruct (Had db) as [Hv _]. unfold validateCommonInput, mbind, M_bind in Hv.
  destruct (assertKnownContext cx db) as [[[[]|e]|e] s1] eqn:Hk; [|done..]. by eapply known_context.
Qed.

Lemma authorized_run {A} cx deps action (body : M (database W) (Result A)) db :
  admitted cx deps action → authorized cx deps action body db = body db.
Proof. intros Had. unfold authorized, mbind, M_bind. by rewrite (proj1 (Had db)). Qed.

(** An attempt in an admitted session: the body's answer, or the failure. *)
Lemma attempt_run {A} cx deps action code message (fn : M (database W) (Result A)) db :
  admitted cx deps action →
  attempt (cx_orgId cx) code message fn db =
  match fn db with
  | (Returned r, db') => (Returned r, db')
  | (Thrown _, _) => (Returned (err (runtimeError code message)), db)
  end.
Proof.
  intros Had. unfold attempt, try_catch, inTransaction. rewrite withTenant_guard, (proj2 (Had db)).
  by destruct (fn db) as [[r|e] db'].
Qed.

(** ** Statements *)

Lemma first_row_answer (q : statement) (rows : list QueryRow) (db db' : database W) :
  execute_table q db = (Returned (RowArray rows), db') → first_row q db = (Returned (head rows), db').
Proof. intros Hq. unfold first_row, mbind, M_bind, execute_sql; simpl. by rewrite Hq. Qed.

Lemma existing_turn_storable org conv key s t :
  tables_ok s → existing_turn org conv key s = Some t → turn_storable t.
Proof.
  intros Hok [Hin _]%find_elem. apply elem_of_jm_values in Hin as [k Hk]; [|apply (ok_turns s), Hok].
  by eapply tables_turns.
Qed.

Lemma existing_outcome_storable turnId callId s o :
  tables_ok s → existing_outcome turnId callId s = Some o → outcome_storable o.
Proof.
  intros Hok [Hin _]%find_elem. apply elem_of_jm_values in Hin as [k Hk]; [|apply (ok_outcomes s), Hok].
  by eapply tables_outcomes.
Qed.

(** Loading a conversation is [conversationForWrite], hiding other scopes. *)
Lemma load_conversation cx conversationId s w :
  tables_ok s →
  loadConversationInScope cx conversationId (s, w) =
  (Returned match conversationForWrite (cx_scope cx) conversationId s with
            | ok c => ok c
            | err _ => err conversationNotFound
            end, (s, w)).
Proof.
  intros Hok. unfold loadConversationInScope, mbind, M_bind.
  erewrite first_row_answer by reflexivity. unfold conversationForWrite, targeted, filter_row, cx_scope. simpl.
  destruct (jm_get conversationId (conversations s)) as [c|] eqn:Hc; [|done].
  destruct (cv_in _ c); [|done]. simpl. rewrite decode_conversation; [done|]. by eapply tables_conversations.
Qed.

(** Selecting a turn is [targeted], hiding other scopes. *)
Lemma select_turn cx turnId lock s w :
  tables_ok s →
  selectTurnInScope cx turnId lock (s, w) =
  (Returned match targeted (tn_in (cx_scope cx)) (turns s) turnId with
            | ok (Some t) => ok t
            | _ => err turnNotFound
            end, (s, w)).
Proof.
  intros Hok. unfold selectTurnInScope, mbind, M_bind.
  erewrite first_row_answer by reflexivity. unfold targeted, filter_row, cx_scope. simpl.
  destruct (jm_get turnId (turns s)) as [t|] eqn:Ht; [|done].
  destruct (tn_in _ t); [|done]. simpl. rewrite decode_turn; [done|]. by eapply tables_turns.
Qed.

(** ** Insertion and replay *)

(** A run on the tables that mirrors one on the store, exceptions included. *)
Definition tables_run {A B} (f : A → B) (run : outcome A * store) w : outcome B * database W :=
  match run with
  | (Returned a, s') => (Returned (f a), (s', w))
  | (Thrown e, s') => (Thrown e, (s', w))
  end.

Lemma validate_replay_run existing role actor key content author s w :
  author = bool_decide (tn_role existing = role) && matches_field actor (tn_actorUserId existing)
           && matches_field key (tn_assistantKey existing) →
  validateIdempotentTurnReplay existing role actor key content (s, w) =
  tables_run (λ same : bool, if same then ok existing else err RuntimeLifecycle.idempotencyConflict)
    (and_sameJson author (tn_content existing) content s) w.
Proof.
  intros ->. unfold validateIdempotentTurnReplay.
  rewrite <-!negb_andb. destruct (_ && _ && _); simpl; [|done].
  unfold sameJson, RuntimeSql.sameJson, stable, RuntimeSql.stable, mbind, M_bind.
  destruct (stableJson (JObj (tn_content existing))); [|done]. by destruct (stableJson (JObj content)).
Qed.

Lemma insert_turn_refined cx conv key content author new insertion q replay s w :
  tables_ok s →
  insertion (s, w) = (Returned q, (s, w)) →
  execute_table q (s, w) = insert_turn_row (new (sequence s + 1)%Z (randomUUID_at (uuids s))) (s, w) →
  (∀ now id, turn_key (new now id) = (cx_orgId cx, conv, key) ∧ turn_storable (new now id)) →
  (∀ t, replay t (s, w) =
     tables_run (λ same : bool, if same then ok t else err RuntimeLifecycle.idempotencyConflict)
       (and_sameJson (author t) (tn_content t) content s) w) →
  insert_or_replay cx conv key insertion replay (s, w) =
  tables_run insert_answer (insert_turn (cx_scope cx) (cx_scope cx) conv key content author new s) w.
Proof.
  intros Hok Hins Hq Hnew Hreplay. unfold insert_or_replay, insert_turn, assertScopedWrite, scope_of.
  rewrite inScope_scope. unfold mbind, M_bind, get_state. rewrite load_conversation by done.
  destruct (conversationForWrite (cx_scope cx) conv s) as [c|e] eqn:Hc.
  2: { unfold conversationForWrite, targeted in Hc.
       destruct (jm_get conv (conversations s)) as [c|]; [destruct (cv_in _ c)|];
         [discriminate|injection Hc as <-; reflexivity..]. }
  rewrite Hins. destruct (Hnew (sequence s + 1)%Z (randomUUID_at (uuids s))) as [Hkey Hst].
  unfold insert_turn_row, mbind, M_bind, get_state in Hq. injection Hkey as Eorg Econv Ekey.
  rewrite Eorg, Econv, Ekey in Hq. simpl in Hq |- *.
  destruct (existing_turn (cx_orgId cx) conv key s) as [t|] eqn:Ht.
  - rewrite (first_row_answer _ _ _ _ Hq). simpl. rewrite Ht. simpl. rewrite decode_turn by by eapply existing_turn_storable. rewrite Hreplay.
    by destruct (and_sameJson _ _ _ s) as [[[]|e] s'].
  - rewrite (first_row_answer _ _ _ _ Hq). simpl. by rewrite decode_turn.
Qed.

(** ** Transitions *)

Lemma stringify_faithful o (db : database W) :
  json_faithful o → ∃ text, stringify o db = (Returned text, db) ∧ json_record text = o.
Proof.
  intros (text & Htext & Hjson). exists text. unfold stringify. rewrite Htext. split; [done|].
  unfold json_record. by rewrite Hjson.
Qed.

(** The row an update returns: the turn, if it is in the scope, an assistant turn,
    and in one of the states. *)
Lemma update_turn_run q id cx statuses advance next s w :
  execute_table q (s, w) = update_turn_row id (cx_orgId cx) (cx_workspaceId cx) statuses advance next (s, w) →
  first_row q (s, w) =
  match targeted (tn_in (cx_scope cx)) (turns s) id with
  | ok (Some t) =>
      if bool_decide (tn_role t = RAssistant) && bool_decide (tn_status t ∈ statuses)
      then let t' := next (sequence s + 1)%Z t in
           (Returned (Some (turn_row t')), (set_turn t' (advance s), w))
      else (Returned None, (s, w))
  | _ => (Returned None, (s, w))
  end.
Proof.
  intros Hq. unfold update_turn_row, mbind, M_bind, get_state in Hq. unfold targeted, cx_scope. simpl in Hq.
  destruct (jm_get id (turns s)) as [t|]; [|exact (first_row_answer _ _ _ _ Hq)].
  destruct (tn_in _ t); [|exact (first_row_answer _ _ _ _ Hq)].
  simpl in *. destruct (bool_decide _ && _); exact (first_row_answer _ _ _ _ Hq).
Qed.

Lemma targeted_storable cx s id t :
  tables_ok s → targeted (tn_in (cx_scope cx)) (turns s) id = ok (Some t) →
  turn_storable t ∧ tn_id t = id ∧ tn_in (cx_scope cx) t = true.
Proof.
  intros Hok [Ht Hin]%targeted_some. split; [by eapply tables_turns|]. split; [|done].
  exact (rows_own tn_id _ _ (ok_turns s (tables_runtime s Hok)) id t Ht).
Qed.

Lemma targeted_err {A} (p : A → bool) m id e :
  targeted p m id = err e → e = TenantAccessDeniedError.
Proof. unfold targeted. repeat case_match; naive_solver. Qed.

Lemma stored_transition status content now t :
  turn_storable t → turn_storable (with_status status content now t).
Proof. by intros []. Qed.

Lemma stored_final now session run t :
  not_blank session → not_blank run → turn_storable t →
  turn_storable (with_finalizedAt now (with_refs session run t)).
Proof. by intros ?? []. Qed.

Lemma stored_finalized now t : turn_storable t → turn_storable (with_finalizedAt now t).
Proof. by intros []. Qed.

Lemma append_delta_refined cx deps id delta s w :
  admitted cx deps ActUpdate → tables_ok s →
  (∀ t, jm_get id (turns s) = Some t → json_faithful (contentWithDelta (tn_content t) delta)) →
  RuntimeLifecycle.appendAssistantDelta (mkAppendDelta cx id delta) deps (s, w) =
  mirrored "runtimeControl.assistantDeltaAppendFailed" "Assistant delta could not be appended."
    (transition_answer "Assistant delta cannot be appended in the current turn state.")
    (appendAssistantDelta (cx_scope cx) (mkDelta id delta) s) (s, w).
Proof.
  intros Had Hok Hjson. unfold RuntimeLifecycle.appendAssistantDelta. simpl.
  rewrite (authorized_run _ _ _ _ _ Had), (attempt_run _ _ _ _ _ _ _ Had).
  unfold appendAssistantDelta, transition_turn, mbind, M_bind, get_state. simpl.
  rewrite select_turn by done.
  destruct (targeted _ _ id) as [[t|]|e] eqn:Ht; simpl; [|done|by apply targeted_err in Ht as ->].
  apply (targeted_storable cx) in Ht as Hst; [|done]. destruct Hst as (Hst & Hid & Hin).
  pose proof (targeted_some _ _ _ _ Ht) as [Hk _].
  rewrite andb_false_r. simpl. unfold canAppendAssistantDelta.
  destruct (bool_decide (tn_role t = RAssistant)) eqn:Hr; simpl; [|done].
  destruct (match tn_status t with TQueued | TStreaming => true | _ => false end) eqn:Hopen; simpl; [|done].
  destruct (stringify_faithful (contentWithDelta (tn_content t) delta) (s, w) (Hjson t Hk)) as (text & -> & Hrec).
  erewrite update_turn_run by reflexivity. rewrite Ht, Hr.
  rewrite bool_decide_true by (destruct (tn_status t); set_solver). simpl.
  rewrite decode_turn by by apply stored_transition. rewrite Hrec. done.
Qed.

Lemma finalize_refined cx deps id content session run s w :
  admitted cx deps ActUpdate → tables_ok s → json_faithful content → not_blank session → not_blank run →
  RuntimeLifecycle.finalizeAssistantTurn (mkFinalizeInput cx id content session run) deps (s, w) =
  mirrored "runtimeControl.assistantTurnFinalizeFailed" "Assistant turn could not be finalized."
    (transition_answer "Assistant turn cannot be finalized in the current state.")
    (finalizeAssistantTurn (cx_scope cx) (mkFinalizeTurn id content session run) s) (s, w).
Proof.
  intros Had Hok Hjson Hsession Hrun. unfold RuntimeLifecycle.finalizeAssistantTurn. simpl.
  rewrite (authorized_run _ _ _ _ _ Had), (attempt_run _ _ _ _ _ _ _ Had).
  unfold finalizeAssistantTurn, transition_turn, mbind, M_bind, get_state. simpl.
  erewrite update_turn_run by reflexivity.
  destruct (targeted (tn_in (cx_scope cx)) (turns s) id) as [[t|]|e] eqn:Ht.
  2: { simpl. by rewrite select_turn, Ht. }
  2: { simpl. rewrite select_turn, Ht by done. by apply targeted_err in Ht as ->. }
  apply (targeted_storable cx) in Ht as Hst; [|done]. destruct Hst as (Hst & Hid & Hin).
  destruct (bool_decide (tn_role t = RAssistant)) eqn:Hr; simpl.
  2: { rewrite select_turn, Ht by done. simpl. by rewrite Hr. }
  destruct (bool_decide (tn_status t ∈ [TQueued; TStreaming])) eqn:Hopen; simpl.
  - destruct (stringify_faithful content (set_turn (with_status TFinalizing (tn_content t) (sequence s + 1) t) s, w) Hjson)
      as (text & -> & Hrec).
    erewrite update_turn_run by reflexivity. simpl. unfold targeted. rewrite Hid, jm_get_set_eq.
    replace (tn_in (cx_scope cx) _) with true by by symmetry. simpl. rewrite Hr. simpl.
    rewrite decode_turn by (apply stored_final; [done..|]; by apply stored_transition, stored_transition).
    assert (tn_status t = TQueued ∨ tn_status t = TStreaming) as Hq.
    { apply bool_decide_eq_true in Hopen. set_solver. }
    rewrite Hrec. simpl. unfold set_turn, tick. simpl.
    destruct Hq as [-> | ->]; simpl; by rewrite Hid, jm_set_twice.
  - rewrite select_turn, Ht by done. simpl. rewrite Hr. simpl.
    destruct (tn_status t); simpl in *; try done.
Qed.

Lemma fail_refined cx deps id code message s w :
  admitted cx deps ActUpdate → tables_ok s → json_faithful (failed_content code message) →
  RuntimeLifecycle.failAssistantTurn (mkFailInput cx id code message) deps (s, w) =
  mirrored "runtimeControl.assistantTurnFailFailed" "Assistant turn could not be marked failed."
    (transition_answer "Assistant turn cannot be failed in the current state.")
    (failAssistantTurn (cx_scope cx) (mkFailTurn id code message) s) (s, w).
Proof.
  intros Had Hok Hjson. unfold RuntimeLifecycle.failAssistantTurn.
  cbn [xi_context xi_turnId xi_errorCode xi_errorMessage].
  rewrite (authorized_run _ _ _ _ _ Had), (attempt_run _ _ _ _ _ _ _ Had).
  unfold failAssistantTurn, transition_turn, mbind, M_bind, get_state. cbn -[failed_content stringify first_row].
  destruct (stringify_faithful (failed_content code message) (s, w) Hjson) as (text & -> & Hrec).
  erewrite update_turn_run by reflexivity.
  destruct (targeted (tn_in (cx_scope cx)) (turns s) id) as [[t|]|e] eqn:Ht.
  2: { simpl. by rewrite select_turn, Ht. }
  2: { simpl. rewrite select_turn, Ht by done. by apply targeted_err in Ht as ->. }
  apply (targeted_storable cx) in Ht as Hst; [|done]. destruct Hst as (Hst & Hid & Hin).
  destruct (bool_decide (tn_role t = RAssistant)) eqn:Hr; simpl.
  2: { rewrite select_turn, Ht by done. simpl. by rewrite Hr. }
  destruct (bool_decide (tn_status t ∈ [TQueued; TStreaming; TFinalizing])) eqn:Hopen; simpl.
  - rewrite decode_turn by by apply stored_finalized, stored_transition. rewrite Hrec.
    destruct (tn_status t); simpl in *; done.
  - rewrite select_turn, Ht by done. simpl. rewrite Hr. simpl.
    destruct (tn_status t); simpl in *; done.
Qed.

(** ** Operations that insert *)

Lemma tables_run_mirrored {A B} code message (f : Result A → Result B) run (s : store) w :
  match tables_run f run w with
  | (Returned r, db') => (Returned r, db')
  | (Thrown _, _) => (Returned (err (runtimeError code message)), (s, w))
  end = mirrored code message f run (s, w).
Proof. by destruct run as [[r|e] s']. Qed.

Lemma create_refined cx deps surface key surface' key' s w :
  admitted cx deps ActCreate →
  normalizeRuntimeKey surface "surface" = ok surface' → normalizeRuntimeKey key "assistantKey" = ok key' →
  RuntimeLifecycle.createConversation (mkCreate cx surface key) deps (s, w) =
  mirrored "runtimeControl.conversationCreateFailed" "Assistant conversation could not be created." (λ r, r)
    (createConversation (cx_scope cx)
       (mkCreateConversation (cx_scope cx) surface' key' (ra_userId (cx_actor cx))) s) (s, w).
Proof.
  intros Had Hs Hk. destruct (admitted_ids _ _ _ (s, w) Had) as (Horg & Hws & Huser).
  unfold RuntimeLifecycle.createConversation. cbn [ci_context ci_surface ci_assistantKey].
  rewrite (authorized_run _ _ _ _ _ Had), Hs, Hk, (attempt_run _ _ _ _ _ _ _ Had).
  unfold createConversation, assertScopedWrite, scope_of. simpl. rewrite inScope_self.
  unfold first_row, mbind, M_bind, execute_sql. simpl. by rewrite decode_conversation.
Qed.

Lemma append_user_refined cx deps conv key key' content s w :
  admitted cx deps ActCreate → tables_ok s → json_faithful content →
  normalizeRuntimeKey key "idempotencyKey" = ok key' →
  RuntimeLifecycle.appendUserTurn (mkUserTurn cx conv key content) deps (s, w) =
  mirrored "runtimeControl.userTurnAppendFailed" "User turn could not be appended." insert_answer
    (appendUserTurn (cx_scope cx)
       (mkAppendUser (cx_scope cx) conv (ra_userId (cx_actor cx)) key' content) s) (s, w).
Proof.
  intros Had Hok Hjson Hk. destruct (admitted_ids _ _ _ (s, w) Had) as (Horg & Hws & Huser).
  unfold RuntimeLifecycle.appendUserTurn. cbn [ui_context ui_conversationId ui_idempotencyKey ui_content].
  rewrite (authorized_run _ _ _ _ _ Had), Hk, (attempt_run _ _ _ _ _ _ _ Had).
  destruct (stringify_faithful content (s, w) Hjson) as (text & Htext & Hrec).
  rewrite <-tables_run_mirrored. erewrite insert_turn_refined; [reflexivity|done|..].
  - unfold mbind, M_bind. rewrite Htext. reflexivity.
  - unfold execute_table, mbind, M_bind, get_state. cbn [fst snd]. unfold user_turn_values. by rewrite Hrec.
  - by intros now id.
  - intros t. apply validate_replay_run. unfold by_user. simpl. by rewrite andb_true_r.
Qed.

Lemma start_turn_refined cx deps conv key key' akey akey' content session run s w :
  admitted cx deps ActExecute → tables_ok s → json_faithful (default [] content) →
  not_blank session → not_blank run →
  normalizeRuntimeKey key "idempotencyKey" = ok key' → normalizeRuntimeKey akey "assistantKey" = ok akey' →
  RuntimeLifecycle.startAssistantTurn (mkStartTurn cx conv key akey content session run) deps (s, w) =
  mirrored "runtimeControl.assistantTurnStartFailed" "Assistant turn could not be started." insert_answer
    (queueAssistantTurn (cx_scope cx)
       (mkQueueTurn (cx_scope cx) conv key' akey' content session run) s) (s, w).
Proof.
  intros Had Hok Hjson Hsession Hrun Hk Hak. destruct (admitted_ids _ _ _ (s, w) Had) as (Horg & Hws & Huser).
  unfold RuntimeLifecycle.startAssistantTurn.
  cbn [ai_context ai_conversationId ai_idempotencyKey ai_assistantKey ai_content ai_openclawSessionRef ai_openclawRunRef].
  rewrite (authorized_run _ _ _ _ _ Had), Hk, Hak, (attempt_run _ _ _ _ _ _ _ Had).
  destruct (stringify_faithful (default [] content) (s, w) Hjson) as (text & Htext & Hrec).
  rewrite <-tables_run_mirrored. erewrite insert_turn_refined; [reflexivity|done|..].
  - unfold mbind, M_bind. rewrite Htext. reflexivity.
  - unfold execute_table, mbind, M_bind, get_state. cbn [fst snd]. unfold assistant_turn_values. by rewrite Hrec.
  - intros now id. split; [done|]. split; try done. simpl.
    by apply (normalized_not_blank akey "assistantKey").
  - intros t. apply validate_replay_run. unfold by_assistant. simpl. by rewrite andb_true_r.
Qed.

End refine.
