(* ===== verification/RuntimeReceipts.v ===== *)
(** * Runtime Control: tool outcome receipts
    ([packages/runtime-control/src/application/assistant-conversation-outcomes.ts]) *)
From S2P Require Import Prelude JsMap JsString JsValue SharedKernel Effects DevBoardDomain.
From S2P Require Import TenantContext JsText RuntimeDomain RuntimeStore RuntimeInvariant.
From S2P Require Import Authorization RuntimeSql RuntimeLifecycle RuntimeTables.
From S2P Require Import RuntimeRefine.

Record StartedToolOutcomeReceipt : Type := mkReceipt {
  sr_outcome : AssistantToolOutcome;
  sr_inserted : bool;
}.

(** The two forms of [RecordToolOutcomeInput]. *)
Record StartedOutcomeInput : Type := mkStarted {
  st_context : RuntimeControlApplicationContext;
  st_turnId : string;
  st_toolName : string;
  st_toolCallId : string;
  st_idempotencyKey : string;
  st_requestSummary : jsobj;
  st_targetRef : option (option string);
}.

Record FinishedOutcomeInput : Type := mkFinished {
  fn_context : RuntimeControlApplicationContext;
  fn_turnId : string;
  fn_toolName : string;
  fn_toolCallId : string;
  fn_idempotencyKey : string;
  fn_status : FinishStatus;
  fn_requestSummary : jsobj;
  fn_resultSummary : jsobj;
  fn_targetRef : option (option string);
}.

(** [{ ...input, toolName, toolCallId, idempotencyKey }] *)
Definition normalized_started (i : StartedOutcomeInput) (toolName toolCallId key : string) : StartedOutcomeInput :=
  mkStarted (st_context i) (st_turnId i) toolName toolCallId key (st_requestSummary i) (st_targetRef i).
Definition normalized_finished (i : FinishedOutcomeInput) (toolName toolCallId key : string)
    : FinishedOutcomeInput :=
  mkFinished (fn_context i) (fn_turnId i) toolName toolCallId key (fn_status i) (fn_requestSummary i)
    (fn_resultSummary i) (fn_targetRef i).

Section outcomes.
Context {S : Type} `{RuntimeDriver S} `{TenantDatabase} `{NodeDates} `{OpaqueTexts}.

Definition insertStartedToolOutcome (input : StartedOutcomeInput) : M S (Result StartedToolOutcomeReceipt) :=
  let cx := st_context input in
  turn ← selectTurnInScope cx (st_turnId input) false;
  match turn with
  | err e => mret (err e)
  | ok turn =>
      if negb (bool_decide (tn_role turn = RAssistant)) then
        mret (err (runtimeError "runtimeControl.invalidToolOutcomeTurn"
                     "Tool outcome receipts must bind to an assistant turn."))
      else
      text ← stringify (st_requestSummary input);
      inserted ← first_row (InsertOutcome (cx_orgId cx) (cx_workspaceId cx) (st_turnId input)
                    (st_toolName input) (st_toolCallId input) (st_idempotencyKey input) text
                    (default None (st_targetRef input)));
      match inserted with
      | Some row => o ← rowToToolOutcome row; mret (ok (mkReceipt o true))
      | None =>
          existing ← first_row (SelectOutcomeByCall (st_turnId input) (st_toolCallId input));
          match existing with
          | None => mret (err (runtimeError "runtimeControl.toolOutcomeNotFound" "Tool outcome was not found."))
          | Some row =>
              o ← rowToToolOutcome row;
              replay ← validateToolOutcomeReplay o (st_toolName input) (st_idempotencyKey input)
                         (st_requestSummary input) (st_targetRef input);
              mret match replay with err e => err e | ok o => ok (mkReceipt o false) end
          end
      end
  end.

(** [current.status === "started" ? current.targetRef : input.targetRef]; the
    spread leaves an undefined target out, which is then [input.targetRef] again. *)
Definition replay_target (current : AssistantToolOutcome) (input : FinishedOutcomeInput)
    : option (option string) :=
  if bool_decide (oc_status current = OStarted) then Some (oc_targetRef current) else fn_targetRef input.

Definition finishToolOutcome (input : FinishedOutcomeInput) : M S (Result AssistantToolOutcome) :=
  let cx := fn_context input in
  row ← first_row (SelectOutcomeForUpdate (fn_turnId input) (fn_toolCallId input) (cx_orgId cx) (cx_workspaceId cx));
  match row with
  | None => mret (err (runtimeError "runtimeControl.toolOutcomeReceiptMissing"
                         "Tool outcome receipt must be recorded before a tool mutation."))
  | Some row =>
      current ← rowToToolOutcome row;
      replay ← validateToolOutcomeReplay current (fn_toolName input) (fn_idempotencyKey input)
                 (fn_requestSummary input) (replay_target current input);
      match replay with
      | err e => mret (err e)
      | ok _ =>
        if negb (bool_decide (oc_status current = OStarted)) then
          same ← (if bool_decide (oc_status current = finish_status (fn_status input))
                  then sameJson (oc_resultSummary current) (fn_resultSummary input) else mret false);
          mret (if same : bool then ok current
                else err (toolOutcomeConflict "Tool outcome was already completed with a different result."))
        else
          text ← stringify (fn_resultSummary input);
          updated ← first_row (FinishOutcome (oc_id current) (fn_status input) text
                      match fn_targetRef input with Some (Some ref) => Some ref | _ => oc_targetRef current end);
          match updated with
          | None => mret (err (toolOutcomeConflict "Tool outcome completion lost its single-writer claim."))
          | Some row => o ← rowToToolOutcome row; mret (ok o)
          end
      end
  end.

(** The three keys of a receipt, normalized; the first error is answered. *)
Definition normalized_keys (toolName toolCallId key : string) : Result (string * string * string) :=
  match normalizeRuntimeKey toolName "toolName", normalizeRuntimeKey toolCallId "toolCallId",
        normalizeRuntimeKey key "idempotencyKey" with
  | err e, _, _ => err e
  | ok _, err e, _ => err e
  | ok _, ok _, err e => err e
  | ok toolName, ok toolCallId, ok key => ok (toolName, toolCallId, key)
  end.

Definition recordFailed : string := "runtimeControl.toolOutcomeRecordFailed".

Definition recordStartedToolOutcome (input : StartedOutcomeInput) (dependencies : RuntimeControlDependencies)
    : M S (Result StartedToolOutcomeReceipt) :=
  authorized (st_context input) dependencies ActExecute
  match normalized_keys (st_toolName input) (st_toolCallId input) (st_idempotencyKey input) with
  | err e => mret (err e)
  | ok (toolName, toolCallId, key) =>
      attempt (cx_orgId (st_context input)) recordFailed "Tool outcome could not be recorded."
        (insertStartedToolOutcome (normalized_started input toolName toolCallId key))
  end.

(** [recordToolOutcome] on a started input: the outcome of the receipt. *)
Definition recordToolOutcome_started (input : StartedOutcomeInput) (dependencies : RuntimeControlDependencies)
    : M S (Result AssistantToolOutcome) :=
  receipt ← recordStartedToolOutcome input dependencies;
  mret match receipt with err e => err e | ok receipt => ok (sr_outcome receipt) end.

(** [recordToolOutcome] on a finished input. *)
Definition recordToolOutcome (input : FinishedOutcomeInput) (dependencies : RuntimeControlDependencies)
    : M S (Result AssistantToolOutcome) :=
  authorized (fn_context input) dependencies ActExecute
  match normalized_keys (fn_toolName input) (fn_toolCallId input) (fn_idempotencyKey input) with
  | err e => mret (err e)
  | ok (toolName, toolCallId, key) =>
      attempt (cx_orgId (fn_context input)) recordFailed "Tool outcome could not be recorded."
        (finishToolOutcome (normalized_finished input toolName toolCallId key))
  end.

End outcomes.

(** * Receipts of tool calls over the tables

    What recording a tool call as started and as finished does to the tables, and
    why a recorded call is answered from its receipt. *)

Import InMemoryRuntimeConversationStore.

(** A JSON object that PostgreSQL gives back up to the order of its keys. *)
Definition json_stable `{Jsonb} (o : jsobj) : Prop :=
  ∃ text stable, jsonStringify (JObj o) = Some (Some text) ∧ stableJson (JObj o) = Some stable ∧
    stableJson (JObj (json_record text)) = Some stable.

(** The receipt of a call: what it was recorded with. *)
Record receipt_of (o : AssistantToolOutcome) (turn name call key : string) (request : jsobj) : Prop := {
  receipt_turn : oc_turnId o = turn;
  receipt_name : oc_toolName o = name;
  receipt_call : oc_toolCallId o = call;
  receipt_key : oc_idempotencyKey o = key;
  receipt_request : ∃ stable, stableJson (JObj (oc_requestSummary o)) = Some stable ∧
    stableJson (JObj request) = Some stable;
}.

Section receipts.
Context {W : Type} `{NodeRuntime} `{NodeDates} `{OpaqueTexts} `{TenantDatabase} `{Jsonb}.
Implicit Types (cx : RuntimeControlApplicationContext) (s : store) (w : W).

Lemma existing_outcome_found s k o :
  runtime_ok s → jm_get k (outcomes s) = Some o → existing_outcome (oc_turnId o) (oc_toolCallId o) s = Some o.
Proof.
  intros Hok Hk. destruct (existing_outcome _ _ s) as [o'|] eqn:He.
  - apply find_elem in He as [[k' Hk']%elem_of_jm_values Hkey]; [|apply Hok]. bool_hyps.
    repeat match goal with E : String.eqb _ _ = true |- _ => apply String.eqb_eq in E end.
    assert (k' = k) as -> by (apply (ok_outcome_call s Hok k' k o' o); [done|done|unfold outcome_call; congruence]).
    congruence.
  - by destruct (existing_outcome_none _ _ _ _ _ He Hk).
Qed.

Lemma existing_outcome_inv s turn call o :
  runtime_ok s → existing_outcome turn call s = Some o →
  jm_get (oc_id o) (outcomes s) = Some o ∧ oc_turnId o = turn ∧ oc_toolCallId o = call.
Proof.
  intros Hok He. apply find_elem in He as [[k Hk]%elem_of_jm_values Hkey]; [|apply Hok]. bool_hyps.
  repeat match goal with E : String.eqb _ _ = true |- _ => apply String.eqb_eq in E end.
  by rewrite (rows_own oc_id _ _ (ok_outcomes s Hok) k o Hk).
Qed.

Lemma tables_ok_set_outcome o s s' :
  tables_ok s → runtime_ok (set_outcome o s') → outcome_storable o →
  conversations s' = conversations s → turns s' = turns s → outcomes s' = outcomes s →
  tables_ok (set_outcome o s').
Proof.
  intros [_ Hc Ht Ho] Hok Hst Ec Et Eo. split; simpl; rewrite ?Ec, ?Et, ?Eo; [done..|].
  intros k o' [[_ ->]|[_ Hk]]%jm_get_set_Some; [done|by eapply Ho].
Qed.

(** The receipt as it is inserted. *)
Definition started_values (org workspace turn name call key text : string) s : AssistantToolOutcome :=
  mkOutcome (randomUUID_at (uuids s)) org workspace turn name call key OStarted (json_record text) [] None
    (sql_now s) (sql_now s) None.

Lemma insert_outcome_run org workspace turn name call key text s w :
  first_row (InsertOutcome org workspace turn name call key text None) (s, w) =
  match existing_outcome turn call s with
  | Some _ => (Returned None, (s, w))
  | None => let o := started_values org workspace turn name call key text s in
            (Returned (Some (outcome_row o)), (set_outcome o (draw (tick s)), w))
  end.
Proof.
  unfold first_row, execute_sql, mbind, M_bind. simpl. unfold execute_table, mbind, M_bind, get_state. cbn [fst snd].
  by destruct (existing_outcome turn call s).
Qed.

Lemma finish_outcome_run id status text target s w :
  first_row (FinishOutcome id status text target) (s, w) =
  match jm_get id (outcomes s) with
  | Some o =>
      if bool_decide (oc_status o = OStarted) then
        let o' := finished_values status text target (sql_now s) o in
        (Returned (Some (outcome_row o')), (set_outcome o' (tick s), w))
      else (Returned None, (s, w))
  | None => (Returned None, (s, w))
  end.
Proof.
  unfold first_row, execute_sql, mbind, M_bind. simpl. unfold execute_table, mbind, M_bind, get_state. cbn [fst snd].
  unfold finish_outcome_row, mbind, M_bind, get_state. cbn [fst snd].
  destruct (jm_get id (outcomes s)) as [o|]; [|done]. by destruct (bool_decide (oc_status o = OStarted)).
Qed.

(** The comparison of a replay, with the exceptions of the serialization. *)
Lemma validate_outcome_run existing name key request target s w :
  validateToolOutcomeReplay existing name key request target (s, w) =
  tables_run
    (λ same : bool, if same then ok existing
                    else err (RuntimeLifecycle.toolOutcomeConflict "Tool call id was reused with a different payload."))
    (and_sameJson (String.eqb (oc_toolName existing) name && String.eqb (oc_idempotencyKey existing) key
                   && matches_field target (oc_targetRef existing)) (oc_requestSummary existing) request s) w.
Proof.
  unfold validateToolOutcomeReplay. rewrite <-!negb_andb. destruct (_ && _ && _); simpl; [|done].
  unfold sameJson, RuntimeSql.sameJson, stable, RuntimeSql.stable, mbind, M_bind.
  destruct (stableJson (JObj (oc_requestSummary existing))); [|done]. by destruct (stableJson (JObj request)).
Qed.

Lemma and_sameJson_true (a : bool) l r s s' :
  and_sameJson a l r s = (Returned true, s') →
  s' = s ∧ a = true ∧ ∃ x, stableJson (JObj l) = Some x ∧ stableJson (JObj r) = Some x.
Proof.
  unfold and_sameJson, sameJson, stable, mbind, M_bind. destruct a; [|done].
  destruct (stableJson (JObj l)) as [x|]; [|done]. destruct (stableJson (JObj r)) as [y|]; [|done]. cbn.
  destruct (String.eqb_spec x y) as [->|]; [|done]. intros [= <-]. split; [done|]. split; [done|]. by exists y.
Qed.

Lemma and_sameJson_stable l r x s :
  stableJson (JObj l) = Some x → stableJson (JObj r) = Some x →
  and_sameJson true l r s = (Returned true, s).
Proof.
  intros Hl Hr. unfold and_sameJson, sameJson, stable, mbind, M_bind. rewrite Hl, Hr. cbn.
  by rewrite String.eqb_refl.
Qed.

Section session.
Context (cx : RuntimeControlApplicationContext) (deps : RuntimeControlDependencies).
Context (Hadmitted : admitted (W := W) cx deps ActExecute).
Context (turn name call key name' call' key' : string).
Context (Hkeys : normalized_keys name call key = ok (name', call', key')).

(** ** Started *)

Lemma record_started_replay request s w o t :
  tables_ok s → jm_get turn (turns s) = Some t → tn_in (cx_scope cx) t = true → tn_role t = RAssistant →
  existing_outcome turn call' s = Some o → receipt_of o turn name' call' key' request →
  is_Some (jsonStringify (JObj request)) →
  recordStartedToolOutcome (mkStarted cx turn name call key request None) deps (s, w) =
    (Returned (ok (mkReceipt o false)), (s, w)).
Proof using Hadmitted Hkeys.
  intros Hok Ht Hin Hr Ho [_ Hn _ Hk (x & Hx & Hx')] [text Htext].
  unfold recordStartedToolOutcome. cbn [st_context st_toolName st_toolCallId st_idempotencyKey].
  rewrite (authorized_run _ _ _ _ _ Hadmitted), Hkeys, (attempt_run _ _ _ _ _ _ _ Hadmitted).
  unfold insertStartedToolOutcome, normalized_started. cbn [st_context st_turnId st_toolName st_toolCallId
    st_idempotencyKey st_requestSummary st_targetRef].
  unfold mbind, M_bind. rewrite select_turn by done. unfold targeted. rewrite Ht, Hin. simpl. rewrite Hr. simpl.
  unfold stringify. rewrite Htext. unfold mret, M_ret at 1. rewrite insert_outcome_run, Ho.
  simpl. rewrite Ho. simpl.
  rewrite decode_outcome by by eapply existing_outcome_storable.
  rewrite validate_outcome_run. rewrite Hn, Hk, !String.eqb_refl. simpl andb.
  by rewrite (and_sameJson_stable _ _ x).
Qed.

(** Recording a call as started: either its receipt is found again, or it is
    inserted. *)
Lemma record_started_inv `{!DistinctUuids} request s w r db :
  tables_ok s → json_stable request →
  recordStartedToolOutcome (mkStarted cx turn name call key request None) deps (s, w) = (Returned (ok r), db) →
  ∃ s' t, db = (s', w) ∧ tables_ok s' ∧
    jm_get turn (turns s') = Some t ∧ tn_in (cx_scope cx) t = true ∧ tn_role t = RAssistant ∧
    existing_outcome turn call' s' = Some (sr_outcome r) ∧ receipt_of (sr_outcome r) turn name' call' key' request ∧
    oc_in (cx_scope cx) (sr_outcome r) = true ∧
    (sr_inserted r = true → oc_status (sr_outcome r) = OStarted ∧ oc_targetRef (sr_outcome r) = None).
Proof using Hadmitted Hkeys.
  intros Hok (text & stable & Htext & Hstable & Hstable').
  destruct (admitted_ids _ _ _ (s, w) Hadmitted) as (Horg & Hws & _).
  unfold recordStartedToolOutcome. cbn [st_context st_toolName st_toolCallId st_idempotencyKey].
  rewrite (authorized_run _ _ _ _ _ Hadmitted), Hkeys, (attempt_run _ _ _ _ _ _ _ Hadmitted).
  unfold insertStartedToolOutcome, normalized_started. cbn [st_context st_turnId st_toolName st_toolCallId
    st_idempotencyKey st_requestSummary st_targetRef].
  unfold mbind, M_bind. rewrite select_turn by done.
  destruct (targeted _ _ turn) as [[t|]|e] eqn:Ht; [|done..].
  apply targeted_some in Ht as [Ht Hin].
  destruct (bool_decide (tn_role t = RAssistant)) eqn:Hr; simpl; [|done]. apply bool_decide_eq_true in Hr.
  unfold stringify. rewrite Htext. unfold mret, M_ret at 1. rewrite insert_outcome_run.
  destruct (existing_outcome turn call' s) as [o|] eqn:Ho.
  - simpl. rewrite Ho. simpl.
    rewrite decode_outcome by by eapply existing_outcome_storable. rewrite validate_outcome_run.
    destruct (and_sameJson _ _ _ s) as [[[]|e] s1] eqn:Hs; [|done..]. simpl. intros [= <- <-].
    apply and_sameJson_true in Hs as (-> & Ha & Hjson). bool_hyps.
    repeat match goal with E : String.eqb _ _ = true |- _ => apply String.eqb_eq in E end.
    destruct (existing_outcome_inv s turn call' o (tables_runtime s Hok) Ho) as (Hk & Hturn & Hcall).
    exists s, t. do 6 (split; [done|]).
    split; [done|]. split; [|done].
    destruct (outcome_turn s o (ok_outcome s (tables_runtime s Hok) _ _ Hk)) as (t' & Ht' & _ & Eo & Ew).
    rewrite Hturn, Ht in Ht'. injection Ht' as <-. unfold oc_in. by rewrite <-Eo, <-Ew.
  - cbn beta iota zeta. rewrite decode_outcome by done. intros [= <- <-]. simpl.
    set (o := started_values _ _ _ _ _ _ _ _).
    assert (change (cx_scope cx) s (set_outcome o (draw (tick s)))) as Hch.
    { eapply (change_insert_outcome _ _ t); try done. exact (inScope_self (cx_orgId cx) (cx_workspaceId cx)). }
    pose proof (runtime_ok_change _ _ _ (tables_runtime s Hok) Hch) as Hok'.
    exists (set_outcome o (draw (tick s))), t. split; [done|].
    split; [by apply (tables_ok_set_outcome o s)|]. do 3 (split; [done|]).
    split; [apply (existing_outcome_found _ (oc_id o) o Hok'), jm_get_set_eq|].
    split; [split; try done; by exists stable|]. split; [exact (inScope_self (cx_orgId cx) (cx_workspaceId cx))|done].
Qed.

(** ** Finished *)

(** A call that is recorded as finished: its receipt was there, and is now finished
    with the status. *)
Lemma record_finished_inv `{!DistinctUuids} status request result target s w o' db :
  tables_ok s → not_blank (default None target) →
  recordToolOutcome (mkFinished cx turn name call key status request result target) deps (s, w)
    = (Returned (ok o'), db) →
  ∃ s', db = (s', w) ∧ runtime_ok s' ∧
    existing_outcome turn call' s' = Some o' ∧ receipt_of o' turn name' call' key' request ∧
    oc_in (cx_scope cx) o' = true ∧ oc_status o' = finish_status status.
Proof using Hadmitted Hkeys.
  intros Hok Htarget. unfold recordToolOutcome. cbn [fn_context fn_toolName fn_toolCallId fn_idempotencyKey].
  rewrite (authorized_run _ _ _ _ _ Hadmitted), Hkeys, (attempt_run _ _ _ _ _ _ _ Hadmitted).
  unfold RuntimeReceipts.finishToolOutcome, normalized_finished. cbn [fn_context fn_turnId fn_toolName fn_toolCallId
    fn_idempotencyKey fn_requestSummary fn_resultSummary fn_status fn_targetRef].
  unfold mbind, M_bind. cbn beta zeta. cbn [fn_context fn_turnId fn_toolCallId].
  erewrite first_row_answer by reflexivity. unfold filter_row. simpl.
  destruct (existing_outcome turn call' s) as [o|] eqn:Ho; [|done].
  destruct (oc_in _ o) eqn:Hin; [|done]. simpl.
  pose proof (existing_outcome_storable _ _ _ _ Hok Ho) as Hst. rewrite decode_outcome by done.
  destruct (existing_outcome_inv s turn call' o (tables_runtime s Hok) Ho) as (Hk & Hturn & Hcall).
  rewrite validate_outcome_run. destruct (and_sameJson _ _ _ s) as [[[]|e] s1] eqn:Hs; [|done..].
  apply and_sameJson_true in Hs as (-> & Ha & Hjson).
  apply andb_prop in Ha as [[Hn%String.eqb_eq Hkey%String.eqb_eq]%andb_prop _].
  assert (receipt_of o turn name' call' key' request) as Hreceipt by done.
  simpl. destruct (bool_decide (oc_status o = OStarted)) eqn:Hs; simpl.
  - apply bool_decide_eq_true in Hs. unfold stringify.
    destruct (jsonStringify (JObj result)) as [text|]; [|done]. unfold mret, M_ret at 1.
    rewrite finish_outcome_run, Hk, bool_decide_true by done. cbn beta iota zeta.
    set (o1 := finished_values _ _ _ _ _). rewrite decode_outcome.
    2: { destruct Hst as [? ? Hb]. split; simpl; [done..|]. by destruct target as [[]|]. }
    intros [= <- <-].
    assert (change (cx_scope cx) s (set_outcome o1 (tick s))) as Hch.
    { eapply (change_outcome _ _ o); [by eapply jm_get_values|done|]. split; try done. by destruct status. }
    pose proof (runtime_ok_change _ _ _ (tables_runtime s Hok) Hch) as Hok'.
    exists (set_outcome o1 (tick s)). do 2 (split; [done|]). split.
    { rewrite <-Hturn, <-Hcall. apply (existing_outcome_found _ (oc_id o) o1 Hok'), jm_get_set_eq. }
    split; [by destruct Hreceipt|done].
  - destruct (bool_decide (oc_status o = finish_status status)) eqn:Hst'; [|done].
    apply bool_decide_eq_true in Hst'. unfold RuntimeSql.sameJson, RuntimeSql.stable, mbind, M_bind.
    destruct (stableJson (JObj (oc_resultSummary o))) as [x|]; [|done].
    destruct (stableJson (JObj result)) as [y|]; [|done]. simpl.
    destruct (String.eqb x y); [|done]. intros [= <- <-].
    exists s. do 2 (split; [first [done|apply Hok]|]). done.
Qed.

End session.
End receipts.
