(* ===== verification/RuntimePorts.v ===== *)
(** * The two conversation stores are one

    Over the tables, the PostgreSQL adapter answers what the in-memory adapter
    answers and leaves what it leaves, call by call. *)
From S2P Require Import Prelude JsString JsValue JsMap SharedKernel Effects DevBoardDomain JsText.
From S2P Require Import RuntimeDomain RuntimeStore RuntimeInvariant.
From S2P Require Import TenantContext RuntimeSql Authorization RuntimeLifecycle RuntimeTables RuntimeRefine.
From S2P Require Import RuntimePostgres RuntimeReceipts.
From Stdlib Require Import Ascii.
Import InMemoryRuntimeConversationStore.
Module Postgres := PostgresRuntimeConversationStore.

(** A scope the tenant guard and the decoders accept. *)
Definition scope_admitted `{TenantDatabase} {S} (scope : WorkspaceScope) : Prop :=
  id_ok (sc_organizationId scope) ∧ id_ok (sc_workspaceId scope) ∧
  ∀ s : S, (tenant_guard (sc_organizationId scope) s).1 = Returned tt.

(** A run of the adapter that mirrors one of the in-memory store: an exception is
    answered as a failure, and the transaction is rolled back. *)
Definition stored {A B W} (f : Result A → Result B) (run : outcome (Result A) * store) (db : database W)
    : outcome (Result B) * database W :=
  match run with
  | (Returned r, s') => (Returned (f r), (s', db.2))
  | (Thrown e, _) => (Returned (err (Postgres.store_failure (mapDatabaseError e))), db)
  end.

(** The answers for the in-memory answers: a record of another scope is missing. *)
Definition write_answer {A} (scope input : WorkspaceScope) (missing : DomainError) (r : Result A) : Result A :=
  match r with
  | ok x => ok x
  | err e => err (if scope_of scope input then hidden missing e else e)
  end.

Definition move_answer {A} (r : Result (RuntimeTransition A)) : Result (RuntimeTransition A) :=
  match r with
  | err e => if String.eqb (error_code e) (error_code TenantAccessDeniedError) then ok NotFound else err e
  | answered => answered
  end.

(** The in-memory adapter answers no turns for an unknown conversation, the other
    one refuses it. *)
Definition list_answer (scope : WorkspaceScope) (conversationId : string) (s : store) (r : Result (list AssistantTurn))
    : Result (list AssistantTurn) :=
  match jm_get conversationId (conversations s) with None => err TenantAccessDeniedError | Some _ => r end.

Section ports.
Context {W : Type} `{NodeRuntime} `{NodeDates} `{OpaqueTexts} `{TenantDatabase} `{Jsonb}.
Implicit Types (scope : WorkspaceScope) (s : store) (w : W).

(** ** Sessions and statements *)

Lemma tenant_run {A} scope (operation : M (database W) (Result A)) db :
  scope_admitted (S := database W) scope →
  Postgres.tenant scope operation db =
  match operation db with
  | (Returned r, db') => (Returned r, db')
  | (Thrown e, _) => (Returned (err (Postgres.store_failure (mapDatabaseError e))), db)
  end.
Proof.
  intros (_ & _ & Hg). unfold Postgres.tenant, try_catch, inTransaction. rewrite withTenant_guard, Hg.
  by destruct (operation db) as [[r|e] db'].
Qed.

Lemma tenant_stored {A B} scope (operation : M (database W) (Result B)) (f : Result A → Result B) run s w :
  scope_admitted (S := database W) scope → operation (s, w) = tables_run f run w →
  Postgres.tenant scope operation (s, w) = stored f run (s, w).
Proof. intros Had Hop. rewrite tenant_run, Hop by done. by destruct run as [[r|e] s']. Qed.

Lemma scope_eta scope : mkScope (sc_organizationId scope) (sc_workspaceId scope) = scope.
Proof. by destruct scope. Qed.

Lemma conversation_run scope id s w :
  tables_ok s →
  Postgres.conversation scope id (s, w) =
  (Returned match targeted (cv_in scope) (conversations s) id with ok c => c | err _ => None end, (s, w)).
Proof.
  intros Hok. unfold Postgres.conversation, mbind, M_bind. erewrite first_row_answer by reflexivity.
  unfold targeted, filter_row. simpl. rewrite scope_eta.
  destruct (jm_get id (conversations s)) as [c|] eqn:Hc; [|done].
  destruct (cv_in scope c); [|done]. simpl. unfold mbind, M_bind.
  rewrite decode_conversation; [done|]. by eapply tables_conversations.
Qed.

Lemma turn_run scope id lock s w :
  tables_ok s →
  Postgres.turn scope id lock (s, w) =
  (Returned match targeted (tn_in scope) (turns s) id with ok t => t | err _ => None end, (s, w)).
Proof.
  intros Hok. unfold Postgres.turn, mbind, M_bind. erewrite first_row_answer by reflexivity.
  unfold targeted, filter_row. simpl. rewrite scope_eta.
  destruct (jm_get id (turns s)) as [t|] eqn:Ht; [|done].
  destruct (tn_in scope t); [|done]. simpl. unfold mbind, M_bind.
  rewrite decode_turn; [done|]. by eapply tables_turns.
Qed.

(** The comparison of contents, when the other fields agree. *)
Lemma matches_run (a : bool) l r s w :
  (if a then RuntimeSql.sameJson l r else mret false) (s, w) = tables_run id (and_sameJson a l r s) w.
Proof.
  destruct a; [|done]. unfold RuntimeSql.sameJson, RuntimeSql.stable, and_sameJson, sameJson, stable, mbind, M_bind.
  destruct (stableJson (JObj l)); [|done]. by destruct (stableJson (JObj r)).
Qed.

Lemma scopedWrite_assert scope input : Postgres.scopedWrite scope input = assertScopedWrite scope input.
Proof. done. Qed.

Lemma scoped_same scope input : scope_of scope input = true → input = scope.
Proof. intros [??]%inScope_true. destruct scope, input. simpl in *. congruence. Qed.

(** ** Creation *)

Lemma create_stored scope input s w :
  scope_admitted (S := database W) scope → id_ok (cc_createdByUserId input) →
  Postgres.createConversation scope input (s, w) =
  stored (λ r, r) (createConversation scope input s) (s, w).
Proof.
  intros Had Huser. apply tenant_stored; [done|]. destruct Had as (Horg & Hws & _).
  rewrite scopedWrite_assert. unfold createConversation, assertScopedWrite.
  destruct (scope_of scope (cc_scope input)) eqn:Hsc; [|done]. rewrite (scoped_same _ _ Hsc).
  unfold first_row, mbind, M_bind, execute_sql. simpl. by rewrite decode_conversation.
Qed.

(** ** Insertion and replay *)

(** The author of a turn of the store: what a replay compares beside the content. *)
Definition memory_author (input : Postgres.turn_input) : AssistantTurn → bool :=
  match input with Postgres.UserTurn i => by_user i | Postgres.AssistantTurnInput i => by_assistant i end.
Definition memory_turn scope (input : Postgres.turn_input) : Z → string → AssistantTurn :=
  match input with Postgres.UserTurn i => user_turn scope i | Postgres.AssistantTurnInput i => queued_turn scope i end.
Definition memory_insert scope (input : Postgres.turn_input) : M store (Result RuntimeTurnInsert) :=
  match input with
  | Postgres.UserTurn i => appendUserTurn scope i
  | Postgres.AssistantTurnInput i => queueAssistantTurn scope i
  end.

Definition input_storable (input : Postgres.turn_input) : Prop :=
  json_faithful (Postgres.ti_content input) ∧
  match input with
  | Postgres.UserTurn i => id_ok (au_actorUserId i)
  | Postgres.AssistantTurnInput i =>
      not_blank (Some (qt_assistantKey i)) ∧ not_blank (qt_openclawSessionRef i) ∧ not_blank (qt_openclawRunRef i)
  end.

Lemma memory_insert_turn scope input :
  memory_insert scope input =
  insert_turn scope (Postgres.ti_scope input) (Postgres.ti_conversation input) (Postgres.ti_key input)
    (Postgres.ti_content input) (memory_author input) (memory_turn scope input).
Proof. by destruct input. Qed.

(** The author fields that only one adapter compares are those of the role. *)
Lemma same_author_memory s input k t :
  runtime_ok s → jm_get k (turns s) = Some t → Postgres.same_author input t = memory_author input t.
Proof.
  intros Hok Ht. destruct (turn_author s t (ok_turn s Hok k t Ht)) as [(Hr & _ & _ & Hk)|(Hr & _ & Ha & _)];
    destruct input; simpl; unfold by_user, by_assistant; rewrite Hr; simpl; [|done|done|].
  - rewrite (bool_decide_true (tn_assistantKey t = None)) by done. by rewrite andb_true_r.
  - by rewrite (bool_decide_true (tn_actorUserId t = None)) by done.
Qed.

Lemma memory_turn_storable scope input now id :
  id_ok (sc_organizationId scope) → id_ok (sc_workspaceId scope) → input_storable input →
  turn_storable (memory_turn scope input now id).
Proof. intros Ho Hw [_ Hi]. destruct input; [by split|]. destruct Hi as (? & ? & ?). by split. Qed.

Lemma existing_turn_inv s org conv key t :
  runtime_ok s → existing_turn org conv key s = Some t →
  jm_get (tn_id t) (turns s) = Some t ∧ tn_organizationId t = org ∧ tn_conversationId t = conv ∧
  tn_idempotencyKey t = key.
Proof.
  intros Hok He. apply find_elem in He as [[k Hk]%elem_of_jm_values Hkey]; [|apply Hok]. bool_hyps.
  repeat match goal with E : String.eqb _ _ = true |- _ => apply String.eqb_eq in E end.
  by rewrite (rows_own tn_id _ _ (ok_turns s Hok) k t Hk).
Qed.

Lemma insert_stored scope input s w :
  scope_admitted (S := database W) scope → tables_ok s → input_storable input →
  Postgres.insertTurn scope input (s, w) =
  stored (write_answer scope (Postgres.ti_scope input) conversationNotFound) (memory_insert scope input s) (s, w).
Proof.
  intros Had Hok Hin. apply tenant_stored; [done|]. destruct Had as (Horg & Hws & _).
  rewrite scopedWrite_assert, memory_insert_turn. unfold insert_turn, assertScopedWrite.
  destruct (scope_of scope (Postgres.ti_scope input)) eqn:Hsc; [|by unfold write_answer; simpl; rewrite Hsc].
  unfold write_answer. rewrite Hsc. pose proof (scoped_same _ _ Hsc) as Escope.
  unfold mbind, M_bind, get_state. rewrite conversation_run by done. unfold conversationForWrite.
  destruct (targeted (cv_in scope) (conversations s) (Postgres.ti_conversation input)) as [[c|]|e] eqn:Hc;
    [|done|by apply targeted_err in Hc as ->].
  destruct (stringify_faithful (Postgres.ti_content input) (s, w) (proj1 Hin)) as (text & -> & Hrec).
  assert (execute_table (Postgres.insert_statement input text) (s, w) =
    insert_turn_row (memory_turn scope input (sequence s + 1)%Z (randomUUID_at (uuids s))) (s, w)) as Hq.
  { destruct input; unfold execute_table, inserted_turn_values, mbind, M_bind, get_state; simpl in *;
      by rewrite Escope, Hrec. }
  unfold insert_turn_row, mbind, M_bind, get_state in Hq. simpl in Hq.
  assert (turn_key (memory_turn scope input (sequence s + 1)%Z (randomUUID_at (uuids s))) =
    (sc_organizationId scope, Postgres.ti_conversation input, Postgres.ti_key input)) as [= Eo Ec Ek]
    by by destruct input.
  rewrite Eo, Ec, Ek in Hq.
  destruct (existing_turn _ _ _ s) as [t|] eqn:Ht; rewrite (first_row_answer _ _ _ _ Hq); cbn [head fmap option_fmap option_map].
  - erewrite first_row_answer by reflexivity. simpl. rewrite scope_eta, Ht. simpl.
    destruct (existing_turn_inv _ _ _ _ _ (tables_runtime s Hok) Ht) as (Hk & Eorg & Econv & _).
    assert (tn_in scope t = true) as ->.
    { apply targeted_some in Hc as [Hc Hcin]. apply inScope_true in Hcin as [_ Hcw].
      destruct (turn_conversation s t (ok_turn s (tables_runtime s Hok) _ t Hk)) as (c' & Hc' & _ & Ew).
      rewrite Econv, Hc in Hc'. injection Hc' as <-. apply inScope_true. split; congruence. }
    simpl. rewrite decode_turn by by eapply tables_turns.
    erewrite same_author_memory by (done || apply Hok). rewrite matches_run.
    by destruct (and_sameJson _ _ _ s) as [[[]|e] s'].
  - simpl. rewrite decode_turn; [done|]. by apply memory_turn_storable.
Qed.

(** ** Transitions *)

Definition scope_context scope : RuntimeControlApplicationContext :=
  mkContext (sc_organizationId scope) (sc_workspaceId scope) (mkActor "" []).

Lemma scoped_update_run q id scope statuses advance next s w :
  execute_table q (s, w) =
    update_turn_row id (sc_organizationId scope) (sc_workspaceId scope) statuses advance next (s, w) →
  first_row q (s, w) =
  match targeted (tn_in scope) (turns s) id with
  | ok (Some t) =>
      if bool_decide (tn_role t = RAssistant) && bool_decide (tn_status t ∈ statuses)
      then let t' := next (sequence s + 1)%Z t in
           (Returned (Some (turn_row t')), (set_turn t' (advance s), w))
      else (Returned None, (s, w))
  | _ => (Returned None, (s, w))
  end.
Proof. intros Hq. rewrite (update_turn_run q id (scope_context scope) statuses advance next s w Hq).
  unfold cx_scope, scope_context. simpl. by rewrite scope_eta. Qed.

Lemma scoped_storable scope s id t :
  tables_ok s → targeted (tn_in scope) (turns s) id = ok (Some t) →
  turn_storable t ∧ tn_id t = id ∧ tn_in scope t = true.
Proof.
  intros Hok Ht. rewrite <-(scope_eta scope) in *. by apply (targeted_storable (scope_context scope) s id t).
Qed.

Lemma unmatched_run scope id settled s w :
  tables_ok s →
  Postgres.unmatched scope id settled (s, w) =
  (Returned (ok match targeted (tn_in scope) (turns s) id with
                | ok (Some t) =>
                    if bool_decide (tn_role t = RAssistant) && bool_decide (tn_status t = settled)
                    then AlreadyFinal t else InvalidState t
                | _ => NotFound
                end), (s, w)).
Proof.
  intros Hok. unfold Postgres.unmatched, mbind, M_bind. rewrite turn_run by done.
  by destruct (targeted _ _ id) as [[t|]|].
Qed.

Lemma append_delta_stored scope id delta s w :
  scope_admitted (S := database W) scope → tables_ok s →
  (∀ t, jm_get id (turns s) = Some t → json_faithful (contentWithDelta (tn_content t) delta)) →
  Postgres.appendAssistantDelta scope (mkDelta id delta) (s, w) =
  stored move_answer (appendAssistantDelta scope (mkDelta id delta) s) (s, w).
Proof.
  intros Had Hok Hjson. apply tenant_stored; [done|].
  unfold appendAssistantDelta, transition_turn, mbind, M_bind, get_state. simpl. rewrite turn_run by done.
  destruct (targeted _ _ id) as [[t|]|e] eqn:Ht; simpl; [|done|by apply targeted_err in Ht as ->].
  destruct (scoped_storable _ _ _ _ Hok Ht) as (Hst & Hid & Hin). pose proof (targeted_some _ _ _ _ Ht) as [Hk _].
  rewrite andb_false_r. simpl. unfold canAppendAssistantDelta, Postgres.is_role.
  destruct (bool_decide (tn_role t = RAssistant)) eqn:Hr; simpl; [|done].
  destruct (match tn_status t with TQueued | TStreaming => true | _ => false end) eqn:Hopen; simpl; [|done].
  destruct (stringify_faithful (contentWithDelta (tn_content t) delta) (s, w) (Hjson t Hk)) as (text & -> & Hrec).
  erewrite scoped_update_run by reflexivity. rewrite Ht, Hr.
  rewrite bool_decide_true by (destruct (tn_status t); set_solver). simpl.
  rewrite decode_turn by by apply stored_transition. by rewrite Hrec.
Qed.

Lemma finalize_stored scope input s w :
  scope_admitted (S := database W) scope → tables_ok s → json_faithful (ft_content input) →
  not_blank (ft_openclawSessionRef input) → not_blank (ft_openclawRunRef input) →
  Postgres.finalizeAssistantTurn scope input (s, w) =
  stored move_answer (finalizeAssistantTurn scope input s) (s, w).
Proof.
  intros Had Hok Hjson Hsession Hrun. apply tenant_stored; [done|].
  destruct input as [id content session run]. simpl in *.
  unfold finalizeAssistantTurn, transition_turn, mbind, M_bind, get_state. simpl.
  erewrite scoped_update_run by reflexivity.
  destruct (targeted (tn_in scope) (turns s) id) as [[t|]|e] eqn:Ht.
  2: { by rewrite unmatched_run, Ht. }
  2: { rewrite unmatched_run, Ht by done. by apply targeted_err in Ht as ->. }
  destruct (scoped_storable _ _ _ _ Hok Ht) as (Hst & Hid & Hin).
  destruct (bool_decide (tn_role t = RAssistant)) eqn:Hr; simpl.
  2: { by rewrite unmatched_run, Ht, Hr. }
  destruct (bool_decide (tn_status t ∈ [TQueued; TStreaming])) eqn:Hopen; simpl.
  - destruct (stringify_faithful content (set_turn (with_status TFinalizing (tn_content t) (sequence s + 1) t) s, w) Hjson)
      as (text & -> & Hrec).
    erewrite scoped_update_run by reflexivity. simpl. unfold targeted. rewrite Hid, jm_get_set_eq.
    replace (tn_in scope _) with true by by symmetry. simpl. rewrite Hr. simpl.
    rewrite decode_turn by (apply stored_final; [done..|]; by apply stored_transition, stored_transition).
    assert (tn_status t = TQueued ∨ tn_status t = TStreaming) as Hq.
    { apply bool_decide_eq_true in Hopen. set_solver. }
    rewrite Hrec. simpl. unfold set_turn, tick. simpl.
    destruct Hq as [-> | ->]; simpl; by rewrite Hid, jm_set_twice.
  - rewrite unmatched_run, Ht, Hr by done. simpl. destruct (tn_status t); simpl in *; done.
Qed.

Lemma fail_stored scope input s w :
  scope_admitted (S := database W) scope → tables_ok s →
  json_faithful (failed_content (xt_errorCode input) (xt_errorMessage input)) →
  Postgres.failAssistantTurn scope input (s, w) = stored move_answer (failAssistantTurn scope input s) (s, w).
Proof.
  intros Had Hok Hjson. apply tenant_stored; [done|]. destruct input as [id code message]. simpl in *.
  unfold failAssistantTurn, transition_turn, mbind, M_bind, get_state. cbn -[failed_content stringify first_row].
  destruct (stringify_faithful (failed_content code message) (s, w) Hjson) as (text & -> & Hrec).
  erewrite scoped_update_run by reflexivity.
  destruct (targeted (tn_in scope) (turns s) id) as [[t|]|e] eqn:Ht.
  2: { by rewrite unmatched_run, Ht. }
  2: { rewrite unmatched_run, Ht by done. by apply targeted_err in Ht as ->. }
  destruct (scoped_storable _ _ _ _ Hok Ht) as (Hst & Hid & Hin).
  destruct (bool_decide (tn_role t = RAssistant)) eqn:Hr; simpl.
  2: { by rewrite unmatched_run, Ht, Hr. }
  destruct (bool_decide (tn_status t ∈ [TQueued; TStreaming; TFinalizing])) eqn:Hopen; simpl.
  - rewrite decode_turn by by apply stored_finalized, stored_transition. rewrite Hrec.
    destruct (tn_status t); simpl in *; done.
  - rewrite unmatched_run, Ht, Hr by done. simpl. destruct (tn_status t); simpl in *; done.
Qed.

(** ** Tool outcomes *)

Lemma insert_receipt_run scope input text s w :
  first_row (InsertOutcome (sc_organizationId scope) (sc_workspaceId scope) (so_turnId input) (so_toolName input)
               (so_toolCallId input) (so_idempotencyKey input) text (default None (so_targetRef input))) (s, w) =
  match existing_outcome (so_turnId input) (so_toolCallId input) s with
  | Some _ => (Returned None, (s, w))
  | None =>
      let o := mkOutcome (randomUUID_at (uuids s)) (sc_organizationId scope) (sc_workspaceId scope) (so_turnId input)
                 (so_toolName input) (so_toolCallId input) (so_idempotencyKey input) OStarted (json_record text) []
                 (default None (so_targetRef input)) (sql_now s) (sql_now s) None in
      (Returned (Some (outcome_row o)), (set_outcome o (draw (tick s)), w))
  end.
Proof.
  unfold first_row, execute_sql, mbind, M_bind. simpl. unfold execute_table, mbind, M_bind, get_state. cbn [fst snd].
  by destruct (existing_outcome _ _ s).
Qed.

Lemma start_stored scope input s w :
  scope_admitted (S := database W) scope → tables_ok s →
  json_faithful (so_requestSummary input) → not_blank (default None (so_targetRef input)) →
  Postgres.startToolOutcome scope input (s, w) =
  stored (write_answer scope (so_scope input) turnNotFound) (startToolOutcome scope input s) (s, w).
Proof.
  intros Had Hok Hjson Htarget. apply tenant_stored; [done|]. destruct Had as (Horg & Hws & _).
  rewrite scopedWrite_assert. unfold startToolOutcome, assertScopedWrite.
  destruct (scope_of scope (so_scope input)) eqn:Hsc; [|by unfold write_answer; simpl; rewrite Hsc].
  unfold write_answer. rewrite Hsc. pose proof (scoped_same _ _ Hsc) as Escope.
  unfold mbind, M_bind, get_state. rewrite turn_run by done.
  destruct (targeted (tn_in scope) (turns s) (so_turnId input)) as [[t|]|e] eqn:Ht;
    [|done|by apply targeted_err in Ht as ->].
  unfold Postgres.is_role. destruct (bool_decide (tn_role t = RAssistant)) eqn:Hr; [|done]. cbn [negb].
  destruct (stringify_faithful (so_requestSummary input) (s, w) Hjson) as (text & -> & Hrec).
  rewrite Escope, insert_receipt_run, Hrec.
  destruct (existing_outcome _ _ s) as [o|] eqn:Ho; simpl.
  - rewrite scope_eta, Ho. simpl.
    destruct (existing_outcome_inv _ _ _ _ (tables_runtime s Hok) Ho) as (Hk & Hturn & _).
    assert (oc_in scope o = true) as ->.
    { apply targeted_some in Ht as [Ht Htin].
      destruct (outcome_turn s o (ok_outcome s (tables_runtime s Hok) _ _ Hk)) as (t' & Ht' & _ & Eo & Ew).
      rewrite Hturn, Ht in Ht'. injection Ht' as <-. unfold oc_in. by rewrite <-Eo, <-Ew. }
    simpl. rewrite decode_outcome by by eapply tables_outcomes. rewrite matches_run.
    destruct (and_sameJson _ _ _ s) as [[[]|e] s']; simpl; [|done..]. destruct (so_targetRef input) as [ref|]; [|done]. by destruct (bool_decide (ref = oc_targetRef o)).
  - by rewrite decode_outcome by by split.
Qed.

Lemma finish_in_scope_run scope id status text target s w :
  first_row (FinishOutcomeInScope id (sc_organizationId scope) (sc_workspaceId scope) status text target) (s, w) =
  match jm_get id (outcomes s) with
  | Some o =>
      if oc_in scope o && bool_decide (oc_status o = OStarted) then
        let o' := finished_values status text target (sql_now s) o in
        (Returned (Some (outcome_row o')), (set_outcome o' (tick s), w))
      else (Returned None, (s, w))
  | None => (Returned None, (s, w))
  end.
Proof.
  unfold first_row, execute_sql, mbind, M_bind. simpl. unfold execute_table, mbind, M_bind, get_state. cbn [fst snd].
  unfold finish_outcome_row, mbind, M_bind, get_state. cbn [fst snd]. rewrite scope_eta.
  destruct (jm_get id (outcomes s)) as [o|]; [|done]. by destruct (oc_in scope o && bool_decide (oc_status o = OStarted)).
Qed.

Lemma and_sameJson_store a l r s : (and_sameJson a l r s).2 = s.
Proof.
  destruct a; [|done]. unfold and_sameJson, sameJson, stable, mbind, M_bind.
  destruct (stableJson (JObj l)); [|done]. by destruct (stableJson (JObj r)).
Qed.

Lemma finish_stored scope input s w :
  scope_admitted (S := database W) scope → tables_ok s →
  json_faithful (fi_resultSummary input) → not_blank (default None (fi_targetRef input)) →
  Postgres.finishToolOutcome scope input (s, w) = stored move_answer (finishToolOutcome scope input s) (s, w).
Proof.
  intros Had Hok Hjson Htarget. apply tenant_stored; [done|].
  unfold finishToolOutcome, mbind, M_bind, get_state. erewrite first_row_answer by reflexivity.
  simpl. rewrite scope_eta. destruct (existing_outcome _ _ s) as [o|] eqn:Ho; [|done].
  destruct (existing_outcome_inv _ _ _ _ (tables_runtime s Hok) Ho) as (Hk & _ & _).
  simpl. destruct (oc_in scope o) eqn:Hin; [|done]. simpl.
  assert (outcome_storable o) as Hst by by eapply tables_outcomes.
  rewrite decode_outcome, matches_run by done.
  pose proof (and_sameJson_store (String.eqb (oc_toolName o) (fi_toolName input)
                         && String.eqb (oc_idempotencyKey o) (fi_idempotencyKey input))
             (oc_requestSummary o) (fi_requestSummary input) s) as Hs.
  destruct (and_sameJson _ _ _ s) as [[[]|e] s1]; simpl in *; [subst s1|done..].
  destruct (bool_decide (oc_status o = OStarted)) eqn:Hstarted; simpl.
  - destruct (stringify_faithful (fi_resultSummary input) (s, w) Hjson) as (text & -> & Hrec).
    rewrite finish_in_scope_run, Hk, Hin, Hstarted. cbn beta iota zeta delta [andb]. rewrite decode_outcome.
    + simpl. unfold finished_values, finished_outcome. by rewrite Hrec.
    + destruct Hst as [? ? Hb]. split; simpl; [done..|]. by destruct (fi_targetRef input) as [[]|].
  - rewrite matches_run. by destruct (and_sameJson _ _ _ s) as [[[]|e] s1].
Qed.

(** ** Lists *)

Section lists.
Context `{!LocaleOrder}.

Lemma find_open_stored scope input s w :
  scope_admitted (S := database W) scope → tables_ok s → clocked_store s →
  Postgres.findOpenConversation scope input (s, w) =
  stored (λ r, r) (Returned (findOpenConversation scope input s), s) (s, w).
Proof.
  intros Had Hok Hcl. apply tenant_stored; [done|]. unfold mbind, M_bind.
  erewrite first_row_answer by reflexivity. simpl. rewrite scope_eta.
  replace (mkFindOpen _ _ _) with input by by destruct input.
  rewrite (orders_agree cv_createdAt cv_id) by (eapply clocked_values; [apply Hok|apply Hcl]).
  unfold findOpenConversation. destruct (sort_created _ _ _) as [|c l] eqn:Hl; [done|].
  simpl. unfold mbind, M_bind. rewrite decode_conversation; [done|].
  assert (c ∈ sort_created cv_createdAt cv_id
    (filter (λ c, open_match scope input c = true) (jm_values (conversations s)))) as Hin by (rewrite Hl; left).
  unfold sort_created in Hin. rewrite merge_sort_Permutation in Hin.
  apply list_elem_of_filter in Hin as [_ [k Hk]%elem_of_jm_values]; [|apply Hok].
  by eapply tables_conversations.
Qed.

Lemma map_rows_run {A} (decode : QueryRow → M (database W) A) (row : A → QueryRow) l db :
  (∀ x, x ∈ l → decode (row x) db = (Returned x, db)) → Postgres.map_rows decode (row <$> l) db = (Returned l, db).
Proof.
  induction l as [|x l IH]; intros Hdec; [done|]. rewrite fmap_cons. cbn [Postgres.map_rows]. unfold mbind, M_bind.
  rewrite Hdec by by left. rewrite IH; [done|]. intros y Hy. apply Hdec. by right.
Qed.

Lemma list_turns_stored scope conversationId s w :
  scope_admitted (S := database W) scope → tables_ok s → clocked_store s →
  Postgres.listTurns scope conversationId (s, w) =
  stored (list_answer scope conversationId s) (Returned (listTurns scope conversationId s), s) (s, w).
Proof.
  intros Had Hok Hcl. apply tenant_stored; [done|]. unfold mbind, M_bind, list_answer, listTurns, targeted.
  rewrite conversation_run by done. unfold targeted.
  destruct (jm_get conversationId (conversations s)) as [c|] eqn:Hc; [|done].
  destruct (cv_in scope c); [|done]. cbn -[Postgres.map_rows sort_created].
  unfold execute_table, mbind, M_bind, get_state. cbn -[Postgres.map_rows sort_created]. rewrite scope_eta.
  rewrite (orders_agree tn_createdAt tn_id) by (eapply clocked_values; [apply Hok|apply Hcl]).
  rewrite map_rows_run; [done|]. intros t Hin. apply decode_turn.
  unfold sort_created in Hin. rewrite merge_sort_Permutation in Hin.
  apply list_elem_of_filter in Hin as [_ [k Hk]%elem_of_jm_values]; [|apply Hok]. by eapply tables_turns.
Qed.

(** *** The runs of a task *)

Lemma joined_turn_run t columns (db : database W) :
  turn_storable t →
  rowToTurn (("id", column "turn_id" (run_columns t ++ columns)) :: run_columns t ++ columns) db = (Returned t, db).
Proof. intros Hst. rewrite <-(decode_turn t db Hst). reflexivity. Qed.

Lemma joined_outcome_run t o (db : database W) :
  outcome_storable o →
  rowToToolOutcome (Postgres.outcome_columns (run_columns t ++ run_outcome_columns o)) db = (Returned o, db).
Proof. intros Hst. rewrite <-(decode_outcome o db Hst). reflexivity. Qed.

Lemma add_outcome_run t o runs pre (db : database W) :
  turn_storable t → outcome_storable o → default (t, []) (jm_get (tn_id t) runs) = (t, pre) →
  Postgres.add_run runs (run_columns t ++ run_outcome_columns o) db =
  (Returned (jm_set (tn_id t) (t, pre ++ [o]) runs), db).
Proof.
  intros Ht Ho Hrun. unfold Postgres.add_run, mbind, M_bind. rewrite joined_turn_run by done.
  cbn beta iota zeta. rewrite Hrun.
  change (absent (column "outcome_id" (run_columns t ++ run_outcome_columns o))) with false. cbn beta iota.
  by rewrite joined_outcome_run.
Qed.

Lemma collect_outcomes_run t os runs pre (db : database W) :
  turn_storable t → Forall outcome_storable os →
  Postgres.collect_runs ((λ o, run_columns t ++ run_outcome_columns o) <$> os) (jm_set (tn_id t) (t, pre) runs) db =
  (Returned (jm_set (tn_id t) (t, pre ++ os) runs), db).
Proof.
  intros Ht Hos. revert pre. induction Hos as [|o os Ho Hos IH]; intros pre; [by rewrite app_nil_r|].
  rewrite fmap_cons. cbn [Postgres.collect_runs]. unfold mbind, M_bind.
  rewrite (add_outcome_run t o _ pre) by (try done; by rewrite jm_get_set_eq).
  rewrite jm_set_twice, IH. by rewrite <-app_assoc.
Qed.

Lemma joined_storable s t : tables_ok s → Forall outcome_storable (joined_outcomes s t).
Proof.
  intros Hok. apply Forall_forall. intros o Ho. unfold joined_outcomes, sort_rows in Ho.
  rewrite merge_sort_Permutation in Ho. apply list_elem_of_filter in Ho as [_ [k Hk]%elem_of_jm_values]; [|apply Hok].
  by eapply tables_outcomes.
Qed.

Lemma collect_turn_run s t runs (db : database W) :
  tables_ok s → turn_storable t → jm_get (tn_id t) runs = None →
  Postgres.collect_runs (run_rows s t) runs db =
  (Returned (jm_set (tn_id t) (t, joined_outcomes s t) runs), db).
Proof.
  intros Hok Ht Hnew. unfold run_rows. pose proof (joined_storable s t Hok) as Hos.
  destruct (joined_outcomes s t) as [|o os].
  - cbn [Postgres.collect_runs]. unfold Postgres.add_run, mbind, M_bind. rewrite joined_turn_run by done.
    change (absent (column "outcome_id" (run_columns t ++ no_outcome_columns))) with true. cbn. by rewrite Hnew.
  - rewrite fmap_cons. cbn [Postgres.collect_runs]. unfold mbind, M_bind. apply Forall_cons_1 in Hos as [Ho Hos].
    rewrite (add_outcome_run t o _ []) by (try done; by rewrite Hnew). by rewrite collect_outcomes_run.
Qed.

Lemma collect_app rows rows' runs (db : database W) :
  Postgres.collect_runs (rows ++ rows') runs db =
  match Postgres.collect_runs rows runs db with
  | (Returned runs, db) => Postgres.collect_runs rows' runs db
  | thrown => thrown
  end.
Proof.
  revert runs db. induction rows as [|row rows IH]; intros runs db; [done|]. simpl. unfold mbind, M_bind.
  destruct (Postgres.add_run runs row db) as [[r|e] db']; [apply IH|done].
Qed.

Lemma collect_runs_run s ts runs (db : database W) :
  tables_ok s → Forall turn_storable ts → NoDup (tn_id <$> ts) →
  (∀ t, t ∈ ts → jm_get (tn_id t) runs = None) →
  ∃ runs', Postgres.collect_runs (mjoin (run_rows s <$> ts)) runs db = (Returned runs', db) ∧
    jm_values runs' = jm_values runs ++ ((λ t, (t, joined_outcomes s t)) <$> ts).
Proof.
  intros Hok Hts. revert runs. induction Hts as [|t ts Ht Hts IH]; intros runs Hnd Hnew.
  - exists runs. by rewrite app_nil_r.
  - rewrite fmap_cons in *. apply NoDup_cons in Hnd as [Hnin Hnd]. change (mjoin (run_rows s t :: (run_rows s <$> ts))) with (run_rows s t ++ mjoin (run_rows s <$> ts)).
    rewrite collect_app, collect_turn_run;
      [|done|done|apply Hnew; by left].
    edestruct (IH (jm_set (tn_id t) (t, joined_outcomes s t) runs)) as (runs' & -> & Hvals); [done| |].
    { intros t' Hin. rewrite jm_get_set_ne; [apply Hnew; by right|].
      intros E. apply Hnin. rewrite <-E. by apply list_elem_of_fmap_2. }
    exists runs'. split; [done|]. rewrite Hvals, jm_values_set_fresh by by apply Hnew; left.
    by rewrite <-app_assoc.
Qed.

(** [like] with a pattern of plain characters between two [%] is [includes]. *)
Definition plain_char (c : ascii) : bool :=
  negb (Ascii.eqb c "%") && negb (Ascii.eqb c "_") && negb (Ascii.eqb c "\").

Lemma like_any_end text : sql_like "%" text = true.
Proof. induction text as [|c text IH]; [done|]. simpl in *. exact IH. Qed.

Lemma like_prefix task text :
  string_forall plain_char task = true → sql_like (task +:+ "%") text = starts_with task text.
Proof.
  revert text. induction task as [|c task IH]; intros text Hp; [by rewrite like_any_end; destruct text|].
  simpl in Hp. apply andb_prop in Hp as [Hc Hp]. unfold plain_char in Hc. bool_hyps.
  change (String c task +:+ "%") with (String c (task +:+ "%")). cbn [sql_like].
  repeat match goal with E : Ascii.eqb _ _ = false |- _ => rewrite E; clear E end.
  destruct text as [|d text]; [done|]. rewrite IH by done. unfold starts_with. simpl.
  destruct (Ascii.eqb_spec c d) as [->|Hne]; simpl.
  - by destruct (ascii_dec d d).
  - by destruct (ascii_dec c d).
Qed.

Lemma like_includes task text :
  string_forall plain_char task = true → sql_like ("%" +:+ task +:+ "%") text = includes task text.
Proof.
  intros Hp. change ("%" +:+ task +:+ "%") with (String "%" (task +:+ "%")).
  induction text as [|c text IH].
  - cbn [sql_like]. change (Ascii.eqb "%" "%") with true. cbn iota. by rewrite like_prefix.
  - cbn [sql_like] in *. change (Ascii.eqb "%" "%") with true in *. cbn iota in *. rewrite like_prefix by done.
    cbn [includes]. by rewrite <-IH.
Qed.

(** ** The two lists of runs *)

Lemma filter_option_total {A} (p : A → option bool) (b : A → bool) l :
  (∀ x, x ∈ l → p x = Some (b x)) → filter_option p l = Some (filter (λ x, b x = true) l).
Proof.
  induction l as [|x l IH]; intros Hp; [done|]. simpl. rewrite (Hp x), IH; [|intros; apply Hp; by right|by left].
  rewrite filter_cons. by destruct (b x).
Qed.

(** The texts in which a task is looked up agree: PostgreSQL's text of a content
    mentions the task when its JSON text does. *)
Definition texts_agree (taskId : string) s : Prop :=
  string_forall plain_char taskId = true ∧
  ∀ k t, jm_get k (turns s) = Some t → ∃ text, jsonStringify (JObj (tn_content t)) = Some (Some text) ∧
    includes taskId text = includes taskId (jsonb_text (tn_content t)).

(** Records of a map have ids of their own. *)
Lemma ids_distinct {A} (key : A → string) m n (p : A → Prop) `{!∀ x, Decision (p x)} :
  rows_ok key m n → NoDup (key <$> filter p (jm_values m)).
Proof.
  intros [Hwf Hown _].
  assert (key <$> jm_values m = jm_keys m) as Hkeys.
  { unfold jm_values, jm_keys. rewrite <-list_fmap_compose. apply list_fmap_ext. intros i [k x] Hi. simpl.
    apply Hown, jm_get_entry; [done|]. by eapply list_elem_of_lookup_2. }
  eapply sublist_NoDup; [|apply fmap_sublist, sublist_filter]. by rewrite Hkeys.
Qed.

Lemma joined_outcomes_of scope s t :
  tables_ok s → clocked_store s → tn_in scope t = true →
  joined_outcomes s t = sort_created oc_createdAt oc_id (outcomes_of scope (tn_id t) s).
Proof.
  intros Hok Hcl Hin. unfold joined_outcomes, outcomes_of.
  rewrite (orders_agree oc_createdAt oc_id) by (eapply clocked_values; [apply Hok|apply Hcl]).
  apply inScope_true in Hin as [-> ->]. rewrite scope_eta. f_equal. apply list_filter_iff. intros o.
  by rewrite andb_comm.
Qed.

Lemma existsb_sorted {A} (created : A → Z) (key : A → string) p l :
  existsb p (sort_created created key l) = existsb p l.
Proof.
  apply eq_true_iff_eq. rewrite !existsb_exists. unfold sort_created.
  split; intros (x & Hx & Hp); exists x; (split; [|done]); apply list_elem_of_In in Hx; apply list_elem_of_In;
    [by rewrite merge_sort_Permutation in Hx|by rewrite merge_sort_Permutation].
Qed.

Lemma list_runs_stored scope taskId s w :
  scope_admitted (S := database W) scope → tables_ok s → clocked_store s → texts_agree taskId s →
  Postgres.listTaskAssistantRuns scope taskId (s, w) =
  stored (λ r, r) (listTaskAssistantRuns scope taskId s) (s, w).
Proof.
  intros Had Hok Hcl [Hplain Htexts]. apply tenant_stored; [done|].
  unfold listTaskAssistantRuns, mbind, M_bind, get_state. cbn -[Postgres.collect_runs run_rows sort_created mjoin].
  unfold execute_table, mbind, M_bind, get_state. cbn -[Postgres.collect_runs run_rows sort_created mjoin].
  set (selected := filter (λ t, run_selected _ _ taskId s t = true) (jm_values (turns s))).
  assert (filter_option (mentions_task scope taskId s)
            (filter (λ t, tn_in scope t && bool_decide (tn_role t = RAssistant) = true) (jm_values (turns s))) =
          Some selected) as ->.
  { erewrite (filter_option_total _ (run_selected (sc_organizationId scope) (sc_workspaceId scope) taskId s)).
    - f_equal. unfold selected. rewrite list_filter_filter_l; [done|]. intros t.
      unfold run_selected. rewrite scope_eta. by intros [? _]%andb_prop.
    - intros t [Hsel [k Hk]%elem_of_jm_values]%list_elem_of_filter; [|apply Hok].
      destruct (Htexts k t Hk) as (text & Htext & Hsame). unfold mentions_task, run_selected. rewrite scope_eta, Hsel.
      rewrite Htext, like_includes, <-Hsame by done. simpl.
      apply andb_prop in Hsel as [Hin _]. by rewrite (joined_outcomes_of scope), existsb_sorted by done. }
  rewrite (orders_agree tn_createdAt tn_id) by (eapply clocked_values; [apply Hok|apply Hcl]).
  assert (∀ t, t ∈ sort_created tn_createdAt tn_id selected →
    tn_in scope t = true ∧ ∃ k, jm_get k (turns s) = Some t) as Hsel.
  { intros t Ht. unfold sort_created in Ht. rewrite merge_sort_Permutation in Ht.
    apply list_elem_of_filter in Ht as [Hrun Ht]. apply elem_of_jm_values in Ht; [|apply Hok]. split; [|done].
    unfold run_selected in Hrun. rewrite scope_eta in Hrun. by bool_hyps. }
  destruct (collect_runs_run s (sort_created tn_createdAt tn_id selected) [] (s, w)) as (runs & -> & Hvals); [done|..].
  - apply Forall_forall. intros t (_ & k & Hk)%Hsel. by eapply tables_turns.
  - unfold sort_created, selected. rewrite merge_sort_Permutation. by eapply ids_distinct, ok_turns, tables_runtime.
  - done.
  - rewrite Hvals. simpl. erewrite list_fmap_ext; [reflexivity|]. intros i t Ht. simpl.
    by rewrite (joined_outcomes_of scope) by (done || apply Hsel; by eapply list_elem_of_lookup_2).
Qed.

End lists.

End ports.
