(* ===== verification/RuntimeAdapters.v ===== *)
(** * Histories of calls through the store port

    Calls of the port as data, what the PostgreSQL adapter answers for what the
    in-memory adapter answers, and the simulation of whole histories. *)
From S2P Require Import Prelude JsString JsValue JsMap SharedKernel Effects DevBoardDomain JsText.
From S2P Require Import RuntimeDomain RuntimeStore RuntimeInvariant.
From S2P Require Import TenantContext RuntimeSql Authorization RuntimeLifecycle RuntimeTables RuntimeRefine.
From S2P Require Import RuntimePostgres RuntimePorts.
Import InMemoryRuntimeConversationStore.

(** ** Calls and answers *)

Inductive port_call : Type :=
| WriteCall (c : runtime_call)
| FindOpenConversation (input : FindOpenRuntimeConversation)
| ListTurns (conversationId : string)
| ListTaskAssistantRuns (taskId : string).

Inductive port_answer : Type :=
| AnsConversation (r : Result AssistantConversation)
| AnsTurnInsert (r : Result RuntimeTurnInsert)
| AnsTurnTransition (r : Result RuntimeTurnTransition)
| AnsOutcomeInsert (r : Result RuntimeToolOutcomeInsert)
| AnsOutcomeTransition (r : Result RuntimeToolOutcomeTransition)
| AnsOpen (r : Result (option AssistantConversation))
| AnsTurns (r : Result (list AssistantTurn))
| AnsRuns (r : Result (list RuntimeTaskAssistantRun)).

Definition answering {S A B} (k : A → B) (m : M S A) : M S B := r ← m; mret (k r).

(** A call, through the port. *)
Definition port_run {S} `{RuntimeConversationStore S} (scope : WorkspaceScope) (c : port_call) : M S port_answer :=
  match c with
  | WriteCall (CreateConversation input) => answering AnsConversation (RuntimePostgres.createConversation scope input)
  | WriteCall (AppendUserTurn input) => answering AnsTurnInsert (RuntimePostgres.appendUserTurn scope input)
  | WriteCall (QueueAssistantTurn input) => answering AnsTurnInsert (RuntimePostgres.queueAssistantTurn scope input)
  | WriteCall (AppendAssistantDelta input) => answering AnsTurnTransition (RuntimePostgres.appendAssistantDelta scope input)
  | WriteCall (FinalizeAssistantTurn input) => answering AnsTurnTransition (RuntimePostgres.finalizeAssistantTurn scope input)
  | WriteCall (FailAssistantTurn input) => answering AnsTurnTransition (RuntimePostgres.failAssistantTurn scope input)
  | WriteCall (StartToolOutcome input) => answering AnsOutcomeInsert (RuntimePostgres.startToolOutcome scope input)
  | WriteCall (FinishToolOutcome input) => answering AnsOutcomeTransition (RuntimePostgres.finishToolOutcome scope input)
  | FindOpenConversation input => answering AnsOpen (RuntimePostgres.findOpenConversation scope input)
  | ListTurns conversationId => answering AnsTurns (RuntimePostgres.listTurns scope conversationId)
  | ListTaskAssistantRuns taskId => answering AnsRuns (RuntimePostgres.listTaskAssistantRuns scope taskId)
  end.

Definition input_scope (c : runtime_call) : WorkspaceScope :=
  match c with
  | CreateConversation input => cc_scope input
  | AppendUserTurn input => au_scope input
  | QueueAssistantTurn input => qt_scope input
  | StartToolOutcome input => so_scope input
  | _ => mkScope "" ""
  end.

(** What the PostgreSQL adapter answers when the in-memory one answers [a]. *)
Definition observed (scope : WorkspaceScope) (c : port_call) (s : store) (a : port_answer) : port_answer :=
  match a, c with
  | AnsTurnInsert r, WriteCall c => AnsTurnInsert (write_answer scope (input_scope c) conversationNotFound r)
  | AnsOutcomeInsert r, WriteCall c => AnsOutcomeInsert (write_answer scope (input_scope c) turnNotFound r)
  | AnsTurnTransition r, _ => AnsTurnTransition (move_answer r)
  | AnsOutcomeTransition r, _ => AnsOutcomeTransition (move_answer r)
  | AnsTurns r, ListTurns conversationId => AnsTurns (list_answer scope conversationId s r)
  | _, _ => a
  end.

(** ... and when it throws. *)
Definition failed_answer (c : port_call) (e : exn) : port_answer :=
  let d := Postgres.store_failure (mapDatabaseError e) in
  match c with
  | WriteCall (CreateConversation _) => AnsConversation (err d)
  | WriteCall (AppendUserTurn _ | QueueAssistantTurn _) => AnsTurnInsert (err d)
  | WriteCall (AppendAssistantDelta _ | FinalizeAssistantTurn _ | FailAssistantTurn _) => AnsTurnTransition (err d)
  | WriteCall (StartToolOutcome _) => AnsOutcomeInsert (err d)
  | WriteCall (FinishToolOutcome _) => AnsOutcomeTransition (err d)
  | FindOpenConversation _ => AnsOpen (err d)
  | ListTurns _ => AnsTurns (err d)
  | ListTaskAssistantRuns _ => AnsRuns (err d)
  end.

(** A call whose values the database gives back as they are. *)
Definition storable `{Jsonb} `{OpaqueTexts} (c : port_call) (s : store) : Prop :=
  match c with
  | WriteCall (CreateConversation input) => id_ok (cc_createdByUserId input)
  | WriteCall (AppendUserTurn input) => input_storable (Postgres.UserTurn input)
  | WriteCall (QueueAssistantTurn input) => input_storable (Postgres.AssistantTurnInput input)
  | WriteCall (AppendAssistantDelta input) =>
      ∀ t, jm_get (ad_turnId input) (turns s) = Some t →
        json_faithful (contentWithDelta (tn_content t) (ad_deltaText input))
  | WriteCall (FinalizeAssistantTurn input) =>
      json_faithful (ft_content input) ∧ not_blank (ft_openclawSessionRef input) ∧
      not_blank (ft_openclawRunRef input)
  | WriteCall (FailAssistantTurn input) =>
      json_faithful (failed_content (xt_errorCode input) (xt_errorMessage input))
  | WriteCall (StartToolOutcome input) =>
      json_faithful (so_requestSummary input) ∧ not_blank (default None (so_targetRef input))
  | WriteCall (FinishToolOutcome input) =>
      json_faithful (fi_resultSummary input) ∧ not_blank (default None (fi_targetRef input))
  | FindOpenConversation _ | ListTurns _ => True
  | ListTaskAssistantRuns taskId => texts_agree taskId s
  end.

Section adapters.
Context {W : Type} `{NodeRuntime} `{NodeDates} `{OpaqueTexts} `{TenantDatabase} `{Jsonb} `{!LocaleOrder}.
Implicit Types (scope : WorkspaceScope) (s : store) (w : W).

(** ** One call *)

(** The answer of a call that mirrors an in-memory run, wrapped. *)
Lemma stored_answering {A B} (k : Result B → port_answer) (k' : Result A → port_answer) (f : Result A → Result B)
    (m : M (database W) (Result B)) (m' : M store (Result A)) scope c s w :
  m (s, w) = stored f (m' s) (s, w) →
  (∀ r, k (f r) = observed scope c s (k' r)) →
  (∀ e, k (err (Postgres.store_failure (mapDatabaseError e))) = failed_answer c e) →
  answering k m (s, w) =
  match answering k' m' s with
  | (Returned a, s') => (Returned (observed scope c s a), (s', w))
  | (Thrown e, _) => (Returned (failed_answer c e), (s, w))
  end.
Proof.
  intros Hm Hk He. unfold answering, mbind, M_bind. rewrite Hm.
  destruct (m' s) as [[r|e] s']; simpl; [by rewrite Hk|by rewrite He].
Qed.

Lemma port_call_agrees scope c s w :
  scope_admitted (S := database W) scope → tables_ok s → clocked_store s → storable c s →
  port_run scope c (s, w) =
  match port_run scope c s with
  | (Returned a, s') => (Returned (observed scope c s a), (s', w))
  | (Thrown e, _) => (Returned (failed_answer c e), (s, w))
  end.
Proof.
  intros Had Hok Hcl Hst.
  destruct c as [[]| | |]; simpl in Hst; unfold port_run;
    (eapply stored_answering; [|intros r; reflexivity|intros e; reflexivity]).
  - by apply create_stored.
  - by apply (insert_stored scope (Postgres.UserTurn input)).
  - by apply (insert_stored scope (Postgres.AssistantTurnInput input)).
  - destruct input. by apply append_delta_stored.
  - destruct Hst as (? & ? & ?). by apply finalize_stored.
  - by apply fail_stored.
  - destruct Hst as [? ?]. by apply start_stored.
  - destruct Hst as [? ?]. by apply finish_stored.
  - by apply find_open_stored.
  - by apply list_turns_stored.
  - by apply list_runs_stored.
Qed.

(** ** The rows stay storable *)

Record rows_storable s : Prop := {
  storable_conversations k c : jm_get k (conversations s) = Some c → conversation_storable c;
  storable_turns k t : jm_get k (turns s) = Some t → turn_storable t;
  storable_outcomes k o : jm_get k (outcomes s) = Some o → outcome_storable o;
}.

Lemma storable_tables s : runtime_ok s → rows_storable s → tables_ok s.
Proof. intros Hok [Hc Ht Ho]. by split. Qed.

Lemma storable_set_conversation c s : conversation_storable c → rows_storable s → rows_storable (set_conversation c s).
Proof.
  intros Hc [Rc Rt Ro]. split; [|done|done]. intros k x [[-> ->]|[_ Hk]]%jm_get_set_Some; [done|by eapply Rc].
Qed.
Lemma storable_set_turn t s : turn_storable t → rows_storable s → rows_storable (set_turn t s).
Proof.
  intros Ht [Rc Rt Ro]. split; [done| |done]. intros k x [[-> ->]|[_ Hk]]%jm_get_set_Some; [done|by eapply Rt].
Qed.
Lemma storable_set_outcome o s : outcome_storable o → rows_storable s → rows_storable (set_outcome o s).
Proof.
  intros Ho [Rc Rt Ro]. split; [done|done|]. intros k x [[-> ->]|[_ Hk]]%jm_get_set_Some; [done|by eapply Ro].
Qed.
Lemma storable_clock s n m :
  rows_storable s → rows_storable (mkStore (conversations s) (turns s) (outcomes s) n m).
Proof. by intros [Rc Rt Ro]. Qed.

Lemma transition_storable scope id settled admits next s :
  rows_storable s → (∀ now t, turn_storable t → turn_storable (next now t)) →
  wp (transition_turn scope id settled admits next) (λ _, rows_storable) s.
Proof.
  intros Hs Hnext. unfold transition_turn. repeat store_step; try done.
  apply storable_set_turn; [|by apply storable_clock]. apply Hnext.
  match goal with Ht : targeted _ _ _ = _ |- _ => apply targeted_some in Ht as [Ht _] end.
  by eapply storable_turns.
Qed.

Lemma insert_storable scope input s :
  id_ok (sc_organizationId scope) → id_ok (sc_workspaceId scope) → rows_storable s → input_storable input →
  wp (memory_insert scope input) (λ _, rows_storable) s.
Proof.
  intros Ho Hw Hs Hin. rewrite memory_insert_turn. unfold insert_turn. repeat store_step; try done.
  apply storable_set_turn; [by apply memory_turn_storable|]. by apply (storable_clock s).
Qed.

Lemma call_storable scope (c : runtime_call) s :
  id_ok (sc_organizationId scope) → id_ok (sc_workspaceId scope) → tables_ok s → storable (WriteCall c) s →
  rows_storable (store_after scope c s).
Proof.
  intros Ho Hw Hok Hst. assert (rows_storable s) as Hs by by destruct Hok.
  destruct c; simpl in Hst |- *; apply wp_after.
  - unfold createConversation. repeat store_step; [|done].
    apply storable_set_conversation; [by split|]. by apply (storable_clock s).
  - by apply (insert_storable scope (Postgres.UserTurn input)).
  - by apply (insert_storable scope (Postgres.AssistantTurnInput input)).
  - apply transition_storable; [done|]. intros now t. apply stored_transition.
  - destruct Hst as (_ & ? & ?). apply transition_storable; [done|]. intros now t Ht.
    by apply stored_final, stored_transition.
  - apply transition_storable; [done|]. intros now t Ht. by apply stored_finalized, stored_transition.
  - destruct Hst as [_ Htarget]. unfold startToolOutcome. repeat store_step; try done.
    apply storable_set_outcome; [by split|]. by apply (storable_clock s).
  - destruct Hst as [_ Htarget]. unfold finishToolOutcome. repeat store_step; try done.
    apply storable_set_outcome; [|by apply storable_clock].
    match goal with Hf : existing_outcome _ _ _ = Some ?o |- _ =>
      assert (outcome_storable o) as [? ? ?] by by eapply existing_outcome_storable end.
    split; simpl; [done..|]. by destruct (fi_targetRef input) as [[]|].
Qed.

(** ** Histories *)

(** The calls one after the other, and what each answered; an exception that
    leaves a call is caught by its caller. *)
Fixpoint run_calls {S} `{RuntimeConversationStore S} (calls : list (WorkspaceScope * port_call)) (s : S)
    : list (outcome port_answer) * S :=
  match calls with
  | [] => ([], s)
  | (scope, c) :: calls =>
      let run := port_run scope c s in
      let rest := run_calls calls run.2 in
      (run.1 :: rest.1, rest.2)
  end.

(** The answers of the PostgreSQL adapter for those of the in-memory one. *)
Fixpoint observed_answers (calls : list (WorkspaceScope * port_call)) s : list (outcome port_answer) :=
  match calls with
  | [] => []
  | (scope, c) :: calls =>
      let run := port_run scope c s in
      Returned match run.1 with
               | Returned a => observed scope c s a
               | Thrown e => failed_answer c e
               end :: observed_answers calls run.2
  end.

(** Every call of the history has an admitted scope and storable values, in the
    state it meets. *)
Fixpoint storable_history (calls : list (WorkspaceScope * port_call)) s : Prop :=
  match calls with
  | [] => True
  | (scope, c) :: calls =>
      scope_admitted (S := database W) scope ∧ storable c s ∧ storable_history calls (port_run scope c s).2
  end.

(** An in-memory call that throws has changed nothing. *)
Definition unchanged_if_thrown {A} s (r : outcome A) (s' : store) : Prop :=
  match r with Returned _ => True | Thrown _ => s' = s end.

Lemma answering_inv {S A B} (k : A → B) (m : M S A) (x : S) :
  answering k m x =
  match m x with (Returned a, x') => (Returned (k a), x') | (Thrown e, x') => (Thrown e, x') end.
Proof. done. Qed.

Lemma thrown_unchanged scope c s e s' : port_run scope c s = (Thrown e, s') → s' = s.
Proof.
  assert (∀ A (m : M store A), wp m (unchanged_if_thrown s) s → ∀ e s', m s = (Thrown e, s') → s' = s) as Hwp.
  { intros A m Hm e1 s1 Hrun. exact (wp_run m _ s _ _ Hm Hrun). }
  destruct c as [[i|i|i|i|i|i|i|i]|i|i|i]; unfold port_run; rewrite answering_inv;
    (lazymatch goal with |- match ?run with _ => _ end = _ → _ => destruct run as [[a|e1] s1] eqn:Hrun; [done|] end); intros [= <- <-]; (eapply Hwp; [|exact Hrun]); simpl.
  - unfold createConversation. repeat store_step; done.
  - unfold appendUserTurn, insert_turn. repeat store_step; done.
  - unfold queueAssistantTurn, insert_turn. repeat store_step; done.
  - unfold appendAssistantDelta, transition_turn. repeat store_step; done.
  - unfold finalizeAssistantTurn, transition_turn. repeat store_step; done.
  - unfold failAssistantTurn, transition_turn. repeat store_step; done.
  - unfold startToolOutcome. repeat store_step; done.
  - unfold finishToolOutcome. repeat store_step; done.
  - unfold reading. repeat store_step; done.
  - unfold reading. repeat store_step; done.
  - unfold listTaskAssistantRuns. repeat store_step; done.
Qed.

Lemma port_run_store scope c s :
  (port_run scope c s).2 = match c with WriteCall c => store_after scope c s | _ => s end.
Proof.
  destruct c as [[i|i|i|i|i|i|i|i]|i|i|i]; unfold port_run; rewrite answering_inv; try done;
    try (lazymatch goal with |- (match ?run with _ => _ end).2 = _ =>
           destruct run as [[a|e] s1] eqn:Hrun; exact (eq_sym (f_equal snd Hrun)) end).
  simpl. unfold listTaskAssistantRuns, mbind, M_bind, get_state. by destruct (filter_option _ _).
Qed.

Lemma history_step `{!DistinctUuids} scope c s :
  scope_admitted (S := database W) scope → tables_ok s → clocked_store s → storable c s →
  tables_ok (port_run scope c s).2 ∧ clocked_store (port_run scope c s).2.
Proof.
  intros (Ho & Hw & _) Hok Hcl Hst. rewrite port_run_store. destruct c as [c| | |]; [|done..].
  pose proof (store_after_change scope c s) as Hch. pose proof (tables_runtime s Hok) as Hrt.
  split; [|by eapply clocked_change].
  apply storable_tables; [by eapply runtime_ok_change|by apply call_storable].
Qed.

(** Along a history the adapter on the tables simulates the in-memory one. *)
Lemma history_simulated `{!DistinctUuids} calls s w :
  tables_ok s → clocked_store s → storable_history calls s →
  run_calls calls (s, w) = (observed_answers calls s, ((run_calls calls s).2, w)).
Proof.
  revert s. induction calls as [|[scope c] calls IH]; intros s Hok Hcl Hst; [done|].
  destruct Hst as (Had & Hc & Hst). destruct (history_step scope c s Had Hok Hcl Hc) as [Hok' Hcl'].
  cbn [run_calls observed_answers]. cbn zeta. rewrite (port_call_agrees scope c s w) by done.
  destruct (port_run scope c s) as [[a|e] s1] eqn:Hrun; simpl in *.
  - by rewrite IH.
  - apply thrown_unchanged in Hrun as ->. by rewrite IH.
Qed.

Lemma tables_ok_empty : tables_ok empty_store.
Proof. split; [apply runtime_ok_empty|done..]. Qed.

Lemma clocked_empty : clocked_store empty_store.
Proof. split; apply clocked_nil. Qed.

End adapters.
