(* ===== verification/TaskDomain.v ===== *)
(** * Tasks: domain
    ([packages/project-management/src/domain/task.ts], and [TaskDto] of
    [application/tasks.ts]) *)
From S2P Require Import Prelude JsString JsValue SharedKernel DevBoardDomain.

Inductive TaskStatus : Type := TsTodo | TsInProgress | TsBlocked | TsDone.
Inductive TaskPriority : Type := TpLow | TpNormal | TpHigh | TpUrgent.

#[global] Instance TaskStatus_eq_dec : EqDecision TaskStatus.
Proof. solve_decision. Defined.
#[global] Instance TaskPriority_eq_dec : EqDecision TaskPriority.
Proof. solve_decision. Defined.

Definition taskStatuses : list TaskStatus := [TsTodo; TsInProgress; TsBlocked; TsDone].
Definition taskPriorities : list TaskPriority := [TpLow; TpNormal; TpHigh; TpUrgent].

Definition taskStatus_str (s : TaskStatus) : string :=
  match s with TsTodo => "todo" | TsInProgress => "in_progress" | TsBlocked => "blocked" | TsDone => "done" end.
Definition taskPriority_str (p : TaskPriority) : string :=
  match p with TpLow => "low" | TpNormal => "normal" | TpHigh => "high" | TpUrgent => "urgent" end.

Definition isTerminalTaskStatus (s : TaskStatus) : bool := bool_decide (s = TsDone).

Definition parseTaskStatus :=
  parse_enum taskStatus_str taskStatuses "projectManagement.invalidTaskStatus"
    "Task status must be todo, in_progress, blocked, or done.".
Definition parseTaskPriority :=
  parse_enum taskPriority_str taskPriorities "projectManagement.invalidTaskPriority"
    "Task priority must be low, normal, high, or urgent.".

Definition normalizeTaskTitle (value : string) : Result string :=
  let title := normalize_spaces value in
  if (String.length title =? 0)%nat then
    err (domain_error "projectManagement.taskTitleRequired" "Task title is required.")
  else if (180 <? String.length title)%nat then
    err (domain_error "projectManagement.taskTitleTooLong" "Task title must be 180 characters or fewer.")
  else ok title.

Definition normalizeTaskDescription (value : string) : Result string :=
  let description := trim value in
  if (4000 <? String.length description)%nat then
    err (domain_error "projectManagement.taskDescriptionTooLong"
           "Task description must be 4000 characters or fewer.")
  else ok description.

(** The labels of a task: trimmed, in lower case, without blanks and repetitions. *)
Definition unique_labels (values : list string) : list string :=
  js_unique (filter (λ label, (0 < String.length label)%nat) ((λ value, to_lower (trim value)) <$> values)).

Definition normalizeTaskLabels (values : list string) : Result (list string) :=
  let labels := unique_labels values in
  if (8 <? length labels)%nat then
    err (domain_error "projectManagement.tooManyTaskLabels" "A task can have at most 8 labels.")
  else
    match find (λ label, (32 <? String.length label)%nat) labels with
    | Some _ => err (domain_error "projectManagement.taskLabelTooLong"
                       "Task labels must be 32 characters or fewer.")
    | None => ok labels
    end.

(** [TaskDto] *)
Record TaskDto : Type := mkTaskDto {
  td_id : string;
  td_organizationId : string;
  td_workspaceId : string;
  td_cardNumber : Z;
  td_title : string;
  td_description : string;
  td_status : TaskStatus;
  td_priority : TaskPriority;
  td_assigneeUserId : option string;
  td_assigneeName : option string;
  td_labels : list string;
  td_position : Z;
  td_dueAt : option string;
  td_provenanceSource : string;
  td_provenanceExternalRef : option string;
  td_createdAt : string;
  td_updatedAt : string;
}.

(** The DTO as the object it is. *)
Definition task_js (t : TaskDto) : jsval := JObj [
  ("id", JStr (td_id t)); ("organizationId", JStr (td_organizationId t));
  ("workspaceId", JStr (td_workspaceId t)); ("cardNumber", jsint (td_cardNumber t));
  ("title", JStr (td_title t)); ("description", JStr (td_description t));
  ("status", JStr (taskStatus_str (td_status t))); ("priority", JStr (taskPriority_str (td_priority t)));
  ("assigneeUserId", js_null (td_assigneeUserId t)); ("assigneeName", js_null (td_assigneeName t));
  ("labels", JArr (JStr <$> td_labels t)); ("position", jsint (td_position t));
  ("dueAt", js_null (td_dueAt t)); ("provenanceSource", JStr (td_provenanceSource t));
  ("provenanceExternalRef", js_null (td_provenanceExternalRef t));
  ("createdAt", JStr (td_createdAt t)); ("updatedAt", JStr (td_updatedAt t))].
