(* ===== verification/ToolHarness.v ===== *)
(** * The tool execution harness
    ([packages/runtime-control/src/application/tool-execution-harness.ts])

    A tool call is recorded as started before the tool runs and as finished after
    it: the receipt decides whether the tool runs at all. *)
From S2P Require Import Prelude JsString JsValue SharedKernel Effects DevBoardDomain JsText RuntimeDomain.
From S2P Require Import TenantContext RuntimeSql Authorization RuntimeLifecycle RuntimeReceipts.

Record ToolFailure : Type := mkFailure { tf_code : string; tf_message : string }.

(** An error a tool answers with: the domain error and its [cause], which the
    status of the failure is read from ([JUndefined] when it has none). *)
Record ToolError : Type := mkToolError { te_error : DomainError; te_cause : jsval }.

Inductive ToolExecution (ToolName Output : Type) : Type :=
| Succeeded (toolName : ToolName) (toolCallId : string) (output : Output) (outcome : AssistantToolOutcome)
| Failed (toolName : ToolName) (toolCallId code message : string) (outcome : AssistantToolOutcome).
Arguments Succeeded {ToolName Output} toolName toolCallId output outcome.
Arguments Failed {ToolName Output} toolName toolCallId code message outcome.

(** [typeof value === "object" && value !== null && !Array.isArray(value)] *)
Definition isRecord (value : jsval) : option jsobj :=
  match value with JObj o => Some o | _ => None end.

(** ** Summaries *)

(** [accumulator[key] = value]: an assignment to [__proto__] makes no property. *)
Definition assign (key : string) (value : jsval) (o : jsobj) : jsobj :=
  if String.eqb key "__proto__" then o else obj_set key value o.

Section sanitize.
Context `{OpaqueTexts}.

(** [sanitizeValue(value, depth)] with [fuel = 4 - depth]: depths 0 to 3 are
    looked into, and what lies deeper is cut. *)
Fixpoint sanitize_value (fuel : nat) (value : jsval) : jsval :=
  match fuel with
  | 0 => JStr "[truncated]"
  | S fuel =>
      match value with
      | JNull | JStr _ | JNum _ | JBool _ => value
      | JArr l => JArr (sanitize_value fuel <$> take 20 l)
      | JObj o =>
          JObj (fold_left (λ acc kv, assign kv.1 (sanitize_value fuel kv.2) acc) (take 20 (sort_entries o)) [])
      | JUndefined | JOther _ => JStr (js_to_string value)
      end
  end.

Definition sanitizeValue (value : jsval) : jsval := sanitize_value 4 value.

Definition malformedRequestSummary (toolName : string) (args : jsval) (error : DomainError) : jsobj :=
  [("toolName", JStr toolName); ("malformedArgs", sanitizeValue args); ("errorCode", JStr (error_code error))].

End sanitize.

(** The recursion of [errorStatus] along the [cause] chain; [fuel] counts the
    depths 0 to 5 that it looks at. *)
Fixpoint error_status (fuel : nat) (error : jsval) : option jsnum :=
  match fuel, error with
  | S fuel, JObj o =>
      match obj_get "status" o with
      | JNum status => Some status
      | _ => error_status fuel (obj_get "cause" o)
      end
  | _, _ => None
  end.

(** [errorStatus(error)] of a domain error, which has no status of its own. *)
Definition errorStatus (e : ToolError) : option jsnum :=
  error_status 6 (JObj [("code", JStr (error_code (te_error e))); ("cause", te_cause e)]).

Definition failureFromMalformedArgs (error : DomainError) : ToolFailure :=
  mkFailure "malformed_args" (error_message error).

Definition failureSummary (failure : ToolFailure) : jsobj :=
  [("ok", JBool false); ("code", JStr (tf_code failure)); ("message", JStr (tf_message failure))].

(** ** The harness *)

Section harness.
Context {S : Type} `{RuntimeDriver S} `{TenantDatabase} `{NodeDates} `{OpaqueTexts}.
Context {ToolName Parsed Output : Type}.

(** [RunToolExecutionOptions] without its input and dependencies. *)
Record RunToolExecutionOptions : Type := mkToolOptions {
  tool_text : ToolName → string;      (* a tool name is a string *)
  parseToolName : string → Result ToolName;
  parseArgs : ToolName → jsval → Result Parsed;
  requestSummary : Parsed → jsobj;
  malformedSummary : ToolName → jsval → DomainError → jsobj;
  contextForOutcome : ToolExecutionContext → RuntimeControlApplicationContext;
  completedExecutionFromOutcome :
    ToolName → string → StartedToolOutcomeReceipt → Result (ToolExecution ToolName Output);
  performTool : Parsed → ToolExecutionContext → M S (Output + ToolError);
  failureFromArgs : DomainError → ToolFailure;
  failureFromError : ToolError → ToolFailure;
  resultSummary : Output → jsobj;
  targetRef : Output → option string;
}.

(** [options.input] *)
Record ToolInput : Type := mkToolInput {
  tl_context : ToolExecutionContext;
  tl_toolName : string;
  tl_toolCallId : string;
  tl_args : jsval;
}.

Variables (options : RunToolExecutionOptions) (dependencies : RuntimeControlDependencies).

Definition finishFailure (context : ToolExecutionContext) (toolName : ToolName) (toolCallId : string)
    (request : jsobj) (failure : ToolFailure) : M S (Result (ToolExecution ToolName Output)) :=
  outcome ← recordToolOutcome
    (mkFinished (contextForOutcome options context) (tx_assistantTurnId context) (tool_text options toolName)
       toolCallId (tx_commandIdempotencyKey context) FFailed request (failureSummary failure) None)
    dependencies;
  mret match outcome with
       | err e => err e
       | ok o => ok (Failed toolName toolCallId (tf_code failure) (tf_message failure) o)
       end.

Definition invalidToolCallId : DomainError :=
  runtimeError "runtimeControl.invalidToolCallId" "Tool call id is required.".

Definition runToolExecution (input : ToolInput) : M S (Result (ToolExecution ToolName Output)) :=
  match parseToolName options (tl_toolName input) with
  | err e => mret (err e)
  | ok toolName =>
    let toolCallId := trim (tl_toolCallId input) in
    if String.eqb toolCallId "" then mret (err invalidToolCallId)
    else
    let context := tl_context input in
    let parsed := parseArgs options toolName (tl_args input) in
    let request := match parsed with
                   | ok p => requestSummary options p
                   | err e => malformedSummary options toolName (tl_args input) e
                   end in
    started ← recordStartedToolOutcome
      (mkStarted (contextForOutcome options context) (tx_assistantTurnId context) (tool_text options toolName)
         toolCallId (tx_commandIdempotencyKey context) request None) dependencies;
    match started with
    | err e => mret (err e)
    | ok receipt =>
        if negb (sr_inserted receipt) then
          mret (completedExecutionFromOutcome options toolName toolCallId receipt)
        else
        match parsed with
        | err e => finishFailure context toolName toolCallId request (failureFromArgs options e)
        | ok p =>
            performed ← performTool options p context;
            match performed with
            | inr e => finishFailure context toolName toolCallId request (failureFromError options e)
            | inl output =>
                outcome ← recordToolOutcome
                  (mkFinished (contextForOutcome options context) (tx_assistantTurnId context)
                     (tool_text options toolName) toolCallId (tx_commandIdempotencyKey context) FSucceeded
                     request (resultSummary options output) (Some (targetRef options output)))
                  dependencies;
                mret match outcome with
                     | err e => err e
                     | ok o => ok (Succeeded toolName toolCallId output o)
                     end
            end
        end
    end
  end.

End harness.
Arguments RunToolExecutionOptions : clear implicits.
