(* ===== verification/TaskTools.v ===== *)
(** * The task tools of agents
    ([packages/runtime-control/src/application/task-tools.ts])

    The arguments an agent may give, what the tools do with the task services, and
    how their failures are told. *)
From S2P Require Import Prelude JsString JsValue SharedKernel Effects DevBoardDomain JsText RuntimeDomain.
From S2P Require Import TenantContext RuntimeSql Authorization TaskDomain.
From S2P Require Import RuntimeLifecycle RuntimeReceipts ToolHarness.
From Stdlib Require Import Ascii.

Module TaskTools.

Inductive RuntimeControlTaskToolName : Type := TasksList | TasksCreate | TasksUpdate.

Definition runtimeControlTaskToolNames : list RuntimeControlTaskToolName := [TasksList; TasksCreate; TasksUpdate].

Definition tool_name (n : RuntimeControlTaskToolName) : string :=
  match n with
  | TasksList => "opzava_tasks_list"
  | TasksCreate => "opzava_tasks_create"
  | TasksUpdate => "opzava_tasks_update"
  end.

Definition runtimeControlTaskToolRegistry : list (RuntimeControlTaskToolName * string) := [
  (TasksList, "{ status?: todo|in_progress|blocked|done, limit?: 1..50 }");
  (TasksCreate, "{ title, description?, status?: todo|in_progress|blocked, priority?: low|normal|high|urgent, labels?: string[] }");
  (TasksUpdate, "{ taskId, title?, description?, status?: todo|in_progress|blocked, priority?: low|normal|high|urgent, labels?: string[] }")
].

Inductive RuntimeControlTaskToolOutput : Type :=
| ListOutput (tasks : list TaskDto)
| CreateOutput (task : TaskDto)
| UpdateOutput (task : TaskDto)
| ReplayedList (tasks : list jsval)                         (* tasks read back from a receipt *)
| ReplayedTask (created : bool) (task : jsobj).             (* a task read back from a receipt *)

Record ListArgs : Type := mkListArgs { la_status : option TaskStatus; la_limit : Z }.

Record CreateArgs : Type := mkCreateArgs {
  ca_title : string;
  ca_description : option string;
  ca_status : option TaskStatus;
  ca_priority : option TaskPriority;
  ca_labels : option (list string);
}.

Record UpdateArgs : Type := mkUpdateArgs {
  up_taskId : string;
  up_title : option string;
  up_description : option string;
  up_status : option TaskStatus;
  up_priority : option TaskPriority;
  up_labels : option (list string);
}.

Inductive ParsedToolArgs : Type :=
| ParsedList (args : ListArgs)
| ParsedCreate (args : CreateArgs)
| ParsedUpdate (args : UpdateArgs).

(** ** Arguments *)

Definition malformedArgs {A} (message : string) : Result A :=
  err (runtimeError "runtimeControl.toolMalformedArgs" message).

(** [Tool argument "field"...] *)
Definition argument (field rest : string) : string := "Tool argument " +:+ String dquote field +:+ String dquote rest.

Definition rejectUnknownKeys (value : jsobj) (allowedKeys : list string) : Result unit :=
  match find (λ key, negb (includes_key key allowedKeys)) value.*1 with
  | None => ok tt
  | Some unknownKey => malformedArgs (argument unknownKey " is not allowed.")
  end.

Definition requiredString (value : jsval) (field : string) (maxLength : nat) : Result string :=
  match value with
  | JStr s =>
      let normalized := normalize_spaces s in
      if (String.length normalized =? 0)%nat || (maxLength <? String.length normalized)%nat then
        malformedArgs (argument field (" must be 1-" +:+ pretty maxLength +:+ " characters."))
      else ok normalized
  | _ => malformedArgs (argument field " must be a string.")
  end.

Definition optionalString (value : jsval) (field : string) (maxLength : nat) : Result (option string) :=
  match value with
  | JUndefined => ok None
  | JStr s =>
      let normalized := trim s in
      if (maxLength <? String.length normalized)%nat then
        malformedArgs (argument field (" must be " +:+ pretty maxLength +:+ " characters or fewer."))
      else ok (Some normalized)
  | _ => malformedArgs (argument field " must be a string.")
  end.

(** [/^[0-9a-f]{8}-[0-9a-f]{4}-[0-9a-f]{4}-[0-9a-f]{4}-[0-9a-f]{12}$/i] *)
Definition uuidPattern (s : string) : bool :=
  matches_classes
    (replicate 8 is_hex ++ [is_hyphen] ++ replicate 4 is_hex ++ [is_hyphen] ++ replicate 4 is_hex
     ++ [is_hyphen] ++ replicate 4 is_hex ++ [is_hyphen] ++ replicate 12 is_hex) s.

Definition requiredTaskId (value : jsval) : Result string :=
  match requiredString value "taskId" 180 with
  | err e => err e
  | ok parsed =>
      if uuidPattern parsed then ok parsed else malformedArgs (argument "taskId" " must be a task id.")
  end.

Definition optionalTitle (value : jsval) : Result (option string) :=
  match value with
  | JUndefined => ok None
  | _ => match requiredString value "title" 180 with err e => err e | ok title => ok (Some title) end
  end.

(** [typeof value === "string" && set.has(value)] of an enumeration *)
Definition enum_member {T} (to_string : T → string) (values : list T) (value : jsval) : option T :=
  match value with JStr s => find (λ v, String.eqb (to_string v) s) values | _ => None end.

Definition optionalStatus (value : jsval) : Result (option TaskStatus) :=
  match value with
  | JUndefined => ok None
  | _ =>
      match enum_member taskStatus_str taskStatuses value with
      | Some s => ok (Some s)
      | None => malformedArgs (argument "status" " must be todo, in_progress, blocked, or done.")
      end
  end.

Definition writableTaskStatuses : list TaskStatus := [TsTodo; TsInProgress; TsBlocked].

Definition doneRequiresHuman : DomainError :=
  runtimeError "projectManagement.taskDoneRequiresHumanAttestation"
    "Marking a task Done requires the confirmed human Done action.".

Definition optionalWritableStatus (value : jsval) : Result (option TaskStatus) :=
  match value with
  | JUndefined => ok None
  | _ =>
      if is_string "done" value then err doneRequiresHuman
      else
        match enum_member taskStatus_str writableTaskStatuses value with
        | Some s => ok (Some s)
        | None => malformedArgs (argument "status" " must be todo, in_progress, or blocked.")
        end
  end.

Definition optionalPriority (value : jsval) : Result (option TaskPriority) :=
  match value with
  | JUndefined => ok None
  | _ =>
      match enum_member taskPriority_str taskPriorities value with
      | Some p => ok (Some p)
      | None => malformedArgs (argument "priority" " must be low, normal, high, or urgent.")
      end
  end.

Definition string_entry (value : jsval) : option string := match value with JStr s => Some s | _ => None end.

Definition optionalLabels (value : jsval) : Result (option (list string)) :=
  let malformed := malformedArgs (argument "labels" " must be an array of strings.") in
  match value with
  | JUndefined => ok None
  | JArr l => match map_option string_entry l with Some labels => ok (Some labels) | None => malformed end
  | _ => malformed
  end.

Definition optionalLimit (value : jsval) : Result Z :=
  let malformed := malformedArgs (argument "limit" " must be an integer from 1 to 50.") in
  match value with
  | JUndefined => ok 20%Z
  | JNum (NInt n) => if (n <? 1)%Z || (50 <? n)%Z then malformed else ok n
  | _ => malformed
  end.

Definition parseToolName (value : string) : Result RuntimeControlTaskToolName :=
  match find (λ n, String.eqb (tool_name n) value) runtimeControlTaskToolNames with
  | Some n => ok n
  | None => err (runtimeError "runtimeControl.unknownTool" "Requested task tool is not registered.")
  end.

Definition parseListArgs (value : jsval) : Result ListArgs :=
  match isRecord value with
  | None => malformedArgs "Task list tool arguments must be an object."
  | Some o =>
    match rejectUnknownKeys o ["status"; "limit"] with
    | err e => err e
    | ok _ =>
      match optionalStatus (obj_get "status" o) with
      | err e => err e
      | ok status =>
          match optionalLimit (obj_get "limit" o) with
          | err e => err e
          | ok limit => ok (mkListArgs status limit)
          end
      end
    end
  end.

Definition parseCreateArgs (value : jsval) : Result CreateArgs :=
  match isRecord value with
  | None => malformedArgs "Task create tool arguments must be an object."
  | Some o =>
    match rejectUnknownKeys o ["title"; "description"; "status"; "priority"; "labels"] with
    | err e => err e
    | ok _ =>
        result_bind (requiredString (obj_get "title" o) "title" 180) (λ title,
        result_bind (optionalString (obj_get "description" o) "description" 4000) (λ description,
        result_bind (optionalWritableStatus (obj_get "status" o)) (λ status,
        result_bind (optionalPriority (obj_get "priority" o)) (λ priority,
        result_bind (optionalLabels (obj_get "labels" o)) (λ labels,
        ok (mkCreateArgs title description status priority labels))))))
    end
  end.

Definition has_mutation (a : UpdateArgs) : bool :=
  negb (bool_decide (up_title a = None)) || negb (bool_decide (up_description a = None))
  || negb (bool_decide (up_status a = None)) || negb (bool_decide (up_priority a = None))
  || negb (bool_decide (up_labels a = None)).

Definition parseUpdateArgs (value : jsval) : Result UpdateArgs :=
  match isRecord value with
  | None => malformedArgs "Task update tool arguments must be an object."
  | Some o =>
    match rejectUnknownKeys o ["taskId"; "title"; "description"; "status"; "priority"; "labels"] with
    | err e => err e
    | ok _ =>
        result_bind (requiredTaskId (obj_get "taskId" o)) (λ taskId,
        result_bind (optionalTitle (obj_get "title" o)) (λ title,
        result_bind (optionalString (obj_get "description" o) "description" 4000) (λ description,
        result_bind (optionalWritableStatus (obj_get "status" o)) (λ status,
        result_bind (optionalPriority (obj_get "priority" o)) (λ priority,
        result_bind (optionalLabels (obj_get "labels" o)) (λ labels,
        let args := mkUpdateArgs taskId title description status priority labels in
        if has_mutation args then ok args
        else malformedArgs "Task update tool requires at least one field to change."))))))
    end
  end.

Definition parseArgs (toolName : RuntimeControlTaskToolName) (value : jsval) : Result ParsedToolArgs :=
  match toolName with
  | TasksList => result_bind (parseListArgs value) (λ a, ok (ParsedList a))
  | TasksCreate => result_bind (parseCreateArgs value) (λ a, ok (ParsedCreate a))
  | TasksUpdate => result_bind (parseUpdateArgs value) (λ a, ok (ParsedUpdate a))
  end.

(** ** Request summaries *)

(** [...(value === undefined ? {} : { key: value })] *)
Definition optional_entry {A} (key : string) (js : A → jsval) (value : option A) : jsobj :=
  match value with None => [] | Some v => [(key, js v)] end.

Definition status_js (s : TaskStatus) : jsval := JStr (taskStatus_str s).
Definition priority_js (p : TaskPriority) : jsval := JStr (taskPriority_str p).
Definition labels_js (l : list string) : jsval := JArr (JStr <$> l).

Definition args_js (p : ParsedToolArgs) : jsobj :=
  match p with
  | ParsedList a => optional_entry "status" status_js (la_status a) ++ [("limit", jsint (la_limit a))]
  | ParsedCreate a =>
      [("title", JStr (ca_title a))] ++ optional_entry "description" JStr (ca_description a)
      ++ optional_entry "status" status_js (ca_status a) ++ optional_entry "priority" priority_js (ca_priority a)
      ++ optional_entry "labels" labels_js (ca_labels a)
  | ParsedUpdate a =>
      [("taskId", JStr (up_taskId a))] ++ optional_entry "title" JStr (up_title a)
      ++ optional_entry "description" JStr (up_description a)
      ++ optional_entry "status" status_js (up_status a) ++ optional_entry "priority" priority_js (up_priority a)
      ++ optional_entry "labels" labels_js (up_labels a)
  end.

Definition parsed_tool (p : ParsedToolArgs) : RuntimeControlTaskToolName :=
  match p with ParsedList _ => TasksList | ParsedCreate _ => TasksCreate | ParsedUpdate _ => TasksUpdate end.

Definition requestSummary (p : ParsedToolArgs) : jsobj :=
  [("toolName", JStr (tool_name (parsed_tool p))); ("args", JObj (args_js p))].

(** ** Failures *)

Definition failureFromError (e : ToolError) : ToolFailure :=
  let code := error_code (te_error e) in
  if String.eqb code "projectManagement.taskNotFound" then mkFailure "not_found" "Task was not found."
  else if String.eqb code "projectManagement.forbidden"
          || String.eqb code "projectManagement.taskDoneRequiresHumanAttestation"
          || String.eqb code "projectManagement.taskDoneRequiresApprovedReview"
          || bool_decide (errorStatus e = Some (NInt 403))
  then mkFailure "forbidden" "Task tool execution is not allowed."
  else if starts_with "projectManagement.invalid" code then mkFailure "malformed_args" (error_message (te_error e))
  else mkFailure "failed" (error_message (te_error e)).

Definition failureFromTaskMalformedArgs (error : DomainError) : ToolFailure :=
  if String.eqb (error_code error) "projectManagement.taskDoneRequiresHumanAttestation"
  then mkFailure "forbidden" (error_message error)
  else failureFromMalformedArgs error.

(** ** Receipts *)

Definition output_js (output : RuntimeControlTaskToolOutput) : jsobj :=
  match output with
  | ListOutput tasks => [("kind", JStr "tasks.list"); ("tasks", JArr (task_js <$> tasks))]
  | CreateOutput task => [("kind", JStr "tasks.create"); ("task", task_js task)]
  | UpdateOutput task => [("kind", JStr "tasks.update"); ("task", task_js task)]
  | ReplayedList tasks => [("kind", JStr "tasks.list"); ("tasks", JArr tasks)]
  | ReplayedTask created task =>
      [("kind", JStr (if created then "tasks.create" else "tasks.update")); ("task", JObj task)]
  end.

Definition resultSummary (output : RuntimeControlTaskToolOutput) : jsobj := ("ok", JBool true) :: output_js output.

(** [output.kind === "tasks.list" ? null : output.task.id]; the tools never target a
    replayed output. *)
Definition targetRef (output : RuntimeControlTaskToolOutput) : option string :=
  match output with
  | ListOutput _ | ReplayedList _ => None
  | CreateOutput task | UpdateOutput task => Some (td_id task)
  | ReplayedTask _ task => match obj_get "id" task with JStr id => Some id | _ => None end
  end.

Definition outputFromOutcome (outcome : AssistantToolOutcome) : option RuntimeControlTaskToolOutput :=
  let kind := obj_get "kind" (oc_resultSummary outcome) in
  match obj_get "tasks" (oc_resultSummary outcome), is_string "tasks.list" kind with
  | JArr tasks, true => Some (ReplayedList tasks)
  | _, _ =>
      if is_string "tasks.create" kind || is_string "tasks.update" kind then
        ReplayedTask (is_string "tasks.create" kind) <$> isRecord (obj_get "task" (oc_resultSummary outcome))
      else None
  end.

Definition failureFromOutcome (outcome : AssistantToolOutcome) : ToolFailure :=
  mkFailure
    match obj_get "code" (oc_resultSummary outcome) with JStr code => code | _ => "failed" end
    match obj_get "message" (oc_resultSummary outcome) with
    | JStr message => message
    | _ => "Task tool execution failed."
    end.

Definition completedExecutionFromOutcome (toolName : RuntimeControlTaskToolName) (toolCallId : string)
    (receipt : StartedToolOutcomeReceipt)
    : Result (ToolExecution RuntimeControlTaskToolName RuntimeControlTaskToolOutput) :=
  let outcome := sr_outcome receipt in
  match oc_status outcome with
  | OStarted => err (runtimeError "runtimeControl.toolOutcomeInProgress"
                       "Tool call is already in progress for this assistant turn.")
  | OFailed =>
      let failure := failureFromOutcome outcome in
      ok (Failed toolName toolCallId (tf_code failure) (tf_message failure) outcome)
  | OSucceeded =>
      match outputFromOutcome outcome with
      | None => err (runtimeError "runtimeControl.toolOutcomeInvalidReplay"
                       "Recorded task tool outcome cannot be replayed.")
      | Some output => ok (Succeeded toolName toolCallId output outcome)
      end
  end.

(** ** The tools *)

Record CreateTaskInput : Type := mkCreateTask {
  ct_context : RuntimeControlApplicationContext;
  ct_args : CreateArgs;
}.

Record UpdateTaskInput : Type := mkUpdateTask {
  ut_context : RuntimeControlApplicationContext;
  ut_taskId : string;
  ut_title : string;
  ut_description : string;
  ut_priority : TaskPriority;
  ut_assigneeUserId : option string;
  ut_labels : list string;
}.

Record MoveTaskInput : Type := mkMoveTask {
  mt_context : RuntimeControlApplicationContext;
  mt_taskId : string;
  mt_status : TaskStatus;
  mt_position : Z;
}.

(** [taskContext(context)] *)
Definition taskContext (context : ToolExecutionContext) : RuntimeControlApplicationContext := tx_context context.

(** [dependencies.taskAuthorizationPort ?? dependencies.authorizationPort] *)
Definition taskDependencies (taskAuthorizationPort authorizationPort : option AuthorizationPort)
    : option AuthorizationPort :=
  match taskAuthorizationPort with Some port => Some port | None => authorizationPort end.

Section tools.
Context {S : Type} `{RuntimeDriver S} `{TenantDatabase} `{NodeDates} `{OpaqueTexts}.

(** [RuntimeControlTaskServices]: the task services are injected. *)
Record RuntimeControlTaskServices : Type := mkServices {
  createTask : CreateTaskInput → option AuthorizationPort → M S (TaskDto + ToolError);
  getTask : RuntimeControlApplicationContext → string → option AuthorizationPort → M S (TaskDto + ToolError);
  listTasks : RuntimeControlApplicationContext → option AuthorizationPort → M S (list TaskDto + ToolError);
  moveTask : MoveTaskInput → option AuthorizationPort → M S (TaskDto + ToolError);
  updateTask : UpdateTaskInput → option AuthorizationPort → M S (TaskDto + ToolError);
}.

Variable services : RuntimeControlTaskServices.
Variables taskAuthorizationPort authorizationPort : option AuthorizationPort.

Let deps : option AuthorizationPort := taskDependencies taskAuthorizationPort authorizationPort.

Definition performList (cx : RuntimeControlApplicationContext) (args : ListArgs)
    : M S (RuntimeControlTaskToolOutput + ToolError) :=
  result ← listTasks services cx deps;
  mret match result with
       | inr e => inr e
       | inl tasks =>
           let filtered := match la_status args with
                           | None => tasks
                           | Some status => filter (λ t, td_status t = status) tasks
                           end in
           inl (ListOutput (take (Z.to_nat (la_limit args)) filtered))
       end.

Definition performCreate (cx : RuntimeControlApplicationContext) (args : CreateArgs)
    : M S (RuntimeControlTaskToolOutput + ToolError) :=
  result ← createTask services (mkCreateTask cx args) deps;
  mret match result with inr e => inr e | inl task => inl (CreateOutput task) end.

(** Whether any field other than the status is to change. *)
Definition shouldUpdateFields (args : UpdateArgs) : bool :=
  negb (bool_decide (up_title args = None)) || negb (bool_decide (up_description args = None))
  || negb (bool_decide (up_priority args = None)) || negb (bool_decide (up_labels args = None)).

Definition field_update (cx : RuntimeControlApplicationContext) (args : UpdateArgs) (current : TaskDto)
    : UpdateTaskInput :=
  mkUpdateTask cx (up_taskId args) (default (td_title current) (up_title args))
    (default (td_description current) (up_description args))
    (default (td_priority current) (up_priority args)) (td_assigneeUserId current)
    (default (td_labels current) (up_labels args)).

Definition performUpdate (cx : RuntimeControlApplicationContext) (args : UpdateArgs)
    : M S (RuntimeControlTaskToolOutput + ToolError) :=
  current ← getTask services cx (up_taskId args) deps;
  match current with
  | inr e => mret (inr e)
  | inl current =>
      fieldUpdate ← (if shouldUpdateFields args then updateTask services (field_update cx args current) deps
                     else mret (inl current));
      match fieldUpdate with
      | inr e => mret (inr e)
      | inl updated =>
          let moved := match up_status args with
                       | Some status => if bool_decide (status = td_status updated) then None else Some status
                       | None => None
                       end in
          statusUpdate ← match moved with
                         | None => mret (inl updated)
                         | Some status =>
                             moveTask services (mkMoveTask cx (up_taskId args) status (td_position updated)) deps
                         end;
          mret match statusUpdate with inr e => inr e | inl task => inl (UpdateOutput task) end
      end
  end.

Definition performTool (parsed : ParsedToolArgs) (context : ToolExecutionContext)
    : M S (RuntimeControlTaskToolOutput + ToolError) :=
  let cx := taskContext context in
  match parsed with
  | ParsedList args => performList cx args
  | ParsedCreate args => performCreate cx args
  | ParsedUpdate args => performUpdate cx args
  end.

Definition task_tool_options
    : RunToolExecutionOptions S RuntimeControlTaskToolName ParsedToolArgs RuntimeControlTaskToolOutput :=
  mkToolOptions tool_name parseToolName parseArgs requestSummary
    (λ toolName args error, malformedRequestSummary (tool_name toolName) args error) taskContext
    completedExecutionFromOutcome performTool failureFromTaskMalformedArgs failureFromError resultSummary targetRef.

Definition executeRuntimeControlTaskTool (input : ToolInput)
    : M S (Result (ToolExecution RuntimeControlTaskToolName RuntimeControlTaskToolOutput)) :=
  runToolExecution task_tool_options authorizationPort input.

End tools.
End TaskTools.
