(* ===== verification/TaskToolRuns.v ===== *)
(** * Runs of the task tools

    What arguments the tools accept, what reaches the task services, and what a
    finished execution leaves in the tables. *)
From S2P Require Import Prelude JsString JsValue JsMap SharedKernel Effects DevBoardDomain JsText.
From S2P Require Import RuntimeDomain RuntimeStore RuntimeInvariant.
From S2P Require Import TenantContext RuntimeSql Authorization TaskDomain RuntimeLifecycle RuntimeTables.
From S2P Require Import RuntimeRefine RuntimeReceipts ToolHarness TaskTools.
Import TaskTools.
Import InMemoryRuntimeConversationStore(store, existing_outcome, oc_in, tn_in, turns, outcomes).

(** ** Arguments *)

(** The status a parsed call would write. *)
Definition written_status (p : ParsedToolArgs) : option TaskStatus :=
  match p with
  | ParsedList _ => None
  | ParsedCreate a => ca_status a
  | ParsedUpdate a => up_status a
  end.

Lemma optionalWritableStatus_not_done v s : optionalWritableStatus v = ok s → s ≠ Some TsDone.
Proof.
  unfold optionalWritableStatus, enum_member.
  destruct v as [| | | |t| | |]; try done; [by intros [= <-]|].
  destruct (is_string "done" (JStr t)); [done|].
  destruct (find _ _) as [x|] eqn:Hf; [|done]. intros [= <-]. apply find_some in Hf as [Hin _].
  simpl in Hin. destruct Hin as [<-|[<-|[<-|[]]]]; done.
Qed.

Lemma requiredString_ok v field n s :
  requiredString v field n = ok s → 1 <= String.length s <= n ∧ normalize_spaces s = s.
Proof.
  unfold requiredString. destruct v as [| | | |t| | |]; try done.
  destruct (Nat.eqb_spec (String.length (normalize_spaces t)) 0); [done|]. simpl.
  destruct (Nat.ltb_spec n (String.length (normalize_spaces t))); [done|]. intros [= <-].
  split; [lia|apply normalize_spaces_idemp].
Qed.

Lemma optionalTitle_ok v title :
  optionalTitle v = ok (Some title) → 1 <= String.length title <= 180 ∧ normalize_spaces title = title.
Proof.
  unfold optionalTitle. intros H. destruct v; try done;
    (destruct (requiredString _ _ _) eqn:Hr; [|done]; injection H as <-; by eapply requiredString_ok).
Qed.

Lemma optionalString_ok v field n s : optionalString v field n = ok (Some s) → String.length s <= n.
Proof.
  unfold optionalString. destruct v as [| | | |t| | |]; try done.
  destruct (Nat.ltb_spec n (String.length (trim t))); [done|]. by intros [= <-].
Qed.

Lemma optionalLimit_ok v n : optionalLimit v = ok n → (1 <= n <= 50)%Z.
Proof.
  unfold optionalLimit. destruct v as [| | |[z| |]| | | |]; try done; [intros [= <-]; lia|].
  destruct (Z.ltb_spec z 1); [done|]. destruct (Z.ltb_spec 50 z); [done|]. intros [= <-]. lia.
Qed.

Lemma result_bind_ok {T U} (r : Result T) (k : T → Result U) u :
  result_bind r k = ok u → ∃ v, r = ok v ∧ k v = ok u.
Proof. destruct r; [by eexists|done]. Qed.

(** What the parsers promise of the arguments they accept. *)
Definition accepted (p : ParsedToolArgs) : Prop :=
  match p with
  | ParsedList a => (1 <= la_limit a <= 50)%Z
  | ParsedCreate a =>
      1 <= String.length (ca_title a) <= 180 ∧ normalize_spaces (ca_title a) = ca_title a ∧
      (∀ d, ca_description a = Some d → String.length d <= 4000)
  | ParsedUpdate a =>
      uuidPattern (up_taskId a) = true ∧ has_mutation a = true ∧
      (∀ t, up_title a = Some t → 1 <= String.length t <= 180 ∧ normalize_spaces t = t) ∧
      (∀ d, up_description a = Some d → String.length d <= 4000)
  end.

Ltac parse_steps :=
  repeat match goal with
  | H : result_bind _ _ = ok _ |- _ => apply result_bind_ok in H as (? & ? & H); simpl in H
  | H : match ?x with _ => _ end = ok _ |- _ => destruct x eqn:?; [|discriminate H]
  | H : (if ?b then _ else _) = ok _ |- _ => destruct b eqn:?; [|discriminate H]
  end.

Lemma parse_list_accepted v a : parseListArgs v = ok a → (1 <= la_limit a <= 50)%Z.
Proof.
  unfold parseListArgs. intros H. parse_steps. injection H as <-. by eapply optionalLimit_ok.
Qed.

Lemma parse_create_accepted v a :
  parseCreateArgs v = ok a → accepted (ParsedCreate a) ∧ ca_status a ≠ Some TsDone.
Proof.
  unfold parseCreateArgs. intros H. parse_steps. injection H as <-. simpl.
  match goal with Hr : requiredString _ _ _ = _ |- _ => apply requiredString_ok in Hr as [? ?] end.
  split; [|by eapply optionalWritableStatus_not_done].
  split; [done|]. split; [done|]. intros d ->. by eapply optionalString_ok.
Qed.

Lemma parse_update_accepted v a :
  parseUpdateArgs v = ok a → accepted (ParsedUpdate a) ∧ up_status a ≠ Some TsDone.
Proof.
  unfold parseUpdateArgs. intros H. parse_steps. injection H as <-. simpl.
  match goal with Hr : requiredTaskId _ = _ |- _ => unfold requiredTaskId in Hr end. parse_steps.
  split; [|by eapply optionalWritableStatus_not_done].
  split; [congruence|]. split; [done|]. split.
  - intros t ->. by eapply optionalTitle_ok.
  - intros d ->. by eapply optionalString_ok.
Qed.

Lemma parse_accepted n v p : parseArgs n v = ok p → accepted p ∧ written_status p ≠ Some TsDone.
Proof.
  unfold parseArgs. destruct n; intros (a & Ha & [= <-])%result_bind_ok.
  - split; [by apply (parse_list_accepted v)|done].
  - by apply (parse_create_accepted v).
  - by apply (parse_update_accepted v).
Qed.

(** ** What reaches the services *)

(** Services that fail as soon as they are asked to put a task to Done. *)
Definition refuse_done {S} (services : RuntimeControlTaskServices (S := S)) : RuntimeControlTaskServices :=
  let alarm {A} : M S A := throw (ExnError "done") in
  mkServices
    (λ i port, if bool_decide (ca_status (ct_args i) = Some TsDone) then alarm else createTask services i port)
    (getTask services) (listTasks services)
    (λ i port, if bool_decide (mt_status i = TsDone) then alarm else moveTask services i port)
    (updateTask services).

Lemma perform_refuse_done {S} (services : RuntimeControlTaskServices (S := S)) tport port p cx s :
  written_status p ≠ Some TsDone →
  performTool (refuse_done services) tport port p cx s = performTool services tport port p cx s.
Proof.
  intros Hdone. destruct p as [a|a|a]; simpl in *; [done| |].
  - unfold performCreate, mbind, M_bind. simpl. by rewrite bool_decide_false.
  - unfold performUpdate, mbind, M_bind. simpl.
    destruct (getTask services _ _ _ s) as [[[t|e]|e] s1]; try done.
    match goal with |- context [let (_, _) := ?m s1 in _] => destruct (m s1) as [[[u|e]|e] s2] end; try done.
    destruct (up_status a) as [st|]; [|done].
    destruct (bool_decide (st = td_status u)); [done|]. simpl. by rewrite bool_decide_false by congruence.
Qed.

(** A list tool answers tasks of the service, of the status asked for, in its order
    and no more than the limit. *)
Lemma perform_list {S} (services : RuntimeControlTaskServices (S := S)) tport port a cx s out s' :
  performTool services tport port (ParsedList a) cx s = (Returned (inl out), s') →
  ∃ tasks shown, listTasks services (taskContext cx) (taskDependencies tport port) s = (Returned (inl tasks), s') ∧
    out = ListOutput shown ∧ length shown <= Z.to_nat (la_limit a) ∧ shown `sublist_of` tasks ∧
    (∀ st, la_status a = Some st → Forall (λ t, td_status t = st) shown).
Proof.
  unfold performTool, performList, mbind, M_bind.
  destruct (listTasks services _ _ s) as [[[tasks|e]|e] s1]; [|done..]. intros [= <- <-].
  eexists tasks, _. split; [done|]. split; [reflexivity|]. split; [rewrite length_take; lia|]. split.
  - destruct (la_status a); [|apply sublist_take].
    etrans; [apply sublist_take|]. induction tasks as [|x l IH]; [done|].
    rewrite filter_cons. case_decide; [by apply sublist_skip|by apply sublist_cons].
  - intros st ->. apply Forall_take, Forall_forall. by intros x [? _]%list_elem_of_filter.
Qed.

(** ** Executions over the tables *)

(** Task services that leave the tables of Runtime Control alone and answer tasks
    whose ids are not blank. *)
Record services_sound {W} (services : RuntimeControlTaskServices (S := database W)) : Prop := {
  create_frame i port db : (createTask services i port db).2.1 = db.1;
  get_frame cx id port db : (getTask services cx id port db).2.1 = db.1;
  list_frame cx port db : (listTasks services cx port db).2.1 = db.1;
  move_frame i port db : (moveTask services i port db).2.1 = db.1;
  update_frame i port db : (updateTask services i port db).2.1 = db.1;
  create_id i port db t : (createTask services i port db).1 = Returned (inl t) → not_blank (Some (td_id t));
  get_id cx id port db t : (getTask services cx id port db).1 = Returned (inl t) → not_blank (Some (td_id t));
  move_id i port db t : (moveTask services i port db).1 = Returned (inl t) → not_blank (Some (td_id t));
  update_id i port db t : (updateTask services i port db).1 = Returned (inl t) → not_blank (Some (td_id t));
}.

Lemma perform_sound {W} (services : RuntimeControlTaskServices (S := database W)) tport port p cx db r db' :
  services_sound services → performTool services tport port p cx db = (r, db') →
  db'.1 = db.1 ∧ (∀ out, r = Returned (inl out) → not_blank (targetRef out)).
Proof.
  intros Hs. destruct p as [a|a|a]; simpl.
  - unfold performList, mbind, M_bind. pose proof (list_frame _ Hs (taskContext cx) (taskDependencies tport port) db) as Hf.
    destruct (listTasks services _ _ db) as [[[tasks|e]|e] s1]; intros [= <- <-]; split; try done; by intros ? [= <-].
  - unfold performCreate, mbind, M_bind.
    pose proof (create_frame _ Hs (mkCreateTask (taskContext cx) a) (taskDependencies tport port) db) as Hf.
    pose proof (create_id _ Hs (mkCreateTask (taskContext cx) a) (taskDependencies tport port) db) as Hi.
    destruct (createTask services _ _ db) as [[[t|e]|e] s1]; intros [= <- <-]; split; try done.
    intros ? [= <-]. by apply Hi.
  - unfold performUpdate, mbind, M_bind.
    pose proof (get_frame _ Hs (taskContext cx) (up_taskId a) (taskDependencies tport port) db) as Hf.
    pose proof (get_id _ Hs (taskContext cx) (up_taskId a) (taskDependencies tport port) db) as Hi.
    destruct (getTask services _ _ _ db) as [[[t|e]|e] s1]; try by intros [= <- <-].
    assert (∃ r2 s2, (if shouldUpdateFields a
                      then updateTask services (field_update (taskContext cx) a t) (taskDependencies tport port)
                      else mret (inl t)) s1 = (r2, s2) ∧ s2.1 = db.1 ∧
                     ∀ u, r2 = Returned (inl u) → not_blank (Some (td_id u))) as (r2 & s2 & -> & Hf2 & Hi2).
    { destruct (shouldUpdateFields a).
      - pose proof (update_frame _ Hs (field_update (taskContext cx) a t) (taskDependencies tport port) s1) as Hf2.
        pose proof (update_id _ Hs (field_update (taskContext cx) a t) (taskDependencies tport port) s1) as Hi2.
        destruct (updateTask services _ _ s1) as [r2 s2]. exists r2, s2. simpl in *. split; [done|].
        split; [congruence|done].
      - exists (Returned (inl t)), s1. split; [done|]. split; [done|]. intros u [= <-]. by apply Hi. }
    destruct r2 as [[u|e]|e]; try by intros [= <- <-].
    destruct (match up_status a with Some st => if bool_decide (st = td_status u) then None else Some st | None => None end)
      as [st|].
    + pose proof (move_frame _ Hs (mkMoveTask (taskContext cx) (up_taskId a) st (td_position u))
        (taskDependencies tport port) s2) as Hf3.
      pose proof (move_id _ Hs (mkMoveTask (taskContext cx) (up_taskId a) st (td_position u))
        (taskDependencies tport port) s2) as Hi3.
      destruct (moveTask services _ _ s2) as [[[m|e]|e] s3]; intros [= <- <-]; split; simpl in *; try congruence.
      intros ? [= <-]. by apply Hi3.
    + intros [= <- <-]. split; [done|]. intros ? [= <-]. by apply Hi2.
Qed.

Definition execution_outcome {N O} (x : ToolExecution N O) : AssistantToolOutcome :=
  match x with Succeeded _ _ _ o => o | Failed _ _ _ _ o => o end.

Section once.
Context {W : Type} `{NodeRuntime} `{NodeDates} `{OpaqueTexts} `{TenantDatabase} `{Jsonb} `{!DistinctUuids}.
Context (services : RuntimeControlTaskServices (S := database W)).
Context (tport port : option AuthorizationPort).

(** The request summary of a call, of parsed and of malformed arguments. *)
Definition request_of (n : RuntimeControlTaskToolName) (args : jsval) : jsobj :=
  match parseArgs n args with
  | ok p => requestSummary p
  | err e => malformedRequestSummary (tool_name n) args e
  end.

(** The receipt an execution leaves behind. *)
Definition recorded (input : ToolInput) (s : store) (n : RuntimeControlTaskToolName) (o : AssistantToolOutcome) : Prop :=
  let cx := tl_context input in
  ∃ name call key,
    normalized_keys (tool_name n) (trim (tl_toolCallId input)) (tx_commandIdempotencyKey cx) = ok (name, call, key) ∧
    existing_outcome (tx_assistantTurnId cx) call s = Some o ∧
    receipt_of o (tx_assistantTurnId cx) name call key (request_of n (tl_args input)) ∧
    oc_in (cx_scope (tx_context cx)) o = true ∧ oc_status o ≠ OStarted.

Lemma completed_finished n call r x :
  completedExecutionFromOutcome n call r = ok x →
  execution_outcome x = sr_outcome r ∧ oc_status (sr_outcome r) ≠ OStarted.
Proof.
  unfold completedExecutionFromOutcome. destruct (oc_status (sr_outcome r)); [done| |by intros [= <-]].
  destruct (outputFromOutcome _); [|done]. by intros [= <-].
Qed.

Lemma admitted_keys_error {A} cx name call key e (body : string * string * string → M (database W) (Result A)) db :
  normalized_keys name call key = err e → admitted (W := W) cx port ActExecute →
  authorized cx port ActExecute
    match normalized_keys name call key with err e => mret (err e) | ok keys => body keys end db
  = (Returned (err e), db).
Proof. intros Hk Had. by rewrite (authorized_run _ _ _ _ _ Had), Hk. Qed.

(** A failure that is recorded. *)
Lemma finish_failure_inv input n failure s w x db name call key :
  admitted (W := W) (tx_context (tl_context input)) port ActExecute → tables_ok s →
  normalized_keys (tool_name n) (trim (tl_toolCallId input)) (tx_commandIdempotencyKey (tl_context input))
    = ok (name, call, key) →
  finishFailure (task_tool_options services tport port) port (tl_context input) n (trim (tl_toolCallId input))
    (request_of n (tl_args input)) failure (s, w) = (Returned (ok x), db) →
  ∃ s', db = (s', w) ∧ runtime_ok s' ∧ recorded input s' n (execution_outcome x).
Proof.
  intros Had Hok Hkeys. unfold finishFailure, mbind, M_bind. simpl.
  destruct (recordToolOutcome _ port (s, w)) as [[[o|e]|e] db'] eqn:Hrec; [|done..]. intros [= <- <-].
  apply (record_finished_inv _ _ Had _ _ _ _ _ _ _ Hkeys) in Hrec as (s' & -> & Hok' & He & Hr & Hin & Hst); [|done|done].
  exists s'. split; [done|]. split; [done|]. exists name, call, key. split; [done|]. split; [done|].
  split; [done|]. split; [done|]. simpl. by rewrite Hst.
Qed.

Lemma execute_inv input s w x db :
  services_sound services → admitted (W := W) (tx_context (tl_context input)) port ActExecute → tables_ok s →
  (∀ n, parseToolName (tl_toolName input) = ok n → json_stable (request_of n (tl_args input))) →
  executeRuntimeControlTaskTool services tport port input (s, w) = (Returned (ok x), db) →
  ∃ n, parseToolName (tl_toolName input) = ok n ∧ String.eqb (trim (tl_toolCallId input)) "" = false ∧
    runtime_ok db.1 ∧ recorded input db.1 n (execution_outcome x).
Proof.
  intros Hs Had Hok Hjson. unfold executeRuntimeControlTaskTool, runToolExecution. cbn [ToolHarness.parseToolName task_tool_options].
  destruct (parseToolName (tl_toolName input)) as [n|e]; [|done]. specialize (Hjson n eq_refl).
  destruct (String.eqb (trim (tl_toolCallId input)) "") eqn:Hcall; [done|].
  cbn [ToolHarness.parseArgs ToolHarness.requestSummary malformedSummary contextForOutcome tool_text task_tool_options].
  change (match parseArgs n (tl_args input) with
          | ok p => requestSummary p
          | err e => malformedRequestSummary (tool_name n) (tl_args input) e
          end) with (request_of n (tl_args input)).
  destruct (normalized_keys (tool_name n) (trim (tl_toolCallId input)) (tx_commandIdempotencyKey (tl_context input)))
    as [[[name call] key]|e] eqn:Hkeys.
  2: { unfold mbind, M_bind, recordStartedToolOutcome. cbn [st_context st_toolName st_toolCallId st_idempotencyKey].
       unfold taskContext. by rewrite (authorized_run _ _ _ _ _ Had), Hkeys. }
  unfold mbind, M_bind.
  destruct (recordStartedToolOutcome _ port (s, w)) as [[[r|e]|e] db1] eqn:Hrec; [|done..].
  apply (record_started_inv _ _ Had _ _ _ _ _ _ _ Hkeys) in Hrec
    as (s1 & t & -> & Hok1 & Ht & Htin & Hrole & He & Hr & Hin & Hfresh); [|done|done].
  intros Hrun. exists n. split; [done|]. split; [done|].
  destruct (sr_inserted r) eqn:Hins; simpl in Hrun.
  2: { injection Hrun as Hx <-. apply completed_finished in Hx as [Hx Hst]. simpl. split; [apply Hok1|].
       rewrite Hx. by exists name, call, key. }
  destruct (parseArgs n (tl_args input)) as [p|e] eqn:Hp.
  2: { apply (finish_failure_inv _ _ _ _ _ _ _ _ _ _ Had Hok1 Hkeys) in Hrun as (s2 & -> & ? & ?). done. }
  destruct (performTool services tport port p (tl_context input) (s1, w)) as [[[out|e]|e] [s2 w2]] eqn:Hperf; [| |done].
  all: apply (perform_sound _ _ _ _ _ _ _ _ Hs) in Hperf as [Hfr Hout]; simpl in Hfr; subst s2.
  - destruct (recordToolOutcome _ port (s1, w2)) as [[[o|e]|e] db2] eqn:Hrec2; [|done..]. injection Hrun as <- <-.
    apply (record_finished_inv _ _ Had _ _ _ _ _ _ _ Hkeys) in Hrec2
      as (s' & -> & Hok' & He' & Hr' & Hin' & Hst); [|done|by apply Hout].
    simpl. split; [done|]. exists name, call, key. split; [done|]. split; [done|].
    split; [done|]. split; [done|]. simpl. by rewrite Hst.
  - apply (finish_failure_inv _ _ _ _ _ _ _ _ _ _ Had Hok1 Hkeys) in Hrun as (s2 & -> & ? & ?). done.
Qed.

End once.
