(* ===== verification/RuntimeTheorems.v ===== *)
(** * Theorems about the conversation store

    The invariant of the stores that calls reach, the records they may never
    change, the isolation of scopes, retries and streaming, each applied to a
    small concrete run. *)
From S2P Require Import Prelude JsString JsValue JsMap SharedKernel Effects DevBoardDomain JsText.
From S2P Require Import RuntimeDomain RuntimeStore RuntimeInvariant.
Import InMemoryRuntimeConversationStore.

Section helpers.
Context `{NodeRuntime} `{OpaqueTexts}.
Implicit Types (scope : WorkspaceScope) (s : store).

Lemma reachable_later `{!DistinctUuids} s s' :
  runtime_reachable s → rtc runtime_step s s' → runtime_ok s ∧ runtime_ok s' ∧ later s s'.
Proof.
  intros Hr Hs. assert (runtime_ok s) as Hok by (by apply runtime_reachable_ok).
  split; [done|]. by apply runs_later.
Qed.

(** ** Streaming *)

(** Deltas appended one after the other. *)
Definition stream scope (turnId : string) (deltas : list string) s : store :=
  fold_left (λ s delta, store_after scope (AppendAssistantDelta (mkDelta turnId delta)) s) deltas s.

Lemma obj_get_spread_two k v k' v' o key :
  k ≠ k' → obj_get key (obj_spread o [(k, v); (k', v')]) =
    if String.eqb key k then v else if String.eqb key k' then v' else obj_get key o.
Proof.
  intros Hne. unfold obj_spread. simpl. destruct (String.eqb_spec key k) as [->|Hk].
  - by rewrite obj_get_set_ne, obj_get_set_eq.
  - destruct (String.eqb_spec key k') as [->|Hk']; [by rewrite obj_get_set_eq|].
    by rewrite !obj_get_set_ne.
Qed.

Lemma contentWithDelta_get content delta key :
  key ≠ "text" → key ≠ "deltas" → obj_get key (contentWithDelta content delta) = obj_get key content.
Proof.
  intros Ht Hd. unfold contentWithDelta. rewrite obj_get_spread_two by done.
  by apply String.eqb_neq in Ht as ->, Hd as ->.
Qed.

Lemma contentWithDelta_text content delta :
  content_text (contentWithDelta content delta) = content_text content +:+ delta.
Proof. unfold content_text at 1, contentWithDelta. by rewrite obj_get_spread_two. Qed.

Lemma contentWithDelta_deltas content delta :
  content_deltas (contentWithDelta content delta) = content_deltas content ++ [delta].
Proof.
  unfold content_deltas at 1, contentWithDelta. rewrite obj_get_spread_two by done. simpl.
  rewrite <-list_fmap_compose. apply list_fmap_id.
Qed.

Lemma stream_snoc scope k deltas delta s :
  stream scope k (deltas ++ [delta]) s =
    (appendAssistantDelta scope (mkDelta k delta) (stream scope k deltas s)).2.
Proof. unfold stream at 1. by rewrite fold_left_app. Qed.

(** One delta on a turn that takes deltas. *)
Lemma append_delta_run scope k delta s t :
  runtime_ok s → jm_get k (turns s) = Some t → tn_in scope t = true → tn_role t = RAssistant →
  canAppendAssistantDelta (tn_status t) = true →
  let t' := streamed_turn delta (sequence s + 1) t in
  appendAssistantDelta scope (mkDelta k delta) s = (Returned (ok (Updated t')), set_turn t' (tick s)) ∧
  jm_get k (turns (set_turn t' (tick s))) = Some t'.
Proof.
  intros Hok Hk Hin Hr Hst t'. split.
  - by apply transition_turn_run.
  - simpl. rewrite (rows_own tn_id (turns s) (uuids s) (ok_turns s Hok) k t Hk). apply jm_get_set_eq.
Qed.

Lemma stream_run `{!DistinctUuids} scope k deltas : ∀ s t,
  runtime_ok s → jm_get k (turns s) = Some t → tn_in scope t = true → tn_role t = RAssistant →
  canAppendAssistantDelta (tn_status t) = true →
  ∃ t', runtime_ok (stream scope k deltas s) ∧ jm_get k (turns (stream scope k deltas s)) = Some t' ∧
    turn_identity t' = turn_identity t ∧ canAppendAssistantDelta (tn_status t') = true ∧
    content_text (tn_content t') = content_text (tn_content t) +:+ foldr String.append "" deltas ∧
    content_deltas (tn_content t') = content_deltas (tn_content t) ++ deltas ∧
    (∀ key, key ≠ "text" → key ≠ "deltas" → obj_get key (tn_content t') = obj_get key (tn_content t)).
Proof.
  induction deltas as [|delta deltas IH]; intros s t Hok Hk Hin Hr Hst; simpl.
  - exists t. rewrite string_app_nil_r, app_nil_r. by split_and!.
  - destruct (append_delta_run scope k delta s t Hok Hk Hin Hr Hst) as [Hrun Hget]. rewrite Hrun. simpl.
    assert (runtime_ok (set_turn (streamed_turn delta (sequence s + 1) t) (tick s))) as Hok1.
    { pose proof (store_after_change scope (AppendAssistantDelta (mkDelta k delta)) s) as Hch.
      simpl in Hch. rewrite Hrun in Hch. by eapply runtime_ok_change. }
    destruct (IH _ _ Hok1 Hget) as (t' & Hok' & Hk' & Hid & Hst' & Htext & Hdeltas & Hkeys); [done..|].
    exists t'. split_and!; try done.
    + rewrite Htext. simpl. by rewrite contentWithDelta_text, string_app_assoc.
    + rewrite Hdeltas. simpl. by rewrite contentWithDelta_deltas, <-app_assoc.
    + intros key Ht Hd. rewrite Hkeys by done. by apply contentWithDelta_get.
Qed.

End helpers.

(** ** A concrete run *)

Module RuntimeExample.

#[local] Instance numbered_runtime : NodeRuntime := {|
  sha256_hex text := text;
  randomUUID_at n := pretty n;
  dateNow_at n := Z.of_nat n;
  localeCompare s t := if decide (s = t) then 0%Z else if decide (String.le s t) then (-1)%Z else 1%Z;
|}.

#[local] Instance blank_texts : OpaqueTexts := {| opaque_text := λ _, "" |}.

#[local] Instance numbered_distinct : DistinctUuids.
Proof. split. simpl. intros i j Hij. by apply (inj pretty). Qed.

Definition here : WorkspaceScope := mkScope "org" "ws".
Definition elsewhere : WorkspaceScope := mkScope "org" "other".

Definition ask : AppendRuntimeUserTurn := mkAppendUser here "0" "user" "ask" [("text", JStr "Hello")].
Definition answer : QueueRuntimeAssistantTurn := mkQueueTurn here "0" "answer" "jarvis" None None None.
Definition lookup_tool : StartRuntimeToolOutcome := mkStartOutcome here "2" "tool" "call" "key" [] None.
Definition found : FinishRuntimeToolOutcome := mkFinishOutcome "2" "tool" "call" "key" FSucceeded [] [] None.

(** A conversation, a question, a queued answer and a tool call. *)
Definition opened : store := store_after here (CreateConversation (mkCreateConversation here "pulse" "jarvis" "user")) empty_store.
Definition asked : store := store_after here (AppendUserTurn ask) opened.
Definition queued : store := store_after here (QueueAssistantTurn answer) asked.
Definition called : store := store_after here (StartToolOutcome lookup_tool) queued.
Definition tooled : store := store_after here (FinishToolOutcome found) called.
Definition streamed : store := stream here "2" ["Hel"; "lo"] tooled.

Definition call_step (scope : WorkspaceScope) (c : runtime_call) (s : store) :
  runtime_step s (store_after scope c s) := ex_intro _ scope (ex_intro _ c eq_refl).

Lemma reachable_tooled : runtime_reachable tooled.
Proof. do 5 (eapply rtc_r; [|apply call_step]). apply rtc_refl. Qed.

Lemma tooled_streamed : rtc runtime_step tooled streamed.
Proof. do 2 (eapply rtc_r; [|apply call_step]). apply rtc_refl. Qed.

Lemma reachable_streamed : runtime_reachable streamed.
Proof. unfold runtime_reachable. etrans; [exact reachable_tooled|exact tooled_streamed]. Qed.

Lemma reachable_opened : runtime_reachable opened.
Proof. eapply rtc_once, call_step. Qed.

Lemma asked_tooled : rtc runtime_step asked tooled.
Proof. do 3 (eapply rtc_r; [|apply call_step]). apply rtc_refl. Qed.

End RuntimeExample.

Section theorems.
Context `{NodeRuntime} `{OpaqueTexts}.
Implicit Types (scope : WorkspaceScope) (s : store).

(** Every conversation store that calls reach from the empty one is sound:
    each record is kept once, under its own UUID; a turn belongs to a
    conversation of its organization and workspace; a user turn has an author
    and is final, an assistant turn has an assistant key and is never left in
    "finalizing"; a turn carries a finalization time exactly when it is final or
    failed; two turns of a conversation never share an idempotency key; a tool
    outcome belongs to an assistant turn of its scope, is completed exactly when
    it is no longer started, and no two outcomes share a turn and a tool call. *)
Theorem reachable_stores `{!DistinctUuids} s : runtime_reachable s → runtime_ok s.
Proof. apply runtime_reachable_ok. Qed.

(** Records are history: whatever calls follow, with whatever inputs and in
    whatever scopes, a conversation stays exactly as it is; a turn keeps its
    identity, never moves back towards "queued", and a final or failed turn never
    changes again; a finished tool outcome never changes again. *)
Theorem records_are_history `{!DistinctUuids} s s' :
  runtime_reachable s → rtc runtime_step s s' →
  (∀ k c, jm_get k (conversations s) = Some c → jm_get k (conversations s') = Some c) ∧
  (∀ k t, jm_get k (turns s) = Some t → ∃ t', jm_get k (turns s') = Some t' ∧
     turn_identity t' = turn_identity t ∧ turn_rank (tn_status t) <= turn_rank (tn_status t') ∧
     (isTerminalAssistantTurnStatus (tn_status t) = true → t' = t)) ∧
  (∀ k o, jm_get k (outcomes s) = Some o → ∃ o', jm_get k (outcomes s') = Some o' ∧
     outcome_identity o' = outcome_identity o ∧ (oc_status o ≠ OStarted → o' = o)).
Proof.
  intros Hr Hs. destruct (reachable_later s s' Hr Hs) as (_ & _ & [Hc Ht Ho _]). split; [done|]. split.
  - intros k t (t' & Hk & [? ? ?])%Ht. by exists t'.
  - intros k o (o' & Hk & [? ?])%Ho. by exists o'.
Qed.

(** Scopes are isolated: a call in one organization and workspace leaves the
    records of every other scope exactly as they are and adds none there, and
    reading a conversation's turns answers turns of the reader's scope only,
    refusing a conversation of another scope with a tenant-access error. *)
Theorem scopes_are_isolated `{!DistinctUuids} scope call s :
  runtime_reachable s →
  (∀ k c, cv_in scope c = false →
     jm_get k (conversations (store_after scope call s)) = Some c ↔ jm_get k (conversations s) = Some c) ∧
  (∀ k t, tn_in scope t = false →
     jm_get k (turns (store_after scope call s)) = Some t ↔ jm_get k (turns s) = Some t) ∧
  (∀ k o, oc_in scope o = false →
     jm_get k (outcomes (store_after scope call s)) = Some o ↔ jm_get k (outcomes s) = Some o) ∧
  (∀ k l, listTurns scope k s = ok l → Forall (λ t, tn_in scope t = true) l) ∧
  (∀ k c, jm_get k (conversations s) = Some c → cv_in scope c = false →
     listTurns scope k s = err TenantAccessDeniedError).
Proof.
  intros Hr. pose proof (runtime_reachable_ok s Hr) as Hok. pose proof (store_after_change scope call s) as Hch.
  split; [|split; [|split; [|split]]].
  - intros k c. by apply change_conversations_isolated.
  - intros k t. by apply change_turns_isolated.
  - intros k o. by apply change_outcomes_isolated.
  - intros k l. unfold listTurns. repeat case_match; try done; intros [= <-]; [|constructor].
    unfold sort_created. rewrite merge_sort_Permutation. apply Forall_forall.
    by intros t [[? _]%andb_prop _]%list_elem_of_filter.
  - intros k c Hk Hin. unfold listTurns, targeted. by rewrite Hk, Hin.
Qed.

(** Appending a user turn is idempotent for ever: after an append that
    inserted a turn, and any calls since, the same append answers "replayed" with
    the same turn and changes nothing, while an append with the same key whose
    author or content differs is refused as an idempotency conflict and changes
    nothing either.  (The contents are assumed to serialize: [JSON.stringify]
    throws on a bigint.) *)
Theorem user_turn_retry `{!DistinctUuids} scope input t s s1 s2 input' text text' :
  runtime_reachable s →
  appendUserTurn scope input s = (Returned (ok (Inserted t)), s1) →
  rtc runtime_step s1 s2 →
  stableJson (JObj (au_content input)) = Some text →
  stableJson (JObj (au_content input')) = Some text' →
  au_scope input' = au_scope input → au_conversationId input' = au_conversationId input →
  au_idempotencyKey input' = au_idempotencyKey input →
  appendUserTurn scope input' s2 =
    (Returned (if bool_decide (au_actorUserId input' = au_actorUserId input) && String.eqb text text'
               then ok (Replayed t) else idempotencyConflict), s2).
Proof.
  intros Hr Hrun Hs Htext Htext' Hscope Hconv Hkey.
  pose proof (runtime_ok_change scope _ _ (runtime_reachable_ok s Hr)
    (store_after_change scope (AppendUserTurn input) s)) as Hok1. simpl in Hok1. rewrite Hrun in Hok1.
  simpl in Hok1. apply insert_turn_inserted in Hrun as (Hsc & (c & Hc & Hcin) & -> & -> & _).
  set (t := user_turn scope input _ _) in *.
  destruct (runs_later _ _ Hok1 Hs) as (Hok2 & [Hcs Hts _ _]).
  destruct (Hts (tn_id t) t) as (t2 & Hk2 & [_ Hterm _]); [apply jm_get_set_eq|].
  rewrite Hterm in Hk2 by done.
  unfold appendUserTurn. rewrite Hscope, Hconv, Hkey.
  erewrite (insert_turn_existing _ _ _ _ _ _ _ _ c t); [|done|by apply Hcs|done| |exact Htext|exact Htext'].
  - subst t. unfold by_user. simpl.
    by rewrite (bool_decide_ext _ (au_actorUserId input' = au_actorUserId input)) by (split; congruence).
  - exact (existing_turn_found s2 (tn_id t) t Hok2 Hk2).
Qed.

(** Streaming accumulates: after any deltas streamed into an assistant turn
    that is queued or streaming, the next delta is accepted, and the turn then
    holds its text followed by all the deltas in order, the list of its deltas
    extended by them, and every other property of its content unchanged; it still
    takes deltas and is the turn it was. *)
Theorem streaming_accumulates `{!DistinctUuids} scope k deltas delta s t :
  runtime_reachable s → jm_get k (turns s) = Some t → tn_in scope t = true → tn_role t = RAssistant →
  canAppendAssistantDelta (tn_status t) = true →
  ∃ t', appendAssistantDelta scope (mkDelta k delta) (stream scope k deltas s) =
      (Returned (ok (Updated t')), stream scope k (deltas ++ [delta]) s) ∧
    jm_get k (turns (stream scope k (deltas ++ [delta]) s)) = Some t' ∧
    turn_identity t' = turn_identity t ∧ canAppendAssistantDelta (tn_status t') = true ∧
    content_text (tn_content t') =
      content_text (tn_content t) +:+ foldr String.append "" (deltas ++ [delta]) ∧
    content_deltas (tn_content t') = content_deltas (tn_content t) ++ deltas ++ [delta] ∧
    (∀ key, key ≠ "text" → key ≠ "deltas" → obj_get key (tn_content t') = obj_get key (tn_content t)).
Proof.
  intros Hr Hk Hin Hrole Hst. pose proof (runtime_reachable_ok s Hr) as Hok.
  destruct (stream_run scope k deltas s t) as (t1 & Hok1 & Hk1 & Hid1 & Hst1 & _); [done..|].
  destruct (stream_run scope k (deltas ++ [delta]) s t) as (t2 & Hok2 & Hk2 & Hrest); [done..|].
  assert (turn_identity t1 = turn_identity t) as Hid by done. injection Hid as _ _ Eo Ew Er _ _ _ _.
  destruct (append_delta_run scope k delta (stream scope k deltas s) t1) as [Hrun Hget];
    [done|done|by unfold tn_in; rewrite Eo, Ew|by rewrite Er|done|].
  assert (stream scope k (deltas ++ [delta]) s =
    set_turn (streamed_turn delta (sequence (stream scope k deltas s) + 1) t1) (tick (stream scope k deltas s)))
    as Es by (by rewrite stream_snoc, Hrun).
  rewrite Es in Hk2. rewrite Hget in Hk2. injection Hk2 as <-.
  eexists. rewrite Es. split; [exact Hrun|]. split; [exact Hget|]. rewrite app_assoc. by rewrite <-app_assoc.
Qed.

(** Queueing an assistant turn is not idempotent: once a delta has been
    streamed into a turn queued without content, the same request is refused as an
    idempotency conflict, although nothing of its payload has changed. *)
Theorem queued_turn_retry_conflicts `{!DistinctUuids} scope input t s s1 delta :
  runtime_reachable s → qt_content input = None →
  queueAssistantTurn scope input s = (Returned (ok (Inserted t)), s1) →
  let s2 := store_after scope (AppendAssistantDelta (mkDelta (tn_id t) delta)) s1 in
  queueAssistantTurn scope input s2 = (Returned idempotencyConflict, s2).
Proof.
  intros Hr Hnone Hrun.
  pose proof (runtime_ok_change scope _ _ (runtime_reachable_ok s Hr)
    (store_after_change scope (QueueAssistantTurn input) s)) as Hok1. simpl in Hok1. rewrite Hrun in Hok1.
  simpl in Hok1. apply insert_turn_inserted in Hrun as (Hsc & (c & Hc & Hcin) & -> & -> & _).
  set (t := queued_turn scope input _ _) in *. cbv zeta. unfold store_after.
  destruct (append_delta_run scope (tn_id t) delta _ t Hok1) as [-> Hget];
    [apply jm_get_set_eq|apply inScope_scope|done|done|]. simpl.
  set (s2 := set_turn _ (tick _)) in *.
  assert (runtime_ok s2) as Hok2.
  { eapply runtime_ok_change; [exact Hok1|]. eapply (change_turn scope _ (tn_id t) t);
      [apply jm_get_set_eq|apply inScope_scope|]. split; [done..|set_solver|done|done]. }
  unfold queueAssistantTurn. rewrite Hnone.
  erewrite (insert_turn_existing _ _ _ _ _ _ _ _ c); [|done|done|done| | |done].
  2: exact (existing_turn_found s2 _ _ Hok2 Hget).
  2: { unfold streamed_turn, t, queued_turn. rewrite Hnone. reflexivity. }
  rewrite andb_false_r. done.
Qed.

End theorems.

(** ** The theorems on the concrete run *)

Section witnesses.
Import RuntimeExample.
#[local] Existing Instance numbered_runtime.
#[local] Existing Instance blank_texts.
#[local] Existing Instance numbered_distinct.

Lemma reachable_stores_witness : runtime_reachable tooled ∧ runtime_ok tooled.
Proof. split; [exact reachable_tooled|]. apply (reachable_stores tooled), reachable_tooled. Defined.

Lemma records_are_history_witness :
  option_map oc_status (jm_get "3" (outcomes tooled)) = Some OSucceeded ∧
  ∃ t', jm_get "1" (turns streamed) = Some t' ∧ tn_status t' = TFinal.
Proof.
  split; [by vm_compute|].
  destruct (records_are_history tooled streamed reachable_tooled tooled_streamed) as (_ & Ht & _).
  destruct (Ht "1" (user_turn here ask 2 "1") ltac:(by vm_compute)) as (t' & Hk & _ & _ & Hterm).
  exists t'. split; [exact Hk|]. by rewrite Hterm.
Defined.

Lemma scopes_are_isolated_witness :
  listTurns elsewhere "0" streamed = err TenantAccessDeniedError.
Proof.
  destruct (scopes_are_isolated elsewhere (AppendUserTurn ask) streamed
    reachable_streamed) as (_ & _ & _ & _ & Hdenied).
  eapply Hdenied; by vm_compute.
Defined.

Lemma user_turn_retry_witness :
  appendUserTurn here ask tooled = (Returned (ok (Replayed (user_turn here ask 2 "1"))), tooled).
Proof.
  pose (text := default "" (stableJson (JObj (au_content ask)))).
  rewrite (user_turn_retry here ask (user_turn here ask 2 "1") opened asked tooled ask text text
    reachable_opened ltac:(by vm_compute) asked_tooled) by (by vm_compute).
  by vm_compute.
Defined.

Lemma streaming_accumulates_witness :
  ∃ t', jm_get "2" (turns streamed) = Some t' ∧ content_text (tn_content t') = "Hello".
Proof.
  destruct (streaming_accumulates here "2" ["Hel"] "lo" tooled (queued_turn here answer 3 "2") reachable_tooled)
    as (t' & _ & Hk & _ & _ & Htext & _); [by vm_compute..|].
  exists t'. split; [exact Hk|]. rewrite Htext. by vm_compute.
Defined.

Lemma queued_turn_retry_conflicts_witness :
  queueAssistantTurn here answer (store_after here (AppendAssistantDelta (mkDelta "2" "Hello")) queued) =
    (Returned idempotencyConflict, store_after here (AppendAssistantDelta (mkDelta "2" "Hello")) queued).
Proof.
  apply (queued_turn_retry_conflicts here answer (queued_turn here answer 3 "2") asked queued "Hello").
  - apply (rtc_r _ opened); [exact reachable_opened|apply call_step].
  - reflexivity.
  - by vm_compute.
Defined.

End witnesses.
