(* ===== verification/LayerTheorems.v ===== *)
(** * Theorems about the SQL layer and the task tools

    Authorization decides before the database is reached, the layer refines the
    in-memory store, agents never put a task to Done, and a recorded tool call is
    never run again; each applied to concrete inputs. *)
From S2P Require Import Prelude JsString JsValue JsMap SharedKernel Effects DevBoardDomain JsText.
From S2P Require Import RuntimeDomain RuntimeStore RuntimeInvariant.
From S2P Require Import RuntimePostgres RuntimePorts RuntimeAdapters RuntimeTheorems.
From S2P Require Import TenantContext RuntimeSql Authorization TaskDomain RuntimeLifecycle RuntimeTables.
From S2P Require Import RuntimeRefine RuntimeReceipts ToolHarness TaskTools TaskToolRuns.
Import TaskTools.
Import InMemoryRuntimeConversationStore(store, existing_outcome, oc_in, tn_in, turns, outcomes, empty_store).
Module Memory := InMemoryRuntimeConversationStore.

(** ** The calls of the layer *)

Inductive layer_call : Type :=
| LCreate (input : CreateConversationInput)
| LUserTurn (input : AppendUserTurnInput)
| LStartTurn (input : StartAssistantTurnInput)
| LDelta (input : AppendAssistantDeltaInput)
| LFinalize (input : FinalizeAssistantTurnInput)
| LFail (input : FailAssistantTurnInput)
| LStarted (input : StartedOutcomeInput)
| LFinished (input : FinishedOutcomeInput).

Definition layer_context (c : layer_call) : RuntimeControlApplicationContext :=
  match c with
  | LCreate i => ci_context i | LUserTurn i => ui_context i | LStartTurn i => ai_context i
  | LDelta i => di_context i | LFinalize i => zi_context i | LFail i => xi_context i
  | LStarted i => st_context i | LFinished i => fn_context i
  end.

Section layer.
Context {S : Type} `{RuntimeDriver S} `{TenantDatabase} `{NodeDates} `{OpaqueTexts}.

(** Whether a call succeeded, without its value. *)
Definition outcome_only {A} (m : M S (Result A)) : M S (Result unit) :=
  r ← m; mret match r with ok _ => ok tt | err e => err e end.

Definition layer_run (c : layer_call) (deps : RuntimeControlDependencies) : M S (Result unit) :=
  match c with
  | LCreate i => outcome_only (createConversation i deps)
  | LUserTurn i => outcome_only (appendUserTurn i deps)
  | LStartTurn i => outcome_only (startAssistantTurn i deps)
  | LDelta i => outcome_only (appendAssistantDelta i deps)
  | LFinalize i => outcome_only (finalizeAssistantTurn i deps)
  | LFail i => outcome_only (failAssistantTurn i deps)
  | LStarted i => outcome_only (recordStartedToolOutcome i deps)
  | LFinished i => outcome_only (recordToolOutcome i deps)
  end.

(** A call that answers, and answers an error without touching the database when
    its context is not validated. *)
Definition guarded {A} (cx : RuntimeControlApplicationContext) (deps : RuntimeControlDependencies)
    (m : M S (Result A)) : Prop :=
  ∃ action : AuthorizationAction, action ∈ [ActCreate; ActUpdate; ActExecute] ∧
  (∀ s, ∃ r s', m s = (Returned r, s')) ∧
  (∀ s e, validateCommonInput cx deps action s = (Returned (err e), s) → m s = (Returned (err e), s)).

Lemma made_stateless make name id : make = Ids.makeOpaqueId name →
  (id_ok id ∧ ∀ s : S, made (make id) s = (Returned id, s)) ∨
  (¬ id_ok id ∧ ∃ e, ∀ s : S, made (make id) s = (Thrown e, s)).
Proof.
  intros ->. unfold id_ok, Ids.makeOpaqueId, Ids.parseOpaqueId. destruct (Ids.opaqueIdPattern id); [by left|].
  right. split; [done|]. by eexists.
Qed.

(** Validation answers and changes nothing; it passes when the identifiers are
    well formed and the port allows the action. *)
Lemma validate_answers cx deps action : ∃ r, ∀ s : S,
  validateCommonInput cx deps action s = (Returned r, s) ∧
  (r = ok tt →
    (id_ok (cx_orgId cx) ∧ id_ok (cx_workspaceId cx) ∧ id_ok (ra_userId (cx_actor cx))) ∧
    ∃ d, can (default defaultRuntimeControlAuthorizationPort deps)
           (mkSubject (ra_userId (cx_actor cx)) (cx_orgId cx) (cx_orgId cx) [cx_workspaceId cx]
              (Some (ra_roleKeys (cx_actor cx)))) action
           (mkResource ResAgent (cx_orgId cx) (Some (cx_orgId cx)) (Some (cx_workspaceId cx)) None None) = ok d ∧
         dc_allowed d = true).
Proof.
  unfold validateCommonInput, assertKnownContext, authorizeRuntimeControl, authorizationSubject, try_catch, mbind, M_bind.
  destruct (made_stateless Ids.makeTenantId "TenantId" (cx_orgId cx) eq_refl) as [[Ho Ht]|[_ [e1 Ht]]].
  2: { eexists. intros s. rewrite Ht. split; [reflexivity|done]. }
  destruct (made_stateless Ids.makeOrgId "OrgId" (cx_orgId cx) eq_refl) as [[_ Hg]|[Hno _]]; [|done].
  destruct (made_stateless Ids.makeWorkspaceId "WorkspaceId" (cx_workspaceId cx) eq_refl) as [[Hw Hws]|[_ [e1 Hws]]].
  2: { eexists. intros s. rewrite Ht, Hg, Hws. split; [reflexivity|done]. }
  destruct (made_stateless Ids.makeUserId "UserId" (ra_userId (cx_actor cx)) eq_refl) as [[Hu Hus]|[_ [e1 Hus]]].
  2: { eexists. intros s. rewrite Ht, Hg, Hws, Hus. split; [reflexivity|done]. }
  eexists. intros s. rewrite Ht, Hg, Hws, Hus. cbn beta iota. unfold mret, M_ret.
  rewrite Hus, Ht, Hg, Hws, Ht, Hg, Hws. split; [reflexivity|].
  destruct (can _ _ _ _) as [d|e]; [|done]. destruct (dc_allowed d) eqn:Hd; [|done]. intros _.
  split; [done|]. by exists d.
Qed.

Lemma guarded_authorized {A} cx deps action (body : M S (Result A)) :
  action ∈ [ActCreate; ActUpdate; ActExecute] → (∀ s, ∃ r s', body s = (Returned r, s')) →
  guarded cx deps (authorized cx deps action body).
Proof.
  intros Hact Hbody. exists action. split; [done|]. unfold authorized, mbind, M_bind. split.
  - intros s. destruct (validate_answers cx deps action) as [[[]|e] Hv]; destruct (Hv s) as [-> _]; [apply Hbody|].
    by eexists _, _.
  - intros s e He. by rewrite He.
Qed.

Lemma guarded_outcome {A} cx deps (m : M S (Result A)) : guarded cx deps m → guarded cx deps (outcome_only m).
Proof.
  intros (action & Hact & Hret & Herr). exists action. unfold outcome_only, mbind, M_bind. split; [done|]. split.
  - intros s. destruct (Hret s) as (r & s' & ->). by eexists _, _.
  - intros s e He. by rewrite (Herr s e He).
Qed.

Lemma attempt_answers {A} orgId code message (fn : M S (Result A)) s :
  ∃ r s', attempt orgId code message fn s = (Returned r, s').
Proof. destruct (attempt_returns orgId code message fn s) as (r & s' & Hr & _). by exists r, s'. Qed.

Lemma layer_guarded c deps : guarded (layer_context c) deps (layer_run c deps).
Proof.
  destruct c; apply guarded_outcome, guarded_authorized; try set_solver; intros s;
    repeat case_match; first [apply attempt_answers | by eexists _, _].
Qed.

End layer.

(** ** Theorems *)

(** The role-key ports decide exactly by scope and role: an action is allowed
    when, and only when, the resource and the action are supported, the resource
    lies in the subject's tenant, organization and workspaces (as far as it names
    them), and the subject is an owner, an admin or a member; every denial carries a
    reason; and both ports pass the shared authorization contract. *)
Theorem role_key_decisions :
  (∀ subject action resource,
     can defaultRuntimeControlAuthorizationPort subject action resource = decision true None ↔
     (rs_type resource = ResAgent ∨ rs_type resource = ResWorkspace) ∧
     action ∈ [ActRead; ActCreate; ActUpdate; ActExecute] ∧ subject_within subject resource ∧
     ∃ role, role ∈ default [] (sb_roleKeys subject) ∧ role ∈ ["owner"; "admin"; "member"]) ∧
  (∀ subject action resource,
     can defaultTaskAuthorizationPort subject action resource = decision true None ↔
     (rs_type resource = ResTask ∨ rs_type resource = ResWorkspace) ∧
     action ∈ [ActRead; ActCreate; ActUpdate; ActDelete] ∧ subject_within subject resource ∧
     ∃ role, role ∈ default [] (sb_roleKeys subject) ∧ role ∈ ["owner"; "admin"; "member"]) ∧
  (∀ port subject action resource,
     port ∈ [defaultRuntimeControlAuthorizationPort; defaultTaskAuthorizationPort] →
     ∃ d, can port subject action resource = ok d ∧ (dc_allowed d = true → d = mkDecision true None) ∧
       (dc_allowed d = false → is_Some (dc_reason d))) ∧
  AuthorizationContract.assertAuthorizationPortContract defaultRuntimeControlAuthorizationPort = None ∧
  AuthorizationContract.assertAuthorizationPortContract defaultTaskAuthorizationPort = None.
Proof.
  assert (∀ roles, roleAllows GMember roles = true ↔ ∃ role, role ∈ roles ∧ role ∈ ["owner"; "admin"; "member"]) as Hroles.
  { intros roles. rewrite roleAllows_member. setoid_rewrite elem_of_cons. setoid_rewrite elem_of_cons.
    setoid_rewrite list_elem_of_singleton. naive_solver. }
  split; [|split; [|split; [|by split]]].
  - intros subject action resource. rewrite <-Hroles. etrans; [apply role_key_can_allowed|].
    assert (RoleKeyRuntimeControlAuthorizationPort.supported_resource (rs_type resource) = true ↔
      rs_type resource = ResAgent ∨ rs_type resource = ResWorkspace) as -> by (destruct (rs_type resource); naive_solver).
    assert (RoleKeyRuntimeControlAuthorizationPort.supported_action action = true ↔ action ∈ [ActRead; ActCreate; ActUpdate; ActExecute]) as ->
      by (destruct action; simpl; split; try done; set_solver).
    done.
  - intros subject action resource. rewrite <-Hroles. etrans; [apply role_key_can_allowed|].
    assert (RoleKeyTaskAuthorizationPort.supported_resource (rs_type resource) = true ↔
      rs_type resource = ResTask ∨ rs_type resource = ResWorkspace) as -> by (destruct (rs_type resource); naive_solver).
    assert (RoleKeyTaskAuthorizationPort.supported_action action = true ↔ action ∈ [ActRead; ActCreate; ActUpdate; ActDelete]) as ->
      by (destruct action; simpl; split; try done; set_solver).
    done.
  - intros port subject action resource [->|[->|[]%elem_of_nil]%elem_of_cons]%elem_of_cons; apply role_key_can_decides.
Qed.

(** Authorization decides before the database: every operation of the layer
    answers, whatever the driver, the port and its input do (no exception leaves
    it); and with the default port an actor who is neither owner, admin nor member,
    or a malformed identifier, gets an error and the database is not touched. *)
Theorem authorization_comes_first {S} `{RuntimeDriver S} `{TenantDatabase} `{NodeDates} `{OpaqueTexts} c deps s :
  ∃ r s', layer_run c deps s = (Returned r, s') ∧
    (deps = None →
     ¬ (id_ok (cx_orgId (layer_context c)) ∧ id_ok (cx_workspaceId (layer_context c)) ∧
        id_ok (ra_userId (cx_actor (layer_context c))) ∧
        ∃ role, role ∈ ra_roleKeys (cx_actor (layer_context c)) ∧ role ∈ ["owner"; "admin"; "member"]) →
     (∃ e, r = err e) ∧ s' = s).
Proof.
  destruct (layer_guarded c deps) as (action & Hact & Hret & Herr). destruct (Hret s) as (r & s' & Hrun).
  exists r, s'. split; [done|]. intros -> Hno.
  destruct (validate_answers (S := S) (layer_context c) None action) as [[[]|e] Hv]; destruct (Hv s) as [Hval Hok].
  - destruct Hno. destruct (Hok eq_refl) as ((Ho & Hw & Hu) & d & Hd & Hallowed). do 3 (split; [done|]).
    simpl default in Hd. unfold defaultRuntimeControlAuthorizationPort in Hd. simpl can in Hd.
    unfold RoleKeyRuntimeControlAuthorizationPort.can in Hd.
    destruct (role_key_can_decides RoleKeyRuntimeControlAuthorizationPort.supported_resource
      RoleKeyRuntimeControlAuthorizationPort.supported_action "missing-runtime-control-role"
      (mkSubject (ra_userId (cx_actor (layer_context c))) (cx_orgId (layer_context c)) (cx_orgId (layer_context c))
        [cx_workspaceId (layer_context c)] (Some (ra_roleKeys (cx_actor (layer_context c))))) action
      (mkResource ResAgent (cx_orgId (layer_context c)) (Some (cx_orgId (layer_context c)))
        (Some (cx_workspaceId (layer_context c))) None None)) as (d' & Hd' & Htrue & _).
    rewrite Hd in Hd'. injection Hd' as <-. rewrite (Htrue Hallowed) in Hd.
    apply role_key_can_allowed in Hd as (_ & _ & _ & Hroles). simpl in Hroles.
    apply roleAllows_member in Hroles as [?|[?|?]]; eexists; (split; [done|set_solver]).
  - rewrite (Herr s e Hval) in Hrun. injection Hrun as <- <-. split; [by eexists|done].
Qed.

(** C36. The SQL layer implements the in-memory store: in an admitted session, over
    sound tables and payloads the database gives back unchanged, creating a
    conversation, appending a user turn, starting an assistant turn, streaming a
    delta, finalizing and failing a turn each answer what the in-memory adapter
    answers (a record of another scope being reported as not found) and leave the
    tables exactly as it leaves its maps. *)
Theorem layer_refines_memory {W} `{NodeRuntime} `{NodeDates} `{OpaqueTexts} `{TenantDatabase} `{Jsonb}
    cx deps (s : store) (w : W) :
  (∀ action, action ∈ [ActCreate; ActUpdate; ActExecute] → admitted (W := W) cx deps action) → tables_ok s →
  (∀ surface key surface' key',
     normalizeRuntimeKey surface "surface" = ok surface' → normalizeRuntimeKey key "assistantKey" = ok key' →
     createConversation (mkCreate cx surface key) deps (s, w) =
     mirrored "runtimeControl.conversationCreateFailed" "Assistant conversation could not be created." (λ r, r)
       (Memory.createConversation (cx_scope cx)
          (mkCreateConversation (cx_scope cx) surface' key' (ra_userId (cx_actor cx))) s) (s, w)) ∧
  (∀ conv key key' content, json_faithful content → normalizeRuntimeKey key "idempotencyKey" = ok key' →
     appendUserTurn (mkUserTurn cx conv key content) deps (s, w) =
     mirrored "runtimeControl.userTurnAppendFailed" "User turn could not be appended." insert_answer
       (Memory.appendUserTurn (cx_scope cx)
          (mkAppendUser (cx_scope cx) conv (ra_userId (cx_actor cx)) key' content) s) (s, w)) ∧
  (∀ conv key key' akey akey' content session run,
     json_faithful (default [] content) → not_blank session → not_blank run →
     normalizeRuntimeKey key "idempotencyKey" = ok key' → normalizeRuntimeKey akey "assistantKey" = ok akey' →
     startAssistantTurn (mkStartTurn cx conv key akey content session run) deps (s, w) =
     mirrored "runtimeControl.assistantTurnStartFailed" "Assistant turn could not be started." insert_answer
       (Memory.queueAssistantTurn (cx_scope cx)
          (mkQueueTurn (cx_scope cx) conv key' akey' content session run) s) (s, w)) ∧
  (∀ id delta,
     (∀ t, jm_get id (turns s) = Some t → json_faithful (Memory.contentWithDelta (tn_content t) delta)) →
     appendAssistantDelta (mkAppendDelta cx id delta) deps (s, w) =
     mirrored "runtimeControl.assistantDeltaAppendFailed" "Assistant delta could not be appended."
       (transition_answer "Assistant delta cannot be appended in the current turn state.")
       (Memory.appendAssistantDelta (cx_scope cx) (mkDelta id delta) s) (s, w)) ∧
  (∀ id content session run, json_faithful content → not_blank session → not_blank run →
     finalizeAssistantTurn (mkFinalizeInput cx id content session run) deps (s, w) =
     mirrored "runtimeControl.assistantTurnFinalizeFailed" "Assistant turn could not be finalized."
       (transition_answer "Assistant turn cannot be finalized in the current state.")
       (Memory.finalizeAssistantTurn (cx_scope cx) (mkFinalizeTurn id content session run) s) (s, w)) ∧
  (∀ id code message, json_faithful (Memory.failed_content code message) →
     failAssistantTurn (mkFailInput cx id code message) deps (s, w) =
     mirrored "runtimeControl.assistantTurnFailFailed" "Assistant turn could not be marked failed."
       (transition_answer "Assistant turn cannot be failed in the current state.")
       (Memory.failAssistantTurn (cx_scope cx) (mkFailTurn id code message) s) (s, w)).
Proof.
  intros Hadm Hok.
  assert (admitted (W := W) cx deps ActCreate) as Hc by (apply Hadm; set_solver).
  assert (admitted (W := W) cx deps ActUpdate) as Hu by (apply Hadm; set_solver).
  assert (admitted (W := W) cx deps ActExecute) as He by (apply Hadm; set_solver).
  split; [|split; [|split; [|split; [|split]]]]; intros.
  - by apply create_refined.
  - by apply append_user_refined.
  - by apply start_turn_refined.
  - by apply append_delta_refined.
  - by apply finalize_refined.
  - by apply fail_refined.
Qed.

(** An agent never puts a task to Done: arguments that ask for it are refused as
    forbidden, and no accepted call ever reaches a task service with the status
    "done".  Accepted titles are normalized and have 1 to 180 characters, accepted
    descriptions at most 4000, task ids are UUIDs, an update changes something, and
    a list answers, in the order of the service, at most the 1 to 50 tasks asked
    for, each of the status asked for. *)
Theorem agents_never_finish_tasks {S} (services : RuntimeControlTaskServices (S := S)) tport port n args p cx s :
  parseArgs n args = ok p →
  accepted p ∧ written_status p ≠ Some TsDone ∧
  performTool (refuse_done services) tport port p cx s = performTool services tport port p cx s ∧
  (∀ a out s', p = ParsedList a → performTool services tport port p cx s = (Returned (inl out), s') →
     ∃ tasks shown, listTasks services (taskContext cx) (taskDependencies tport port) s = (Returned (inl tasks), s') ∧
       out = ListOutput shown ∧ length shown <= Z.to_nat (la_limit a) ∧ shown `sublist_of` tasks ∧
       (∀ st, la_status a = Some st → Forall (λ t, td_status t = st) shown)).
Proof.
  intros Hp. destruct (parse_accepted _ _ _ Hp) as [Hacc Hdone]. split; [done|]. split; [done|].
  split; [by apply perform_refuse_done|]. intros a out s' ->. apply perform_list.
Qed.

(** C35. A tool call runs once: when an execution of a task tool has answered,
    whether with success or failure, then after any calls of the conversation store
    the same call (same turn, call id, tool and arguments) is answered from the
    receipt of the first execution, whatever the task services would now do: they
    are not called, and neither the tables nor the rest of the database change. *)
Theorem tool_calls_run_once {W} `{NodeRuntime} `{NodeDates} `{OpaqueTexts} `{TenantDatabase} `{Jsonb}
    `{!DistinctUuids} services services' tport port input (s s1 s2 : store) (w w1 w2 : W) x :
  services_sound services →
  admitted (W := W) (tx_context (tl_context input)) port ActExecute →
  tables_ok s →
  (∀ n, parseToolName (tl_toolName input) = ok n → json_stable (request_of n (tl_args input))) →
  executeRuntimeControlTaskTool services tport port input (s, w) = (Returned (ok x), (s1, w1)) →
  rtc runtime_step s1 s2 → tables_ok s2 →
  ∃ n, parseToolName (tl_toolName input) = ok n ∧
    executeRuntimeControlTaskTool services' tport port input (s2, w2) =
      (Returned (completedExecutionFromOutcome n (trim (tl_toolCallId input))
                   (mkReceipt (execution_outcome x) false)), (s2, w2)).
Proof.
  intros Hs Had Hok Hjson Hrun Hsteps Hok2.
  apply (execute_inv services tport port input s w x _ Hs Had Hok Hjson) in Hrun as (n & Hn & Hcall & Hok1 & Hrec).
  simpl in Hok1, Hrec. exists n. split; [done|].
  destruct Hrec as (name & call & key & Hkeys & He & Hr & Hin & Hst). set (o := execution_outcome x) in *.
  destruct (existing_outcome_inv _ _ _ _ Hok1 He) as (Hk & Hturn & Hcallid).
  destruct (runs_later _ _ Hok1 Hsteps) as (Hok2' & [_ Lt Lo _]).
  destruct (Lo _ _ Hk) as (o' & Hk2 & [_ Hsame]). rewrite (Hsame Hst) in Hk2. clear o' Hsame.
  pose proof (existing_outcome_found s2 _ o Hok2' Hk2) as He2. rewrite Hturn, Hcallid in He2.
  destruct (outcome_turn s2 o (ok_outcome s2 Hok2' _ _ Hk2)) as (t & Ht & Hrole & Eo & Ew).
  rewrite Hturn in Ht.
  unfold executeRuntimeControlTaskTool, runToolExecution. cbn [ToolHarness.parseToolName task_tool_options].
  rewrite Hn, Hcall. unfold mbind, M_bind.
  cbn [ToolHarness.parseArgs ToolHarness.requestSummary malformedSummary contextForOutcome tool_text task_tool_options].
  change (match parseArgs n (tl_args input) with
          | ok p => requestSummary p
          | err e => malformedRequestSummary (tool_name n) (tl_args input) e
          end) with (request_of n (tl_args input)).
  destruct (Hjson n Hn) as (text & stable & Htext & _).
  rewrite (record_started_replay _ _ Had _ _ _ _ _ _ _ Hkeys (request_of n (tl_args input)) s2 w2 o t); try done.
  unfold tn_in. rewrite Eo, Ew. exact Hin.
Qed.

(** ** Concrete sessions *)

Module LayerExample.
Import RuntimeExample.
#[local] Existing Instance numbered_runtime.
#[local] Existing Instance blank_texts.
#[local] Existing Instance numbered_distinct.
#[local] Instance session_database : TenantDatabase := application_database.
#[local] Instance no_dates : NodeDates := {| date_text := λ _, ""; date_parse := λ _, None |}.

Definition org : string := "11111111-1111-4111-8111-111111111111".
Definition workspace : string := "22222222-2222-4222-8222-222222222222".
Definition member : RuntimeControlApplicationContext := mkContext org workspace (mkActor "user-1" ["member"]).
Definition guest : RuntimeControlApplicationContext := mkContext org workspace (mkActor "user-1" ["guest"]).

(** A conversation and a queued assistant turn; the turn has id "1". *)
Definition session_store : store :=
  store_after (cx_scope member) (QueueAssistantTurn (mkQueueTurn (cx_scope member) "0" "answer" "jarvis" None None None))
    (store_after (cx_scope member) (CreateConversation (mkCreateConversation (cx_scope member) "pulse" "jarvis" "user-1"))
       empty_store).

Lemma session_store_ok : tables_ok session_store.
Proof.
  split.
  - apply runtime_reachable_ok. do 2 (eapply rtc_r; [|apply call_step]). apply rtc_refl.
  - intros k c Hk%jm_get_values. revert c Hk. apply Forall_forall. vm_compute. repeat constructor.
  - intros k t Hk%jm_get_values. revert t Hk. apply Forall_forall. vm_compute. repeat constructor.
  - intros k o Hk. by vm_compute in Hk.
Qed.

(** The member's session is admitted. *)
Lemma member_admitted {W} action :
  action ∈ [ActCreate; ActUpdate; ActExecute] → admitted (W := W) member None action.
Proof.
  intros Hact db. apply (bool_decide_pack _) in Hact. split; [|by vm_compute]. by destruct action; vm_compute in Hact |- *.
Qed.

(** A list call, its request, and a database that gives this request back. *)
Definition list_call : ToolInput :=
  mkToolInput (mkToolContext member "session" "0" "1" "command") "opzava_tasks_list" "call-1"
    (JObj [("limit", jsint 5)]).
Definition list_request : jsobj := request_of TasksList (tl_args list_call).

#[local] Instance example_jsonb : Jsonb := {|
  jsonb text := if String.eqb text (default "" (default None (jsonStringify (JObj list_request))))
                then JObj list_request else JObj [];
  jsonb_text o := default "" (default None (jsonStringify (JObj o)))
|}.

(** Services that count their calls, and services that always fail. *)
Definition counting : RuntimeControlTaskServices (S := database nat) :=
  let count {A} (a : A) : M (database nat) (A + ToolError) := λ db, (Returned (inl a), (db.1, Datatypes.S db.2)) in
  let missing : ToolError := mkToolError (domain_error "projectManagement.taskNotFound" "") JUndefined in
  let fail : M (database nat) (TaskDto + ToolError) := λ db, (Returned (inr missing), (db.1, Datatypes.S db.2)) in
  mkServices (λ _ _, fail) (λ _ _ _, fail) (λ _ _, count []) (λ _ _, fail) (λ _ _, fail).

Definition failing : RuntimeControlTaskServices (S := database nat) :=
  mkServices (λ _ _, throw (ExnError "down")) (λ _ _ _, throw (ExnError "down")) (λ _ _, throw (ExnError "down"))
    (λ _ _, throw (ExnError "down")) (λ _ _, throw (ExnError "down")).

Lemma counting_sound : services_sound counting.
Proof. by split. Qed.

Definition first_run := executeRuntimeControlTaskTool counting None None list_call (session_store, 0).
Definition called_store : store := first_run.2.1.

Lemma list_request_stable n :
  parseToolName (tl_toolName list_call) = ok n → json_stable (request_of n (tl_args list_call)).
Proof. intros Hn. vm_compute in Hn. injection Hn as <-. eexists _, _. split; [reflexivity|]. by split; vm_compute. Qed.

Lemma called_store_ok : tables_ok called_store.
Proof.
  split.
  - unfold called_store. destruct first_run as [[[x|e]|e] db] eqn:Hrun; [|by vm_compute in Hrun..].
    unfold first_run in Hrun. apply execute_inv in Hrun as (n & _ & _ & Hok & _);
      [exact Hok|exact counting_sound|by apply member_admitted, (bool_decide_unpack _); vm_compute|exact session_store_ok|exact list_request_stable].
  - intros k c Hk%jm_get_values. revert c Hk. apply Forall_forall. vm_compute. repeat constructor.
  - intros k t Hk%jm_get_values. revert t Hk. apply Forall_forall. vm_compute. repeat constructor.
  - intros k o Hk%jm_get_values. revert o Hk. apply Forall_forall. vm_compute. repeat constructor.
Qed.

End LayerExample.

(** ** The theorems on the concrete sessions *)

Section witnesses.
Import RuntimeExample LayerExample.
#[local] Existing Instance numbered_runtime.
#[local] Existing Instance blank_texts.
#[local] Existing Instance numbered_distinct.
#[local] Existing Instance session_database.
#[local] Existing Instance no_dates.
#[local] Existing Instance example_jsonb.

Lemma role_key_decisions_witness :
  can defaultTaskAuthorizationPort (AuthorizationContract.subject ["member"]) ActDelete
    AuthorizationContract.workspaceResource = decision true None.
Proof.
  destruct role_key_decisions as (_ & Htask & _). apply Htask. split; [by right|].
  split; [by apply (bool_decide_unpack _); vm_compute|].
  split; [|exists "member"; split; by apply (bool_decide_unpack _); vm_compute].
  split; [done|]. split; [by intros org [= <-]|]. intros w [= <-].
  by apply (bool_decide_unpack _); vm_compute.
Defined.

Lemma authorization_comes_first_witness :
  ∃ e, layer_run (LDelta (mkAppendDelta guest "1" "Hello")) None (session_store, tt) =
    (Returned (err e), (session_store, tt)).
Proof.
  destruct (authorization_comes_first (LDelta (mkAppendDelta guest "1" "Hello")) None (session_store, tt))
    as (r & s' & Hrun & Hdenied).
  destruct Hdenied as [[e ->] ->]; [done| |by exists e].
  intros (_ & _ & _ & role & Hrole%list_elem_of_singleton & Hin). subst role.
  apply (bool_decide_pack _) in Hin. by vm_compute in Hin.
Defined.

Lemma layer_refines_memory_witness :
  startAssistantTurn (mkStartTurn member "0" "answer" "jarvis" None None None) None (session_store, tt) =
  (Returned (ok (Memory.queued_turn (cx_scope member)
     (mkQueueTurn (cx_scope member) "0" "answer" "jarvis" None None None) 2 "1")), (session_store, tt)).
Proof.
  destruct (layer_refines_memory member None session_store tt (λ action H, member_admitted action H) session_store_ok)
    as (_ & _ & Hstart & _).
  rewrite (Hstart "0" "answer" "answer" "jarvis" "jarvis" None None None); try done.
  eexists. split; [reflexivity|by vm_compute].
Defined.

Lemma agents_never_finish_tasks_witness :
  parseArgs TasksList (tl_args list_call) = ok (ParsedList (mkListArgs None 5)) ∧
  parseArgs TasksUpdate (JObj [("taskId", JStr LayerExample.org); ("status", JStr "done")]) = err doneRequiresHuman ∧
  accepted (ParsedList (mkListArgs None 5)).
Proof.
  split; [by vm_compute|]. split; [by vm_compute|].
  apply (agents_never_finish_tasks counting None None TasksList (tl_args list_call) (ParsedList (mkListArgs None 5))
    (tl_context list_call) (session_store, 0)). by vm_compute.
Defined.

(** The second execution, by services that would throw, answers the first one. *)
Lemma tool_calls_run_once_witness :
  ∃ x, first_run.1 = Returned (ok x) ∧
    executeRuntimeControlTaskTool failing None None list_call (called_store, 7) =
      (Returned (completedExecutionFromOutcome TasksList "call-1" (mkReceipt (execution_outcome x) false)),
       (called_store, 7)).
Proof.
  destruct first_run as [[[x|e]|e] [s1 w1]] eqn:Hrun; [|by vm_compute in Hrun..].
  exists x. split; [reflexivity|]. unfold first_run in Hrun.
  destruct (tool_calls_run_once counting failing None None list_call session_store s1 called_store 0 w1 7 x
    counting_sound (member_admitted ActExecute ltac:(by apply (bool_decide_unpack _); vm_compute)) session_store_ok
    list_request_stable Hrun) as (n & Hn & Hagain).
  - unfold called_store, first_run. rewrite Hrun. apply rtc_refl.
  - exact called_store_ok.
  - assert (n = TasksList) as -> by (vm_compute in Hn; by injection Hn). exact Hagain.
Defined.

End witnesses.

(** ** The conversation store port: its two adapters are interchangeable *)

Import InMemoryRuntimeConversationStore.

(** C37. The two adapters of the conversation store port are interchangeable: from
    any reachable store whose rows can be read back, any history of calls of the
    port, in any admitted scopes, with payloads the database gives back unchanged,
    leaves the tables exactly as it leaves the maps of the in-memory adapter, and
    every call answers the same, except that a record of another scope is reported
    as missing, that an unknown conversation has no turns in memory and is refused
    in the database, and that an exception is answered as a failure. *)
Theorem adapters_are_interchangeable {W} `{NodeRuntime} `{NodeDates} `{OpaqueTexts} `{TenantDatabase} `{Jsonb}
    `{!LocaleOrder} `{!DistinctUuids} (calls : list (WorkspaceScope * port_call)) (s : store) (w : W) :
  runtime_reachable s → tables_ok s → storable_history (W := W) calls s →
  run_calls calls (s, w) = (observed_answers calls s, ((run_calls calls s).2, w)).
Proof. intros Hr Hok. apply history_simulated; [done|by apply runtime_reachable_clocked]. Qed.

(** ** A concrete history *)

Module PortExample.
Import RuntimeExample.
#[local] Existing Instance numbered_runtime.
#[local] Existing Instance blank_texts.
#[local] Existing Instance numbered_distinct.
#[local] Instance port_database : TenantDatabase := application_database.
#[local] Instance port_dates : NodeDates := {| date_text := λ _, ""; date_parse := λ _, None |}.

#[local] Instance numbered_locale : LocaleOrder.
Proof.
  assert (∀ s t, (localeCompare s t <= 0)%Z ↔ String.le s t) as Hle.
  { intros s t. simpl. repeat case_decide; subst; split; intros; try done; lia. }
  split.
  - intros s. simpl. by rewrite decide_True.
  - intros s t. rewrite !Hle. apply (total String.le).
  - intros s t u. rewrite !Hle. apply transitivity.
  - intros s t. rewrite !Hle. apply (anti_symm String.le).
Qed.

Definition session : WorkspaceScope := mkScope LayerExample.org LayerExample.workspace.

(** A database that gives back the payloads of the history. *)
Definition payloads : list jsobj := [[]; contentWithDelta [] "Hi"; [("text", JStr "Hi there")]].

#[local] Instance port_jsonb : Jsonb := {|
  jsonb text := default JNull (JObj <$> find (λ o, String.eqb text (default "" (default None (jsonStringify (JObj o))))) payloads);
  jsonb_text o := default "" (default None (jsonStringify (JObj o)));
|}.

Lemma payload_faithful o :
  o ∈ payloads → json_faithful o.
Proof.
  unfold payloads. rewrite !elem_of_cons, elem_of_nil.
  intros [->|[->|[->|[]]]]; (eexists; split; [reflexivity|by vm_compute]).
Qed.

Definition ask : runtime_call := AppendUserTurn (mkAppendUser session "0" "user-1" "ask" []).
Definition answer : runtime_call := QueueAssistantTurn (mkQueueTurn session "0" "answer" "jarvis" None None None).

(** A conversation with a question and an answer, a retry of each, a tool call for
    task "42", and what can be read of it. *)
Definition history : list (WorkspaceScope * port_call) := pair session <$> [
  WriteCall (CreateConversation (mkCreateConversation session "pulse" "jarvis" "user-1"));
  WriteCall ask; WriteCall answer; WriteCall ask;
  WriteCall (AppendAssistantDelta (mkDelta "2" "Hi")); WriteCall answer;
  WriteCall (StartToolOutcome (mkStartOutcome session "2" "tool" "call" "key" [] (Some (Some "42"))));
  WriteCall (FinishToolOutcome (mkFinishOutcome "2" "tool" "call" "key" FSucceeded [] [] None));
  WriteCall (FinalizeAssistantTurn (mkFinalizeTurn "2" [("text", JStr "Hi there")] None None));
  FindOpenConversation (mkFindOpen "pulse" "jarvis" "user-1");
  ListTurns "0"; ListTurns "9"; ListTaskAssistantRuns "42"].

Lemma session_admitted : scope_admitted (S := database nat) session.
Proof. split; [by vm_compute|]. split; [by vm_compute|]. intros s. by vm_compute. Qed.

Lemma history_cons scope c calls (s s' : store) :
  scope_admitted (S := database nat) scope → storable c s → (port_run scope c s).2 = s' →
  storable_history (W := nat) calls s' → storable_history (W := nat) ((scope, c) :: calls) s.
Proof. intros Had Hst <- Hrest. done. Qed.

Ltac next_call :=
  lazymatch goal with
  | |- storable_history ((?scope, ?c) :: ?calls) ?s =>
      let s' := eval vm_compute in (port_run scope c s).2 in
      refine (history_cons scope c calls s s' session_admitted _ _ _); [|vm_compute; reflexivity|]
  end.

Ltac payload := apply payload_faithful; vm_compute; first [left | right; left | right; right; left].

Lemma history_storable : storable_history (W := nat) history empty_store.
Proof.
  unfold history. cbn [fmap list_fmap].
  next_call; [by vm_compute|].
  next_call; [split; [payload|by vm_compute]|].
  next_call; [split; [payload|done]|].
  next_call; [split; [payload|by vm_compute]|].
  next_call. { intros t Ht. vm_compute in Ht. injection Ht as <-. payload. }
  next_call; [split; [payload|done]|].
  next_call; [split; [payload|done]|].
  next_call; [split; [payload|done]|].
  next_call; [split; [payload|done]|].
  next_call; [done|].
  next_call; [done|].
  next_call; [done|].
  next_call; [|exact I].
  split; [by vm_compute|]. intros k t Hk%jm_get_values. revert t Hk. apply Forall_forall.
  repeat constructor; (eexists; split; [reflexivity|by vm_compute]).
Qed.
End PortExample.

Section witnesses.
Import RuntimeExample PortExample.
#[local] Existing Instance numbered_runtime.
#[local] Existing Instance blank_texts.
#[local] Existing Instance numbered_distinct.
#[local] Existing Instance port_database.
#[local] Existing Instance port_dates.
#[local] Existing Instance numbered_locale.
#[local] Existing Instance port_jsonb.

(** The history in the database: the retried question is answered again, the
    retried answer conflicts, the unknown conversation is refused. *)
Lemma adapters_are_interchangeable_witness :
  run_calls history (empty_store, 5) = (observed_answers history empty_store, ((run_calls history empty_store).2, 5)) ∧
  nth_error (observed_answers history empty_store) 3 =
    Some (Returned (AnsTurnInsert (ok (Replayed (user_turn session (mkAppendUser session "0" "user-1" "ask" []) 2 "1"))))) ∧
  nth_error (observed_answers history empty_store) 5 = Some (Returned (AnsTurnInsert idempotencyConflict)) ∧
  nth_error (observed_answers history empty_store) 11 = Some (Returned (AnsTurns (err TenantAccessDeniedError))).
Proof.
  split; [|by vm_compute].
  apply (adapters_are_interchangeable history empty_store 5);
    [apply rtc_refl|exact tables_ok_empty|exact history_storable].
Defined.

End witnesses.
