(* ===== verification/TaskSql.v ===== *)
(** * Project Management: the SQL boundary of the task services
    ([packages/project-management/src/application/tasks.ts], its DTOs, rows and
    statements)

    The statements the services send, the rows they read back and their decoding.
    A transaction is known by its tenant: the driver runs a statement for an
    organization, which row security makes the only one it can see. *)
From S2P Require Import Prelude JsString JsValue SharedKernel Effects DevBoardDomain JsText RuntimeDomain.
From S2P Require Import TenantContext RuntimeSql TaskDomain.
From Stdlib Require Import Ascii.

(** ** Vocabularies *)

Inductive TaskCommentAuthorKind : Type := CkHuman | CkAssistant.
Inductive TaskEvidenceKind : Type := EkFile | EkLink.
Inductive TaskQualityReviewStatus : Type := QrOpen | QrApproved | QrChangesRequested.
Inductive TaskQualityCheckKind : Type := QkAiPrecheck | QkHuman.
Inductive TaskQualityCheckState : Type := QsPass | QsFail | QsPending.
Inductive TaskQualityReviewerState : Type := RvPending | RvApproved | RvChangesRequested.
Inductive TaskTerminalAttemptSurface : Type := SfWeb | SfRuntimeControlTool | SfMcp | SfOther.
Inductive TaskTerminalAttemptAction : Type := AtCreate | AtMove | AtMarkDone.
Inductive TaskTerminalAttemptHardReason : Type :=
| HrCreateWithTerminalStatus
| HrTerminalTransitionRequiresGovernedAdmission
| HrAttestationInvalid
| HrAttestationPrincipalMismatch
| HrNonceNotFound
| HrNonceExpired
| HrNonceConflict
| HrNonceBoundToOtherTask
| HrNonceScopeMismatch
| HrReviewMissing
| HrReviewScopeMismatch
| HrReviewNotApproved.

#[global] Instance TaskQualityReviewStatus_eq_dec : EqDecision TaskQualityReviewStatus.
Proof. solve_decision. Defined.
#[global] Instance TaskQualityCheckState_eq_dec : EqDecision TaskQualityCheckState.
Proof. solve_decision. Defined.

Definition commentAuthorKind_str (k : TaskCommentAuthorKind) : string :=
  match k with CkHuman => "human" | CkAssistant => "assistant" end.
Definition evidenceKind_str (k : TaskEvidenceKind) : string :=
  match k with EkFile => "file" | EkLink => "link" end.
Definition qualityReviewStatus_str (s : TaskQualityReviewStatus) : string :=
  match s with QrOpen => "open" | QrApproved => "approved" | QrChangesRequested => "changes_requested" end.
Definition qualityCheckKind_str (k : TaskQualityCheckKind) : string :=
  match k with QkAiPrecheck => "ai_precheck" | QkHuman => "human" end.
Definition qualityCheckState_str (s : TaskQualityCheckState) : string :=
  match s with QsPass => "pass" | QsFail => "fail" | QsPending => "pending" end.
Definition qualityReviewerState_str (s : TaskQualityReviewerState) : string :=
  match s with RvPending => "pending" | RvApproved => "approved" | RvChangesRequested => "changes_requested" end.

(** ** DTOs *)

Record TaskStepDto : Type := mkStepDto {
  sd_id : string;
  sd_taskId : string;
  sd_organizationId : string;
  sd_workspaceId : string;
  sd_text : string;
  sd_assigneeUserId : option string;
  sd_done : bool;
  sd_position : Z;
  sd_createdAt : string;
  sd_updatedAt : string;
}.

Record TaskCommentDto : Type := mkCommentDto {
  cd_id : string;
  cd_taskId : string;
  cd_organizationId : string;
  cd_workspaceId : string;
  cd_authorKind : TaskCommentAuthorKind;
  cd_authorUserId : option string;
  cd_assistantKey : option string;
  cd_body : string;
  cd_readByUserIds : list string;
  cd_createdAt : string;
}.

Record TaskWatcherDto : Type := mkWatcherDto {
  wd_taskId : string;
  wd_organizationId : string;
  wd_workspaceId : string;
  wd_userId : string;
  wd_name : option string;
  wd_createdAt : string;
}.

Record TaskEvidenceDto : Type := mkEvidenceDto {
  ed_id : string;
  ed_taskId : string;
  ed_organizationId : string;
  ed_workspaceId : string;
  ed_kind : TaskEvidenceKind;
  ed_objectRef : option string;
  ed_url : option string;
  ed_filename : string;
  ed_contentType : option string;
  ed_sizeBytes : option Z;
  ed_provenance : string;
  ed_createdByUserId : option string;
  ed_createdAt : string;
}.

Record TaskQualityCheckDto : Type := mkCheckDto {
  kd_id : string;
  kd_reviewId : string;
  kd_taskId : string;
  kd_organizationId : string;
  kd_workspaceId : string;
  kd_label : string;
  kd_kind : TaskQualityCheckKind;
  kd_state : TaskQualityCheckState;
  kd_actor : string;
  kd_createdAt : string;
  kd_updatedAt : string;
}.

Record TaskQualityReviewerDto : Type := mkReviewerDto {
  vd_id : string;
  vd_reviewId : string;
  vd_taskId : string;
  vd_organizationId : string;
  vd_workspaceId : string;
  vd_reviewerUserId : string;
  vd_reviewerName : option string;
  vd_state : TaskQualityReviewerState;
  vd_updatedAt : string;
}.

(** [TaskQualityReviewDto] without its checks and reviewers, and with them. *)
Record TaskQualityReviewBase : Type := mkReviewBase {
  qd_id : string;
  qd_taskId : string;
  qd_organizationId : string;
  qd_workspaceId : string;
  qd_status : TaskQualityReviewStatus;
  qd_approvedByUserId : option string;
  qd_approvedAt : option string;
  qd_createdAt : string;
  qd_updatedAt : string;
}.

Record TaskQualityReviewDto : Type := mkReviewDto {
  qd_base : TaskQualityReviewBase;
  qd_checks : list TaskQualityCheckDto;
  qd_reviewers : list TaskQualityReviewerDto;
}.

Record CardDetailDto : Type := mkCardDetail {
  ca_task : TaskDto;
  ca_steps : list TaskStepDto;
  ca_comments : list TaskCommentDto;
  ca_watchers : list TaskWatcherDto;
  ca_evidence : list TaskEvidenceDto;
  ca_qualityReview : option TaskQualityReviewDto;
}.

Record TaskTerminalAttemptAuditInput : Type := mkAttempt {
  ta_organizationId : string;
  ta_workspaceId : string;
  ta_surface : TaskTerminalAttemptSurface;
  ta_attemptedAction : TaskTerminalAttemptAction;
  ta_targetTaskId : option string;
  ta_actorUserId : string;
  ta_hardReason : TaskTerminalAttemptHardReason;
  ta_nonceConfirmationId : option string;
}.

(** ** Statements *)

(** The values a task is inserted with. *)
Record PreparedTaskFields : Type := mkPrepared {
  pf_title : string;
  pf_description : string;
  pf_priority : TaskPriority;
  pf_assigneeUserId : option string;
  pf_labels : list string;
  pf_dueAt : option string;
  pf_provenanceSource : string;
  pf_provenanceExternalRef : option string;
}.

(** One constructor per statement, with the values bound into it. *)
Inductive task_statement : Type :=
| SelectTaskRows (workspace : string)
| SelectTaskById (task workspace : string)
| SelectTaskByKey (org key : string)
| LockCards (workspace : string)
| InsertTask (org workspace : string) (fields : PreparedTaskFields) (status : TaskStatus) (key : option string)
| UpdateTask (task workspace title description : string) (priority : TaskPriority) (assignee : option string)
    (labels : list string)
| MoveTask (task workspace : string) (status : TaskStatus) (position : Z)
| UpdateDue (task workspace : string) (due : option string)
| FinishTask (task workspace : string) (position : Z)
| SelectSteps (task : string)
| InsertStep (task org workspace text : string) (assignee key : option string)
| UpdateStep (step task workspace : string) (done : bool)
| ReorderSteps (ids : list string) (positions : list Z) (task workspace : string)
| SelectComments (task : string)
| InsertComment (task org workspace : string) (kind : TaskCommentAuthorKind) (author assistant : option string)
    (body : string) (key : option string)
| MarkRead (task workspace user : string) (comments : option (list string))
| SelectWatchers (task : string)
| DeleteWatchers (task workspace : string)
| InsertWatchers (task org workspace : string) (users : list string)
| SelectEvidence (task : string)
| InsertEvidenceFile (task org workspace objectRef filename contentType : string) (size : Z) (provenance user : string)
| InsertEvidenceLink (task org workspace url filename provenance user : string)
| SelectReviewInWorkspace (task workspace : string)
| InsertReview (task org workspace : string)
| SelectReview (task : string)
| SelectChecks (review : string)
| SelectReviewers (review : string)
| SelectCheckByKey (org key : string)
| InsertCheck (review org workspace task label : string) (kind : TaskQualityCheckKind)
    (state : TaskQualityCheckState) (actor : string) (key : option string)
| SelectCheckReview (check task workspace : string)
| UpdateCheck (check task workspace : string) (state : TaskQualityCheckState)
| RefreshReview (task : string)
| ApproveReview (review task workspace user : string)
| UpsertReviewer (review org workspace task user : string)
| InsertConfirmation (task workspace user : string)
| DeleteConfirmations
| ConsumeConfirmation (nonce task org workspace user review : string)
| SelectConfirmation (nonce org : string)
| InsertTerminalAttempt (input : TaskTerminalAttemptAuditInput).

(** The driver, run for the organization of the transaction. *)
Class TaskDriver (S : Type) := {
  execute_task : string → task_statement → M S execute_result;
}.

(** The integer a text of decimal digits writes. *)
Fixpoint decimal_from (acc : Z) (s : string) : option Z :=
  match s with
  | EmptyString => Some acc
  | String c s =>
      if ascii_between "0" "9" c then decimal_from (acc * 10 + (Z.of_nat (nat_of_ascii c) - 48)) s else None
  end.

(** [Number(cell)] of a cell that holds neither an integer nor its decimal text. *)
Class OpaqueNumbers := { opaque_number : cell → Z }.

(** ** Decoding *)

Section decoding.
Context {S : Type} `{NodeDates} `{OpaqueTexts} `{OpaqueNumbers}.

Definition taskError (code message : string) : DomainError := domain_error code message.

(** [date.toISOString()], which throws a [RangeError]. *)
Definition iso_text (time : option Z) : M S string :=
  match time ≫= toISOString with
  | Some text => mret text
  | None => throw (ExnError "Invalid time value")
  end.

Definition parseTaskDate (c : cell) : M S string :=
  match c with
  | CDate t => iso_text (Some t)
  | CVal (JStr text) => iso_text (date_parse text)
  | CVal _ => throw (ExnDomain (taskError "projectManagement.invalidTaskRecord"
                      "Task record contains an invalid timestamp."))
  end.

Definition parseNullableDate (c : cell) : M S (option string) :=
  if absent c then mret None else t ← parseTaskDate c; mret (Some t).

(** [Number(cell)]; a text is exact up to the largest safe integer. *)
Definition cell_number (c : cell) : Z :=
  match c with
  | CVal (JNum (NInt z)) => z
  | CVal (JStr (String _ _ as digits)) =>
      match decimal_from 0 digits with
      | Some z => if (z <=? Money.max_safe_integer)%Z then z else opaque_number c
      | None => opaque_number c
      end
  | _ => opaque_number c
  end.

(** [String(cell ?? fallback)] *)
Definition text_or (fallback : string) (c : cell) : string := if absent c then fallback else cell_text c.

Definition stringArray (c : cell) : list string :=
  match c with CVal (JArr l) => js_to_string <$> l | _ => [] end.

(** [cell === text] *)
Definition cell_is (text : string) (c : cell) : bool :=
  match c with CVal v => is_string text v | CDate _ => false end.
Definition cell_true (c : cell) : bool := match c with CVal (JBool b) => b | _ => false end.

Definition rowToTaskDto (row : QueryRow) : M S TaskDto :=
  status ← or_throw (parseTaskStatus (cell_value (column "status" row)));
  priority ← or_throw (parseTaskPriority (cell_value (column "priority" row)));
  dueAt ← parseNullableDate (column "due_at" row);
  createdAt ← parseTaskDate (column "created_at" row);
  updatedAt ← parseTaskDate (column "updated_at" row);
  mret (mkTaskDto (cell_text (column "id" row)) (cell_text (column "organization_id" row))
    (cell_text (column "workspace_id" row)) (cell_number (column "card_number" row))
    (cell_text (column "title" row)) (text_or "" (column "description" row)) status priority
    (stringOrNull (column "assignee_user_id" row)) (stringOrNull (column "assignee_name" row))
    (stringArray (column "labels" row)) (cell_number (column "position" row)) dueAt
    (text_or "manual" (column "provenance_source" row))
    (stringOrNull (column "provenance_external_ref" row)) createdAt updatedAt).

Definition rowToStepDto (row : QueryRow) : M S TaskStepDto :=
  createdAt ← parseTaskDate (column "created_at" row);
  updatedAt ← parseTaskDate (column "updated_at" row);
  mret (mkStepDto (cell_text (column "id" row)) (cell_text (column "task_id" row))
    (cell_text (column "organization_id" row)) (cell_text (column "workspace_id" row))
    (cell_text (column "text" row)) (stringOrNull (column "assignee_user_id" row))
    (cell_true (column "done" row)) (cell_number (column "position" row)) createdAt updatedAt).

Definition rowToCommentDto (row : QueryRow) : M S TaskCommentDto :=
  createdAt ← parseTaskDate (column "created_at" row);
  mret (mkCommentDto (cell_text (column "id" row)) (cell_text (column "task_id" row))
    (cell_text (column "organization_id" row)) (cell_text (column "workspace_id" row))
    (if cell_is "assistant" (column "author_kind" row) then CkAssistant else CkHuman)
    (stringOrNull (column "author_user_id" row)) (stringOrNull (column "assistant_key" row))
    (cell_text (column "body" row)) (stringArray (column "read_by_user_ids" row)) createdAt).

Definition rowToWatcherDto (row : QueryRow) : M S TaskWatcherDto :=
  createdAt ← parseTaskDate (column "created_at" row);
  mret (mkWatcherDto (cell_text (column "task_id" row)) (cell_text (column "organization_id" row))
    (cell_text (column "workspace_id" row)) (cell_text (column "user_id" row))
    (stringOrNull (column "name" row)) createdAt).

Definition evidenceKind (c : cell) : TaskEvidenceKind := if cell_is "link" c then EkLink else EkFile.

Definition rowToEvidenceDto (row : QueryRow) : M S TaskEvidenceDto :=
  createdAt ← parseTaskDate (column "created_at" row);
  mret (mkEvidenceDto (cell_text (column "id" row)) (cell_text (column "task_id" row))
    (cell_text (column "organization_id" row)) (cell_text (column "workspace_id" row))
    (evidenceKind (column "kind" row)) (stringOrNull (column "object_ref" row))
    (stringOrNull (column "url" row)) (cell_text (column "filename" row))
    (stringOrNull (column "content_type" row))
    (if absent (column "size" row) then None else Some (cell_number (column "size" row)))
    (cell_text (column "provenance" row)) (stringOrNull (column "created_by_user_id" row)) createdAt).

Definition qualityReviewStatus (c : cell) : TaskQualityReviewStatus :=
  if cell_is "approved" c then QrApproved
  else if cell_is "changes_requested" c then QrChangesRequested else QrOpen.
Definition qualityCheckKind (c : cell) : TaskQualityCheckKind :=
  if cell_is "ai_precheck" c then QkAiPrecheck else QkHuman.
Definition qualityCheckState (c : cell) : TaskQualityCheckState :=
  if cell_is "pass" c then QsPass else if cell_is "fail" c then QsFail else QsPending.
Definition qualityReviewerState (c : cell) : TaskQualityReviewerState :=
  if cell_is "approved" c then RvApproved
  else if cell_is "changes_requested" c then RvChangesRequested else RvPending.

Definition rowToQualityReviewBase (row : QueryRow) : M S TaskQualityReviewBase :=
  approvedAt ← parseNullableDate (column "approved_at" row);
  createdAt ← parseTaskDate (column "created_at" row);
  updatedAt ← parseTaskDate (column "updated_at" row);
  mret (mkReviewBase (cell_text (column "id" row)) (cell_text (column "task_id" row))
    (cell_text (column "organization_id" row)) (cell_text (column "workspace_id" row))
    (qualityReviewStatus (column "status" row)) (stringOrNull (column "approved_by_user_id" row))
    approvedAt createdAt updatedAt).

Definition rowToQualityCheckDto (row : QueryRow) : M S TaskQualityCheckDto :=
  createdAt ← parseTaskDate (column "created_at" row);
  updatedAt ← parseTaskDate (column "updated_at" row);
  mret (mkCheckDto (cell_text (column "id" row)) (cell_text (column "review_id" row))
    (cell_text (column "task_id" row)) (cell_text (column "organization_id" row))
    (cell_text (column "workspace_id" row)) (cell_text (column "label" row))
    (qualityCheckKind (column "kind" row)) (qualityCheckState (column "state" row))
    (cell_text (column "actor" row)) createdAt updatedAt).

Definition rowToQualityReviewerDto (row : QueryRow) : M S TaskQualityReviewerDto :=
  updatedAt ← parseTaskDate (column "updated_at" row);
  mret (mkReviewerDto (cell_text (column "id" row)) (cell_text (column "review_id" row))
    (cell_text (column "task_id" row)) (cell_text (column "organization_id" row))
    (cell_text (column "workspace_id" row)) (cell_text (column "reviewer_user_id" row))
    (stringOrNull (column "reviewer_name" row)) (qualityReviewerState (column "state" row)) updatedAt).

End decoding.
