(* ===== verification/JsJson.v ===== *)
(** * [JSON.parse]

    The grammar of JSON over the strings of the model, and the round trip: what
    [JSON.stringify] writes of a plain value is read back as that value; and when two
    values differ in the order of keys only.

    Every call of the parser consumes a character or passes from a list to its
    first element, so twice the length of the text is fuel enough. *)
From S2P Require Import Prelude JsString JsValue SharedKernel Effects DevBoardDomain JsText RuntimeDomain.
From S2P Require Import TenantContext RuntimeSql TaskDomain TaskSql.
From Stdlib Require Import Ascii.

(** ** Lexing *)

Definition json_space (c : ascii) : bool :=
  Ascii.eqb c " " || Ascii.eqb c (ascii_of_nat 9) || Ascii.eqb c (ascii_of_nat 10) || Ascii.eqb c (ascii_of_nat 13).

Fixpoint skip_space (s : string) : string :=
  match s with String c r => if json_space c then skip_space r else s | EmptyString => s end.

Fixpoint span (p : ascii → bool) (s : string) : string * string :=
  match s with
  | String c r => if p c then let '(a, b) := span p r in (String c a, b) else (EmptyString, s)
  | EmptyString => (EmptyString, EmptyString)
  end.

Definition is_digit : ascii → bool := ascii_between "0" "9".

Definition hex_digit_value (c : ascii) : option nat :=
  let n := nat_of_ascii c in
  if is_digit c then Some (n - 48)
  else if ascii_between "a" "f" c then Some (n - 87)
  else if ascii_between "A" "F" c then Some (n - 55)
  else None.

(** The code unit of four hexadecimal digits, among those the model holds. *)
Definition hex_unit (a b c d : ascii) : option ascii :=
  a ← hex_digit_value a; b ← hex_digit_value b; c ← hex_digit_value c; d ← hex_digit_value d;
  if (a =? 0)%nat && (b =? 0)%nat then Some (ascii_of_nat (c * 16 + d)) else None.

Definition simple_escape (c : ascii) : option ascii :=
  if Ascii.eqb c dquote then Some dquote
  else if Ascii.eqb c "\" then Some "\"%char
  else if Ascii.eqb c "/" then Some "/"%char
  else if Ascii.eqb c "b" then Some (ascii_of_nat 8)
  else if Ascii.eqb c "t" then Some (ascii_of_nat 9)
  else if Ascii.eqb c "n" then Some (ascii_of_nat 10)
  else if Ascii.eqb c "f" then Some (ascii_of_nat 12)
  else if Ascii.eqb c "r" then Some (ascii_of_nat 13)
  else None.

(** The characters of a string after its opening quotation mark, and the rest. *)
Fixpoint json_text (s : string) : option (string * string) :=
  match s with
  | EmptyString => None
  | String c s =>
      if Ascii.eqb c dquote then Some (EmptyString, s)
      else if (nat_of_ascii c <? 32)%nat then None
      else if negb (Ascii.eqb c "\") then '(t, r) ← json_text s; Some (String c t, r)
      else
        match s with
        | EmptyString => None
        | String d s =>
            if Ascii.eqb d "u" then
              match s with
              | String a (String b (String e (String f s))) =>
                  unit ← hex_unit a b e f; '(t, r) ← json_text s; Some (String unit t, r)
              | _ => None
              end
            else unit ← simple_escape d; '(t, r) ← json_text s; Some (String unit t, r)
        end
  end.

(** The number a literal denotes when it has a fraction or an exponent, or is not a
    safe integer. *)
Class JsonNumbers := { literal_number : string → jsnum }.

Section parser.
Context `{JsonNumbers}.

Definition fraction_part (s : string) : option (string * string) :=
  match s with
  | String c r =>
      if Ascii.eqb c "." then
        match span is_digit r with (EmptyString, _) => None | (d, r) => Some (String "." d, r) end
      else Some (EmptyString, s)
  | EmptyString => Some (EmptyString, s)
  end.

Definition exponent_part (s : string) : option (string * string) :=
  match s with
  | String c r =>
      if Ascii.eqb c "e" || Ascii.eqb c "E" then
        let '(sign, r) :=
          match r with
          | String g r' => if Ascii.eqb g "+" || Ascii.eqb g "-" then (String g EmptyString, r') else (EmptyString, r)
          | EmptyString => (EmptyString, r)
          end in
        match span is_digit r with (EmptyString, _) => None | (d, r) => Some (String c (sign +:+ d), r) end
      else Some (EmptyString, s)
  | EmptyString => Some (EmptyString, s)
  end.

(** [0], or digits that do not start with it *)
Definition integer_part (s : string) : bool :=
  match s with
  | EmptyString => false
  | String c r => negb (Ascii.eqb c "0") || match r with EmptyString => true | _ => false end
  end.

Definition number_of (negative : bool) (integer fraction exponent : string) : jsnum :=
  let text := (if negative then "-" else "") +:+ integer +:+ fraction +:+ exponent in
  match fraction +:+ exponent, decimal_from 0 integer with
  | EmptyString, Some z =>
      if (z <=? Money.max_safe_integer)%Z then NInt (if negative then - z else z) else literal_number text
  | _, _ => literal_number text
  end.

Definition json_number (s : string) : option (jsnum * string) :=
  let '(negative, s) :=
    match s with String c r => if Ascii.eqb c "-" then (true, r) else (false, s) | EmptyString => (false, s) end in
  let '(integer, s) := span is_digit s in
  if integer_part integer then
    '(fraction, s) ← fraction_part s;
    '(exponent, s) ← exponent_part s;
    Some (number_of negative integer fraction exponent, s)
  else None.

(** [null], [true] or [false] *)
Definition json_literal (s : string) : option (jsval * string) :=
  match s with
  | String "n" (String "u" (String "l" (String "l" r))) => Some (JNull, r)
  | String "t" (String "r" (String "u" (String "e" r))) => Some (JBool true, r)
  | String "f" (String "a" (String "l" (String "s" (String "e" r)))) => Some (JBool false, r)
  | _ => None
  end%char.

(** ** Parsing *)

(** The first character that is not white space, and the rest. *)
Definition next_char (s : string) : option (ascii * string) :=
  match skip_space s with String c r => Some (c, r) | EmptyString => None end.

Fixpoint parse_value (fuel : nat) (s : string) : option (jsval * string) :=
  match fuel with
  | O => None
  | S fuel =>
      '(c, r) ← next_char s;
      if Ascii.eqb c dquote then '(t, r) ← json_text r; Some (JStr t, r)
      else if Ascii.eqb c "[" then
        '(d, r') ← next_char r;
        if Ascii.eqb d "]" then Some (JArr [], r') else '(l, r) ← parse_items fuel r; Some (JArr l, r)
      else if Ascii.eqb c "{" then
        '(d, r') ← next_char r;
        if Ascii.eqb d "}" then Some (JObj [], r') else '(o, r) ← parse_entries fuel [] r; Some (JObj o, r)
      else if is_digit c || Ascii.eqb c "-" then '(n, r) ← json_number (String c r); Some (JNum n, r)
      else json_literal (String c r)
  end
with parse_items (fuel : nat) (s : string) : option (list jsval * string) :=
  match fuel with
  | O => None
  | S fuel =>
      '(v, r) ← parse_value fuel s;
      '(c, r) ← next_char r;
      if Ascii.eqb c "," then '(l, r) ← parse_items fuel r; Some (v :: l, r)
      else if Ascii.eqb c "]" then Some ([v], r) else None
  end
with parse_entries (fuel : nat) (o : jsobj) (s : string) : option (jsobj * string) :=
  match fuel with
  | O => None
  | S fuel =>
      '(c, r) ← next_char s;
      if Ascii.eqb c dquote then
        '(k, r) ← json_text r;
        '(c, r) ← next_char r;
        if Ascii.eqb c ":" then
          '(v, r) ← parse_value fuel r;
          '(c, r) ← next_char r;
          if Ascii.eqb c "," then parse_entries fuel (obj_set k v o) r
          else if Ascii.eqb c "}" then Some (obj_set k v o, r) else None
        else None
      else None
  end.

(** [JSON.parse(s)]; [None] is the [SyntaxError] it throws. *)
Definition json_parse (s : string) : option jsval :=
  '(v, r) ← parse_value (2 * String.length s + 1) s;
  match skip_space r with EmptyString => Some v | _ => None end.
End parser.

(** ** Parsing consumes its input *)

Lemma skip_space_length s : String.length (skip_space s) <= String.length s.
Proof. induction s as [|c s IH]; simpl; [lia|]. destruct (json_space c); simpl; lia. Qed.

Lemma next_char_length s c r : next_char s = Some (c, r) → String.length r < String.length s.
Proof.
  unfold next_char. pose proof (skip_space_length s) as Hle. destruct (skip_space s) as [|d t]; [done|].
  intros [= -> ->]. simpl in Hle. lia.
Qed.

Lemma span_length p s a b : span p s = (a, b) → String.length s = String.length a + String.length b.
Proof.
  revert a b. induction s as [|c s IH]; intros a b; simpl; [by intros [= <- <-]|].
  destruct (p c); [|by intros [= <- <-]]. destruct (span p s) as [x y] eqn:Hs. intros [= <- <-].
  simpl. by rewrite (IH x y).
Qed.

Ltac split_option :=
  repeat match goal with
  | H : (_ ≫= _) = Some _ |- _ => apply bind_Some in H as (? & ? & H)
  | x : (_ * _)%type |- _ => destruct x
  | H : (if ?b then _ else _) = Some _ |- _ => destruct b eqn:?; try discriminate H
  | H : Some _ = Some _ |- _ => injection H as H; subst
  | H : (_, _) = (_, _) |- _ => injection H as ? ?; subst
  end.

Lemma option_bind_ext_fun_on {A B} (f g : A → option B) (o : option A) :
  (∀ x, o = Some x → f x = g x) → o ≫= f = o ≫= g.
Proof. destruct o; simpl; auto. Qed.

Lemma json_text_length n s t r :
  String.length s <= n → json_text s = Some (t, r) → String.length r < String.length s.
Proof.
  revert s t r. induction n as [|n IH]; intros [|c s] t r Hn; simpl in *; try done; [lia|].
  assert (Hrec : ∀ s' t' r', String.length s' <= String.length s → json_text s' = Some (t', r') →
    String.length r' < S (String.length s)).
  { intros s' t' r' Hle Ht. apply IH in Ht; lia. }
  destruct (Ascii.eqb c dquote); [intros [= _ <-]; lia|]. destruct (_ <? 32)%nat; [done|].
  destruct (negb _); [intros Ht; split_option; by eapply Hrec; [|eauto]|].
  destruct s as [|d s]; [done|]. destruct (Ascii.eqb d "u").
  - destruct s as [|a [|b [|e [|f s]]]]; try done. intros Ht. split_option. eapply Hrec; [|eauto]. simpl. lia.
  - intros Ht. split_option. eapply Hrec; [|eauto]. simpl. lia.
Qed.

Section lengths.
Context `{JsonNumbers}.

Lemma json_number_length s n r : json_number s = Some (n, r) → String.length r < String.length s.
Proof.
  unfold json_number. intros Hn.
  assert (∃ neg s0, String.length s0 <= String.length s ∧
    (match s with String c r => if Ascii.eqb c "-" then (true, r) else (false, s) | EmptyString => (false, s) end) = (neg, s0))
    as (neg & s0 & Hle & Heq).
  { destruct s as [|c s]; [by exists false, ""|]. destruct (Ascii.eqb c "-"); eexists _, _; (split; [|done]); simpl; lia. }
  rewrite Heq in Hn. destruct (span is_digit s0) as [i s1] eqn:Hs1. apply span_length in Hs1.
  destruct (integer_part i) eqn:Hi; [|done]. destruct i as [|c i]; [done|]. simpl in Hs1.
  apply bind_Some in Hn as ([f s2] & Hf & Hn). apply bind_Some in Hn as ([e s3] & He & Hn). injection Hn as _ <-.
  assert (String.length s2 <= String.length s1).
  { unfold fraction_part in Hf. destruct s1 as [|d s1]; [by injection Hf as _ <-|].
    destruct (Ascii.eqb d "."); [|by injection Hf as _ <-].
    destruct (span is_digit s1) as [[|x a] b] eqn:Hs2; [done|]. injection Hf as _ <-. apply span_length in Hs2. simpl. lia. }
  assert (String.length s3 <= String.length s2); [|lia].
  unfold exponent_part in He. destruct s2 as [|d s2]; [by injection He as _ <-|].
  destruct (_ || _); [|by injection He as _ <-].
  destruct s2 as [|g s2]; simpl in *; [done|]. destruct (Ascii.eqb g "+" || Ascii.eqb g "-").
  - destruct (span is_digit s2) as [[|x a] b] eqn:Hs2; [done|]. injection He as _ <-. apply span_length in Hs2. simpl in *. lia.
  - destruct (span is_digit (String g s2)) as [[|x a] b] eqn:Hs2; [done|]. injection He as _ <-. apply span_length in Hs2.
    simpl in *. lia.
Qed.

#[local] Arguments json_literal : simpl never.
#[local] Arguments json_number : simpl never.

Lemma json_literal_length s v r : json_literal s = Some (v, r) → String.length r < String.length s.
Proof.
  unfold json_literal. repeat (case_match; try done); subst; intros [= <- <-]; simpl; lia.
Qed.

Lemma parse_value_step fuel s : parse_value (S fuel) s =
  ('(c, r) ← next_char s;
   if Ascii.eqb c dquote then '(t, r) ← json_text r; Some (JStr t, r)
   else if Ascii.eqb c "[" then
     '(d, r') ← next_char r;
     if Ascii.eqb d "]" then Some (JArr [], r') else '(l, r) ← parse_items fuel r; Some (JArr l, r)
   else if Ascii.eqb c "{" then
     '(d, r') ← next_char r;
     if Ascii.eqb d "}" then Some (JObj [], r') else '(o, r) ← parse_entries fuel [] r; Some (JObj o, r)
   else if is_digit c || Ascii.eqb c "-" then '(n, r) ← json_number (String c r); Some (JNum n, r)
   else json_literal (String c r)).
Proof. reflexivity. Qed.

Lemma parse_items_step fuel s : parse_items (S fuel) s =
  ('(v, r) ← parse_value fuel s;
   '(c, r) ← next_char r;
   if Ascii.eqb c "," then '(l, r) ← parse_items fuel r; Some (v :: l, r)
   else if Ascii.eqb c "]" then Some ([v], r) else None).
Proof. reflexivity. Qed.

Lemma parse_entries_step fuel o s : parse_entries (S fuel) o s =
  ('(c, r) ← next_char s;
   if Ascii.eqb c dquote then
     '(k, r) ← json_text r;
     '(c, r) ← next_char r;
     if Ascii.eqb c ":" then
       '(v, r) ← parse_value fuel r;
       '(c, r) ← next_char r;
       if Ascii.eqb c "," then parse_entries fuel (obj_set k v o) r
       else if Ascii.eqb c "}" then Some (obj_set k v o, r) else None
     else None
   else None).
Proof. reflexivity. Qed.

(** What a parser leaves is shorter than what it was given. *)
Lemma parse_lengths fuel :
  (∀ s v r, parse_value fuel s = Some (v, r) → String.length r < String.length s) ∧
  (∀ s l r, parse_items fuel s = Some (l, r) → String.length r < String.length s) ∧
  (∀ s o o' r, parse_entries fuel o s = Some (o', r) → String.length r < String.length s).
Proof.
  induction fuel as [|fuel (IHv & IHi & IHe)]; [done|]. split_and!.
  - intros s v r Hp. simpl in Hp. apply bind_Some in Hp as ([c s1] & Hc%next_char_length & Hp).
    repeat match type of Hp with (if ?b then _ else _) = _ => destruct b end.
    + split_option. match goal with H : json_text _ = _ |- _ => apply (json_text_length _ _ _ _ (le_n _)) in H end. lia.
    + split_option; repeat match goal with H : next_char _ = _ |- _ => apply next_char_length in H end; try lia.
      match goal with H : parse_items _ _ = _ |- _ => apply IHi in H end. lia.
    + split_option; repeat match goal with H : next_char _ = _ |- _ => apply next_char_length in H end; try lia.
      match goal with H : parse_entries _ _ _ = _ |- _ => apply IHe in H end. lia.
    + split_option. match goal with H : json_number _ = _ |- _ => apply json_number_length in H; simpl in H end. lia.
    + apply (json_literal_length (String c s1)) in Hp. simpl in Hp. lia.
  - intros s l r Hp. simpl in Hp. split_option;
      repeat match goal with
      | H : next_char _ = _ |- _ => apply next_char_length in H
      | H : parse_value _ _ = _ |- _ => apply IHv in H
      | H : parse_items _ _ = _ |- _ => apply IHi in H
      end; lia.
  - intros s o o' r Hp. simpl in Hp. split_option;
      repeat match goal with
      | H : next_char _ = _ |- _ => apply next_char_length in H
      | H : json_text _ = _ |- _ => apply (json_text_length _ _ _ _ (le_n _)) in H
      | H : parse_value _ _ = _ |- _ => apply IHv in H
      | H : parse_entries _ _ _ = _ |- _ => apply IHe in H
      end; lia.
Qed.

(** More fuel than twice the length of the text changes nothing. *)
Lemma parse_fuel fuel :
  (∀ s, 2 * String.length s + 1 <= fuel → parse_value (S fuel) s = parse_value fuel s) ∧
  (∀ s, 2 * String.length s + 2 <= fuel → parse_items (S fuel) s = parse_items fuel s) ∧
  (∀ s o, 2 * String.length s + 2 <= fuel → parse_entries (S fuel) o s = parse_entries fuel o s).
Proof.
  induction fuel as [|fuel (IHv & IHi & IHe)]; [split_and!; intros; lia|]. split_and!.
  - intros s Hle. rewrite !parse_value_step. apply option_bind_ext_fun_on. intros [c r] Hc%next_char_length.
    repeat (case_match; try done).
    + apply option_bind_ext_fun_on. intros [d r'] _. case_match; [done|]. rewrite IHi by lia. done.
    + apply option_bind_ext_fun_on. intros [d r'] _. case_match; [done|]. rewrite IHe by lia. done.
  - intros s Hle. rewrite !parse_items_step. rewrite IHv by lia. apply option_bind_ext_fun_on. intros [v r] Hv.
    apply (parse_lengths fuel) in Hv. apply option_bind_ext_fun_on. intros [c r'] Hc%next_char_length.
    case_match; [|done]. rewrite IHi by lia. done.
  - intros s o Hle. rewrite !parse_entries_step. apply option_bind_ext_fun_on. intros [c r] Hc%next_char_length.
    case_match; [|done]. apply option_bind_ext_fun_on. intros [k r0] Hk%(json_text_length _ _ _ _ (le_n _)).
    apply option_bind_ext_fun_on. intros [d r1] Hd%next_char_length. case_match; [|done]. rewrite IHv by lia.
    apply option_bind_ext_fun_on. intros [v r2] Hv. apply (parse_lengths fuel) in Hv.
    apply option_bind_ext_fun_on. intros [e r3] He%next_char_length. case_match; [|done]. apply IHe. lia.
Qed.

Lemma parse_value_fuel n s : 2 * String.length s + 1 <= n → parse_value n s = parse_value (2 * String.length s + 1) s.
Proof.
  induction n as [|n IH]; [lia|]. intros Hle. destruct (decide (2 * String.length s + 1 <= n)) as [Hn|Hn].
  - rewrite (proj1 (parse_fuel n)) by done. by apply IH.
  - by replace (S n) with (2 * String.length s + 1) by lia.
Qed.
End lengths.

(** ** What is written is read back *)

(** *** Decimal digits *)

Lemma pretty_digit_char n : (n < 10)%N → is_digit (pretty_N_char n) = true
  ∧ Z.of_nat (nat_of_ascii (pretty_N_char n)) = (48 + Z.of_N n)%Z
  ∧ ((0 < n)%N → ascii_between "1" "9" (pretty_N_char n) = true).
Proof.
  intros Hn. assert (n = 0 ∨ n = 1 ∨ n = 2 ∨ n = 3 ∨ n = 4 ∨ n = 5 ∨ n = 6 ∨ n = 7 ∨ n = 8 ∨ n = 9)%N as Hcases by lia.
  repeat destruct Hcases as [->|Hcases]; try subst n; split_and!; done.
Qed.

Lemma decimal_from_pretty_go x s : decimal_from 0 (pretty_N_go x s) = decimal_from (Z.of_N x) s.
Proof.
  revert s. induction x as [x IH] using (well_founded_ind N.lt_wf_0). intros s.
  destruct (decide (0 < x)%N) as [Hx|Hx]; [|assert (x = 0%N) as -> by lia; done].
  rewrite pretty_N_go_step by done. rewrite IH by (by apply N.div_lt).
  destruct (pretty_digit_char (x mod 10)%N) as (Hd & Hv & _); [by apply N.mod_lt|]. unfold is_digit in Hd.
  cbn [decimal_from]. rewrite Hd, Hv. f_equal. rewrite N2Z.inj_div, N2Z.inj_mod. simpl (Z.of_N 10).
  pose proof (Z.div_mod (Z.of_N x) 10). lia.
Qed.

(** Digits of which the first is not [0]. *)
Lemma pretty_go_digits x s :
  (0 < x)%N → string_forall is_digit s = true →
  ∃ c r, pretty_N_go x s = String c r ∧ ascii_between "1" "9" c = true ∧ string_forall is_digit r = true.
Proof.
  revert s. induction x as [x IH] using (well_founded_ind N.lt_wf_0). intros s Hx Hs.
  rewrite pretty_N_go_step by done. destruct (pretty_digit_char (x mod 10)%N) as (Hd & _ & Hp); [by apply N.mod_lt|].
  destruct (decide (x < 10)%N) as [Hlt|Hge].
  - rewrite N.div_small by done. rewrite pretty_N_go_0. eexists _, _. split_and!; [done| |done].
    apply Hp. rewrite N.mod_small; lia.
  - apply IH; [by apply N.div_lt|apply N.div_str_pos; lia|]. cbn [string_forall]. by rewrite Hd.
Qed.

Lemma pretty_positive n : (0 < n)%Z → pretty n = pretty_N_go (Z.to_N n) "".
Proof. by destruct n. Qed.

Lemma one_digit c : ascii_between "1" "9" c = true →
  is_digit c = true ∧ Ascii.eqb c "0" = false ∧ Ascii.eqb c "-" = false ∧ json_space c = false
  ∧ Ascii.eqb c dquote = false ∧ Ascii.eqb c "[" = false ∧ Ascii.eqb c "{" = false.
Proof. by destruct c as [[] [] [] [] [] [] [] []]. Qed.

Lemma span_app p a b :
  string_forall p a = true → (match b with String c _ => p c | EmptyString => false end) = false →
  span p (a +:+ b) = (a, b).
Proof.
  intros Ha Hb. induction a as [|c a IH].
  - rewrite string_app_nil_l. destruct b as [|c b]; simpl; [done|]. by rewrite Hb.
  - simpl in Ha. apply andb_true_iff in Ha as [Hc Ha]. rewrite string_app_cons. simpl. by rewrite Hc, (IH Ha).
Qed.

(** What may follow a value: the end, or a separator. *)
Definition ends (s : string) : bool :=
  match s with EmptyString => true | String c _ => Ascii.eqb c "," || Ascii.eqb c "]" || Ascii.eqb c "}" end.

Lemma ends_char c s : ends (String c s) = true → is_digit c = false ∧ Ascii.eqb c "." = false
  ∧ Ascii.eqb c "e" = false ∧ Ascii.eqb c "E" = false.
Proof. by destruct c as [[] [] [] [] [] [] [] []]. Qed.

Section round_trip.
Context `{JsonNumbers}.

Lemma fraction_part_ends s : ends s = true → fraction_part s = Some (EmptyString, s).
Proof. destruct s as [|c s]; [done|]. intros (_ & Hc & _)%ends_char. unfold fraction_part. by rewrite Hc. Qed.

Lemma exponent_part_ends s : ends s = true → exponent_part s = Some (EmptyString, s).
Proof. destruct s as [|c s]; [done|]. intros (_ & _ & Hc & Hc')%ends_char. unfold exponent_part. by rewrite Hc, Hc'. Qed.

Lemma ends_digits s : ends s = true → (match s with String c _ => is_digit c | EmptyString => false end) = false.
Proof. destruct s as [|c s]; [done|]. by intros (Hc & _)%ends_char. Qed.

(** An integer is read back from its decimal text. *)
Lemma json_number_pretty z s :
  (Z.abs z <= Money.max_safe_integer)%Z → ends s = true → json_number (pretty z +:+ s) = Some (NInt z, s).
Proof.
  intros Hz Hs.
  assert (∀ n, (0 < n <= Money.max_safe_integer)%Z → ∃ c r, pretty n = String c r ∧ ascii_between "1" "9" c = true ∧
    string_forall is_digit r = true ∧ decimal_from 0 (pretty n) = Some n) as Hpos.
  { intros n [Hn _]. rewrite pretty_positive by done.
    destruct (pretty_go_digits (Z.to_N n) "") as (c & r & Hp & Hc & Hr); [lia|done|]. exists c, r. split_and!; try done.
    rewrite decimal_from_pretty_go. by rewrite Z2N.id by lia. }
  assert (∀ neg n, (0 < n <= Money.max_safe_integer)%Z → ∀ i, pretty n = i →
    (let '(integer, s) := span is_digit (i +:+ s) in
     if integer_part integer then
       '(fraction, s) ← fraction_part s; '(exponent, s) ← exponent_part s;
       Some (number_of neg integer fraction exponent, s) else None) = Some (NInt (if neg then - n else n)%Z, s)) as Hread.
  { intros neg n Hn i Hi. destruct (Hpos n Hn) as (c & r & Hp & Hc & Hr & Hd). rewrite Hi in *.
    destruct (one_digit c Hc) as (Hdc & Hc0 & _). rewrite span_app; [|by rewrite Hp; simpl; rewrite Hdc|by apply ends_digits].
    unfold integer_part. rewrite Hp at 1. rewrite Hc0. rewrite orb_true_l. rewrite fraction_part_ends by done. simpl.
    rewrite exponent_part_ends by done. simpl. unfold number_of. rewrite Hd. simpl. by rewrite (proj2 (Z.leb_le _ _) (proj2 Hn)). }
  unfold json_number. destruct z as [|p|p].
  - pose proof (span_app is_digit "0" s eq_refl (ends_digits _ Hs)) as Hspan. change (pretty 0%Z) with "0".
    rewrite string_app_cons, string_app_nil_l in *. cbn [Ascii.eqb Bool.eqb]. rewrite Hspan. cbn [integer_part].
    rewrite fraction_part_ends by done. cbn. by rewrite exponent_part_ends.
  - destruct (Hpos (Z.pos p)) as (c & r & Hp & Hc & _); [lia|]. specialize (Hread false (Z.pos p) ltac:(lia) _ Hp).
    rewrite Hp, string_app_cons in *. by rewrite (proj1 (proj2 (proj2 (one_digit c Hc)))).
  - change (pretty (Z.neg p)) with ("-" +:+ pretty (Z.pos p)). rewrite string_app_assoc.
    apply (Hread true (Z.pos p) ltac:(lia) _ eq_refl).
Qed.

Lemma json_text_escape c s :
  json_text (json_escape c +:+ s) = ('(t, r) ← json_text s; Some (String c t, r)).
Proof. destruct c as [[] [] [] [] [] [] [] []]; reflexivity. Qed.

Lemma json_text_body s r : json_text (json_body s +:+ String dquote r) = Some (s, r).
Proof. induction s as [|c s IH]; [done|]. simpl. rewrite string_app_assoc, json_text_escape, IH. done. Qed.
End round_trip.

(** *** Values *)

(** The values [JSON.stringify] writes without loss. *)
Fixpoint plain (v : jsval) : bool :=
  match v with
  | JNull | JBool _ | JStr _ => true
  | JNum (NInt z) => (Z.abs z <=? Money.max_safe_integer)%Z
  | JArr l => forallb plain l
  | JObj o => bool_decide (NoDup o.*1) && forallb (λ kv, plain kv.2) o
  | _ => false
  end.

Fixpoint stringify_items (l : list jsval) : option (list string) :=
  match l with
  | [] => Some []
  | v :: l =>
      match jsonStringify v, stringify_items l with
      | Some t, Some ts => Some (default "null" t :: ts)
      | _, _ => None
      end
  end.

Fixpoint stringify_entries (o : jsobj) : option (list (string * string)) :=
  match o with
  | [] => Some []
  | (k, v) :: o =>
      match jsonStringify v, stringify_entries o with
      | Some (Some t), Some ts => Some ((k, t) :: ts)
      | Some None, Some ts => Some ts
      | _, _ => None
      end
  end.

Lemma jsonStringify_arr l :
  jsonStringify (JArr l) = (λ parts, Some ("[" +:+ join "," parts +:+ "]")) <$> stringify_items l.
Proof. reflexivity. Qed.
Lemma jsonStringify_obj o :
  jsonStringify (JObj o) = (λ entries, Some ("{" +:+ join "," (entry_text <$> entries) +:+ "}")) <$> stringify_entries o.
Proof. reflexivity. Qed.

Lemma string_length_app s t : String.length (s +:+ t) = String.length s + String.length t.
Proof. induction s as [|c s IH]; [done|]. rewrite string_app_cons. simpl. by rewrite IH. Qed.

Lemma obj_set_fresh k v o : k ∉ o.*1 → obj_set k v o = o ++ [(k, v)].
Proof.
  induction o as [|[k' w] o IH]; [done|]. intros Hk. simpl in Hk |- *.
  destruct (String.eqb_spec k k') as [->|Hne]; [set_solver|]. rewrite IH; [done|set_solver].
Qed.

Lemma next_char_solid c s : json_space c = false → next_char (String c s) = Some (c, s).
Proof. intros Hc. unfold next_char. simpl. by rewrite Hc. Qed.

Section values.
Context `{JsonNumbers}.

(** A text that starts a value: it is neither white space nor the end of a list. *)
Definition starts_value (t : string) : Prop :=
  ∃ c r, t = String c r ∧ json_space c = false ∧ Ascii.eqb c "]" = false.

Definition reads (v : jsval) : Prop :=
  ∃ t, jsonStringify v = Some (Some t) ∧ starts_value t ∧
  ∀ n rest, 2 * String.length t + 1 <= n → ends rest = true → parse_value n (t +:+ rest) = Some (v, rest).

Lemma reads_items l :
  Forall reads l → l ≠ [] →
  ∃ ts, stringify_items l = Some ts ∧ starts_value (join "," ts) ∧
  ∀ n rest, 2 * (String.length (join "," ts) + 1) <= n →
    parse_items n (join "," ts +:+ String "]" rest) = Some (l, rest).
Proof.
  induction l as [|v l IH]; [done|]. intros [(t & Ht & (c & r & -> & Hc & Hb) & Hread) Hl]%Forall_cons _. simpl. rewrite Ht.
  destruct (decide (l = [])) as [->|Hne].
  - exists [String c r]. split_and!; [done|by exists c, r|]. intros [|n] rest Hle; [lia|]. simpl join in *. rewrite parse_items_step.
    rewrite Hread by (done || lia). simpl. done.
  - destruct (IH Hl Hne) as (ts & -> & Hs & Hi). exists (String c r :: ts). split; [done|].
    assert (join "," (String c r :: ts) = String c r +:+ "," +:+ join "," ts) as ->.
    { destruct ts as [|u ts]; [|done]. by destruct Hs as (? & ? & ? & _). }
    split; [by eexists c, _|]. intros [|n] rest Hle; [lia|]. rewrite !string_length_app in Hle. simpl in Hle.
    rewrite parse_items_step, !string_app_assoc. rewrite Hread by (done || simpl; lia). simpl mbind.
    rewrite string_app_nil_l. rewrite Hi by lia. done.
Qed.

Lemma reads_entries o :
  Forall (λ kv, reads kv.2) o → NoDup o.*1 → o ≠ [] →
  ∃ ts, stringify_entries o = Some ts ∧ (∃ r, join "," (entry_text <$> ts) = String dquote r) ∧
  ∀ n rest acc, (∀ k, k ∈ acc.*1 → k ∉ o.*1) → 2 * (String.length (join "," (entry_text <$> ts)) + 1) <= n →
    parse_entries n acc (join "," (entry_text <$> ts) +:+ String "}" rest) = Some (acc ++ o, rest).
Proof.
  induction o as [|[k v] o IH]; [done|]. intros [(t & Ht & Hs & Hread) Ho]%Forall_cons [Hk Hnd]%NoDup_cons _.
  simpl in Ht, Hread, Hk. simpl stringify_entries. rewrite Ht.
  destruct (decide (o = [])) as [->|Hne].
  - exists [(k, t)]. split; [done|]. split; [by eexists|]. intros [|n] rest acc Hd Hle; [lia|]. simpl join in *.
    unfold entry_text, json_quote in *. simpl fst in *. simpl snd in *. rewrite !string_app_cons, !string_app_assoc in *.
    rewrite !string_app_cons, ?string_app_nil_l in *. rewrite parse_entries_step.
    rewrite next_char_solid by done. simpl mbind. rewrite json_text_body. simpl mbind.
    simpl in Hle. rewrite string_length_app in Hle. simpl in Hle.
    rewrite Hread by (done || lia). simpl. rewrite obj_set_fresh; [done|]. intros Hin. apply (Hd k Hin). simpl. set_solver.
  - destruct (IH Ho Hnd Hne) as (ts & -> & [u Hu] & Hi). exists ((k, t) :: ts). split; [done|].
    assert (join "," (entry_text <$> (k, t) :: ts) = entry_text (k, t) +:+ "," +:+ join "," (entry_text <$> ts)) as ->.
    { destruct ts as [|x ts]; [done|]. done. }
    split; [by eexists|]. intros [|n] rest acc Hd Hle; [lia|].
    unfold entry_text at 1 in Hle. unfold entry_text at 1. unfold json_quote in *. simpl fst in *. simpl snd in *.
    rewrite !string_app_cons, !string_app_assoc in *.
    rewrite !string_app_cons, ?string_app_nil_l in *. rewrite parse_entries_step.
    rewrite next_char_solid by done. simpl mbind. rewrite json_text_body. simpl mbind.
    simpl in Hle. rewrite string_length_app in Hle. simpl in Hle. rewrite string_length_app in Hle. simpl in Hle.
    rewrite Hread by (done || lia). simpl. rewrite obj_set_fresh by (intros Hin; apply (Hd k Hin); simpl; set_solver).
    rewrite Hi; [by rewrite <- app_assoc| |lia]. intros k'. rewrite fmap_app, elem_of_app. simpl.
    intros [Hin|Hin]; [specialize (Hd k' Hin); simpl in Hd; set_solver|set_solver].
Qed.

(** A number starts with a digit or a minus sign. *)
Lemma pretty_starts (z : Z) : ∃ c r, pretty z = String c r ∧ is_digit c || Ascii.eqb c "-" = true.
Proof.
  destruct z as [|p|p]; [by eexists _, _| |by eexists _, _].
  rewrite pretty_positive by lia. destruct (pretty_go_digits (Z.to_N (Z.pos p)) "") as (c & r & -> & Hc & _); [lia|done|].
  exists c, r. split; [done|]. by rewrite (proj1 (one_digit c Hc)).
Qed.

Lemma digit_start c : is_digit c || Ascii.eqb c "-" = true →
  json_space c = false ∧ Ascii.eqb c "]" = false ∧ Ascii.eqb c dquote = false ∧ Ascii.eqb c "[" = false ∧ Ascii.eqb c "{" = false.
Proof. by destruct c as [[] [] [] [] [] [] [] []]. Qed.

Lemma reads_plain v : plain v = true → reads v.
Proof.
  induction v as [| |b|num|s|l IH|o IH|k] using jsval_ind'; simpl plain; intros Hp; try discriminate Hp.
  - exists "null". split_and!; [done|by eexists _, _|]. intros [|n] rest Hle Hr; [simpl in Hle; lia|]. done.
  - exists (if b then "true" else "false"). split_and!; [done|by destruct b; eexists _, _|].
    intros [|n] rest Hle Hr; [destruct b; simpl in Hle; lia|]. by destruct b.
  - destruct num as [z| |]; try done. apply Z.leb_le in Hp. exists (pretty z). split; [done|].
    destruct (pretty_starts z) as (c & r & Hz & Hc). destruct (digit_start c Hc) as (Hsp & Hb & Hq & Ha & Ho).
    split; [by exists c, r|]. intros [|n] rest Hle Hr; [lia|]. pose proof (json_number_pretty z rest Hp Hr) as Hnum.
    rewrite Hz, string_app_cons in *. rewrite parse_value_step, next_char_solid by done. simpl mbind.
    by rewrite Hq, Ha, Ho, Hc, Hnum.
  - exists (json_quote s). split_and!; [done|by eexists _, _|]. intros [|n] rest Hle Hr; [lia|].
    unfold json_quote. rewrite string_app_cons, string_app_assoc, string_app_cons, string_app_nil_l.
    rewrite parse_value_step, next_char_solid by done. simpl mbind. by rewrite json_text_body.
  - assert (Forall reads l) as Hl.
    { rewrite Forall_forall in IH |- *. rewrite forallb_forall in Hp. intros v Hv. apply IH; [done|]. apply Hp.
      by apply list_elem_of_In. }
    destruct (decide (l = [])) as [->|Hne].
    + exists "[]". split_and!; [done|by eexists _, _|]. intros [|n] rest Hle Hr; [simpl in Hle; lia|]. done.
    + destruct (reads_items l Hl Hne) as (ts & Hts & (c & r & Hj & Hc & Hb) & Hi).
      exists ("[" +:+ join "," ts +:+ "]"). split; [by rewrite jsonStringify_arr, Hts|]. split; [by eexists _, _|].
      intros [|n] rest Hle Hr; [lia|]. rewrite !string_app_cons, string_app_nil_l, string_app_assoc, string_app_cons, string_app_nil_l.
      rewrite !string_length_app in Hle. simpl in Hle. rewrite parse_value_step, next_char_solid by done.
      specialize (Hi n rest ltac:(lia)). rewrite Hj, string_app_cons in *. simpl mbind. rewrite next_char_solid by done. simpl mbind.
      by rewrite Hb, Hi.
  - apply andb_true_iff in Hp as [Hnd%bool_decide_eq_true Hp].
    assert (Forall (λ kv, reads kv.2) o) as Ho.
    { rewrite Forall_forall in IH |- *. rewrite forallb_forall in Hp. intros v Hv. apply IH; [done|]. apply Hp.
      by apply list_elem_of_In. }
    destruct (decide (o = [])) as [->|Hne].
    + exists "{}". split_and!; [done|by eexists _, _|]. intros [|n] rest Hle Hr; [simpl in Hle; lia|]. done.
    + destruct (reads_entries o Ho Hnd Hne) as (ts & Hts & [u Hj] & Hi).
      exists ("{" +:+ join "," (entry_text <$> ts) +:+ "}"). split; [by rewrite jsonStringify_obj, Hts|]. split; [by eexists _, _|].
      intros [|n] rest Hle Hr; [lia|]. rewrite !string_app_cons, string_app_nil_l, string_app_assoc, string_app_cons, string_app_nil_l.
      rewrite !string_length_app in Hle. simpl in Hle. rewrite parse_value_step, next_char_solid by done.
      assert (Hacc : ∀ k, k ∈ ([] : jsobj).*1 → k ∉ o.*1) by set_solver.
      specialize (Hi n rest [] Hacc ltac:(lia)). rewrite Hj, string_app_cons in *. simpl mbind.
      by rewrite Hi.
Qed.
End values.

(** What [JSON.stringify] writes of a plain value, [JSON.parse] reads back. *)
Lemma json_parse_stringify `{JsonNumbers} v :
  plain v = true → ∃ t, jsonStringify v = Some (Some t) ∧ json_parse t = Some v.
Proof.
  intros (t & Ht & _ & Hread)%reads_plain. exists t. split; [done|]. unfold json_parse.
  specialize (Hread _ "" (le_n _) eq_refl). rewrite string_app_nil_r in Hread. by rewrite Hread.
Qed.

(** ** Values up to the order of keys

    A jsonb column keeps the properties of an object, and not their order. *)

Inductive json_same : jsval → jsval → Prop :=
| same_value v : json_same v v
| same_array l l' : Forall2 json_same l l' → json_same (JArr l) (JArr l')
| same_object o o1 o' : o ≡ₚ o1 → Forall2 (λ kv kv', kv.1 = kv'.1 ∧ json_same kv.2 kv'.2) o1 o' → json_same (JObj o) (JObj o').

Definition object_same (o o' : jsobj) : Prop := json_same (JObj o) (JObj o').

#[global] Instance json_same_refl : Reflexive json_same.
Proof. intros v. apply same_value. Qed.
#[global] Instance object_same_refl : Reflexive object_same.
Proof. intros o. apply same_value. Qed.

(** Only objects change. *)
Lemma json_same_string v s : json_same v (JStr s) → v = JStr s.
Proof. by inversion 1. Qed.
Lemma json_same_number v n : json_same v (JNum n) → v = JNum n.
Proof. by inversion 1. Qed.

Lemma json_same_array v l : json_same v (JArr l) → ∃ l', v = JArr l' ∧ Forall2 json_same l' l.
Proof. inversion 1; subst; eexists; (split; [done|]); [reflexivity|done]. Qed.

Lemma json_same_object v o : json_same v (JObj o) →
  ∃ o' o1, v = JObj o' ∧ o' ≡ₚ o1 ∧ Forall2 (λ kv kv', kv.1 = kv'.1 ∧ json_same kv.2 kv'.2) o1 o.
Proof.
  inversion 1 as [|l l' Hl|o' o1 o'' Hp Hf]; subst; [|by exists o', o1].
  exists o, o. split; [done|]. split; [done|]. apply Forall_Forall2_diag, Forall_true. by intros [k w].
Qed.

(** A property of an object whose keys differ is found in any order of them. *)
Lemma obj_get_permutation key o o' : NoDup o.*1 → o ≡ₚ o' → obj_get key o = obj_get key o'.
Proof.
  intros Hnd Hp. induction Hp as [|[k v] o o' _ IH|[k v] [k' v'] o|o o1 o' Hp1 IH1 Hp2 IH2]; [done|..].
  - simpl. destruct (String.eqb key k); [done|]. apply IH. by apply NoDup_cons in Hnd as [_ Hnd].
  - simpl. simpl in Hnd. apply NoDup_cons in Hnd as [Hne _].
    destruct (String.eqb_spec key k) as [E1|], (String.eqb_spec key k') as [E2|]; try done. destruct Hne. rewrite <- E1, <- E2. left.
  - rewrite IH1 by done. apply IH2. by rewrite <- Hp1.
Qed.
