(* ===== verification/TaskInputs.v ===== *)
(** * Project Management: inputs of the task services
    ([packages/project-management/src/application/tasks.ts], contexts, inputs and
    normalizers)

    What a caller gives, and what the services make of it before they reach the
    database.  A field a caller could fill with any value ([status], [priority],
    numbers, the attestation) is a JavaScript value. *)
From S2P Require Import Prelude JsString JsValue SharedKernel Effects DevBoardDomain JsText RuntimeDomain.
From S2P Require Import TenantContext RuntimeSql Authorization TaskDomain TaskSql.
From Stdlib Require Import Ascii.

(** ** Contexts and inputs *)

Record TaskActor : Type := mkTaskActor { tk_userId : string; tk_roleKeys : list string }.

Record TaskApplicationContext : Type := mkTaskContext {
  tc_orgId : string;
  tc_workspaceId : string;
  tc_actor : TaskActor;
}.

(** [string | Date | null | undefined]; an invalid [Date] has no time. *)
Inductive due_input : Type :=
| DueNone
| DueText (text : string)
| DueDate (time : option Z).

Record CreateTaskInput : Type := mkCreateTaskInput {
  nt_context : TaskApplicationContext;
  nt_title : string;
  nt_description : option string;
  nt_status : jsval;
  nt_priority : jsval;
  nt_assigneeUserId : option string;
  nt_labels : option (list string);
  nt_dueAt : due_input;
  nt_provenanceSource : option string;
  nt_provenanceExternalRef : option string;
  nt_idempotencyKey : option string;
  nt_surface : option TaskTerminalAttemptSurface;
}.

Record UpdateTaskInput : Type := mkUpdateTaskInput {
  pt_context : TaskApplicationContext;
  pt_taskId : string;
  pt_title : string;
  pt_description : option string;
  pt_priority : jsval;
  pt_assigneeUserId : option string;
  pt_labels : option (list string);
}.

Record MoveTaskInput : Type := mkMoveTaskInput {
  mv_context : TaskApplicationContext;
  mv_taskId : string;
  mv_status : jsval;
  mv_position : jsnum;
  mv_surface : option TaskTerminalAttemptSurface;
}.

Record MarkTaskDoneInput : Type := mkMarkDone {
  md_context : TaskApplicationContext;
  md_taskId : string;
  md_position : jsnum;
  md_humanCommand : jsval;     (* declared [HumanCommandAttestation], checked as unknown *)
  md_surface : option TaskTerminalAttemptSurface;
}.

(** An input of a context and a task: [GetTaskInput], [IssueDoneConfirmationInput],
    [GetCardDetailInput], [ListTaskEvidenceInput], [EnsureTaskQualityReviewInput]. *)
Record TaskTarget : Type := mkTarget { tg_context : TaskApplicationContext; tg_taskId : string }.

Record CreateStepInput : Type := mkCreateStep {
  cs_target : TaskTarget;
  cs_text : string;
  cs_assigneeUserId : option string;
  cs_idempotencyKey : option string;
}.

Record ToggleStepInput : Type := mkToggleStep { ts_target : TaskTarget; ts_stepId : string; ts_done : bool }.

Record ReorderStepsInput : Type := mkReorder { ro_target : TaskTarget; ro_stepIds : list string }.

Record AddCommentInput : Type := mkAddComment {
  ac_target : TaskTarget;
  ac_authorKind : option TaskCommentAuthorKind;
  ac_assistantKey : option string;
  ac_body : string;
  ac_idempotencyKey : option string;
}.

Record SetDueInput : Type := mkSetDue { du_target : TaskTarget; du_dueAt : due_input }.
Record SetWatchersInput : Type := mkSetWatchers { sw_target : TaskTarget; sw_userIds : list string }.
Record MarkCommentsReadInput : Type := mkMarkRead { mr_target : TaskTarget; mr_commentIds : option (list string) }.

Record AddTaskEvidenceFileInput : Type := mkEvidenceFile {
  ef_target : TaskTarget;
  ef_objectRef : string;
  ef_filename : string;
  ef_contentType : string;
  ef_sizeBytes : jsnum;
  ef_provenance : option string;
}.

Record AddTaskEvidenceLinkInput : Type := mkEvidenceLink {
  el_target : TaskTarget;
  el_url : string;
  el_title : option string;
  el_provenance : option string;
}.

Record AddQualityCheckInput : Type := mkAddCheck {
  aq_target : TaskTarget;
  aq_label : string;
  aq_kind : jsval;
  aq_state : jsval;
  aq_actorLabel : option string;
  aq_idempotencyKey : option string;
}.

Record ToggleQualityCheckInput : Type := mkToggleCheck {
  tq_target : TaskTarget;
  tq_checkId : string;
  tq_state : jsval;
}.

Record ApproveQualityReviewInput : Type := mkApproveReview {
  ar_target : TaskTarget;
  ar_expectedReviewId : option string;
}.

(** ** Normalizers *)

(** The URL parser of the host: the protocol and the serialization of a URL, [None]
    when [new URL(text)] throws. *)
Class UrlParser := { parse_url : string → option (string * string) }.

Section normalizers.
Context `{NodeDates} `{UrlParser}.

(** [value === undefined || value === null || value.trim() === ""] *)
Definition blank (value : option string) : bool :=
  match value with None => true | Some s => String.eqb (trim s) "" end.

(** [value ?? fallback] *)
Definition nullish (value fallback : jsval) : jsval :=
  match value with JUndefined | JNull => fallback | v => v end.

Definition length_within (low high : nat) (s : string) : bool :=
  (low <=? String.length s)%nat && (String.length s <=? high)%nat.

Definition normalizeAssignee (assigneeUserId : option string) (actorUserId : string) : Result (option string) :=
  if blank assigneeUserId then ok None
  else
    let normalized := trim (default "" assigneeUserId) in
    if String.eqb normalized actorUserId then ok (Some normalized)
    else err (taskError "projectManagement.unsupportedTaskAssignee"
                "This slice can assign tasks only to the current user or leave them unassigned.").

Definition normalizeOptionalUserId (value : option string) (field : string) : Result (option string) :=
  if blank value then ok None
  else
    let normalized := trim (default "" value) in
    match Ids.makeUserId normalized with
    | inl _ => ok (Some normalized)
    | inr _ => err (taskError "projectManagement.invalidUserId" (field +:+ " must be a valid user id."))
    end.

Definition unique_users (values : list string) : list string :=
  js_unique (filter (λ v, String.eqb v "" = false) (trim <$> values)).

Definition is_user_id (id : string) : bool := match Ids.makeUserId id with inl _ => true | inr _ => false end.

Definition normalizeUserIds (values : list string) : Result (list string) :=
  let unique := unique_users values in
  if negb (forallb is_user_id unique) then
    err (taskError "projectManagement.invalidUserId" "Watcher user ids must be valid.")
  else if (32 <? length unique)%nat then
    err (taskError "projectManagement.tooManyWatchers" "A task can have at most 32 watchers.")
  else ok unique.

Definition invalidDueAt : DomainError :=
  taskError "projectManagement.invalidDueAt" "Task due date must be a valid date.".

(** A time value a [Date] can hold has an ISO text. *)
Definition due_text (time : option Z) : Result (option string) :=
  match time ≫= toISOString with Some text => ok (Some text) | None => err invalidDueAt end.

Definition normalizeDueAt (value : due_input) : Result (option string) :=
  match value with
  | DueNone => ok None
  | DueText text => due_text (date_parse text)
  | DueDate time => due_text time
  end.

Definition normalizeProvenanceSource (value : option string) : Result string :=
  let source := normalize_spaces (default "manual" value) in
  if length_within 1 240 source then ok source
  else err (taskError "projectManagement.invalidTaskProvenance"
              "Task provenance source must be 1-240 characters.").

Definition normalizeExternalRef (value : option string) : Result (option string) :=
  if blank value then ok None
  else
    let normalized := trim (default "" value) in
    if length_within 0 500 normalized then ok (Some normalized)
    else err (taskError "projectManagement.invalidTaskProvenance"
                "Task provenance external ref must be 500 characters or fewer.").

Definition normalizeIdempotencyKey (value : option string) : Result (option string) :=
  if blank value then ok None
  else
    let normalized := trim (default "" value) in
    if length_within 0 160 normalized then ok (Some normalized)
    else err (taskError "projectManagement.invalidIdempotencyKey"
                "Idempotency key must be 160 characters or fewer.").

Definition normalizeStepText (value : string) : Result string :=
  let text := normalize_spaces value in
  if length_within 1 500 text then ok text
  else err (taskError "projectManagement.invalidTaskStep" "Task step text must be 1-500 characters.").

Definition normalizeCommentBody (value : string) : Result string :=
  let body := trim value in
  if length_within 1 4000 body then ok body
  else err (taskError "projectManagement.invalidTaskComment" "Task comment body must be 1-4000 characters.").

Definition is_alnum (c : ascii) : bool :=
  ascii_between "0" "9" c || ascii_between "a" "z" c || ascii_between "A" "Z" c.
Definition is_key_char (c : ascii) : bool :=
  is_alnum c || Ascii.eqb c "." || Ascii.eqb c "_" || Ascii.eqb c "-".

(** The first and the last character of a text. *)
Definition first_is (p : ascii → bool) (s : string) : bool :=
  match s with EmptyString => false | String c _ => p c end.
Fixpoint last_is (p : ascii → bool) (s : string) : bool :=
  match s with EmptyString => false | String c EmptyString => p c | String _ s => last_is p s end.

(** [/^[a-z0-9][a-z0-9._-]{1,178}[a-z0-9]$/i] *)
Definition assistantKeyPattern (s : string) : bool :=
  length_within 3 180 s && first_is is_alnum s && last_is is_alnum s && string_forall is_key_char s.

Definition normalizeAssistantKey (value : option string) : Result (option string) :=
  if blank value then ok None
  else
    let normalized := trim (default "" value) in
    if assistantKeyPattern normalized then ok (Some normalized)
    else err (taskError "projectManagement.invalidAssistantKey" "Assistant key must be 3-180 safe characters.").

Definition is_slash (c : ascii) : bool := Ascii.eqb c "/" || Ascii.eqb c "\".

(** [s.replace(/[\\/]+/g, "-")] *)
Fixpoint dash_slashes (in_run : bool) (s : string) : string :=
  match s with
  | EmptyString => EmptyString
  | String c s =>
      if is_slash c then (if in_run then dash_slashes true s else String "-" (dash_slashes true s))
      else String c (dash_slashes false s)
  end.

Definition normalizeEvidenceFilename (value : string) : Result string :=
  let filename := dash_slashes false (trim value) in
  if length_within 1 500 filename then ok filename
  else err (taskError "projectManagement.invalidEvidenceFilename" "Evidence filename must be 1-500 characters.").

Definition is_mime_char (c : ascii) : bool :=
  is_alnum c || Ascii.eqb c "." || Ascii.eqb c "+" || Ascii.eqb c "-".

(** The texts before and after the first slash. *)
Fixpoint split_slash (s : string) : option (string * string) :=
  match s with
  | EmptyString => None
  | String c s =>
      if Ascii.eqb c "/" then Some (EmptyString, s)
      else match split_slash s with Some (a, b) => Some (String c a, b) | None => None end
  end.

(** [/^[a-z0-9][a-z0-9.+-]*\/[a-z0-9][a-z0-9.+-]*$/i] *)
Definition mimePattern (s : string) : bool :=
  match split_slash s with
  | Some (a, b) =>
      first_is is_alnum a && string_forall is_mime_char a && first_is is_alnum b && string_forall is_mime_char b
  | None => false
  end.

Definition normalizeEvidenceContentType (value : string) : Result string :=
  let contentType := to_lower (trim value) in
  if length_within 1 200 contentType && mimePattern contentType then ok contentType
  else err (taskError "projectManagement.invalidEvidenceContentType"
              "Evidence content type must be a valid MIME type.").

Definition normalizeEvidenceSize (value : jsnum) : Result Z :=
  let invalid := err (taskError "projectManagement.invalidEvidenceSize" "Evidence size must be non-negative.") in
  match value with
  | NInt z => if (0 <=? z)%Z && (z <=? Money.max_safe_integer)%Z then ok z else invalid
  | _ => invalid
  end.

Definition normalizeEvidenceProvenance (value : option string) (fallback : string) : Result string :=
  let provenance := normalize_spaces (default fallback value) in
  if length_within 1 500 provenance then ok provenance
  else err (taskError "projectManagement.invalidEvidenceProvenance"
              "Evidence provenance must be 1-500 characters.").

Definition normalizeObjectRef (value : string) : Result string :=
  let ref := trim value in
  if length_within 1 1000 ref && negb (includes ".." ref) then ok ref
  else err (taskError "projectManagement.invalidEvidenceObjectRef" "Evidence object ref is invalid.").

Definition normalizeEvidenceUrl (value : string) : Result string :=
  let invalid := err (taskError "projectManagement.invalidEvidenceUrl" "Evidence link must be an HTTP URL.") in
  match parse_url (trim value) with
  | Some (protocol, href) =>
      if String.eqb protocol "http:" || String.eqb protocol "https:" then ok href else invalid
  | None => invalid
  end.

Definition invalidQualityCheck (message : string) : DomainError :=
  taskError "projectManagement.invalidQualityCheck" message.

Definition normalizeQualityLabel (value : string) : Result string :=
  let label := normalize_spaces value in
  if length_within 1 240 label then ok label
  else err (invalidQualityCheck "Quality check label must be 1-240 characters.").

Definition normalizeQualityCheckKind (value : jsval) : Result TaskQualityCheckKind :=
  match value with
  | JUndefined => ok QkHuman
  | _ =>
      if is_string "human" value then ok QkHuman
      else if is_string "ai_precheck" value then ok QkAiPrecheck
      else err (invalidQualityCheck "Quality check kind is invalid.")
  end.

Definition normalizeQualityCheckState (value : jsval) : Result TaskQualityCheckState :=
  if is_string "pass" value then ok QsPass
  else if is_string "fail" value then ok QsFail
  else if is_string "pending" value then ok QsPending
  else err (invalidQualityCheck "Quality check state is invalid.").

Definition actorLabel (cx : TaskApplicationContext) (explicit : option string) : Result string :=
  let label := normalize_spaces (default (tk_userId (tc_actor cx)) explicit) in
  if length_within 1 240 label then ok label
  else err (invalidQualityCheck "Quality check actor is invalid.").

(** A chain of checks: the next check when this one succeeds, its error when it does not. *)
Definition checked {A B} (r : Result A) (k : A → Result B) : Result B :=
  match r with ok a => k a | err e => err e end.

Definition prepareTaskFields (title : string) (description : option string) (priority : jsval)
    (assigneeUserId : option string) (labels : option (list string)) (actorUserId : string) (dueAt : due_input)
    (provenanceSource provenanceExternalRef : option string) : Result PreparedTaskFields :=
  checked (normalizeTaskTitle title) (λ title,
  checked (normalizeTaskDescription (default "" description)) (λ description,
  checked (parseTaskPriority priority) (λ priority,
  checked (normalizeAssignee assigneeUserId actorUserId) (λ assigneeUserId,
  checked (normalizeTaskLabels (default [] labels)) (λ labels,
  checked (normalizeDueAt dueAt) (λ dueAt,
  checked (normalizeProvenanceSource provenanceSource) (λ provenanceSource,
  checked (normalizeExternalRef provenanceExternalRef) (λ provenanceExternalRef,
  ok (mkPrepared title description priority assigneeUserId labels dueAt provenanceSource
        provenanceExternalRef))))))))).

(** [Number.isInteger(position) && position >= 0] *)
Definition taskPosition (position : jsnum) : Result Z :=
  let invalid := err (taskError "projectManagement.invalidTaskPosition"
                   "Task position must be a non-negative integer.") in
  match position with
  | NInt z => if (0 <=? z)%Z then ok z else invalid
  | _ => invalid
  end.

(** ** The human attestation *)

(** [fields[name]] of a value that should be an object. *)
Definition command_field (name : string) (humanCommand : jsval) : jsval :=
  match humanCommand with JObj fields => obj_get name fields | _ => JUndefined end.

Definition is_uuid (value : jsval) : bool :=
  match value with JStr s => uuidPattern s | _ => false end.

Definition hasValidHumanCommandAttestation (input : MarkTaskDoneInput) : bool :=
  let field name := command_field name (md_humanCommand input) in
  is_string (tk_userId (tc_actor (md_context input))) (field "confirmedByUserId")
  && is_string "admin-web" (field "confirmSource") && is_uuid (field "confirmNonce").

Definition invalidAttestationReason (input : MarkTaskDoneInput) : TaskTerminalAttemptHardReason :=
  let field name := command_field name (md_humanCommand input) in
  if is_string "admin-web" (field "confirmSource") && is_uuid (field "confirmNonce")
     && match field "confirmedByUserId" with
        | JStr user => negb (String.eqb user (tk_userId (tc_actor (md_context input))))
        | _ => false
        end
  then HrAttestationPrincipalMismatch else HrAttestationInvalid.

(** [input.humanCommand.confirmNonce] of an attestation that was accepted. *)
Definition confirmNonce (input : MarkTaskDoneInput) : string :=
  match command_field "confirmNonce" (md_humanCommand input) with JStr s => s | _ => "" end.

(** The step ids of a new order: at least one, none twice, each a UUID. *)
Definition checkStepOrder (ids : list string) : Result unit :=
  if (length ids =? 0)%nat || negb (bool_decide (NoDup ids)) then
    err (taskError "projectManagement.invalidStepOrder" "Step order must include each step id exactly once.")
  else if forallb uuidPattern ids then ok tt
  else err (taskError "projectManagement.invalidTaskCardId" "Step id must be a valid id.").

Definition assertKnownUuid (value field : string) : Result unit :=
  if uuidPattern value then ok tt
  else err (taskError "projectManagement.invalidTaskCardId" (field +:+ " must be a valid id.")).

End normalizers.
