(* ===== verification/TaskServices.v ===== *)
(** * Project Management: the task services
    ([packages/project-management/src/application/tasks.ts], its operations)

    Every service validates its input, asks the authorization port, and runs its
    statements in one transaction of the tenant, whose errors it answers. *)
From S2P Require Import Prelude JsString JsValue SharedKernel Effects DevBoardDomain JsText RuntimeDomain.
From S2P Require Import TenantContext RuntimeSql Authorization TaskDomain TaskSql TaskInputs.

Module TaskServices.

Section services.
Context {S : Type} `{TaskDriver S} `{TenantDatabase} `{NodeDates} `{OpaqueTexts} `{OpaqueNumbers} `{UrlParser}.

(** [TaskApplicationDependencies] *)
Record TaskApplicationDependencies : Type := mkTaskDependencies {
  dp_authorizationPort : option AuthorizationPort;
  dp_terminalAttemptAuditPort : option (TaskTerminalAttemptAuditInput → M S (Result unit));
}.

Implicit Types (dependencies : TaskApplicationDependencies) (cx : TaskApplicationContext) (tx : string).

(** ** Errors *)

Definition taskDoneRequiresHumanAttestation : DomainError :=
  taskError "projectManagement.taskDoneRequiresHumanAttestation"
    "Marking a task Done requires the confirmed human Done action.".
Definition taskDoneRequiresApprovedReview : DomainError :=
  taskError "projectManagement.taskDoneRequiresApprovedReview"
    "A task can only be marked Done after its quality review is approved.".
Definition databaseError : DomainError := taskError "projectManagement.databaseError" "Database operation failed.".
Definition taskNotFound : DomainError := taskError "projectManagement.taskNotFound" "Task was not found.".

(** [errorStringField] along the [cause] chain; the fuel counts the depths 0 to 5. *)
Fixpoint error_string_field (fuel : nat) (field : string) (error : jsval) : option string :=
  match fuel, error with
  | Datatypes.S fuel, JObj o =>
      let next := error_string_field fuel field (obj_get "cause" o) in
      match obj_get field o with
      | JStr s => if String.eqb (trim s) "" then next else Some s
      | _ => next
      end
  | _, _ => None
  end.

(** [error instanceof Error && error.message.includes(needle)], along the chain;
    the values on a chain of causes are taken to be errors. *)
Fixpoint error_message_includes (fuel : nat) (is_error : bool) (needle : string) (error : jsval) : bool :=
  match fuel, error with
  | Datatypes.S fuel, JObj o =>
      is_error && (match obj_get "message" o with JStr s => includes needle s | _ => false end)
      || error_message_includes fuel true needle (obj_get "cause" o)
  | _, _ => false
  end.

Definition error_properties (e : exn) : jsval :=
  match e with
  | ExnError message | ExnType message => JObj [("message", JStr message)]
  | ExnDomain d => JObj [("code", JStr (error_code d)); ("message", JStr (error_message d))]
  | _ => thrown_value e
  end.

Definition isWorkspaceCardNumberUniqueViolation (error : exn) : bool :=
  let value := error_properties error in
  let field name := error_string_field 6 name value in
  if bool_decide (field "code" = Some "23505") then
    let constraint := match field "constraint" with Some c => Some c | None => field "constraint_name" end in
    match constraint with
    | Some c => String.eqb c "tasks_workspace_card_number_unique"
    | None => error_message_includes 6 (is_Error error) "tasks_workspace_card_number_unique" value
    end
  else false.

(** ** Guards *)

(** [if (!checked.ok) return err(checked.error)] *)
Definition require {A B} (r : Result A) (k : A → M S (Result B)) : M S (Result B) :=
  match r with ok a => k a | err e => mret (err e) end.

Definition assertKnownIds cx : M S (Result unit) :=
  try_catch
    (_ ← made (Ids.makeTenantId (tc_orgId cx));
     _ ← made (Ids.makeOrgId (tc_orgId cx));
     _ ← made (Ids.makeWorkspaceId (tc_workspaceId cx));
     _ ← made (Ids.makeUserId (tk_userId (tc_actor cx)));
     mret (ok tt))
    (λ _, mret (err (taskError "projectManagement.invalidTaskContext"
                 "Task context contains an invalid organization, workspace, or actor id."))).

Definition assertKnownTaskId (taskId : string) : M S (Result unit) :=
  try_catch (_ ← made (Ids.makeTaskId taskId); mret (ok tt))
    (λ _, mret (err (taskError "projectManagement.invalidTaskId" "Task id is invalid."))).

Definition authorizationSubject cx : M S AuthorizationSubject :=
  userId ← made (Ids.makeUserId (tk_userId (tc_actor cx)));
  tenantId ← made (Ids.makeTenantId (tc_orgId cx));
  orgId ← made (Ids.makeOrgId (tc_orgId cx));
  workspaceId ← made (Ids.makeWorkspaceId (tc_workspaceId cx));
  mret (mkSubject userId tenantId orgId [workspaceId] (Some (tk_roleKeys (tc_actor cx)))).

Definition authorizeTask cx (action : AuthorizationAction) (authorizationPort : AuthorizationPort)
    : M S (Result unit) :=
  subject ← authorizationSubject cx;
  tenantId ← made (Ids.makeTenantId (tc_orgId cx));
  orgId ← made (Ids.makeOrgId (tc_orgId cx));
  workspaceId ← made (Ids.makeWorkspaceId (tc_workspaceId cx));
  mret match can authorizationPort subject action
               (mkResource ResTask tenantId (Some orgId) (Some workspaceId) None None) with
       | err e => err e
       | ok decision =>
           if dc_allowed decision then ok tt
           else err (taskError "projectManagement.forbidden" "You are not allowed to manage tasks.")
       end.

(** The last guard of every service: the authorization port, or the default one. *)
Definition authorized {A} cx (action : AuthorizationAction) dependencies (body : M S (Result A)) : M S (Result A) :=
  allowed ← authorizeTask cx action (default defaultTaskAuthorizationPort (dp_authorizationPort dependencies));
  require allowed (λ _, body).

Definition known {A} cx (body : M S (Result A)) : M S (Result A) :=
  knownIds ← assertKnownIds cx; require knownIds (λ _, body).

(** The context and the task id are well formed. *)
Definition known_task {A} (target : TaskTarget) (body : M S (Result A)) : M S (Result A) :=
  known (tg_context target) (knownTaskId ← assertKnownTaskId (tg_taskId target); require knownTaskId (λ _, body)).

(** ** Lookups *)

Definition task_row tx (q : task_statement) : M S (option QueryRow) :=
  result ← execute_task tx q; mret (head (rowsFromExecuteResult result)).

(** [row === undefined ? err(missing) : ok(decode(row))] *)
Definition decode_or {A} (missing : DomainError) (decode : QueryRow → M S A) (row : option QueryRow)
    : M S (Result A) :=
  match row with None => mret (err missing) | Some row => x ← decode row; mret (ok x) end.

(** [rows.map(decode)] *)
Fixpoint decode_all {A} (decode : QueryRow → M S A) (rows : list QueryRow) : M S (list A) :=
  match rows with
  | [] => mret []
  | row :: rows => x ← decode row; xs ← decode_all decode rows; mret (x :: xs)
  end.

Definition task_rows {A} tx (q : task_statement) (decode : QueryRow → M S A) : M S (list A) :=
  result ← execute_task tx q; decode_all decode (rowsFromExecuteResult result).

(** [row === undefined ? null : decode(row)] *)
Definition decode_null {A} (decode : QueryRow → M S A) (row : option QueryRow) : M S (option A) :=
  match row with None => mret None | Some row => x ← decode row; mret (Some x) end.

Definition selectTaskRows tx (workspaceId : string) : M S (list TaskDto) :=
  task_rows tx (SelectTaskRows workspaceId) rowToTaskDto.
Definition selectTaskById tx (taskId workspaceId : string) : M S (option TaskDto) :=
  row ← task_row tx (SelectTaskById taskId workspaceId); decode_null rowToTaskDto row.
Definition selectTaskByIdempotencyKey tx (orgId idempotencyKey : string) : M S (option TaskDto) :=
  row ← task_row tx (SelectTaskByKey orgId idempotencyKey); decode_null rowToTaskDto row.

Definition ensureTaskExists tx (taskId workspaceId : string) : M S (Result unit) :=
  task ← selectTaskById tx taskId workspaceId;
  mret (match task with None => err taskNotFound | Some _ => ok tt end).

Definition selectSteps tx (taskId : string) : M S (list TaskStepDto) :=
  task_rows tx (SelectSteps taskId) rowToStepDto.
Definition selectComments tx (taskId : string) : M S (list TaskCommentDto) :=
  task_rows tx (SelectComments taskId) rowToCommentDto.
Definition selectWatchers tx (taskId : string) : M S (list TaskWatcherDto) :=
  task_rows tx (SelectWatchers taskId) rowToWatcherDto.
Definition selectEvidence tx (taskId : string) : M S (list TaskEvidenceDto) :=
  task_rows tx (SelectEvidence taskId) rowToEvidenceDto.

Definition ensureQualityReview tx (target : TaskTarget) : M S (Result TaskQualityReviewBase) :=
  let workspaceId := tc_workspaceId (tg_context target) in
  existing ← task_row tx (SelectReviewInWorkspace (tg_taskId target) workspaceId);
  match existing with
  | Some row => review ← rowToQualityReviewBase row; mret (ok review)
  | None =>
      created ← task_row tx (InsertReview (tg_taskId target) (tc_orgId (tg_context target)) workspaceId);
      decode_or (taskError "projectManagement.qualityReviewCreateFailed" "Quality review could not be created.")
        rowToQualityReviewBase created
  end.

Definition selectQualityReview tx (taskId : string) : M S (option TaskQualityReviewDto) :=
  row ← task_row tx (SelectReview taskId);
  match row with
  | None => mret None
  | Some row =>
      review ← rowToQualityReviewBase row;
      checksResult ← execute_task tx (SelectChecks (qd_id review));
      reviewersResult ← execute_task tx (SelectReviewers (qd_id review));
      checks ← decode_all rowToQualityCheckDto (rowsFromExecuteResult checksResult);
      reviewers ← decode_all rowToQualityReviewerDto (rowsFromExecuteResult reviewersResult);
      mret (Some (mkReviewDto review checks reviewers))
  end.

(** ** Terminal attempts *)

(** [PostgresTaskTerminalAttemptAuditAdapter], in a transaction of its own. *)
Definition default_appendTerminalAttempt (input : TaskTerminalAttemptAuditInput) : M S (Result unit) :=
  try_catch
    (inTransaction (ta_organizationId input)
       (_ ← execute_task (ta_organizationId input) (InsertTerminalAttempt input); mret tt);;
     mret (ok tt))
    (λ _, mret (err (taskError "projectManagement.taskTerminalAttemptAuditAppendFailed"
                 "Task terminal-transition attempt audit append failed."))).

(** The adapter of the unit tests, which discards the attempts. *)
Definition InMemoryTaskTerminalAttemptAuditAdapter (input : TaskTerminalAttemptAuditInput) : M S (Result unit) :=
  mret (ok tt).

(** Auditing is best effort: a failure is only written to the console. *)
Definition appendTerminalAttempt (input : TaskTerminalAttemptAuditInput) dependencies : M S unit :=
  try_catch
    (_ ← (default default_appendTerminalAttempt (dp_terminalAttemptAuditPort dependencies)) input; mret tt)
    (λ _, mret tt).

Definition surface_or_web (surface : option TaskTerminalAttemptSurface) : TaskTerminalAttemptSurface :=
  default SfWeb surface.

(** The audit of a refused attempt of an actor in a workspace. *)
Definition attempt_of cx (surface : option TaskTerminalAttemptSurface) (action : TaskTerminalAttemptAction)
    (target : option string) (reason : TaskTerminalAttemptHardReason) (nonce : option string)
    : TaskTerminalAttemptAuditInput :=
  mkAttempt (tc_orgId cx) (tc_workspaceId cx) (surface_or_web surface) action target
    (tk_userId (tc_actor cx)) reason nonce.

(** ** Creating, reading and changing tasks *)

Definition taskCreateFailed : DomainError :=
  taskError "projectManagement.taskCreateFailed" "Task could not be created.".

(** The body of one attempt's transaction. *)
Definition create_task_in (input : CreateTaskInput) (status : TaskStatus) (fields : PreparedTaskFields)
    (idempotencyKey : option string) : M S (Result TaskDto) :=
  let tx := tc_orgId (nt_context input) in
  let workspaceId := tc_workspaceId (nt_context input) in
  replay ← match idempotencyKey with
           | Some key => selectTaskByIdempotencyKey tx tx key
           | None => mret None
           end;
  match replay with
  | Some task => mret (ok task)
  | None =>
      _ ← execute_task tx (LockCards workspaceId);
      result ← try_catch (execute_task tx (InsertTask tx workspaceId fields status idempotencyKey))
                 (λ error, throw (ExnAttempt error));
      decode_or taskCreateFailed rowToTaskDto (head (rowsFromExecuteResult result))
  end.

(** One attempt: its result, or the cause of the database error it answers
    ([unwrapTaskDatabaseAttemptError]). *)
Definition createTaskOnce (input : CreateTaskInput) (status : TaskStatus) (fields : PreparedTaskFields)
    (idempotencyKey : option string) : M S (Result TaskDto + exn) :=
  try_catch
    (result ← inTransaction (tc_orgId (nt_context input)) (create_task_in input status fields idempotencyKey);
     mret (inl result))
    (λ error, mret (inr match error with ExnAttempt raw => raw | e => e end)).

(** [for (let attempt = 0; attempt < 2; attempt += 1)]: a violation of the card
    number's uniqueness is tried once more. *)
Fixpoint create_attempts (attempts : nat) (once : M S (Result TaskDto + exn)) : M S (Result TaskDto) :=
  match attempts with
  | 0 => mret (err taskCreateFailed)
  | Datatypes.S attempts =>
      result ← once;
      match result with
      | inl answered => mret answered
      | inr cause =>
          if isWorkspaceCardNumberUniqueViolation cause && negb (attempts =? 0)%nat
          then create_attempts attempts once
          else mret (err databaseError)
      end
  end.

Definition createTask (input : CreateTaskInput) dependencies : M S (Result TaskDto) :=
  let cx := nt_context input in
  known cx
    (require (parseTaskStatus (nullish (nt_status input) (JStr "todo"))) (λ status,
     if isTerminalTaskStatus status then
       appendTerminalAttempt (attempt_of cx (nt_surface input) AtCreate None HrCreateWithTerminalStatus None)
         dependencies;;
       mret (err taskDoneRequiresHumanAttestation)
     else
     require (prepareTaskFields (nt_title input) (nt_description input) (nullish (nt_priority input) (JStr "normal"))
                (nt_assigneeUserId input) (nt_labels input) (tk_userId (tc_actor cx)) (nt_dueAt input)
                (nt_provenanceSource input) (nt_provenanceExternalRef input)) (λ fields,
     require (normalizeIdempotencyKey (nt_idempotencyKey input)) (λ idempotencyKey,
     authorized cx ActCreate dependencies
       (create_attempts 2 (createTaskOnce input status fields idempotencyKey)))))).

Definition listTasks cx dependencies : M S (Result (list TaskDto)) :=
  known cx (authorized cx ActRead dependencies
    (attempt (tc_orgId cx) "projectManagement.taskListFailed" "Tasks could not be loaded."
       (tasks ← selectTaskRows (tc_orgId cx) (tc_workspaceId cx); mret (ok tasks)))).

Definition getTask (input : TaskTarget) dependencies : M S (Result TaskDto) :=
  let cx := tg_context input in
  known_task input (authorized cx ActRead dependencies
    (attempt (tc_orgId cx) "projectManagement.taskLoadFailed" "Task could not be loaded."
       (row ← task_row (tc_orgId cx) (SelectTaskById (tg_taskId input) (tc_workspaceId cx));
        decode_or taskNotFound rowToTaskDto row))).

(** An update of the one row of a task, which must be there. *)
Definition update_row {A} cx (code message : string) (q : task_statement) (missing : DomainError)
    (decode : QueryRow → M S A) : M S (Result A) :=
  attempt (tc_orgId cx) code message (row ← task_row (tc_orgId cx) q; decode_or missing decode row).

Definition updateTask (input : UpdateTaskInput) dependencies : M S (Result TaskDto) :=
  let cx := pt_context input in
  known_task (mkTarget cx (pt_taskId input))
    (require (prepareTaskFields (pt_title input) (pt_description input) (pt_priority input) (pt_assigneeUserId input)
                (pt_labels input) (tk_userId (tc_actor cx)) DueNone None None) (λ fields,
     authorized cx ActUpdate dependencies
       (update_row cx "projectManagement.taskUpdateFailed" "Task could not be updated."
          (UpdateTask (pt_taskId input) (tc_workspaceId cx) (pf_title fields) (pf_description fields)
             (pf_priority fields) (pf_assigneeUserId fields) (pf_labels fields)) taskNotFound rowToTaskDto))).

Definition moveTask (input : MoveTaskInput) dependencies : M S (Result TaskDto) :=
  let cx := mv_context input in
  known_task (mkTarget cx (mv_taskId input))
    (require (parseTaskStatus (mv_status input)) (λ status,
     if isTerminalTaskStatus status then
       appendTerminalAttempt (attempt_of cx (mv_surface input) AtMove (Some (mv_taskId input))
                                HrTerminalTransitionRequiresGovernedAdmission None) dependencies;;
       mret (err taskDoneRequiresHumanAttestation)
     else
     require (taskPosition (mv_position input)) (λ position,
     authorized cx ActUpdate dependencies
       (update_row cx "projectManagement.taskMoveFailed" "Task could not be moved."
          (MoveTask (mv_taskId input) (tc_workspaceId cx) status position) taskNotFound rowToTaskDto)))).

Definition setDue (input : SetDueInput) dependencies : M S (Result TaskDto) :=
  let cx := tg_context (du_target input) in
  known_task (du_target input)
    (require (normalizeDueAt (du_dueAt input)) (λ dueAt,
     authorized cx ActUpdate dependencies
       (update_row cx "projectManagement.taskDueUpdateFailed" "Task due date could not be updated."
          (UpdateDue (tg_taskId (du_target input)) (tc_workspaceId cx) dueAt) taskNotFound rowToTaskDto))).

(** A transaction on a task that is there. *)
Definition with_task {A} (target : TaskTarget) (code message : string) (body : M S (Result A)) : M S (Result A) :=
  let cx := tg_context target in
  attempt (tc_orgId cx) code message
    (existing ← ensureTaskExists (tc_orgId cx) (tg_taskId target) (tc_workspaceId cx);
     require existing (λ _, body)).

(** ** Steps *)

Definition stepCreateFailed : DomainError :=
  taskError "projectManagement.stepCreateFailed" "Task step could not be created.".

Definition createStep (input : CreateStepInput) dependencies : M S (Result TaskStepDto) :=
  let target := cs_target input in
  let cx := tg_context target in
  known_task target
    (require (normalizeStepText (cs_text input)) (λ text,
     require (normalizeOptionalUserId (cs_assigneeUserId input) "Step assignee") (λ assigneeUserId,
     require (normalizeIdempotencyKey (cs_idempotencyKey input)) (λ idempotencyKey,
     authorized cx ActUpdate dependencies
       (with_task target "projectManagement.stepCreateFailed" "Task step could not be created."
          (row ← task_row (tc_orgId cx) (InsertStep (tg_taskId target) (tc_orgId cx) (tc_workspaceId cx) text
                                           assigneeUserId idempotencyKey);
           decode_or stepCreateFailed rowToStepDto row)))))).

Definition toggleStep (input : ToggleStepInput) dependencies : M S (Result TaskStepDto) :=
  let target := ts_target input in
  let cx := tg_context target in
  known_task target
    (require (assertKnownUuid (ts_stepId input) "Step id") (λ _,
     authorized cx ActUpdate dependencies
       (update_row cx "projectManagement.stepUpdateFailed" "Task step could not be updated."
          (UpdateStep (ts_stepId input) (tg_taskId target) (tc_workspaceId cx) (ts_done input))
          (taskError "projectManagement.stepNotFound" "Task step was not found.") rowToStepDto))).

(** [ids.sort()] by code units, [ids.map((_, index) => index + 1)] *)
Definition sort_ids (ids : list string) : list string := merge_sort String.le ids.
Definition step_positions (ids : list string) : list Z := (λ i, Z.of_nat (i + 1)) <$> seq 0 (length ids).

Definition reorderSteps (input : ReorderStepsInput) dependencies : M S (Result (list TaskStepDto)) :=
  let target := ro_target input in
  let cx := tg_context target in
  let ids := ro_stepIds input in
  known_task target
    (require (checkStepOrder ids) (λ _,
     authorized cx ActUpdate dependencies
       (attempt (tc_orgId cx) "projectManagement.stepReorderFailed" "Task steps could not be reordered."
          (existing ← selectSteps (tc_orgId cx) (tg_taskId target);
           if bool_decide (sort_ids (sd_id <$> existing) = sort_ids ids) then
             _ ← execute_task (tc_orgId cx) (ReorderSteps ids (step_positions ids) (tg_taskId target) (tc_workspaceId cx));
             steps ← selectSteps (tc_orgId cx) (tg_taskId target);
             mret (ok steps)
           else mret (err (taskError "projectManagement.invalidStepOrder"
                             "Step order must include every current step exactly once.")))))).

(** ** Comments and watchers *)

Definition commentCreateFailed : DomainError :=
  taskError "projectManagement.commentCreateFailed" "Task comment could not be added.".

Definition addComment (input : AddCommentInput) dependencies : M S (Result TaskCommentDto) :=
  let target := ac_target input in
  let cx := tg_context target in
  let authorKind := default CkHuman (ac_authorKind input) in
  let assistant := match authorKind with CkAssistant => true | CkHuman => false end in
  known_task target
    (require (normalizeCommentBody (ac_body input)) (λ body,
     require (normalizeAssistantKey (ac_assistantKey input)) (λ assistantKey,
     if assistant && bool_decide (assistantKey = None) then
       mret (err (taskError "projectManagement.invalidCommentAuthor"
                    "Assistant comments require an assistant key."))
     else
     require (normalizeIdempotencyKey (ac_idempotencyKey input)) (λ idempotencyKey,
     authorized cx ActUpdate dependencies
       (with_task target "projectManagement.commentCreateFailed" "Task comment could not be added."
          (row ← task_row (tc_orgId cx)
                   (InsertComment (tg_taskId target) (tc_orgId cx) (tc_workspaceId cx) authorKind
                      (if assistant then None else Some (tk_userId (tc_actor cx)))
                      (if assistant then assistantKey else None) body idempotencyKey);
           decode_or commentCreateFailed rowToCommentDto row)))))).

Definition setWatchers (input : SetWatchersInput) dependencies : M S (Result (list TaskWatcherDto)) :=
  let target := sw_target input in
  let cx := tg_context target in
  known_task target
    (require (normalizeUserIds (sw_userIds input)) (λ userIds,
     authorized cx ActUpdate dependencies
       (with_task target "projectManagement.watchersUpdateFailed" "Task watchers could not be updated."
          (_ ← execute_task (tc_orgId cx) (DeleteWatchers (tg_taskId target) (tc_workspaceId cx));
           _ ← (if (0 <? length userIds)%nat then
                  _ ← execute_task (tc_orgId cx)
                        (InsertWatchers (tg_taskId target) (tc_orgId cx) (tc_workspaceId cx) userIds); mret tt
                else mret tt);
           watchers ← selectWatchers (tc_orgId cx) (tg_taskId target);
           mret (ok watchers))))).

(** Every comment id given is a UUID. *)
Definition checkCommentIds (ids : option (list string)) : Result unit :=
  match ids with
  | Some ids => if forallb uuidPattern ids then ok tt
                else err (taskError "projectManagement.invalidTaskCardId" "Comment id must be a valid id.")
  | None => ok tt
  end.

Definition markCommentsRead (input : MarkCommentsReadInput) dependencies : M S (Result (list TaskCommentDto)) :=
  let target := mr_target input in
  let cx := tg_context target in
  known_task target
    (require (checkCommentIds (mr_commentIds input)) (λ _,
     authorized cx ActUpdate dependencies
       (with_task target "projectManagement.commentReadFailed" "Task comments could not be marked read."
          (_ ← execute_task (tc_orgId cx) (MarkRead (tg_taskId target) (tc_workspaceId cx)
                                             (tk_userId (tc_actor cx)) (mr_commentIds input));
           comments ← selectComments (tc_orgId cx) (tg_taskId target);
           mret (ok comments))))).

End services.
End TaskServices.
