(* ===== verification/TaskReviews.v ===== *)
(** * Project Management: evidence, quality reviews and Done
    ([packages/project-management/src/application/tasks.ts], from
    [addTaskEvidenceFile] on)

    What a task must show before it may be Done: its evidence, its quality review,
    the confirmation a human is issued, and the command that consumes it. *)
From S2P Require Import Prelude JsString JsValue SharedKernel Effects DevBoardDomain JsText RuntimeDomain.
From S2P Require Import TenantContext RuntimeSql Authorization TaskDomain TaskSql TaskInputs TaskServices.
Import TaskServices.

Module TaskReviews.

Section reviews.
Context {S : Type} `{TaskDriver S} `{TenantDatabase} `{NodeDates} `{OpaqueTexts} `{OpaqueNumbers} `{UrlParser}.
Implicit Types (dependencies : TaskApplicationDependencies (S := S)) (cx : TaskApplicationContext) (tx : string).

(** ** Evidence *)

Definition addTaskEvidenceFile (input : AddTaskEvidenceFileInput) dependencies : M S (Result TaskEvidenceDto) :=
  let target := ef_target input in
  let cx := tg_context target in
  known_task target
    (require (normalizeObjectRef (ef_objectRef input)) (λ objectRef,
     require (normalizeEvidenceFilename (ef_filename input)) (λ filename,
     require (normalizeEvidenceContentType (ef_contentType input)) (λ contentType,
     require (normalizeEvidenceSize (ef_sizeBytes input)) (λ sizeBytes,
     require (normalizeEvidenceProvenance (ef_provenance input) "Attached from upload") (λ provenance,
     authorized cx ActUpdate dependencies
       (with_task target "projectManagement.databaseError" "Database operation failed."
          (row ← task_row (tc_orgId cx)
                   (InsertEvidenceFile (tg_taskId target) (tc_orgId cx) (tc_workspaceId cx) objectRef filename
                      contentType sizeBytes provenance (tk_userId (tc_actor cx)));
           decode_or (taskError "projectManagement.evidenceCreateFailed" "Evidence could not be added.")
             rowToEvidenceDto row)))))))).

Definition addTaskEvidenceLink (input : AddTaskEvidenceLinkInput) dependencies : M S (Result TaskEvidenceDto) :=
  let target := el_target input in
  let cx := tg_context target in
  known_task target
    (require (normalizeEvidenceUrl (el_url input)) (λ url,
     require (normalizeEvidenceFilename (default (el_url input) (el_title input))) (λ filename,
     require (normalizeEvidenceProvenance (el_provenance input) "Attached from link") (λ provenance,
     authorized cx ActUpdate dependencies
       (with_task target "projectManagement.databaseError" "Database operation failed."
          (row ← task_row (tc_orgId cx)
                   (InsertEvidenceLink (tg_taskId target) (tc_orgId cx) (tc_workspaceId cx) url filename provenance
                      (tk_userId (tc_actor cx)));
           decode_or (taskError "projectManagement.evidenceCreateFailed" "Evidence link could not be added.")
             rowToEvidenceDto row)))))).

Definition listTaskEvidence (input : TaskTarget) dependencies : M S (Result (list TaskEvidenceDto)) :=
  let cx := tg_context input in
  known_task input (authorized cx ActRead dependencies
    (with_task input "projectManagement.databaseError" "Database operation failed."
       (evidence ← selectEvidence (tc_orgId cx) (tg_taskId input); mret (ok evidence)))).

(** ** Quality reviews *)

Definition qualityReviewLoadFailed : DomainError :=
  taskError "projectManagement.qualityReviewLoadFailed" "Quality review could not be loaded.".

(** [const loaded = await selectQualityReview(...); loaded === null ? err(missing) : ok(loaded)] *)
Definition loaded_review tx (taskId : string) (missing : DomainError) : M S (Result TaskQualityReviewDto) :=
  review ← selectQualityReview tx taskId;
  mret (match review with None => err missing | Some review => ok review end).

Definition ensureTaskQualityReview (input : TaskTarget) dependencies : M S (Result TaskQualityReviewDto) :=
  let cx := tg_context input in
  known_task input (authorized cx ActRead dependencies
    (with_task input "projectManagement.databaseError" "Database operation failed."
       (ensured ← ensureQualityReview (tc_orgId cx) input;
        require ensured (λ _,
          loaded_review (tc_orgId cx) (tg_taskId input)
            (taskError "projectManagement.qualityReviewCreateFailed" "Quality review could not be created."))))).

Definition approvedCannotChange : DomainError :=
  taskError "projectManagement.qualityReviewConflict" "Approved quality reviews cannot be changed.".

(** The check of an idempotency key, when one is given. *)
Definition recorded_check tx (orgId : string) (idempotencyKey : option string) : M S (option QueryRow) :=
  match idempotencyKey with
  | Some key => task_row tx (SelectCheckByKey orgId key)
  | None => mret None
  end.

Definition addQualityCheck (input : AddQualityCheckInput) dependencies : M S (Result TaskQualityReviewDto) :=
  let target := aq_target input in
  let cx := tg_context target in
  let tx := tc_orgId cx in
  known_task target
    (require (normalizeQualityLabel (aq_label input)) (λ label,
     require (normalizeQualityCheckKind (aq_kind input)) (λ kind,
     require (normalizeQualityCheckState (nullish (aq_state input) (JStr "pending"))) (λ state,
     require (actorLabel cx (aq_actorLabel input)) (λ actor,
     require (normalizeIdempotencyKey (aq_idempotencyKey input)) (λ idempotencyKey,
     authorized cx ActUpdate dependencies
       (with_task target "projectManagement.databaseError" "Database operation failed."
          (review ← ensureQualityReview tx target;
           require review (λ review,
             replay ← recorded_check tx tx idempotencyKey;
             match replay with
             | Some _ => loaded_review tx (tg_taskId target) qualityReviewLoadFailed
             | None =>
                 if bool_decide (qd_status review = QrApproved) then mret (err approvedCannotChange)
                 else
                   inserted ← task_row tx (InsertCheck (qd_id review) tx (tc_workspaceId cx) (tg_taskId target) label
                                             kind state actor idempotencyKey);
                   let reviewTaskId := match inserted with
                                       | None => tg_taskId target
                                       | Some row => cell_text (column "task_id" row)
                                       end in
                   loaded_review tx reviewTaskId qualityReviewLoadFailed
             end))))))))).

Definition qualityCheckNotFound : DomainError :=
  taskError "projectManagement.qualityCheckNotFound" "Quality check was not found.".

Definition toggleQualityCheck (input : ToggleQualityCheckInput) dependencies : M S (Result TaskQualityReviewDto) :=
  let target := tq_target input in
  let cx := tg_context target in
  let tx := tc_orgId cx in
  known_task target
    (require (assertKnownUuid (tq_checkId input) "Quality check id") (λ _,
     require (normalizeQualityCheckState (tq_state input)) (λ state,
     authorized cx ActUpdate dependencies
       (attempt tx "projectManagement.databaseError" "Database operation failed."
          (currentCheck ← task_row tx (SelectCheckReview (tq_checkId input) (tg_taskId target) (tc_workspaceId cx));
           match currentCheck with
           | None => mret (err qualityCheckNotFound)
           | Some row =>
               if cell_is "approved" (column "status" row) then mret (err approvedCannotChange)
               else
                 updated ← task_row tx (UpdateCheck (tq_checkId input) (tg_taskId target) (tc_workspaceId cx) state);
                 match updated with
                 | None => mret (err qualityCheckNotFound)
                 | Some _ =>
                     _ ← execute_task tx (RefreshReview (tg_taskId target));
                     loaded_review tx (tg_taskId target) qualityReviewLoadFailed
                 end
           end))))).

Definition reviewChanged : DomainError :=
  taskError "projectManagement.qualityReviewConflict" "Quality review changed before approval.".
Definition reviewIncomplete : DomainError :=
  taskError "projectManagement.qualityReviewIncomplete" "All quality checks must pass before approval.".

(** The reviewer who approved, and the review as it then is. *)
Definition record_approval cx (reviewId taskId : string) : M S (Result TaskQualityReviewDto) :=
  _ ← execute_task (tc_orgId cx) (UpsertReviewer reviewId (tc_orgId cx) (tc_workspaceId cx) taskId
                                    (tk_userId (tc_actor cx)));
  loaded_review (tc_orgId cx) taskId qualityReviewLoadFailed.

Definition approve_in (input : ApproveQualityReviewInput) : M S (Result TaskQualityReviewDto) :=
  let target := ar_target input in
  let cx := tg_context target in
  let tx := tc_orgId cx in
  review ← ensureQualityReview tx target;
  require review (λ review,
    if match ar_expectedReviewId input with Some id => negb (String.eqb id (qd_id review)) | None => false end
    then mret (err reviewChanged)
    else
      loadedBefore ← selectQualityReview tx (tg_taskId target);
      match loadedBefore with
      | None => mret (err qualityReviewLoadFailed)
      | Some loadedBefore =>
          if existsb (λ check, negb (bool_decide (kd_state check = QsPass))) (qd_checks loadedBefore)
          then mret (err reviewIncomplete)
          else if bool_decide (qd_status (qd_base loadedBefore) = QrApproved)
          then record_approval cx (qd_id review) (tg_taskId target)
          else
            approved ← task_row tx (ApproveReview (qd_id review) (tg_taskId target) (tc_workspaceId cx)
                                      (tk_userId (tc_actor cx)));
            match approved with
            | None => loaded_review tx (tg_taskId target) qualityReviewLoadFailed
            | Some _ => record_approval cx (qd_id review) (tg_taskId target)
            end
      end).

Definition approveQualityReview (input : ApproveQualityReviewInput) dependencies : M S (Result TaskQualityReviewDto) :=
  let target := ar_target input in
  let cx := tg_context target in
  known_task target (authorized cx ActUpdate dependencies
    (with_task target "projectManagement.databaseError" "Database operation failed." (approve_in input))).

(** ** Confirmations *)

Definition issueDoneConfirmation (input : TaskTarget) dependencies : M S (Result string) :=
  let cx := tg_context input in
  known_task input (authorized cx ActUpdate dependencies
    (attempt (tc_orgId cx) "projectManagement.databaseError" "Database operation failed."
       (row ← task_row (tc_orgId cx) (InsertConfirmation (tg_taskId input) (tc_workspaceId cx) (tk_userId (tc_actor cx)));
        mret (match column "id" <$> row with
              | Some (CVal (JStr nonce)) => ok nonce
              | _ => err taskNotFound
              end)))).

Definition cleanupDoneConfirmations (orgId : string) : M S (Result nat) :=
  require (assertKnownUuid orgId "Organization ID") (λ _,
    attempt orgId "projectManagement.databaseError" "Database operation failed."
      (result ← execute_task orgId DeleteConfirmations;
       mret (ok (length (rowsFromExecuteResult result))))).

(** ** Done *)

(** [MarkTaskDoneTransactionOutcome] *)
Record MarkTaskDoneTransactionOutcome : Type := mkDoneOutcome {
  do_result : Result TaskDto;
  do_hardReason : option TaskTerminalAttemptHardReason;
}.

Definition refused (e : DomainError) (reason : option TaskTerminalAttemptHardReason)
    : MarkTaskDoneTransactionOutcome := mkDoneOutcome (err e) reason.

(** [prepareMarkTaskDone] *)
Definition prepareMarkTaskDone (input : MarkTaskDoneInput) dependencies : M S (Result unit) :=
  let cx := md_context input in
  known_task (mkTarget cx (md_taskId input))
    (require (taskPosition (md_position input)) (λ _,
     authorized cx ActUpdate dependencies
       (if hasValidHumanCommandAttestation input then mret (ok tt)
        else
          appendTerminalAttempt
            (attempt_of cx (md_surface input) AtMarkDone (Some (md_taskId input)) (invalidAttestationReason input) None)
            dependencies;;
          mret (err taskDoneRequiresHumanAttestation)))).

Definition classifyRejectedDoneConfirmation tx (input : MarkTaskDoneInput) : M S TaskTerminalAttemptHardReason :=
  let cx := md_context input in
  row ← task_row tx (SelectConfirmation (confirmNonce input) (tc_orgId cx));
  mret match row with
       | None => HrNonceNotFound
       | Some row =>
           if cell_true (column "is_consumed" row) then HrNonceConflict
           else if cell_true (column "is_expired" row) then HrNonceExpired
           else if negb (String.eqb (cell_text (column "task_id" row)) (md_taskId input)) then HrNonceBoundToOtherTask
           else if negb (String.eqb (cell_text (column "workspace_id" row)) (tc_workspaceId cx))
           then HrNonceScopeMismatch
           else if negb (String.eqb (cell_text (column "issued_for_user_id" row)) (tk_userId (tc_actor cx)))
           then HrAttestationPrincipalMismatch
           else HrNonceConflict
       end.

Definition done_position (input : MarkTaskDoneInput) : Z :=
  match md_position input with NInt z => z | _ => 0%Z end.

Definition markTaskDoneInTransaction tx (input : MarkTaskDoneInput) : M S MarkTaskDoneTransactionOutcome :=
  let cx := md_context input in
  let taskId := md_taskId input in
  review ← selectQualityReview tx taskId;
  match review with
  | None => mret (refused taskDoneRequiresApprovedReview (Some HrReviewMissing))
  | Some review =>
      if negb (String.eqb (qd_workspaceId (qd_base review)) (tc_workspaceId cx))
      then mret (refused taskDoneRequiresApprovedReview (Some HrReviewScopeMismatch))
      else if negb (bool_decide (qd_status (qd_base review) = QrApproved))
      then mret (refused taskDoneRequiresApprovedReview (Some HrReviewNotApproved))
      else
        consumed ← task_row tx (ConsumeConfirmation (confirmNonce input) taskId (tc_orgId cx) (tc_workspaceId cx)
                                  (tk_userId (tc_actor cx)) (qd_id (qd_base review)));
        match consumed with
        | None =>
            try_catch
              (reason ← classifyRejectedDoneConfirmation tx input;
               mret (refused taskDoneRequiresHumanAttestation (Some reason)))
              (λ _, mret (refused taskDoneRequiresHumanAttestation None))
        | Some _ =>
            row ← task_row tx (FinishTask taskId (tc_workspaceId cx) (done_position input));
            match row with
            | None => throw (ExnRollback taskNotFound)
            | Some row => task ← rowToTaskDto row; mret (mkDoneOutcome (ok task) None)
            end
        end
  end.

Definition appendMarkTaskDoneRejectionAttempt (input : MarkTaskDoneInput) (outcome : MarkTaskDoneTransactionOutcome)
    dependencies : M S unit :=
  match do_hardReason outcome with
  | None => mret tt
  | Some reason =>
      appendTerminalAttempt
        (attempt_of (md_context input) (md_surface input) AtMarkDone (Some (md_taskId input)) reason
           (Some (confirmNonce input))) dependencies
  end.

Definition markTaskDone (input : MarkTaskDoneInput) dependencies : M S (Result TaskDto) :=
  let tx := tc_orgId (md_context input) in
  prepared ← prepareMarkTaskDone input dependencies;
  require prepared (λ _,
    try_catch
      (outcome ← inTransaction tx (markTaskDoneInTransaction tx input);
       appendMarkTaskDoneRejectionAttempt input outcome dependencies;;
       mret (do_result outcome))
      (λ error, mret (err match error with
                          | ExnRollback e => e
                          | _ => taskError "projectManagement.taskDoneFailed" "Task could not be marked Done."
                          end))).

(** ** The card *)

Definition getCardDetail (input : TaskTarget) dependencies : M S (Result CardDetailDto) :=
  let cx := tg_context input in
  let tx := tc_orgId cx in
  let taskId := tg_taskId input in
  known_task input (authorized cx ActRead dependencies
    (attempt tx "projectManagement.cardDetailLoadFailed" "Task card detail could not be loaded."
       (task ← selectTaskById tx taskId (tc_workspaceId cx);
        match task with
        | None => mret (err taskNotFound)
        | Some task =>
            steps ← selectSteps tx taskId;
            comments ← selectComments tx taskId;
            watchers ← selectWatchers tx taskId;
            evidence ← selectEvidence tx taskId;
            qualityReview ← selectQualityReview tx taskId;
            mret (ok (mkCardDetail task steps comments watchers evidence qualityReview))
        end))).

End reviews.
End TaskReviews.
