(* ===== verification/TaskTables.v ===== *)
(** * Project Management: the task tables

    The statements of the task services over tables, with the semantics their text
    and the migrations of [packages/identity-access/drizzle] give them: a reference
    driver on which the services run.

    Row security shows a transaction the rows of its organization; a uuid is read
    by PostgreSQL's input function, an [integer] has 32 bits, and a statement that
    breaks a foreign key, a unique index or row security throws its SQLSTATE.
    The check constraints that the normalizers already guarantee are left out. *)
From S2P Require Import Prelude JsString JsValue SharedKernel Effects DevBoardDomain JsText RuntimeDomain.
From S2P Require Import TenantContext RuntimeSql RuntimeTables TaskDomain TaskSql.

(** ** Rows *)

Record task_rec : Type := mkTaskRec {
  tr_id : string; tr_org : string; tr_workspace : string; tr_card : Z; tr_title : string;
  tr_description : string; tr_status : TaskStatus; tr_priority : TaskPriority; tr_assignee : option string;
  tr_labels : list string; tr_position : Z; tr_due : option Z; tr_source : string;
  tr_externalRef : option string; tr_key : option string; tr_created : Z; tr_updated : Z;
}.

Record step_rec : Type := mkStepRec {
  sr_id : string; sr_task : string; sr_org : string; sr_workspace : string; sr_text : string;
  sr_assignee : option string; sr_done : bool; sr_position : Z; sr_key : option string;
  sr_created : Z; sr_updated : Z;
}.

Record comment_rec : Type := mkCommentRec {
  cr_id : string; cr_task : string; cr_org : string; cr_workspace : string; cr_kind : TaskCommentAuthorKind;
  cr_author : option string; cr_assistant : option string; cr_body : string; cr_key : option string;
  cr_created : Z;
}.

Record marker_rec : Type := mkMarkerRec {
  mk_task : string; mk_comment : string; mk_org : string; mk_workspace : string; mk_user : string; mk_read : Z;
}.

Record watcher_rec : Type := mkWatcherRec {
  wr_task : string; wr_org : string; wr_workspace : string; wr_user : string; wr_created : Z;
}.

Record evidence_rec : Type := mkEvidenceRec {
  er_id : string; er_task : string; er_org : string; er_workspace : string; er_kind : TaskEvidenceKind;
  er_objectRef : option string; er_url : option string; er_filename : string; er_contentType : option string;
  er_size : option Z; er_provenance : string; er_user : option string; er_created : Z;
}.

Record review_rec : Type := mkReviewRec {
  qr_id : string; qr_task : string; qr_org : string; qr_workspace : string; qr_status : TaskQualityReviewStatus;
  qr_approvedBy : option string; qr_approvedAt : option Z; qr_created : Z; qr_updated : Z;
}.

Record check_rec : Type := mkCheckRec {
  kr_id : string; kr_review : string; kr_task : string; kr_org : string; kr_workspace : string;
  kr_label : string; kr_kind : TaskQualityCheckKind; kr_state : TaskQualityCheckState; kr_actor : string;
  kr_key : option string; kr_created : Z; kr_updated : Z;
}.

Record reviewer_rec : Type := mkReviewerRec {
  vr_id : string; vr_review : string; vr_task : string; vr_org : string; vr_workspace : string; vr_user : string;
  vr_state : TaskQualityReviewerState; vr_updated : Z;
}.

Record confirmation_rec : Type := mkConfirmationRec {
  dr_id : string; dr_task : string; dr_org : string; dr_workspace : string; dr_user : string;
  dr_issued : Z; dr_expires : Z; dr_consumed : option Z; dr_consumedBy : option string;
  dr_review : option string;
}.

(** The tables, the clock [now()] reads and the number of uuids generated. *)
Record task_tables : Type := mkTables {
  tb_now : Z;
  tb_uuids : nat;
  tb_tasks : list task_rec;
  tb_steps : list step_rec;
  tb_comments : list comment_rec;
  tb_markers : list marker_rec;
  tb_watchers : list watcher_rec;
  tb_evidence : list evidence_rec;
  tb_reviews : list review_rec;
  tb_checks : list check_rec;
  tb_reviewers : list reviewer_rec;
  tb_confirmations : list confirmation_rec;
  tb_attempts : list TaskTerminalAttemptAuditInput;
}.

Definition with_clock (now : Z) (s : task_tables) : task_tables :=
  mkTables now (tb_uuids s) (tb_tasks s) (tb_steps s) (tb_comments s) (tb_markers s) (tb_watchers s)
    (tb_evidence s) (tb_reviews s) (tb_checks s) (tb_reviewers s) (tb_confirmations s) (tb_attempts s).
Definition drawn (s : task_tables) : task_tables :=
  mkTables (tb_now s) (S (tb_uuids s)) (tb_tasks s) (tb_steps s) (tb_comments s) (tb_markers s) (tb_watchers s)
    (tb_evidence s) (tb_reviews s) (tb_checks s) (tb_reviewers s) (tb_confirmations s) (tb_attempts s).
Definition on_tasks f (s : task_tables) : task_tables :=
  mkTables (tb_now s) (tb_uuids s) (f (tb_tasks s)) (tb_steps s) (tb_comments s) (tb_markers s) (tb_watchers s)
    (tb_evidence s) (tb_reviews s) (tb_checks s) (tb_reviewers s) (tb_confirmations s) (tb_attempts s).
Definition on_steps f (s : task_tables) : task_tables :=
  mkTables (tb_now s) (tb_uuids s) (tb_tasks s) (f (tb_steps s)) (tb_comments s) (tb_markers s) (tb_watchers s)
    (tb_evidence s) (tb_reviews s) (tb_checks s) (tb_reviewers s) (tb_confirmations s) (tb_attempts s).
Definition on_comments f (s : task_tables) : task_tables :=
  mkTables (tb_now s) (tb_uuids s) (tb_tasks s) (tb_steps s) (f (tb_comments s)) (tb_markers s) (tb_watchers s)
    (tb_evidence s) (tb_reviews s) (tb_checks s) (tb_reviewers s) (tb_confirmations s) (tb_attempts s).
Definition on_markers f (s : task_tables) : task_tables :=
  mkTables (tb_now s) (tb_uuids s) (tb_tasks s) (tb_steps s) (tb_comments s) (f (tb_markers s)) (tb_watchers s)
    (tb_evidence s) (tb_reviews s) (tb_checks s) (tb_reviewers s) (tb_confirmations s) (tb_attempts s).
Definition on_watchers f (s : task_tables) : task_tables :=
  mkTables (tb_now s) (tb_uuids s) (tb_tasks s) (tb_steps s) (tb_comments s) (tb_markers s) (f (tb_watchers s))
    (tb_evidence s) (tb_reviews s) (tb_checks s) (tb_reviewers s) (tb_confirmations s) (tb_attempts s).
Definition on_evidence f (s : task_tables) : task_tables :=
  mkTables (tb_now s) (tb_uuids s) (tb_tasks s) (tb_steps s) (tb_comments s) (tb_markers s) (tb_watchers s) (f
    (tb_evidence s)) (tb_reviews s) (tb_checks s) (tb_reviewers s) (tb_confirmations s) (tb_attempts s).
Definition on_reviews f (s : task_tables) : task_tables :=
  mkTables (tb_now s) (tb_uuids s) (tb_tasks s) (tb_steps s) (tb_comments s) (tb_markers s) (tb_watchers s)
    (tb_evidence s) (f (tb_reviews s)) (tb_checks s) (tb_reviewers s) (tb_confirmations s) (tb_attempts s).
Definition on_checks f (s : task_tables) : task_tables :=
  mkTables (tb_now s) (tb_uuids s) (tb_tasks s) (tb_steps s) (tb_comments s) (tb_markers s) (tb_watchers s)
    (tb_evidence s) (tb_reviews s) (f (tb_checks s)) (tb_reviewers s) (tb_confirmations s) (tb_attempts s).
Definition on_reviewers f (s : task_tables) : task_tables :=
  mkTables (tb_now s) (tb_uuids s) (tb_tasks s) (tb_steps s) (tb_comments s) (tb_markers s) (tb_watchers s)
    (tb_evidence s) (tb_reviews s) (tb_checks s) (f (tb_reviewers s)) (tb_confirmations s) (tb_attempts s).
Definition on_confirmations f (s : task_tables) : task_tables :=
  mkTables (tb_now s) (tb_uuids s) (tb_tasks s) (tb_steps s) (tb_comments s) (tb_markers s) (tb_watchers s)
    (tb_evidence s) (tb_reviews s) (tb_checks s) (tb_reviewers s) (f (tb_confirmations s)) (tb_attempts s).
Definition on_attempts f (s : task_tables) : task_tables :=
  mkTables (tb_now s) (tb_uuids s) (tb_tasks s) (tb_steps s) (tb_comments s) (tb_markers s) (tb_watchers s)
    (tb_evidence s) (tb_reviews s) (tb_checks s) (tb_reviewers s) (tb_confirmations s) (f (tb_attempts s)).

(** ** The rest of the database

    The input functions of [uuid] and [timestamptz], [gen_random_uuid()], the
    names of the users and the organizations of the workspaces. *)
Class PostgresHost := {
  uuid_in : string → option string;
  timestamp_in : string → option Z;
  gen_uuid : nat → string;
  user_name : string → option string;
  workspace_org : string → option string;
}.

(** The documented behaviour of the input function of [uuid], which answers the
    value in its output format, and of [gen_random_uuid()]. *)
Class PostgresUuids `{PostgresHost} : Prop := {
  uuid_in_canonical text id : uuid_in text = Some id → uuid_in id = Some id;
  uuid_in_gen n : uuid_in (gen_uuid n) = Some (gen_uuid n);
  gen_uuid_inj n m : gen_uuid n = gen_uuid m → n = m;
}.

(** ** Rows as the driver reads them back *)

Definition int_cell (z : Z) : cell := CVal (jsint z).
Definition bool_cell (b : bool) : cell := CVal (JBool b).
(** A [bigint] is read as a text. *)
Definition bigint_cell (z : Z) : cell := text_cell (pretty z).

Definition task_columns (assigneeName : option string) (r : task_rec) : QueryRow := [
  ("id", text_cell (tr_id r)); ("organization_id", text_cell (tr_org r));
  ("workspace_id", text_cell (tr_workspace r)); ("card_number", bigint_cell (tr_card r));
  ("title", text_cell (tr_title r)); ("description", text_cell (tr_description r));
  ("status", text_cell (taskStatus_str (tr_status r))); ("priority", text_cell (taskPriority_str (tr_priority r)));
  ("assignee_user_id", null_text (tr_assignee r)); ("assignee_name", null_text assigneeName);
  ("labels", CVal (JArr (JStr <$> tr_labels r))); ("position", int_cell (tr_position r));
  ("due_at", null_date (tr_due r)); ("provenance_source", text_cell (tr_source r));
  ("provenance_external_ref", null_text (tr_externalRef r)); ("created_at", CDate (tr_created r));
  ("updated_at", CDate (tr_updated r))].

Definition step_columns (r : step_rec) : QueryRow := [
  ("id", text_cell (sr_id r)); ("task_id", text_cell (sr_task r)); ("organization_id", text_cell (sr_org r));
  ("workspace_id", text_cell (sr_workspace r)); ("text", text_cell (sr_text r));
  ("assignee_user_id", null_text (sr_assignee r)); ("done", bool_cell (sr_done r));
  ("position", int_cell (sr_position r)); ("created_at", CDate (sr_created r)); ("updated_at", CDate (sr_updated r))].

Definition comment_columns (readers : list string) (r : comment_rec) : QueryRow := [
  ("id", text_cell (cr_id r)); ("task_id", text_cell (cr_task r)); ("organization_id", text_cell (cr_org r));
  ("workspace_id", text_cell (cr_workspace r)); ("author_kind", text_cell (commentAuthorKind_str (cr_kind r)));
  ("author_user_id", null_text (cr_author r)); ("assistant_key", null_text (cr_assistant r));
  ("body", text_cell (cr_body r)); ("created_at", CDate (cr_created r));
  ("read_by_user_ids", CVal (JArr (JStr <$> readers)))].

Definition watcher_columns (name : option string) (r : watcher_rec) : QueryRow := [
  ("task_id", text_cell (wr_task r)); ("organization_id", text_cell (wr_org r));
  ("workspace_id", text_cell (wr_workspace r)); ("user_id", text_cell (wr_user r)); ("name", null_text name);
  ("created_at", CDate (wr_created r))].

Definition evidence_columns (r : evidence_rec) : QueryRow := [
  ("id", text_cell (er_id r)); ("task_id", text_cell (er_task r)); ("organization_id", text_cell (er_org r));
  ("workspace_id", text_cell (er_workspace r)); ("kind", text_cell (evidenceKind_str (er_kind r)));
  ("object_ref", null_text (er_objectRef r)); ("url", null_text (er_url r));
  ("filename", text_cell (er_filename r)); ("content_type", null_text (er_contentType r));
  ("size", match er_size r with Some n => bigint_cell n | None => CVal JNull end);
  ("provenance", text_cell (er_provenance r)); ("created_by_user_id", null_text (er_user r));
  ("created_at", CDate (er_created r))].

Definition review_columns (r : review_rec) : QueryRow := [
  ("id", text_cell (qr_id r)); ("task_id", text_cell (qr_task r)); ("organization_id", text_cell (qr_org r));
  ("workspace_id", text_cell (qr_workspace r)); ("status", text_cell (qualityReviewStatus_str (qr_status r)));
  ("approved_by_user_id", null_text (qr_approvedBy r)); ("approved_at", null_date (qr_approvedAt r));
  ("created_at", CDate (qr_created r)); ("updated_at", CDate (qr_updated r))].

Definition check_columns (r : check_rec) : QueryRow := [
  ("id", text_cell (kr_id r)); ("review_id", text_cell (kr_review r)); ("task_id", text_cell (kr_task r));
  ("organization_id", text_cell (kr_org r)); ("workspace_id", text_cell (kr_workspace r));
  ("label", text_cell (kr_label r)); ("kind", text_cell (qualityCheckKind_str (kr_kind r)));
  ("state", text_cell (qualityCheckState_str (kr_state r))); ("actor", text_cell (kr_actor r));
  ("created_at", CDate (kr_created r)); ("updated_at", CDate (kr_updated r))].

Definition reviewer_columns (name : option string) (r : reviewer_rec) : QueryRow := [
  ("id", text_cell (vr_id r)); ("review_id", text_cell (vr_review r)); ("task_id", text_cell (vr_task r));
  ("organization_id", text_cell (vr_org r)); ("workspace_id", text_cell (vr_workspace r));
  ("reviewer_user_id", text_cell (vr_user r)); ("reviewer_name", null_text name);
  ("state", text_cell (qualityReviewerState_str (vr_state r))); ("updated_at", CDate (vr_updated r))].

(** The columns of a rejected confirmation; the two tests are the statement's. *)
Definition confirmation_columns (now : Z) (r : confirmation_rec) : QueryRow := [
  ("task_id", text_cell (dr_task r)); ("workspace_id", text_cell (dr_workspace r));
  ("issued_for_user_id", text_cell (dr_user r)); ("is_consumed", bool_cell (bool_decide (dr_consumed r ≠ None)));
  ("is_expired", bool_cell (dr_expires r <=? now)%Z)].

Definition id_column (name id : string) : QueryRow := [(name, text_cell id)].

(** ** Pieces of statements *)

Definition update_where {A} (P : A → Prop) `{∀ x, Decision (P x)} (f : A → A) : list A → list A :=
  fmap (λ r, if decide (P r) then f r else r).

(** [coalesce(max(column), 0)] *)
Definition max_of {A} (column : A → Z) (rows : list A) : Z := foldr Z.max 0%Z (column <$> rows).

(** [order by] integers, then an identifier. *)
Fixpoint lex_leb (a b : list Z) (tie : bool) : bool :=
  match a, b with
  | x :: a, y :: b => if (x =? y)%Z then lex_leb a b tie else (x <? y)%Z
  | _, _ => tie
  end.

Section order.
Context {A : Type} (key : A → list Z) (id : A → string).

Definition ordered (a b : A) : Prop := lex_leb (key a) (key b) (String.leb (id a) (id b)) = true.
#[global] Instance ordered_dec : RelDecision ordered.
Proof. intros a b. unfold ordered. apply _. Defined.
Definition order_by : list A → list A := merge_sort ordered.
End order.

Definition status_rank (s : TaskStatus) : Z :=
  match s with TsTodo => 1 | TsInProgress => 2 | TsBlocked => 3 | TsDone => 4 end%Z.

Definition int4 (z : Z) : Prop := (-2147483648 <= z ∧ z <= 2147483647)%Z.
#[global] Instance int4_dec z : Decision (int4 z).
Proof. unfold int4. apply _. Defined.

Section statements.
Context `{PostgresHost}.
Notation answer := (M task_tables execute_result).

Definition sql_error {A} (code : string) : M task_tables A :=
  throw (ExnForeign true (JObj [("code", JStr code)])).
Definition unique_violation {A} (constraint : string) : M task_tables A :=
  throw (ExnForeign true (JObj [("code", JStr "23505"); ("constraint", JStr constraint)])).

Definition uuid_arg {A} (text : string) (k : string → M task_tables A) : M task_tables A :=
  match uuid_in text with Some id => k id | None => sql_error "22P02" end.

(** A uuid array. *)
Fixpoint uuid_args {A} (texts : list string) (k : list string → M task_tables A) : M task_tables A :=
  match texts with
  | [] => k []
  | text :: texts => uuid_arg text (λ id, uuid_args texts (λ ids, k (id :: ids)))
  end.

(** A condition of the statement, and the SQLSTATE it throws when it is broken. *)
Definition check_sql {A} (code : string) (P : Prop) `{Decision P} (k : M task_tables A) : M task_tables A :=
  if decide P then k else sql_error code.

Definition rows {A} (columns : A → QueryRow) (found : list A) : answer := mret (RowArray (columns <$> found)).

Definition change (f : task_tables → task_tables) (result : list QueryRow) : answer :=
  λ s, (Returned (RowArray result), f s).

Definition user_exists (user : option string) : Prop :=
  match user with Some id => user_name id ≠ None | None => True end.
#[global] Instance user_exists_dec user : Decision (user_exists user).
Proof. unfold user_exists. destruct user; apply _. Defined.

(** [left join auth_users] *)
Definition joined_name (user : option string) : option string := user ≫= user_name.

Definition is_task (org task workspace : string) (r : task_rec) : Prop :=
  tr_org r = org ∧ tr_id r = task ∧ tr_workspace r = workspace.
#[global] Instance is_task_dec org task workspace r : Decision (is_task org task workspace r).
Proof. unfold is_task. apply _. Defined.

Definition task_exists (task org : string) (s : task_tables) : Prop :=
  Exists (λ r, tr_id r = task ∧ tr_org r = org) (tb_tasks s).
#[global] Instance task_exists_dec task org s : Decision (task_exists task org s).
Proof. unfold task_exists. apply _. Defined.
Definition review_exists (review org : string) (s : task_tables) : Prop :=
  Exists (λ r, qr_id r = review ∧ qr_org r = org) (tb_reviews s).
#[global] Instance review_exists_dec review org s : Decision (review_exists review org s).
Proof. unfold review_exists. apply _. Defined.

(** An insertion for an organization into a workspace: the row security check,
    then the foreign keys every table has, for rows that belong to a task. *)
Definition belongs {A} (tenant org workspace : string) (k : M task_tables A) : M task_tables A :=
  check_sql "42501" (org = tenant) (check_sql "23503" (workspace_org workspace = Some org) k).
Definition belongs_to {A} (tenant org workspace task : string) (s : task_tables) (k : M task_tables A) : M task_tables A :=
  belongs tenant org workspace (check_sql "23503" (task_exists task org s) k).

(** [on conflict (organization_id, idempotency_key)]: a null key conflicts with nothing. *)
Definition keyed {A} (org_of : A → string) (key_of : A → option string) (org : string) (key : option string)
    (l : list A) : option A :=
  match key with
  | Some _ => head (filter (λ r, org_of r = org ∧ key_of r = key) l)
  | None => None
  end.

(** [update public.tasks set ... where id = ... and workspace_id = ... returning ...] *)
Definition update_task (org task workspace : string) (f : task_rec → task_rec) : answer :=
  s ← get_state;
  change (on_tasks (update_where (is_task org task workspace) f))
    (task_columns None ∘ f <$> filter (is_task org task workspace) (tb_tasks s)).

Definition set_fields (title description : string) (priority : TaskPriority) (assignee : option string)
    (labels : list string) (now : Z) (r : task_rec) : task_rec :=
  mkTaskRec (tr_id r) (tr_org r) (tr_workspace r) (tr_card r) title description (tr_status r) priority assignee
    labels (tr_position r) (tr_due r) (tr_source r) (tr_externalRef r) (tr_key r) (tr_created r) now.
Definition set_place (status : TaskStatus) (position now : Z) (r : task_rec) : task_rec :=
  mkTaskRec (tr_id r) (tr_org r) (tr_workspace r) (tr_card r) (tr_title r) (tr_description r) status (tr_priority r)
    (tr_assignee r) (tr_labels r) position (tr_due r) (tr_source r) (tr_externalRef r) (tr_key r) (tr_created r) now.
Definition set_due_at (due : option Z) (now : Z) (r : task_rec) : task_rec :=
  mkTaskRec (tr_id r) (tr_org r) (tr_workspace r) (tr_card r) (tr_title r) (tr_description r) (tr_status r)
    (tr_priority r) (tr_assignee r) (tr_labels r) (tr_position r) due (tr_source r) (tr_externalRef r) (tr_key r)
    (tr_created r) now.

(** A nullable timestamp parameter. *)
Definition timestamp_arg {A} (text : option string) (k : option Z → M task_tables A) : M task_tables A :=
  match text with
  | None => k None
  | Some text => match timestamp_in text with Some t => k (Some t) | None => sql_error "22007" end
  end.

(** ** Tasks *)

Definition insert_task (tenant org workspace : string) (fields : PreparedTaskFields) (status : TaskStatus)
    (key : option string) : answer :=
  timestamp_arg (pf_dueAt fields) (λ due,
  s ← get_state;
  let mine := filter (λ r, tr_org r = tenant ∧ tr_workspace r = workspace) (tb_tasks s) in
  let card := (max_of tr_card mine + 1)%Z in
  let position := (max_of tr_position (filter (λ r, tr_status r = status) mine) + 1)%Z in
  let r := mkTaskRec (gen_uuid (tb_uuids s)) org workspace card (pf_title fields) (pf_description fields) status
             (pf_priority fields) (pf_assigneeUserId fields) (pf_labels fields) position due
             (pf_provenanceSource fields) (pf_provenanceExternalRef fields) key (tb_now s) (tb_now s) in
  check_sql "22003" (int4 position)
    (check_sql "42501" (org = tenant)
      match keyed tr_org tr_key org key (tb_tasks s) with
      | Some existing => rows (task_columns None) [existing]
      | None =>
          if decide (Exists (λ r', tr_workspace r' = workspace ∧ tr_card r' = card) (tb_tasks s))
          then unique_violation "tasks_workspace_card_number_unique"
          else
            belongs tenant org workspace
              (check_sql "23503" (user_exists (pf_assigneeUserId fields))
                (change (λ s, drawn (on_tasks (λ l, l ++ [r]) s)) [task_columns None r]))
      end)).

Definition select_tasks (P : task_rec → Prop) `{∀ r, Decision (P r)} : answer :=
  s ← get_state;
  rows (λ r, task_columns (joined_name (tr_assignee r)) r)
    (order_by (λ r, [status_rank (tr_status r); tr_position r; tr_created r]) tr_id (filter P (tb_tasks s))).

(** ** Steps *)

Definition is_step (org step task workspace : string) (r : step_rec) : Prop :=
  sr_org r = org ∧ sr_id r = step ∧ sr_task r = task ∧ sr_workspace r = workspace.
#[global] Instance is_step_dec org step task workspace r : Decision (is_step org step task workspace r).
Proof. unfold is_step. apply _. Defined.

Definition select_steps (org task : string) : answer :=
  s ← get_state;
  rows step_columns (order_by (λ r, [sr_position r; sr_created r]) sr_id
                       (filter (λ r, sr_org r = org ∧ sr_task r = task) (tb_steps s))).

Definition insert_step (tenant task org workspace text : string) (assignee key : option string) : answer :=
  s ← get_state;
  let position :=
    (max_of sr_position (filter (λ r, sr_org r = tenant ∧ sr_task r = task) (tb_steps s)) + 1)%Z in
  let r := mkStepRec (gen_uuid (tb_uuids s)) task org workspace text assignee false position key (tb_now s) (tb_now s) in
  check_sql "22003" (int4 position)
    (check_sql "42501" (org = tenant)
      match keyed sr_org sr_key org key (tb_steps s) with
      | Some existing => rows step_columns [existing]
      | None =>
          belongs_to tenant org workspace task s
            (check_sql "23503" (user_exists assignee)
              (change (λ s, drawn (on_steps (λ l, l ++ [r]) s)) [step_columns r]))
      end).

Definition set_done (done : bool) (now : Z) (r : step_rec) : step_rec :=
  mkStepRec (sr_id r) (sr_task r) (sr_org r) (sr_workspace r) (sr_text r) (sr_assignee r) done (sr_position r)
    (sr_key r) (sr_created r) now.
Definition set_position (position now : Z) (r : step_rec) : step_rec :=
  mkStepRec (sr_id r) (sr_task r) (sr_org r) (sr_workspace r) (sr_text r) (sr_assignee r) (sr_done r) position
    (sr_key r) (sr_created r) now.

Definition update_step (org step task workspace : string) (done : bool) : answer :=
  s ← get_state;
  let f := set_done done (tb_now s) in
  change (on_steps (update_where (is_step org step task workspace) f))
    (step_columns ∘ f <$> filter (is_step org step task workspace) (tb_steps s)).

(** The position [unnest] pairs with an id; the ids of a new order are distinct. *)
Fixpoint position_of (id : string) (ids : list string) (positions : list Z) : option Z :=
  match ids, positions with
  | id' :: ids, position :: positions => if decide (id' = id) then Some position else position_of id ids positions
  | _, _ => None
  end.

Definition reorder_steps (org : string) (ids : list string) (positions : list Z) (task workspace : string) : answer :=
  s ← get_state;
  change
    (on_steps (fmap (λ r,
       match position_of (sr_id r) ids positions with
       | Some position =>
           if decide (sr_org r = org ∧ sr_task r = task ∧ sr_workspace r = workspace)
           then set_position position (tb_now s) r else r
       | None => r
       end))) [].

(** ** Comments and watchers *)

(** [array_agg(r.user_id order by r.read_at)] *)
Definition readers (org comment : string) (s : task_tables) : list string :=
  mk_user <$> order_by (λ m, [mk_read m]) mk_user
                (filter (λ m, mk_org m = org ∧ mk_comment m = comment) (tb_markers s)).

Definition select_comments (org task : string) : answer :=
  s ← get_state;
  rows (λ r, comment_columns (readers org (cr_id r) s) r)
    (order_by (λ r, [cr_created r]) cr_id (filter (λ r, cr_org r = org ∧ cr_task r = task) (tb_comments s))).

Definition insert_comment (tenant task org workspace : string) (kind : TaskCommentAuthorKind)
    (author assistant : option string) (body : string) (key : option string) : answer :=
  s ← get_state;
  let r := mkCommentRec (gen_uuid (tb_uuids s)) task org workspace kind author assistant body key (tb_now s) in
  check_sql "42501" (org = tenant)
    match keyed cr_org cr_key org key (tb_comments s) with
    | Some existing => rows (comment_columns []) [existing]
    | None =>
        belongs_to tenant org workspace task s
          (check_sql "23503" (user_exists author)
            (change (λ s, drawn (on_comments (λ l, l ++ [r]) s)) [comment_columns [] r]))
    end.

(** [on conflict (comment_id, user_id) do update set read_at = excluded.read_at]; the
    update of a row another organization owns breaks row security. *)
Definition upsert_marker (m : marker_rec) (l : list marker_rec) : list marker_rec :=
  if decide (Exists (λ m', mk_comment m' = mk_comment m ∧ mk_user m' = mk_user m) l)
  then update_where (λ m', mk_comment m' = mk_comment m ∧ mk_user m' = mk_user m)
         (λ m', mkMarkerRec (mk_task m') (mk_comment m') (mk_org m') (mk_workspace m') (mk_user m') (mk_read m)) l
  else l ++ [m].

Definition one_of (ids : option (list string)) (id : string) : Prop :=
  match ids with Some ids => id ∈ ids | None => True end.
#[global] Instance one_of_dec ids id : Decision (one_of ids id).
Proof. unfold one_of. destruct ids; apply _. Defined.

Definition mark_read (org task workspace user : string) (comments : option (list string)) : answer :=
  s ← get_state;
  let selected := filter (λ c, cr_org c = org ∧ cr_task c = task ∧ cr_workspace c = workspace
                               ∧ one_of comments (cr_id c)) (tb_comments s) in
  let markers := (λ c, mkMarkerRec (cr_task c) (cr_id c) (cr_org c) (cr_workspace c) user (tb_now s)) <$> selected in
  check_sql "23503" (selected = [] ∨ user_exists (Some user))
   (check_sql "42501" (Forall (λ m, mk_user m = user → mk_comment m ∈ (cr_id <$> selected) → mk_org m = org) (tb_markers s))
    (change (on_markers (λ l, foldl (λ l m, upsert_marker m l) l markers)) [])).

Definition select_watchers (org task : string) : answer :=
  s ← get_state;
  rows (λ r, watcher_columns (user_name (wr_user r)) r)
    (order_by (λ r, [wr_created r]) wr_user (filter (λ r, wr_org r = org ∧ wr_task r = task) (tb_watchers s))).

Definition insert_watchers (tenant task org workspace : string) (users : list string) : answer :=
  s ← get_state;
  let add l user :=
    if decide (Exists (λ r, wr_task r = task ∧ wr_user r = user) l) then l
    else l ++ [mkWatcherRec task org workspace user (tb_now s)] in
  belongs_to tenant org workspace task s
    (check_sql "23503" (Forall (λ user, user_name user ≠ None) users)
      (change (on_watchers (λ l, foldl add l users)) [])).

(** ** Evidence *)

Definition select_evidence (org task : string) : answer :=
  s ← get_state;
  rows evidence_columns (rev (order_by (λ r, [er_created r]) er_id
                                (filter (λ r, er_org r = org ∧ er_task r = task) (tb_evidence s)))).

Definition insert_evidence (tenant task org workspace : string) (kind : TaskEvidenceKind)
    (objectRef url : option string) (filename : string) (contentType : option string) (size : option Z)
    (provenance user : string) : answer :=
  s ← get_state;
  let r := mkEvidenceRec (gen_uuid (tb_uuids s)) task org workspace kind objectRef url filename contentType size
             provenance (Some user) (tb_now s) in
  belongs_to tenant org workspace task s
    (check_sql "23503" (user_exists (Some user))
      (change (λ s, drawn (on_evidence (λ l, l ++ [r]) s)) [evidence_columns r])).

(** ** Quality reviews *)

Definition select_review (P : review_rec → Prop) `{∀ r, Decision (P r)} : answer :=
  s ← get_state; rows review_columns (take 1 (filter P (tb_reviews s))).

(** [on conflict (task_id) do update]: the update of a row another organization
    owns breaks row security. *)
Definition insert_review (tenant task org workspace : string) : answer :=
  s ← get_state;
  let r := mkReviewRec (gen_uuid (tb_uuids s)) task org workspace QrOpen None None (tb_now s) (tb_now s) in
  check_sql "42501" (org = tenant)
    match head (filter (λ r', qr_task r' = task) (tb_reviews s)) with
    | Some existing => check_sql "42501" (qr_org existing = tenant) (rows review_columns [existing])
    | None =>
        belongs_to tenant org workspace task s
          (change (λ s, drawn (on_reviews (λ l, l ++ [r]) s)) [review_columns r])
    end.

Definition select_checks (org review : string) : answer :=
  s ← get_state;
  rows check_columns (order_by (λ r, [kr_created r]) kr_id
                        (filter (λ r, kr_org r = org ∧ kr_review r = review) (tb_checks s))).
Definition select_reviewers (org review : string) : answer :=
  s ← get_state;
  rows (λ r, reviewer_columns (user_name (vr_user r)) r)
    (order_by (λ r, [vr_updated r]) vr_user (filter (λ r, vr_org r = org ∧ vr_review r = review) (tb_reviewers s))).

Definition insert_check (tenant review org workspace task label : string) (kind : TaskQualityCheckKind)
    (state : TaskQualityCheckState) (actor : string) (key : option string) : answer :=
  s ← get_state;
  let r := mkCheckRec (gen_uuid (tb_uuids s)) review task org workspace label kind state actor key
             (tb_now s) (tb_now s) in
  check_sql "42501" (org = tenant)
    match keyed kr_org kr_key org key (tb_checks s) with
    | Some existing => rows (λ r, id_column "task_id" (kr_task r)) [existing]
    | None =>
        belongs_to tenant org workspace task s
          (check_sql "23503" (review_exists review org s)
            (change (λ s, drawn (on_checks (λ l, l ++ [r]) s)) [id_column "task_id" task]))
    end.

Definition is_check (org check task workspace : string) (r : check_rec) : Prop :=
  kr_org r = org ∧ kr_id r = check ∧ kr_task r = task ∧ kr_workspace r = workspace.
#[global] Instance is_check_dec org check task workspace r : Decision (is_check org check task workspace r).
Proof. unfold is_check. apply _. Defined.

Definition set_check_state (state : TaskQualityCheckState) (now : Z) (r : check_rec) : check_rec :=
  mkCheckRec (kr_id r) (kr_review r) (kr_task r) (kr_org r) (kr_workspace r) (kr_label r) (kr_kind r) state
    (kr_actor r) (kr_key r) (kr_created r) now.

(** A check with the review it is joined to. *)
Definition select_check_review (org check task workspace : string) : answer :=
  s ← get_state;
  rows (λ row, row)
    (take 1 (mjoin ((λ k, (λ r, [("review_id", text_cell (kr_review k));
                                 ("status", text_cell (qualityReviewStatus_str (qr_status r)))])
                          <$> filter (λ r, qr_id r = kr_review k ∧ qr_org r = kr_org k) (tb_reviews s))
                    <$> filter (is_check org check task workspace) (tb_checks s)))).

Definition update_check (org check task workspace : string) (state : TaskQualityCheckState) : answer :=
  s ← get_state;
  change (on_checks (update_where (is_check org check task workspace) (set_check_state state (tb_now s))))
    ((λ r, id_column "review_id" (kr_review r)) <$> filter (is_check org check task workspace) (tb_checks s)).

Definition set_review (status : TaskQualityReviewStatus) (by_user : option string) (at_time : option Z) (now : Z)
    (r : review_rec) : review_rec :=
  mkReviewRec (qr_id r) (qr_task r) (qr_org r) (qr_workspace r) status by_user at_time (qr_created r) now.

Definition refresh_review (org task : string) : answer :=
  s ← get_state;
  let status :=
    if decide (Exists (λ k, kr_org k = org ∧ kr_task k = task ∧ kr_state k = QsFail) (tb_checks s))
    then QrChangesRequested else QrOpen in
  change (on_reviews (update_where (λ r, qr_org r = org ∧ qr_task r = task ∧ qr_status r ≠ QrApproved)
                        (set_review status None None (tb_now s)))) [].

Definition approvable (org review task workspace : string) (r : review_rec) : Prop :=
  qr_org r = org ∧ qr_id r = review ∧ qr_task r = task ∧ qr_workspace r = workspace ∧ qr_status r ≠ QrApproved.
#[global] Instance approvable_dec org review task workspace r : Decision (approvable org review task workspace r).
Proof. unfold approvable. apply _. Defined.

Definition approve_review (org review task workspace user : string) : answer :=
  s ← get_state;
  let found := filter (approvable org review task workspace) (tb_reviews s) in
  check_sql "23503" (found = [] ∨ user_exists (Some user))
    (change (on_reviews (update_where (approvable org review task workspace)
                           (set_review QrApproved (Some user) (Some (tb_now s)) (tb_now s))))
       ((λ r, id_column "id" (qr_id r)) <$> found)).

Definition upsert_reviewer (tenant review org workspace task user : string) : answer :=
  s ← get_state;
  let same r := vr_review r = review ∧ vr_user r = user in
  let r := mkReviewerRec (gen_uuid (tb_uuids s)) review task org workspace user RvApproved (tb_now s) in
  check_sql "42501" (org = tenant)
    (if decide (Exists same (tb_reviewers s)) then
       check_sql "42501" (Forall (λ r, same r → vr_org r = tenant) (tb_reviewers s))
         (change (on_reviewers (update_where same (λ r,
            mkReviewerRec (vr_id r) (vr_review r) (vr_task r) (vr_org r) (vr_workspace r) (vr_user r) RvApproved
              (tb_now s)))) [])
     else
       belongs_to tenant org workspace task s
         (check_sql "23503" (review_exists review org s ∧ user_exists (Some user))
           (change (λ s, drawn (on_reviewers (λ l, l ++ [r]) s)) []))).

(** ** Confirmations *)

(** [interval '5 minutes'] *)
Definition confirmation_lifetime : Z := 300000.

Definition insert_confirmation (org task workspace user : string) : answer :=
  s ← get_state;
  match filter (is_task org task workspace) (tb_tasks s) with
  | [] => rows (λ row, row) []
  | t :: _ =>
      let r := mkConfirmationRec (gen_uuid (tb_uuids s)) (tr_id t) (tr_org t) (tr_workspace t) user (tb_now s)
                 (tb_now s + confirmation_lifetime) None None None in
      check_sql "23503" (user_exists (Some user))
        (change (λ s, drawn (on_confirmations (λ l, l ++ [r]) s)) [id_column "id" (dr_id r)])
  end.

(** What [cleanupDoneConfirmations] deletes. *)
Definition stale (org : string) (now : Z) (r : confirmation_rec) : Prop :=
  dr_org r = org ∧ (dr_consumed r ≠ None ∨ (dr_expires r < now)%Z).
#[global] Instance stale_dec org now r : Decision (stale org now r).
Proof. unfold stale. apply _. Defined.

Definition delete_confirmations (org : string) : answer :=
  s ← get_state;
  change (on_confirmations (filter (λ r, ¬ stale org (tb_now s) r)))
    ((λ r, id_column "id" (dr_id r)) <$> filter (stale org (tb_now s)) (tb_confirmations s)).

(** A confirmation that admits a task to Done. *)
Definition consumable (tenant nonce task org workspace user : string) (now : Z) (r : confirmation_rec) : Prop :=
  dr_org r = tenant ∧ dr_id r = nonce ∧ dr_task r = task ∧ dr_org r = org ∧ dr_workspace r = workspace
  ∧ dr_user r = user ∧ dr_consumed r = None ∧ (now < dr_expires r)%Z.
#[global] Instance consumable_dec tenant nonce task org workspace user now r :
  Decision (consumable tenant nonce task org workspace user now r).
Proof. unfold consumable. apply _. Defined.

Definition consume (user review : string) (now : Z) (r : confirmation_rec) : confirmation_rec :=
  mkConfirmationRec (dr_id r) (dr_task r) (dr_org r) (dr_workspace r) (dr_user r) (dr_issued r) (dr_expires r)
    (Some now) (Some user) (Some review).

Definition consume_confirmation (tenant nonce task org workspace user review : string) : answer :=
  s ← get_state;
  let P := consumable tenant nonce task org workspace user (tb_now s) in
  let found := filter P (tb_confirmations s) in
  check_sql "23503" (found = [] ∨ (user_exists (Some user) ∧ review_exists review org s))
    (change (on_confirmations (update_where P (consume user review (tb_now s))))
       ((λ r, id_column "id" (dr_id r)) <$> found)).

Definition select_confirmation (tenant nonce org : string) : answer :=
  s ← get_state;
  rows (confirmation_columns (tb_now s))
    (filter (λ r, dr_org r = tenant ∧ dr_id r = nonce ∧ dr_org r = org) (tb_confirmations s)).

Definition insert_attempt (tenant : string) (input : TaskTerminalAttemptAuditInput) : answer :=
  uuid_arg (ta_organizationId input) (λ org,
  uuid_arg (ta_workspaceId input) (λ workspace,
    check_sql "42501" (org = tenant)
      (check_sql "23503" (workspace_org workspace ≠ None ∧ user_exists (Some (ta_actorUserId input)))
        (change (λ s, drawn (on_attempts (λ l, l ++ [input]) s)) [])))).

(** ** The driver *)

Definition execute_tables (tenant : string) (q : task_statement) : answer :=
  uuid_arg tenant (λ me,
  s ← get_state;
  match q with
  | SelectTaskRows workspace =>
      uuid_arg workspace (λ w, select_tasks (λ r, tr_org r = me ∧ tr_workspace r = w))
  | SelectTaskById task workspace =>
      uuid_arg task (λ t, uuid_arg workspace (λ w, select_tasks (is_task me t w)))
  | SelectTaskByKey org key =>
      uuid_arg org (λ o, select_tasks (λ r, tr_org r = me ∧ tr_org r = o ∧ tr_key r = Some key))
  | LockCards _ => rows (λ row, row) []
  | InsertTask org workspace fields status key =>
      uuid_arg org (λ o, uuid_arg workspace (λ w, insert_task me o w fields status key))
  | UpdateTask task workspace title description priority assignee labels =>
      uuid_arg task (λ t, uuid_arg workspace (λ w,
        check_sql "23503" (filter (is_task me t w) (tb_tasks s) = [] ∨ user_exists assignee)
          (update_task me t w (set_fields title description priority assignee labels (tb_now s)))))
  | MoveTask task workspace status position =>
      uuid_arg task (λ t, uuid_arg workspace (λ w,
        check_sql "22003" (int4 position) (update_task me t w (set_place status position (tb_now s)))))
  | UpdateDue task workspace due =>
      uuid_arg task (λ t, uuid_arg workspace (λ w, timestamp_arg due (λ due,
        update_task me t w (set_due_at due (tb_now s)))))
  | FinishTask task workspace position =>
      uuid_arg task (λ t, uuid_arg workspace (λ w,
        check_sql "22003" (int4 position) (update_task me t w (set_place TsDone position (tb_now s)))))
  | SelectSteps task => uuid_arg task (λ t, select_steps me t)
  | InsertStep task org workspace text assignee key =>
      uuid_arg task (λ t, uuid_arg org (λ o, uuid_arg workspace (λ w, insert_step me t o w text assignee key)))
  | UpdateStep step task workspace done =>
      uuid_arg step (λ i, uuid_arg task (λ t, uuid_arg workspace (λ w, update_step me i t w done)))
  | ReorderSteps ids positions task workspace =>
      uuid_args ids (λ ids, uuid_arg task (λ t, uuid_arg workspace (λ w, reorder_steps me ids positions t w)))
  | SelectComments task => uuid_arg task (λ t, select_comments me t)
  | InsertComment task org workspace kind author assistant body key =>
      uuid_arg task (λ t, uuid_arg org (λ o, uuid_arg workspace (λ w,
        insert_comment me t o w kind author assistant body key)))
  | MarkRead task workspace user comments =>
      uuid_arg task (λ t, uuid_arg workspace (λ w,
        match comments with
        | Some ids => uuid_args ids (λ ids, mark_read me t w user (Some ids))
        | None => mark_read me t w user None
        end))
  | SelectWatchers task => uuid_arg task (λ t, select_watchers me t)
  | DeleteWatchers task workspace =>
      uuid_arg task (λ t, uuid_arg workspace (λ w,
        change (on_watchers (filter (λ r, ¬ (wr_org r = me ∧ wr_task r = t ∧ wr_workspace r = w)))) []))
  | InsertWatchers task org workspace users =>
      uuid_arg task (λ t, uuid_arg org (λ o, uuid_arg workspace (λ w, insert_watchers me t o w users)))
  | SelectEvidence task => uuid_arg task (λ t, select_evidence me t)
  | InsertEvidenceFile task org workspace objectRef filename contentType size provenance user =>
      uuid_arg task (λ t, uuid_arg org (λ o, uuid_arg workspace (λ w,
        insert_evidence me t o w EkFile (Some objectRef) None filename (Some contentType) (Some size) provenance user)))
  | InsertEvidenceLink task org workspace url filename provenance user =>
      uuid_arg task (λ t, uuid_arg org (λ o, uuid_arg workspace (λ w,
        insert_evidence me t o w EkLink None (Some url) filename None None provenance user)))
  | SelectReviewInWorkspace task workspace =>
      uuid_arg task (λ t, uuid_arg workspace (λ w,
        select_review (λ r, qr_org r = me ∧ qr_task r = t ∧ qr_workspace r = w)))
  | InsertReview task org workspace =>
      uuid_arg task (λ t, uuid_arg org (λ o, uuid_arg workspace (λ w, insert_review me t o w)))
  | SelectReview task => uuid_arg task (λ t, select_review (λ r, qr_org r = me ∧ qr_task r = t))
  | SelectChecks review => uuid_arg review (λ r, select_checks me r)
  | SelectReviewers review => uuid_arg review (λ r, select_reviewers me r)
  | SelectCheckByKey org key =>
      uuid_arg org (λ o,
        rows (λ _, [("?column?", int_cell 1)])
          (take 1 (filter (λ k, kr_org k = me ∧ kr_org k = o ∧ kr_key k = Some key) (tb_checks s))))
  | InsertCheck review org workspace task label kind state actor key =>
      uuid_arg review (λ r, uuid_arg org (λ o, uuid_arg workspace (λ w, uuid_arg task (λ t,
        insert_check me r o w t label kind state actor key))))
  | SelectCheckReview check task workspace =>
      uuid_arg check (λ i, uuid_arg task (λ t, uuid_arg workspace (λ w, select_check_review me i t w)))
  | UpdateCheck check task workspace state =>
      uuid_arg check (λ i, uuid_arg task (λ t, uuid_arg workspace (λ w, update_check me i t w state)))
  | RefreshReview task => uuid_arg task (λ t, refresh_review me t)
  | ApproveReview review task workspace user =>
      uuid_arg review (λ r, uuid_arg task (λ t, uuid_arg workspace (λ w, approve_review me r t w user)))
  | UpsertReviewer review org workspace task user =>
      uuid_arg review (λ r, uuid_arg org (λ o, uuid_arg workspace (λ w, uuid_arg task (λ t,
        upsert_reviewer me r o w t user))))
  | InsertConfirmation task workspace user =>
      uuid_arg task (λ t, uuid_arg workspace (λ w, insert_confirmation me t w user))
  | DeleteConfirmations => delete_confirmations me
  | ConsumeConfirmation nonce task org workspace user review =>
      uuid_arg nonce (λ n, uuid_arg task (λ t, uuid_arg org (λ o, uuid_arg workspace (λ w, uuid_arg review (λ r,
        consume_confirmation me n t o w user r)))))
  | SelectConfirmation nonce org =>
      uuid_arg nonce (λ n, uuid_arg org (λ o, select_confirmation me n o))
  | InsertTerminalAttempt input => insert_attempt me input
  end).

#[global] Instance tables_driver : TaskDriver task_tables := {| execute_task := execute_tables |}.

End statements.
