(* ===== verification/TaskFrame.v ===== *)
(** * Project Management: the statements a service sends

    [sends P m] bounds the statements a service sends, whatever the driver: the
    call moves the state along every preorder along which the statements that
    satisfy [P] move it.  A service inherits the bound from its parts, a
    transaction that fails leaves the state it found, and an invariant of the
    tables follows from one lemma per statement. *)
From S2P Require Import Prelude JsString JsValue SharedKernel Effects DevBoardDomain JsText RuntimeDomain.
From S2P Require Import TenantContext RuntimeSql Authorization TaskDomain TaskSql TaskInputs TaskServices TaskReviews.
From Stdlib Require Import RelationClasses.
Import TaskServices TaskReviews.

Create HintDb sends.

Section sends.
Context {S : Type} `{TaskDriver S} `{TenantDatabase}.

Definition sends {A} (P : string → task_statement → Prop) (m : M S A) : Prop :=
  ∀ R : S → S → Prop, PreOrder R → (∀ tenant q s, P tenant q → R s (execute_task tenant q s).2) → ∀ s, R s (m s).2.

Implicit Types P : string → task_statement → Prop.

Lemma sends_stateless {A} P (m : M S A) : stateless m → sends P m.
Proof. intros [r Hr] R HR _ s. rewrite Hr. reflexivity. Qed.

Lemma sends_ret {A} P (a : A) : sends P (mret a).
Proof. apply sends_stateless, stateless_ret. Qed.

Lemma sends_throw {A} P e : sends P (throw e : M S A).
Proof. apply sends_stateless, stateless_throw. Qed.

Lemma sends_bind {A B} P (m : M S A) (k : A → M S B) :
  sends P m → (∀ a, sends P (k a)) → sends P (m ≫= k).
Proof.
  intros Hm Hk R HR Hq s. unfold mbind, M_bind. specialize (Hm R HR Hq s).
  destruct (m s) as [[a|e] s']; simpl in *; [|done]. etrans; [done|]. by apply Hk.
Qed.

(** The continuation needs the bound only for the values the first call answers. *)
Lemma sends_bind_run {A B} P (m : M S A) (k : A → M S B) :
  sends P m → (∀ a s s', m s = (Returned a, s') → sends P (k a)) → sends P (m ≫= k).
Proof.
  intros Hm Hk R HR Hq s. unfold mbind, M_bind. specialize (Hm R HR Hq s).
  destruct (m s) as [[a|e] s'] eqn:Hrun; simpl in *; [|done]. etrans; [done|]. by eapply Hk.
Qed.

Lemma sends_try_catch {A} P (m : M S A) h :
  sends P m → (∀ e, sends P (h e)) → sends P (try_catch m h).
Proof.
  intros Hm Hh R HR Hq s. unfold try_catch. specialize (Hm R HR Hq s).
  destruct (m s) as [[a|e] s']; simpl in *; [done|]. etrans; [done|]. by apply Hh.
Qed.

Lemma sends_execute P tenant q : P tenant q → sends P (execute_task tenant q).
Proof. intros HP R HR Hq s. by apply Hq. Qed.

Lemma sends_inTransaction {A} P orgId (fn : M S A) : sends P fn → sends P (inTransaction orgId fn).
Proof.
  intros Hfn R HR Hq s. unfold inTransaction. rewrite withTenant_guard.
  specialize (Hfn R HR Hq s). destruct (tenant_guard orgId s).1 as [u|x]; [|reflexivity].
  by destruct (fn s) as [[a|e] s'].
Qed.

Lemma sends_attempt {A} P orgId code message (fn : M S (Result A)) :
  sends P fn → sends P (attempt orgId code message fn).
Proof. intros Hfn. apply sends_try_catch; [by apply sends_inTransaction|]. intros e. apply sends_ret. Qed.

Lemma sends_mono {A} P P' (m : M S A) :
  (∀ tenant q, P tenant q → P' tenant q) → sends P m → sends P' m.
Proof. intros HP Hm R HR Hq. apply Hm; auto. Qed.

(** What a bound gives about a run. *)
Lemma sends_run {A} P (m : M S A) (R : S → S → Prop) s r s' :
  sends P m → PreOrder R → (∀ tenant q s, P tenant q → R s (execute_task tenant q s).2) →
  m s = (r, s') → R s s'.
Proof. intros Hm HR Hq Hrun. specialize (Hm R HR Hq s). by rewrite Hrun in Hm. Qed.
End sends.

#[export] Hint Resolve sends_ret sends_throw sends_bind sends_try_catch sends_execute sends_inTransaction
  sends_attempt : sends.

(** ** Decoding reads no state *)

Section decoders.
Context {S : Type} `{NodeDates} `{OpaqueTexts} `{OpaqueNumbers}.

Lemma stateless_made r : stateless (made r : M S string).
Proof. destruct r; [apply stateless_ret|apply stateless_throw]. Qed.
Lemma stateless_or_throw {A} (r : Result A) : stateless (or_throw r : M S A).
Proof. destruct r; [apply stateless_ret|apply stateless_throw]. Qed.
Lemma stateless_iso_text t : stateless (iso_text t : M S string).
Proof. unfold iso_text. case_match; [apply stateless_ret|apply stateless_throw]. Qed.
Lemma stateless_parseTaskDate c : stateless (parseTaskDate c : M S string).
Proof. unfold parseTaskDate. repeat case_match; auto using stateless_iso_text, stateless_throw. Qed.
Lemma stateless_parseNullableDate c : stateless (parseNullableDate c : M S (option string)).
Proof.
  unfold parseNullableDate. case_match; [apply stateless_ret|].
  apply stateless_bind; [apply stateless_parseTaskDate|intros; apply stateless_ret].
Qed.

Ltac stateless_steps :=
  repeat (apply stateless_bind;
          [first [apply stateless_or_throw|apply stateless_parseTaskDate|apply stateless_parseNullableDate]|intros ?]);
  apply stateless_ret.

Lemma stateless_rowToTaskDto row : stateless (rowToTaskDto row : M S TaskDto).
Proof. stateless_steps. Qed.
Lemma stateless_rowToStepDto row : stateless (rowToStepDto row : M S TaskStepDto).
Proof. stateless_steps. Qed.
Lemma stateless_rowToCommentDto row : stateless (rowToCommentDto row : M S TaskCommentDto).
Proof. stateless_steps. Qed.
Lemma stateless_rowToWatcherDto row : stateless (rowToWatcherDto row : M S TaskWatcherDto).
Proof. stateless_steps. Qed.
Lemma stateless_rowToEvidenceDto row : stateless (rowToEvidenceDto row : M S TaskEvidenceDto).
Proof. stateless_steps. Qed.
Lemma stateless_rowToQualityReviewBase row : stateless (rowToQualityReviewBase row : M S TaskQualityReviewBase).
Proof. stateless_steps. Qed.
Lemma stateless_rowToQualityCheckDto row : stateless (rowToQualityCheckDto row : M S TaskQualityCheckDto).
Proof. stateless_steps. Qed.
Lemma stateless_rowToQualityReviewerDto row : stateless (rowToQualityReviewerDto row : M S TaskQualityReviewerDto).
Proof. stateless_steps. Qed.

Lemma stateless_decode_all {A} (decode : QueryRow → M S A) rows :
  (∀ row, stateless (decode row)) → stateless (decode_all decode rows).
Proof.
  intros Hd. induction rows as [|row rows IH]; [apply stateless_ret|].
  apply stateless_bind; [done|intros x]. apply stateless_bind; [done|intros xs]. apply stateless_ret.
Qed.
End decoders.

#[export] Hint Resolve stateless_ret stateless_throw stateless_made stateless_or_throw stateless_rowToTaskDto
  stateless_rowToStepDto stateless_rowToCommentDto stateless_rowToWatcherDto stateless_rowToEvidenceDto
  stateless_rowToQualityReviewBase stateless_rowToQualityCheckDto stateless_rowToQualityReviewerDto
  stateless_decode_all stateless_parseTaskDate stateless_parseNullableDate : stateless.

(** ** The parts of the services *)

(** The statements that read. *)
Definition is_read (q : task_statement) : bool :=
  match q with
  | SelectTaskRows _ | SelectTaskById _ _ | SelectTaskByKey _ _ | LockCards _ | SelectSteps _ | SelectComments _
  | SelectWatchers _ | SelectEvidence _ | SelectReviewInWorkspace _ _ | SelectReview _ | SelectChecks _
  | SelectReviewers _ | SelectCheckByKey _ _ | SelectCheckReview _ _ _ | SelectConfirmation _ _ => true
  | _ => false
  end.

Section parts.
Context {S : Type} `{TaskDriver S} `{TenantDatabase} `{NodeDates} `{OpaqueTexts} `{OpaqueNumbers} `{UrlParser}.
Implicit Types P : string → task_statement → Prop.

Lemma sends_require {A B} P (r : Result A) (k : A → M S (Result B)) :
  (∀ a, r = ok a → sends P (k a)) → sends P (require r k).
Proof. destruct r; simpl; intros Hk; [by apply Hk|apply sends_ret]. Qed.

Lemma stateless_assertKnownIds cx : stateless (assertKnownIds cx : M S (Result unit)).
Proof.
  apply stateless_try_catch; [|auto with stateless].
  repeat (apply stateless_bind; [apply stateless_made|intros ?]). apply stateless_ret.
Qed.
Lemma stateless_assertKnownTaskId id : stateless (assertKnownTaskId id : M S (Result unit)).
Proof.
  apply stateless_try_catch; [|auto with stateless].
  apply stateless_bind; [apply stateless_made|intros ?]. apply stateless_ret.
Qed.
Lemma stateless_authorizeTask cx action port : stateless (authorizeTask cx action port : M S (Result unit)).
Proof.
  repeat (apply stateless_bind; [|intros ?]); auto with stateless.
Qed.

Lemma sends_known {A} P cx (body : M S (Result A)) : sends P body → sends P (known cx body).
Proof.
  intros Hb. apply sends_bind; [apply sends_stateless, stateless_assertKnownIds|].
  intros r. by apply sends_require.
Qed.
Lemma sends_known_task {A} P target (body : M S (Result A)) : sends P body → sends P (known_task target body).
Proof.
  intros Hb. apply sends_known, sends_bind; [apply sends_stateless, stateless_assertKnownTaskId|].
  intros r. by apply sends_require.
Qed.

(** The body is reached only when the port allows it. *)
Definition permitted (cx : TaskApplicationContext) (action : AuthorizationAction)
    (dependencies : TaskApplicationDependencies (S := S)) (s : S) : Prop :=
  (authorizeTask cx action (default defaultTaskAuthorizationPort (dp_authorizationPort dependencies)) s).1
  = Returned (ok tt).

Lemma permitted_anywhere cx action dependencies s s' : permitted cx action dependencies s → permitted cx action dependencies s'.
Proof.
  unfold permitted. destruct (stateless_authorizeTask cx action
    (default defaultTaskAuthorizationPort (dp_authorizationPort dependencies))) as [r Hr]. by rewrite !Hr.
Qed.

Lemma sends_authorized {A} P cx action dependencies (body : M S (Result A)) :
  ((∀ s, permitted cx action dependencies s) → sends P body) → sends P (authorized cx action dependencies body).
Proof.
  intros Hb R HR Hq s. unfold authorized, mbind, M_bind.
  pose proof (permitted_anywhere cx action dependencies s) as Hp. unfold permitted at 1 in Hp.
  destruct (stateless_authorizeTask cx action
    (default defaultTaskAuthorizationPort (dp_authorizationPort dependencies))) as [r Hr].
  rewrite Hr in *. destruct r as [[[]|e]|e]; simpl; [|reflexivity..].
  apply Hb; [|done..]. intros s'. by apply Hp.
Qed.

(** *** What an answer that is not an error says about the guards *)

Lemma bind_returned {A B} (m : M S A) (k : A → M S B) s b s' :
  (m ≫= k) s = (Returned b, s') → ∃ a s1, m s = (Returned a, s1) ∧ k a s1 = (Returned b, s').
Proof. unfold mbind, M_bind. destruct (m s) as [[a|e] s1]; [by exists a, s1|done]. Qed.

Lemma bind_thrown {A B} (m : M S A) (k : A → M S B) s e s' :
  (m ≫= k) s = (Thrown e, s') →
  m s = (Thrown e, s') ∨ ∃ a s1, m s = (Returned a, s1) ∧ k a s1 = (Thrown e, s').
Proof. unfold mbind, M_bind. destruct (m s) as [[a|x] s1]; [right; by exists a, s1|by left; simplify_eq]. Qed.

Lemma stateless_bind_returned {A B} (m : M S A) (k : A → M S B) s b s' :
  stateless m → (m ≫= k) s = (Returned b, s') → ∃ a, m s = (Returned a, s) ∧ k a s = (Returned b, s').
Proof. intros [[a|e] Hr]; unfold mbind, M_bind; rewrite Hr; [by exists a|done]. Qed.

Lemma require_ok {A B} (r : Result A) (k : A → M S (Result B)) s b s' :
  require r k s = (Returned (ok b), s') → ∃ a, r = ok a ∧ k a s = (Returned (ok b), s').
Proof. destruct r as [a|e]; [by exists a|done]. Qed.

Lemma known_ok {A} cx (body : M S (Result A)) s a s' :
  known cx body s = (Returned (ok a), s') → body s = (Returned (ok a), s').
Proof.
  intros (r & _ & Hr)%stateless_bind_returned; [|apply stateless_assertKnownIds].
  by apply require_ok in Hr as (u & _ & Hb).
Qed.

Lemma known_task_ok {A} target (body : M S (Result A)) s a s' :
  known_task target body s = (Returned (ok a), s') → body s = (Returned (ok a), s').
Proof.
  intros (r & _ & Hr)%known_ok%stateless_bind_returned; [|apply stateless_assertKnownTaskId].
  by apply require_ok in Hr as (u & _ & Hb).
Qed.

Lemma authorized_ok {A} cx action dependencies (body : M S (Result A)) s a s' :
  authorized cx action dependencies body s = (Returned (ok a), s') →
  (∀ t, permitted cx action dependencies t) ∧ body s = (Returned (ok a), s').
Proof.
  intros (r & Hr & Hb)%stateless_bind_returned; [|apply stateless_authorizeTask].
  apply require_ok in Hb as ([] & -> & Hb). split; [|done]. intros t.
  apply (permitted_anywhere _ _ _ s). unfold permitted. by rewrite Hr.
Qed.

Lemma sends_decode_or {A} P missing (decode : QueryRow → M S A) row :
  (∀ row, stateless (decode row)) → sends P (decode_or missing decode row).
Proof.
  intros Hd. destruct row as [row|]; [|apply sends_ret].
  apply sends_bind; [by apply sends_stateless|intros x; apply sends_ret].
Qed.
Lemma sends_decode_null {A} P (decode : QueryRow → M S A) row :
  (∀ row, stateless (decode row)) → sends P (decode_null decode row).
Proof.
  intros Hd. destruct row as [row|]; [|apply sends_ret].
  apply sends_bind; [by apply sends_stateless|intros x; apply sends_ret].
Qed.
Lemma sends_task_row P tx q : P tx q → sends P (task_row tx q).
Proof. intros HP. apply sends_bind; [by apply sends_execute|intros r; apply sends_ret]. Qed.
Lemma sends_task_rows {A} P tx q (decode : QueryRow → M S A) :
  P tx q → (∀ row, stateless (decode row)) → sends P (task_rows tx q decode).
Proof.
  intros HP Hd. apply sends_bind; [by apply sends_execute|intros r].
  by apply sends_stateless, stateless_decode_all.
Qed.
Lemma sends_update_row {A} P cx code message q missing (decode : QueryRow → M S A) :
  P (tc_orgId cx) q → (∀ row, stateless (decode row)) → sends P (update_row cx code message q missing decode).
Proof.
  intros HP Hd. apply sends_attempt, sends_bind; [by apply sends_task_row|intros row]. by apply sends_decode_or.
Qed.

(** The reads of a transaction that may send every read. *)
Section reads.
Context P tx (Hread : ∀ q, is_read q = true → P tx q).

Lemma sends_selectTaskById task workspace : sends P (selectTaskById tx task workspace).
Proof.
  apply sends_bind; [by apply sends_task_row, Hread|intros row]. apply sends_decode_null. auto with stateless.
Qed.
Lemma sends_selectTaskRows workspace : sends P (selectTaskRows tx workspace).
Proof. apply sends_task_rows; [by apply Hread|auto with stateless]. Qed.
Lemma sends_selectTaskByIdempotencyKey org key : sends P (selectTaskByIdempotencyKey tx org key).
Proof.
  apply sends_bind; [by apply sends_task_row, Hread|intros row]. apply sends_decode_null. auto with stateless.
Qed.
Lemma sends_ensureTaskExists task workspace : sends P (ensureTaskExists tx task workspace).
Proof. apply sends_bind; [apply sends_selectTaskById|intros r; apply sends_ret]. Qed.
Lemma sends_selectSteps task : sends P (selectSteps tx task).
Proof. apply sends_task_rows; [by apply Hread|auto with stateless]. Qed.
Lemma sends_selectComments task : sends P (selectComments tx task).
Proof. apply sends_task_rows; [by apply Hread|auto with stateless]. Qed.
Lemma sends_selectWatchers task : sends P (selectWatchers tx task).
Proof. apply sends_task_rows; [by apply Hread|auto with stateless]. Qed.
Lemma sends_selectEvidence task : sends P (selectEvidence tx task).
Proof. apply sends_task_rows; [by apply Hread|auto with stateless]. Qed.

Lemma sends_selectQualityReview task : sends P (selectQualityReview tx task).
Proof.
  apply sends_bind; [by apply sends_task_row, Hread|intros [row|]; [|apply sends_ret]].
  apply sends_bind; [apply sends_stateless; auto with stateless|intros review].
  apply sends_bind; [by apply sends_execute, Hread|intros checks].
  apply sends_bind; [by apply sends_execute, Hread|intros reviewers].
  apply sends_bind; [apply sends_stateless; auto with stateless|intros ks].
  apply sends_bind; [apply sends_stateless; auto with stateless|intros vs]. apply sends_ret.
Qed.
Lemma sends_loaded_review task missing : sends P (loaded_review tx task missing).
Proof. apply sends_bind; [apply sends_selectQualityReview|intros r; apply sends_ret]. Qed.
Lemma sends_ensureQualityReview target :
  P tx (InsertReview (tg_taskId target) (tc_orgId (tg_context target)) (tc_workspaceId (tg_context target))) →
  sends P (ensureQualityReview tx target).
Proof.
  intros HP. apply sends_bind; [by apply sends_task_row, Hread|intros [row|]].
  - apply sends_bind; [apply sends_stateless; auto with stateless|intros r; apply sends_ret].
  - apply sends_bind; [by apply sends_task_row|intros row]. apply sends_decode_or. auto with stateless.
Qed.
Lemma sends_recorded_check org key : sends P (recorded_check tx org key).
Proof. destruct key; [by apply sends_task_row, Hread|apply sends_ret]. Qed.
Lemma sends_classify input : sends P (classifyRejectedDoneConfirmation tx input).
Proof. apply sends_bind; [by apply sends_task_row, Hread|intros row; apply sends_ret]. Qed.
End reads.

Lemma sends_with_task {A} P target code message (body : M S (Result A)) :
  (∀ q, is_read q = true → P (tc_orgId (tg_context target)) q) → sends P body →
  sends P (with_task target code message body).
Proof.
  intros Hread Hb. apply sends_attempt, sends_bind; [by apply sends_ensureTaskExists|intros r]. by apply sends_require.
Qed.

(** With the default audit adapter, an audit is one insertion. *)
Lemma sends_appendTerminalAttempt P input (dependencies : TaskApplicationDependencies (S := S)) :
  dp_terminalAttemptAuditPort dependencies = None →
  P (ta_organizationId input) (InsertTerminalAttempt input) → sends P (appendTerminalAttempt input dependencies).
Proof.
  intros Hd HP. unfold appendTerminalAttempt. rewrite Hd. simpl.
  apply sends_try_catch; [|intros e; apply sends_ret].
  apply sends_bind; [|intros r; apply sends_ret].
  apply sends_try_catch; [|intros e; apply sends_ret].
  apply sends_bind; [|intros u; apply sends_ret].
  apply sends_inTransaction, sends_bind; [by apply sends_execute|intros r; apply sends_ret].
Qed.
End parts.
