(* ===== verification/TaskCommands.v ===== *)
(** * Project Management: the task commands

    The services as one type of commands, what each may send, and the proof that
    it sends nothing else. *)
From S2P Require Import Prelude JsString JsValue SharedKernel Effects DevBoardDomain JsText RuntimeDomain.
From S2P Require Import TenantContext RuntimeSql Authorization TaskDomain TaskSql TaskInputs TaskServices TaskReviews TaskFrame.
Import TaskServices TaskReviews.

(** One constructor per exported service. *)
Inductive task_command : Type :=
| CmdCreateTask (input : CreateTaskInput)
| CmdListTasks (cx : TaskApplicationContext)
| CmdGetTask (input : TaskTarget)
| CmdUpdateTask (input : UpdateTaskInput)
| CmdMoveTask (input : MoveTaskInput)
| CmdCreateStep (input : CreateStepInput)
| CmdToggleStep (input : ToggleStepInput)
| CmdReorderSteps (input : ReorderStepsInput)
| CmdAddComment (input : AddCommentInput)
| CmdSetDue (input : SetDueInput)
| CmdSetWatchers (input : SetWatchersInput)
| CmdMarkCommentsRead (input : MarkCommentsReadInput)
| CmdAddEvidenceFile (input : AddTaskEvidenceFileInput)
| CmdAddEvidenceLink (input : AddTaskEvidenceLinkInput)
| CmdListEvidence (input : TaskTarget)
| CmdEnsureReview (input : TaskTarget)
| CmdAddCheck (input : AddQualityCheckInput)
| CmdToggleCheck (input : ToggleQualityCheckInput)
| CmdApproveReview (input : ApproveQualityReviewInput)
| CmdIssueConfirmation (input : TaskTarget)
| CmdCleanupConfirmations (orgId : string)
| CmdMarkDone (input : MarkTaskDoneInput)
| CmdCardDetail (input : TaskTarget).

Section commands.
Context {S : Type} `{TaskDriver S} `{TenantDatabase} `{NodeDates} `{OpaqueTexts} `{OpaqueNumbers} `{UrlParser}.
Implicit Types (dependencies : TaskApplicationDependencies (S := S)).

(** The effect of a command; its answer is the service's. *)
Definition run_command (c : task_command) dependencies : M S unit :=
  match c with
  | CmdCreateTask i => _ ← createTask i dependencies; mret tt
  | CmdListTasks cx => _ ← listTasks cx dependencies; mret tt
  | CmdGetTask i => _ ← getTask i dependencies; mret tt
  | CmdUpdateTask i => _ ← updateTask i dependencies; mret tt
  | CmdMoveTask i => _ ← moveTask i dependencies; mret tt
  | CmdCreateStep i => _ ← createStep i dependencies; mret tt
  | CmdToggleStep i => _ ← toggleStep i dependencies; mret tt
  | CmdReorderSteps i => _ ← reorderSteps i dependencies; mret tt
  | CmdAddComment i => _ ← addComment i dependencies; mret tt
  | CmdSetDue i => _ ← setDue i dependencies; mret tt
  | CmdSetWatchers i => _ ← setWatchers i dependencies; mret tt
  | CmdMarkCommentsRead i => _ ← markCommentsRead i dependencies; mret tt
  | CmdAddEvidenceFile i => _ ← addTaskEvidenceFile i dependencies; mret tt
  | CmdAddEvidenceLink i => _ ← addTaskEvidenceLink i dependencies; mret tt
  | CmdListEvidence i => _ ← listTaskEvidence i dependencies; mret tt
  | CmdEnsureReview i => _ ← ensureTaskQualityReview i dependencies; mret tt
  | CmdAddCheck i => _ ← addQualityCheck i dependencies; mret tt
  | CmdToggleCheck i => _ ← toggleQualityCheck i dependencies; mret tt
  | CmdApproveReview i => _ ← approveQualityReview i dependencies; mret tt
  | CmdIssueConfirmation i => _ ← issueDoneConfirmation i dependencies; mret tt
  | CmdCleanupConfirmations orgId => _ ← cleanupDoneConfirmations orgId; mret tt
  | CmdMarkDone i => _ ← markTaskDone i dependencies; mret tt
  | CmdCardDetail i => _ ← getCardDetail i dependencies; mret tt
  end.

Definition command_context (c : task_command) : option TaskApplicationContext :=
  match c with
  | CmdCreateTask i => Some (nt_context i)
  | CmdListTasks cx => Some cx
  | CmdGetTask i | CmdListEvidence i | CmdEnsureReview i | CmdIssueConfirmation i | CmdCardDetail i => Some (tg_context i)
  | CmdUpdateTask i => Some (pt_context i)
  | CmdMoveTask i => Some (mv_context i)
  | CmdCreateStep i => Some (tg_context (cs_target i))
  | CmdToggleStep i => Some (tg_context (TaskInputs.ts_target i))
  | CmdReorderSteps i => Some (tg_context (ro_target i))
  | CmdAddComment i => Some (tg_context (ac_target i))
  | CmdSetDue i => Some (tg_context (du_target i))
  | CmdSetWatchers i => Some (tg_context (sw_target i))
  | CmdMarkCommentsRead i => Some (tg_context (mr_target i))
  | CmdAddEvidenceFile i => Some (tg_context (ef_target i))
  | CmdAddEvidenceLink i => Some (tg_context (el_target i))
  | CmdAddCheck i => Some (tg_context (aq_target i))
  | CmdToggleCheck i => Some (tg_context (tq_target i))
  | CmdApproveReview i => Some (tg_context (ar_target i))
  | CmdMarkDone i => Some (md_context i)
  | CmdCleanupConfirmations _ => None
  end.

Definition command_org (c : task_command) : string :=
  match c with
  | CmdCleanupConfirmations orgId => orgId
  | _ => match command_context c with Some cx => tc_orgId cx | None => "" end
  end.

(** The action a service asks its authorization port for. *)
Definition command_action (c : task_command) : AuthorizationAction :=
  match c with
  | CmdCreateTask _ => ActCreate
  | CmdListTasks _ | CmdGetTask _ | CmdListEvidence _ | CmdEnsureReview _ | CmdCardDetail _ => ActRead
  | _ => ActUpdate
  end.

Definition command_permitted dependencies (c : task_command) : Prop :=
  match command_context c with
  | Some cx => ∀ s, permitted cx (command_action c) dependencies s
  | None => True
  end.

(** A task of the caller's workspace, and one of the caller's organization too. *)
Definition of_target (target : TaskTarget) (task workspace : string) : Prop :=
  task = tg_taskId target ∧ workspace = tc_workspaceId (tg_context target).
Definition own (target : TaskTarget) (task org workspace : string) : Prop :=
  of_target target task workspace ∧ org = tc_orgId (tg_context target).

(** The statements by which a command writes, with what their values must be. *)
Definition command_writes (c : task_command) (q : task_statement) : Prop :=
  match c, q with
  | CmdCreateTask i, InsertTask org workspace _ status _ =>
      org = tc_orgId (nt_context i) ∧ workspace = tc_workspaceId (nt_context i) ∧ status ≠ TsDone
  | CmdUpdateTask i, UpdateTask task workspace _ _ _ _ _ => of_target (mkTarget (pt_context i) (pt_taskId i)) task workspace
  | CmdMoveTask i, MoveTask task workspace status position =>
      of_target (mkTarget (mv_context i) (mv_taskId i)) task workspace ∧ status ≠ TsDone ∧ (0 <= position)%Z
  | CmdSetDue i, UpdateDue task workspace _ => of_target (du_target i) task workspace
  | CmdCreateStep i, InsertStep task org workspace _ _ _ => own (cs_target i) task org workspace
  | CmdToggleStep i, UpdateStep step task workspace _ =>
      step = ts_stepId i ∧ of_target (TaskInputs.ts_target i) task workspace
  | CmdReorderSteps i, ReorderSteps ids _ task workspace =>
      ids = ro_stepIds i ∧ NoDup ids ∧ of_target (ro_target i) task workspace
  | CmdAddComment i, InsertComment task org workspace _ _ _ _ _ => own (ac_target i) task org workspace
  | CmdSetWatchers i, DeleteWatchers task workspace => of_target (sw_target i) task workspace
  | CmdSetWatchers i, InsertWatchers task org workspace users =>
      own (sw_target i) task org workspace ∧ (length users <= 32)%nat
  | CmdMarkCommentsRead i, MarkRead task workspace user _ =>
      of_target (mr_target i) task workspace ∧ user = tk_userId (tc_actor (tg_context (mr_target i)))
  | CmdAddEvidenceFile i, InsertEvidenceFile task org workspace _ _ _ size _ user =>
      own (ef_target i) task org workspace ∧ (0 <= size)%Z ∧ user = tk_userId (tc_actor (tg_context (ef_target i)))
  | CmdAddEvidenceLink i, InsertEvidenceLink task org workspace _ _ _ user =>
      own (el_target i) task org workspace ∧ user = tk_userId (tc_actor (tg_context (el_target i)))
  | CmdEnsureReview i, InsertReview task org workspace => own i task org workspace
  | CmdAddCheck i, InsertReview task org workspace => own (aq_target i) task org workspace
  | CmdAddCheck i, InsertCheck _ org workspace task _ _ _ _ _ => own (aq_target i) task org workspace
  | CmdToggleCheck i, UpdateCheck check task workspace _ => check = tq_checkId i ∧ of_target (tq_target i) task workspace
  | CmdToggleCheck i, RefreshReview task => task = tg_taskId (tq_target i)
  | CmdApproveReview i, InsertReview task org workspace => own (ar_target i) task org workspace
  | CmdApproveReview i, ApproveReview _ task workspace user =>
      of_target (ar_target i) task workspace ∧ user = tk_userId (tc_actor (tg_context (ar_target i)))
  | CmdApproveReview i, UpsertReviewer _ org workspace task user =>
      own (ar_target i) task org workspace ∧ user = tk_userId (tc_actor (tg_context (ar_target i)))
  | CmdIssueConfirmation i, InsertConfirmation task workspace user =>
      of_target i task workspace ∧ user = tk_userId (tc_actor (tg_context i))
  | CmdCleanupConfirmations _, DeleteConfirmations => True
  | CmdMarkDone i, ConsumeConfirmation nonce task org workspace user _ =>
      hasValidHumanCommandAttestation i = true ∧ nonce = confirmNonce i
      ∧ own (mkTarget (md_context i) (md_taskId i)) task org workspace ∧ user = tk_userId (tc_actor (md_context i))
  | CmdMarkDone i, FinishTask task workspace position =>
      hasValidHumanCommandAttestation i = true
      ∧ of_target (mkTarget (md_context i) (md_taskId i)) task workspace ∧ (0 <= position)%Z
  | _, _ => False
  end.

(** The audit of a refused attempt to finish a task. *)
Definition command_audits (c : task_command) (q : task_statement) : Prop :=
  match c, q with
  | (CmdCreateTask _ | CmdMoveTask _ | CmdMarkDone _), InsertTerminalAttempt input =>
      match command_context c with
      | Some cx => ta_organizationId input = tc_orgId cx ∧ ta_workspaceId input = tc_workspaceId cx
                   ∧ ta_actorUserId input = tk_userId (tc_actor cx)
      | None => False
      end
  | _, _ => False
  end.

Definition command_sends dependencies (c : task_command) (tenant : string) (q : task_statement) : Prop :=
  tenant = command_org c
  ∧ (command_audits c q ∨ (command_permitted dependencies c ∧ (is_read q = true ∨ command_writes c q))).
End commands.

(** ** No service sends more than its command may *)

(** One step through the text of a service. *)
Ltac send_step :=
  first
    [ apply sends_known_task | apply sends_known | apply sends_require; intros ? ?
    | apply sends_authorized; intros ? | apply sends_with_task | apply sends_update_row
    | apply sends_attempt | apply sends_decode_or | apply sends_selectTaskById | apply sends_selectTaskRows
    | apply sends_selectTaskByIdempotencyKey | apply sends_selectSteps | apply sends_selectComments
    | apply sends_selectWatchers | apply sends_selectEvidence | apply sends_selectQualityReview
    | apply sends_loaded_review | apply sends_ensureQualityReview | apply sends_recorded_check
    | apply sends_classify | apply sends_task_row | apply sends_execute | apply sends_ret | apply sends_throw
    | apply sends_appendTerminalAttempt | apply sends_inTransaction
    | apply sends_try_catch; [|intros ?] | apply sends_bind; [|intros ?] | case_match ].

Section bounds.
Context {S : Type} `{TaskDriver S} `{TenantDatabase} `{NodeDates} `{OpaqueTexts} `{OpaqueNumbers} `{UrlParser}.
Context (dependencies : TaskApplicationDependencies (S := S)).
Context (Haudit : dp_terminalAttemptAuditPort dependencies = None).

Lemma taskPosition_ok position z : taskPosition position = ok z → (0 <= z)%Z.
Proof. unfold taskPosition. repeat case_match; intros [=]; subst; lia. Qed.

Lemma not_terminal status : isTerminalTaskStatus status = false → status ≠ TsDone.
Proof. unfold isTerminalTaskStatus. by case_bool_decide. Qed.

Lemma checkStepOrder_NoDup ids u : checkStepOrder ids = ok u → NoDup ids.
Proof.
  unfold checkStepOrder. destruct (_ || _) eqn:Hn; [done|]. intros _.
  apply orb_false_iff in Hn as [_ Hn]. apply negb_false_iff in Hn. by apply bool_decide_eq_true in Hn.
Qed.

Lemma normalizeUserIds_bound values users : normalizeUserIds values = ok users → (length users <= 32)%nat.
Proof.
  unfold normalizeUserIds. case_match; [done|]. destruct (32 <? _)%nat eqn:Hl; [done|].
  intros [= <-]. by apply Nat.ltb_ge in Hl.
Qed.

Lemma normalizeEvidenceSize_bound value size : normalizeEvidenceSize value = ok size → (0 <= size)%Z.
Proof.
  unfold normalizeEvidenceSize. destruct value; [|done..]. destruct (_ && _) eqn:Hb; [|done].
  intros [= <-]. apply andb_true_iff in Hb as [Hb _]. by apply Z.leb_le in Hb.
Qed.

Ltac send_leaf :=
  try done; auto with stateless;
  try solve [split; [reflexivity|left; by simpl]];
  try (intros; split; [reflexivity|right; split; [done|first [by left|right; simpl; repeat split;
         eauto using not_terminal, taskPosition_ok, checkStepOrder_NoDup, normalizeUserIds_bound,
           normalizeEvidenceSize_bound]]]).
Ltac send_service := repeat send_step; send_leaf.

Lemma sends_createTask i : sends (command_sends dependencies (CmdCreateTask i)) (createTask i dependencies).
Proof. unfold createTask. send_service. Qed.
Lemma sends_listTasks i : sends (command_sends dependencies (CmdListTasks i)) (listTasks i dependencies).
Proof. unfold listTasks. send_service. Qed.
Lemma sends_getTask i : sends (command_sends dependencies (CmdGetTask i)) (getTask i dependencies).
Proof. unfold getTask. send_service. Qed.
Lemma sends_updateTask i : sends (command_sends dependencies (CmdUpdateTask i)) (updateTask i dependencies).
Proof. unfold updateTask. send_service. Qed.
Lemma sends_moveTask i : sends (command_sends dependencies (CmdMoveTask i)) (moveTask i dependencies).
Proof. unfold moveTask. send_service. Qed.
Lemma sends_createStep i : sends (command_sends dependencies (CmdCreateStep i)) (createStep i dependencies).
Proof. unfold createStep. send_service. Qed.
Lemma sends_toggleStep i : sends (command_sends dependencies (CmdToggleStep i)) (toggleStep i dependencies).
Proof. unfold toggleStep. send_service. Qed.
Lemma sends_reorderSteps i : sends (command_sends dependencies (CmdReorderSteps i)) (reorderSteps i dependencies).
Proof. unfold reorderSteps. send_service. Qed.
Lemma sends_addComment i : sends (command_sends dependencies (CmdAddComment i)) (addComment i dependencies).
Proof. unfold addComment. send_service. Qed.
Lemma sends_setDue i : sends (command_sends dependencies (CmdSetDue i)) (setDue i dependencies).
Proof. unfold setDue. send_service. Qed.
Lemma sends_setWatchers i : sends (command_sends dependencies (CmdSetWatchers i)) (setWatchers i dependencies).
Proof. unfold setWatchers. send_service. Qed.
Lemma sends_markCommentsRead i : sends (command_sends dependencies (CmdMarkCommentsRead i)) (markCommentsRead i dependencies).
Proof. unfold markCommentsRead. send_service. Qed.
Lemma sends_addTaskEvidenceFile i : sends (command_sends dependencies (CmdAddEvidenceFile i)) (addTaskEvidenceFile i dependencies).
Proof. unfold addTaskEvidenceFile. send_service. Qed.
Lemma sends_addTaskEvidenceLink i : sends (command_sends dependencies (CmdAddEvidenceLink i)) (addTaskEvidenceLink i dependencies).
Proof. unfold addTaskEvidenceLink. send_service. Qed.
Lemma sends_listTaskEvidence i : sends (command_sends dependencies (CmdListEvidence i)) (listTaskEvidence i dependencies).
Proof. unfold listTaskEvidence. send_service. Qed.
Lemma sends_ensureTaskQualityReview i : sends (command_sends dependencies (CmdEnsureReview i)) (ensureTaskQualityReview i dependencies).
Proof. unfold ensureTaskQualityReview. send_service. Qed.
Lemma sends_addQualityCheck i : sends (command_sends dependencies (CmdAddCheck i)) (addQualityCheck i dependencies).
Proof. unfold addQualityCheck. send_service. Qed.
Lemma sends_toggleQualityCheck i : sends (command_sends dependencies (CmdToggleCheck i)) (toggleQualityCheck i dependencies).
Proof. unfold toggleQualityCheck. send_service. Qed.
Lemma sends_approveQualityReview i : sends (command_sends dependencies (CmdApproveReview i)) (approveQualityReview i dependencies).
Proof. unfold approveQualityReview. send_service. Qed.
Lemma sends_issueDoneConfirmation i : sends (command_sends dependencies (CmdIssueConfirmation i)) (issueDoneConfirmation i dependencies).
Proof. unfold issueDoneConfirmation. send_service. Qed.
Lemma sends_cleanupDoneConfirmations i : sends (command_sends dependencies (CmdCleanupConfirmations i)) (cleanupDoneConfirmations i).
Proof. unfold cleanupDoneConfirmations. send_service. Qed.
Lemma sends_getCardDetail i : sends (command_sends dependencies (CmdCardDetail i)) (getCardDetail i dependencies).
Proof. unfold getCardDetail. send_service. Qed.

(** What a preparation that succeeds has checked. *)
Lemma prepared_ok i s u s' :
  prepareMarkTaskDone i dependencies s = (Returned (ok u), s') →
  (∀ s, permitted (md_context i) ActUpdate dependencies s) ∧ hasValidHumanCommandAttestation i = true
  ∧ (∃ z, md_position i = NInt z ∧ (0 <= z)%Z) ∧ s' = s.
Proof.
  intros (z & Hz & Ha)%known_task_ok%require_ok. apply authorized_ok in Ha as [Hp Hb].
  unfold taskPosition in Hz. destruct (hasValidHumanCommandAttestation i).
  - injection Hb as _ <-. destruct (md_position i) as [p| |]; try done. case_match; [|done].
    injection Hz as <-. split_and!; try done. exists p. split; [done|]. lia.
  - unfold mbind, M_bind in Hb. by destruct (appendTerminalAttempt _ _ s) as [[?|?] ?].
Qed.

Lemma sends_prepareMarkTaskDone i :
  sends (command_sends dependencies (CmdMarkDone i)) (prepareMarkTaskDone i dependencies).
Proof. unfold prepareMarkTaskDone. send_service. Qed.

Lemma sends_markTaskDone i : sends (command_sends dependencies (CmdMarkDone i)) (markTaskDone i dependencies).
Proof.
  apply sends_bind_run; [apply sends_prepareMarkTaskDone|]. intros prepared s s' Hrun.
  apply sends_require. intros u ->. apply prepared_ok in Hrun as (Hp & Hv & (z & Hz & Hpos) & _).
  assert (0 <= done_position i)%Z by (unfold done_position; by rewrite Hz).
  apply sends_try_catch; [|intros e; apply sends_ret]. apply sends_bind; [apply sends_inTransaction|].
  - unfold markTaskDoneInTransaction. send_service. all: apply sends_stateless; auto with stateless.
  - intros outcome. apply sends_bind; [|intros v; apply sends_ret].
    unfold appendMarkTaskDoneRejectionAttempt. send_service.
Qed.

(** Every command is bounded by what it may send. *)
Lemma sends_command c : sends (command_sends dependencies c) (run_command c dependencies).
Proof.
  destruct c; (apply sends_bind; [|intros r; apply sends_ret]);
    first
      [ apply sends_createTask | apply sends_listTasks | apply sends_getTask | apply sends_updateTask
      | apply sends_moveTask | apply sends_createStep | apply sends_toggleStep | apply sends_reorderSteps
      | apply sends_addComment | apply sends_setDue | apply sends_setWatchers | apply sends_markCommentsRead
      | apply sends_addTaskEvidenceFile | apply sends_addTaskEvidenceLink | apply sends_listTaskEvidence
      | apply sends_ensureTaskQualityReview | apply sends_addQualityCheck | apply sends_toggleQualityCheck
      | apply sends_approveQualityReview | apply sends_issueDoneConfirmation
      | apply sends_cleanupDoneConfirmations | apply sends_markTaskDone | apply sends_getCardDetail ].
Qed.

End bounds.
