(* ===== verification/TaskInvariant.v ===== *)
(** * Project Management: what a statement changes

    Every statement of the reference driver leaves the tables as they are or makes
    one of the changes below; the invariants of the tables are proved per change. *)
From S2P Require Import Prelude JsString JsValue SharedKernel Effects DevBoardDomain TenantContext.
From S2P Require Import JsText RuntimeDomain RuntimeSql RuntimeTables TaskDomain TaskSql TaskTables.
From S2P Require Import TaskFrame.

(** The rows of the other organizations. *)
Definition others {A} (org_of : A → string) (me : string) (l : list A) : list A := filter (λ r, org_of r ≠ me) l.

Lemma others_app {A} (org_of : A → string) me l x :
  org_of x = me → others org_of me (l ++ [x]) = others org_of me l.
Proof.
  intros Hx. unfold others. rewrite filter_app, filter_cons_False; [|by intros ?].
  by rewrite filter_nil, app_nil_r.
Qed.

Lemma others_fmap {A} (org_of : A → string) me f l :
  (∀ x, org_of (f x) = org_of x) → (∀ x, org_of x ≠ me → f x = x) →
  others org_of me (f <$> l) = others org_of me l.
Proof.
  intros Horg Hf. unfold others. induction l as [|x l IH]; [done|].
  rewrite fmap_cons, !filter_cons, IH, Horg. case_decide; [|done]. by rewrite Hf.
Qed.

Lemma others_update {A} (org_of : A → string) me (P : A → Prop) `{∀ x, Decision (P x)} f l :
  Forall (λ x, P x → org_of x = me) l → (∀ x, org_of (f x) = org_of x) →
  others org_of me (update_where P f l) = others org_of me l.
Proof.
  intros HP Hf. unfold others, update_where. induction HP as [|x l Hx HP IH]; [done|].
  rewrite fmap_cons, !filter_cons, IH. destruct (decide (P x)) as [HPx|]; [|done].
  rewrite Hf, Hx by done. by rewrite !decide_False by (by intros ?).
Qed.

Lemma others_filter {A} (org_of : A → string) me (P : A → Prop) `{∀ x, Decision (P x)} l :
  (∀ x, ¬ P x → org_of x = me) → others org_of me (filter P l) = others org_of me l.
Proof.
  intros HP. unfold others. induction l as [|x l IH]; [done|]. rewrite !filter_cons.
  destruct (decide (P x)) as [HPx|HPx]; [rewrite filter_cons; by case_decide; rewrite IH|].
  rewrite decide_False by (rewrite HP; auto). done.
Qed.

Section changes.
Context `{PostgresHost}.

(** The organization of an audit record, as the database reads it. *)
Definition attempt_org (a : TaskTerminalAttemptAuditInput) : string := default "" (uuid_in (ta_organizationId a)).

(** The tables whose rows no rule below is about. *)
Record same_rules (me : string) (s s' : task_tables) : Prop := {
  rule_now : tb_now s' = tb_now s;
  rule_uuids : tb_uuids s <= tb_uuids s';
  rule_tasks : tb_tasks s' = tb_tasks s;
  rule_reviews : tb_reviews s' = tb_reviews s;
  rule_checks : tb_checks s' = tb_checks s;
  rule_confirmations : tb_confirmations s' = tb_confirmations s;
  rule_steps : others sr_org me (tb_steps s') = others sr_org me (tb_steps s);
  rule_comments : others cr_org me (tb_comments s') = others cr_org me (tb_comments s);
  rule_markers : others mk_org me (tb_markers s') = others mk_org me (tb_markers s);
  rule_watchers : others wr_org me (tb_watchers s') = others wr_org me (tb_watchers s);
  rule_evidence : others er_org me (tb_evidence s') = others er_org me (tb_evidence s);
  rule_reviewers : others vr_org me (tb_reviewers s') = others vr_org me (tb_reviewers s);
  rule_attempts : others attempt_org me (tb_attempts s') = others attempt_org me (tb_attempts s);
}.

(** The status a statement gives a task. *)
Definition status_after (q : task_statement) (r : task_rec) : TaskStatus :=
  match q with
  | MoveTask _ _ status _ => status
  | FinishTask _ _ _ => TsDone
  | _ => tr_status r
  end.

(** An update keeps what identifies a task. *)
Definition edits (q : task_statement) (f : task_rec → task_rec) : Prop :=
  ∀ r, tr_id (f r) = tr_id r ∧ tr_org (f r) = tr_org r ∧ tr_workspace (f r) = tr_workspace r
       ∧ tr_card (f r) = tr_card r ∧ tr_key (f r) = tr_key r ∧ tr_status (f r) = status_after q r.

Definition edited_task (q : task_statement) : option (string * string) :=
  match q with
  | UpdateTask task workspace _ _ _ _ _ | MoveTask task workspace _ _ | UpdateDue task workspace _
  | FinishTask task workspace _ => Some (task, workspace)
  | _ => None
  end.

Inductive change_of (me : string) (s : task_tables) : task_statement → task_tables → Prop :=
| ch_rules q s' : same_rules me s s' → change_of me s q s'
| ch_insert_task org workspace w fields status key r :
    uuid_in workspace = Some w → workspace_org w = Some me → keyed tr_org tr_key me key (tb_tasks s) = None →
    tr_id r = gen_uuid (tb_uuids s) → tr_org r = me → tr_workspace r = w → tr_status r = status → tr_key r = key →
    tr_card r = (max_of tr_card (filter (λ r, tr_org r = me ∧ tr_workspace r = w) (tb_tasks s)) + 1)%Z →
    change_of me s (InsertTask org workspace fields status key) (drawn (on_tasks (λ l, l ++ [r]) s))
| ch_update_task q task workspace t w f :
    edited_task q = Some (task, workspace) → uuid_in task = Some t → uuid_in workspace = Some w → edits q f →
    change_of me s q (on_tasks (update_where (is_task me t w) f) s)
| ch_insert_review task org workspace t w r :
    uuid_in task = Some t → uuid_in workspace = Some w → Forall (λ r', qr_task r' ≠ t) (tb_reviews s) →
    qr_id r = gen_uuid (tb_uuids s) → qr_task r = t → qr_org r = me → qr_workspace r = w → qr_status r = QrOpen →
    change_of me s (InsertReview task org workspace) (drawn (on_reviews (λ l, l ++ [r]) s))
| ch_refresh_review task t status :
    uuid_in task = Some t → status ≠ QrApproved →
    change_of me s (RefreshReview task)
      (on_reviews (update_where (λ r, qr_org r = me ∧ qr_task r = t ∧ qr_status r ≠ QrApproved)
                     (set_review status None None (tb_now s))) s)
| ch_approve_review review task workspace user i t w :
    uuid_in review = Some i → uuid_in task = Some t → uuid_in workspace = Some w →
    change_of me s (ApproveReview review task workspace user)
      (on_reviews (update_where (approvable me i t w)
                     (set_review QrApproved (Some user) (Some (tb_now s)) (tb_now s))) s)
| ch_insert_check review org workspace task label kind state actor key i t k :
    uuid_in review = Some i → uuid_in task = Some t → review_exists i me s →
    kr_id k = gen_uuid (tb_uuids s) → kr_review k = i → kr_org k = me → kr_state k = state → kr_task k = t →
    change_of me s (InsertCheck review org workspace task label kind state actor key)
      (drawn (on_checks (λ l, l ++ [k]) s))
| ch_update_check check task workspace state i t w :
    uuid_in check = Some i → uuid_in task = Some t → uuid_in workspace = Some w →
    change_of me s (UpdateCheck check task workspace state)
      (on_checks (update_where (is_check me i t w) (set_check_state state (tb_now s))) s)
| ch_insert_confirmation task workspace user t w d :
    uuid_in task = Some t → uuid_in workspace = Some w → dr_id d = gen_uuid (tb_uuids s) → dr_task d = t →
    dr_org d = me → dr_workspace d = w → dr_user d = user → dr_issued d = tb_now s →
    dr_expires d = (dr_issued d + confirmation_lifetime)%Z → dr_consumed d = None → task_exists t me s →
    change_of me s (InsertConfirmation task workspace user) (drawn (on_confirmations (λ l, l ++ [d]) s))
| ch_delete_confirmations :
    change_of me s DeleteConfirmations (on_confirmations (filter (λ d, ¬ stale me (tb_now s) d)) s)
| ch_consume nonce task org workspace user review n t o w i :
    uuid_in nonce = Some n → uuid_in task = Some t → uuid_in org = Some o → uuid_in workspace = Some w →
    uuid_in review = Some i →
    change_of me s (ConsumeConfirmation nonce task org workspace user review)
      (on_confirmations (update_where (consumable me n t o w user (tb_now s)) (consume user i (tb_now s))) s).

Lemma same_rules_refl me s : same_rules me s s.
Proof. by constructor. Qed.

(** *** The change a statement makes *)

Section changed.
Context (me : string) (s : task_tables) (q : task_statement).

Definition changes (m : M task_tables execute_result) : Prop := change_of me s q (m s).2.

Lemma changes_rows {A} (columns : A → QueryRow) found : changes (rows columns found).
Proof. apply ch_rules, same_rules_refl. Qed.
Lemma changes_error code : changes (sql_error code).
Proof. apply ch_rules, same_rules_refl. Qed.
Lemma changes_unique constraint : changes (unique_violation constraint).
Proof. apply ch_rules, same_rules_refl. Qed.
Lemma changes_get (k : task_tables → M task_tables execute_result) : changes (k s) → changes (get_state ≫= k).
Proof. done. Qed.
Lemma changes_uuid_arg text k : (∀ id, uuid_in text = Some id → changes (k id)) → changes (uuid_arg text k).
Proof. intros Hk. unfold uuid_arg. destruct (uuid_in text); [by apply Hk|apply changes_error]. Qed.
Lemma changes_uuid_args texts k : (∀ ids, changes (k ids)) → changes (uuid_args texts k).
Proof.
  revert k; induction texts as [|text texts IH]; intros k Hk; [by apply Hk|].
  apply changes_uuid_arg. intros id _. apply IH. intros ids. apply Hk.
Qed.
Lemma changes_timestamp text k : (∀ t, changes (k t)) → changes (timestamp_arg text k).
Proof. intros Hk. unfold timestamp_arg. repeat case_match; auto using changes_error. Qed.
Lemma changes_check_sql code P `{Decision P} m : (P → changes m) → changes (check_sql code P m).
Proof. intros Hm. unfold check_sql. case_decide; [by apply Hm|apply changes_error]. Qed.
Lemma changes_belongs org workspace m :
  (org = me → workspace_org workspace = Some me → changes m) → changes (belongs me org workspace m).
Proof. intros Hm. apply changes_check_sql. intros ->. by apply changes_check_sql, Hm. Qed.
Lemma changes_belongs_to org workspace task t m :
  (org = me → workspace_org workspace = Some me → task_exists task me t → changes m) →
  changes (belongs_to me org workspace task t m).
Proof. intros Hm. apply changes_belongs. intros -> Hw. by apply changes_check_sql, Hm. Qed.
Lemma changes_change f result : change_of me s q (f s) → changes (change f result).
Proof. done. Qed.
End changed.



(** One step through the text of a statement. *)
Ltac change_step :=
  lazymatch goal with
  | |- changes _ _ _ (get_state ≫= _) => apply changes_get; cbv beta zeta
  | |- changes _ _ _ (uuid_arg _ _) => apply changes_uuid_arg; intros ? ?
  | |- changes _ _ _ (uuid_args _ _) => apply changes_uuid_args; intros ?
  | |- changes _ _ _ (timestamp_arg _ _) => apply changes_timestamp; intros ?
  | |- changes _ _ _ (belongs_to _ _ _ _ _ _) => apply changes_belongs_to; intros -> ? ?
  | |- changes _ _ _ (belongs _ _ _ _) => apply changes_belongs; intros -> ?
  | |- changes _ _ _ (check_sql _ _ _) => apply changes_check_sql; intros ?
  | |- changes _ _ _ (rows _ _) => apply changes_rows
  | |- changes _ _ _ (unique_violation _) => apply changes_unique
  | |- changes _ _ _ (sql_error _) => apply changes_error
  | |- changes _ _ _ (match ?x with _ => _ end) => destruct x eqn:?
  | |- changes _ _ _ ?m =>
      first [ progress unfold select_tasks, select_steps, select_comments, select_watchers, select_evidence,
                select_review, select_checks, select_reviewers, select_check_review, select_confirmation,
                insert_task, update_task, insert_step, update_step, reorder_steps, insert_comment, mark_read,
                insert_watchers, insert_evidence, insert_review, insert_check, update_check, refresh_review,
                approve_review, upsert_reviewer, insert_confirmation, delete_confirmations,
                consume_confirmation, insert_attempt; cbv beta zeta ]
  end.

(** *** The statements that add or change several rows *)

Lemma others_upsert me m l :
  mk_org m = me → Forall (λ m', mk_comment m' = mk_comment m ∧ mk_user m' = mk_user m → mk_org m' = me) l →
  others mk_org me (upsert_marker m l) = others mk_org me l.
Proof. intros Hm Hl. unfold upsert_marker. case_decide; [by apply others_update|by apply others_app]. Qed.

Lemma others_upserts me user (comments : list string) ms l :
  Forall (λ m, mk_org m = me ∧ mk_user m = user ∧ mk_comment m ∈ comments) ms →
  Forall (λ m', mk_user m' = user → mk_comment m' ∈ comments → mk_org m' = me) l →
  others mk_org me (foldl (λ l m, upsert_marker m l) l ms) = others mk_org me l.
Proof.
  intros Hms. revert l. induction Hms as [|m ms (Hm & Hu & Hc) Hms IH]; intros l Hl; [done|]. simpl.
  rewrite IH.
  - apply others_upsert; [done|]. eapply Forall_impl; [done|]. simpl. intros m' Hm' [Hc' Hu']. apply Hm'; congruence.
  - unfold upsert_marker. case_decide.
    + apply Forall_fmap. eapply Forall_impl; [done|]. intros m' Hm'. simpl. by case_decide.
    + apply Forall_app. split; [done|]. by constructor.
Qed.

Lemma others_mark_read me user now (cs : list comment_rec) l :
  Forall (λ c, cr_org c = me) cs →
  Forall (λ m, mk_user m = user → mk_comment m ∈ (cr_id <$> cs) → mk_org m = me) l →
  others mk_org me (foldl (λ l m, upsert_marker m l) l
    ((λ c, mkMarkerRec (cr_task c) (cr_id c) (cr_org c) (cr_workspace c) user now) <$> cs)) = others mk_org me l.
Proof.
  intros Hcs Hl. apply (others_upserts me user (cr_id <$> cs)); [|done].
  apply Forall_fmap, Forall_forall. intros c Hc. simpl. split_and!; [by eapply Forall_forall in Hcs|done|].
  by apply list_elem_of_fmap_2.
Qed.

Lemma others_watchers me task (add : string → watcher_rec) users l :
  (∀ user, wr_org (add user) = me) →
  others wr_org me (foldl (λ l user, if decide (Exists (λ r, wr_task r = task ∧ wr_user r = user) l) then l
                                     else l ++ [add user]) l users) = others wr_org me l.
Proof.
  intros Hadd. revert l. induction users as [|user users IH]; intros l; [done|]. simpl. rewrite IH.
  case_decide; [done|]. by apply others_app.
Qed.

Lemma filter_org {A} (P : A → Prop) `{∀ x, Decision (P x)} (org_of : A → string) me l :
  (∀ x, P x → org_of x = me) → Forall (λ x, org_of x = me) (filter P l).
Proof. intros HP. apply Forall_forall. intros x [Hx _]%list_elem_of_filter. by apply HP. Qed.

(** A change of the tables without rules. *)
Ltac change_rules :=
  apply ch_rules; constructor; try done; try (simpl; lia); simpl;
  first [by apply others_app|by (apply others_update; [apply Forall_forall; intros ? _ (? & ?)|])|idtac].

Lemma execute_changes tenant me q s :
  uuid_in tenant = Some me → change_of me s q (execute_tables tenant q s).2.
Proof.
  intros Hme. unfold execute_tables, uuid_arg at 1. rewrite Hme.
  destruct q; lazymatch goal with |- change_of ?me ?s ?q (?m ?s).2 => change (changes me s q m) end.
  all: repeat change_step.
  all: apply changes_change.
  all: try (by eapply ch_update_task; [reflexivity|eassumption..|intros r; by split_and!]).
  all: try (by (econstructor; eauto)).
  all: try (by change_rules).
  - change_rules. apply others_fmap; intros r; case_match; [by case_decide|done|case_decide; naive_solver|done].
  - change_rules. apply others_mark_read; [|done]. apply filter_org. naive_solver.
  - change_rules. apply others_mark_read; [|done]. apply filter_org. naive_solver.
  - change_rules. apply others_filter. intros r Hr. destruct (decide (wr_org r = me)); [done|]. destruct Hr. naive_solver.
  - change_rules. by apply others_watchers.
  - eapply ch_insert_review; eauto. apply Forall_forall. intros r Hr Ht.
    match goal with H : head _ = None |- _ => apply head_None in H; rename H into Hnone end.
    apply filter_nil_not_elem_of with (x := r) in Hnone; [by destruct Hnone|done].
  - eapply ch_refresh_review; [done|]. by case_decide.
  - change_rules. apply others_update; [|done]. done.
  - match goal with H : filter _ _ = _ :: _ |- _ => assert (t ∈ t :: l) as Ht by left; rewrite <- H in Ht end.
    apply list_elem_of_filter in Ht as [(Ho & Hi & Hw) Ht].
    eapply ch_insert_confirmation; eauto. apply Exists_exists. by exists t.
  - change_rules. apply others_app. unfold attempt_org. match goal with H : uuid_in (ta_organizationId _) = _ |- _ => by rewrite H end.
Qed.

(** A tenant that is not a uuid changes nothing. *)
Lemma execute_unknown tenant q s : uuid_in tenant = None → (execute_tables tenant q s).2 = s.
Proof. intros Hn. unfold execute_tables, uuid_arg. by rewrite Hn. Qed.
End changes.

(** * Project Management: invariants of the task tables

    What every change keeps: the identifiers are those the database generated, a
    workspace's cards are numbered from one without a gap, a task has one review,
    a check belongs to a review of its organization, and an approved review has
    passed every check. *)

(** ** Generic facts *)

Lemma update_where_fmap {A B} (P : A → Prop) `{∀ x, Decision (P x)} f (g : A → B) l :
  (∀ x, P x → g (f x) = g x) → g <$> update_where P f l = g <$> l.
Proof.
  intros Hg. unfold update_where. rewrite <- list_fmap_compose. apply list_fmap_ext.
  intros i x _. simpl. case_decide; auto.
Qed.

Lemma update_where_Forall {A} (P : A → Prop) `{∀ x, Decision (P x)} f (Q : A → Prop) l :
  (∀ x, x ∈ l → P x → Q x → Q (f x)) → Forall Q l → Forall Q (update_where P f l).
Proof.
  intros Hf HQ. apply Forall_fmap, Forall_forall. intros x Hx. simpl.
  eapply Forall_forall in HQ; [|done]. case_decide; auto.
Qed.

Lemma elem_of_update_where {A} (P : A → Prop) `{∀ x, Decision (P x)} f l y :
  y ∈ update_where P f l → ∃ x, x ∈ l ∧ ((P x ∧ y = f x) ∨ (¬ P x ∧ y = x)).
Proof.
  intros (x & -> & Hx)%list_elem_of_fmap. exists x. split; [done|]. case_decide; [by left|by right].
Qed.

Lemma filter_update_where {A} (P Q : A → Prop) `{∀ x, Decision (P x), ∀ x, Decision (Q x)} f l :
  (∀ x, P x → Q (f x) ↔ Q x) → filter Q (update_where P f l) = update_where P f (filter Q l).
Proof.
  intros HQ. unfold update_where. induction l as [|x l IH]; [done|]. rewrite fmap_cons, !filter_cons, IH.
  destruct (decide (P x)) as [HPx|HPx].
  - specialize (HQ x HPx). destruct (decide (Q x)); [rewrite decide_True by tauto|rewrite decide_False by tauto];
      [|done]. rewrite fmap_cons. by rewrite decide_True.
  - case_decide; [|done]. rewrite fmap_cons. by rewrite decide_False.
Qed.

Lemma filter_Forall_iff {A} (P Q : A → Prop) `{∀ x, Decision (P x), ∀ x, Decision (Q x)} l :
  Forall (λ x, P x ↔ Q x) l → filter P l = filter Q l.
Proof.
  induction 1 as [|x l Hx Hl IH]; [done|]. rewrite !filter_cons, IH.
  destruct (decide (P x)); [rewrite decide_True by tauto|rewrite decide_False by tauto]; done.
Qed.

Lemma filter_update_fmap {A B} (P Q : A → Prop) `{∀ x, Decision (P x), ∀ x, Decision (Q x)} f (g : A → B) l :
  (∀ x, P x → g (f x) = g x ∧ (Q (f x) ↔ Q x)) → g <$> filter Q (update_where P f l) = g <$> filter Q l.
Proof.
  intros Hf. rewrite filter_update_where by (intros x Hx; by apply Hf).
  apply update_where_fmap. intros x Hx. by apply Hf.
Qed.

(** A list that counts from one. *)
Definition counts (l : list Z) : Prop := l = seqZ 1 (Z.of_nat (length l)).

Lemma foldr_max_seqZ n z : (0 <= z)%Z → foldr Z.max z (seqZ 1 (Z.of_nat n)) = Z.max z (Z.of_nat n).
Proof.
  revert z. induction n as [|n IH]; intros z Hz; [rewrite seqZ_nil by lia; simpl; lia|].
  rewrite seqZ_S, foldr_app. simpl. rewrite IH by lia. lia.
Qed.

Lemma max_of_counts {A} (column : A → Z) l : counts (column <$> l) → max_of column l = Z.of_nat (length l).
Proof.
  unfold counts, max_of. intros ->. rewrite length_fmap, foldr_max_seqZ by lia. lia.
Qed.

Lemma counts_app l : counts l → counts (l ++ [(Z.of_nat (length l) + 1)%Z]).
Proof.
  unfold counts. intros Hl. rewrite length_app, Nat.add_1_r, seqZ_S, <- Hl. by rewrite Z.add_comm.
Qed.

Lemma NoDup_app_one {A} (l : list A) x : NoDup l → x ∉ l → NoDup (l ++ [x]).
Proof.
  intros Hl Hx. apply NoDup_app. split_and!; [done| |apply NoDup_singleton].
  by intros y Hy ->%list_elem_of_singleton.
Qed.

Lemma NoDup_fmap_filter {A B} (g : A → B) (P : A → Prop) `{∀ x, Decision (P x)} l :
  NoDup (g <$> l) → NoDup (g <$> filter P l).
Proof. intros Hl. eapply sublist_NoDup; [done|]. by apply fmap_sublist, sublist_filter. Qed.

Section invariant.
Context `{PostgresUuids}.

(** An identifier the database has generated. *)
Definition issued (s : task_tables) (id : string) : Prop := ∃ n, n < tb_uuids s ∧ id = gen_uuid n.

(** Every identifier of a column is generated and occurs once. *)
Definition keyed_by (s : task_tables) (ids : list string) : Prop := NoDup ids ∧ Forall (issued s) ids.

Definition cards (workspace : string) (s : task_tables) : list Z :=
  tr_card <$> filter (λ r, tr_workspace r = workspace) (tb_tasks s).

(** A check belongs to a review of its organization. *)
Definition has_review (s : task_tables) (k : check_rec) : Prop :=
  Exists (λ r, qr_id r = kr_review k ∧ qr_org r = kr_org k) (tb_reviews s).

(** An idempotency key names one task of its organization. *)
Definition keys_unique (l : list task_rec) : Prop :=
  ∀ r r', r ∈ l → r' ∈ l → tr_org r = tr_org r' → tr_key r = tr_key r' → tr_key r ≠ None → r = r'.

Record well_formed (s : task_tables) : Prop := {
  wf_task_ids : keyed_by s (tr_id <$> tb_tasks s);
  wf_review_ids : keyed_by s (qr_id <$> tb_reviews s);
  wf_check_ids : keyed_by s (kr_id <$> tb_checks s);
  wf_confirmation_ids : keyed_by s (dr_id <$> tb_confirmations s);
  wf_workspaces : Forall (λ r, workspace_org (tr_workspace r) = Some (tr_org r)) (tb_tasks s);
  wf_cards : ∀ w, counts (cards w s);
  wf_review_tasks : NoDup (qr_task <$> tb_reviews s);
  wf_check_reviews : Forall (has_review s) (tb_checks s);
  wf_expiries : Forall (λ d, dr_expires d = (dr_issued d + confirmation_lifetime)%Z) (tb_confirmations s);
  wf_keys : keys_unique (tb_tasks s);
}.

(** An approved review has passed every check. *)
Definition passed (s : task_tables) (r : review_rec) : Prop :=
  Forall (λ k, kr_review k = qr_id r → kr_state k = QsPass) (tb_checks s).
Definition approved_passed (s : task_tables) : Prop :=
  Forall (λ r, qr_status r = QrApproved → passed s r) (tb_reviews s).

(** *** Generated identifiers *)

Lemma issued_drawn s f id : tb_uuids (f s) = tb_uuids s → issued s id → issued (drawn (f s)) id.
Proof. intros Hf (n & Hn & ->). exists n. split; [|done]. simpl. rewrite Hf. lia. Qed.

Lemma issued_mono s s' id : tb_uuids s <= tb_uuids s' → issued s id → issued s' id.
Proof. intros Hle (n & Hn & ->). exists n. split; [lia|done]. Qed.

Lemma issued_fresh s : ¬ issued s (gen_uuid (tb_uuids s)).
Proof. intros (n & Hn & Heq%gen_uuid_inj). lia. Qed.

Lemma keyed_by_mono s s' ids : tb_uuids s <= tb_uuids s' → keyed_by s ids → keyed_by s' ids.
Proof. intros Hle [Hn Hi]. split; [done|]. eapply Forall_impl; [done|]. intros id. by apply issued_mono. Qed.

Lemma keyed_by_insert s s' ids :
  tb_uuids s' = Datatypes.S (tb_uuids s) → keyed_by s ids → keyed_by s' (ids ++ [gen_uuid (tb_uuids s)]).
Proof.
  intros Hs' [Hn Hi]. split.
  - apply NoDup_app_one; [done|]. intros Hin. eapply Forall_forall in Hi; [|done]. by apply issued_fresh in Hi.
  - apply Forall_app. split; [|constructor; [exists (tb_uuids s); split; [lia|done]|done]].
    eapply Forall_impl; [done|]. intros id. apply issued_mono. lia.
Qed.

Lemma issued_canonical s id : issued s id → uuid_in id = Some id.
Proof. intros (n & _ & ->). apply uuid_in_gen. Qed.

Lemma keys_unique_insert r l :
  keys_unique l → keyed tr_org tr_key (tr_org r) (tr_key r) l = None → keys_unique (l ++ [r]).
Proof.
  intros Hl Hnone. assert (∀ r', r' ∈ l → tr_org r' = tr_org r → tr_key r' = tr_key r → tr_key r ≠ None → False) as Hnew.
  { intros r' Hr' Ho Hk Hn. unfold keyed in Hnone. destruct (tr_key r) as [key|]; [|done].
    apply head_None in Hnone. by apply filter_nil_not_elem_of with (x := r') in Hnone. }
  intros x y [Hx|Hx%list_elem_of_singleton]%elem_of_app [Hy|Hy%list_elem_of_singleton]%elem_of_app Ho Hk Hn; subst.
  - by apply Hl.
  - destruct (Hnew x); try done. congruence.
  - by destruct (Hnew y).
  - done.
Qed.

Lemma keys_unique_update (P : task_rec → Prop) `{∀ x, Decision (P x)} f l :
  (∀ r, tr_org (f r) = tr_org r ∧ tr_key (f r) = tr_key r) → keys_unique l → keys_unique (update_where P f l).
Proof.
  intros Hf Hl x y (x' & Hx & Hx')%elem_of_update_where (y' & Hy & Hy')%elem_of_update_where Ho Hk Hn.
  destruct (Hf x') as [Hox Hkx], (Hf y') as [Hoy Hky].
  assert (x' = y') as <- by (destruct Hx' as [[_ ->]|[_ ->]], Hy' as [[_ ->]|[_ ->]]; apply Hl; congruence).
  naive_solver.
Qed.

(** *** One lemma per part of the invariant that a change touches *)

(** The parts of the invariant that a change of one table keeps. *)
Ltac keep_rules :=
  constructor; simpl; try done; try (by (eapply keyed_by_mono; [|eassumption]; simpl; lia)).

(** The four tables with rules are untouched, and identifiers may have been drawn. *)
Lemma wf_same_tables s s' :
  tb_uuids s <= tb_uuids s' → tb_tasks s' = tb_tasks s → tb_reviews s' = tb_reviews s →
  tb_checks s' = tb_checks s → tb_confirmations s' = tb_confirmations s → well_formed s → well_formed s'.
Proof.
  intros Hu Ht Hr Hk Hd [? ? ? ? ? Hc ? Hkr ? ?].
  constructor; rewrite ?Ht, ?Hr, ?Hk, ?Hd; eauto using keyed_by_mono.
  - intros w. unfold cards. rewrite Ht. apply Hc.
  - unfold has_review. by rewrite Hr.
Qed.

(** A task whose workspace belongs to its organization gets the next number. *)
Lemma next_card me w s :
  well_formed s → workspace_org w = Some me →
  (max_of tr_card (filter (λ r, tr_org r = me ∧ tr_workspace r = w) (tb_tasks s)) + 1)%Z
  = (Z.of_nat (length (cards w s)) + 1)%Z.
Proof.
  intros Hwf Hw. rewrite (filter_Forall_iff _ (λ r, tr_workspace r = w)).
  - unfold cards. rewrite max_of_counts; [by rewrite length_fmap|apply (wf_cards _ Hwf)].
  - eapply Forall_impl; [apply (wf_workspaces _ Hwf)|]. simpl. intros r Hr. split; [tauto|].
    intros <-. split; [congruence|done].
Qed.

Lemma wf_insert_task me w r s :
  well_formed s → keyed tr_org tr_key me (tr_key r) (tb_tasks s) = None → workspace_org w = Some me → tr_id r = gen_uuid (tb_uuids s) → tr_org r = me →
  tr_workspace r = w →
  tr_card r = (max_of tr_card (filter (λ r, tr_org r = me ∧ tr_workspace r = w) (tb_tasks s)) + 1)%Z →
  well_formed (drawn (on_tasks (λ l, l ++ [r]) s)).
Proof.
  intros Hwf Hkey Hw Hid Horg Hws Hcard. rewrite next_card in Hcard by done. destruct Hwf as [Hti ? ? ? Htw Hc ? Hkr ? ?].
  keep_rules.
  - rewrite fmap_app. simpl. rewrite Hid. by apply (keyed_by_insert s).
  - apply Forall_app. split; [done|]. constructor; [congruence|done].
  - intros w'. unfold cards. simpl. rewrite filter_app, fmap_app, filter_cons, filter_nil.
    case_decide as Hw'; [|simpl; rewrite app_nil_r; apply Hc]. simpl. rewrite Hcard. rewrite Hws in Hw'; subst w'.
    apply counts_app, Hc.
  - subst me. by apply keys_unique_insert.
Qed.

Lemma wf_update_task q me t w f s :
  well_formed s → edits q f → well_formed (on_tasks (update_where (is_task me t w) f) s).
Proof.
  intros [? ? ? ? Htw Hc ? Hkr ?] Hf. keep_rules.
  - rewrite update_where_fmap; [done|]. intros r _. apply Hf.
  - apply update_where_Forall; [|done]. intros r _ _ Hr. destruct (Hf r) as (_ & -> & -> & _). done.
  - intros w'. unfold cards. simpl. rewrite filter_update_fmap; [apply Hc|].
    intros r _. destruct (Hf r) as (_ & _ & -> & -> & _). done.
  - apply keys_unique_update; [|done]. intros r. split; apply Hf.
Qed.

Lemma wf_insert_review t r s :
  well_formed s → Forall (λ r', qr_task r' ≠ t) (tb_reviews s) → qr_id r = gen_uuid (tb_uuids s) → qr_task r = t →
  well_formed (drawn (on_reviews (λ l, l ++ [r]) s)).
Proof.
  intros [? Hri ? ? ? Hc Hrt Hkr ?] Hnew Hid Ht. keep_rules.
  - rewrite fmap_app. simpl. rewrite Hid. by apply (keyed_by_insert s).
  - rewrite fmap_app. apply NoDup_app_one; [done|]. intros (r' & Heq & Hr')%list_elem_of_fmap.
    eapply Forall_forall in Hnew; [|done]. simpl in Hnew. congruence.
  - eapply Forall_impl; [done|]. intros k Hk. unfold has_review. simpl. apply Exists_app. by left.
Qed.

(** An update of reviews that keeps what identifies them. *)
Lemma wf_update_reviews (P : review_rec → Prop) `{∀ r, Decision (P r)} f s :
  well_formed s → (∀ r, qr_id (f r) = qr_id r ∧ qr_task (f r) = qr_task r ∧ qr_org (f r) = qr_org r) →
  well_formed (on_reviews (update_where P f) s).
Proof.
  intros [? ? ? ? ? Hc ? Hkr ?] Hf. keep_rules.
  - rewrite update_where_fmap; [done|]. intros r _. apply Hf.
  - rewrite update_where_fmap; [done|]. intros r _. apply Hf.
  - eapply Forall_impl; [done|]. intros k (r & Hr & Hid & Horg)%Exists_exists. apply Exists_exists.
    exists (if decide (P r) then f r else r). split; [apply list_elem_of_fmap; by exists r|].
    destruct (Hf r) as (? & _ & ?). case_decide; split; congruence.
Qed.

Lemma wf_insert_check me i k s :
  well_formed s → review_exists i me s → kr_id k = gen_uuid (tb_uuids s) → kr_review k = i → kr_org k = me →
  well_formed (drawn (on_checks (λ l, l ++ [k]) s)).
Proof.
  intros [? ? Hki ? ? Hc ? Hkr ?] Hex Hid <- <-. keep_rules.
  - rewrite fmap_app. simpl. rewrite Hid. by apply (keyed_by_insert s).
  - apply Forall_app. split; [done|]. by constructor.
Qed.

Lemma wf_update_check me i t w state s :
  well_formed s → well_formed (on_checks (update_where (is_check me i t w) (set_check_state state (tb_now s))) s).
Proof.
  intros [? ? ? ? ? Hc ? Hkr ? ?]. keep_rules.
  - by rewrite update_where_fmap.
  - apply update_where_Forall; [|done]. by intros k _ _ Hk.
Qed.

Lemma wf_insert_confirmation d s :
  well_formed s → dr_id d = gen_uuid (tb_uuids s) → dr_expires d = (dr_issued d + confirmation_lifetime)%Z →
  well_formed (drawn (on_confirmations (λ l, l ++ [d]) s)).
Proof.
  intros [? ? ? ? ? Hc ? Hkr ?] Hid Hexp. keep_rules.
  - rewrite fmap_app. simpl. rewrite Hid. by apply (keyed_by_insert s).
  - apply Forall_app. split; [done|]. by constructor.
Qed.

Lemma wf_filter_confirmations (P : confirmation_rec → Prop) `{∀ d, Decision (P d)} s :
  well_formed s → well_formed (on_confirmations (filter P) s).
Proof.
  intros [? ? ? [Hn Hi] ? Hc ? Hkr ? ?]. keep_rules.
  - split; [by apply NoDup_fmap_filter|]. apply Forall_forall. intros id (d & -> & Hd)%list_elem_of_fmap.
    apply list_elem_of_filter in Hd as [_ Hd]. eapply Forall_forall; [done|]. by apply list_elem_of_fmap_2.
  - apply Forall_forall. intros d [_ Hd]%list_elem_of_filter. by eapply Forall_forall in Hd; [|done].
Qed.

Lemma wf_consume (P : confirmation_rec → Prop) `{∀ d, Decision (P d)} user review now s :
  well_formed s → well_formed (on_confirmations (update_where P (consume user review now)) s).
Proof.
  intros [? ? ? ? ? Hc ? Hkr ? ?]. keep_rules.
  - by rewrite update_where_fmap.
  - apply update_where_Forall; [|done]. by intros d _ _ Hd.
Qed.

Lemma change_well_formed me q s s' : change_of me s q s' → well_formed s → well_formed s'.
Proof.
  intros Hch Hwf. destruct Hch.
  - match goal with Hs : same_rules _ _ _ |- _ => destruct Hs end. by apply (wf_same_tables s).
  - eapply wf_insert_task; try done. congruence.
  - by eapply wf_update_task.
  - by eapply wf_insert_review.
  - by apply wf_update_reviews.
  - by apply wf_update_reviews.
  - by eapply wf_insert_check.
  - by apply wf_update_check.
  - by apply wf_insert_confirmation.
  - by apply wf_filter_confirmations.
  - by apply wf_consume.
Qed.

Lemma execute_well_formed tenant q s : well_formed s → well_formed (execute_tables tenant q s).2.
Proof.
  intros Hwf. destruct (uuid_in tenant) as [me|] eqn:Hme; [|by rewrite execute_unknown].
  by eapply change_well_formed; [apply execute_changes|].
Qed.
End invariant.
