(* ===== verification/TaskGoverned.v ===== *)
(** * Project Management: what the services read

    The answers of the reference driver to the reads on which a decision of a
    service rests: the review of a task with its checks, the review of a check, the
    rows of an update. *)
From S2P Require Import Prelude JsString JsValue SharedKernel Effects DevBoardDomain TenantContext.
From S2P Require Import JsText RuntimeDomain Authorization RuntimeSql RuntimeTables TaskDomain.
From S2P Require Import TaskSql TaskInputs TaskServices TaskReviews TaskTables TaskFrame.
From S2P Require Import TaskCommands TaskInvariant.

Import TaskServices TaskReviews.

Section reads.
Context `{PostgresUuids} `{NodeDates} `{OpaqueTexts} `{OpaqueNumbers}.
Implicit Types (s : task_tables) (tx : string).

Lemma execute_read tenant q s : is_read q = true → (execute_tables tenant q s).2 = s.
Proof.
  intros Hr. unfold execute_tables, uuid_arg. destruct (uuid_in tenant); [|done].
  destruct q; try done; unfold mbind, M_bind, get_state; simpl; by repeat case_match.
Qed.

(** A call that only reads leaves the tables as they are. *)
Definition reading (tenant : string) (q : task_statement) : Prop := is_read q = true.

Lemma reading_state {A} (m : M task_tables A) s r s' : sends reading m → m s = (r, s') → s' = s.
Proof.
  intros Hm Hrun. symmetry.
  apply (sends_run reading m eq s r s' Hm _); [|done]. intros tenant q t Hq. symmetry. by apply execute_read.
Qed.

(** The first row of a read, and the arguments it was read with. *)
Lemma task_row_state tx q s row s' : is_read q = true → task_row tx q s = (Returned row, s') → s' = s.
Proof.
  intros Hr. unfold task_row, mbind, M_bind. pose proof (execute_read tx q s Hr) as Hs.
  unfold execute_task, tables_driver. destruct (execute_tables tx q s) as [[res|e] s1]; simpl in *; [|done].
  by intros [= _ <-].
Qed.

Lemma head_rows {A} (columns : A → QueryRow) l : head (columns <$> l) = columns <$> head l.
Proof. by destruct l. Qed.
Lemma head_take_one {A} (l : list A) : head (take 1 l) = head l.
Proof. by destruct l. Qed.
Lemma head_filter {A} (P : A → Prop) `{∀ x, Decision (P x)} l x : head (filter P l) = Some x → x ∈ l ∧ P x.
Proof.
  destruct (filter P l) as [|y l'] eqn:Hf; [done|]. intros [= ->].
  assert (x ∈ x :: l') as Hx by left. rewrite <- Hf in Hx. apply list_elem_of_filter in Hx. tauto.
Qed.

(** Runs a statement whose arguments are all read. *)
Ltac read_row Hrun :=
  unfold task_row, execute_task, tables_driver, execute_tables, uuid_arg, mbind, M_bind, get_state, sql_error, throw,
    rows, mret, M_ret in Hrun;
  repeat match type of Hrun with
    | context [match uuid_in ?t with _ => _ end] => destruct (uuid_in t) eqn:?; [|done]
    end.

Lemma review_row tx task s row s' :
  task_row tx (SelectReview task) s = (Returned row, s') →
  s' = s ∧ ∃ me t, uuid_in tx = Some me ∧ uuid_in task = Some t ∧
    row = review_columns <$> head (filter (λ r, qr_org r = me ∧ qr_task r = t) (tb_reviews s)).
Proof.
  intros Hrun. split; [by apply task_row_state in Hrun|]. read_row Hrun. injection Hrun as <- <-.
  do 2 eexists. split_and!; [done..|]. simpl. by rewrite head_rows, head_take_one.
Qed.

Lemma review_row_in_workspace tx task workspace s row s' :
  task_row tx (SelectReviewInWorkspace task workspace) s = (Returned row, s') →
  s' = s ∧ ∃ me t w, uuid_in tx = Some me ∧ uuid_in task = Some t ∧ uuid_in workspace = Some w ∧
    row = review_columns <$> head (filter (λ r, qr_org r = me ∧ qr_task r = t ∧ qr_workspace r = w) (tb_reviews s)).
Proof.
  intros Hrun. split; [by apply task_row_state in Hrun|]. read_row Hrun. injection Hrun as <- <-.
  do 3 eexists. split_and!; [done..|]. simpl. by rewrite head_rows, head_take_one.
Qed.

(** ** Decoding *)

Definition decodes_review (base : TaskQualityReviewBase) (r : review_rec) : Prop :=
  qd_id base = qr_id r ∧ qd_taskId base = qr_task r ∧ qd_workspaceId base = qr_workspace r
  ∧ qd_status base = qr_status r.

Lemma stateless_returned {A B} (m : M task_tables A) (k : A → M task_tables B) s b s' :
  stateless m → (m ≫= k) s = (Returned b, s') → ∃ a, k a s = (Returned b, s').
Proof. intros Hm Hk. apply stateless_bind_returned in Hk as (a & _ & Hk); [by exists a|done]. Qed.

Lemma decode_review r s base s' :
  rowToQualityReviewBase (review_columns r) s = (Returned base, s') → s' = s ∧ decodes_review base r.
Proof.
  unfold rowToQualityReviewBase.
  intros (a & (b & (c & Hr)%stateless_returned)%stateless_returned)%stateless_returned; auto with stateless.
  injection Hr as <- <-. split; [done|]. repeat split. simpl. by destruct (qr_status r).
Qed.

Lemma decode_check k s d s' :
  rowToQualityCheckDto (check_columns k) s = (Returned d, s') → s' = s ∧ kd_state d = kr_state k.
Proof.
  unfold rowToQualityCheckDto.
  intros (a & (b & Hr)%stateless_returned)%stateless_returned; auto with stateless.
  injection Hr as <- <-. split; [done|]. simpl. by destruct (kr_state k).
Qed.

Lemma decode_all_checks ks s ds s' :
  decode_all rowToQualityCheckDto (check_columns <$> ks) s = (Returned ds, s') →
  s' = s ∧ kd_state <$> ds = kr_state <$> ks.
Proof.
  revert ds s'. induction ks as [|k ks IH]; intros ds s' Hr; [by injection Hr as <- <-|].
  rewrite fmap_cons in Hr. simpl in Hr. apply stateless_bind_returned in Hr as (d & Hd & Hr); [|auto with stateless].
  apply stateless_bind_returned in Hr as (ds' & Hds & Hr); [|auto with stateless].
  injection Hr as <- <-. apply decode_check in Hd as [_ Hd]. apply IH in Hds as [_ Hds].
  split; [done|]. rewrite !fmap_cons. by rewrite Hd, Hds.
Qed.

(** ** The review of a task *)

Definition reviews_task (tx task : string) (s : task_tables) (r : review_rec) : Prop :=
  r ∈ tb_reviews s ∧ uuid_in tx = Some (qr_org r) ∧ uuid_in task = Some (qr_task r).

Lemma insert_review_row tx task org workspace s row s' :
  task_row tx (InsertReview task org workspace) s = (Returned row, s') →
  ∃ r, row = Some (review_columns r) ∧ reviews_task tx task s' r.
Proof.
  intros Hrun. read_row Hrun. unfold insert_review, check_sql, belongs_to, belongs, check_sql, mbind, M_bind, get_state,
    change in Hrun.
  destruct (decide _) as [->|]; [|done].
  destruct (head _) as [r|] eqn:Hh.
  - apply head_filter in Hh as [Hin Ht]. destruct (decide _) as [Ho|]; [|done]. injection Hrun as <- <-.
    exists r. split; [done|]. split_and!; [done|congruence|congruence].
  - destruct (decide _); [|done]. destruct (decide _); [|done].
    injection Hrun as <- <-. eexists. split; [done|]. split_and!; simpl; [|done..].
    apply elem_of_app. right. by apply list_elem_of_singleton.
Qed.

(** What [ensureQualityReview] answers is the review of the task. *)
Lemma ensured_review tx target s review s' :
  ensureQualityReview tx target s = (Returned (ok review), s') →
  ∃ r, reviews_task tx (tg_taskId target) s' r ∧ decodes_review review r.
Proof.
  unfold ensureQualityReview. intros (row & s1 & Hrow & Hrun)%bind_returned.
  apply review_row_in_workspace in Hrow as (-> & me & t & w & Htx & Ht & Hw & ->).
  destruct (head _) as [r|] eqn:Hh; simpl in Hrun.
  - apply head_filter in Hh as [Hin (Ho & Hq & _)].
    apply bind_returned in Hrun as (base & s1 & Hd & Hrun). apply decode_review in Hd as [-> Hd].
    injection Hrun as <- <-. exists r. split; [|done]. split_and!; [done|congruence|congruence].
  - apply bind_returned in Hrun as (row & s1 & Hrow & Hrun).
    apply insert_review_row in Hrow as (r & -> & Hr).
    apply bind_returned in Hrun as (base & s2 & Hd & Hrun). apply decode_review in Hd as [-> Hd].
    injection Hrun as <- <-. by exists r.
Qed.

(** The checks of a review, as the services read them. *)
Definition read_checks (me review : string) (s : task_tables) (states : list TaskQualityCheckState) : Prop :=
  ∀ k, k ∈ tb_checks s → kr_org k = me → kr_review k = review → kr_state k ∈ states.

Lemma execute_read_state tx q s res s' : is_read q = true → execute_task tx q s = (Returned res, s') → s' = s.
Proof. intros Hr Hrun. pose proof (execute_read tx q s Hr) as Hs. unfold execute_task, tables_driver in Hrun. by rewrite Hrun in Hs. Qed.

Lemma selected_review tx task s dto s' :
  well_formed s → selectQualityReview tx task s = (Returned (Some dto), s') →
  s' = s ∧ ∃ r, reviews_task tx task s r ∧ decodes_review (qd_base dto) r ∧
    read_checks (qr_org r) (qr_id r) s (kd_state <$> qd_checks dto).
Proof.
  unfold selectQualityReview. intros Hwf (row & s1 & Hrow & Hrun)%bind_returned.
  apply review_row in Hrow as (-> & me & t & Htx & Ht & ->).
  destruct (head _) as [r|] eqn:Hh; simpl in Hrun; [|done].
  apply head_filter in Hh as [Hin (Ho & Hq)].
  apply bind_returned in Hrun as (base & s1 & Hb & Hrun). apply decode_review in Hb as [-> Hb].
  assert (Hid : uuid_in (qd_id base) = Some (qr_id r)).
  { destruct Hb as (-> & _). destruct (wf_review_ids _ Hwf) as [_ Hi].
    eapply issued_canonical, (Forall_forall (issued s)); [done|]. by apply list_elem_of_fmap_2. }
  apply bind_returned in Hrun as (checks & s1 & Hchecks & Hrun).
  unfold execute_task, tables_driver, execute_tables, uuid_arg, mbind, M_bind, get_state in Hchecks.
  rewrite Htx, Hid in Hchecks. injection Hchecks as <- <-.
  apply bind_returned in Hrun as (reviewers & s1 & Hrev & Hrun). apply execute_read_state in Hrev as ->; [|done].
  apply bind_returned in Hrun as (ds & s1 & Hds & Hrun). apply decode_all_checks in Hds as [-> Hds].
  apply stateless_bind_returned in Hrun as (vs & Hvs & Hrun); [|auto with stateless].
  injection Hrun as <- <-. split; [done|]. exists r. split_and!; [split_and!; congruence|done..|].
  simpl. rewrite Hds. intros k Hk Hko Hkr. apply list_elem_of_fmap_2.
  unfold order_by. rewrite merge_sort_Permutation. apply list_elem_of_filter. split; [|done]. split; congruence.
Qed.

(** The review of a check, as [toggleQualityCheck] reads it. *)
Lemma check_review_row tx check task workspace s row s' :
  task_row tx (SelectCheckReview check task workspace) s = (Returned (Some row), s') →
  s' = s ∧ ∃ me i t w k r, uuid_in tx = Some me ∧ uuid_in check = Some i ∧ uuid_in task = Some t ∧
    uuid_in workspace = Some w ∧ k ∈ tb_checks s ∧ is_check me i t w k ∧ r ∈ tb_reviews s ∧
    qr_id r = kr_review k ∧ column "status" row = text_cell (qualityReviewStatus_str (qr_status r)).
Proof.
  intros Hrun. split; [by apply task_row_state in Hrun|]. read_row Hrun. unfold select_check_review in Hrun.
  unfold mbind, M_bind, get_state, rows, mret, M_ret in Hrun. injection Hrun as Hrow _.
  rewrite list_fmap_id in Hrow. rewrite head_take_one in Hrow. apply head_Some_elem_of in Hrow.
  apply list_elem_of_join in Hrow as (l & Hrow & (k & -> & Hk)%list_elem_of_fmap).
  apply list_elem_of_fmap in Hrow as (r & -> & Hr).
  apply list_elem_of_filter in Hk as [Hc Hk]. apply list_elem_of_filter in Hr as [[Hid _] Hr].
  do 6 eexists. split_and!; done.
Qed.
End reads.

(** * Project Management: approved reviews stay approved and passed

    No command changes an approved review or one of its checks, and a review is
    approved only when every check of it has passed. *)

Import TaskServices TaskReviews.

(** ** An invariant kept by a call from a state *)

Section keeps.
Context {S : Type} `{TaskDriver S} `{TenantDatabase} (I : S → Prop).

Definition keeps_at {A} (s : S) (m : M S A) : Prop := I s → I (m s).2.

Lemma keeps_bind {A B} (m : M S A) (k : A → M S B) s :
  keeps_at s m → (∀ a s', m s = (Returned a, s') → keeps_at s' (k a)) → keeps_at s (m ≫= k).
Proof.
  intros Hm Hk HI. specialize (Hm HI). unfold mbind, M_bind. destruct (m s) as [[a|e] s1] eqn:Hrun; [|done].
  by apply (Hk a).
Qed.
Lemma keeps_assume {A} (m : M S A) s : (I s → keeps_at s m) → keeps_at s m.
Proof. intros Hm HI. by apply Hm. Qed.
Lemma keeps_ret {A} (a : A) s : keeps_at s (mret a).
Proof. by intros HI. Qed.
Lemma keeps_stateless {A} (m : M S A) s : stateless m → keeps_at s m.
Proof. intros [r Hr] HI. by rewrite Hr. Qed.
Lemma keeps_require {A B} (r : Result A) (k : A → M S (Result B)) s :
  (∀ a, r = ok a → keeps_at s (k a)) → keeps_at s (require r k).
Proof. destruct r; simpl; intros Hk; [by apply Hk|apply keeps_ret]. Qed.
Lemma keeps_inTransaction {A} orgId (fn : M S A) s : keeps_at s fn → keeps_at s (inTransaction orgId fn).
Proof.
  intros Hfn HI. specialize (Hfn HI). unfold inTransaction. rewrite withTenant_guard.
  destruct (tenant_guard orgId s).1; [|done]. by destruct (fn s) as [[r|e] s'].
Qed.
Lemma keeps_attempt {A} orgId code message (fn : M S (Result A)) s :
  keeps_at s fn → keeps_at s (attempt orgId code message fn).
Proof.
  intros Hfn HI. unfold attempt, try_catch. pose proof (keeps_inTransaction orgId fn s Hfn HI) as Ht.
  by destruct (inTransaction orgId fn s) as [[r|e] s'].
Qed.
Lemma keeps_sends {A} P (m : M S A) s :
  sends P m → (∀ tenant q s, P tenant q → I s → I (execute_task tenant q s).2) → keeps_at s m.
Proof. intros Hm Hq. refine (Hm (λ s s', I s → I s') _ _ s); [split; [by intros ?|intros ? ? ? ? ?; auto]|auto]. Qed.
End keeps.

Section guards.
Context {S : Type} `{TaskDriver S} `{TenantDatabase} `{NodeDates} `{OpaqueTexts} `{OpaqueNumbers} (I : S → Prop).

Lemma keeps_known_task {A} target (body : M S (Result A)) s :
  keeps_at I s body → keeps_at I s (known_task target body).
Proof.
  intros Hb. apply keeps_bind; [apply keeps_stateless, stateless_assertKnownIds|].
  intros r s1 Hr. destruct (stateless_assertKnownIds (S := S) (tg_context target)) as [r1 Hr1].
  rewrite Hr1 in Hr. injection Hr as _ <-. apply keeps_require. intros [] _.
  apply keeps_bind; [apply keeps_stateless, stateless_assertKnownTaskId|]. intros r' s1 Hr'.
  destruct (stateless_assertKnownTaskId (S := S) (tg_taskId target)) as [r2 Hr2]. rewrite Hr2 in Hr'.
  injection Hr' as _ <-. by apply keeps_require.
Qed.

Lemma keeps_authorized {A} cx action dependencies (body : M S (Result A)) s :
  keeps_at I s body → keeps_at I s (authorized cx action dependencies body).
Proof.
  intros Hb. apply keeps_bind; [apply keeps_stateless, stateless_authorizeTask|]. intros r s1 Hr.
  destruct (stateless_authorizeTask (S := S) cx action
    (default defaultTaskAuthorizationPort (dp_authorizationPort dependencies))) as [r1 Hr1].
  rewrite Hr1 in Hr. injection Hr as _ <-. by apply keeps_require.
Qed.
End guards.

Section governed.
Context `{PostgresUuids} `{TenantDatabase} `{NodeDates} `{OpaqueTexts} `{OpaqueNumbers} `{UrlParser}.

Definition governed (s : task_tables) : Prop := well_formed s ∧ approved_passed s.

(** The statements that may break the rule. *)
Definition decides_review (q : task_statement) : bool :=
  match q with
  | InsertCheck _ _ _ _ _ _ _ _ _ | UpdateCheck _ _ _ _ | ApproveReview _ _ _ _ => true
  | _ => false
  end.

Lemma approved_same s s' :
  tb_reviews s' = tb_reviews s → tb_checks s' = tb_checks s → approved_passed s → approved_passed s'.
Proof. intros Hr Hk. unfold approved_passed, passed. by rewrite Hr, Hk. Qed.

Lemma change_governed me q s s' : change_of me s q s' → decides_review q = false → governed s → governed s'.
Proof.
  intros Hch Hq [Hwf Hap]. split; [by eapply change_well_formed|]. destruct Hch; try done.
  - match goal with Hs : same_rules _ _ _ |- _ => destruct Hs end. by apply (approved_same s).
  - unfold approved_passed. simpl. apply Forall_app. split; [done|]. constructor; [|done]. congruence.
  - unfold approved_passed. simpl. apply update_where_Forall; [|done]. by intros r _ _ _ Ha.
Qed.

Lemma execute_governed tenant q s : decides_review q = false → governed s → governed (execute_tables tenant q s).2.
Proof.
  intros Hq Hg. destruct (uuid_in tenant) as [me|] eqn:Hme; [|by rewrite execute_unknown].
  by eapply change_governed; [apply execute_changes|..].
Qed.

(** A call that sends none of them. *)
Lemma keeps_governed {A} P (m : M task_tables A) s :
  sends P m → (∀ tenant q, P tenant q → decides_review q = false) → keeps_at governed s m.
Proof. intros Hm HP. eapply keeps_sends; [done|]. intros tenant q t Hq. by apply execute_governed, (HP tenant). Qed.

(** *** The three statements *)

Lemma fmap_unique {A B} (g : A → B) l x y : NoDup (g <$> l) → x ∈ l → y ∈ l → g x = g y → x = y.
Proof.
  intros Hn [n Hx]%list_elem_of_lookup [n' Hy]%list_elem_of_lookup Heq.
  assert (n = n') as ->; [|congruence].
  eapply (NoDup_lookup _ _ _ (g x)); [exact Hn|by rewrite list_lookup_fmap, Hx|].
  by rewrite list_lookup_fmap, Hy, Heq.
Qed.

Lemma review_unique s r r' : well_formed s → r ∈ tb_reviews s → r' ∈ tb_reviews s → qr_id r = qr_id r' → r = r'.
Proof.
  intros Hwf. apply fmap_unique, (wf_review_ids _ Hwf).
Qed.

Lemma governed_insert_check me i k s :
  governed s → review_exists i me s → kr_id k = gen_uuid (tb_uuids s) → kr_review k = i → kr_org k = me →
  (∀ r, r ∈ tb_reviews s → qr_id r = i → qr_status r ≠ QrApproved) →
  governed (drawn (on_checks (λ l, l ++ [k]) s)).
Proof.
  intros [Hwf Hap] Hex Hid Hr Ho Hopen. split; [by eapply wf_insert_check|].
  eapply Forall_forall. intros r Hin Ha. simpl in Hin. apply Forall_app. split.
  - by eapply Forall_forall in Hap; [apply Hap|].
  - constructor; [|done]. intros Heq. destruct (Hopen r); congruence.
Qed.

Lemma governed_update_check me i t w state s :
  governed s →
  (∀ k r, k ∈ tb_checks s → is_check me i t w k → r ∈ tb_reviews s → qr_id r = kr_review k → qr_status r ≠ QrApproved) →
  governed (on_checks (update_where (is_check me i t w) (set_check_state state (tb_now s))) s).
Proof.
  intros [Hwf Hap] Hopen. split; [by apply wf_update_check|].
  eapply Forall_forall. intros r Hin Ha. simpl in Hin. apply update_where_Forall.
  - intros k Hk Hc _ Heq. simpl in Heq. by destruct (Hopen k r).
  - by eapply Forall_forall in Hap; [apply Hap|].
Qed.

Lemma governed_approve me i t w user s :
  governed s → (∀ r, r ∈ tb_reviews s → qr_id r = i → passed s r) →
  governed (on_reviews (update_where (approvable me i t w)
              (set_review QrApproved (Some user) (Some (tb_now s)) (tb_now s))) s).
Proof.
  intros [Hwf Hap] Hp. split; [by apply wf_update_reviews|].
  unfold approved_passed. simpl. apply update_where_Forall; [|done].
  intros r Hr (_ & Hi & _) _ _. by apply (Hp r).
Qed.

(** *** The three services that send them *)

(** A statement decides nothing. *)
Definition harmless (tenant : string) (q : task_statement) : Prop := decides_review q = false.
Lemma harmless_read tenant q : is_read q = true → harmless tenant q.
Proof. by destruct q. Qed.
Lemma keeps_harmless {A} (m : M task_tables A) s : sends harmless m → keeps_at governed s m.
Proof. intros Hm. by eapply keeps_governed. Qed.

Lemma task_row_run tx q (s : task_tables) : (task_row tx q s).2 = (execute_tables tx q s).2.
Proof. unfold task_row, mbind, M_bind, execute_task, tables_driver. by destruct (execute_tables tx q s) as [[r|e] s1]. Qed.

Lemma review_id_read s r : well_formed s → r ∈ tb_reviews s → uuid_in (qr_id r) = Some (qr_id r).
Proof.
  intros Hwf Hr. destruct (wf_review_ids _ Hwf) as [_ Hi].
  eapply issued_canonical, (Forall_forall (issued s)); [done|]. by apply list_elem_of_fmap_2.
Qed.

(** A check is added to a review that was not approved. *)
Lemma keeps_insert_check tx org workspace task label kind state actor key s r :
  r ∈ tb_reviews s → qr_status r ≠ QrApproved →
  keeps_at governed s (task_row tx (InsertCheck (qr_id r) org workspace task label kind state actor key)).
Proof.
  intros Hr Hopen Hg. rewrite task_row_run. destruct (uuid_in tx) as [me|] eqn:Hme; [|by rewrite execute_unknown].
  pose proof (execute_changes tx me (InsertCheck (qr_id r) org workspace task label kind state actor key) s Hme) as Hch.
  inversion Hch as [q s' Hs| |? ? ? ? ? ? He| | | |? ? ? ? ? ? ? ? ? i t k Hi Ht Hex Hid Hkr Ho| | | |]; subst; [|done|].
  - destruct Hg as [Hwf Hap]. split; [by eapply change_well_formed|].
    destruct Hs. by apply (approved_same s).
  - rewrite (review_id_read s r) in Hi by (by destruct Hg). injection Hi as Hi.
    apply (governed_insert_check (kr_org k) (kr_review k)); try done. intros r' Hr' Hid'.
    rewrite (review_unique s r' r); [done|by destruct Hg|done..|congruence].
Qed.

(** A body that runs on a task that is there. *)
Lemma keeps_with_task {A} target code message (body : M task_tables (Result A)) s :
  (∀ s1, keeps_at governed s1 body) → keeps_at governed s (with_task target code message body).
Proof.
  intros Hb. apply keeps_attempt, keeps_bind.
  - apply keeps_harmless, sends_ensureTaskExists. intros q. apply harmless_read.
  - intros r s1 _. apply keeps_require. intros a _. apply Hb.
Qed.

Lemma keeps_loaded_review tx task missing s : keeps_at governed s (loaded_review tx task missing).
Proof. apply keeps_harmless, sends_loaded_review. intros q. apply harmless_read. Qed.

(** What follows [ensureQualityReview] may use the review it answers. *)
Lemma keeps_ensured {A} tx target (k : TaskQualityReviewBase → M task_tables (Result A)) s :
  (∀ review r s1, reviews_task tx (tg_taskId target) s1 r → decodes_review review r → keeps_at governed s1 (k review)) →
  keeps_at governed s (review ← ensureQualityReview tx target; require review k).
Proof.
  intros Hk. apply keeps_bind.
  - apply keeps_harmless, sends_ensureQualityReview; [intros q; apply harmless_read|done].
  - intros review s1 Hrun. apply keeps_require. intros base ->. apply ensured_review in Hrun as (r & Hr & Hd).
    by eapply Hk.
Qed.

Lemma keeps_addQualityCheck i dependencies s : keeps_at governed s (addQualityCheck i dependencies).
Proof.
  unfold addQualityCheck. apply keeps_known_task. do 4 (apply keeps_require; intros ? _).
  apply keeps_require. intros key _. apply keeps_authorized, keeps_with_task. intros s1. apply keeps_ensured. intros review r s2 (Hr & _) (Hid & _ & _ & Hst).
  apply keeps_bind; [apply keeps_harmless, sends_recorded_check; intros q; apply harmless_read|].
  intros replay s3 Hrep.
  assert (s3 = s2) as -> by (destruct key; [by apply task_row_state in Hrep|by injection Hrep as _ <-]).
  destruct replay; [apply keeps_loaded_review|]. case_bool_decide as Ha; [apply keeps_ret|]. rewrite Hid.
  apply keeps_bind; [apply (keeps_insert_check _ _ _ _ _ _ _ _ _ _ r); congruence|].
  intros inserted s3 _. apply keeps_loaded_review.
Qed.

Lemma check_unique s k k' : well_formed s → k ∈ tb_checks s → k' ∈ tb_checks s → kr_id k = kr_id k' → k = k'.
Proof. intros Hwf. apply fmap_unique, (wf_check_ids _ Hwf). Qed.

(** A check is changed only under a review that is not approved. *)
Lemma keeps_update_check tx check task workspace state s row s0 :
  task_row tx (SelectCheckReview check task workspace) s0 = (Returned (Some row), s) →
  cell_is "approved" (column "status" row) = false →
  keeps_at governed s (task_row tx (UpdateCheck check task workspace state)).
Proof.
  intros Hrow Hopen Hg. apply check_review_row in Hrow as (-> & me & i & t & w & k & r & Hme & Hi & Ht & Hw & Hk & Hc & Hr & Hid & Hst).
  rewrite task_row_run. pose proof (execute_changes tx me (UpdateCheck check task workspace state) s0 Hme) as Hch.
  inversion Hch as [q s' Hs| |? ? ? ? ? ? He| | | | |? ? ? ? i' t' w' Hi' Ht' Hw'| | |]; subst; [|done|].
  - destruct Hg as [Hwf Hap]. split; [by eapply change_well_formed|]. destruct Hs. by apply (approved_same s0).
  - replace i' with i by congruence. replace t' with t by congruence. replace w' with w by congruence.
    apply governed_update_check; [done|]. intros k' r' Hk' Hc' Hr' Hid'.
    destruct Hg as [Hwf _]. rewrite (check_unique s0 k' k) in Hid'; [|done..|by destruct Hc as (_ & -> & _), Hc' as (_ & -> & _)].
    rewrite (review_unique s0 r' r); [|done..|congruence]. intros Ha. rewrite Hst, Ha in Hopen. done.
Qed.

Lemma keeps_toggleQualityCheck i dependencies s : keeps_at governed s (toggleQualityCheck i dependencies).
Proof.
  unfold toggleQualityCheck. apply keeps_known_task. do 2 (apply keeps_require; intros ? _).
  apply keeps_authorized, keeps_attempt, keeps_bind.
  { by apply keeps_harmless, sends_task_row. }
  intros [row|] s1 Hrow; [|apply keeps_ret]. destruct (cell_is _ _) eqn:Hopen; [apply keeps_ret|].
  apply keeps_bind; [by eapply keeps_update_check|]. intros [updated|] s2 _; [|apply keeps_ret].
  apply keeps_bind; [by apply keeps_harmless, sends_execute|]. intros res s3 _. apply keeps_loaded_review.
Qed.

Lemma same_review tx task s r r' :
  well_formed s → reviews_task tx task s r → reviews_task tx task s r' → r = r'.
Proof.
  intros Hwf (Hr & _ & Ht) (Hr' & _ & Ht'). eapply fmap_unique; [apply (wf_review_tasks _ Hwf)|done..|congruence].
Qed.

(** When every check that was read has passed, every check of the review has. *)
Lemma read_all_passed s r (checks : list TaskQualityCheckDto) :
  well_formed s → r ∈ tb_reviews s → read_checks (qr_org r) (qr_id r) s (kd_state <$> checks) →
  existsb (λ check, negb (bool_decide (kd_state check = QsPass))) checks = false → passed s r.
Proof.
  intros Hwf Hr Hread Hall. apply Forall_forall. intros k Hk Hkr.
  assert (kr_org k = qr_org r) as Hko.
  { pose proof (wf_check_reviews _ Hwf) as Hrev. eapply Forall_forall in Hrev as (r' & Hr' & Hid & Horg)%Exists_exists; [|done].
    rewrite (review_unique s r' r) in Horg; [done|done..|congruence]. }
  specialize (Hread k Hk Hko Hkr). apply list_elem_of_fmap in Hread as (d & -> & Hd).
  destruct (decide (kd_state d = QsPass)) as [|Hn]; [done|].
  assert (existsb (λ check, negb (bool_decide (kd_state check = QsPass))) checks = true) as Ht; [|congruence].
  apply existsb_exists. exists d. split; [by apply list_elem_of_In|]. by rewrite bool_decide_false.
Qed.

Lemma keeps_approve tx task workspace user s r :
  r ∈ tb_reviews s → passed s r → keeps_at governed s (task_row tx (ApproveReview (qr_id r) task workspace user)).
Proof.
  intros Hr Hp Hg. rewrite task_row_run. destruct (uuid_in tx) as [me|] eqn:Hme; [|by rewrite execute_unknown].
  pose proof (execute_changes tx me (ApproveReview (qr_id r) task workspace user) s Hme) as Hch.
  inversion Hch as [q s' Hs| |? ? ? ? ? ? He| | |? ? ? ? i t w Hi Ht Hw| | | | |]; subst; [|done|].
  - destruct Hg as [Hwf Hap]. split; [by eapply change_well_formed|]. destruct Hs. by apply (approved_same s).
  - rewrite (review_id_read s r) in Hi by (by destruct Hg). injection Hi as <-.
    apply governed_approve; [done|]. intros r' Hr' Hid. rewrite (review_unique s r' r); [done|by destruct Hg|done..].
Qed.

Lemma keeps_record_approval cx review task s : keeps_at governed s (record_approval cx review task).
Proof.
  apply keeps_bind; [by apply keeps_harmless, sends_execute|]. intros res s1 _. apply keeps_loaded_review.
Qed.

Lemma keeps_approveQualityReview i dependencies s : keeps_at governed s (approveQualityReview i dependencies).
Proof.
  unfold approveQualityReview. apply keeps_known_task, keeps_authorized, keeps_with_task. intros s1.
  unfold approve_in. apply keeps_ensured. intros review r s2 Hr (Hid & _).
  case_match; [apply keeps_ret|]. apply keeps_assume. intros [Hwf _]. apply keeps_bind.
  { apply keeps_harmless, sends_selectQualityReview. intros q. apply harmless_read. }
  intros [dto|] s3 Hrun; [|apply keeps_ret].
  apply selected_review in Hrun as (-> & r' & Hr' & Hd & Hread); [|done].
  rewrite (same_review _ _ s2 r' r) in Hread by done. destruct Hr as [Hr _].
  destruct (existsb _ _) eqn:Hall; [apply keeps_ret|]. case_bool_decide; [apply keeps_record_approval|].
  rewrite Hid. apply keeps_bind; [apply keeps_approve; [done|by eapply read_all_passed]|].
  intros [row|] s3 _; [apply keeps_record_approval|apply keeps_loaded_review].
Qed.

(** Every command keeps the invariant of the reviews. *)
Lemma command_governed c (dependencies : TaskApplicationDependencies (S := task_tables)) s :
  dp_terminalAttemptAuditPort dependencies = None → keeps_at governed s (run_command c dependencies).
Proof.
  intros Haudit.
  assert (Hsafe : (∀ tenant q, command_sends dependencies c tenant q → decides_review q = false) →
    keeps_at governed s (run_command c dependencies)).
  { intros Hq. eapply keeps_governed; [by apply sends_command|done]. }
  destruct c; try (apply Hsafe; intros tenant q (_ & [Ha|[_ [Hr|Hw]]]); [by destruct q|by destruct q|by destruct q]).
  - apply keeps_bind; [apply keeps_addQualityCheck|]. intros; apply keeps_ret.
  - apply keeps_bind; [apply keeps_toggleQualityCheck|]. intros; apply keeps_ret.
  - apply keeps_bind; [apply keeps_approveQualityReview|]. intros; apply keeps_ret.
Qed.
End governed.
