(* ===== verification/TaskDone.v ===== *)
(** * Project Management: how a task becomes Done

    The histories of the task tables, and the one command by which a task enters
    Done: what its transaction has checked, and the confirmation it consumes. *)
From S2P Require Import Prelude JsString JsValue SharedKernel Effects DevBoardDomain JsText RuntimeDomain.
From S2P Require Import TenantContext RuntimeSql RuntimeTables Authorization TaskDomain TaskSql TaskInputs TaskServices TaskReviews.
From S2P Require Import TaskTables TaskFrame TaskCommands TaskInvariant TaskGoverned.
Import TaskServices TaskReviews.

Definition succeeded {A} (r : Result A) : Prop := ∃ a, r = ok a.

Definition empty_tables (now : Z) : task_tables := mkTables now 0 [] [] [] [] [] [] [] [] [] [] [].

Section histories.
Context `{PostgresUuids} `{TenantDatabase} `{NodeDates} `{OpaqueTexts} `{OpaqueNumbers} `{UrlParser}.

(** One step of a history: a command of any organization, with any authorization
    port, or the passing of time. *)
Inductive task_event (s : task_tables) : task_tables → Prop :=
| ev_command c (dependencies : TaskApplicationDependencies (S := task_tables)) :
    dp_terminalAttemptAuditPort dependencies = None → task_event s (run_command c dependencies s).2
| ev_time now : (tb_now s <= now)%Z → task_event s (with_clock now s).

Definition later : relation task_tables := rtc task_event.

(** The states that can be reached from empty tables. *)
Definition reachable (s : task_tables) : Prop := ∃ now, later (empty_tables now) s.

(** A relation that every statement and the clock keep holds along a history. *)
Lemma later_along (R : relation task_tables) :
  PreOrder R → (∀ tenant q s, R s (execute_tables tenant q s).2) → (∀ now s, R s (with_clock now s)) →
  ∀ s s', later s s' → R s s'.
Proof.
  intros HR Hq Hclock s s' Hl. induction Hl as [s|s s1 s' Hev Hl IH]; [reflexivity|].
  transitivity s1; [|done]. destruct Hev as [c dependencies Haudit|now]; [|apply Hclock].
  apply (sends_command dependencies Haudit c R HR). intros tenant q t _. apply Hq.
Qed.

Lemma well_formed_clock now s : well_formed s → well_formed (with_clock now s).
Proof. by intros []. Qed.

Lemma event_governed s s' : task_event s s' → governed s → governed s'.
Proof.
  intros [c dependencies Haudit|now Hnow] Hg; [by apply command_governed|].
  destruct Hg as [Hwf Hap]. split; [by apply well_formed_clock|done].
Qed.

Lemma governed_empty now : governed (empty_tables now).
Proof.
  split; [|by apply Forall_nil].
  constructor; try (by split; [apply NoDup_nil|apply Forall_nil]); try (by apply Forall_nil); [done|apply NoDup_nil_2|].
  by intros r r' Hr%elem_of_nil.
Qed.

Lemma later_governed s s' : later s s' → governed s → governed s'.
Proof. induction 1; eauto using event_governed. Qed.

Lemma reachable_governed s : reachable s → governed s.
Proof. intros (now & Hl). by apply (later_governed _ _ Hl), governed_empty. Qed.

(** ** Tasks that are Done *)

Definition done_in (s : task_tables) (id : string) : Prop :=
  Exists (λ r, tr_id r = id ∧ tr_status r = TsDone) (tb_tasks s).

(** Every task that is Done already was. *)
Definition no_new_done (s s' : task_tables) : Prop := ∀ id, done_in s' id → done_in s id.

#[local] Instance no_new_done_preorder : PreOrder no_new_done.
Proof. split; [by intros s id|intros s s1 s2 H12 H23 id Hd; auto]. Qed.

Lemma no_new_done_same s s' : tb_tasks s' = tb_tasks s → no_new_done s s'.
Proof. intros Heq id. unfold done_in. by rewrite Heq. Qed.

(** The statements that may finish a task. *)
Definition finishes (q : task_statement) : Prop :=
  match q with
  | InsertTask _ _ _ status _ | MoveTask _ _ status _ => status = TsDone
  | FinishTask _ _ _ => True
  | _ => False
  end.

Lemma change_no_new_done me q s s' : change_of me s q s' → ¬ finishes q → no_new_done s s'.
Proof.
  intros Hch Hq. destruct Hch as [q s' Hs|? ? ? ? status ? r ? ? ? ? ? ? Hst| |  | | | | | | |];
    try (by apply no_new_done_same).
  - destruct Hs. by apply no_new_done_same.
  - intros id Hd. unfold done_in in Hd. simpl in Hd. apply Exists_app in Hd as [Hd|Hd]; [done|].
    apply Exists_cons in Hd as [[_ Hd]|Hd%Exists_nil]; [|done]. simpl in Hq. congruence.
  - intros id Hd. apply Exists_exists in Hd as (r & Hr & Hid & Hdone). simpl in Hr.
    apply elem_of_update_where in Hr as (r' & Hr' & [[_ ->]|[_ ->]]); apply Exists_exists; exists r'; split; [done| |done|done].
    match goal with He : edits q f |- _ => destruct (He r') as (Hi & _ & _ & _ & _ & Hs) end.
    split; [congruence|]. rewrite Hs in Hdone. destruct q; simpl in *; congruence || tauto.
Qed.

Lemma execute_no_new_done tenant q s : ¬ finishes q → no_new_done s (execute_tables tenant q s).2.
Proof.
  intros Hq. destruct (uuid_in tenant) as [me|] eqn:Hme; [|by rewrite execute_unknown].
  by eapply change_no_new_done; [apply execute_changes|].
Qed.

(** Only [markTaskDone] may finish a task. *)
Lemma command_no_new_done c (dependencies : TaskApplicationDependencies (S := task_tables)) s :
  dp_terminalAttemptAuditPort dependencies = None → (∀ i, c ≠ CmdMarkDone i) →
  no_new_done s (run_command c dependencies s).2.
Proof.
  intros Haudit Hc. apply (sends_command dependencies Haudit c no_new_done); [apply _|].
  intros tenant q t (_ & [Ha|[_ [Hr|Hw]]]); apply execute_no_new_done; intros Hf.
  - by destruct c, q.
  - by destruct q.
  - destruct c, q; simpl in *; try done; naive_solver.
Qed.

(** ** The transaction of [markTaskDone] *)

(** What a confirmation must be for the task to be finished by it. *)
Definition confirms (i : MarkTaskDoneInput) (s : task_tables) (d : confirmation_rec) : Prop :=
  d ∈ tb_confirmations s ∧ uuid_in (confirmNonce i) = Some (dr_id d) ∧ uuid_in (md_taskId i) = Some (dr_task d)
  ∧ uuid_in (tc_orgId (md_context i)) = Some (dr_org d)
  ∧ uuid_in (tc_workspaceId (md_context i)) = Some (dr_workspace d)
  ∧ dr_user d = tk_userId (tc_actor (md_context i)) ∧ dr_consumed d = None ∧ (tb_now s < dr_expires d)%Z.

(** The consumption of the confirmations an input is confirmed by. *)
Definition consumed_by (i : MarkTaskDoneInput) (review : string) (s s' : task_tables) : Prop :=
  ∃ me n t o w,
    uuid_in (tc_orgId (md_context i)) = Some me ∧ uuid_in (confirmNonce i) = Some n ∧ uuid_in (md_taskId i) = Some t ∧
    uuid_in (tc_orgId (md_context i)) = Some o ∧ uuid_in (tc_workspaceId (md_context i)) = Some w ∧
    s' = on_confirmations (update_where (consumable me n t o w (tk_userId (tc_actor (md_context i))) (tb_now s))
           (consume (tk_userId (tc_actor (md_context i))) review (tb_now s))) s.

Lemma consume_row i review q s row s' :
  uuid_in review = Some q →
  task_row (tc_orgId (md_context i))
    (ConsumeConfirmation (confirmNonce i) (md_taskId i) (tc_orgId (md_context i)) (tc_workspaceId (md_context i))
       (tk_userId (tc_actor (md_context i))) review) s = (Returned row, s') →
  consumed_by i q s s' ∧ (row ≠ None → ∃ d, confirms i s d).
Proof.
  intros Hq Hrun.
  unfold task_row, execute_task, tables_driver, execute_tables, uuid_arg, mbind, M_bind, get_state, mret, M_ret in Hrun.
  rewrite Hq in Hrun.
  repeat match type of Hrun with
    | context [match uuid_in ?t with _ => _ end] => destruct (uuid_in t) eqn:?; [|done]
    end.
  unfold consume_confirmation, check_sql, mbind, M_bind, get_state, change in Hrun.
  destruct (decide _); [|done]. injection Hrun as <- <-. split; [by do 5 eexists; split_and!|].
  simpl. rewrite head_rows. destruct (head _) as [d|] eqn:Hd; [|done]. intros _. exists d.
  apply head_filter in Hd as [Hin (? & ? & ? & ? & ? & ? & ? & ?)].
  split_and!; congruence || done.
Qed.

Lemma finish_row tx task workspace position s row s' :
  task_row tx (FinishTask task workspace position) s = (Returned row, s') →
  ∃ me t w, uuid_in tx = Some me ∧ uuid_in task = Some t ∧ uuid_in workspace = Some w ∧
    s' = on_tasks (update_where (is_task me t w) (set_place TsDone position (tb_now s))) s.
Proof.
  intros Hrun.
  unfold task_row, execute_task, tables_driver, execute_tables, uuid_arg, mbind, M_bind, get_state, mret, M_ret in Hrun.
  repeat match type of Hrun with
    | context [match uuid_in ?t with _ => _ end] => destruct (uuid_in t) eqn:?; [|done]
    end.
  unfold update_task, check_sql, mbind, M_bind, get_state, change in Hrun.
  destruct (decide _); [|done]. injection Hrun as <- <-. by do 3 eexists; split_and!.
Qed.

(** The review that admits a task. *)
Definition admits (i : MarkTaskDoneInput) (s : task_tables) (r : review_rec) : Prop :=
  r ∈ tb_reviews s ∧ uuid_in (tc_orgId (md_context i)) = Some (qr_org r) ∧ uuid_in (md_taskId i) = Some (qr_task r)
  ∧ qr_workspace r = tc_workspaceId (md_context i) ∧ qr_status r = QrApproved.

(** A transaction that answers has left every task as it was, or has found a review
    and a confirmation that admit the task, consumed the confirmation and finished
    the task. *)
Lemma done_transaction i s outcome s' :
  well_formed s → markTaskDoneInTransaction (tc_orgId (md_context i)) i s = (Returned outcome, s') →
  (tb_tasks s' = tb_tasks s ∧ ¬ succeeded (do_result outcome))
  ∨ ∃ r s1 me t w,
      admits i s r ∧ (∃ d, confirms i s d) ∧ consumed_by i (qr_id r) s s1 ∧
      uuid_in (tc_orgId (md_context i)) = Some me ∧ uuid_in (md_taskId i) = Some t ∧
      uuid_in (tc_workspaceId (md_context i)) = Some w ∧
      s' = on_tasks (update_where (is_task me t w) (set_place TsDone (done_position i) (tb_now s))) s1 ∧
      ∃ task, outcome = mkDoneOutcome (ok task) None.
Proof.
  intros Hwf. unfold markTaskDoneInTransaction. intros (dto & s1 & Hrev & Hrun)%bind_returned.
  assert (Hrefused : ∀ e reason, outcome = refused e reason → tb_tasks s' = tb_tasks s →
    (tb_tasks s' = tb_tasks s ∧ ¬ succeeded (do_result outcome))).
  { intros e reason -> Ht. split; [done|]. by intros (a & Ha). }
  assert (s1 = s) as -> by (eapply reading_state; [by apply sends_selectQualityReview|done]).
  destruct dto as [dto|]; [|left; injection Hrun as <- <-; by eapply Hrefused].
  apply selected_review in Hrev as (_ & r & Hr & Hd & _); [|done]. destruct Hd as (Hid & _ & Hws & Hst).
  rewrite Hws, Hst, Hid in Hrun.
  destruct (String.eqb_spec (qr_workspace r) (tc_workspaceId (md_context i))) as [Hw|];
    [|left; injection Hrun as <- <-; by eapply Hrefused].
  case_bool_decide as Ha; [|left; injection Hrun as <- <-; by eapply Hrefused]. simpl in Hrun.
  apply bind_returned in Hrun as (row & s1 & Hrow & Hrun).
  apply (consume_row i (qr_id r) (qr_id r)) in Hrow as [Hc Hconf]; [|destruct Hr; by apply (review_id_read s)].
  assert (tb_tasks s1 = tb_tasks s) as Hts by (destruct Hc as (? & ? & ? & ? & ? & ? & ? & ? & ? & ? & ->); done).
  destruct row as [row|].
  - right. apply bind_returned in Hrun as (row' & s2 & Hrow' & Hrun).
    apply finish_row in Hrow' as (me & t & w & Hme & Ht & Hw' & ->).
    destruct row' as [row'|]; [|done]. apply stateless_bind_returned in Hrun as (task & _ & Hrun); [|auto with stateless].
    injection Hrun as <- <-. exists r, s1, me, t, w. destruct Hr as (Hr & Ho & Hq).
    assert (tb_now s1 = tb_now s) as -> by (destruct Hc as (? & ? & ? & ? & ? & ? & ? & ? & ? & ? & ->); done).
    split_and!; try done; [by apply Hconf|by eexists].
  - left. assert (s' = s1) as ->; [|split; [done|]].
    + eapply reading_state; [|exact Hrun]. apply sends_try_catch; [|intros e; apply sends_ret].
      apply sends_bind; [by apply sends_classify|intros reason; apply sends_ret].
    + unfold try_catch in Hrun. case_match eqn:Hcl. destruct o as [o|e]; injection Hrun as <- _.
      * apply bind_returned in Hcl as (reason & s3 & _ & Hret). injection Hret as <- _. by intros (? & ?).
      * by intros (? & ?).
Qed.

(** ** The command *)

(** An audit leaves the tasks, the reviews, their checks and the confirmations as
    they are. *)
Definition auditing (tenant : string) (q : task_statement) : Prop := ∃ a, q = InsertTerminalAttempt a.

Definition same_board (s s' : task_tables) : Prop :=
  tb_now s' = tb_now s ∧ tb_tasks s' = tb_tasks s ∧ tb_reviews s' = tb_reviews s ∧ tb_checks s' = tb_checks s
  ∧ tb_confirmations s' = tb_confirmations s.

#[local] Instance same_board_preorder : PreOrder same_board.
Proof. split; [done|]. intros s s1 s2 (? & ? & ? & ? & ?) (? & ? & ? & ? & ?). split_and!; congruence. Qed.

Lemma audit_same_board {A} (m : M task_tables A) s r s' : sends auditing m → m s = (r, s') → same_board s s'.
Proof.
  intros Hm. apply (sends_run auditing m same_board s r s' Hm _). intros tenant q t (a & ->).
  unfold execute_task, tables_driver. destruct (uuid_in tenant) as [me|] eqn:Hme; [|by rewrite execute_unknown].
  pose proof (execute_changes tenant me (InsertTerminalAttempt a) t Hme) as Hch.
  inversion Hch as [q s2 Hs| |? ? ? ? ? ? He| | | | | | | |]; subst; [|done]. by destruct Hs.
Qed.

Section audits.
Context {S : Type} `{TaskDriver S} (dependencies : TaskApplicationDependencies (S := S)).
Context (Haudit : dp_terminalAttemptAuditPort dependencies = None).

Lemma sends_prepare_audits i : sends auditing (prepareMarkTaskDone i dependencies).
Proof.
  apply sends_known_task, sends_require. intros z _. apply sends_authorized. intros _.
  case_match; [apply sends_ret|]. apply sends_bind; [|intros u; apply sends_ret].
  apply sends_appendTerminalAttempt; [done|by eexists].
Qed.

Lemma sends_rejection_audits i outcome : sends auditing (appendMarkTaskDoneRejectionAttempt i outcome dependencies).
Proof.
  unfold appendMarkTaskDoneRejectionAttempt. case_match; [|apply sends_ret].
  apply sends_appendTerminalAttempt; [done|by eexists].
Qed.
End audits.

Section command.
Context (dependencies : TaskApplicationDependencies (S := task_tables)).
Context (Haudit : dp_terminalAttemptAuditPort dependencies = None).

(** What a [markTaskDone] that succeeds did. *)
Record finished (i : MarkTaskDoneInput) (s s' : task_tables) : Prop := {
  fin_permitted : ∀ t : task_tables, permitted (md_context i) ActUpdate dependencies t;
  fin_attested : hasValidHumanCommandAttestation i = true;
  fin_changed : ∃ r s1 me t w,
    admits i s r ∧ (∃ d, confirms i s d) ∧ consumed_by i (qr_id r) s s1 ∧
    uuid_in (tc_orgId (md_context i)) = Some me ∧ uuid_in (md_taskId i) = Some t ∧
    uuid_in (tc_workspaceId (md_context i)) = Some w ∧
    s' = on_tasks (update_where (is_task me t w) (set_place TsDone (done_position i) (tb_now s))) s1;
}.

Definition answers_task (r : outcome (Result TaskDto)) : Prop := ∃ t, r = Returned (ok t).

Lemma inTransaction_returned {A} orgId (fn : M task_tables A) s a s' :
  inTransaction orgId fn s = (Returned a, s') → fn s = (Returned a, s').
Proof.
  unfold inTransaction. destruct (withTenant orgId fn s) as [[b|e] s1] eqn:Hw; [|done].
  intros [= -> ->]. by apply withTenant_returned in Hw as [Hw _].
Qed.
Lemma inTransaction_thrown {A} orgId (fn : M task_tables A) s e s' :
  inTransaction orgId fn s = (Thrown e, s') → s' = s.
Proof. unfold inTransaction. by destruct (withTenant orgId fn s) as [[b|x] s1]; intros [=]. Qed.

Lemma markTaskDone_run i s r s' :
  well_formed s → markTaskDone i dependencies s = (r, s') →
  (tb_tasks s' = tb_tasks s ∧ ¬ answers_task r) ∨ (finished i s s' ∧ answers_task r).
Proof.
  intros Hwf. unfold markTaskDone, mbind at 1, M_bind at 1.
  destruct (prepareMarkTaskDone i dependencies s) as [[p|e] s0] eqn:Hp.
  2:{ intros [= <- <-]. left. split; [|by intros (? & ?)].
      by destruct (audit_same_board _ _ _ _ (sends_prepare_audits dependencies Haudit i) Hp) as (_ & ? & _). }
  destruct p as [u|e].
  2:{ intros [= <- <-]. left. split; [|by intros (? & ?)].
      by destruct (audit_same_board _ _ _ _ (sends_prepare_audits dependencies Haudit i) Hp) as (_ & ? & _). }
  apply prepared_ok in Hp as (Hperm & Hatt & _ & ->). simpl. unfold try_catch.
  case_match eqn:Hbody. match goal with x : outcome (Result TaskDto) |- _ => destruct x as [res|e] end.
  - intros [= <- <-]. apply bind_returned in Hbody as (outcome & s1 & Ht & Hbody).
    apply bind_returned in Hbody as (u' & s2 & Happend & Hret). injection Hret as <- <-.
    apply inTransaction_returned in Ht.
    apply done_transaction in Ht as [[Hts Hno]|(rv & sc & me & t & w & Hadm & Hconf & Hcons & Hme & Ht & Hw & -> & task & ->)];
      [left|right|done].
    + destruct (audit_same_board _ _ _ _ (sends_rejection_audits dependencies Haudit i outcome) Happend) as (_ & Ht & _).
      split; [congruence|]. intros (task & Hans). injection Hans as Hans. by apply Hno; exists task.
    + injection Happend as _ <-. split; [|by exists task]. constructor; [done..|]. by exists rv, sc, me, t, w.
  - intros [= <- <-]. left. split; [|by intros (task & Hans)].
    apply bind_thrown in Hbody as [Ht|(outcome & s1 & Ht & Hbody)].
    + apply inTransaction_thrown in Ht as ->. done.
    + apply inTransaction_returned in Ht.
      apply done_transaction in Ht as [[Hts _]|(rv & sc & me & tk & w & _ & _ & _ & _ & _ & _ & _ & task & ->)]; [|done..].
      apply bind_thrown in Hbody as [Happend|(u' & s2 & _ & Hret)]; [|done].
      destruct (audit_same_board _ _ _ _ (sends_rejection_audits dependencies Haudit i outcome) Happend) as (_ & Ht & _). congruence.
Qed.
End command.
End histories.
