(* ===== verification/TaskHistory.v ===== *)
(** * Project Management: what a history keeps

    Card numbers and tasks, spent confirmations, approved reviews, idempotency keys and
    other tenants' rows, along every history of the task tables; and a concrete board
    ([TaskExample]), on which the theorems are tried. *)
From S2P Require Import Prelude JsString JsValue SharedKernel Effects DevBoardDomain TenantContext.
From S2P Require Import JsText RuntimeDomain Authorization RuntimeSql RuntimeTables TaskDomain.
From S2P Require Import TaskSql TaskInputs TaskServices TaskReviews TaskTables TaskFrame.
From S2P Require Import TaskCommands TaskInvariant TaskGoverned TaskDone.

Import TaskServices TaskReviews.

Section history.
Context `{PostgresUuids} `{TenantDatabase} `{NodeDates} `{OpaqueTexts} `{OpaqueNumbers} `{UrlParser}.

(** A relation that every change and the clock keep. *)
Lemma along_changes (R : relation task_tables) :
  PreOrder R → (∀ me q s s', change_of me s q s' → R s s') → (∀ now s, R s (with_clock now s)) →
  ∀ s s', later s s' → R s s'.
Proof.
  intros HR Hch Hclock. apply later_along; [done| |done]. intros tenant q s.
  destruct (uuid_in tenant) as [me|] eqn:Hme; [|by rewrite execute_unknown].
  by eapply Hch, execute_changes.
Qed.

(** ** Cards *)

(** The tasks of a workspace in the order they were created, with their numbers. *)
Definition numbered (workspace : string) (s : task_tables) : list (string * Z) :=
  (λ r, (tr_id r, tr_card r)) <$> filter (λ r, tr_workspace r = workspace) (tb_tasks s).

Lemma change_numbered w me q s s' : change_of me s q s' → numbered w s `prefix_of` numbered w s'.
Proof.
  intros Hch. destruct Hch; try done; unfold numbered; simpl.
  - match goal with Hs : same_rules _ _ _ |- _ => destruct Hs as [_ _ -> _ _ _ _ _ _ _ _ _ _] end. done.
  - rewrite filter_app, fmap_app. by apply prefix_app_r.
  - rewrite filter_update_fmap; [done|]. intros r _.
    match goal with He : edits _ _ |- _ => destruct (He r) as (-> & _ & -> & -> & _) end. done.
Qed.

Lemma later_numbered w s s' : later s s' → numbered w s `prefix_of` numbered w s'.
Proof.
  apply (along_changes (λ s s', numbered w s `prefix_of` numbered w s')); [|by intros; eapply change_numbered|done].
  split; [by intros ?|intros ? ? ?; apply transitivity].
Qed.

(** ** Keys *)

(** The task an idempotency key of an organization names. *)
Definition named (org key id : string) (s : task_tables) : Prop :=
  Exists (λ r, tr_id r = id ∧ tr_org r = org ∧ tr_key r = Some key) (tb_tasks s).

Lemma change_named org key id me q s s' : change_of me s q s' → named org key id s → named org key id s'.
Proof.
  intros Hch Hn. destruct Hch; try done; unfold named in *; simpl.
  - match goal with Hs : same_rules _ _ _ |- _ => destruct Hs as [_ _ -> _ _ _ _ _ _ _ _ _ _] end. done.
  - apply Exists_app. by left.
  - apply Exists_exists in Hn as (r & Hr & Hid & Ho & Hk). apply Exists_exists.
    exists (if decide (is_task me t w r) then f r else r). split; [apply list_elem_of_fmap; by exists r|].
    match goal with He : edits _ _ |- _ => destruct (He r) as (? & ? & _ & _ & ? & _) end.
    case_decide; split_and!; congruence.
Qed.

Lemma later_named org key id s s' : later s s' → named org key id s → named org key id s'.
Proof.
  apply (along_changes (λ s s', named org key id s → named org key id s'));
    [split; [by intros ?|intros ? ? ?; naive_solver]|by intros; eapply change_named|done].
Qed.

(** ** Confirmations *)

(** A confirmation that was generated and can no longer be consumed. *)
Definition spent (id : string) (s : task_tables) : Prop :=
  issued s id ∧ Forall (λ d, dr_id d = id → dr_consumed d ≠ None) (tb_confirmations s).

Lemma spent_same id s s' :
  tb_uuids s <= tb_uuids s' → tb_confirmations s' = tb_confirmations s → spent id s → spent id s'.
Proof. intros Hu Hd [Hi Hs]. split; [by eapply issued_mono|by rewrite Hd]. Qed.

Lemma change_spent id me q s s' : change_of me s q s' → spent id s → spent id s'.
Proof.
  intros Hch Hsp. destruct Hch; try (by (eapply (spent_same _ s); simpl; [lia|..])).
  - match goal with Hs : same_rules _ _ _ |- _ => destruct Hs end. by apply (spent_same _ s).
  - destruct Hsp as [Hi Hs]. split; [eapply (issued_mono s); [simpl; lia|done]|]. simpl. apply Forall_app. split; [done|].
    constructor; [|done]. intros Heq. exfalso. apply (issued_fresh s). congruence.
  - destruct Hsp as [Hi Hs]. split; [done|]. simpl. apply Forall_forall. intros d [_ Hd]%list_elem_of_filter.
    by eapply Forall_forall in Hs.
  - destruct Hsp as [Hi Hs]. split; [done|]. simpl. apply update_where_Forall; [by intros d _ _ _ _|done].
Qed.

Lemma later_spent id s s' : later s s' → spent id s → spent id s'.
Proof.
  apply (along_changes (λ s s', spent id s → spent id s'));
    [split; [by intros ?|intros ? ? ?; naive_solver]|by intros; eapply change_spent|done].
Qed.

(** ** Approved reviews *)

Definition approved_kept (s s' : task_tables) : Prop :=
  ∀ r, r ∈ tb_reviews s → qr_status r = QrApproved → r ∈ tb_reviews s'.

Lemma kept_by_update (P : review_rec → Prop) `{∀ r, Decision (P r)} f r l :
  r ∈ l → ¬ P r → r ∈ update_where P f l.
Proof. intros Hr HP. apply list_elem_of_fmap. exists r. by rewrite decide_False. Qed.

Lemma change_approved_kept me q s s' : change_of me s q s' → approved_kept s s'.
Proof.
  intros Hch r Hr Ha. destruct Hch; try done; simpl.
  - match goal with Hs : same_rules _ _ _ |- _ => destruct Hs as [_ _ _ -> _ _ _ _ _ _ _ _ _] end. done.
  - apply elem_of_app. by left.
  - apply kept_by_update; [done|]. naive_solver.
  - apply kept_by_update; [done|]. unfold approvable. naive_solver.
Qed.

Lemma later_approved_kept s s' : later s s' → approved_kept s s'.
Proof.
  apply along_changes; [|by intros; eapply change_approved_kept|by intros now s1 r].
  split; [by intros s1 r|]. intros s1 s2 s3 H12 H23 r Hr Ha. by apply H23; [apply H12|].
Qed.
End history.

(** * Project Management: creating a task under an idempotency key

    Whatever [createTask] answers under a key is the one task the key names in the
    organization, and a key that names a task creates no other. *)

Import TaskServices TaskReviews.

Section create.
Context `{PostgresUuids} `{TenantDatabase} `{NodeDates} `{OpaqueTexts} `{OpaqueNumbers} `{UrlParser}.

Lemma decode_task name r (s : task_tables) dto s' :
  rowToTaskDto (task_columns name r) s = (Returned dto, s') →
  s' = s ∧ td_id dto = tr_id r ∧ td_workspaceId dto = tr_workspace r ∧ td_status dto = tr_status r
  ∧ td_title dto = tr_title r.
Proof.
  unfold rowToTaskDto. intros (st & Hst & Hr)%stateless_bind_returned; [|auto with stateless].
  revert Hr. intros (a & (b & (c & (d & Hr)%stateless_returned)%stateless_returned)%stateless_returned)%stateless_returned;
    auto with stateless.
  injection Hr as <- <-. split; [done|]. split_and!; try done. simpl in *.
  destruct (tr_status r); injection Hst as <-; done.
Qed.

(** A failed attempt leaves the tables as they were, so the retry answers what the
    attempt would. *)
Lemma create_attempts_ok n (once : M task_tables (Result TaskDto + exn)) s task s' :
  (∀ s c s1, once s = (Returned (inr c), s1) → s1 = s) →
  create_attempts n once s = (Returned (ok task), s') → once s = (Returned (inl (ok task)), s').
Proof.
  intros Hfail. induction n as [|n IH]; [done|]. simpl. intros (r & s1 & Hr & Hrun)%bind_returned.
  destruct r as [answered|cause]; [by injection Hrun as -> <-|].
  destruct (_ && _); [|done]. assert (s1 = s) as -> by (by eapply Hfail). by apply IH.
Qed.

Lemma createTaskOnce_failed i status fields key s c s1 :
  createTaskOnce i status fields key s = (Returned (inr c), s1) → s1 = s.
Proof.
  unfold createTaskOnce, try_catch, mbind, M_bind.
  destruct (inTransaction _ _ s) as [[r|e] s2] eqn:Hb; [done|].
  intros [= _ <-]. by apply inTransaction_thrown in Hb.
Qed.

Lemma createTaskOnce_ok i status fields key s task s' :
  createTaskOnce i status fields key s = (Returned (inl (ok task)), s') →
  create_task_in i status fields key s = (Returned (ok task), s').
Proof.
  unfold createTaskOnce, try_catch, mbind, M_bind.
  destruct (inTransaction _ _ s) as [[r|e] s2] eqn:Hb; [|done].
  intros [= -> ->]. by apply inTransaction_returned in Hb.
Qed.

(** ** The task a key names *)

Lemma head_order_by {A} (key : A → list Z) (id : A → string) l :
  match head (order_by key id l) with Some x => x ∈ l | None => l = [] end.
Proof.
  pose proof (merge_sort_Permutation (ordered key id) l) as Hp. unfold order_by.
  destruct (merge_sort (ordered key id) l) as [|x l'] eqn:Hm; simpl.
  - by apply Permutation_nil_l in Hp.
  - rewrite <- Hp. left.
Qed.

Lemma selected_by_key tx org key s found s' :
  selectTaskByIdempotencyKey tx org key s = (Returned found, s') →
  s' = s ∧ ∃ me o, uuid_in tx = Some me ∧ uuid_in org = Some o ∧
    match found with
    | Some dto => ∃ r, r ∈ tb_tasks s ∧ tr_org r = me ∧ tr_key r = Some key ∧ td_id dto = tr_id r
    | None => ∀ r, r ∈ tb_tasks s → tr_org r = me → me = o → tr_key r ≠ Some key
    end.
Proof.
  intros Hrun. split; [eapply reading_state; [by apply sends_selectTaskByIdempotencyKey|done]|].
  apply bind_returned in Hrun as (row & s1 & Hrow & Hrun).
  unfold task_row, execute_task, tables_driver, execute_tables, uuid_arg, mbind, M_bind, get_state, mret, M_ret in Hrow.
  destruct (uuid_in tx) as [me|] eqn:Hme; [|done]. destruct (uuid_in org) as [o|] eqn:Ho; [|done].
  unfold select_tasks, mbind, M_bind, get_state, rows, mret, M_ret in Hrow. injection Hrow as <- <-.
  exists me, o. split_and!; [done..|]. simpl in Hrun. rewrite head_rows in Hrun.
  pose proof (head_order_by (λ r, [status_rank (tr_status r); tr_position r; tr_created r]) tr_id
    (filter (λ r, tr_org r = me ∧ tr_org r = o ∧ tr_key r = Some key) (tb_tasks s))) as Hh.
  destruct (head _) as [r|].
  - apply list_elem_of_filter in Hh as [(Horg & _ & Hk) Hr]. simpl in Hrun.
    apply bind_returned in Hrun as (dto & s2 & Hd & Hret). injection Hret as <- _.
    apply decode_task in Hd as (_ & Hd & _). by exists r.
  - injection Hrun as <- _. intros r Hr Horg -> Hk.
    by apply filter_nil_not_elem_of with (x := r) in Hh.
Qed.

Lemma timestamp_arg_returned {A} text (k : option Z → M task_tables A) s a s' :
  timestamp_arg text k s = (Returned a, s') → ∃ due, k due s = (Returned a, s').
Proof. unfold timestamp_arg. destruct text; [case_match|]; [by eexists|done|by eexists]. Qed.

Lemma check_sql_returned {A} code P `{Decision P} (m : M task_tables A) s a s' :
  check_sql code P m s = (Returned a, s') → P ∧ m s = (Returned a, s').
Proof. unfold check_sql. by case_decide. Qed.

(** The row an insertion answers is the one its key names afterwards. *)
Lemma inserted_task me org workspace fields status key s res s' :
  insert_task me org workspace fields status (Some key) s = (Returned res, s') →
  org = me ∧ ∃ r, rowsFromExecuteResult res = [task_columns None r] ∧ named me key (tr_id r) s'.
Proof.
  unfold insert_task. intros (due & Hrun)%timestamp_arg_returned. unfold mbind, M_bind, get_state in Hrun.
  apply check_sql_returned in Hrun as [_ (-> & Hrun)%check_sql_returned]. split; [done|].
  destruct (keyed _ _ _ _ _) as [r|] eqn:Hk.
  - injection Hrun as <- <-. exists r. split; [done|]. unfold keyed in Hk.
    apply head_filter in Hk as [Hr [Ho Hk]]. apply Exists_exists. by exists r.
  - destruct (decide (Exists _ _)); [done|].
    apply check_sql_returned in Hrun as [_ [_ [_ Hrun]%check_sql_returned]%check_sql_returned].
    injection Hrun as <- <-. eexists. split; [done|]. unfold named. simpl. apply Exists_app. right.
    by apply Exists_cons_hd.
Qed.

(** What [createTask] answers under a key is the task the key names afterwards;
    when the key names a task already, the tables are left as they are. *)
Lemma create_task_in_keyed i status fields key s task s' :
  create_task_in i status fields (Some key) s = (Returned (ok task), s') →
  ∃ me, uuid_in (tc_orgId (nt_context i)) = Some me ∧ named me key (td_id task) s' ∧
    ∀ id, named me key id s → s' = s.
Proof.
  unfold create_task_in. intros (found & s1 & Hfound & Hrun)%bind_returned.
  apply selected_by_key in Hfound as (-> & me & o & Hme & Ho & Hfound). exists me. split; [done|].
  destruct found as [dto|].
  - injection Hrun as -> <-. destruct Hfound as (r & Hr & Horg & Hk & Hid). split; [|done].
    apply Exists_exists. by exists r.
  - apply bind_returned in Hrun as (lock & s1 & Hlock & Hrun). apply execute_read_state in Hlock as ->; [|done].
    apply bind_returned in Hrun as (res & s1 & Hres & Hrun).
    unfold try_catch in Hres. destruct (execute_task _ _ s) as [[res'|e] s2] eqn:Hex; [|done].
    injection Hres as -> ->.
    unfold execute_task, tables_driver, execute_tables, uuid_arg, mbind, M_bind, get_state in Hex.
    rewrite Hme in Hex. destruct (uuid_in (tc_workspaceId _)) as [w|]; [|done].
    apply inserted_task in Hex as (_ & r & Hrow & Hn). rewrite Hrow in Hrun. simpl in Hrun.
    apply bind_returned in Hrun as (dto & s2 & Hd & Hret). apply decode_task in Hd as (-> & Hid & _).
    injection Hret as -> <-. rewrite Hid. split; [done|].
    intros id (r' & Hr' & _ & Horg & Hk)%Exists_exists. exfalso. apply (Hfound r'); congruence.
Qed.

Lemma createTask_keyed i (dependencies : TaskApplicationDependencies (S := task_tables)) key s task s' :
  normalizeIdempotencyKey (nt_idempotencyKey i) = ok (Some key) →
  createTask i dependencies s = (Returned (ok task), s') →
  ∃ me, uuid_in (tc_orgId (nt_context i)) = Some me ∧ named me key (td_id task) s' ∧
    ∀ id, named me key id s → s' = s.
Proof.
  intros Hkey. unfold createTask. intros Hrun%known_ok. apply require_ok in Hrun as (status & _ & Hrun).
  destruct (isTerminalTaskStatus status).
  { by apply bind_returned in Hrun as (u & s1 & _ & Hrun). }
  apply require_ok in Hrun as (fields & _ & Hrun). rewrite Hkey in Hrun. simpl in Hrun.
  apply authorized_ok in Hrun as [_ Hrun].
  apply (create_attempts_ok 2) in Hrun; [|intros t c t1; apply createTaskOnce_failed].
  apply createTaskOnce_ok in Hrun. by eapply create_task_in_keyed.
Qed.
End create.

(** * Project Management: tenants

    A statement run for an organization leaves the rows of the others as they are,
    and so does every command. *)

Import TaskServices.

Section isolation.
Context `{PostgresHost}.

(** The rows of the organizations other than [me], in every table. *)
Record others_kept (me : string) (s s' : task_tables) : Prop := {
  kept_tasks : others tr_org me (tb_tasks s') = others tr_org me (tb_tasks s);
  kept_steps : others sr_org me (tb_steps s') = others sr_org me (tb_steps s);
  kept_comments : others cr_org me (tb_comments s') = others cr_org me (tb_comments s);
  kept_markers : others mk_org me (tb_markers s') = others mk_org me (tb_markers s);
  kept_watchers : others wr_org me (tb_watchers s') = others wr_org me (tb_watchers s);
  kept_evidence : others er_org me (tb_evidence s') = others er_org me (tb_evidence s);
  kept_reviews : others qr_org me (tb_reviews s') = others qr_org me (tb_reviews s);
  kept_checks : others kr_org me (tb_checks s') = others kr_org me (tb_checks s);
  kept_reviewers : others vr_org me (tb_reviewers s') = others vr_org me (tb_reviewers s);
  kept_confirmations : others dr_org me (tb_confirmations s') = others dr_org me (tb_confirmations s);
  kept_attempts : others attempt_org me (tb_attempts s') = others attempt_org me (tb_attempts s);
}.

#[export] Instance others_kept_preorder me : PreOrder (others_kept me).
Proof.
  split; [by constructor|]. intros s s1 s2 [] []. constructor; congruence.
Qed.

Lemma change_others me q s s' : change_of me s q s' → others_kept me s s'.
Proof.
  intros Hch. destruct Hch as [q s' [_ _ Ht Hr Hk Hd ? ? ? ? ? ? ?]| | | | | | | | | | ];
    constructor; simpl; try done; rewrite ?Ht, ?Hr, ?Hk, ?Hd; try done;
    try (by apply others_app).
  - apply others_fmap; [intros r; case_decide; [|done]; match goal with He : edits _ _ |- _ => apply (He r) end|].
    intros r Hr. rewrite decide_False; [done|]. by intros (? & _).
  - apply others_update; [|done]. apply Forall_forall. by intros r _ (? & _).
  - apply others_update; [|done]. apply Forall_forall. by intros r _ (? & _).
  - apply others_update; [|done]. apply Forall_forall. by intros r _ (? & _).
  - apply others_filter. intros d Hd. destruct (decide (dr_org d = me)); [done|]. destruct Hd. by intros (? & _).
  - apply others_update; [|done]. apply Forall_forall. by intros r _ (? & _).
Qed.

Lemma command_others `{TenantDatabase} `{NodeDates} `{OpaqueTexts} `{OpaqueNumbers} `{UrlParser} c
    (dependencies : TaskApplicationDependencies (S := task_tables)) me s :
  dp_terminalAttemptAuditPort dependencies = None → uuid_in (command_org c) = Some me →
  others_kept me s (run_command c dependencies s).2.
Proof.
  intros Haudit Hme. apply (sends_command dependencies Haudit c (others_kept me) _).
  intros tenant q t (-> & _). by eapply change_others, execute_changes.
Qed.
End isolation.

(** ** Project Management: a concrete board *)

Import TaskServices TaskReviews.

Module TaskExample.

(** ** The host *)

Definition org : string := "11111111-1111-4111-8111-111111111111".
Definition other_org : string := "22222222-2222-4222-8222-222222222222".
Definition home : string := "33333333-3333-4333-8333-333333333333".
Definition annex : string := "44444444-4444-4444-8444-444444444444".

(** The generated identifiers are numbered: uuids as long as one digit is enough. *)
Definition numbered_uuid (n : nat) : string :=
  if (n <? 10)%nat then "00000000-0000-4000-8000-00000000000" +:+ pretty n else "u" +:+ pretty n.

Lemma numbered_uuid_inj n m : numbered_uuid n = numbered_uuid m → n = m.
Proof.
  unfold numbered_uuid. destruct (n <? 10)%nat, (m <? 10)%nat; intros Heq; try done.
  - by apply (inj (String.append _)), (inj pretty) in Heq.
  - by apply (inj (String.append _)), (inj pretty) in Heq.
Qed.

(** The host reads one timestamp. *)
Definition second : string := "1970-01-01T00:00:01.000Z".

#[local] Instance example_host : PostgresHost := {|
  uuid_in text := Some text;
  timestamp_in text := if String.eqb text second then Some 1000%Z else None;
  gen_uuid := numbered_uuid;
  user_name user := if String.eqb user "user-ada" then Some "Ada" else None;
  workspace_org w := if String.eqb w home || String.eqb w annex then Some org else None
|}.

#[local] Instance example_uuids : PostgresUuids.
Proof. split; [done|done|apply numbered_uuid_inj]. Qed.

#[local] Instance example_database : TenantDatabase := application_database.
#[local] Instance example_dates : NodeDates := {| date_text := λ _, ""; date_parse := λ _, None |}.
#[local] Instance example_texts : OpaqueTexts := {| opaque_text := λ _, "" |}.
#[local] Instance example_numbers : OpaqueNumbers := {| opaque_number := λ _, 0%Z |}.
#[local] Instance example_urls : UrlParser := {| parse_url := λ _, None |}.

(** ** A history *)

Definition ada : TaskActor := mkTaskActor "user-ada" ["owner"].
Definition at_home : TaskApplicationContext := mkTaskContext org home ada.
Definition in_annex : TaskApplicationContext := mkTaskContext org annex ada.

Definition no_ports : TaskApplicationDependencies (S := task_tables) := mkTaskDependencies None None.

Definition new_task (cx : TaskApplicationContext) (title key : string) : CreateTaskInput :=
  mkCreateTaskInput cx title None JUndefined JUndefined None None DueNone None None (Some key) None.

Definition card : TaskTarget := mkTarget at_home (numbered_uuid 0).
Definition passing_check : AddQualityCheckInput :=
  mkAddCheck card "Reviewed" JUndefined (JStr "pass") None None.
Definition approval : ApproveQualityReviewInput := mkApproveReview card None.

Definition attestation (nonce : string) : jsval :=
  JObj [("confirmedByUserId", JStr "user-ada"); ("confirmSource", JStr "admin-web"); ("confirmNonce", JStr nonce)].
Definition finish : MarkTaskDoneInput :=
  mkMarkDone at_home (numbered_uuid 0) (NInt 1) (attestation (numbered_uuid 4)) None.

Definition step (s : task_tables) (c : task_command) : task_tables := (run_command c no_ports s).2.
Definition run_commands (cs : list task_command) (s : task_tables) : task_tables := fold_left step cs s.

Lemma later_commands cs s : later s (run_commands cs s).
Proof.
  revert s. induction cs as [|c cs IH]; intros s; [apply rtc_refl|]. simpl. eapply rtc_l; [|apply IH].
  by apply (ev_command s c no_ports).
Qed.

(** A task with an approved review and a confirmation. *)
Definition prepared : task_tables :=
  run_commands [CmdCreateTask (new_task at_home "Write the report" "k1"); CmdEnsureReview card;
                CmdAddCheck passing_check; CmdApproveReview approval; CmdIssueConfirmation card] (empty_tables 1000).

Lemma prepared_reachable : reachable prepared.
Proof. exists 1000%Z. apply later_commands. Qed.
(** ** A driver that only records

    It answers no rows and keeps the statements it is sent. *)
Definition task_log : Type := list (string * task_statement).
#[local] Instance log_driver : TaskDriver task_log :=
  {| execute_task tenant q := λ log, (Returned (RowArray []), log ++ [(tenant, q)]) |}.

(** Every entry of the log beyond its start satisfies [P]. *)
Definition logged (P : string → task_statement → Prop) (before after : task_log) : Prop :=
  ∃ entries, after = before ++ entries ∧ Forall (λ e, P e.1 e.2) entries.

Lemma logged_preorder P : PreOrder (logged P).
Proof.
  split.
  - intros log. exists []. by rewrite app_nil_r.
  - intros l1 l2 l3 (e1 & -> & H1) (e2 & -> & H2). exists (e1 ++ e2). rewrite app_assoc. split; [done|].
    by apply Forall_app.
Qed.

(** A member of no role, who asks to move a task to Done. *)
Definition guest : TaskApplicationContext := mkTaskContext org home (mkTaskActor "user-bob" []).
Definition guest_finish : task_command :=
  CmdMoveTask (mkMoveTaskInput guest (numbered_uuid 0) (JStr "done") (NInt 1) None).
Definition guest_move : task_command :=
  CmdMoveTask (mkMoveTaskInput guest (numbered_uuid 0) (JStr "todo") (NInt 1) None).
Definition no_log_ports : TaskApplicationDependencies (S := task_log) := mkTaskDependencies None None.
End TaskExample.
