(* ===== verification/TaskTheorems.v ===== *)
(** * Project Management: the properties of the task services

    Over the reference driver, for every history of commands of any organizations
    and passing time. *)
From S2P Require Import Prelude JsString JsValue SharedKernel Effects DevBoardDomain JsText RuntimeDomain.
From S2P Require Import TenantContext RuntimeSql RuntimeTables Authorization TaskDomain TaskSql TaskInputs TaskServices TaskReviews.
From S2P Require Import TaskTables TaskFrame TaskCommands TaskInvariant TaskGoverned TaskDone TaskHistory.
Import TaskServices TaskReviews.

Section theorems.
Context `{PostgresUuids} `{TenantDatabase} `{NodeDates} `{OpaqueTexts} `{OpaqueNumbers} `{UrlParser}.
Implicit Types dependencies : TaskApplicationDependencies (S := task_tables).

Lemma consumed_confirmation i q s s1 d :
  consumed_by i q s s1 → confirms i s d →
  consume (tk_userId (tc_actor (md_context i))) q (tb_now s) d ∈ tb_confirmations s1.
Proof.
  intros (me & n & t & o & w & Hme & Hn & Ht & Ho & Hw & ->) (Hd & ? & ? & ? & ? & ? & ? & ?).
  apply list_elem_of_fmap. exists d. split; [|done]. rewrite decide_True; [done|].
  unfold consumable. split_and!; congruence || done.
Qed.

Lemma finished_done dependencies i s s' id :
  finished dependencies i s s' → done_in s' id → ¬ done_in s id → uuid_in (md_taskId i) = Some id.
Proof.
  intros [_ _ (r & s1 & me & t & w & _ & _ & Hc & _ & Ht & _ & ->)] Hdone Hnew.
  assert (tb_tasks s1 = tb_tasks s) as Hts by (destruct Hc as (? & ? & ? & ? & ? & ? & ? & ? & ? & ? & ->); done).
  apply Exists_exists in Hdone as (x & Hx & Hid & Hst). simpl in Hx. rewrite Hts in Hx.
  apply elem_of_update_where in Hx as (y & Hy & [[(_ & Hyt & _) ->]|[_ ->]]).
  - simpl in Hid. congruence.
  - exfalso. apply Hnew, Exists_exists. by exists y.
Qed.

(** The confirmation a success consumed is spent. *)
Lemma finished_spent dependencies i s s' :
  well_formed s → finished dependencies i s s' → ∃ n, uuid_in (confirmNonce i) = Some n ∧ spent n s'.
Proof.
  intros Hwf [_ _ (r & s1 & me & t & w & _ & (d & Hd) & Hc & _ & _ & _ & ->)].
  destruct Hc as (me' & n & t' & o & w' & Hme & Hn & Ht & Ho & Hw & ->). exists n. split; [done|].
  destruct Hd as (Hd & Hn' & Hrest).
  assert (n = dr_id d) as -> by congruence. destruct (wf_confirmation_ids _ Hwf) as [Hnd Hi]. split.
  - eapply Forall_forall in Hi; [|by apply list_elem_of_fmap_2]. exact Hi.
  - simpl. apply Forall_forall. intros x (y & Hy & [[_ ->]|[Hnot ->]])%elem_of_update_where Hx; [done|].
    exfalso. apply Hnot. assert (y = d) as -> by (by eapply fmap_unique).
    destruct Hrest as (? & ? & ? & ? & ? & ?). unfold consumable. split_and!; congruence || done.
Qed.

Lemma spent_refused dependencies i s s' n :
  spent n s → uuid_in (confirmNonce i) = Some n → ¬ finished dependencies i s s'.
Proof.
  intros [_ Hs] Hn [_ _ (r & s1 & me & t & w & _ & (d & Hd & Hn' & _ & _ & _ & _ & Hc & _) & _)].
  eapply Forall_forall in Hs; [|done]. apply Hs; [congruence|done].
Qed.

Lemma later_markTaskDone dependencies i s r s' :
  dp_terminalAttemptAuditPort dependencies = None → markTaskDone i dependencies s = (r, s') → later s s'.
Proof.
  intros Haudit Hrun. apply rtc_once. assert (s' = (run_command (CmdMarkDone i) dependencies s).2) as ->.
  { simpl. unfold mbind, M_bind. rewrite Hrun. by destruct r. }
  by constructor.
Qed.
Lemma later_createTask dependencies i s r s' :
  dp_terminalAttemptAuditPort dependencies = None → createTask i dependencies s = (r, s') → later s s'.
Proof.
  intros Haudit Hrun. apply rtc_once. assert (s' = (run_command (CmdCreateTask i) dependencies s).2) as ->.
  { simpl. unfold mbind, M_bind. rewrite Hrun. by destruct r. }
  by constructor.
Qed.

(** C4. A task enters Done only by a governed command: in every reachable board,
    whatever command runs, a task that was not in Done and now is was marked Done
    with a valid human attestation, by an actor the authorization port permits,
    under an approved review of that task whose every check passed, and with a
    confirmation issued to that actor for that task less than five minutes ago and
    never used, which the command has consumed. *)
Theorem done_is_governed c dependencies s id :
  reachable s → dp_terminalAttemptAuditPort dependencies = None →
  done_in (run_command c dependencies s).2 id → ¬ done_in s id →
  ∃ i review confirmation,
    c = CmdMarkDone i ∧ hasValidHumanCommandAttestation i = true
    ∧ (∀ t, permitted (md_context i) ActUpdate dependencies t)
    ∧ admits i s review ∧ qr_task review = id ∧ passed s review
    ∧ confirms i s confirmation ∧ dr_task confirmation = id
    ∧ (tb_now s < dr_issued confirmation + 300000)%Z
    ∧ consume (tk_userId (tc_actor (md_context i))) (qr_id review) (tb_now s) confirmation
      ∈ tb_confirmations (run_command c dependencies s).2.
Proof.
  intros [Hwf Hap]%reachable_governed Haudit Hdone Hnew.
  assert ((∃ i, c = CmdMarkDone i) ∨ ∀ i, c ≠ CmdMarkDone i) as [[i ->]|Hc] by (destruct c; eauto; by right).
  2:{ by apply command_no_new_done in Hdone. }
  simpl in *. unfold mbind, M_bind in *. destruct (markTaskDone i dependencies s) as [r s'] eqn:Hrun.
  assert (Hs' : (match r with Returned a => (mret tt : M task_tables unit) s' | Thrown e => (Thrown e, s') end).2 = s')
    by (by destruct r).
  destruct (markTaskDone_run dependencies Haudit i s r s' Hwf Hrun) as [[Hts _]|[Hf _]].
  { exfalso. apply Hnew. unfold done_in in *. by destruct r; simpl in Hdone; rewrite Hts in Hdone. }
  assert (uuid_in (md_taskId i) = Some id) as Hid by (eapply finished_done; [done|by destruct r|done]).
  destruct Hf as [Hp Ha (rv & s1 & me & t & w & Hadm & (d & Hd) & Hc & _ & _ & _ & Hs)].
  exists i, rv, d. split_and!; try done.
  - destruct Hadm as (_ & _ & Ht & _). congruence.
  - destruct Hadm as (Hr & _ & _ & _ & Hst). eapply Forall_forall in Hap; [by apply Hap|done].
  - destruct Hd as (_ & _ & Ht & _). congruence.
  - destruct Hd as (Hd & _ & _ & _ & _ & _ & _ & Hlt). pose proof (wf_expiries _ Hwf) as He.
    eapply Forall_forall in He; [|done]. simpl in He. unfold confirmation_lifetime in He. lia.
  - pose proof (consumed_confirmation i (qr_id rv) s s1 d Hc Hd). by destruct r; simpl; rewrite Hs.
Qed.

(** C5. A confirmation is single use: once it has admitted a task to Done, no
    later request that presents it, whoever makes it and however its nonce is
    spelt, answers a task or moves any task to Done. *)
Theorem confirmations_are_single_use i dependencies s task s1 s2 i' dependencies' r s3 :
  reachable s → dp_terminalAttemptAuditPort dependencies = None → dp_terminalAttemptAuditPort dependencies' = None →
  markTaskDone i dependencies s = (Returned (ok task), s1) → later s1 s2 →
  uuid_in (confirmNonce i') = uuid_in (confirmNonce i) →
  markTaskDone i' dependencies' s2 = (r, s3) → ¬ answers_task r ∧ no_new_done s2 s3.
Proof.
  intros Hreach Haudit Haudit' Hrun Hlater Hnonce Hrun'.
  pose proof (reachable_governed s Hreach) as [Hwf Hap].
  assert (Hreach2 : reachable s2).
  { destruct Hreach as (now & Hl). exists now. transitivity s; [done|]. transitivity s1; [|done].
    by eapply (later_markTaskDone dependencies). }
  apply markTaskDone_run in Hrun as [[_ Hno]|[Hf _]]; [by destruct Hno; exists task| |done..].
  apply finished_spent in Hf as (n & Hn & Hsp); [|done]. apply (later_spent n s1 s2 Hlater) in Hsp.
  pose proof (reachable_governed s2 Hreach2) as [Hwf2 _].
  apply markTaskDone_run in Hrun' as [[Hts Hno]|[Hf _]]; [by split; [|apply no_new_done_same]| |done..].
  exfalso. eapply (spent_refused dependencies' i' s2); [done|congruence|done].
Qed.

(** C27. An approved review is final: along every history it stays as it was
    approved, and every check of it has passed and stays passed. *)
Theorem approved_reviews_are_final s s' r :
  reachable s → later s s' → r ∈ tb_reviews s → qr_status r = QrApproved →
  r ∈ tb_reviews s' ∧ passed s' r.
Proof.
  intros Hreach Hlater Hr Ha. pose proof (later_approved_kept _ _ Hlater r Hr Ha) as Hr'. split; [done|].
  destruct (later_governed _ _ Hlater (reachable_governed s Hreach)) as [_ Hap].
  eapply Forall_forall in Hap; [|done]. by apply Hap.
Qed.

(** C30. The cards of a workspace of a reachable board are numbered from one
    without a gap, in creation order, and no later command renumbers or removes a
    card. *)
Theorem card_numbers_are_gapless s s' workspace :
  reachable s → later s s' →
  tr_card <$> filter (λ r, tr_workspace r = workspace) (tb_tasks s)
    = seqZ 1 (Z.of_nat (length (filter (λ r, tr_workspace r = workspace) (tb_tasks s))))
  ∧ numbered workspace s `prefix_of` numbered workspace s'.
Proof.
  intros [Hwf _]%reachable_governed Hlater. split; [|by apply later_numbered].
  pose proof (wf_cards _ Hwf workspace) as Hc. unfold counts, cards in Hc. by rewrite length_fmap in Hc.
Qed.

(** C31. Creating a task is idempotent by its key within an organization: after a
    success, any later success under the same key answers the same task and
    changes nothing, whatever its fields and whichever workspace it names. *)
Theorem create_is_idempotent i dependencies s task s1 s2 i' dependencies' task' s3 key :
  reachable s → dp_terminalAttemptAuditPort dependencies = None →
  normalizeIdempotencyKey (nt_idempotencyKey i) = ok (Some key) →
  normalizeIdempotencyKey (nt_idempotencyKey i') = ok (Some key) →
  uuid_in (tc_orgId (nt_context i')) = uuid_in (tc_orgId (nt_context i)) →
  createTask i dependencies s = (Returned (ok task), s1) → later s1 s2 →
  createTask i' dependencies' s2 = (Returned (ok task'), s3) →
  td_id task' = td_id task ∧ s3 = s2.
Proof.
  intros Hreach Haudit Hkey Hkey' Horg Hrun Hlater Hrun'.
  assert (Hreach2 : reachable s2).
  { destruct Hreach as (now & Hl). exists now. transitivity s; [done|]. transitivity s1; [|done]. by eapply (later_createTask dependencies). }
  pose proof (reachable_governed s2 Hreach2) as [Hwf2 _].
  apply (createTask_keyed i dependencies key) in Hrun as (me & Hme & Hn & _); [|done].
  apply (later_named _ _ _ _ _ Hlater) in Hn.
  apply (createTask_keyed i' dependencies' key) in Hrun' as (me' & Hme' & Hn' & Hsame); [|done].
  assert (me' = me) as -> by congruence. pose proof (Hsame _ Hn) as ->. split; [|done].
  apply Exists_exists in Hn as (r & Hr & Hid & Ho & Hk), Hn' as (r' & Hr' & Hid' & Ho' & Hk').
  assert (r' = r) as -> by (apply (wf_keys _ Hwf2); congruence). congruence.
Qed.

(** A command leaves the rows of every organization but its own as they are,
    in every table. *)
Theorem task_tenants_are_isolated c dependencies me s :
  dp_terminalAttemptAuditPort dependencies = None → uuid_in (command_org c) = Some me →
  others_kept me s (run_command c dependencies s).2.
Proof. apply command_others. Qed.

End theorems.

(** Whatever the driver does, a service sends it only statements of its own
    organization: the record of a rejected attempt, and, once the authorization
    port has permitted the command, reads and the writes of that command; a
    refused caller reads and writes nothing else. *)
Theorem commands_send_their_statements {S} `{TaskDriver S} `{TenantDatabase} `{NodeDates} `{OpaqueTexts}
    `{OpaqueNumbers} `{UrlParser} c (dependencies : TaskApplicationDependencies (S := S)) (R : S → S → Prop) :
  dp_terminalAttemptAuditPort dependencies = None → PreOrder R →
  (∀ q s, command_audits c q ∨ (command_permitted dependencies c ∧ (is_read q = true ∨ command_writes c q)) →
     R s (execute_task (command_org c) q s).2) →
  ∀ s, R s (run_command c dependencies s).2.
Proof.
  intros Haudit HR Hq. apply (sends_command dependencies Haudit c R HR). intros tenant q s (-> & Hsends). by apply Hq.
Qed.

(** ** Witnesses *)

Section witnesses.
Import TaskExample.
#[local] Existing Instances example_host example_uuids example_database example_dates example_texts example_numbers
  example_urls log_driver.

Definition finished_board : task_tables := (run_command (CmdMarkDone finish) no_ports prepared).2.

(** The prepared task is finished. *)
Lemma done_is_governed_witness :
  done_in finished_board (numbered_uuid 0) ∧
  ∃ i review confirmation,
    CmdMarkDone finish = CmdMarkDone i ∧ admits i prepared review ∧ confirms i prepared confirmation ∧
    consume "user-ada" (qr_id review) 1000 confirmation ∈ tb_confirmations finished_board.
Proof.
  assert (Hdone : done_in finished_board (numbered_uuid 0)) by (vm_compute; by left).
  split; [done|].
  destruct (done_is_governed (CmdMarkDone finish) no_ports prepared (numbered_uuid 0) prepared_reachable eq_refl Hdone)
    as (i & r & d & Hc & _ & _ & Hr & _ & _ & Hd & _ & _ & Hin).
  - vm_compute. intros Hin. inversion Hin as [? ? [_ ?]|? ? Hnil]; [done|inversion Hnil].
  - exists i, r, d. split_and!; [done..|]. injection Hc as <-. exact Hin.
Defined.

Lemma finish_succeeds : ∃ t, markTaskDone finish no_ports prepared = (Returned (ok t), finished_board).
Proof. eexists. by vm_compute. Defined.

(** The confirmation that finished the task admits nothing more. *)
Lemma confirmations_are_single_use_witness :
  (∃ t, markTaskDone finish no_ports prepared = (Returned (ok t), finished_board)) ∧
  ¬ answers_task (markTaskDone finish no_ports finished_board).1 ∧
  no_new_done finished_board (markTaskDone finish no_ports finished_board).2.
Proof.
  split; [exact finish_succeeds|]. destruct finish_succeeds as [t Ht].
  eapply (confirmations_are_single_use finish no_ports prepared t finished_board finished_board finish no_ports);
    [exact prepared_reachable|done|done|exact Ht|apply rtc_refl|done|apply surjective_pairing].
Defined.

(** The review of the prepared task, in the finished board. *)
Lemma approved_reviews_are_final_witness :
  Forall (λ r, qr_status r = QrApproved ∧ r ∈ tb_reviews finished_board ∧ passed finished_board r) (tb_reviews prepared).
Proof.
  apply Forall_forall. intros r Hr.
  assert (qr_status r = QrApproved) as Ha.
  { revert r Hr. apply Forall_forall, (bool_decide_unpack _). vm_compute. exact I. }
  split; [exact Ha|]. apply (approved_reviews_are_final prepared); [exact prepared_reachable| |exact Hr|exact Ha].
  exact (later_commands [CmdMarkDone finish] prepared).
Defined.

(** A second card of the workspace has the second number. *)
Lemma card_numbers_are_gapless_witness :
  let s := run_commands [CmdCreateTask (new_task at_home "Publish the report" "k2")] prepared in
  tr_card <$> filter (λ r, tr_workspace r = home) (tb_tasks s) = [1; 2]%Z ∧
  numbered home prepared `prefix_of` numbered home s.
Proof.
  set (s := run_commands _ _).
  assert (later prepared s) as Hl by apply later_commands.
  assert (reachable s) as Hs.
  { destruct prepared_reachable as (now & Hp). exists now. transitivity prepared; [exact Hp|exact Hl]. }
  destruct (card_numbers_are_gapless prepared s home prepared_reachable Hl) as [_ Hp].
  destruct (card_numbers_are_gapless s s home Hs (rtc_refl _ _)) as [Hc _].
  split; [|exact Hp]. etransitivity; [exact Hc|]. by vm_compute.
Defined.

Definition first_board : task_tables := (run_command (CmdCreateTask (new_task at_home "Write the report" "k1")) no_ports (empty_tables 1000)).2.

Lemma first_create : ∃ t,
  createTask (new_task at_home "Write the report" "k1") no_ports (empty_tables 1000) = (Returned (ok t), first_board).
Proof. eexists. by vm_compute. Defined.

(** A request with the key of a task answers that task, whatever it asks for and
    whichever workspace of the organization it names. *)
Lemma create_is_idempotent_witness :
  ∃ t t', createTask (new_task at_home "Write the report" "k1") no_ports (empty_tables 1000) = (Returned (ok t), first_board)
    ∧ createTask (new_task in_annex "Something else" "k1") no_ports first_board = (Returned (ok t'), first_board)
    ∧ td_id t' = td_id t.
Proof.
  destruct first_create as [t Ht].
  assert (∃ t', createTask (new_task in_annex "Something else" "k1") no_ports first_board = (Returned (ok t'), first_board))
    as [t' Ht'] by (eexists; by vm_compute).
  exists t, t'. split; [exact Ht|]. split; [exact Ht'|].
  apply (create_is_idempotent (new_task at_home "Write the report" "k1") no_ports (empty_tables 1000) t first_board first_board
    (new_task in_annex "Something else" "k1") no_ports t' first_board "k1");
    [exists 1000%Z; apply rtc_refl|reflexivity|by vm_compute|by vm_compute|reflexivity|exact Ht|apply rtc_refl|exact Ht'].
Defined.

(** The board of one organization after a command of another. *)
Lemma task_tenants_are_isolated_witness :
  let c := CmdCreateTask (new_task (mkTaskContext other_org annex ada) "Elsewhere" "k1") in
  others_kept other_org prepared (run_command c no_ports prepared).2 ∧
  length (others tr_org other_org (tb_tasks prepared)) = 1.
Proof. split; [apply task_tenants_are_isolated; reflexivity|by vm_compute]. Defined.

(** A guest who moves a task to Done is only audited, and one who moves it elsewhere
    sends nothing. *)
Lemma commands_send_their_statements_witness :
  logged (λ tenant q, tenant = org ∧ (command_audits guest_finish q ∨
      (command_permitted no_log_ports guest_finish ∧ (is_read q = true ∨ command_writes guest_finish q)))) []
    (run_command guest_finish no_log_ports []).2 ∧
  length (run_command guest_finish no_log_ports []).2 = 1 ∧ (run_command guest_move no_log_ports []).2 = [].
Proof.
  split; [|by vm_compute].
  apply (commands_send_their_statements guest_finish no_log_ports (logged _));
    [done|apply logged_preorder|]. intros q log Hq. exists [(org, q)]. split; [done|]. by constructor.
Defined.
End witnesses.
