(* ===== verification/IssueSql.v ===== *)
(** * Project Management: the SQL boundary of the issue services
    ([packages/project-management/src/application/issues.ts], its DTOs, rows,
    statements and normalizers; [packages/ports/src/issue-tracker.ts])

    GitHub is the source of truth of an issue: the database keeps a projection of
    it, the intents to create one, and the outbox of the issues to close. *)
From S2P Require Import Prelude JsString JsValue SharedKernel Effects DevBoardDomain JsText RuntimeDomain.
From S2P Require Import TenantContext RuntimeSql TaskDomain TaskSql TaskInputs.
From Stdlib Require Import Ascii.

(** ** The issue tracker port *)

Inductive IssueProjectionState : Type := IsOpen | IsClosed.
Inductive IssueTrackerCloseReason : Type := CrCompleted | CrNotPlanned.

#[global] Instance IssueProjectionState_eq_dec : EqDecision IssueProjectionState.
Proof. solve_decision. Defined.

(** The provider is always [github]. *)
Record IssueTrackerRef : Type := mkIssueRef {
  rf_repository : string;
  rf_number : Z;
  rf_url : string;
}.

Record IssueTrackerIssue : Type := mkTrackerIssue {
  ti_ref : IssueTrackerRef;
  ti_title : string;
  ti_state : IssueProjectionState;
  ti_labels : list string;
  ti_assignee : option string;
  ti_updatedAt : string;
}.

(** [None] is the state [all]. *)
Record ListIssuesFilter : Type := mkListFilter {
  lf_repository : string;
  lf_state : option (option IssueProjectionState);
  lf_labels : option (list string);
}.

Record CreateIssueInput : Type := mkCreateIssue {
  ci_repository : string;
  ci_title : string;
  ci_body : option string;
  ci_labels : option (list string);
  ci_assignees : option (list string);
}.

Record CloseIssueInput : Type := mkCloseIssue { cl_ref : IssueTrackerRef; cl_reason : IssueTrackerCloseReason }.

(** The calls may throw, and may move the state: that of the tracker, and that of
    the database when other transactions run in the meantime. *)
Record IssueTrackerPort (S : Type) : Type := mkTracker {
  listIssues : ListIssuesFilter → M S (Result (list IssueTrackerIssue));
  getIssue : IssueTrackerRef → M S (Result IssueTrackerIssue);
  createIssue : CreateIssueInput → M S (Result IssueTrackerIssue);
  closeIssue : CloseIssueInput → M S (Result IssueTrackerIssue);
}.
Arguments mkTracker {S} _ _ _ _.
Arguments listIssues {S} _ _.
Arguments getIssue {S} _ _.
Arguments createIssue {S} _ _.
Arguments closeIssue {S} _ _.

(** ** DTOs *)

Inductive IssueTriageFilter : Type :=
| FtAll | FtNeedsTriage | FtReadyForAgent | FtReadyForHuman | FtInProgress | FtClosed.
#[global] Instance IssueTriageFilter_eq_dec : EqDecision IssueTriageFilter.
Proof. solve_decision. Defined.

Inductive OutboxState : Type := ObPending | ObProcessing | ObClosed | ObFailed | ObDead.
#[global] Instance OutboxState_eq_dec : EqDecision OutboxState.
Proof. solve_decision. Defined.

Record IssueProjectionDto : Type := mkProjectionDto {
  pd_id : string;
  pd_organizationId : string;
  pd_workspaceId : string;
  pd_repository : string;
  pd_number : Z;
  pd_title : string;
  pd_state : IssueProjectionState;
  pd_labels : list string;
  pd_assignee : option string;
  pd_updatedAt : string;
  pd_syncedAt : string;
  pd_url : string;
  pd_linkedTaskId : option string;
  pd_linkedTaskStatus : option string;
}.

Record IssueCloseOutboxDto : Type := mkOutboxDto {
  ox_id : string;
  ox_organizationId : string;
  ox_workspaceId : string;
  ox_taskId : string;
  ox_repository : string;
  ox_issueNumber : Z;
  ox_issueUrl : string;
  ox_dedupeKey : string;
  ox_state : OutboxState;
  ox_closeReason : IssueTrackerCloseReason;
  ox_attempts : Z;
  ox_nextAttemptAt : string;
  ox_lastError : option string;
  ox_claimedAt : option string;
  ox_claimToken : option string;
  ox_createdAt : string;
  ox_updatedAt : string;
  ox_closedAt : option string;
}.

Definition issueState_str (s : IssueProjectionState) : string :=
  match s with IsOpen => "open" | IsClosed => "closed" end.
Definition closeReason_str (r : IssueTrackerCloseReason) : string :=
  match r with CrCompleted => "completed" | CrNotPlanned => "not_planned" end.
Definition outboxState_str (s : OutboxState) : string :=
  match s with
  | ObPending => "pending" | ObProcessing => "processing" | ObClosed => "closed" | ObFailed => "failed"
  | ObDead => "dead"
  end.

(** ** Inputs *)

Record ListIssueProjectionsInput : Type := mkListProjections {
  li_context : TaskApplicationContext;
  li_repository : string;
  li_filter : option IssueTriageFilter;
}.

Record SyncIssueProjectionInput : Type := mkSync {
  sy_context : TaskApplicationContext;
  sy_repository : string;
}.

Record CreateTrackedIssueInput : Type := mkCreateTracked {
  ct_context : TaskApplicationContext;
  ct_repository : string;
  ct_title : string;
  ct_body : option string;
  ct_labels : option (list string);
  ct_idempotencyKey : option string;
}.

Record EnqueueIssueCloseInput : Type := mkEnqueue {
  eq_context : TaskApplicationContext;
  eq_task : TaskDto;
}.

Record ProcessIssueCloseOutboxInput : Type := mkProcess {
  po_context : TaskApplicationContext;
  po_repository : string;
  po_limit : option jsnum;
  po_processingTimeoutMs : option jsnum;
  po_maxAttempts : option jsnum;
}.

(** ** Statements *)

Inductive issue_statement : Type :=
| UpsertProjection (org workspace : string) (issue : IssueTrackerIssue) (syncedAt : string)
| InsertIntent (org workspace user repository key : string)
| SelectIntent (workspace key : string)
| FailIntent (id workspace message : string)
| SucceedIntent (id workspace projection : string) (number : Z)
| SelectProjections (workspace repository : string)
| InsertOutbox (org workspace task repository : string) (number : Z) (url dedupeKey : string)
| ExhaustOutbox (workspace repository : string) (maxAttempts : Z)
| ClaimOutbox (workspace repository : string) (maxAttempts processingTimeoutMs limit : Z)
| SettleOutbox (id workspace : string) (claimToken : option string) (state : OutboxState) (closed : bool)
    (lastError : option string).

(** The driver, run for the organization of the transaction; and [new Date()]. *)
Class IssueDriver (S : Type) := {
  execute_issue : string → issue_statement → M S execute_result;
}.
Class WallClock (S : Type) := { new_date : M S Z }.

(** [String(error)] of a caught value. *)
Class ErrorTexts := { error_text : exn → string }.

(** ** Decoding *)

Section decoding.
Context {S : Type} `{NodeDates} `{OpaqueTexts} `{OpaqueNumbers}.

Definition issueError (code message : string) : DomainError := domain_error code message.

(** [parseDate] of issues.ts, which rejects an invalid text itself. *)
Definition parseIssueDate (c : cell) : M S string :=
  let invalid := throw (ExnDomain (issueError "projectManagement.invalidIssueRecord"
                   "Issue record timestamp is invalid.")) in
  match c with
  | CDate t => iso_text (Some t)
  | CVal (JStr text) => match date_parse text with Some t => iso_text (Some t) | None => invalid end
  | CVal _ => invalid
  end.
Definition parseOptionalIssueDate (c : cell) : M S (option string) :=
  if absent c then mret None else t ← parseIssueDate c; mret (Some t).

Definition stateValue (c : cell) : IssueProjectionState := if cell_is "closed" c then IsClosed else IsOpen.

Definition rowToIssueProjection (row : QueryRow) : M S IssueProjectionDto :=
  updatedAt ← parseIssueDate (column "updated_at" row);
  syncedAt ← parseIssueDate (column "synced_at" row);
  mret (mkProjectionDto (cell_text (column "id" row)) (cell_text (column "organization_id" row))
    (cell_text (column "workspace_id" row)) (cell_text (column "repository" row))
    (cell_number (column "number" row)) (cell_text (column "title" row)) (stateValue (column "state" row))
    (stringArray (column "labels" row)) (stringOrNull (column "assignee" row)) updatedAt syncedAt
    (cell_text (column "url" row)) (stringOrNull (column "linked_task_id" row))
    (stringOrNull (column "linked_task_status" row))).

Definition outboxStateValue (c : cell) : OutboxState :=
  if cell_is "processing" c then ObProcessing else if cell_is "closed" c then ObClosed
  else if cell_is "failed" c then ObFailed else if cell_is "dead" c then ObDead else ObPending.
Definition closeReasonValue (c : cell) : IssueTrackerCloseReason :=
  if cell_is "not_planned" c then CrNotPlanned else CrCompleted.

Definition rowToIssueCloseOutbox (row : QueryRow) : M S IssueCloseOutboxDto :=
  nextAttemptAt ← parseIssueDate (column "next_attempt_at" row);
  claimedAt ← parseOptionalIssueDate (column "claimed_at" row);
  createdAt ← parseIssueDate (column "created_at" row);
  updatedAt ← parseIssueDate (column "updated_at" row);
  closedAt ← parseOptionalIssueDate (column "closed_at" row);
  mret (mkOutboxDto (cell_text (column "id" row)) (cell_text (column "organization_id" row))
    (cell_text (column "workspace_id" row)) (cell_text (column "task_id" row))
    (cell_text (column "repository" row)) (cell_number (column "issue_number" row))
    (cell_text (column "issue_url" row)) (cell_text (column "dedupe_key" row))
    (outboxStateValue (column "state" row)) (closeReasonValue (column "close_reason" row))
    (cell_number (column "attempts" row)) nextAttemptAt (stringOrNull (column "last_error" row)) claimedAt
    (stringOrNull (column "claim_token" row)) createdAt updatedAt closedAt).

(** ** Normalizers *)

Definition is_repository_char (c : ascii) : bool :=
  is_alnum c || Ascii.eqb c "_" || Ascii.eqb c "." || Ascii.eqb c "-".
Definition repository_part (s : string) : bool := negb (String.eqb s "") && string_forall is_repository_char s.

(** [/^[A-Za-z0-9_.-]+\/[A-Za-z0-9_.-]+$/] *)
Definition repositoryPattern (s : string) : bool :=
  match split_slash s with Some (owner, name) => repository_part owner && repository_part name | None => false end.

Definition normalizeRepository (repository : string) : Result string :=
  let normalized := trim repository in
  if repositoryPattern normalized then ok normalized
  else err (issueError "projectManagement.invalidIssueRepository" "Issue repository must be in owner/name form.").

Definition normalizeTitle (title : string) : Result string :=
  let normalized := normalize_spaces title in
  if length_within 1 256 normalized then ok normalized
  else err (issueError "projectManagement.invalidIssueTitle" "Issue title must be 1-256 characters.").

Definition is_intent_key_char (c : ascii) : bool :=
  is_alnum c || Ascii.eqb c ":" || Ascii.eqb c "." || Ascii.eqb c "_" || Ascii.eqb c "/" || Ascii.eqb c "-".

Definition normalizeIssueKey (key : option string) : Result (option string) :=
  if blank key then ok None
  else
    let normalized := trim (default "" key) in
    if (String.length normalized <=? 160)%nat && string_forall is_intent_key_char normalized
    then ok (Some normalized)
    else err (issueError "projectManagement.invalidIssueCreateIdempotencyKey"
                "Issue create idempotency key must be 1-160 safe characters.").

(** ** The issue a task refers to *)

(** The rest of a text after a prefix, whatever the case of the prefix's letters. *)
Fixpoint strip_prefix_i (prefix s : string) : option string :=
  match prefix, s with
  | EmptyString, s => Some s
  | String p prefix, String c s =>
      if Ascii.eqb (if is_alnum c then lower_char c else c) p then strip_prefix_i prefix s else None
  | String _ _, EmptyString => None
  end.

(** The texts before and after the first occurrence of a character. *)
Fixpoint split_at (sep : ascii) (s : string) : option (string * string) :=
  match s with
  | EmptyString => None
  | String c s =>
      if Ascii.eqb c sep then Some (EmptyString, s)
      else match split_at sep s with Some (a, b) => Some (String c a, b) | None => None end
  end.

(** [[1-9]\d*] *)
Definition issue_number_pattern (s : string) : bool :=
  match s with
  | String c s => ascii_between "1" "9" c && string_forall (ascii_between "0" "9") s
  | EmptyString => false
  end.

(** [Number(text)] *)
Definition text_number (s : string) : Z := cell_number (CVal (JStr s)).

(** [github:owner/name#number], whole and in any case *)
Definition short_ref (value : string) : option (string * string) :=
  rest ← strip_prefix_i "github:" value;
  '(repository, number) ← split_at "#" rest;
  if repositoryPattern repository && issue_number_pattern number then Some (repository, number) else None.

(** [https://github.com/owner/name/issues/number], whole and in any case *)
Definition url_ref (value : string) : option (string * string) :=
  rest ← strip_prefix_i "https://github.com/" value;
  '(owner, rest) ← split_at "/" rest;
  '(name, rest) ← split_at "/" rest;
  number ← strip_prefix_i "issues/" rest;
  if repository_part owner && repository_part name && issue_number_pattern number
  then Some (owner +:+ "/" +:+ name, number) else None.

Definition issueRefFromTask (task : TaskDto) : option IssueTrackerRef :=
  match td_provenanceExternalRef task with
  | None => None
  | Some value =>
      let value := trim value in
      if String.eqb value "" then None
      else
        match short_ref value with
        | Some (repository, number) =>
            Some (mkIssueRef repository (text_number number)
                    ("https://github.com/" +:+ repository +:+ "/issues/" +:+ number))
        | None =>
            match url_ref value with
            | Some (repository, number) => Some (mkIssueRef repository (text_number number) value)
            | None => None
            end
        end
  end.

(** ** Triage *)

Definition issueFilterFromLabels (state : IssueProjectionState) (labels : list string) : IssueTriageFilter :=
  let has label := bool_decide (label ∈ (to_lower <$> labels)) in
  if bool_decide (state = IsClosed) then FtClosed
  else if has "ready-for-agent" then FtReadyForAgent
  else if has "ready-for-human" then FtReadyForHuman
  else if has "in-progress" || has "in progress" then FtInProgress
  else FtNeedsTriage.

Definition issueMatchesFilter (filter : IssueTriageFilter) (issue : IssueProjectionDto) : bool :=
  bool_decide (filter = FtAll) || bool_decide (issueFilterFromLabels (pd_state issue) (pd_labels issue) = filter).

End decoding.
