(* ===== verification/IssueServices.v ===== *)
(** * Project Management: the issue services
    ([packages/project-management/src/application/issues.ts], its operations;
    [task-done-close.ts])

    Projections of the issues of a repository, issues created once per idempotency
    key, and the outbox: marking a task Done records in the same transaction the
    intent to close its issue, and a worker claims the entries that are due, closes
    their issues and settles each entry in a transaction of its own. *)
From S2P Require Import Prelude JsString JsValue SharedKernel Effects DevBoardDomain JsText RuntimeDomain.
From S2P Require Import TenantContext RuntimeSql Authorization TaskDomain TaskSql TaskInputs TaskServices TaskReviews IssueSql.

Module IssueServices.

Section services.
Context {S : Type} `{IssueDriver S} `{WallClock S} `{TenantDatabase} `{NodeDates} `{OpaqueTexts} `{OpaqueNumbers}.
Context `{ErrorTexts}.

Record IssueApplicationDependencies : Type := mkIssueDependencies {
  di_authorizationPort : option AuthorizationPort;
  di_issueTrackerPort : option (IssueTrackerPort S);
  di_now : option (M S Z);
}.

(** [failIssueCloseEnqueue] is the fault the tests inject. *)
Record EnqueueIssueCloseForTaskTxDependencies : Type := mkEnqueueDependencies {
  de_authorizationPort : option AuthorizationPort;
  de_failIssueCloseEnqueue : option exn;
}.

Implicit Types (dependencies : IssueApplicationDependencies) (cx : TaskApplicationContext) (tx : string).

(** ** Guards *)

Definition assertKnownContext cx : M S (Result unit) :=
  try_catch
    (_ ← made (Ids.makeTenantId (tc_orgId cx));
     _ ← made (Ids.makeOrgId (tc_orgId cx));
     _ ← made (Ids.makeWorkspaceId (tc_workspaceId cx));
     _ ← made (Ids.makeUserId (tk_userId (tc_actor cx)));
     mret (ok tt))
    (λ _, mret (err (issueError "projectManagement.invalidIssueContext"
                 "Issue context contains an invalid organization, workspace, or actor id."))).

Definition authorizationSubject cx : M S AuthorizationSubject :=
  userId ← made (Ids.makeUserId (tk_userId (tc_actor cx)));
  tenantId ← made (Ids.makeTenantId (tc_orgId cx));
  orgId ← made (Ids.makeOrgId (tc_orgId cx));
  workspaceId ← made (Ids.makeWorkspaceId (tc_workspaceId cx));
  mret (mkSubject userId tenantId orgId [workspaceId] (Some (tk_roleKeys (tc_actor cx)))).

Definition authorizeIssue cx (action : AuthorizationAction) (authorizationPort : AuthorizationPort)
    : M S (Result unit) :=
  subject ← authorizationSubject cx;
  tenantId ← made (Ids.makeTenantId (tc_orgId cx));
  orgId ← made (Ids.makeOrgId (tc_orgId cx));
  workspaceId ← made (Ids.makeWorkspaceId (tc_workspaceId cx));
  mret match can authorizationPort subject action
               (mkResource ResTask tenantId (Some orgId) (Some workspaceId) None None) with
       | err e => err e
       | ok decision =>
           if dc_allowed decision then ok tt
           else err (issueError "projectManagement.forbidden" "You are not allowed to manage issues.")
       end.

(** The guards of every service but [enqueueIssueCloseForTask]: a known context and
    a repository. *)
Definition in_repository {A} cx (repository : string) (body : string → M S (Result A)) : M S (Result A) :=
  known ← assertKnownContext cx;
  TaskServices.require known (λ _, TaskServices.require (normalizeRepository repository) body).

Definition authorized {A} cx (action : AuthorizationAction) (authorizationPort : option AuthorizationPort)
    (body : M S (Result A)) : M S (Result A) :=
  allowed ← authorizeIssue cx action (default defaultTaskAuthorizationPort authorizationPort);
  TaskServices.require allowed (λ _, body).

Definition trackerRequired dependencies : Result (IssueTrackerPort S) :=
  match di_issueTrackerPort dependencies with
  | None => err (issueError "projectManagement.issueTrackerMissing"
                   "Issue tracker adapter is required for this operation.")
  | Some tracker => ok tracker
  end.

(** [dependencies.now?.() ?? new Date()] *)
Definition clock dependencies : M S Z := default new_date (di_now dependencies).

(** ** Statements *)

Definition issue_rows tx (q : issue_statement) : M S (list QueryRow) :=
  result ← execute_issue tx q; mret (rowsFromExecuteResult result).
Definition issue_row tx (q : issue_statement) : M S (option QueryRow) :=
  rows ← issue_rows tx q; mret (head rows).

Definition upsertIssueProjection tx cx (issue : IssueTrackerIssue) (syncedAt : Z) : M S IssueProjectionDto :=
  synced ← iso_text (Some syncedAt);
  row ← issue_row tx (UpsertProjection (tc_orgId cx) (tc_workspaceId cx) issue synced);
  match row with
  | None => throw (ExnDomain (issueError "projectManagement.issueProjectionFailed" "Issue projection was not saved."))
  | Some row => rowToIssueProjection row
  end.

(** [for (const issue of issues) saved.push(await upsertIssueProjection(...))] *)
Fixpoint upsert_all tx cx (issues : list IssueTrackerIssue) (syncedAt : Z) : M S (list IssueProjectionDto) :=
  match issues with
  | [] => mret []
  | issue :: issues =>
      saved ← upsertIssueProjection tx cx issue syncedAt;
      rest ← upsert_all tx cx issues syncedAt;
      mret (saved :: rest)
  end.

(** ** Creation intents *)

Inductive IssueCreateIntentClaim : Type :=
| IntentNone
| IntentClaimed (id : string)
| IntentSucceeded (projection : IssueProjectionDto)
| IntentConflict (message : string).

(** The projection joined to an intent, read from its columns. *)
Definition intent_projection_row (row : QueryRow) : QueryRow :=
  ("id", column "projection_id" row) :: ("state", column "projection_state" row) ::
  ((λ key, (key, column key row)) <$>
     ["organization_id"; "workspace_id"; "repository"; "number"; "title"; "labels"; "assignee"; "updated_at";
      "synced_at"; "url"; "linked_task_id"; "linked_task_status"]).

Definition claimIssueCreateIntent tx cx (repository : string) (idempotencyKey : option string)
    : M S IssueCreateIntentClaim :=
  match idempotencyKey with
  | None => mret IntentNone
  | Some key =>
      inserted ← issue_row tx (InsertIntent (tc_orgId cx) (tc_workspaceId cx) (tk_userId (tc_actor cx)) repository key);
      match inserted with
      | Some row => mret (IntentClaimed (cell_text (column "id" row)))
      | None =>
          existing ← issue_row tx (SelectIntent (tc_workspaceId cx) key);
          match existing with
          | None => mret (IntentConflict "Issue create idempotency key is already in use.")
          | Some row =>
              let state := column "state" row in
              if cell_is "succeeded" state
                 && negb match column "projection_id" row with CVal JNull => true | _ => false end
              then projection ← rowToIssueProjection (intent_projection_row row); mret (IntentSucceeded projection)
              else
                mret (IntentConflict
                  (if cell_is "failed" state then "Issue create idempotency key is bound to a failed attempt."
                   else "Issue create is already in progress for this idempotency key."))
          end
      end
  end.

(** A failure to record the failure is swallowed. *)
Definition markIssueCreateIntentFailed cx (intent : IssueCreateIntentClaim) (message : string) : M S unit :=
  match intent with
  | IntentClaimed id =>
      try_catch
        (inTransaction (tc_orgId cx)
           (_ ← execute_issue (tc_orgId cx) (FailIntent id (tc_workspaceId cx) message); mret tt))
        (λ _, mret tt)
  | _ => mret tt
  end.

(** ** Projections *)

Definition listIssueProjections (input : ListIssueProjectionsInput) dependencies
    : M S (Result (list IssueProjectionDto)) :=
  let cx := li_context input in
  in_repository cx (li_repository input) (λ repository,
    authorized cx ActRead (di_authorizationPort dependencies)
      (attempt (tc_orgId cx) "projectManagement.issueProjectionListFailed" "Issue projection could not be loaded."
         (rows ← issue_rows (tc_orgId cx) (SelectProjections (tc_workspaceId cx) repository);
          issues ← TaskServices.decode_all rowToIssueProjection rows;
          mret (ok (List.filter (issueMatchesFilter (default FtAll (li_filter input))) issues))))).

Definition issueProjectionSyncFailed : DomainError :=
  issueError "projectManagement.issueProjectionSyncFailed" "Issue projection could not be synchronized.".

Definition syncIssueProjection (input : SyncIssueProjectionInput) dependencies
    : M S (Result (list IssueProjectionDto)) :=
  let cx := sy_context input in
  in_repository cx (sy_repository input) (λ repository,
    TaskServices.require (trackerRequired dependencies) (λ tracker,
    authorized cx ActUpdate (di_authorizationPort dependencies)
      (listed ← listIssues tracker (mkListFilter repository (Some None) None);
       TaskServices.require listed (λ issues,
         try_catch
           (syncedAt ← clock dependencies;
            inTransaction (tc_orgId cx)
              (saved ← upsert_all (tc_orgId cx) cx issues syncedAt; mret (ok saved)))
           (λ _, mret (err issueProjectionSyncFailed)))))).

Definition issueCreateProjectionFailed : DomainError :=
  issueError "projectManagement.issueCreateProjectionFailed" "Created issue could not be projected.".

(** The intent of a request: none without a key. *)
Definition claim_intent cx (repository : string) (idempotencyKey : option string)
    : M S (Result IssueCreateIntentClaim) :=
  match idempotencyKey with
  | None => mret (ok IntentNone)
  | Some _ =>
      try_catch
        (intent ← inTransaction (tc_orgId cx) (claimIssueCreateIntent (tc_orgId cx) cx repository idempotencyKey);
         mret (ok intent))
        (λ _, mret (err (issueError "projectManagement.issueCreateIntentFailed"
                     "Issue create idempotency guard could not be recorded.")))
  end.

(** The transaction that projects a created issue and settles its intent. *)
Definition project_created tx cx (intent : IssueCreateIntentClaim) (created : IssueTrackerIssue) (syncedAt : Z)
    : M S (Result IssueProjectionDto) :=
  projection ← upsertIssueProjection tx cx created syncedAt;
  _ ← match intent with
      | IntentClaimed id =>
          _ ← execute_issue tx (SucceedIntent id (tc_workspaceId cx) (pd_id projection) (pd_number projection));
          mret tt
      | _ => mret tt
      end;
  mret (ok projection).

(** From the claimed intent on. *)
Definition create_issue cx (input : CreateTrackedIssueInput) (repository title : string)
    (tracker : IssueTrackerPort S) dependencies (intent : IssueCreateIntentClaim) : M S (Result IssueProjectionDto) :=
  created ← createIssue tracker (mkCreateIssue repository title (ct_body input) (ct_labels input) None);
  match created with
  | err e => markIssueCreateIntentFailed cx intent (error_message e);; mret (err e)
  | ok created =>
      try_catch
        (syncedAt ← clock dependencies;
         inTransaction (tc_orgId cx) (project_created (tc_orgId cx) cx intent created syncedAt))
        (λ error, markIssueCreateIntentFailed cx intent (error_text error);; mret (err issueCreateProjectionFailed))
  end.

Definition createTrackedIssue (input : CreateTrackedIssueInput) dependencies : M S (Result IssueProjectionDto) :=
  let cx := ct_context input in
  in_repository cx (ct_repository input) (λ repository,
    TaskServices.require (normalizeTitle (ct_title input)) (λ title,
    TaskServices.require (normalizeIssueKey (ct_idempotencyKey input)) (λ idempotencyKey,
    TaskServices.require (trackerRequired dependencies) (λ tracker,
    authorized cx ActCreate (di_authorizationPort dependencies)
      (claimed ← claim_intent cx repository idempotencyKey;
       TaskServices.require claimed (λ intent,
         match intent with
         | IntentSucceeded projection => mret (ok projection)
         | IntentConflict message => mret (err (issueError "projectManagement.issueCreateIdempotencyConflict" message))
         | _ => create_issue cx input repository title tracker dependencies intent
         end)))))).

(** ** The close outbox *)

Definition issueCloseIntentFailed : DomainError :=
  issueError "projectManagement.issueCloseIntentFailed" "Issue close outbox intent could not be recorded.".

Definition close_key cx (task repository : string) (number : Z) : string :=
  tc_orgId cx +:+ ":" +:+ tc_workspaceId cx +:+ ":" +:+ task +:+ ":" +:+ repository +:+ "#" +:+ pretty number
  +:+ ":close".

(** In a transaction of the caller: every failure is thrown, so that the
    transaction of the caller rolls back. *)
Definition enqueueIssueCloseForTaskTx tx (input : EnqueueIssueCloseInput)
    (dependencies : EnqueueIssueCloseForTaskTxDependencies) : M S (option IssueCloseOutboxDto) :=
  let cx := eq_context input in
  let task := eq_task input in
  try_catch
    match issueRefFromTask task with
    | None => mret None
    | Some ref =>
        repository ← or_throw (normalizeRepository (rf_repository ref));
        allowed ← authorizeIssue cx ActUpdate
                    (default defaultTaskAuthorizationPort (de_authorizationPort dependencies));
        _ ← or_throw allowed;
        _ ← match de_failIssueCloseEnqueue dependencies with Some fault => throw fault | None => mret tt end;
        row ← issue_row tx (InsertOutbox (tc_orgId cx) (tc_workspaceId cx) (td_id task) repository (rf_number ref)
                              (rf_url ref) (close_key cx (td_id task) repository (rf_number ref)));
        match row with
        | None => throw (ExnDomain issueCloseIntentFailed)
        | Some row => entry ← rowToIssueCloseOutbox row; mret (Some entry)
        end
    end
    (λ error, match error with
              | ExnCloseIntent _ => throw error
              | _ => throw (ExnCloseIntent issueCloseIntentFailed)
              end).

Definition enqueueIssueCloseForTask (input : EnqueueIssueCloseInput) dependencies
    : M S (Result (option IssueCloseOutboxDto)) :=
  let cx := eq_context input in
  match issueRefFromTask (eq_task input) with
  | None => mret (ok None)
  | Some ref =>
      TaskServices.require (normalizeRepository (rf_repository ref)) (λ _,
        authorized cx ActUpdate (di_authorizationPort dependencies)
          (attempt (tc_orgId cx) "projectManagement.issueCloseEnqueueFailed"
             "Issue close outbox entry could not be recorded."
             (entry ← enqueueIssueCloseForTaskTx (tc_orgId cx) input
                        (mkEnqueueDependencies
                           (Some (default defaultTaskAuthorizationPort (di_authorizationPort dependencies))) None);
              mret (ok entry))))
  end.

(** [value ?? fallback], an integer between two bounds. *)
Definition bounded_option (code message : string) (fallback low high : Z) (value : option jsnum) : Result Z :=
  match default (NInt fallback) value with
  | NInt z => if ((low <=? z) && (z <=? high))%Z then ok z else err (issueError code message)
  | _ => err (issueError code message)
  end.

Definition outboxLimit (input : ProcessIssueCloseOutboxInput) : Result Z :=
  bounded_option "projectManagement.invalidOutboxLimit" "Outbox limit must be 1-50." 10 1 50 (po_limit input).
Definition outboxProcessingTimeout (input : ProcessIssueCloseOutboxInput) : Result Z :=
  bounded_option "projectManagement.invalidOutboxProcessingTimeout"
    "Outbox processing timeout must be 1 millisecond to 24 hours." (15 * 60 * 1000) 1 (24 * 60 * 60 * 1000)
    (po_processingTimeoutMs input).
Definition outboxMaxAttempts (input : ProcessIssueCloseOutboxInput) : Result Z :=
  bounded_option "projectManagement.invalidOutboxMaxAttempts" "Outbox max attempts must be 1-100." 8 1 100
    (po_maxAttempts input).

(** The transaction that claims the entries that are due. *)
Definition claim_entries tx (workspaceId repository : string) (maxAttempts processingTimeoutMs limit : Z)
    : M S (list IssueCloseOutboxDto) :=
  _ ← execute_issue tx (ExhaustOutbox workspaceId repository maxAttempts);
  rows ← issue_rows tx (ClaimOutbox workspaceId repository maxAttempts processingTimeoutMs limit);
  TaskServices.decode_all rowToIssueCloseOutbox rows.

(** The state an entry is settled in after the answer of the tracker. *)
Definition settled_state {A} (closed : Result A) (attempts maxAttempts : Z) : OutboxState :=
  match closed with
  | ok _ => ObClosed
  | err _ => if (maxAttempts <=? attempts + 1)%Z then ObDead else ObFailed
  end.

(** One claimed entry: its issue is closed, and the entry settled if the claim is
    still the one that was made. *)
Definition process_entry (tracker : IssueTrackerPort S) cx (maxAttempts : Z) (entry : IssueCloseOutboxDto)
    : M S (option IssueCloseOutboxDto) :=
  closed ← closeIssue tracker
             (mkCloseIssue (mkIssueRef (ox_repository entry) (ox_issueNumber entry) (ox_issueUrl entry))
                (ox_closeReason entry));
  inTransaction (tc_orgId cx)
    (row ← issue_row (tc_orgId cx)
             (SettleOutbox (ox_id entry) (tc_workspaceId cx) (ox_claimToken entry)
                (settled_state closed (ox_attempts entry) maxAttempts)
                match closed with ok _ => true | err _ => false end
                match closed with ok _ => None | err e => Some (error_message e) end);
     TaskServices.decode_null rowToIssueCloseOutbox row).

Fixpoint process_entries (tracker : IssueTrackerPort S) cx (maxAttempts : Z) (entries : list IssueCloseOutboxDto)
    : M S (list IssueCloseOutboxDto) :=
  match entries with
  | [] => mret []
  | entry :: entries =>
      saved ← process_entry tracker cx maxAttempts entry;
      rest ← process_entries tracker cx maxAttempts entries;
      mret match saved with Some saved => saved :: rest | None => rest end
  end.

Definition issueCloseProcessFailed : DomainError :=
  issueError "projectManagement.issueCloseProcessFailed" "Issue close outbox could not be processed.".

Definition processIssueCloseOutbox (input : ProcessIssueCloseOutboxInput) dependencies
    : M S (Result (list IssueCloseOutboxDto)) :=
  let cx := po_context input in
  in_repository cx (po_repository input) (λ repository,
    TaskServices.require (trackerRequired dependencies) (λ tracker,
    authorized cx ActUpdate (di_authorizationPort dependencies)
      (TaskServices.require (outboxLimit input) (λ limit,
       TaskServices.require (outboxProcessingTimeout input) (λ processingTimeoutMs,
       TaskServices.require (outboxMaxAttempts input) (λ maxAttempts,
         try_catch
           (claimed ← inTransaction (tc_orgId cx)
                        (claim_entries (tc_orgId cx) (tc_workspaceId cx) repository maxAttempts processingTimeoutMs
                           limit);
            processed ← process_entries tracker cx maxAttempts claimed;
            mret (ok processed))
           (λ _, mret (err issueCloseProcessFailed)))))))).

End services.

(** ** Done with the close intent ([task-done-close.ts]) *)

Section done_close.
Context {S : Type} `{TaskDriver S} `{IssueDriver S} `{WallClock S} `{TenantDatabase} `{NodeDates} `{OpaqueTexts}.
Context `{OpaqueNumbers} `{UrlParser} `{ErrorTexts}.

Inductive LinkedIssueCloseIntent : Type :=
| NoLinkedIssue (taskId : string) (cardNumber : Z)
| DeferredToSlice25e (taskId : string) (cardNumber : Z) (targetRef : string) (outbox : IssueCloseOutboxDto).

Record MarkTaskDoneAndEnqueueIssueCloseDependencies : Type := mkDoneCloseDependencies {
  dd_task : TaskServices.TaskApplicationDependencies (S := S);
  dd_failIssueCloseEnqueue : option exn;
}.

Record MarkTaskDoneAndEnqueueIssueCloseResult : Type := mkDoneClose {
  dc_task : TaskDto;
  dc_linkedIssueCloseIntent : LinkedIssueCloseIntent;
}.

Definition linked_intent (task : TaskDto) (outbox : option IssueCloseOutboxDto) : LinkedIssueCloseIntent :=
  match outbox, issueRefFromTask task with
  | Some outbox, Some ref =>
      DeferredToSlice25e (td_id task) (td_cardNumber task)
        (default (rf_url ref) (td_provenanceExternalRef task)) outbox
  | _, _ => NoLinkedIssue (td_id task) (td_cardNumber task)
  end.

(** The transaction: the outcome of the Done transition, and the answer. *)
Definition done_close_in (tx : string) (input : MarkTaskDoneInput)
    (dependencies : MarkTaskDoneAndEnqueueIssueCloseDependencies)
    : M S (TaskReviews.MarkTaskDoneTransactionOutcome * Result MarkTaskDoneAndEnqueueIssueCloseResult) :=
  marked ← TaskReviews.markTaskDoneInTransaction tx input;
  match TaskReviews.do_result marked with
  | err e => mret (marked, err e)
  | ok task =>
      outbox ← enqueueIssueCloseForTaskTx tx (mkEnqueue (md_context input) task)
                 (mkEnqueueDependencies (TaskServices.dp_authorizationPort (dd_task dependencies))
                    (dd_failIssueCloseEnqueue dependencies));
      mret (marked, ok (mkDoneClose task (linked_intent task outbox)))
  end.

Definition taskDoneFailed : DomainError :=
  issueError "projectManagement.taskDoneFailed" "Task could not be marked Done.".

Definition markTaskDoneAndEnqueueIssueClose (input : MarkTaskDoneInput)
    (dependencies : MarkTaskDoneAndEnqueueIssueCloseDependencies)
    : M S (Result MarkTaskDoneAndEnqueueIssueCloseResult) :=
  let tx := tc_orgId (md_context input) in
  prepared ← TaskReviews.prepareMarkTaskDone input (dd_task dependencies);
  TaskServices.require prepared (λ _,
    try_catch
      (outcome ← inTransaction tx (done_close_in tx input dependencies);
       TaskReviews.appendMarkTaskDoneRejectionAttempt input outcome.1 (dd_task dependencies);;
       mret outcome.2)
      (λ error, mret (err match error with
                          | ExnRollback e | ExnCloseIntent e => e
                          | _ => taskDoneFailed
                          end))).

End done_close.
End IssueServices.
