(* ===== verification/IssueTables.v ===== *)
(** * Project Management: the issue tables

    The statements of the issue services over tables, beside the task tables they
    refer to: a reference driver with the semantics of their text and of the
    migrations [0006], [0008] and [0009] of [packages/identity-access/drizzle].

    An [update ... returning] changes and answers the rows in the order of the
    table, and [gen_random_uuid()] is drawn for each of them. *)
From S2P Require Import Prelude JsString JsValue SharedKernel Effects DevBoardDomain JsText RuntimeDomain.
From S2P Require Import TenantContext RuntimeSql RuntimeTables TaskDomain TaskSql TaskInputs TaskTables IssueSql.
From Stdlib Require Import Ascii.

(** ** Rows *)

Record projection_rec : Type := mkProjectionRec {
  jr_id : string; jr_org : string; jr_workspace : string; jr_repository : string; jr_number : Z;
  jr_title : string; jr_state : IssueProjectionState; jr_labels : list string; jr_assignee : option string;
  jr_updated : Z; jr_synced : Z; jr_url : string;
}.

Record outbox_rec : Type := mkOutboxRec {
  br_id : string; br_org : string; br_workspace : string; br_task : string; br_repository : string;
  br_number : Z; br_url : string; br_key : string; br_state : OutboxState; br_reason : IssueTrackerCloseReason;
  br_attempts : Z; br_next : Z; br_error : option string; br_claimed : option Z; br_token : option string;
  br_created : Z; br_updated : Z; br_closed : option Z;
}.

Inductive IntentState : Type := InProcessing | InSucceeded | InFailed.

Record intent_rec : Type := mkIntentRec {
  nr_id : string; nr_org : string; nr_workspace : string; nr_user : string; nr_repository : string;
  nr_key : string; nr_state : IntentState; nr_projection : option string; nr_number : option Z;
  nr_error : option string; nr_created : Z; nr_updated : Z;
}.

(** The task tables hold the clock and the uuids generated so far. *)
Record issue_tables : Type := mkIssueTables {
  ib_tasks : task_tables;
  ib_projections : list projection_rec;
  ib_outbox : list outbox_rec;
  ib_intents : list intent_rec;
}.

Definition on_task_tables f (s : issue_tables) : issue_tables :=
  mkIssueTables (f (ib_tasks s)) (ib_projections s) (ib_outbox s) (ib_intents s).
Definition on_projections f (s : issue_tables) : issue_tables :=
  mkIssueTables (ib_tasks s) (f (ib_projections s)) (ib_outbox s) (ib_intents s).
Definition on_outbox f (s : issue_tables) : issue_tables :=
  mkIssueTables (ib_tasks s) (ib_projections s) (f (ib_outbox s)) (ib_intents s).
Definition on_intents f (s : issue_tables) : issue_tables :=
  mkIssueTables (ib_tasks s) (ib_projections s) (ib_outbox s) (f (ib_intents s)).

Definition ib_now (s : issue_tables) : Z := tb_now (ib_tasks s).
Definition ib_uuids (s : issue_tables) : nat := tb_uuids (ib_tasks s).

(** A call on the task tables. *)
Definition in_tasks {A} (m : M task_tables A) : M issue_tables A := λ s,
  let (r, t) := m (ib_tasks s) in (r, mkIssueTables t (ib_projections s) (ib_outbox s) (ib_intents s)).

Definition intentState_str (s : IntentState) : string :=
  match s with InProcessing => "processing" | InSucceeded => "succeeded" | InFailed => "failed" end.

(** ** Rows as the driver reads them back *)

Definition projection_columns (linked : option task_rec) (r : projection_rec) : QueryRow := [
  ("id", text_cell (jr_id r)); ("organization_id", text_cell (jr_org r)); ("workspace_id", text_cell (jr_workspace r));
  ("repository", text_cell (jr_repository r)); ("number", int_cell (jr_number r)); ("title", text_cell (jr_title r));
  ("state", text_cell (issueState_str (jr_state r))); ("labels", CVal (JArr (JStr <$> jr_labels r)));
  ("assignee", null_text (jr_assignee r)); ("updated_at", CDate (jr_updated r)); ("synced_at", CDate (jr_synced r));
  ("url", text_cell (jr_url r)); ("linked_task_id", null_text (tr_id <$> linked));
  ("linked_task_status", null_text (taskStatus_str ∘ tr_status <$> linked))].

Definition outbox_columns (r : outbox_rec) : QueryRow := [
  ("id", text_cell (br_id r)); ("organization_id", text_cell (br_org r)); ("workspace_id", text_cell (br_workspace r));
  ("task_id", text_cell (br_task r)); ("repository", text_cell (br_repository r));
  ("issue_number", int_cell (br_number r)); ("issue_url", text_cell (br_url r)); ("dedupe_key", text_cell (br_key r));
  ("state", text_cell (outboxState_str (br_state r))); ("close_reason", text_cell (closeReason_str (br_reason r)));
  ("attempts", int_cell (br_attempts r)); ("next_attempt_at", CDate (br_next r)); ("last_error", null_text (br_error r));
  ("claimed_at", null_date (br_claimed r)); ("claim_token", null_text (br_token r));
  ("created_at", CDate (br_created r)); ("updated_at", CDate (br_updated r)); ("closed_at", null_date (br_closed r))].

(** An intent with the projection it is joined to; the columns of no projection
    are null. *)
Definition intent_columns (projection : option projection_rec) (r : intent_rec) : QueryRow :=
  [("id", text_cell (nr_id r)); ("state", text_cell (intentState_str (nr_state r)));
   ("last_error", null_text (nr_error r))] ++
  match projection with
  | Some p => [
      ("projection_id", text_cell (jr_id p)); ("organization_id", text_cell (jr_org p));
      ("workspace_id", text_cell (jr_workspace p)); ("repository", text_cell (jr_repository p));
      ("number", int_cell (jr_number p)); ("title", text_cell (jr_title p));
      ("projection_state", text_cell (issueState_str (jr_state p))); ("labels", CVal (JArr (JStr <$> jr_labels p)));
      ("assignee", null_text (jr_assignee p)); ("updated_at", CDate (jr_updated p)); ("synced_at", CDate (jr_synced p));
      ("url", text_cell (jr_url p)); ("linked_task_id", CVal JNull); ("linked_task_status", CVal JNull)]
  | None => [("projection_id", CVal JNull)]
  end.

(** ** Statements *)

Section statements.
Context `{PostgresHost}.
Notation answer := (M issue_tables execute_result).

Definition issue_error {A} (code : string) : M issue_tables A :=
  throw (ExnForeign true (JObj [("code", JStr code)])).
Definition issue_uuid {A} (text : string) (k : string → M issue_tables A) : M issue_tables A :=
  match uuid_in text with Some id => k id | None => issue_error "22P02" end.
Definition check_issue {A} (code : string) (P : Prop) `{Decision P} (k : M issue_tables A) : M issue_tables A :=
  if decide P then k else issue_error code.
Definition issue_answer {A} (columns : A → QueryRow) (found : list A) : answer := mret (RowArray (columns <$> found)).
Definition issue_change (f : issue_tables → issue_tables) (result : list QueryRow) : answer :=
  λ s, (Returned (RowArray result), f s).

(** The row security check, then the foreign keys to the workspace. *)
Definition issue_belongs {A} (tenant org workspace : string) (k : M issue_tables A) : M issue_tables A :=
  check_issue "42501" (org = tenant) (check_issue "23503" (workspace_org workspace = Some org) k).

(** [char_length(btrim(s)) > 0] *)
Definition not_spaces (s : string) : bool := negb (string_forall (Ascii.eqb " "%char) s).

(** *** Projections *)

Definition is_issue (workspace repository : string) (number : Z) (r : projection_rec) : Prop :=
  jr_workspace r = workspace ∧ jr_repository r = repository ∧ jr_number r = number.
#[global] Instance is_issue_dec workspace repository number r : Decision (is_issue workspace repository number r).
Proof. unfold is_issue. apply _. Defined.

Definition refreshed (issue : IssueTrackerIssue) (updated synced : Z) (r : projection_rec) : projection_rec :=
  mkProjectionRec (jr_id r) (jr_org r) (jr_workspace r) (jr_repository r) (jr_number r) (ti_title issue)
    (ti_state issue) (ti_labels issue) (ti_assignee issue) updated synced (rf_url (ti_ref issue)).

(** [on conflict (workspace_id, repository, number) do update]: the update of a row
    another organization owns breaks row security. *)
Definition upsert_projection (tenant org workspace : string) (issue : IssueTrackerIssue) (updated synced : Z) : answer :=
  s ← get_state;
  let ref := ti_ref issue in
  let same := is_issue workspace (rf_repository ref) (rf_number ref) in
  let r := mkProjectionRec (gen_uuid (ib_uuids s)) org workspace (rf_repository ref) (rf_number ref) (ti_title issue)
             (ti_state issue) (ti_labels issue) (ti_assignee issue) updated synced (rf_url ref) in
  check_issue "22003" (int4 (rf_number ref))
   (check_issue "42501" (org = tenant)
    (check_issue "23514" (not_spaces (rf_repository ref) = true ∧ (0 < rf_number ref)%Z
                          ∧ not_spaces (ti_title issue) = true ∧ not_spaces (rf_url ref) = true)
      match filter same (ib_projections s) with
      | existing :: _ =>
          check_issue "42501" (jr_org existing = tenant)
            (issue_change (on_projections (update_where same (refreshed issue updated synced)))
               [projection_columns None (refreshed issue updated synced existing)])
      | [] =>
          issue_belongs tenant org workspace
            (issue_change (λ s, on_task_tables drawn (on_projections (λ l, l ++ [r]) s)) [projection_columns None r])
      end)).

(** The task that refers to an issue: the one updated last. *)
Definition linked_task (tenant : string) (r : projection_rec) (s : issue_tables) : option task_rec :=
  head (order_by (λ t, [(- tr_updated t)%Z]) tr_id
          (filter (λ t, tr_org t = tenant ∧ tr_org t = jr_org r ∧ tr_workspace t = jr_workspace r ∧
                        (tr_externalRef t = Some ("github:" +:+ jr_repository r +:+ "#" +:+ pretty (jr_number r))
                         ∨ tr_externalRef t = Some (jr_url r)))
             (tb_tasks (ib_tasks s)))).

Definition select_projections (org workspace repository : string) : answer :=
  s ← get_state;
  issue_answer (λ r, projection_columns (linked_task org r s) r)
    (order_by (λ r, [(- jr_updated r)%Z; (- jr_number r)%Z]) jr_id
       (filter (λ r, jr_org r = org ∧ jr_workspace r = workspace ∧ jr_repository r = repository) (ib_projections s))).

(** *** Creation intents *)

Definition is_intent (workspace key : string) (r : intent_rec) : Prop := nr_workspace r = workspace ∧ nr_key r = key.
#[global] Instance is_intent_dec workspace key r : Decision (is_intent workspace key r).
Proof. unfold is_intent. apply _. Defined.

(** [on conflict (workspace_id, idempotency_key) do nothing] *)
Definition insert_intent (tenant org workspace user repository key : string) : answer :=
  s ← get_state;
  let r := mkIntentRec (gen_uuid (ib_uuids s)) org workspace user repository key InProcessing None None None
             (ib_now s) (ib_now s) in
  check_issue "42501" (org = tenant)
    (if decide (Exists (is_intent workspace key) (ib_intents s)) then mret (RowArray [])
     else
       issue_belongs tenant org workspace
         (check_issue "23503" (user_exists (Some user))
           (issue_change (λ s, on_task_tables drawn (on_intents (λ l, l ++ [r]) s)) [id_column "id" (nr_id r)]))).

Definition select_intent (org workspace key : string) : answer :=
  s ← get_state;
  issue_answer
    (λ r, intent_columns
       (head (filter (λ p, Some (jr_id p) = nr_projection r ∧ jr_org p = nr_org r ∧ jr_org p = org) (ib_projections s))) r)
    (take 1 (filter (λ r, nr_org r = org ∧ is_intent workspace key r) (ib_intents s))).

Definition is_intent_id (org id workspace : string) (r : intent_rec) : Prop :=
  nr_org r = org ∧ nr_id r = id ∧ nr_workspace r = workspace.
#[global] Instance is_intent_id_dec org id workspace r : Decision (is_intent_id org id workspace r).
Proof. unfold is_intent_id. apply _. Defined.

Definition fail_intent (message : string) (now : Z) (r : intent_rec) : intent_rec :=
  mkIntentRec (nr_id r) (nr_org r) (nr_workspace r) (nr_user r) (nr_repository r) (nr_key r) InFailed
    (nr_projection r) (nr_number r) (Some message) (nr_created r) now.
Definition succeed_intent (projection : string) (number now : Z) (r : intent_rec) : intent_rec :=
  mkIntentRec (nr_id r) (nr_org r) (nr_workspace r) (nr_user r) (nr_repository r) (nr_key r) InSucceeded
    (Some projection) (Some number) None (nr_created r) now.

Definition update_intent (org id workspace : string) (f : intent_rec → intent_rec) : answer :=
  issue_change (on_intents (update_where (is_intent_id org id workspace) f)) [].

(** The foreign key of a settled intent. *)
Definition projection_exists (projection org : string) (s : issue_tables) : Prop :=
  Exists (λ r, jr_id r = projection ∧ jr_org r = org) (ib_projections s).
#[global] Instance projection_exists_dec projection org s : Decision (projection_exists projection org s).
Proof. unfold projection_exists. apply _. Defined.

(** *** The close outbox *)

(** Only the time of the last change is new. *)
Definition touched (now : Z) (r : outbox_rec) : outbox_rec :=
  mkOutboxRec (br_id r) (br_org r) (br_workspace r) (br_task r) (br_repository r) (br_number r) (br_url r) (br_key r)
    (br_state r) (br_reason r) (br_attempts r) (br_next r) (br_error r) (br_claimed r) (br_token r) (br_created r)
    now (br_closed r).

(** [on conflict (dedupe_key) do update set updated_at = now()] *)
Definition insert_outbox (tenant org workspace task repository : string) (number : Z) (url key : string) : answer :=
  s ← get_state;
  let now := ib_now s in
  let r := mkOutboxRec (gen_uuid (ib_uuids s)) org workspace task repository number url key ObPending CrCompleted 0 now
             None None None now now None in
  check_issue "22003" (int4 number)
   (check_issue "42501" (org = tenant)
    (check_issue "23514" (not_spaces repository = true ∧ (0 < number)%Z ∧ not_spaces url = true ∧ not_spaces key = true)
      match filter (λ r, br_key r = key) (ib_outbox s) with
      | existing :: _ =>
          check_issue "42501" (br_org existing = tenant)
            (issue_change (on_outbox (update_where (λ r, br_key r = key) (touched now)))
               [outbox_columns (touched now existing)])
      | [] =>
          issue_belongs tenant org workspace
            (check_issue "23503" (task_exists task org (ib_tasks s))
              (issue_change (λ s, on_task_tables drawn (on_outbox (λ l, l ++ [r]) s)) [outbox_columns r]))
      end)).

Definition in_queue (org workspace repository : string) (r : outbox_rec) : Prop :=
  br_org r = org ∧ br_workspace r = workspace ∧ br_repository r = repository.
#[global] Instance in_queue_dec org workspace repository r : Decision (in_queue org workspace repository r).
Proof. unfold in_queue. apply _. Defined.

(** [state in ('pending', 'failed', 'processing')] *)
Definition unsettled (r : outbox_rec) : Prop := br_state r ≠ ObClosed ∧ br_state r ≠ ObDead.
#[global] Instance unsettled_dec r : Decision (unsettled r).
Proof. unfold unsettled. apply _. Defined.

Definition exhausted (org workspace repository : string) (maxAttempts : Z) (r : outbox_rec) : Prop :=
  in_queue org workspace repository r ∧ unsettled r ∧ (maxAttempts <= br_attempts r)%Z.
#[global] Instance exhausted_dec org workspace repository maxAttempts r :
  Decision (exhausted org workspace repository maxAttempts r).
Proof. unfold exhausted. apply _. Defined.

Definition buried (now : Z) (r : outbox_rec) : outbox_rec :=
  mkOutboxRec (br_id r) (br_org r) (br_workspace r) (br_task r) (br_repository r) (br_number r) (br_url r) (br_key r)
    ObDead (br_reason r) (br_attempts r) (br_next r)
    (Some (default "Issue close retry limit exceeded." (br_error r))) None None (br_created r) now (br_closed r).

Definition exhaust_outbox (org workspace repository : string) (maxAttempts : Z) : answer :=
  s ← get_state;
  issue_change (on_outbox (update_where (exhausted org workspace repository maxAttempts) (buried (ib_now s)))) [].

(** An entry is due when it waits and its time has come, or when its claim has
    lasted longer than the timeout. *)
Definition due (now timeout : Z) (r : outbox_rec) : Prop :=
  match br_state r with
  | ObPending | ObFailed => (br_next r <= now)%Z
  | ObProcessing => match br_claimed r with Some claimed => (claimed <= now - timeout)%Z | None => False end
  | ObClosed | ObDead => False
  end.
#[global] Instance due_dec now timeout r : Decision (due now timeout r).
Proof. unfold due. repeat case_match; apply _. Defined.

Definition claimable (org workspace repository : string) (maxAttempts now timeout : Z) (r : outbox_rec) : Prop :=
  in_queue org workspace repository r ∧ (br_attempts r < maxAttempts)%Z ∧ due now timeout r.
#[global] Instance claimable_dec org workspace repository maxAttempts now timeout r :
  Decision (claimable org workspace repository maxAttempts now timeout r).
Proof. unfold claimable. apply _. Defined.

Definition claimed_by (token : string) (now : Z) (r : outbox_rec) : outbox_rec :=
  mkOutboxRec (br_id r) (br_org r) (br_workspace r) (br_task r) (br_repository r) (br_number r) (br_url r) (br_key r)
    ObProcessing (br_reason r) (br_attempts r) (br_next r) (br_error r) (Some now) (Some token) (br_created r) now
    (br_closed r).

(** The candidates: the first [limit] by [next_attempt_at], then [created_at]. *)
Definition candidates (org workspace repository : string) (maxAttempts now timeout limit : Z) (l : list outbox_rec)
    : list string :=
  br_id <$> take (Z.to_nat limit)
    (order_by (λ r, [br_next r; br_created r]) br_id
       (filter (claimable org workspace repository maxAttempts now timeout) l)).

(** The rows of the candidates get a token each; the last component is the number
    of uuids generated then. *)
Fixpoint claim_rows (ids : list string) (now : Z) (uuids : nat) (l : list outbox_rec)
    : list outbox_rec * list outbox_rec * nat :=
  match l with
  | [] => ([], [], uuids)
  | r :: l =>
      if decide (br_id r ∈ ids) then
        let r' := claimed_by (gen_uuid uuids) now r in
        let '(table, found, n) := claim_rows ids now (S uuids) l in (r' :: table, r' :: found, n)
      else let '(table, found, n) := claim_rows ids now uuids l in (r :: table, found, n)
  end.

Definition with_uuids (n : nat) (t : task_tables) : task_tables :=
  mkTables (tb_now t) n (tb_tasks t) (tb_steps t) (tb_comments t) (tb_markers t) (tb_watchers t)
    (tb_evidence t) (tb_reviews t) (tb_checks t) (tb_reviewers t) (tb_confirmations t) (tb_attempts t).

Definition claim_outbox (org workspace repository : string) (maxAttempts timeout limit : Z) : answer :=
  s ← get_state;
  let ids := candidates org workspace repository maxAttempts (ib_now s) timeout limit (ib_outbox s) in
  let '(table, found, n) := claim_rows ids (ib_now s) (ib_uuids s) (ib_outbox s) in
  issue_change (λ s, on_task_tables (with_uuids n) (on_outbox (λ _, table) s)) (outbox_columns <$> found).

Definition is_claim (org id workspace : string) (token : option string) (r : outbox_rec) : Prop :=
  br_org r = org ∧ br_id r = id ∧ br_workspace r = workspace ∧ token ≠ None ∧ br_token r = token.
#[global] Instance is_claim_dec org id workspace token r : Decision (is_claim org id workspace token r).
Proof. unfold is_claim. apply _. Defined.

(** [interval '5 minutes' * greatest(attempts + 1, 1)] *)
Definition retry_delay (attempts : Z) : Z := 300000 * Z.max (attempts + 1) 1.

Definition settled (state : OutboxState) (closed : bool) (lastError : option string) (now : Z) (r : outbox_rec)
    : outbox_rec :=
  mkOutboxRec (br_id r) (br_org r) (br_workspace r) (br_task r) (br_repository r) (br_number r) (br_url r) (br_key r)
    state (br_reason r) (br_attempts r + 1)
    (if closed then now else now + retry_delay (br_attempts r))%Z lastError None None (br_created r) now
    (if closed then Some now else br_closed r).

Definition settle_outbox (org id workspace : string) (token : option string) (state : OutboxState) (closed : bool)
    (lastError : option string) : answer :=
  s ← get_state;
  let P := is_claim org id workspace token in
  let f := settled state closed lastError (ib_now s) in
  issue_change (on_outbox (update_where P f)) (outbox_columns ∘ f <$> filter P (ib_outbox s)).

(** ** The driver *)

Definition execute_issue_tables (tenant : string) (q : issue_statement) : answer :=
  issue_uuid tenant (λ me,
  s ← get_state;
  match q with
  | UpsertProjection org workspace issue syncedAt =>
      issue_uuid org (λ o, issue_uuid workspace (λ w,
        match timestamp_in (ti_updatedAt issue), timestamp_in syncedAt with
        | Some updated, Some synced => upsert_projection me o w issue updated synced
        | _, _ => issue_error "22007"
        end))
  | InsertIntent org workspace user repository key =>
      issue_uuid org (λ o, issue_uuid workspace (λ w, insert_intent me o w user repository key))
  | SelectIntent workspace key => issue_uuid workspace (λ w, select_intent me w key)
  | FailIntent id workspace message =>
      issue_uuid id (λ i, issue_uuid workspace (λ w, update_intent me i w (fail_intent message (ib_now s))))
  | SucceedIntent id workspace projection number =>
      issue_uuid id (λ i, issue_uuid workspace (λ w, issue_uuid projection (λ p,
        check_issue "22003" (int4 number)
          (check_issue "23503" (filter (is_intent_id me i w) (ib_intents s) = [] ∨ projection_exists p me s)
            (update_intent me i w (succeed_intent p number (ib_now s)))))))
  | SelectProjections workspace repository => issue_uuid workspace (λ w, select_projections me w repository)
  | InsertOutbox org workspace task repository number url key =>
      issue_uuid org (λ o, issue_uuid workspace (λ w, issue_uuid task (λ t,
        insert_outbox me o w t repository number url key)))
  | ExhaustOutbox workspace repository maxAttempts =>
      issue_uuid workspace (λ w, exhaust_outbox me w repository maxAttempts)
  | ClaimOutbox workspace repository maxAttempts timeout limit =>
      issue_uuid workspace (λ w, claim_outbox me w repository maxAttempts timeout limit)
  | SettleOutbox id workspace token state closed lastError =>
      issue_uuid id (λ i, issue_uuid workspace (λ w,
        match token with
        | Some token => issue_uuid token (λ k, settle_outbox me i w (Some k) state closed lastError)
        | None => settle_outbox me i w None state closed lastError
        end))
  end).

#[global] Instance issue_tables_driver : IssueDriver issue_tables := {| execute_issue := execute_issue_tables |}.
#[global] Instance issue_tasks_driver : TaskDriver issue_tables :=
  {| execute_task tenant q := in_tasks (execute_tables tenant q) |}.
(** [new Date()] is taken to read the clock of the database. *)
#[global] Instance issue_clock : WallClock issue_tables := {| new_date s := (Returned (ib_now s), s) |}.

End statements.
