(* ===== verification/IssueFrame.v ===== *)
(** * Project Management: what an issue service can move

    [moves R m]: whatever the call does, it moves the state along the preorder [R].
    An issue service moves the state along every preorder along which the
    statements, the tracker and the clock move it; so a property of the tables
    follows from one lemma per statement, whatever runs while the tracker is
    called. *)
From S2P Require Import Prelude JsString JsValue SharedKernel Effects DevBoardDomain JsText RuntimeDomain.
From S2P Require Import TenantContext RuntimeSql Authorization TaskDomain TaskSql TaskInputs TaskServices TaskReviews.
From S2P Require Import TaskFrame TaskCommands IssueSql IssueServices.
From Stdlib Require Import RelationClasses.
Import TaskServices TaskReviews IssueServices.

Create HintDb moves.

Section moves.
Context {S : Type} `{TenantDatabase} (R : relation S) `{!PreOrder R}.

Definition moves {A} (m : M S A) : Prop := ∀ s, R s (m s).2.

Lemma moves_stateless {A} (m : M S A) : stateless m → moves m.
Proof. intros [r Hr] s. by rewrite Hr. Qed.
Lemma moves_ret {A} (a : A) : moves (mret a).
Proof. by intros s. Qed.
Lemma moves_throw {A} e : moves (throw e : M S A).
Proof. by intros s. Qed.

Lemma moves_bind {A B} (m : M S A) (k : A → M S B) : moves m → (∀ a, moves (k a)) → moves (m ≫= k).
Proof.
  intros Hm Hk s. unfold mbind, M_bind. specialize (Hm s). destruct (m s) as [[a|e] s']; [|done].
  etrans; [done|apply Hk].
Qed.

Lemma moves_try_catch {A} (m : M S A) h : moves m → (∀ e, moves (h e)) → moves (try_catch m h).
Proof.
  intros Hm Hh s. unfold try_catch. specialize (Hm s). destruct (m s) as [[a|e] s']; [done|].
  etrans; [done|apply Hh].
Qed.

Lemma moves_inTransaction {A} orgId (fn : M S A) : moves fn → moves (inTransaction orgId fn).
Proof.
  intros Hfn s. unfold inTransaction. rewrite withTenant_guard. specialize (Hfn s).
  destruct (tenant_guard orgId s).1 as [u|x]; [|done]. by destruct (fn s) as [[b|e] s'].
Qed.

Lemma moves_attempt {A} orgId code message (fn : M S (Result A)) :
  moves fn → moves (attempt orgId code message fn).
Proof. intros Hfn. apply moves_try_catch; [by apply moves_inTransaction|]. intros e. apply moves_ret. Qed.

Lemma moves_require {A B} (r : Result A) (k : A → M S (Result B)) :
  (∀ a, moves (k a)) → moves (TaskServices.require r k).
Proof. destruct r; simpl; intros Hk; [by apply Hk|apply moves_ret]. Qed.

(** A bound on the task statements a call sends gives what it moves. *)
Lemma moves_sends `{TaskDriver S} {A} P (m : M S A) :
  sends P m → (∀ tenant q, P tenant q → moves (execute_task tenant q)) → moves m.
Proof. intros Hm Hq s. apply (Hm R); [done|]. intros tenant q t HP. by apply Hq. Qed.

(** A transaction answers what its body does, or leaves the state as it is. *)
Lemma inTransaction_state {A} orgId (fn : M S A) s r s' :
  inTransaction orgId fn s = (r, s') → (∃ a, r = Returned a ∧ fn s = (Returned a, s')) ∨ (∃ e, r = Thrown e ∧ s' = s).
Proof.
  unfold inTransaction. destruct (withTenant orgId fn s) as [[a|e] s1] eqn:Hw; intros [= <- <-].
  - left. apply withTenant_returned in Hw as [Hw _]. by exists a.
  - right. by exists e.
Qed.

(** What a call that answers has moved. *)
Lemma moves_run {A} (m : M S A) s r s' : moves m → m s = (r, s') → R s s'.
Proof. intros Hm Hrun. specialize (Hm s). by rewrite Hrun in Hm. Qed.
End moves.

#[export] Hint Resolve moves_ret moves_throw moves_bind moves_try_catch moves_inTransaction moves_attempt
  moves_require : moves.

(** ** Decoding reads no state *)

Section decoders.
Context {S : Type} `{NodeDates} `{OpaqueTexts} `{OpaqueNumbers}.

Lemma stateless_parseIssueDate c : stateless (parseIssueDate c : M S string).
Proof. unfold parseIssueDate. repeat case_match; auto using stateless_iso_text, stateless_throw. Qed.
Lemma stateless_parseOptionalIssueDate c : stateless (parseOptionalIssueDate c : M S (option string)).
Proof.
  unfold parseOptionalIssueDate. case_match; [apply stateless_ret|].
  apply stateless_bind; [apply stateless_parseIssueDate|intros; apply stateless_ret].
Qed.

Lemma stateless_rowToIssueProjection row : stateless (rowToIssueProjection row : M S IssueProjectionDto).
Proof. repeat (apply stateless_bind; [apply stateless_parseIssueDate|intros ?]). apply stateless_ret. Qed.
Lemma stateless_rowToIssueCloseOutbox row : stateless (rowToIssueCloseOutbox row : M S IssueCloseOutboxDto).
Proof.
  repeat (apply stateless_bind;
          [first [apply stateless_parseIssueDate|apply stateless_parseOptionalIssueDate]|intros ?]).
  apply stateless_ret.
Qed.
End decoders.

#[export] Hint Resolve stateless_parseIssueDate stateless_parseOptionalIssueDate stateless_rowToIssueProjection stateless_rowToIssueCloseOutbox stateless_iso_text : stateless.

(** ** The services *)

(** The statements the services send: an entry is settled as closed without an
    error, or as failed or dead with one. *)
Definition coherent (q : issue_statement) : Prop :=
  match q with
  | SettleOutbox _ _ _ state true error => state = ObClosed ∧ error = None
  | SettleOutbox _ _ _ state false error => (state = ObFailed ∨ state = ObDead) ∧ error ≠ None
  | _ => True
  end.

Section services.
Context {S : Type} `{TaskDriver S} `{IssueDriver S} `{WallClock S} `{TenantDatabase} `{NodeDates} `{OpaqueTexts}.
Context `{OpaqueNumbers} `{UrlParser} `{ErrorTexts}.

(** The calls of the services. *)
Inductive issue_command : Type :=
| IcList (i : ListIssueProjectionsInput)
| IcSync (i : SyncIssueProjectionInput)
| IcCreate (i : CreateTrackedIssueInput)
| IcEnqueue (i : EnqueueIssueCloseInput)
| IcProcess (i : ProcessIssueCloseOutboxInput)
| IcDoneClose (i : MarkTaskDoneInput).

Record issue_ports : Type := mkIssuePorts {
  ip_issue : IssueApplicationDependencies (S := S);
  ip_done : MarkTaskDoneAndEnqueueIssueCloseDependencies (S := S);
}.

Definition run_issue_command (c : issue_command) (ports : issue_ports) : M S unit :=
  match c with
  | IcList i => _ ← listIssueProjections i (ip_issue ports); mret tt
  | IcSync i => _ ← syncIssueProjection i (ip_issue ports); mret tt
  | IcCreate i => _ ← createTrackedIssue i (ip_issue ports); mret tt
  | IcEnqueue i => _ ← enqueueIssueCloseForTask i (ip_issue ports); mret tt
  | IcProcess i => _ ← processIssueCloseOutbox i (ip_issue ports); mret tt
  | IcDoneClose i => _ ← markTaskDoneAndEnqueueIssueClose i (ip_done ports); mret tt
  end.

Lemma sends_markTaskDoneInTransaction tx i :
  sends (λ _ _, True) (TaskReviews.markTaskDoneInTransaction tx i).
Proof.
  unfold TaskReviews.markTaskDoneInTransaction. repeat send_step; auto with stateless.
  all: apply sends_stateless; auto with stateless.
Qed.

Section along.
Context (R : relation S) `{!PreOrder R}.
Notation moves := (moves R).

(** The tracker and the clock of a command move the state along [R]. *)
Definition tracker_moves (tracker : IssueTrackerPort S) : Prop :=
  (∀ i, moves (listIssues tracker i)) ∧ (∀ i, moves (createIssue tracker i)) ∧ (∀ i, moves (closeIssue tracker i)).
Definition ports_move (ports : issue_ports) : Prop :=
  (∀ tracker, di_issueTrackerPort (ip_issue ports) = Some tracker → tracker_moves tracker) ∧
  (∀ now, di_now (ip_issue ports) = Some now → moves now) ∧
  (∀ audit i, TaskServices.dp_terminalAttemptAuditPort (dd_task (ip_done ports)) = Some audit → moves (audit i)).

Hypothesis Htask : ∀ tenant q, moves (execute_task tenant q).
Hypothesis Hissue : ∀ tenant q, coherent q → moves (execute_issue tenant q).
Hypothesis Hdate : moves new_date.

Ltac step := first
  [ assumption | apply (moves_ret R) | apply (moves_throw R) | apply (moves_attempt R) | apply (moves_inTransaction R) | by apply Hissue
  | apply (moves_stateless R); solve [auto with stateless]
  | apply (moves_require R); intros ? | apply (moves_bind R); [|intros ?] | apply (moves_try_catch R); [|intros ?] ].
Ltac steps := repeat step.

Lemma stateless_assertKnownContext cx : stateless (assertKnownContext cx : M S (Result unit)).
Proof.
  apply stateless_try_catch; [|auto with stateless].
  repeat (apply stateless_bind; [apply stateless_made|intros ?]). apply stateless_ret.
Qed.
Lemma stateless_authorizeIssue cx action port : stateless (authorizeIssue cx action port : M S (Result unit)).
Proof. repeat (apply stateless_bind; [|intros ?]); auto with stateless. Qed.
Hint Resolve stateless_assertKnownContext stateless_authorizeIssue : stateless.

Lemma moves_in_repository {A} cx repository (body : string → M S (Result A)) :
  (∀ r, moves (body r)) → moves (in_repository cx repository body).
Proof. intros Hb. unfold in_repository. steps. apply Hb. Qed.
Lemma moves_authorized {A} cx action port (body : M S (Result A)) : moves body → moves (authorized cx action port body).
Proof. intros Hb. unfold authorized. steps. Qed.
Lemma moves_issue_rows tx q : coherent q → moves (issue_rows tx q).
Proof. intros Hq. unfold issue_rows. steps. Qed.
Lemma moves_issue_row tx q : coherent q → moves (issue_row tx q).
Proof. intros Hq. unfold issue_row. steps; by apply moves_issue_rows. Qed.
Ltac steps_with tac := repeat first [tac | step | case_match].

Lemma moves_upsertIssueProjection tx cx issue t : moves (upsertIssueProjection tx cx issue t).
Proof. unfold upsertIssueProjection. steps_with ltac:(by apply moves_issue_row). Qed.
Lemma moves_upsert_all tx cx issues t : moves (upsert_all tx cx issues t).
Proof. induction issues; simpl; steps_with ltac:(apply moves_upsertIssueProjection). Qed.
Lemma moves_claimIssueCreateIntent tx cx repository key : moves (claimIssueCreateIntent tx cx repository key).
Proof. unfold claimIssueCreateIntent. steps_with ltac:(by apply moves_issue_row). Qed.
Lemma moves_markIssueCreateIntentFailed cx intent message : moves (markIssueCreateIntentFailed cx intent message).
Proof. unfold markIssueCreateIntentFailed. case_match; steps. Qed.
Lemma moves_claim_intent cx repository key : moves (claim_intent cx repository key).
Proof. unfold claim_intent. case_match; steps_with ltac:(apply moves_claimIssueCreateIntent). Qed.
Lemma moves_project_created tx cx intent created t : moves (project_created tx cx intent created t).
Proof. unfold project_created. steps_with ltac:(apply moves_upsertIssueProjection). Qed.
Lemma moves_enqueueIssueCloseForTaskTx tx i dependencies : moves (enqueueIssueCloseForTaskTx tx i dependencies).
Proof. unfold enqueueIssueCloseForTaskTx. steps_with ltac:(by apply moves_issue_row). Qed.
Lemma moves_claim_entries tx w repository maxAttempts timeout limit :
  moves (claim_entries tx w repository maxAttempts timeout limit).
Proof. unfold claim_entries. steps_with ltac:(by apply moves_issue_rows). Qed.

Section tracker.
Context (tracker : IssueTrackerPort S) (Htracker : tracker_moves tracker).

Lemma moves_process_entry cx maxAttempts entry : moves (process_entry tracker cx maxAttempts entry).
Proof using Htracker Hissue PreOrder0.
  destruct Htracker as (_ & _ & Hclose). unfold process_entry.
  apply (moves_bind R); [apply Hclose|intros closed]. apply (moves_inTransaction R), (moves_bind R).
  - apply moves_issue_row. destruct closed; simpl; [done|]. split; [|done]. destruct (_ <=? _)%Z; auto.
  - intros [row|]; simpl; steps.
Qed.
Lemma moves_process_entries cx maxAttempts entries : moves (process_entries tracker cx maxAttempts entries).
Proof using Htracker Hissue PreOrder0.
  induction entries; simpl; [apply (moves_ret R)|]. apply (moves_bind R); [apply moves_process_entry|intros ?].
  apply (moves_bind R); [done|intros ?]. apply (moves_ret R).
Qed.
End tracker.

Lemma moves_create_issue cx i repository title tracker dependencies intent :
  tracker_moves tracker → moves (clock dependencies) →
  moves (create_issue cx i repository title tracker dependencies intent).
Proof using Hissue PreOrder0.
  intros (_ & Hc & _) Hclock. unfold create_issue.
  steps_with ltac:(first [apply Hc|apply moves_project_created|apply moves_markIssueCreateIntentFailed]).
Qed.

Lemma moves_command c ports : ports_move ports → moves (run_issue_command c ports).
Proof using Htask Hissue Hdate PreOrder0.
  intros (Ht & Hnow & Haudit).
  assert (Hclock : moves (clock (ip_issue ports))) by (unfold clock; destruct (di_now _) eqn:?; simpl; auto).
  assert (Htracked : ∀ tracker, trackerRequired (ip_issue ports) = ok tracker → tracker_moves tracker).
  { intros tracker. unfold trackerRequired. case_match; [|done]. intros [= <-]. auto. }
  destruct c as [i|i|i|i|i|i]; simpl; (apply (moves_bind R); [|intros ?; apply (moves_ret R)]).
  - apply moves_in_repository. intros repository. apply moves_authorized. steps_with ltac:(by apply moves_issue_rows).
  - apply moves_in_repository. intros repository. destruct (trackerRequired _) as [tracker|] eqn:Htr; [|steps].
    simpl. destruct (Htracked tracker eq_refl) as (Hl & _ & _). apply moves_authorized.
    steps_with ltac:(first [apply Hl|apply moves_upsert_all]).
  - apply moves_in_repository. intros repository. do 2 (apply (moves_require R); intros ?). destruct (trackerRequired _) as [tracker|] eqn:Htr; [|steps].
    simpl. pose proof (Htracked tracker eq_refl). apply moves_authorized.
    steps_with ltac:(first [by apply moves_create_issue|apply moves_claim_intent]).
  - unfold enqueueIssueCloseForTask.
    steps_with ltac:(first [apply moves_authorized|apply moves_enqueueIssueCloseForTaskTx]).
  - apply moves_in_repository. intros repository. destruct (trackerRequired _) as [tracker|] eqn:Htr; [|steps].
    simpl. apply moves_authorized. steps_with ltac:(first [apply moves_claim_entries|apply moves_process_entries; auto]).
  - assert (Happend : ∀ a, moves (appendTerminalAttempt a (dd_task (ip_done ports)))).
    { intros a. unfold appendTerminalAttempt. steps. destruct (dp_terminalAttemptAuditPort _) eqn:Ha; simpl.
      - by eapply Haudit.
      - unfold default_appendTerminalAttempt. steps. apply Htask. }
    unfold markTaskDoneAndEnqueueIssueClose, prepareMarkTaskDone, known_task, known, TaskServices.authorized,
      done_close_in, appendMarkTaskDoneRejectionAttempt.
    steps_with ltac:(first
      [ apply Happend | apply moves_enqueueIssueCloseForTaskTx
      | apply (moves_stateless R); first [apply stateless_assertKnownIds|apply stateless_assertKnownTaskId|apply stateless_authorizeTask]
      | apply (moves_sends R (λ _ _, True)); [apply sends_markTaskDoneInTransaction|by intros; apply Htask] ]).
Qed.
End along.
End services.
