(* ===== verification/OutboxRules.v ===== *)
(** * Project Management: the state machine of the close outbox

    An entry of the outbox waits, is claimed under a fresh token, and is settled
    under that token as closed, failed or dead.  Every statement of the issue
    services takes entries along these steps, and keeps their identifiers, keys and
    tokens apart. *)
From S2P Require Import Prelude JsString JsValue SharedKernel Effects DevBoardDomain JsText RuntimeDomain.
From S2P Require Import TenantContext RuntimeSql RuntimeTables Authorization TaskDomain TaskSql TaskInputs TaskTables.
From S2P Require Import TaskFrame TaskInvariant TaskGoverned IssueSql IssueServices IssueTables IssueFrame.
From Stdlib Require Import RelationClasses.

(** ** Statements *)

(** What a statement does from a state, along a relation. *)
Section statement.
Context `{PostgresHost}.
Context (R : relation issue_tables) `{!Reflexive R} (s : issue_tables).

Definition keeps {A} (m : M issue_tables A) : Prop := R s (m s).2.

Lemma keeps_answer {A} (columns : A → QueryRow) found : keeps (issue_answer columns found).
Proof. change (R s s). reflexivity. Qed.
Lemma keeps_returned {A} (a : A) : keeps (mret a).
Proof. change (R s s). reflexivity. Qed.
Lemma keeps_issue_error {A} code : keeps (issue_error code : M issue_tables A).
Proof. change (R s s). reflexivity. Qed.
Lemma keeps_get (k : issue_tables → M issue_tables execute_result) : keeps (k s) → keeps (get_state ≫= k).
Proof. done. Qed.
Lemma keeps_issue_uuid {A} text (k : string → M issue_tables A) :
  (∀ id, uuid_in text = Some id → keeps (k id)) → keeps (issue_uuid text k).
Proof. intros Hk. unfold issue_uuid. case_match; [by apply Hk|apply keeps_issue_error]. Qed.
Lemma keeps_check_issue {A} code P `{Decision P} (m : M issue_tables A) :
  (P → keeps m) → keeps (check_issue code P m).
Proof. intros Hm. unfold check_issue. case_decide; [by apply Hm|apply keeps_issue_error]. Qed.
Lemma keeps_issue_belongs {A} tenant org workspace (m : M issue_tables A) :
  keeps m → keeps (issue_belongs tenant org workspace m).
Proof. intros Hm. unfold issue_belongs. apply keeps_check_issue. intros _. by apply keeps_check_issue. Qed.
Lemma keeps_issue_change f result : R s (f s) → keeps (issue_change f result).
Proof. done. Qed.
Lemma keeps_claim_outbox org workspace repository maxAttempts timeout limit :
  R s (claim_outbox org workspace repository maxAttempts timeout limit s).2 →
  keeps (claim_outbox org workspace repository maxAttempts timeout limit).
Proof. done. Qed.
End statement.

(** The changes that are left have to be shown to respect the relation. *)
Ltac keep_step R :=
  lazymatch goal with
  | |- keeps _ _ (match ?x with _ => _ end) => destruct x eqn:?
  | |- keeps _ _ (issue_answer _ _) => apply (keeps_answer R)
  | |- keeps _ _ (mret _) => apply (keeps_returned R)
  | |- keeps _ _ (issue_error _) => apply (keeps_issue_error R)
  | |- keeps _ _ (get_state ≫= _) => apply (keeps_get R)
  | |- keeps _ _ (issue_uuid _ _) => apply (keeps_issue_uuid R); intros ? ?
  | |- keeps _ _ (check_issue _ _ _) => apply (keeps_check_issue R); intros ?
  | |- keeps _ _ (issue_belongs _ _ _ _) => apply (keeps_issue_belongs R)
  | |- keeps _ _ (issue_change _ _) => apply (keeps_issue_change R)
  | |- keeps _ _ (claim_outbox _ _ _ _ _ _) => apply (keeps_claim_outbox R)
  | |- keeps _ _ _ =>
      progress unfold upsert_projection, insert_intent, select_intent, update_intent, select_projections,
        insert_outbox, exhaust_outbox, settle_outbox
  end.

Ltac keep_statement R :=
  lazymatch goal with |- R ?s (?m ?s).2 => change (keeps R s m) end; unfold execute_issue_tables.

(** ** Steps of an entry *)

Inductive entry_step : outbox_rec → outbox_rec → Prop :=
| es_touch now r : entry_step r (touched now r)
| es_bury now r : unsettled r → entry_step r (buried now r)
| es_claim token now r : unsettled r → entry_step r (claimed_by token now r)
| es_close now r : br_state r = ObProcessing → entry_step r (settled ObClosed true None now r)
| es_fail state e now r :
    br_state r = ObProcessing → state = ObFailed ∨ state = ObDead →
    entry_step r (settled state false (Some e) now r).

(** What identifies an entry and says which issue it closes. *)
Definition entry_issue (r : outbox_rec) :=
  (br_id r, br_org r, br_workspace r, br_task r, (br_repository r, br_number r, br_url r), (br_key r, br_reason r, br_created r)).

(** The columns of an entry agree: the claim of an entry in progress, the closing
    time of a closed one, the error of a failed or dead one. *)
Definition entry_ok (r : outbox_rec) : Prop :=
  match br_state r with
  | ObPending => br_token r = None ∧ br_claimed r = None ∧ br_closed r = None ∧ (0 <= br_attempts r)%Z
  | ObProcessing => br_token r ≠ None ∧ br_claimed r ≠ None ∧ br_closed r = None ∧ (0 <= br_attempts r)%Z
  | ObClosed => br_token r = None ∧ br_claimed r = None ∧ br_closed r ≠ None ∧ (0 < br_attempts r)%Z
  | ObFailed =>
      br_token r = None ∧ br_claimed r = None ∧ br_closed r = None ∧ (0 < br_attempts r)%Z ∧ br_error r ≠ None
  | ObDead =>
      br_token r = None ∧ br_claimed r = None ∧ br_closed r = None ∧ (0 <= br_attempts r)%Z ∧ br_error r ≠ None
  end.

Lemma step_entry_ok r r' : entry_step r r' → entry_ok r → entry_ok r'.
Proof.
  unfold entry_ok. intros [now s|now s [Hc Hd]|token now s [Hc Hd]|now s Hp|state e now s Hp Hst]; simpl; try done.
  - destruct (br_state s); try done; intros; destruct_and?; split_and?; done || lia.
  - destruct (br_state s); try done; intros; destruct_and?; split_and?; done || lia.
  - rewrite Hp. intros (?&?&?&?). split_and!; [done..|lia].
  - rewrite Hp. intros (?&?&?&?). destruct Hst as [-> | ->]; split_and!; try done; lia.
Qed.

Lemma step_issue r r' : entry_step r r' → entry_issue r' = entry_issue r.
Proof. by intros []. Qed.

Lemma step_attempts r r' : entry_step r r' → (br_attempts r <= br_attempts r')%Z.
Proof. intros []; simpl; lia. Qed.

(** A settled entry only has its time of change renewed. *)
Lemma step_final r r' : entry_step r r' → ¬ unsettled r → r' = touched (br_updated r') r.
Proof.
  unfold unsettled. intros [now s|now s H|token now s H|now s H|state e now s H]; [done|tauto|tauto|..]; intros Hn;
    exfalso; apply Hn; rewrite H; by split.
Qed.

Definition history (r r' : outbox_rec) : Prop := rtc entry_step r r'.

Lemma history_ok r r' : history r r' → entry_ok r → entry_ok r'.
Proof. induction 1; eauto using step_entry_ok. Qed.
Lemma history_issue r r' : history r r' → entry_issue r' = entry_issue r.
Proof. induction 1 as [|? ? ? Hs _ ->]; [done|]. by apply step_issue. Qed.
Lemma history_attempts r r' : history r r' → (br_attempts r <= br_attempts r')%Z.
Proof. induction 1 as [|? ? ? Hs _ IH]; [done|]. apply step_attempts in Hs. lia. Qed.
Lemma history_final r r' : history r r' → ¬ unsettled r → r' = touched (br_updated r') r.
Proof.
  induction 1 as [r|r1 r2 r3 Hs _ IH]; intros Hn; [by destruct r|].
  apply step_final in Hs as Heq; [|done]. rewrite IH by (by rewrite Heq). by rewrite Heq.
Qed.

(** ** The outbox of a database *)

Section outbox.
Context `{PostgresUuids}.

(** An entry is known by its identifier, by its key and by its token. *)
Record outbox_ok (s : issue_tables) : Prop := {
  ok_entries : Forall entry_ok (ib_outbox s);
  ok_ids : keyed_by (ib_tasks s) (br_id <$> ib_outbox s);
  ok_keys : NoDup (br_key <$> ib_outbox s);
  ok_tokens : Forall (λ r, ∀ k, br_token r = Some k → issued (ib_tasks s) k) (ib_outbox s);
  ok_claims : ∀ r r' k, r ∈ ib_outbox s → r' ∈ ib_outbox s → br_token r = Some k → br_token r' = Some k → r = r';
}.

(** No entry is lost, each has taken steps of its state machine, and the
    generator of uuids has not gone back. *)
Definition entries_step (s s' : issue_tables) : Prop :=
  ib_uuids s <= ib_uuids s' ∧ ∀ r, r ∈ ib_outbox s → ∃ r', r' ∈ ib_outbox s' ∧ history r r'.

(** A token that has been generated and that no entry holds. *)
Definition token_spent (k : string) (s : issue_tables) : Prop :=
  issued (ib_tasks s) k ∧ Forall (λ r, br_token r ≠ Some k) (ib_outbox s).

(** What the transactions of the system do to the outbox. *)
Definition outbox_later (s s' : issue_tables) : Prop :=
  outbox_ok s → outbox_ok s' ∧ entries_step s s' ∧ ∀ k, token_spent k s → token_spent k s'.

#[export] Instance outbox_later_preorder : PreOrder outbox_later.
Proof.
  split.
  - intros s Hs. split_and!; [done| |done]. split; [done|]. intros r Hr. exists r. split; [done|apply rtc_refl].
  - intros s1 s2 s3 H12 H23 Hs1. destruct (H12 Hs1) as (Hs2 & [Hu12 He12] & Ht12).
    destruct (H23 Hs2) as (Hs3 & [Hu23 He23] & Ht23). split_and!; [done| |auto]. split; [lia|].
    intros r (r2 & Hr2 & Hh2)%He12. apply He23 in Hr2 as (r3 & Hr3 & Hh3). exists r3. split; [done|].
    unfold history. by transitivity r2.
Qed.

(** The task statements only draw uuids. *)
Lemma execute_uuids tenant q (s : task_tables) : tb_uuids s <= tb_uuids (execute_tables tenant q s).2.
Proof.
  destruct (uuid_in tenant) as [me|] eqn:Hme; [|by rewrite execute_unknown].
  pose proof (execute_changes tenant me q s Hme) as Hch.
  inversion Hch as [? ? Hs| | | | | | | | | |]; subst; simpl; try lia. by destruct Hs.
Qed.

(** *** Changes of the outbox *)

(** The outbox and the generator are as they were. *)
Lemma later_same s s' :
  ib_outbox s' = ib_outbox s → ib_uuids s <= ib_uuids s' → outbox_later s s'.
Proof.
  intros Ho Hu Hs. assert (Hi : ∀ k, issued (ib_tasks s) k → issued (ib_tasks s') k) by (intros k; by apply issued_mono).
  split_and!.
  - destruct Hs as [He Hi' Hk Ht Hc]. constructor; rewrite ?Ho; try done.
    + by eapply keyed_by_mono.
    + eapply Forall_impl; [exact Ht|]. eauto.
  - split; [done|]. rewrite Ho. intros r Hr. exists r. split; [done|apply rtc_refl].
  - intros k [Hk Hf]. split; [auto|by rewrite Ho].
Qed.

(** Rows stay or take one step, and a token a row did not have is new. *)
Definition advanced : list outbox_rec → list outbox_rec → Prop := Forall2 (λ r r', r' = r ∨ entry_step r r').

Lemma advanced_fmap {A} (g : outbox_rec → A) l l' :
  (∀ r r', entry_issue r' = entry_issue r → g r' = g r) → advanced l l' → g <$> l' = g <$> l.
Proof.
  intros Hg. induction 1 as [|r r' l l' [->|Hs] _ IH]; simpl; [done|by f_equal|].
  rewrite (Hg r r'); [by f_equal|by apply step_issue].
Qed.

Lemma later_advanced s s' :
  ib_uuids s <= ib_uuids s' → advanced (ib_outbox s) (ib_outbox s') →
  (∀ i r r' k, ib_outbox s !! i = Some r → ib_outbox s' !! i = Some r' → br_token r' = Some k →
     br_token r = Some k ∨
     (issued (ib_tasks s') k ∧ ¬ issued (ib_tasks s) k ∧
      ∀ j r2, ib_outbox s' !! j = Some r2 → br_token r2 = Some k → j = i)) →
  outbox_later s s'.
Proof.
  intros Hle Hadv Htok [He Hi Hk Ht Hc].
  assert (Hiss : ∀ k, issued (ib_tasks s) k → issued (ib_tasks s') k) by (intros k; by apply issued_mono).
  assert (Hlook : ∀ i r', ib_outbox s' !! i = Some r' → ∃ r, ib_outbox s !! i = Some r ∧ (r' = r ∨ entry_step r r')).
  { intros i r' Hr'. by eapply Forall2_lookup_r in Hadv. }
  split_and!.
  - constructor.
    + apply Forall_lookup. intros i r' (r & Hr & Hs)%Hlook. pose proof (Forall_lookup_1 _ _ _ _ He Hr) as Hok.
      destruct Hs as [->|Hs]; [done|by eapply step_entry_ok].
    + rewrite (advanced_fmap br_id _ _ ltac:(unfold entry_issue; congruence) Hadv). by eapply keyed_by_mono.
    + by rewrite (advanced_fmap br_key _ _ ltac:(unfold entry_issue; congruence) Hadv).
    + apply Forall_lookup. intros i r' Hr' k Hk'. destruct (Hlook i r' Hr') as (r & Hr & _).
      destruct (Htok i r r' k Hr Hr' Hk') as [Hold|(Hnew & _)]; [|done].
      apply Hiss. eapply Forall_lookup_1 in Ht; [|exact Hr]. by apply Ht.
    + intros r1 r2 k [i Hr1]%list_elem_of_lookup [j Hr2]%list_elem_of_lookup Hk1 Hk2.
      destruct (Hlook i r1 Hr1) as (x1 & Hx1 & _), (Hlook j r2 Hr2) as (x2 & Hx2 & _).
      destruct (Htok i x1 r1 k Hx1 Hr1 Hk1) as [Ho1|(_ & _ & Hu)]; [|by rewrite (Hu j r2 Hr2 Hk2) in Hr2; simplify_eq].
      destruct (Htok j x2 r2 k Hx2 Hr2 Hk2) as [Ho2|(_ & _ & Hu)]; [|by rewrite (Hu i r1 Hr1 Hk1) in Hr1; simplify_eq].
      assert (x1 = x2) as <- by eauto using list_elem_of_lookup_2.
      assert (i = j) as <-; [|by simplify_eq]. destruct Hi as [Hnd _].
      by eapply NoDup_lookup; [exact Hnd|rewrite list_lookup_fmap, Hx1|rewrite list_lookup_fmap, Hx2].
  - split; [done|]. intros r [i Hr]%list_elem_of_lookup. eapply Forall2_lookup_l in Hadv as (r' & Hr' & Hs); [|exact Hr].
    exists r'. split; [by eapply list_elem_of_lookup_2|]. destruct Hs as [->|Hs]; [apply rtc_refl|by apply rtc_once].
  - intros k [Hk' Hsp]. split; [by apply Hiss|]. apply Forall_lookup. intros i r' Hr' Hkr.
    destruct (Hlook i r' Hr') as (r & Hr & _). destruct (Htok i r r' k Hr Hr' Hkr) as [Ho|(_ & Hn & _)]; [|done].
    eapply Forall_lookup_1 in Hsp; [|exact Hr]. done.
Qed.

(** Some entries take a step in which no token is given. *)
Lemma later_update (P : outbox_rec → Prop) `{∀ r, Decision (P r)} f s :
  (∀ r, entry_ok r → P r → entry_step r (f r) ∧ (br_token (f r) = None ∨ br_token (f r) = br_token r)) →
  outbox_later s (on_outbox (update_where P f) s).
Proof.
  intros Hf Hs. assert (He : Forall entry_ok (ib_outbox s)) by apply Hs.
  apply later_advanced; [done| | |done].
  - apply Forall2_fmap_r, Forall_Forall2_diag. eapply Forall_impl; [exact He|]. intros r Hr. simpl.
    case_decide; [right; by apply Hf|by left].
  - intros i r r' k Hr Hr' Hk. simpl in Hr'. unfold update_where in Hr'. rewrite list_lookup_fmap, Hr in Hr'. simpl in Hr'.
    injection Hr' as <-. left. case_decide as HP; [|done].
    destruct (Hf r) as [_ [Hn|Heq]]; [by eapply Forall_lookup_1 in He|done| |]; congruence.
Qed.

(** A new entry waits, under a new identifier and a new key. *)
Lemma later_insert r s :
  br_id r = gen_uuid (ib_uuids s) → br_state r = ObPending → entry_ok r → br_key r ∉ (br_key <$> ib_outbox s) →
  outbox_later s (on_task_tables drawn (on_outbox (λ l, l ++ [r]) s)).
Proof.
  intros Hid Hst Hr Hkey [He Hi Hk Ht Hc].
  assert (Htok : br_token r = None) by (unfold entry_ok in Hr; rewrite Hst in Hr; by destruct Hr).
  assert (Hiss : ∀ k, issued (ib_tasks s) k → issued (drawn (ib_tasks s)) k) by (intros k; by apply (issued_drawn _ id)).
  split_and!.
  - constructor; simpl.
    + apply Forall_app. by split; [|constructor].
    + rewrite fmap_app. simpl. rewrite Hid. by apply keyed_by_insert.
    + rewrite fmap_app. by apply NoDup_app_one.
    + apply Forall_app. split; [|constructor; [|done]; intros k Hk'; congruence].
      eapply Forall_impl; [exact Ht|]. eauto.
    + intros r1 r2 k [Hr1|Hr1]%elem_of_app [Hr2|Hr2]%elem_of_app Hk1 Hk2;
        try (apply list_elem_of_singleton in Hr1; congruence); try (apply list_elem_of_singleton in Hr2; congruence).
      eauto.
  - split; [simpl; unfold ib_uuids; simpl; lia|]. intros r' Hr'. exists r'. split; [apply elem_of_app; by left|apply rtc_refl].
  - intros k [Hk' Hs']. split; [by apply Hiss|]. simpl. apply Forall_app. split; [done|]. constructor; [congruence|done].
Qed.
(** *** Claims *)

(** What claiming does to each row: the candidates get tokens generated from [u]
    on, each its own. *)
Lemma claim_rows_spec ids now u l table found n :
  claim_rows ids now u l = (table, found, n) →
  u <= n ∧
  Forall2 (λ r r', (br_id r ∉ ids ∧ r' = r) ∨
                   (br_id r ∈ ids ∧ ∃ k, u <= k < n ∧ r' = claimed_by (gen_uuid k) now r)) l table ∧
  found = filter (λ r', br_id r' ∈ ids) table ∧
  ∀ i j r1 r2 k, table !! i = Some r1 → table !! j = Some r2 → br_id r1 ∈ ids → br_id r2 ∈ ids →
    br_token r1 = Some k → br_token r2 = Some k → i = j.
Proof.
  revert u table found n. induction l as [|r l IH]; intros u table found n; simpl.
  { intros [= <- <- <-]. split_and!; [done|done|done|]. intros i j r1 r2 k Hi. by rewrite lookup_nil in Hi. }
  case_decide as Hin.
  - destruct (claim_rows ids now (S u) l) as [[table' found'] n'] eqn:Heq. intros [= <- <- <-].
    destruct (IH _ _ _ _ Heq) as (Hle & Hall & Hf & Hinj). split_and!; [lia| | |].
    + constructor; [right; split; [done|]; exists u; split; [lia|done]|].
      eapply Forall2_impl; [exact Hall|]. intros x y [Hx|(Hx & k & Hk & ->)]; [by left|]. right. split; [done|].
      exists k. split; [lia|done].
    + rewrite filter_cons_True by done. by rewrite Hf.
    + assert (Hnew : ∀ j r2, table' !! j = Some r2 → br_id r2 ∈ ids → br_token r2 ≠ Some (gen_uuid u)).
      { intros j r2 Hj Hr2 Hk. eapply Forall2_lookup_r in Hall as (x & _ & Hx); [|exact Hj].
        destruct Hx as [[Hnot ->]|(_ & k & Hk' & ->)]; [done|]. simpl in Hk. injection Hk as Hk%gen_uuid_inj. lia. }
      intros [|i] [|j] r1 r2 k; simpl; intros Hi Hj Hr1 Hr2 Hk1 Hk2; [done| | |f_equal; eauto];
        simplify_eq; simpl in *; exfalso; simplify_eq; eapply Hnew; eauto.
  - destruct (claim_rows ids now u l) as [[table' found'] n'] eqn:Heq. intros [= <- <- <-].
    destruct (IH _ _ _ _ Heq) as (Hle & Hall & Hf & Hinj). split_and!; [done| | |].
    + constructor; [by left|done].
    + by rewrite filter_cons_False.
    + intros [|i] [|j] r1 r2 k; simpl; intros Hi Hj Hr1 Hr2 Hk1 Hk2; [done| | |f_equal; eauto]; simplify_eq; done.
Qed.

Lemma issued_with_uuids n t k : tb_uuids t <= n → issued t k → issued (with_uuids n t) k.
Proof. intros Hle (m & Hm & ->). exists m. split; [simpl; lia|done]. Qed.

Lemma candidates_unsettled org workspace repository maxAttempts now timeout limit l id :
  id ∈ candidates org workspace repository maxAttempts now timeout limit l →
  ∃ r, r ∈ l ∧ br_id r = id ∧ claimable org workspace repository maxAttempts now timeout r.
Proof.
  intros (r & -> & Hr)%list_elem_of_fmap. exists r.
  assert (Hin : r ∈ filter (claimable org workspace repository maxAttempts now timeout) l).
  { eapply elem_of_submseteq; [exact Hr|]. etransitivity; [apply sublist_submseteq, sublist_take|].
    apply Permutation_submseteq, merge_sort_Permutation. }
  apply list_elem_of_filter in Hin as [Hc Hin]. done.
Qed.

Lemma claimable_unsettled org workspace repository maxAttempts now timeout r :
  claimable org workspace repository maxAttempts now timeout r → unsettled r.
Proof. intros (_ & _ & Hd). unfold unsettled, due in *. by destruct (br_state r). Qed.

Lemma later_claim org workspace repository maxAttempts timeout limit s :
  outbox_later s (claim_outbox org workspace repository maxAttempts timeout limit s).2.
Proof.
  unfold claim_outbox, mbind, M_bind, get_state.
  set (ids := candidates _ _ _ _ _ _ _ _).
  destruct (claim_rows ids (ib_now s) (ib_uuids s) (ib_outbox s)) as [[table found] n] eqn:Heq. simpl.
  apply claim_rows_spec in Heq as (Hle & Hall & _ & Hinj). intros Hs. pose proof Hs as [_ [Hnd _] _ Ht _].
  apply later_advanced; [done| | |done]; simpl.
  - apply Forall2_same_length_lookup_2; [by eapply Forall2_length|]. intros i r r' Hr Hr'.
    eapply Forall2_lookup_lr in Hall; [|done..]. destruct Hall as [[_ ->]|(Hin & k & _ & ->)]; [by left|right].
    apply es_claim. apply candidates_unsettled in Hin as (x & Hx & Hxid & Hcl).
    assert (x = r) as ->; [|by eapply claimable_unsettled].
    apply (fmap_unique br_id (ib_outbox s)); [done|done|by eapply list_elem_of_lookup_2|done].
  - intros i r r' k Hr Hr' Hk. eapply Forall2_lookup_lr in Hall as Hrow; [|done..].
    destruct Hrow as [[_ ->]|(Hin & m & Hm & ->)]; [by left|right]. simpl in Hk. simplify_eq. split_and!.
    + exists m. split; [simpl; lia|done].
    + intros (m' & Hm' & Heq%gen_uuid_inj). unfold ib_uuids in *. lia.
    + intros j r2 Hr2 Hk2. destruct (decide (br_id r2 ∈ ids)) as [Hin2|Hin2]; [symmetry; by eapply Hinj|].
      assert (∃ x, ib_outbox s !! j = Some x ∧ r2 = x) as (x & Hx & ->).
      { eapply Forall2_lookup_r in Hall as (x & Hx & [[_ ->]|(? & ? & _ & ->)]); [|..|exact Hr2]; [by exists x|done]. }
      eapply Forall_lookup_1 in Ht; [|exact Hx]. destruct (Ht _ Hk2) as (m' & Hm' & Heq%gen_uuid_inj).
      unfold ib_uuids in *. lia.
Qed.
#[local] Opaque keeps issue_answer issue_error issue_uuid check_issue issue_belongs issue_change.

Lemma execute_issue_later tenant q s : coherent q → outbox_later s (execute_issue_tables tenant q s).2.
Proof.
  intros Hq. keep_statement outbox_later. apply (keeps_issue_uuid outbox_later); intros me _. apply (keeps_get outbox_later).
  destruct q; repeat keep_step outbox_later;
    try (apply later_same; [done|first [reflexivity|unfold ib_uuids; simpl; lia]]).
  - apply later_insert; [done|done| |].
    + unfold entry_ok. simpl. by split_and!.
    + simpl. intros (r & Hkey & Hr)%list_elem_of_fmap.
      match goal with H : filter _ _ = [] |- _ => apply filter_nil_not_elem_of with (x := r) in H end; done.
  - apply later_update. intros r Hr _. split; [apply es_touch|by right].
  - apply later_update. intros r Hr (_ & Hu & _). split; [by apply es_bury|by left].
  - apply later_claim.
  - apply later_update. intros r Hr (_ & _ & _ & Ht & Heq). split; [|by left].
    assert (br_state r = ObProcessing) as Hp.
    { unfold entry_ok in Hr. destruct (br_state r); [destruct Hr; congruence|done|destruct Hr; congruence..]. }
    simpl in Hq. destruct closed; [destruct Hq as [-> ->]; by apply es_close|].
    destruct Hq as [Hst Herr]. destruct lastError as [e|]; [by apply es_fail|done].
  - apply later_update. intros r Hr (_ & _ & _ & Ht & _). done.
Qed.

Lemma execute_task_later tenant q s : outbox_later s (execute_task tenant q s).2.
Proof.
  change (execute_task tenant q s) with (in_tasks (execute_tables tenant q) s).
  unfold in_tasks. pose proof (execute_uuids tenant q (ib_tasks s)) as Hu.
  destruct (execute_tables tenant q (ib_tasks s)) as [r t]. by apply later_same.
Qed.

(** Whatever the commands do, and whatever happens while the tracker is called, as
    long as it keeps to the rules itself. *)
Lemma command_later `{TenantDatabase} `{NodeDates} `{OpaqueTexts} `{OpaqueNumbers} `{UrlParser} `{ErrorTexts} c ports s :
  ports_move outbox_later ports → outbox_later s (run_issue_command c ports s).2.
Proof.
  intros Hp. apply (moves_command outbox_later); [| | |done].
  - intros tenant q t. apply execute_task_later.
  - intros tenant q Hq t. by apply execute_issue_later.
  - intros t. by apply later_same.
Qed.
End outbox.
