(* ===== verification/IssueDone.v ===== *)
(** * Project Management: creation keys, and Done with its close intent

    Requests under a creation key create one issue at most.  The transaction of
    [markTaskDoneAndEnqueueIssueClose] over the issue tables: the
    Done transition runs on the task tables, and the close intent is recorded in the
    same transaction. *)
From S2P Require Import Prelude JsString JsValue SharedKernel Effects DevBoardDomain TenantContext.
From S2P Require Import JsText RuntimeDomain Authorization RuntimeSql RuntimeTables TaskDomain.
From S2P Require Import TaskSql TaskInputs TaskServices TaskReviews TaskTables TaskFrame.
From S2P Require Import TaskCommands TaskInvariant TaskGoverned TaskDone IssueSql IssueServices.
From S2P Require Import IssueTables IssueFrame OutboxRules.
From Stdlib Require Import RelationClasses.

(** ** The creation of issues *)

Import IssueServices.

Section creation.
Context `{PostgresUuids}.

Definition intended (workspace key : string) (s : issue_tables) : Prop := Exists (is_intent workspace key) (ib_intents s).

Definition intents_kept (s s' : issue_tables) : Prop := ∀ workspace key, intended workspace key s → intended workspace key s'.

#[export] Instance intents_kept_preorder : PreOrder intents_kept.
Proof. split; [by intros s w k|]. intros s1 s2 s3 H12 H23 w k Hi. auto. Qed.

Lemma kept_same s s' : ib_intents s' = ib_intents s → intents_kept s s'.
Proof. intros Heq w k. unfold intended. by rewrite Heq. Qed.

Lemma kept_update P `{∀ r, Decision (P r)} f s :
  (∀ r, nr_workspace (f r) = nr_workspace r ∧ nr_key (f r) = nr_key r) →
  intents_kept s (on_intents (update_where P f) s).
Proof.
  intros Hf w k Hi. apply Exists_exists in Hi as (r & Hr & Hw & Hk). unfold intended. simpl.
  apply Exists_fmap, Exists_exists. exists r. split; [done|]. unfold is_intent. simpl. destruct (Hf r) as [Hfw Hfk].
  case_decide; split; congruence.
Qed.

#[local] Opaque keeps issue_answer issue_error issue_uuid check_issue issue_belongs issue_change.

Lemma execute_issue_intents tenant q s : intents_kept s (execute_issue_tables tenant q s).2.
Proof.
  keep_statement intents_kept. apply (keeps_issue_uuid intents_kept); intros me _. apply (keeps_get intents_kept).
  destruct q; repeat keep_step intents_kept; try (by apply kept_same); try (by apply kept_update).
  - intros w k Hi. unfold intended. simpl. apply Exists_app. by left.
  - apply kept_same. unfold claim_outbox, mbind, M_bind, get_state. by destruct (claim_rows _ _ _ _) as [[? ?] ?].
Qed.

#[local] Transparent keeps issue_answer issue_error issue_uuid check_issue issue_belongs issue_change.

Lemma execute_task_intents tenant q s : intents_kept s (execute_task tenant q s).2.
Proof.
  change (execute_task tenant q s) with (in_tasks (execute_tables tenant q) s). unfold in_tasks.
  destruct (execute_tables tenant q (ib_tasks s)) as [r t]. by apply kept_same.
Qed.

Lemma command_intents `{TenantDatabase} `{NodeDates} `{OpaqueTexts} `{OpaqueNumbers} `{UrlParser} `{ErrorTexts} c ports s :
  ports_move intents_kept ports → intents_kept s (run_issue_command c ports s).2.
Proof.
  intros Hp. apply (moves_command intents_kept); [| | |done].
  - intros tenant q t. apply execute_task_intents.
  - intros tenant q _ t. apply execute_issue_intents.
  - intros t. by apply kept_same.
Qed.

(** ** Requests under a key *)

Context `{TenantDatabase} `{NodeDates} `{OpaqueTexts} `{OpaqueNumbers} `{ErrorTexts}.

(** A statement that answers a row of a new intent has recorded it. *)
Lemma insert_intent_row tx org workspace user repository key s row s' :
  issue_row tx (InsertIntent org workspace user repository key) s = (Returned row, s') →
  ∃ w, uuid_in workspace = Some w ∧
    ((row = None ∧ s' = s ∧ intended w key s) ∨ (row ≠ None ∧ ¬ intended w key s ∧ intended w key s')).
Proof.
  intros Hrun.
  unfold issue_row, issue_rows, execute_issue, issue_tables_driver, execute_issue_tables, issue_uuid, mbind, M_bind,
    get_state, mret, M_ret in Hrun.
  destruct (uuid_in tx) as [me|]; [|done]. destruct (uuid_in org) as [o|]; [|done].
  destruct (uuid_in workspace) as [w|]; [|done]. exists w. split; [done|].
  unfold insert_intent, issue_belongs, check_issue, mbind, M_bind, get_state, issue_change, mret, M_ret in Hrun.
  destruct (decide (o = me)); [|done]. destruct (decide (Exists _ _)) as [Hi|Hi].
  - left. injection Hrun as <- <-. done.
  - right. repeat (case_decide; [|done]). injection Hrun as <- <-. split_and!; [done|done|].
    unfold intended. simpl. apply Exists_app. right. by constructor.
Qed.

(** The intent of a key is claimed by the request that records it. *)
Lemma claim_intent_claims cx repository key s intent s' :
  claim_intent cx repository (Some key) s = (Returned (ok intent), s') →
  (∃ id w, intent = IntentClaimed id ∧ uuid_in (tc_workspaceId cx) = Some w ∧ ¬ intended w key s ∧ intended w key s')
  ∨ (∃ projection, intent = IntentSucceeded projection) ∨ ∃ message, intent = IntentConflict message.
Proof.
  intros Hrun. unfold claim_intent, try_catch in Hrun.
  match type of Hrun with (match ?m s with _ => _ end = _) => destruct (m s) as [[c|e] s1] eqn:Hc; [|done] end.
  injection Hrun as -> ->. apply bind_returned in Hc as (a & s1 & Ht & Hret). injection Hret as -> ->.
  apply inTransaction_state in Ht as [(a & [= <-] & Hclaim)|(e & ? & _)]; [|done].
  apply bind_returned in Hclaim as (row & s2 & Hrow & Hrest).
  apply insert_intent_row in Hrow as (w & Hw & [(-> & -> & Hi)|(Hrow & Hno & Hi)]).
  - right. apply bind_returned in Hrest as (existing & s3 & _ & Hrest).
    destruct existing as [row|]; [|injection Hrest as <- <-; right; by eexists].
    cbv zeta in Hrest. destruct (cell_is "succeeded" _ && _); [|injection Hrest as <- <-; right; by eexists].
    apply bind_returned in Hrest as (projection & s4 & _ & Hret). injection Hret as <- <-. left. by eexists.
  - left. destruct row as [row|]; [|done]. injection Hrest as <- <-. by do 2 eexists.
Qed.

(** The ports of a request, but for the tracker. *)
Definition with_tracker (authorization : option AuthorizationPort) (now : option (M issue_tables Z))
    (tracker : IssueTrackerPort issue_tables) : IssueApplicationDependencies :=
  mkIssueDependencies authorization (Some tracker) now.

(** A request under a key either does not consult the tracker, or records the
    intent of its key first and then calls the tracker. *)
Lemma createTrackedIssue_cases i authorization now key s :
  normalizeIssueKey (ct_idempotencyKey i) = ok (Some key) →
  (∃ r s', ∀ tracker, createTrackedIssue i (with_tracker authorization now tracker) s = (r, s'))
  ∨ ∃ repository title id w s0,
      uuid_in (tc_workspaceId (ct_context i)) = Some w ∧ ¬ intended w key s ∧ intended w key s0 ∧
      ∀ tracker, createTrackedIssue i (with_tracker authorization now tracker) s =
        create_issue (ct_context i) i repository title tracker (with_tracker authorization now tracker) (IntentClaimed id) s0.
Proof.
  intros Hkey. unfold createTrackedIssue, in_repository, authorized, TaskServices.require.
  destruct (stateless_assertKnownContext (S := issue_tables) (ct_context i)) as [known Hknown].
  destruct (stateless_authorizeIssue (S := issue_tables) (ct_context i) ActCreate
    (default defaultTaskAuthorizationPort authorization)) as [allowed Hallowed].
  unfold mbind, M_bind, mret, M_ret. rewrite Hkey. setoid_rewrite Hknown. cbn [trackerRequired with_tracker di_issueTrackerPort
    di_authorizationPort di_now].
  destruct known as [[u|e]|e]; [|left; by do 2 eexists..].
  destruct (normalizeRepository (ct_repository i)) as [repository|e]; [|left; by do 2 eexists].
  destruct (normalizeTitle (ct_title i)) as [title|e]; [|left; by do 2 eexists].
  setoid_rewrite Hallowed.
  destruct allowed as [[u'|e]|e]; [|left; by do 2 eexists..].
  destruct (claim_intent (ct_context i) repository (Some key) s) as [[[intent|e]|e] s0] eqn:Hclaim; [|left; by do 2 eexists..].
  destruct (claim_intent_claims _ _ _ _ _ _ Hclaim) as [(id & w & -> & Hw & Hno & Hi)|[(projection & ->)|(message & ->)]];
    [right; by exists repository, title, id, w, s0|left; by do 2 eexists..].
Qed.

(** The answer of a request depends on what the tracker does. *)
Definition consults (i : CreateTrackedIssueInput) authorization now (s : issue_tables) : Prop :=
  ∃ t t', createTrackedIssue i (with_tracker authorization now t) s ≠ createTrackedIssue i (with_tracker authorization now t') s.

Lemma consults_claims i authorization now key s :
  normalizeIssueKey (ct_idempotencyKey i) = ok (Some key) → consults i authorization now s →
  ∃ repository title id w s0,
    uuid_in (tc_workspaceId (ct_context i)) = Some w ∧ ¬ intended w key s ∧ intended w key s0 ∧
    ∀ tracker, createTrackedIssue i (with_tracker authorization now tracker) s =
      create_issue (ct_context i) i repository title tracker (with_tracker authorization now tracker) (IntentClaimed id) s0.
Proof.
  intros Hkey (t & t' & Hne). destruct (createTrackedIssue_cases i authorization now key s Hkey) as [(r & s' & Heq)|?]; [|done].
  exfalso. apply Hne. by rewrite !Heq.
Qed.

Lemma create_issue_kept cx i repository title tracker dependencies intent s :
  tracker_moves intents_kept tracker → (∀ now, di_now dependencies = Some now → moves intents_kept now) →
  intents_kept s (create_issue cx i repository title tracker dependencies intent s).2.
Proof.
  intros Ht Hnow. apply (moves_create_issue intents_kept); [|done|].
  - intros tenant q _ t. apply execute_issue_intents.
  - unfold clock. destruct (di_now dependencies); simpl; [auto|]. intros t. by apply kept_same.
Qed.

(** The histories of the database: commands, with ports that remove no intent, and
    the passing of time. *)
Inductive issue_event `{UrlParser} (s : issue_tables) : issue_tables → Prop :=
| ie_command c ports : ports_move intents_kept ports → issue_event s (run_issue_command c ports s).2
| ie_time now : issue_event s (on_task_tables (with_clock now) s).

Lemma history_kept `{UrlParser} s s' : rtc issue_event s s' → intents_kept s s'.
Proof.
  induction 1 as [s|s s1 s' Hev _ IH]; [done|]. transitivity s1; [|done]. destruct Hev as [c ports Hp|now].
  - by apply command_intents.
  - by apply kept_same.
Qed.
End creation.

Import TaskServices TaskReviews IssueServices.

(** ** Calls on the task tables *)

(** The call runs on the task tables alone. *)
Definition lifted {A} (m : M issue_tables A) (m0 : M task_tables A) : Prop := ∀ s, m s = in_tasks m0 s.

Lemma lifted_ret {A} (a : A) : lifted (mret a) (mret a).
Proof. by intros []. Qed.
Lemma lifted_throw {A} e : lifted (throw e : M issue_tables A) (throw e).
Proof. by intros []. Qed.
Lemma lifted_bind {A B} (m : M issue_tables A) m0 (k : A → M issue_tables B) k0 :
  lifted m m0 → (∀ a, lifted (k a) (k0 a)) → lifted (m ≫= k) (m0 ≫= k0).
Proof.
  intros Hm Hk s. unfold in_tasks, mbind, M_bind. rewrite Hm. unfold in_tasks.
  destruct (m0 (ib_tasks s)) as [[a|e] t]; [|done]. apply Hk.
Qed.
Lemma lifted_try_catch {A} (m : M issue_tables A) m0 h h0 :
  lifted m m0 → (∀ e, lifted (h e) (h0 e)) → lifted (try_catch m h) (try_catch m0 h0).
Proof.
  intros Hm Hh s. unfold in_tasks, try_catch. rewrite Hm. unfold in_tasks.
  destruct (m0 (ib_tasks s)) as [[a|e] t]; [done|]. apply Hh.
Qed.

Section lifting.
Context `{PostgresUuids} `{TenantDatabase} `{NodeDates} `{OpaqueTexts} `{OpaqueNumbers} `{UrlParser}.

Lemma lifted_execute tx q : lifted (execute_task tx q) (execute_task tx q).
Proof. by intros s. Qed.

Ltac lift_step :=
  first [ apply lifted_ret | apply lifted_throw | apply lifted_execute
        | apply lifted_bind; [|intros ?] | apply lifted_try_catch; [|intros ?]
        | match goal with |- lifted (match ?x with _ => _ end) _ => destruct x end ].

Lemma lifted_task_row tx q : lifted (task_row tx q) (task_row tx q).
Proof. unfold task_row. repeat lift_step. Qed.
Lemma lifted_parseTaskDate c : lifted (parseTaskDate c) (parseTaskDate c).
Proof. unfold parseTaskDate, iso_text. repeat lift_step. Qed.
Lemma lifted_parseNullableDate c : lifted (parseNullableDate c) (parseNullableDate c).
Proof. unfold parseNullableDate. repeat first [apply lifted_parseTaskDate|lift_step]. Qed.

Ltac lift_decoder := repeat first [apply lifted_parseTaskDate | apply lifted_parseNullableDate | lift_step].

Lemma lifted_rowToTaskDto row : lifted (rowToTaskDto row) (rowToTaskDto row).
Proof. unfold rowToTaskDto, or_throw. lift_decoder. Qed.
Lemma lifted_decode_all {A} (decode : QueryRow → M issue_tables A) decode0 rows :
  (∀ row, lifted (decode row) (decode0 row)) → lifted (decode_all decode rows) (decode_all decode0 rows).
Proof. intros Hd. induction rows; simpl; repeat first [apply Hd|assumption|lift_step]. Qed.
Lemma lifted_selectQualityReview tx task : lifted (selectQualityReview tx task) (selectQualityReview tx task).
Proof.
  unfold selectQualityReview, rowToQualityReviewBase.
  repeat first [ apply lifted_task_row | apply lifted_decode_all; intros ?; unfold rowToQualityCheckDto, rowToQualityReviewerDto
               | apply lifted_parseTaskDate | apply lifted_parseNullableDate | lift_step ].
Qed.

Lemma lifted_markTaskDoneInTransaction tx i :
  lifted (markTaskDoneInTransaction tx i) (markTaskDoneInTransaction tx i).
Proof.
  unfold markTaskDoneInTransaction, classifyRejectedDoneConfirmation. cbv zeta.
  repeat first [apply lifted_selectQualityReview | apply lifted_task_row | apply lifted_rowToTaskDto | lift_step].
Qed.

(** ** The close intent *)

Context `{ErrorTexts}.

(** Everything but the clock, the generator and the attempts is as it was. *)
Definition untouched (s s' : issue_tables) : Prop :=
  same_board (ib_tasks s) (ib_tasks s') ∧ ib_outbox s' = ib_outbox s ∧ ib_projections s' = ib_projections s
  ∧ ib_intents s' = ib_intents s.

#[export] Instance untouched_preorder : PreOrder untouched.
Proof.
  split; [done|]. intros s1 s2 s3 [(? & ? & ? & ? & ?) (? & ? & ?)] [(? & ? & ? & ? & ?) (? & ? & ?)].
  split; [split_and!|split_and!]; congruence.
Qed.

(** An entry of the outbox under a key: a new one that waits, for the task and the
    issue, or the one that was there. *)
Definition queued (task key repository : string) (number : Z) (url : string) (s s' : issue_tables) : Prop :=
  (∃ e t, ib_outbox s' = ib_outbox s ++ [e] ∧ uuid_in task = Some t ∧ br_state e = ObPending ∧ br_attempts e = 0%Z ∧
     (br_task e, br_key e, br_repository e, br_number e, br_url e) = (t, key, repository, number, url))
  ∨ (∃ e, e ∈ ib_outbox s ∧ br_key e = key ∧
     ib_outbox s' = update_where (λ r, br_key r = key) (touched (ib_now s)) (ib_outbox s)).

Lemma insert_outbox_row tx org workspace task repository number url key s row s' :
  issue_row tx (InsertOutbox org workspace task repository number url key) s = (Returned (Some row), s') →
  same_board (ib_tasks s) (ib_tasks s') ∧ ib_projections s' = ib_projections s ∧ ib_intents s' = ib_intents s ∧
  queued task key repository number url s s'.
Proof.
  intros Hrun.
  unfold issue_row, issue_rows, execute_issue, issue_tables_driver, execute_issue_tables, issue_uuid, mbind, M_bind,
    get_state, mret, M_ret in Hrun.
  destruct (uuid_in tx) as [me|]; [|done]. destruct (uuid_in org) as [o|]; [|done].
  destruct (uuid_in workspace) as [w|]; [|done]. destruct (uuid_in task) as [t|] eqn:Ht; [|done].
  unfold insert_outbox, issue_belongs, check_issue, mbind, M_bind, get_state, issue_change, mret, M_ret in Hrun.
  do 3 (destruct (decide _) in Hrun; [|done]). destruct (filter _ (ib_outbox s)) as [|x l] eqn:Hf.
  - do 2 (destruct (decide _) in Hrun; [|done]). injection Hrun as _ <-. split_and!; [done|done|done|].
    left. eexists _, t. by split_and!.
  - destruct (decide _) in Hrun; [|done]. injection Hrun as _ <-. split_and!; [done|done|done|].
    right. assert (x ∈ filter (λ r, br_key r = key) (ib_outbox s)) as [Hk Hx]%list_elem_of_filter by (rewrite Hf; by left).
    by exists x.
Qed.

(** The intent of a task: none without a reference to an issue. *)
Definition intent_recorded (cx : TaskApplicationContext) (task : TaskDto) (s s' : issue_tables) : Prop :=
  match issueRefFromTask task with
  | None => ib_outbox s' = ib_outbox s
  | Some ref => ∃ repository, normalizeRepository (rf_repository ref) = ok repository ∧
      queued (td_id task) (close_key cx (td_id task) repository (rf_number ref)) repository (rf_number ref) (rf_url ref) s s'
  end.

Lemma enqueue_run tx input ports s entry s' :
  enqueueIssueCloseForTaskTx tx input ports s = (Returned entry, s') →
  same_board (ib_tasks s) (ib_tasks s') ∧ ib_projections s' = ib_projections s ∧ ib_intents s' = ib_intents s ∧
  intent_recorded (eq_context input) (eq_task input) s s'.
Proof.
  unfold enqueueIssueCloseForTaskTx, try_catch, intent_recorded. cbv zeta.
  destruct (issueRefFromTask (eq_task input)) as [ref|]; [|intros [= <- <-]; done].
  match goal with |- (match ?m s with _ => _ end = _) → _ => destruct (m s) as [[found|e] s1] eqn:Hrun end;
    [|by destruct e].
  intros [= -> ->]. apply stateless_bind_returned in Hrun as (repository & Hrepo & Hrun); [|auto with stateless].
  apply stateless_bind_returned in Hrun as (allowed & _ & Hrun); [|apply stateless_authorizeIssue].
  apply stateless_bind_returned in Hrun as (u & _ & Hrun); [|auto with stateless].
  apply stateless_bind_returned in Hrun as (u' & _ & Hrun); [|destruct (de_failIssueCloseEnqueue ports); auto with stateless].
  apply bind_returned in Hrun as (row & s1 & Hrow & Hrun). destruct row as [row|]; [|done].
  apply stateless_bind_returned in Hrun as (dto & _ & Hret); [|auto with stateless]. injection Hret as <- <-.
  apply insert_outbox_row in Hrow as (Hb & Hp & Hi & Hq). split_and!; try done.
  exists repository. split; [|done]. unfold or_throw in Hrepo. destruct (normalizeRepository _); [|done].
  by injection Hrepo as ->.
Qed.

(** ** The command *)

(** The task is finished under a review and a confirmation, and the intent to close
    its issue is recorded. *)
Definition done_with_close (i : MarkTaskDoneInput) (task : TaskDto) (s s' : issue_tables) : Prop :=
  (∃ review, admits i (ib_tasks s) review) ∧ (∃ d, confirms i (ib_tasks s) d)
  ∧ (∃ me t w, uuid_in (tc_orgId (md_context i)) = Some me ∧ uuid_in (md_taskId i) = Some t
       ∧ uuid_in (tc_workspaceId (md_context i)) = Some w
       ∧ tb_tasks (ib_tasks s') =
           update_where (is_task me t w) (set_place TsDone (done_position i) (ib_now s)) (tb_tasks (ib_tasks s)))
  ∧ intent_recorded (md_context i) task s s'.

(** No task and no entry, projection or intent has changed. *)
Definition undone (s s' : issue_tables) : Prop :=
  tb_tasks (ib_tasks s') = tb_tasks (ib_tasks s) ∧ ib_outbox s' = ib_outbox s ∧ ib_projections s' = ib_projections s
  ∧ ib_intents s' = ib_intents s.

#[export] Instance undone_preorder : PreOrder undone.
Proof. split; [done|]. intros s1 s2 s3 (? & ? & ? & ?) (? & ? & ? & ?). split_and!; congruence. Qed.

Lemma untouched_undone s s' : untouched s s' → undone s s'.
Proof. by intros [(_ & ? & _) (? & ? & ?)]. Qed.

Lemma intent_recorded_from cx task s s1 s' :
  ib_outbox s1 = ib_outbox s → ib_now s1 = ib_now s → intent_recorded cx task s1 s' → intent_recorded cx task s s'.
Proof. intros Ho Hn. unfold intent_recorded, queued. by rewrite Ho, Hn. Qed.

Lemma done_close_run i dependencies s marked answer s' :
  well_formed (ib_tasks s) →
  done_close_in (tc_orgId (md_context i)) i dependencies s = (Returned (marked, answer), s') →
  (undone s s' ∧ ¬ succeeded answer)
  ∨ ∃ task outbox, done_with_close i task s s' ∧ marked = mkDoneOutcome (ok task) None ∧
      answer = ok (mkDoneClose task (linked_intent task outbox)).
Proof.
  intros Hwf Hrun. apply bind_returned in Hrun as (m & s1 & Hmark & Hrun).
  rewrite lifted_markTaskDoneInTransaction in Hmark. unfold in_tasks in Hmark.
  destruct (markTaskDoneInTransaction _ i (ib_tasks s)) as [r0 t0] eqn:Hdone. injection Hmark as -> <-.
  apply done_transaction in Hdone as [[Hts Hno]|(rv & sc & me & t & w & Hadm & Hconf & Hcons & Hme & Ht & Hw & -> & task & ->)];
    [| |done].
  - left. destruct (do_result m) as [task|e] eqn:Hm; [by destruct Hno; exists task|].
    injection Hrun as _ <- <-. split; [done|by intros (? & ?)].
  - right. apply bind_returned in Hrun as (outbox & s2 & Henq & Hret). injection Hret as <- <- <-.
    apply enqueue_run in Henq as ((_ & Ht2 & _) & _ & _ & Hrec). exists task, outbox. split_and!; [|done..].
    assert (tb_tasks sc = tb_tasks (ib_tasks s) ∧ tb_now sc = tb_now (ib_tasks s)) as [Hsc Hnow]
      by (destruct Hcons as (? & ? & ? & ? & ? & ? & ? & ? & ? & ? & ->); done).
    split_and!; [by exists rv|done| |].
    + exists me, t, w. split_and!; [done..|]. rewrite Ht2. simpl. by rewrite Hsc.
    + eapply intent_recorded_from; [| |exact Hrec]; [done|]. unfold ib_now. simpl. by rewrite Hnow.
Qed.

Lemma audit_untouched {A} (m : M issue_tables A) s r s' : sends auditing m → m s = (r, s') → untouched s s'.
Proof.
  intros Hm. apply (sends_run auditing m untouched s r s' Hm _). intros tenant q t (a & ->).
  change (execute_task tenant ?q t) with (in_tasks (execute_tables tenant q) t). unfold in_tasks.
  destruct (execute_tables tenant (InsertTerminalAttempt a) (ib_tasks t)) as [r1 t1] eqn:Hrun.
  split; [|done]. eapply (audit_same_board (execute_task tenant (InsertTerminalAttempt a))); [|exact Hrun].
  intros R HR Hq x. apply Hq. by exists a.
Qed.

Lemma markTaskDoneAndEnqueueIssueClose_run i dependencies s r s' :
  well_formed (ib_tasks s) → dp_terminalAttemptAuditPort (dd_task dependencies) = None →
  markTaskDoneAndEnqueueIssueClose i dependencies s = (r, s') →
  (undone s s' ∧ ∀ answer, r ≠ Returned (ok answer))
  ∨ ∃ task outbox, done_with_close i task s s' ∧ r = Returned (ok (mkDoneClose task (linked_intent task outbox))).
Proof.
  intros Hwf Haudit. unfold markTaskDoneAndEnqueueIssueClose, mbind at 1, M_bind at 1. cbv zeta.
  destruct (prepareMarkTaskDone i (dd_task dependencies) s) as [p s0] eqn:Hp.
  pose proof (untouched_undone _ _ (audit_untouched _ _ _ _ (sends_prepare_audits (dd_task dependencies) Haudit i) Hp)) as Hs0.
  destruct p as [[u|e]|e]; [|intros [= <- <-]; by left..].
  apply prepared_ok in Hp as (_ & _ & _ & ->). simpl. unfold try_catch.
  case_match eqn:Hbody. match goal with x : outcome (Result _) |- _ => destruct x as [res|e] end; intros [= <- <-].
  - apply bind_returned in Hbody as ([marked answer] & s1 & Ht & Hbody).
    apply bind_returned in Hbody as (u' & s2 & Happend & Hret). injection Hret as <- <-.
    apply inTransaction_state in Ht as [(a & [= <-] & Ht)|(e & ? & _)]; [|done].
    apply done_close_run in Ht as [[Hun Hno]|(task & outbox & Hd & -> & ->)]; [| |done].
    + left. split; [|intros ? [= ->]; by destruct Hno; eexists].
      transitivity s1; [done|]. eapply untouched_undone, audit_untouched; [|exact Happend].
      by apply sends_rejection_audits.
    + right. injection Happend as _ <-. by exists task, outbox.
  - left. split; [|done]. apply bind_thrown in Hbody as [Ht|([marked answer] & s1 & Ht & Hbody)].
    + apply inTransaction_state in Ht as [(a & ? & _)|(? & _ & ->)]; done.
    + apply inTransaction_state in Ht as [(a & [= <-] & Ht)|(? & ? & _)]; [|done].
      apply done_close_run in Ht as [[Hun _]|(task & outbox & _ & -> & _)]; [| |done].
      * apply bind_thrown in Hbody as [Happend|(? & ? & _ & ?)]; [|done].
        transitivity s1; [done|]. eapply untouched_undone, audit_untouched; [|exact Happend]. by apply sends_rejection_audits.
      * apply bind_thrown in Hbody as [Happend|(? & ? & _ & ?)]; done.
Qed.
End lifting.
