(* ===== verification/IssueDrain.v ===== *)
(** * Project Management: the close outbox drains

    A worker that passes over the outbox of a repository again and again, with a
    tracker that always answers something: what one pass makes of the entries that
    are due, and how many passes settle them all. *)
From S2P Require Import Prelude JsString JsValue SharedKernel Effects DevBoardDomain JsText RuntimeDomain.
From S2P Require Import TenantContext RuntimeSql RuntimeTables Authorization TaskDomain TaskSql TaskInputs TaskServices.
From S2P Require Import TaskTables TaskFrame TaskInvariant TaskGoverned IssueSql IssueServices IssueTables IssueFrame OutboxRules.
Import IssueServices.

(** ** Times *)

(** The times a [Date] can hold. *)
Definition date_range (t : Z) : Prop := (-8640000000000000 <= t <= 8640000000000000)%Z.

Definition timely (r : outbox_rec) : Prop :=
  date_range (br_next r) ∧ date_range (br_created r) ∧ date_range (br_updated r)
  ∧ (∀ t, br_claimed r = Some t → date_range t) ∧ (∀ t, br_closed r = Some t → date_range t).

Lemma date_range_text t : date_range t → ∃ text, toISOString t = Some text.
Proof.
  intros [Hlo Hhi]. unfold toISOString. destruct (Z.ltb_spec t (-8640000000000000)); [lia|].
  destruct (Z.ltb_spec 8640000000000000 t); [lia|]. simpl. destruct (civil_from_days (t / ms_per_day)%Z) as [[? ?] ?]. by eexists.
Qed.

Section decoding.
Context {S : Type} `{NodeDates} `{OpaqueTexts} `{OpaqueNumbers}.

Definition decoded (r : outbox_rec) (dto : IssueCloseOutboxDto) : Prop :=
  (∀ s : S, rowToIssueCloseOutbox (outbox_columns r) s = (Returned dto, s))
  ∧ ox_id dto = br_id r ∧ ox_attempts dto = br_attempts r
  ∧ ∀ k, br_token r = Some k → trim k ≠ "" → ox_claimToken dto = Some k.

Lemma parse_date t : date_range t → ∃ text, ∀ s : S, parseIssueDate (CDate t) s = (Returned text, s).
Proof. intros (text & Ht)%date_range_text. exists text. intros s. simpl. unfold iso_text. simpl. by rewrite Ht. Qed.

Lemma parse_optional_date d :
  (∀ t, d = Some t → date_range t) → ∃ text, ∀ s : S, parseOptionalIssueDate (null_date d) s = (Returned text, s).
Proof.
  destruct d as [t|]; intros Hd; [|by exists None]. destruct (parse_date t) as [text Ht]; [by apply Hd|].
  exists (Some text). intros s. unfold parseOptionalIssueDate, mbind, M_bind. cbn [null_date absent]. by rewrite Ht.
Qed.

(** An entry whose times are dates can be decoded. *)
Lemma timely_decoded r : timely r → ∃ dto, decoded r dto.
Proof.
  intros (Hn & Hc & Hu & Hcl & Hcd).
  destruct (parse_date _ Hn) as [n En], (parse_date _ Hc) as [c Ec], (parse_date _ Hu) as [u Eu],
    (parse_optional_date _ Hcl) as [cl Ecl], (parse_optional_date _ Hcd) as [cd Ecd].
  eexists. split_and!.
  - intros s. unfold rowToIssueCloseOutbox, mbind, M_bind.
    change (column "next_attempt_at" (outbox_columns r)) with (CDate (br_next r)). rewrite En.
    change (column "claimed_at" (outbox_columns r)) with (null_date (br_claimed r)). rewrite Ecl.
    change (column "created_at" (outbox_columns r)) with (CDate (br_created r)). rewrite Ec.
    change (column "updated_at" (outbox_columns r)) with (CDate (br_updated r)). rewrite Eu.
    change (column "closed_at" (outbox_columns r)) with (null_date (br_closed r)). rewrite Ecd. reflexivity.
  - reflexivity.
  - reflexivity.
  - intros k Hk Hne. cbn [ox_claimToken]. change (column "claim_token" (outbox_columns r)) with (null_text (br_token r)).
    rewrite Hk. simpl. destruct (String.eqb_spec (trim k) ""); done.
Qed.

Lemma decode_all_timely l :
  Forall timely l →
  ∃ dtos, (∀ s : S, TaskServices.decode_all rowToIssueCloseOutbox (outbox_columns <$> l) s = (Returned dtos, s))
          ∧ Forall2 decoded l dtos.
Proof.
  induction 1 as [|r l Hr _ (dtos & Hd & Hall)]; [by exists []|].
  destruct (timely_decoded r Hr) as (dto & Hdto). exists (dto :: dtos). split; [|by constructor].
  intros s. simpl. unfold mbind, M_bind. by rewrite (proj1 Hdto), Hd.
Qed.
End decoding.

Notation entry_identity :=
  (string * string * string * string * (string * Z * string) * (string * IssueTrackerCloseReason * Z))%type (only parsing).

(** ** A pass *)

Section drain.
#[local] Set Default Proof Using "Type*".
Context `{PostgresUuids} `{TenantDatabase} `{NodeDates} `{OpaqueTexts} `{OpaqueNumbers} `{ErrorTexts}.
Context (cx : TaskApplicationContext) (me w repository : string) (maxAttempts timeout limit : Z).
Context (tracker : IssueTrackerPort issue_tables).
Hypothesis Hme : uuid_in (tc_orgId cx) = Some me.
Hypothesis Hw : uuid_in (tc_workspaceId cx) = Some w.
Hypothesis Hguard : ∃ u, ∀ s : issue_tables, tenant_guard (tc_orgId cx) s = (Returned u, s).
Hypothesis Htokens : ∀ n, trim (gen_uuid n) ≠ "".
Hypothesis Htracker : ∀ i s, ∃ r, closeIssue tracker i s = (Returned r, s).

Lemma transaction_returned {A} (fn : M issue_tables A) s a s' :
  fn s = (Returned a, s') → inTransaction (tc_orgId cx) fn s = (Returned a, s').
Proof.
  destruct Hguard as [u Hu]. intros Hfn. unfold inTransaction. by rewrite withTenant_guard, Hu, Hfn.
Qed.

Definition mine : outbox_rec → Prop := in_queue me w repository.

(** An entry that waits to be retried after [n] passes. *)
Definition retrying (n now : Z) (r : outbox_rec) : Prop :=
  br_state r = ObFailed ∧ (n + 1 <= br_attempts r < maxAttempts)%Z ∧ (br_next r <= now + 300000 * maxAttempts)%Z.

(** An entry in progress under the claim a worker was given. *)
Definition held (n : Z) (entry : IssueCloseOutboxDto) (r : outbox_rec) : Prop :=
  mine r ∧ br_state r = ObProcessing ∧ (n <= br_attempts r < maxAttempts)%Z
  ∧ (∃ m, br_token r = Some (gen_uuid m)) ∧ ox_claimToken entry = br_token r
  ∧ ox_id entry = br_id r ∧ ox_attempts entry = br_attempts r.

(** In the middle of a pass, with the entries still to be processed. *)
Record passing issues (n now : Z) (entries : list IssueCloseOutboxDto) (s : issue_tables) : Prop := {
  ps_ok : outbox_ok s;
  ps_now : ib_now s = now;
  ps_issues : entry_issue <$> ib_outbox s = issues;
  ps_timely : Forall timely (ib_outbox s);
  ps_entries : Forall (λ entry, ∃ r, r ∈ ib_outbox s ∧ held n entry r) entries;
  ps_ids : NoDup (ox_id <$> entries);
  ps_rows : ∀ r, r ∈ ib_outbox s → mine r →
    ¬ unsettled r ∨ retrying n now r ∨ ∃ entry, entry ∈ entries ∧ held n entry r;
}.

Lemma same_row s r r' : outbox_ok s → r ∈ ib_outbox s → r' ∈ ib_outbox s → br_id r = br_id r' → r = r'.
Proof. intros [_ [Hnd _] _ _ _]. by apply fmap_unique. Qed.

(** The statement that settles a held entry. *)
Lemma settle_held n entry r state closed lastError s :
  outbox_ok s → r ∈ ib_outbox s → held n entry r →
  let P := is_claim me (ox_id entry) w (ox_claimToken entry) in
  let f := settled state closed lastError (ib_now s) in
  execute_issue (tc_orgId cx)
    (SettleOutbox (ox_id entry) (tc_workspaceId cx) (ox_claimToken entry) state closed lastError) s
  = (Returned (RowArray (outbox_columns ∘ f <$> filter P (ib_outbox s))), on_outbox (update_where P f) s).
Proof.
  intros Hok Hr ((_ & _ & _) & _ & _ & (m & Hm) & Htok & Hid & _) P f.
  assert (uuid_in (ox_id entry) = Some (ox_id entry)) as Hin.
  { rewrite Hid. destruct (ok_ids _ Hok) as [_ Hi]. eapply Forall_forall in Hi as (j & _ & ->); [apply uuid_in_gen|].
    by apply list_elem_of_fmap_2. }
  unfold execute_issue, issue_tables_driver, execute_issue_tables, issue_uuid, mbind, M_bind, get_state.
  rewrite Hme, Hin, Hw. unfold P. rewrite Htok, Hm, uuid_in_gen. reflexivity.
Qed.

Lemma settled_timely n now r state closed lastError :
  (0 <= n)%Z → date_range now → date_range (now + 300000 * maxAttempts)%Z → (n <= br_attempts r < maxAttempts)%Z →
  timely r → timely (settled state closed lastError now r).
Proof.
  unfold date_range. intros Hpos Hnow Hlast Ha (Hn & Hc & Hu & Hcl & Hcd).
  assert (300000 * 1 <= retry_delay (br_attempts r) <= 300000 * maxAttempts)%Z as Hdelay by (unfold retry_delay; lia).
  split; [|split; [done|split; [done|split; [done|]]]]; unfold settled, date_range; simpl.
  - destruct closed; lia.
  - intros t Ht. destruct closed; [by injection Ht as <-|by apply Hcd].
Qed.

(** What the settlement of its answer makes of a held entry. *)
Lemma settled_row {A} n now entry (closed : Result A) r state success lastError :
  (0 <= n)%Z → held n entry r → state = settled_state closed (ox_attempts entry) maxAttempts →
  success = (match closed with ok _ => true | err _ => false end) →
  let r' := settled state success lastError now r in
  ¬ unsettled r' ∨ retrying n now r'.
Proof.
  intros Hn (_ & _ & Ha & _ & _ & _ & Hat) -> ->. unfold settled_state, unsettled, retrying, settled, retry_delay.
  destruct closed; simpl; [left; tauto|]. rewrite Hat. destruct (Z.leb_spec maxAttempts (br_attempts r + 1)); simpl;
    [left; tauto|right]. split_and!; [done|lia|lia|lia].
Qed.

(** The outbox once a held entry is settled. *)
Section settle.
Context (issues : list entry_identity).
Context (n now : Z) (entry : IssueCloseOutboxDto) (entries : list IssueCloseOutboxDto) (s : issue_tables) (r : outbox_rec).
Context {A : Type} (closed : Result A).
Context (Hn : (0 <= n)%Z) (Hnow : date_range now) (Hlast : date_range (now + 300000 * maxAttempts)%Z).
Context (Hpass : passing issues n now (entry :: entries) s) (Hr : r ∈ ib_outbox s) (Hheld : held n entry r).
Let state := settled_state closed (ox_attempts entry) maxAttempts.
Let success := match closed with ok _ => true | err _ => false end.
Let lastError := match closed with ok _ => None | err e => Some (error_message e) end.
Let P := is_claim me (ox_id entry) w (ox_claimToken entry).
Let f := settled state success lastError (ib_now s).

Lemma settle_held_row x : x ∈ ib_outbox s → P x ↔ x = r.
Proof.
  intros Hx. destruct Hheld as ((Ho & Hws & _) & _ & _ & (m & Hm) & Htok & Hid & _). split.
  - intros (_ & Hxid & _). apply (same_row s); [apply Hpass|done|done|congruence].
  - intros ->. split_and!; [done|done|done|congruence|done].
Qed.

Lemma settle_held_timely x : x ∈ ib_outbox s → P x → timely (f x).
Proof.
  intros Hx ->%settle_held_row; [|done]. unfold f. rewrite (ps_now _ _ _ _ _ Hpass).
  pose proof (ps_timely _ _ _ _ _ Hpass) as Ht. eapply Forall_forall in Ht; [|exact Hr].
  eapply settled_timely; [exact Hn|done|done|apply Hheld|done].
Qed.

Lemma settle_held_later : outbox_later s (on_outbox (update_where P f) s).
Proof.
  assert (Hq : coherent (SettleOutbox (ox_id entry) (tc_workspaceId cx) (ox_claimToken entry) state success lastError)).
  { unfold state, success, lastError. destruct closed; simpl; [done|]. split; [|done]. destruct (_ <=? _)%Z; auto. }
  pose proof (execute_issue_later (tc_orgId cx) _ s Hq) as Hl.
  pose proof (settle_held n entry r state success lastError s (ps_ok _ _ _ _ _ Hpass) Hr Hheld) as Hrun.
  unfold execute_issue in Hrun. simpl in Hrun. rewrite Hrun in Hl. exact Hl.
Qed.

Lemma settle_held_passing : passing issues n now entries (on_outbox (update_where P f) s).
Proof.
  destruct Hpass as [Hok Hclock Hissues Ht He Hids Hrows]. rewrite fmap_cons in Hids.
  apply NoDup_cons in Hids as [Hfresh Hids]. apply Forall_cons in He as [_ He]. constructor.
  - by destruct (settle_held_later Hok).
  - done.
  - rewrite <- Hissues. simpl. unfold update_where. rewrite <- list_fmap_compose. apply list_fmap_ext.
    intros i x _. simpl. by case_decide.
  - apply Forall_forall. intros x (y & Hy & [[HPy ->]|[_ ->]])%elem_of_update_where; [by apply settle_held_timely|].
    by eapply Forall_forall in Ht.
  - apply Forall_forall. intros e Hin. eapply Forall_forall in He as (x & Hx & Hhx); [|exact Hin]. exists x.
    split; [|done]. apply list_elem_of_fmap. exists x. split; [|done]. rewrite decide_False; [done|].
    intros (_ & Hxid & _). apply Hfresh. destruct Hhx as (_ & _ & _ & _ & _ & Hex & _).
    rewrite <- Hxid, <- Hex. by apply list_elem_of_fmap_2.
  - done.
  - intros x (y & Hy & [[HPy ->]|[HPy ->]])%elem_of_update_where Hx.
    + apply settle_held_row in HPy as ->; [|done]. unfold f. rewrite Hclock.
      destruct (settled_row n now entry closed r state success lastError Hn Hheld eq_refl eq_refl); auto.
    + destruct (Hrows y Hy Hx) as [?|[?|(e & [->|Hin]%elem_of_cons & Hhy)]]; [by left|by right; left| |].
      * exfalso. apply HPy. destruct Hhy as ((? & ? & _) & _ & _ & (m' & Hm') & ? & ? & _).
        split_and!; congruence || done.
      * right. right. by exists e.
Qed.

(** The answer of the settlement can be decoded. *)
Lemma settle_held_answers :
  ∃ saved, (row ← issue_row (tc_orgId cx)
              (SettleOutbox (ox_id entry) (tc_workspaceId cx) (ox_claimToken entry) state success lastError);
            TaskServices.decode_null rowToIssueCloseOutbox row) s
           = (Returned saved, on_outbox (update_where P f) s).
Proof.
  pose proof (settle_held n entry r state success lastError s (ps_ok _ _ _ _ _ Hpass) Hr Hheld) as Hrun.
  cbv zeta in Hrun. fold P f in Hrun.
  destruct (filter P (ib_outbox s)) as [|x l] eqn:Hfl.
  - exfalso. eapply (filter_nil_not_elem_of P); [exact Hfl|by apply settle_held_row|exact Hr].
  - assert (x ∈ filter P (ib_outbox s)) as [HPx Hx]%list_elem_of_filter by (rewrite Hfl; by left).
    destruct (timely_decoded (S := issue_tables) (f x) (settle_held_timely x Hx HPx)) as (dto & Hdto & _).
    exists (Some dto). unfold issue_row, issue_rows, mbind, M_bind. rewrite Hrun. simpl.
    unfold mbind, M_bind. by rewrite Hdto.
Qed.
End settle.

(** One entry of a pass. *)
Lemma pass_entry issues n now entry entries s :
  (0 <= n)%Z → date_range now → date_range (now + 300000 * maxAttempts)%Z → passing issues n now (entry :: entries) s →
  ∃ saved s', process_entry tracker cx maxAttempts entry s = (Returned saved, s') ∧ passing issues n now entries s'.
Proof.
  intros Hn Hnow Hlast Hpass.
  pose proof (ps_entries _ _ _ _ _ Hpass) as [(r & Hr & Hheld) _]%Forall_cons.
  destruct (Htracker (mkCloseIssue (mkIssueRef (ox_repository entry) (ox_issueNumber entry) (ox_issueUrl entry))
    (ox_closeReason entry)) s) as [closed Hclosed].
  destruct (settle_held_answers issues n now entry entries s r closed Hn Hnow Hlast Hpass Hr Hheld) as [saved Hsaved].
  eexists saved, _. split; [|by apply (settle_held_passing issues n now entry entries s r closed)].
  unfold process_entry, mbind at 1, M_bind at 1. rewrite Hclosed. by apply transaction_returned.
Qed.

Lemma pass_entries issues n now entries s :
  (0 <= n)%Z → date_range now → date_range (now + 300000 * maxAttempts)%Z → passing issues n now entries s →
  ∃ processed s', process_entries tracker cx maxAttempts entries s = (Returned processed, s') ∧ passing issues n now [] s'.
Proof.
  intros Hn Hnow Hlast. revert s. induction entries as [|entry entries IH]; intros s Hpass; [by exists [], s|].
  destruct (pass_entry issues n now entry entries s Hn Hnow Hlast Hpass) as (saved & s1 & Hrun & Hpass1).
  destruct (IH s1 Hpass1) as (rest & s2 & Hrest & Hpass2). eexists _, s2. split; [|done].
  simpl. unfold mbind, M_bind. rewrite Hrun, Hrest. reflexivity.
Qed.

(** *** The claim *)

(** Between two passes: the entries that are not settled are due, and have been
    tried as often as there were passes. *)
Record waiting (issues : list entry_identity) (n : Z) (s : issue_tables) : Prop := {
  wt_ok : outbox_ok s;
  wt_issues : entry_issue <$> ib_outbox s = issues;
  wt_timely : Forall timely (ib_outbox s);
  wt_room : (Z.of_nat (length (filter mine (ib_outbox s))) <= limit)%Z;
  wt_rows : ∀ r, r ∈ ib_outbox s → mine r → ¬ unsettled r ∨ ((n <= br_attempts r)%Z ∧ due (ib_now s) timeout r);
}.

Lemma issue_mine r r' : entry_issue r' = entry_issue r → mine r' ↔ mine r.
Proof.
  unfold entry_issue, mine, in_queue. intros Heq. injection Heq as _ Ho Hws _ Hr _ _ _ _ _. by rewrite Ho, Hws, Hr.
Qed.

Lemma issues_mine l l' :
  entry_issue <$> l' = entry_issue <$> l → length (filter mine l') = length (filter mine l).
Proof.
  revert l'. induction l as [|r l IH]; intros [|r' l']; try done. rewrite !fmap_cons. intros [Hissue Hl]%(inj2 cons).
  rewrite !filter_cons. pose proof (issue_mine r r' Hissue) as Hm. specialize (IH l' Hl).
  destruct (decide (mine r')), (decide (mine r)); simpl; tauto || congruence.
Qed.

(** After the exhausted entries are buried. *)
Lemma exhaust_waiting issues n s :
  date_range (ib_now s) → waiting issues n s →
  ∃ s1, execute_issue (tc_orgId cx) (ExhaustOutbox (tc_workspaceId cx) repository maxAttempts) s = (Returned (RowArray []), s1)
    ∧ ib_now s1 = ib_now s ∧ waiting issues n s1
    ∧ ∀ r, r ∈ ib_outbox s1 → mine r → unsettled r → (br_attempts r < maxAttempts)%Z.
Proof.
  intros Hnow [Hok Hissues Ht Hroom Hrows].
  set (P := exhausted me w repository maxAttempts). set (s1 := on_outbox (update_where P (buried (ib_now s))) s).
  assert (Hrun : execute_issue (tc_orgId cx) (ExhaustOutbox (tc_workspaceId cx) repository maxAttempts) s
    = (Returned (RowArray []), s1)).
  { unfold execute_issue, issue_tables_driver, execute_issue_tables, issue_uuid, mbind, M_bind, get_state. by rewrite Hme, Hw. }
  pose proof (execute_issue_later (tc_orgId cx) (ExhaustOutbox (tc_workspaceId cx) repository maxAttempts) s I) as Hlater.
  unfold execute_issue in Hrun. simpl in Hrun. rewrite Hrun in Hlater. exists s1. split; [done|]. split; [done|].
  assert (Hissues1 : entry_issue <$> ib_outbox s1 = issues).
  { rewrite <- Hissues. simpl. unfold update_where. rewrite <- list_fmap_compose. apply list_fmap_ext.
    intros i x _. simpl. by case_decide. }
  split; [constructor|].
  - by destruct (Hlater Hok).
  - done.
  - apply Forall_forall. intros x (y & Hy & Hx)%elem_of_update_where. eapply Forall_forall in Ht; [|exact Hy].
    destruct Hx as [[_ ->]|[_ ->]]; [|done]. destruct Ht as (? & ? & ? & ? & ?). by split_and!.
  - by rewrite (issues_mine (ib_outbox s)) by congruence.
  - intros x (y & Hy & [[HP ->]|[_ ->]])%elem_of_update_where Hx; [left; unfold unsettled; simpl; tauto|by apply Hrows].
  - intros x (y & Hy & [[HP ->]|[HP ->]])%elem_of_update_where Hx Hun; [destruct Hun as [_ Hd]; by destruct Hd|].
    destruct (Z.lt_ge_cases (br_attempts y) maxAttempts) as [?|Hge]; [done|]. exfalso. apply HP. by split_and!.
Qed.

(** With room for the whole queue, every claimable entry is a candidate. *)
Lemma all_candidates now l r :
  (Z.of_nat (length (filter mine l)) <= limit)%Z → r ∈ l →
  claimable me w repository maxAttempts now timeout r →
  br_id r ∈ candidates me w repository maxAttempts now timeout limit l.
Proof.
  intros Hroom Hr Hc. apply list_elem_of_fmap. exists r. split; [done|]. rewrite take_ge.
  - unfold order_by. rewrite merge_sort_Permutation. by apply list_elem_of_filter.
  - unfold order_by. rewrite (Permutation_length (merge_sort_Permutation _ _)).
    assert (length (filter (claimable me w repository maxAttempts now timeout) l) <= length (filter mine l)); [|lia].
    clear. induction l as [|x l IH]; [done|]. rewrite !filter_cons. unfold claimable at 1, mine at 1.
    repeat case_decide; simpl; try lia. tauto.
Qed.

(** The rows after a claim, which finds those of the candidates. *)
Lemma claimed_rows s table found u :
  outbox_ok s →
  let ids := candidates me w repository maxAttempts (ib_now s) timeout limit (ib_outbox s) in
  claim_rows ids (ib_now s) (ib_uuids s) (ib_outbox s) = (table, found, u) →
  found = filter (λ r, br_id r ∈ ids) table ∧
  ∀ y, y ∈ table → ∃ x, x ∈ ib_outbox s ∧
    ((br_id x ∉ ids ∧ y = x) ∨
     (br_id x ∈ ids ∧ claimable me w repository maxAttempts (ib_now s) timeout x ∧
      ∃ k, y = claimed_by (gen_uuid k) (ib_now s) x)).
Proof.
  intros Hok ids Hclaim. apply claim_rows_spec in Hclaim as (_ & Hall & -> & _). split; [done|].
  intros y [i Hy]%list_elem_of_lookup. eapply Forall2_lookup_r in Hall as (x & Hx & Hrow); [|exact Hy].
  apply list_elem_of_lookup_2 in Hx. exists x. split; [done|]. destruct Hrow as [?|(Hin & k & _ & ->)]; [by left|right].
  split; [done|]. split; [|by exists k]. apply candidates_unsettled in Hin as (x' & Hx' & Hid & Hc).
  by rewrite (same_row s x x').
Qed.

Lemma claimed_passing issues n s table found u entries :
  date_range (ib_now s) → waiting issues n s →
  (∀ r, r ∈ ib_outbox s → mine r → unsettled r → (br_attempts r < maxAttempts)%Z) →
  claim_rows (candidates me w repository maxAttempts (ib_now s) timeout limit (ib_outbox s)) (ib_now s) (ib_uuids s)
    (ib_outbox s) = (table, found, u) →
  let s' := on_task_tables (with_uuids u) (on_outbox (λ _, table) s) in
  outbox_ok s' → entry_issue <$> table = issues → Forall2 (decoded (S := issue_tables)) found entries →
  passing issues n (ib_now s) entries s'.
Proof.
  intros Hnow [Hok Hissues Ht Hroom Hrows] Hmax Hclaim s' Hok' Hissues' Hdec.
  pose proof (λ r, all_candidates (ib_now s) (ib_outbox s) r Hroom) as Hall.
  destruct (claimed_rows s table found u Hok Hclaim) as [Hfound Htable].
  set (ids := candidates _ _ _ _ _ _ _ _) in *.
  assert (Hheld : ∀ y x k e, x ∈ ib_outbox s → claimable me w repository maxAttempts (ib_now s) timeout x →
    y = claimed_by (gen_uuid k) (ib_now s) x → decoded (S := issue_tables) y e → held n e y).
  { intros y x k e Hx (Hm & Hlt & Hd) -> (_ & Hid & Hat & Htok).
    assert (unsettled x) as Hun by (by eapply claimable_unsettled).
    destruct (Hrows x Hx Hm) as [?|[Hn _]]; [done|]. split_and!; [apply Hm..|done|done|done|by exists k| |done|done].
    simpl. by apply Htok. }
  constructor.
  - done.
  - done.
  - done.
  - apply Forall_forall. intros y (x & Hx & [[_ ->]|(_ & _ & k & ->)])%Htable; (eapply Forall_forall in Ht; [|exact Hx]); [done|].
    destruct Ht as (? & ? & ? & ? & ?). split_and!; try done. simpl. by intros t [= <-].
  - apply Forall_forall. intros e [i He]%list_elem_of_lookup. eapply Forall2_lookup_r in Hdec as (y & Hy & Hye); [|exact He].
    apply list_elem_of_lookup_2 in Hy. rewrite Hfound in Hy. apply list_elem_of_filter in Hy as [Hin Hy]. exists y.
    split; [done|]. destruct (Htable y Hy) as (x & Hx & [[Hno ->]|(_ & Hc & k & Heq)]); [done|]. by eapply Hheld.
  - assert (ox_id <$> entries = br_id <$> found) as ->.
    { clear -Hdec. induction Hdec as [|y e found entries (_ & Hid & _) _ IH]; [done|]. rewrite !fmap_cons. by f_equal. }
    rewrite Hfound. eapply sublist_NoDup; [apply (ok_ids _ Hok')|]. apply fmap_sublist, sublist_filter.
  - intros y Hy Hm. destruct (Htable y Hy) as (x & Hx & [[Hno ->]|(Hin & Hc & k & Heq)]).
    + destruct (Hrows x Hx Hm) as [?|[Hn Hd]]; [by left|]. destruct (decide (unsettled x)) as [Hun|?]; [|by left].
      exfalso. apply Hno, Hall; [done|]. split_and!; [apply Hm..|by apply Hmax|done].
    + right. right. assert (y ∈ found) as [i Hyi]%list_elem_of_lookup.
      { rewrite Hfound. apply list_elem_of_filter. split; [by rewrite Heq|done]. }
      eapply Forall2_lookup_l in Hdec as (e & He & Hye); [|exact Hyi]. exists e.
      split; [by eapply list_elem_of_lookup_2|by eapply Hheld].
Qed.

(** The claim of a pass. *)
Lemma claim_pass issues n s :
  date_range (ib_now s) → waiting issues n s →
  ∃ entries s1, claim_entries (tc_orgId cx) (tc_workspaceId cx) repository maxAttempts timeout limit s = (Returned entries, s1)
    ∧ passing issues n (ib_now s) entries s1.
Proof.
  intros Hnow Hwait. destruct (exhaust_waiting issues n s Hnow Hwait) as (s1 & Hex & Hclock & Hwait1 & Hmax).
  set (q := ClaimOutbox (tc_workspaceId cx) repository maxAttempts timeout limit).
  pose proof (execute_issue_later (tc_orgId cx) q s1 I) as Hlater.
  assert (Hrun : execute_issue (tc_orgId cx) q s1 = claim_outbox me w repository maxAttempts timeout limit s1).
  { unfold q, execute_issue, issue_tables_driver, execute_issue_tables, issue_uuid, mbind, M_bind, get_state. by rewrite Hme, Hw. }
  pose proof Hrun as Hrun0. unfold execute_issue in Hrun0. simpl in Hrun0. rewrite Hrun0 in Hlater.
  unfold claim_outbox, mbind, M_bind, get_state in Hrun, Hlater.
  destruct (claim_rows _ (ib_now s1) (ib_uuids s1) (ib_outbox s1)) as [[table found] u] eqn:Hclaim.
  set (s2 := on_task_tables (with_uuids u) (on_outbox (λ _, table) s1)).
  destruct (Hlater (wt_ok _ _ _ Hwait1)) as (Hok2 & _ & _).
  assert (Htimes : Forall timely found).
  { apply Forall_forall. intros y Hy. destruct (claimed_rows s1 table found u (wt_ok _ _ _ Hwait1) Hclaim) as [Hf Htable].
    rewrite Hf in Hy. apply list_elem_of_filter in Hy as [_ Hy].
    destruct (Htable y Hy) as (x & Hx & Hrow). pose proof (wt_timely _ _ _ Hwait1) as Ht.
    eapply Forall_forall in Ht; [|exact Hx]. destruct Hrow as [[_ ->]|(_ & _ & k & ->)]; [done|].
    rewrite Hclock. destruct Ht as (? & ? & ? & ? & ?). split_and!; try done. simpl. by intros t [= <-]. }
  destruct (decode_all_timely (S := issue_tables) found Htimes) as (entries & Hdec & Hall). exists entries, s2. split.
  - unfold claim_entries, issue_rows, mbind, M_bind. rewrite Hex. fold q. rewrite Hrun. apply Hdec.
  - rewrite <- Hclock. eapply claimed_passing; [by rewrite Hclock|exact Hwait1|done|exact Hclaim|done| |done].
    rewrite <- (wt_issues _ _ _ Hwait1). apply claim_rows_spec in Hclaim as (_ & Hrows & _). symmetry.
    clear -Hrows. induction Hrows as [|x y l table [[_ ->]|(_ & k & _ & ->)] _ IH]; [done| |]; rewrite !fmap_cons; by f_equal.
Qed.

(** *** Passes *)

Context (input : ProcessIssueCloseOutboxInput) (dependencies : IssueApplicationDependencies (S := issue_tables)).
Hypothesis Hcx : po_context input = cx.
Hypothesis Hrepository : normalizeRepository (po_repository input) = ok repository.
Hypothesis Hlimit : outboxLimit input = ok limit.
Hypothesis Htimeout : outboxProcessingTimeout input = ok timeout.
Hypothesis Hattempts : outboxMaxAttempts input = ok maxAttempts.
Hypothesis Hport : di_issueTrackerPort dependencies = Some tracker.
Hypothesis Hknown : ∀ s : issue_tables, assertKnownContext cx s = (Returned (ok tt), s).
Hypothesis Hallowed : ∀ s : issue_tables,
  authorizeIssue cx ActUpdate (default defaultTaskAuthorizationPort (di_authorizationPort dependencies)) s
  = (Returned (ok tt), s).

(** A pass answers, and leaves every entry settled or waiting to be retried. *)
Lemma pass_outbox issues n s :
  (0 <= n)%Z → date_range (ib_now s) → date_range (ib_now s + 300000 * maxAttempts)%Z → waiting issues n s →
  ∃ processed s', processIssueCloseOutbox input dependencies s = (Returned (ok processed), s')
    ∧ passing issues n (ib_now s) [] s'.
Proof.
  intros Hn Hnow Hlast Hwait.
  destruct (claim_pass issues n s Hnow Hwait) as (entries & s1 & Hclaim & Hpass).
  destruct (pass_entries issues n (ib_now s) entries s1 Hn Hnow Hlast Hpass) as (processed & s2 & Hrun & Hpass2).
  exists processed, s2. split; [|done].
  unfold processIssueCloseOutbox, in_repository, authorized, TaskServices.require, trackerRequired. rewrite Hcx.
  unfold mbind at 1, M_bind at 1. rewrite Hknown, Hrepository, Hport.
  unfold mbind at 1, M_bind at 1. rewrite Hallowed, Hlimit, Htimeout, Hattempts.
  unfold try_catch, mbind, M_bind. rewrite (transaction_returned _ _ _ _ Hclaim), Hrun. reflexivity.
Qed.

(** After the delay of the last retry the entries left are due again. *)
Lemma passing_waiting issues n now now' s :
  date_range now' → (now + 300000 * maxAttempts <= now')%Z →
  (Z.of_nat (length (filter mine (ib_outbox s))) <= limit)%Z → passing issues n now [] s →
  waiting issues (n + 1) (on_task_tables (with_clock now') s).
Proof.
  intros Hnow' Hle Hroom [Hok Hclock Hissues Ht _ _ Hrows]. constructor; [|done|done|done|].
  - assert (outbox_later s (on_task_tables (with_clock now') s)) as Hl by (by apply later_same). by destruct (Hl Hok).
  - intros r Hr Hm. destruct (Hrows r Hr Hm) as [?|[(Hst & Ha & Hnext)|(e & He%elem_of_nil & _)]]; [by left| |done].
    right. split; [lia|]. unfold due. rewrite Hst. unfold ib_now. simpl. lia.
Qed.

(** A worker that passes at given times. *)
Fixpoint drain (times : list Z) (s : issue_tables) : issue_tables :=
  match times with
  | [] => s
  | now :: times => drain times (processIssueCloseOutbox input dependencies (on_task_tables (with_clock now) s)).2
  end.

(** The times are dates, each far enough from the one before. *)
Fixpoint spaced (last : Z) (times : list Z) : Prop :=
  match times with
  | [] => True
  | now :: times =>
      (last + 300000 * maxAttempts <= now)%Z ∧ date_range now ∧ date_range (now + 300000 * maxAttempts)%Z ∧ spaced now times
  end.

Lemma drain_settles issues n now times s :
  (0 <= n)%Z → spaced now times → (Z.of_nat (length (filter mine (ib_outbox s))) <= limit)%Z →
  passing issues n now [] s → (maxAttempts <= n + 1 + Z.of_nat (length times))%Z →
  entry_issue <$> ib_outbox (drain times s) = issues
  ∧ ∀ r, r ∈ ib_outbox (drain times s) → mine r → ¬ unsettled r.
Proof.
  revert n now s. induction times as [|now' times IH]; intros n now s Hn Hsp Hroom Hpass Hlen; simpl in *.
  - split; [apply Hpass|]. intros r Hr Hm.
    destruct (ps_rows _ _ _ _ _ Hpass r Hr Hm) as [?|[(_ & Ha & _)|(e & He%elem_of_nil & _)]]; [done|lia|done].
  - destruct Hsp as (Hle & Hnow' & Hlast' & Hsp).
    pose proof (passing_waiting issues n now now' s Hnow' Hle Hroom Hpass) as Hwait.
    destruct (pass_outbox issues (n + 1) (on_task_tables (with_clock now') s) ltac:(lia) Hnow' Hlast' Hwait) as (processed & s' & -> & Hpass').
    apply (IH (n + 1)%Z now'); [lia|done| |done|lia].
    simpl. rewrite (issues_mine (ib_outbox s)); [done|].
    by rewrite (ps_issues _ _ _ _ _ Hpass'), (ps_issues _ _ _ _ _ Hpass).
Qed.

(** From an outbox whose entries are due, as many passes as there may be attempts
    settle every entry of the queue. *)
Lemma outbox_drained issues now times s :
  date_range now → date_range (now + 300000 * maxAttempts)%Z → spaced now times →
  (1 <= maxAttempts <= Z.of_nat (length (now :: times)))%Z →
  waiting issues 0 (on_task_tables (with_clock now) s) →
  entry_issue <$> ib_outbox (drain (now :: times) s) = issues
  ∧ ∀ r, r ∈ ib_outbox (drain (now :: times) s) → mine r → ¬ unsettled r.
Proof.
  intros Hnow Hlast Hsp Hlen Hwait. simpl.
  destruct (pass_outbox issues 0 (on_task_tables (with_clock now) s) ltac:(lia) Hnow Hlast Hwait) as (processed & s' & -> & Hpass).
  apply (drain_settles issues 0 now); [lia|done| |done|simpl in Hlen; lia].
  simpl. rewrite (issues_mine (ib_outbox s)); [apply (wt_room _ _ _ Hwait)|].
  by rewrite (ps_issues _ _ _ _ _ Hpass), <- (wt_issues _ _ _ Hwait).
Qed.
End drain.

(** A worker that may pass over a repository: its transactions begin, its context
    and its options are accepted, it is authorized, its tokens are not blank, and
    its tracker always answers, whatever it answers, and leaves the database alone. *)
Record worker_ready `{PostgresHost} `{TenantDatabase} `{NodeDates} `{OpaqueTexts} `{OpaqueNumbers}
    (input : ProcessIssueCloseOutboxInput) (dependencies : IssueApplicationDependencies (S := issue_tables))
    (me w repository : string) (maxAttempts timeout limit : Z) : Prop := {
  wk_org : uuid_in (tc_orgId (po_context input)) = Some me;
  wk_workspace : uuid_in (tc_workspaceId (po_context input)) = Some w;
  wk_transactions : ∃ u, ∀ s : issue_tables, tenant_guard (tc_orgId (po_context input)) s = (Returned u, s);
  wk_tokens : ∀ n, trim (gen_uuid n) ≠ "";
  wk_tracker : ∃ tracker, di_issueTrackerPort dependencies = Some tracker ∧
    ∀ i s, ∃ r, closeIssue tracker i s = (Returned r, s);
  wk_repository : normalizeRepository (po_repository input) = ok repository;
  wk_limit : outboxLimit input = ok limit;
  wk_timeout : outboxProcessingTimeout input = ok timeout;
  wk_attempts : outboxMaxAttempts input = ok maxAttempts;
  wk_known : ∀ s : issue_tables, assertKnownContext (po_context input) s = (Returned (ok tt), s);
  wk_allowed : ∀ s : issue_tables,
    authorizeIssue (po_context input) ActUpdate (default defaultTaskAuthorizationPort (di_authorizationPort dependencies)) s
    = (Returned (ok tt), s);
}.
