(* ===== verification/IssueTheorems.v ===== *)
(** * Project Management: the properties of the issue services

    The close outbox, the atomicity of Done with its close intent, and the
    creation of issues, over the reference driver. *)
From S2P Require Import Prelude JsString JsValue SharedKernel Effects DevBoardDomain TenantContext.
From S2P Require Import JsText RuntimeDomain Authorization RuntimeSql RuntimeTables TaskDomain.
From S2P Require Import TaskSql TaskInputs TaskServices TaskReviews TaskTables TaskFrame.
From S2P Require Import TaskCommands TaskInvariant TaskGoverned TaskDone IssueSql TaskHistory.
From S2P Require Import IssueServices IssueTables IssueFrame OutboxRules IssueDone.
From S2P Require Import IssueDrain JsJson.
From Stdlib Require Import Ascii RelationClasses.

(** ** Project Management: a concrete outbox *)

Import TaskServices TaskReviews IssueServices.

Module IssueExample.
Import TaskExample.

#[local] Existing Instances example_host example_uuids example_database example_dates example_texts example_numbers example_urls.
#[local] Instance example_errors : ErrorTexts := {| error_text := λ _, "error" |}.

Definition repository : string := "acme/app".
Definition issue_seven : IssueTrackerIssue :=
  mkTrackerIssue (mkIssueRef repository 7 "https://github.com/acme/app/issues/7") "Broken link" IsOpen ["bug"] None second.

(** ** Ports *)

Definition calm_tracker (answer : Result IssueTrackerIssue) : IssueTrackerPort issue_tables :=
  mkTracker (λ _, mret (ok [issue_seven])) (λ _, mret answer) (λ _, mret answer) (λ _, mret answer).
Definition unreachable : Result IssueTrackerIssue := err (issueError "github.unavailable" "GitHub is unavailable.").

Definition dependencies (tracker : IssueTrackerPort issue_tables) : IssueApplicationDependencies (S := issue_tables) :=
  mkIssueDependencies None (Some tracker) None.
Definition no_audit : MarkTaskDoneAndEnqueueIssueCloseDependencies (S := issue_tables) :=
  mkDoneCloseDependencies (mkTaskDependencies None None) None.
Definition broken_enqueue : MarkTaskDoneAndEnqueueIssueCloseDependencies (S := issue_tables) :=
  mkDoneCloseDependencies (mkTaskDependencies None None) (Some (ExnError "fault")).
Definition ports (tracker : IssueTrackerPort issue_tables) : issue_ports := mkIssuePorts (dependencies tracker) no_audit.

(** ** A board with a linked task that can be marked Done *)

Definition linked_task_input : CreateTaskInput :=
  mkCreateTaskInput at_home "Fix the link" None JUndefined JUndefined None None DueNone (Some "github")
    (Some "github:acme/app#7") (Some "k1") None.

Definition linked_board : task_tables :=
  run_commands [CmdCreateTask linked_task_input; CmdEnsureReview card; CmdAddCheck passing_check;
                CmdApproveReview approval; CmdIssueConfirmation card] (empty_tables 1000).

Lemma linked_reachable : reachable linked_board.
Proof. exists 1000%Z. apply later_commands. Qed.

Definition prepared_issues : issue_tables := mkIssueTables linked_board [] [] [].

(** The task is Done, and its issue is to be closed. *)
Definition queued_issues : issue_tables :=
  (run_issue_command (IcDoneClose finish) (ports (calm_tracker (ok issue_seven))) prepared_issues).2.

Definition process (maxAttempts : Z) : ProcessIssueCloseOutboxInput :=
  mkProcess at_home repository None None (Some (NInt maxAttempts)).
Definition at_time (now : Z) : issue_tables → issue_tables := on_task_tables (with_clock now).

(** While the tracker is called the claim times out, and a second worker claims and
    closes the entry. *)
Definition slow_tracker : IssueTrackerPort issue_tables :=
  mkTracker (λ _, mret (ok [])) (λ _, mret (ok issue_seven)) (λ _, mret (ok issue_seven))
    (λ _ s, (Returned (ok issue_seven),
             (run_issue_command (IcProcess (process 3)) (ports (calm_tracker (ok issue_seven)))
                (at_time (ib_now s + 900000) s)).2)).

(** A request to create an issue, and a retry of it that asks for another one. *)
Definition report : CreateTrackedIssueInput := mkCreateTracked at_home repository "Broken link" None None (Some "report-1").
Definition retry : CreateTrackedIssueInput :=
  mkCreateTracked at_home "acme/site" "Other title" None None (Some " report-1 ").
Definition request i tracker := createTrackedIssue i (dependencies tracker) prepared_issues.
End IssueExample.

Import TaskServices TaskReviews IssueServices.

(** ** Generic facts *)

(** *** References *)

Lemma strip_prefix_app p s : string_forall (λ c, negb (is_alnum c) || Ascii.eqb (lower_char c) c) p = true →
  strip_prefix_i p (p +:+ s) = Some s.
Proof.
  induction p as [|c p IH]; [done|]. cbn [string_forall]. intros [Hc Hp]%andb_true_iff.
  change ((String c p) +:+ s) with (String c (p +:+ s)). cbn [strip_prefix_i].
  apply orb_true_iff in Hc. destruct (is_alnum c).
  - destruct Hc as [Hc|Hc]; [done|]. rewrite Hc. auto.
  - rewrite Ascii.eqb_refl. auto.
Qed.

Lemma split_at_app sep a b :
  string_forall (λ c, negb (Ascii.eqb c sep)) a = true → split_at sep (a +:+ String sep b) = Some (a, b).
Proof.
  induction a as [|c a IH]; [intros _; simpl; by rewrite Ascii.eqb_refl|].
  cbn [string_forall]. intros [Hc Ha]%andb_true_iff.
  change ((String c a) +:+ String sep b) with (String c (a +:+ String sep b)). cbn [split_at].
  apply negb_true_iff in Hc. rewrite Hc. by rewrite IH.
Qed.

Lemma split_slash_inv s a b : split_slash s = Some (a, b) → s = a +:+ String "/" b.
Proof.
  revert a. induction s as [|c s IH]; intros a; [done|]. simpl. destruct (Ascii.eqb_spec c "/") as [->|].
  - by intros [= <- <-].
  - destruct (split_slash s) as [[a' b']|] eqn:Hs; [|done]. intros [= <- <-]. by rewrite (IH a').
Qed.

Lemma trim_solid s : string_forall (λ c, negb (js_space c)) s = true → trim s = s.
Proof.
  intros Hs. assert (Hstart : trim_start s = s).
  { destruct s as [|c s]; [done|]. simpl in *. apply andb_true_iff in Hs as [Hc _]. by destruct (js_space c). }
  unfold trim. rewrite Hstart. clear Hstart. induction s as [|c s IH]; [done|]. simpl in *.
  apply andb_true_iff in Hs as [Hc Hs]. rewrite IH by done. destruct (js_space c); [done|]. by destruct s.
Qed.

(** *** Decimal digits *)

Lemma pretty_go_number x : (0 < x)%N → issue_number_pattern (pretty_N_go x "") = true.
Proof.
  intros Hx. destruct (pretty_go_digits x "" Hx eq_refl) as (c & r & -> & Hc & Hr). cbn [issue_number_pattern]. rewrite Hc. exact Hr.
Qed.

Lemma text_number_pretty `{OpaqueNumbers} n :
  (0 < n <= Money.max_safe_integer)%Z → issue_number_pattern (pretty n) = true ∧ text_number (pretty n) = n.
Proof.
  intros [Hn Hle]. rewrite pretty_positive by done. assert (0 < Z.to_N n)%N as HN by lia.
  pose proof (pretty_go_number (Z.to_N n) HN) as Hp. split; [done|].
  unfold text_number, cell_number. pose proof (decimal_from_pretty_go (Z.to_N n) "") as Hd. simpl in Hd.
  destruct (pretty_N_go (Z.to_N n) "") as [|c s]; [done|]. rewrite Hd, Z2N.id by lia. by rewrite (proj2 (Z.leb_le _ _) Hle).
Qed.

(** *** Texts of references *)

Definition reference_char (c : ascii) : bool :=
  is_repository_char c || Ascii.eqb c "/" || Ascii.eqb c ":" || Ascii.eqb c "#".

Lemma reference_char_solid c : reference_char c = true → negb (js_space c) = true.
Proof. by destruct c as [[] [] [] [] [] [] [] []]. Qed.
Lemma repository_char_reference c : is_repository_char c = true → reference_char c = true.
Proof. unfold reference_char. by intros ->. Qed.
Lemma repository_char_not_hash c : is_repository_char c = true → negb (Ascii.eqb c "#") = true.
Proof. by destruct c as [[] [] [] [] [] [] [] []]. Qed.
Lemma repository_char_not_slash c : is_repository_char c = true → negb (Ascii.eqb c "/") = true.
Proof. by destruct c as [[] [] [] [] [] [] [] []]. Qed.
Lemma digit_reference c : ascii_between "0" "9" c = true → reference_char c = true.
Proof. by destruct c as [[] [] [] [] [] [] [] []]. Qed.
Lemma digit_one c : ascii_between "1" "9" c = true → ascii_between "0" "9" c = true.
Proof. by destruct c as [[] [] [] [] [] [] [] []]. Qed.

Lemma number_digits s : issue_number_pattern s = true → string_forall (ascii_between "0" "9") s = true.
Proof.
  destruct s as [|c s]; [done|]. cbn [issue_number_pattern string_forall]. intros [Hc Hs]%andb_true_iff.
  by rewrite digit_one.
Qed.

Lemma repository_split s : repositoryPattern s = true →
  ∃ owner name, s = owner +:+ "/" +:+ name ∧ repository_part owner = true ∧ repository_part name = true.
Proof.
  unfold repositoryPattern. destruct (split_slash s) as [[a b]|] eqn:Hs; [|done].
  apply split_slash_inv in Hs as ->. intros [Ha Hb]%andb_true_iff. by exists a, b.
Qed.

Lemma part_chars s : repository_part s = true → string_forall is_repository_char s = true.
Proof. by intros [_ Hs]%andb_true_iff. Qed.

Lemma repository_reference s : repositoryPattern s = true → string_forall reference_char s = true.
Proof.
  intros (owner & name & -> & Ho%part_chars & Hn%part_chars)%repository_split. rewrite !string_forall_app.
  apply andb_true_iff. split; [|apply andb_true_iff; split; [done|]];
    (eapply string_forall_impl; [exact repository_char_reference|done]).
Qed.

Lemma number_reference s : issue_number_pattern s = true → string_forall reference_char s = true.
Proof. intros Hs%number_digits. eapply string_forall_impl; [exact digit_reference|done]. Qed.

Lemma reference_trimmed s : string_forall reference_char s = true → trim s = s.
Proof. intros Hs. eapply trim_solid, string_forall_impl; [exact reference_char_solid|done]. Qed.

Lemma short_ref_text repository number :
  repositoryPattern repository = true → issue_number_pattern number = true →
  let text := "github:" +:+ repository +:+ "#" +:+ number in
  trim text = text ∧ short_ref text = Some (repository, number).
Proof.
  intros Hr Hn text. split.
  - apply reference_trimmed. unfold text. rewrite !string_forall_app.
    by rewrite (repository_reference repository), (number_reference number).
  - unfold short_ref, text. rewrite (strip_prefix_app "github:") by done. simpl.
    pose proof Hr as (owner & name & -> & Ho%part_chars & Hna%part_chars)%repository_split.
    change ("#" +:+ number) with (String "#" number). rewrite split_at_app; [simpl; by rewrite Hr, Hn|].
    rewrite !string_forall_app. apply andb_true_iff. split; [|apply andb_true_iff; split; [done|]];
      (eapply string_forall_impl; [exact repository_char_not_hash|done]).
Qed.

Lemma url_ref_text repository number :
  repositoryPattern repository = true → issue_number_pattern number = true →
  let text := "https://github.com/" +:+ repository +:+ "/issues/" +:+ number in
  trim text = text ∧ short_ref text = None ∧ url_ref text = Some (repository, number).
Proof.
  intros Hr Hn text. split_and!.
  - apply reference_trimmed. unfold text. rewrite !string_forall_app.
    by rewrite (repository_reference repository), (number_reference number).
  - done.
  - unfold url_ref, text. rewrite (strip_prefix_app "https://github.com/") by done. simpl.
    pose proof Hr as (owner & name & -> & Ho & Hna)%repository_split.
    rewrite string_app_assoc. change ("/" +:+ name) with (String "/" name).
    change (String "/" name +:+ ?r) with (String "/" (name +:+ r)).
    change (String "/" (name +:+ "/issues/" +:+ number)) with (String "/" (name +:+ String "/" ("issues/" +:+ number))).
    rewrite split_at_app by (eapply string_forall_impl; [exact repository_char_not_slash|by apply part_chars]). simpl.
    rewrite split_at_app by (eapply string_forall_impl; [exact repository_char_not_slash|by apply part_chars]). simpl.
    change ("" +:+ number) with number. by rewrite Ho, Hna, Hn.
Qed.

Lemma non_empty_text a c b : String.eqb (a +:+ String c b) "" = false.
Proof. by destruct a. Qed.

(** ** The outbox *)

Section outbox.
Context `{PostgresUuids} `{TenantDatabase} `{NodeDates} `{OpaqueTexts} `{OpaqueNumbers} `{ErrorTexts}.
Implicit Types (tracker : IssueTrackerPort issue_tables) (entry : IssueCloseOutboxDto).

(** A settlement that answers: either it finds no entry under the claim and leaves
    the outbox as it is, or it leaves no entry under the claim. *)
Lemma settle_row tx id workspace k state closed lastError s row s' :
  uuid_in k = Some k → outbox_ok s →
  issue_row tx (SettleOutbox id workspace (Some k) state closed lastError) s = (Returned row, s') →
  ib_tasks s' = ib_tasks s ∧
  ((row = None ∧ ib_outbox s' = ib_outbox s) ∨
  (row ≠ None ∧ (∃ r, r ∈ ib_outbox s ∧ br_token r = Some k) ∧ Forall (λ r, br_token r ≠ Some k) (ib_outbox s'))).
Proof.
  intros Hk Hok Hrun.
  unfold issue_row, issue_rows, execute_issue, issue_tables_driver, execute_issue_tables, issue_uuid, mbind, M_bind,
    get_state, mret, M_ret in Hrun. rewrite Hk in Hrun.
  repeat match type of Hrun with
    | context [match uuid_in ?t with _ => _ end] => destruct (uuid_in t) eqn:?; [|done]
    end.
  unfold settle_outbox, mbind, M_bind, get_state, issue_change in Hrun. injection Hrun as <- <-. simpl. split; [done|].
  set (P := is_claim _ _ _ _). destruct (filter P (ib_outbox s)) as [|r l] eqn:Hf; simpl; [left|right].
  - split; [done|]. unfold update_where. rewrite <- (list_fmap_id (ib_outbox s)) at 2.
    apply list_fmap_ext. intros i r Hr. rewrite decide_False; [done|]. intros HP.
    eapply (filter_nil_not_elem_of P); [exact Hf|exact HP|by eapply list_elem_of_lookup_2].
  - assert (r ∈ filter P (ib_outbox s)) as Hin by (rewrite Hf; by left).
    apply list_elem_of_filter in Hin as [HP Hin]. split_and!; [done|exists r; split; [done|apply HP]|].
    apply Forall_forall. intros r' (x & Hx & [[_ ->]|[Hnot ->]])%elem_of_update_where Hk'; [done|].
    apply Hnot. assert (x = r) as -> by (eapply (ok_claims _ Hok); [exact Hx|exact Hin|exact Hk'|apply HP]). exact HP.
Qed.

(** A processed entry after the call of the tracker. *)
Lemma process_entry_run tracker cx maxAttempts entry s r s' :
  process_entry tracker cx maxAttempts entry s = (r, s') →
  let call := closeIssue tracker (mkCloseIssue (mkIssueRef (ox_repository entry) (ox_issueNumber entry) (ox_issueUrl entry))
                (ox_closeReason entry)) s in
  ((∃ e, r = Thrown e) ∧ s' = call.2) ∨
  ∃ closed row, call.1 = Returned closed ∧
    issue_row (tc_orgId cx)
      (SettleOutbox (ox_id entry) (tc_workspaceId cx) (ox_claimToken entry)
         (settled_state closed (ox_attempts entry) maxAttempts) match closed with ok _ => true | err _ => false end
         match closed with ok _ => None | err e => Some (error_message e) end) call.2 = (Returned row, s') ∧
    ((∃ dto, r = Returned (Some dto)) ↔ row ≠ None) ∧ ∃ saved, r = Returned saved.
Proof.
  intros Hrun call. unfold process_entry, mbind at 1, M_bind at 1 in Hrun. fold call in Hrun.
  destruct call as [[closed|e] s1]; simpl in *; [|injection Hrun as <- <-; left; split; [by eexists|done]].
  apply inTransaction_state in Hrun as [(saved & -> & Hfn)|(e & -> & ->)]; [right|left; split; [by eexists|done]].
  apply bind_returned in Hfn as (row & s2 & Hrow & Hdec). exists closed, row.
  destruct row as [row|]; simpl in Hdec.
  - apply stateless_bind_returned in Hdec as (dto & _ & Hret); [|auto with stateless]. injection Hret as <- <-.
    split_and!; [done..| |by eexists]. split; [done|by eexists].
  - injection Hdec as <- <-. split_and!; [done..| |by eexists]. split; [by intros (? & ?)|done].
Qed.

Lemma call_later tracker entry_input s :
  tracker_moves outbox_later tracker → outbox_later s (closeIssue tracker entry_input s).2.
Proof. intros (_ & _ & Hclose). apply Hclose. Qed.

Definition answers_entry (r : outcome (option IssueCloseOutboxDto)) : Prop := ∃ dto, r = Returned (Some dto).

(** The database as the tracker leaves it. *)
Definition after_call tracker entry (s : issue_tables) : issue_tables :=
  (closeIssue tracker (mkCloseIssue (mkIssueRef (ox_repository entry) (ox_issueNumber entry) (ox_issueUrl entry))
     (ox_closeReason entry)) s).2.

(** C6. The close outbox follows its state machine: whatever command of the task
    and issue services runs, and whatever other commands run while it waits for the
    tracker, the entries keep agreeing with themselves and apart from each other;
    none is lost; each still closes the same issue of the same task, its attempts
    never decrease, and once closed or dead only its time of change is renewed; and
    no claim token is ever held again after its entry was settled. *)
Theorem outbox_follows_its_state_machine `{UrlParser} c ports s s' :
  outbox_ok s → ports_move outbox_later ports → (run_issue_command c ports s).2 = s' →
  outbox_ok s'
  ∧ (∀ r, r ∈ ib_outbox s → ∃ r', r' ∈ ib_outbox s' ∧ history r r' ∧ entry_issue r' = entry_issue r
       ∧ (br_attempts r <= br_attempts r')%Z ∧ (¬ unsettled r → r' = touched (br_updated r') r))
  ∧ ∀ k, token_spent k s → token_spent k s'.
Proof.
  intros Hok Hp <-. destruct (command_later c ports s Hp Hok) as (Hok' & [_ He] & Ht). split_and!; [done| |done].
  intros r (r' & Hr' & Hh)%He. exists r'. split_and!; [done|done|by apply history_issue|by apply history_attempts|].
  by apply history_final.
Qed.

(** C7. Claims are fenced: a worker that settles an entry under its claim leaves the
    claim spent, so no claim settles twice; and a worker whose claim is spent, or
    was taken over while it waited for the tracker, answers no entry and leaves the
    outbox as it is. *)
Theorem claims_are_fenced tracker cx maxAttempts entry k s r s' :
  outbox_ok s → tracker_moves outbox_later tracker → ox_claimToken entry = Some k → issued (ib_tasks s) k →
  process_entry tracker cx maxAttempts entry s = (r, s') →
  (answers_entry r → token_spent k s')
  ∧ (token_spent k s ∨ token_spent k (after_call tracker entry s) →
     ¬ answers_entry r ∧ ib_outbox s' = ib_outbox (after_call tracker entry s)).
Proof.
  intros Hok Hlater Htok Hiss Hrun. pose proof (call_later tracker
    (mkCloseIssue (mkIssueRef (ox_repository entry) (ox_issueNumber entry) (ox_issueUrl entry)) (ox_closeReason entry)) s Hlater Hok) as (Hok1 & [Hle _] & Hsp).
  fold (after_call tracker entry s) in *. set (s1 := after_call tracker entry s) in *.
  assert (uuid_in k = Some k) as Hk by (destruct Hiss as (n & _ & ->); apply uuid_in_gen).
  apply process_entry_run in Hrun as [[[e ->] ->]|(closed & row & _ & Hrow & Hans & saved & ->)].
  { split; [by intros (? & ?)|]. intros _. split; [by intros (? & ?)|done]. }
  rewrite Htok in Hrow.
  apply settle_row in Hrow as [Hts [[-> Ho]|(Hrow & (x & Hx & Hxk) & Hfree)]]; [| |done..].
  - split; [by intros Ha%Hans|]. intros _. split; [by intros Ha%Hans|done].
  - split.
    + intros _. split; [|done]. rewrite Hts. by apply (issued_mono (ib_tasks s)).
    + intros [Hspent|Hspent]; [apply Hsp in Hspent|]; destruct Hspent as [_ Hno];
        (eapply Forall_forall in Hno; [|exact Hx]); done.
Qed.
End outbox.

(** ** Progress *)

(** C8. The outbox drains: a worker that is let in, with a tracker that always answers
    something, empties the queue of a repository. When its entries are due and are
    no more than a pass takes, as many passes as an entry may have attempts, each
    later than the longest delay of a retry, leave every entry of the queue closed
    or dead, whatever the tracker answered; and no entry is lost or changes its
    issue on the way. *)
Theorem outbox_drains `{PostgresUuids} `{TenantDatabase} `{NodeDates} `{OpaqueTexts} `{OpaqueNumbers} `{ErrorTexts}
    input dependencies me w repository maxAttempts timeout limit now times s :
  worker_ready input dependencies me w repository maxAttempts timeout limit →
  outbox_ok s → Forall timely (ib_outbox s) →
  (Z.of_nat (length (filter (in_queue me w repository) (ib_outbox s))) <= limit)%Z →
  (∀ r, r ∈ ib_outbox s → in_queue me w repository r → unsettled r → (0 <= br_attempts r)%Z ∧ due now timeout r) →
  date_range now → date_range (now + 300000 * maxAttempts)%Z → spaced maxAttempts now times →
  (1 <= maxAttempts <= Z.of_nat (length (now :: times)))%Z →
  let s' := drain input dependencies (now :: times) s in
  entry_issue <$> ib_outbox s' = entry_issue <$> ib_outbox s
  ∧ ∀ r, r ∈ ib_outbox s' → in_queue me w repository r → br_state r = ObClosed ∨ br_state r = ObDead.
Proof.
  intros [Hme Hw Hguard Htok (tracker & Hport & Hanswers) Hrepo Hlim Htime Hatt Hknown Hallowed] Hok Ht Hroom Hdue
    Hnow Hlast Hsp Hlen s'.
  assert (Hwait : waiting me w repository timeout limit (entry_issue <$> ib_outbox s) 0 (on_task_tables (with_clock now) s)).
  { constructor; [|done|done|done|].
    - assert (outbox_later s (on_task_tables (with_clock now) s)) as Hl by (by apply later_same). by destruct (Hl Hok).
    - intros r Hr Hm. destruct (decide (unsettled r)); [right; by apply Hdue|by left]. }
  destruct (outbox_drained (po_context input) me w repository maxAttempts timeout limit tracker Hme Hw Hguard Htok Hanswers
    input dependencies eq_refl Hrepo Hlim Htime Hatt Hport Hknown Hallowed _ now times s Hnow Hlast Hsp Hlen Hwait)
    as [Hissues Hsettled].
  split; [done|]. intros r Hr Hm. specialize (Hsettled r Hr Hm). unfold unsettled in Hsettled.
  destruct (br_state r); [exfalso; apply Hsettled; done..|by left|exfalso; apply Hsettled; done|by right].
Qed.

(** ** Done with the close intent *)

(** C9. Marking a task Done and recording the intent to close its issue are one
    step: either the command answers, the task is finished under an approved review
    and an unused confirmation, and the outbox holds an entry for its issue under
    the key of the task and the issue (a task that refers to no issue leaves the
    outbox as it is); or it answers an error, and no task, entry, projection or
    intent has changed, even when the intent alone could not be recorded. *)
Theorem done_and_close_are_atomic `{PostgresUuids} `{TenantDatabase} `{NodeDates} `{OpaqueTexts} `{OpaqueNumbers}
    `{UrlParser} `{ErrorTexts} i dependencies s r s' :
  well_formed (ib_tasks s) → dp_terminalAttemptAuditPort (dd_task dependencies) = None →
  markTaskDoneAndEnqueueIssueClose i dependencies s = (r, s') →
  (undone s s' ∧ ∀ answer, r ≠ Returned (ok answer))
  ∨ ∃ task outbox, done_with_close i task s s' ∧ r = Returned (ok (mkDoneClose task (linked_intent task outbox))).
Proof. apply markTaskDoneAndEnqueueIssueClose_run. Qed.

(** ** Creation *)

(** C10. An issue is created at most once per idempotency key of a workspace: of all
    the requests under one key in a history of the database, at most the first that
    asks the tracker asks it, whatever the later ones ask for, whether the first
    succeeded, failed or was cut short; and it asks only after the intent that bars
    the others is recorded. *)
Theorem issues_are_created_once `{PostgresUuids} `{TenantDatabase} `{NodeDates} `{OpaqueTexts} `{OpaqueNumbers}
    `{ErrorTexts} `{UrlParser} i i' authorization authorization' now now' tracker key s r s1 s2 :
  normalizeIssueKey (ct_idempotencyKey i) = ok (Some key) → normalizeIssueKey (ct_idempotencyKey i') = ok (Some key) →
  uuid_in (tc_workspaceId (ct_context i')) = uuid_in (tc_workspaceId (ct_context i)) →
  tracker_moves intents_kept tracker → (∀ clock, now = Some clock → moves intents_kept clock) →
  consults i authorization now s →
  createTrackedIssue i (with_tracker authorization now tracker) s = (r, s1) → rtc issue_event s1 s2 →
  ¬ consults i' authorization' now' s2
  ∧ ∃ w, uuid_in (tc_workspaceId (ct_context i)) = Some w ∧ ¬ intended w key s ∧
      ∀ t t', (∀ input s0, intended w key s0 → createIssue t input s0 = createIssue t' input s0) →
        createTrackedIssue i (with_tracker authorization now t) s = createTrackedIssue i (with_tracker authorization now t') s.
Proof.
  intros Hkey Hkey' Hw Ht Hnow Hc Hrun Hlater.
  destruct (consults_claims _ _ _ _ _ Hkey Hc) as (repository & title & id & w & s0 & Hw0 & Hno & Hi & Hshape). split.
  - intros Hc'. destruct (consults_claims _ _ _ _ _ Hkey' Hc') as (_ & _ & _ & w' & _ & Hw' & Hno' & _).
    assert (w' = w) as -> by congruence. apply Hno'. apply (history_kept s1 s2 Hlater). rewrite Hshape in Hrun.
    pose proof (create_issue_kept (ct_context i) i repository title tracker (with_tracker authorization now tracker)
      (IntentClaimed id) s0 Ht Hnow) as Hk. rewrite Hrun in Hk. by apply Hk.
  - exists w. split_and!; [done|done|]. intros t t' Hagree. rewrite !Hshape. unfold create_issue, mbind, M_bind.
    by rewrite (Hagree _ s0).
Qed.

(** Both spellings of a reference to an issue are read back as that issue: a task
    whose provenance is [github:owner/name#n] or the URL of the issue refers to the
    repository and the number it was written from, and both to the same URL. *)
Theorem issue_references_round_trip `{OpaqueNumbers} repository n task :
  repositoryPattern repository = true → (0 < n <= Money.max_safe_integer)%Z →
  let url := "https://github.com/" +:+ repository +:+ "/issues/" +:+ pretty n in
  td_provenanceExternalRef task = Some ("github:" +:+ repository +:+ "#" +:+ pretty n)
  ∨ td_provenanceExternalRef task = Some url →
  issueRefFromTask task = Some (mkIssueRef repository n url).
Proof.
  intros Hr Hn url Htask. destruct (text_number_pretty n Hn) as [Hp Hv]. unfold issueRefFromTask.
  destruct Htask as [-> | ->].
  - destruct (short_ref_text repository (pretty n) Hr Hp) as [Ht Hs]. by rewrite Ht, Hs, Hv.
  - destruct (url_ref_text repository (pretty n) Hr Hp) as (Ht & Hs & Hu). unfold url. by rewrite Ht, Hs, Hu, Hv.
Qed.

(** ** Witnesses *)

Section witnesses.
Import TaskExample IssueExample.
#[local] Existing Instances example_host example_uuids example_database example_dates example_texts example_numbers
  example_urls example_errors.

Lemma empty_outbox_ok t intents : outbox_ok (mkIssueTables t [] [] intents).
Proof. constructor; simpl; [constructor|by split; constructor|constructor|constructor|intros ? ? ? Hr%elem_of_nil; done]. Defined.

Lemma calm_moves answer : tracker_moves outbox_later (calm_tracker answer).
Proof. split_and!; intros i; apply (moves_ret outbox_later). Defined.
Lemma slow_moves : tracker_moves outbox_later slow_tracker.
Proof.
  split_and!; intros i; [apply (moves_ret outbox_later)..|]. intros s. unfold slow_tracker.
  transitivity (at_time (ib_now s + 900000) s); [by apply later_same|]. apply command_later.
  split_and!; [intros tracker [= <-]; apply calm_moves|done|done].
Defined.

Lemma example_ports tracker : tracker_moves outbox_later tracker → ports_move outbox_later (ports tracker).
Proof. intros Ht. split_and!; [by intros t [= <-]|done|done]. Defined.

Lemma queued_ok : outbox_ok queued_issues.
Proof.
  assert (outbox_ok prepared_issues) as Hok by apply empty_outbox_ok.
  by destruct (command_later (IcDoneClose finish) (ports (calm_tracker (ok issue_seven))) prepared_issues
    (example_ports _ (calm_moves _)) Hok).
Defined.

(** A slow worker: the entry ends closed by the second worker, in one attempt. *)
Lemma outbox_follows_its_state_machine_witness :
  let s' := (run_issue_command (IcProcess (process 3)) (ports slow_tracker) queued_issues).2 in
  outbox_ok s' ∧ (λ r, (br_state r, br_attempts r)) <$> ib_outbox s' = [(ObClosed, 1%Z)]
  ∧ Forall (λ r, ∃ r', r' ∈ ib_outbox s' ∧ history r r') (ib_outbox queued_issues).
Proof.
  destruct (outbox_follows_its_state_machine (IcProcess (process 3)) (ports slow_tracker) queued_issues _ queued_ok
    (example_ports _ slow_moves) eq_refl) as (Hok & He & _).
  split; [exact Hok|]. split; [by vm_compute|].
  apply Forall_forall. intros r Hr. destruct (He r Hr) as (r' & Hr' & Hh & _). exists r'. by split.
Defined.

(** The claim of the queued entry by a first worker. *)
Definition claiming := claim_entries (S := issue_tables) org home repository 3 900000 10 queued_issues.
Definition claimed_entry : IssueCloseOutboxDto :=
  match claiming.1 with Returned [entry] => entry | _ => mkOutboxDto "" "" "" "" "" 0 "" "" ObPending CrCompleted 0 "" None None None "" "" None end.
Definition claimed_issues : issue_tables := claiming.2.

Lemma claimed_ok : outbox_ok claimed_issues.
Proof.
  assert (outbox_later queued_issues claimed_issues) as Hl; [|by destruct (Hl queued_ok)].
  apply (moves_claim_entries outbox_later). intros tenant q Hq s. by apply execute_issue_later.
Defined.

(** The worker settles the entry when the tracker answers in time, and does nothing
    when a second worker has taken the entry over. *)
Lemma claims_are_fenced_witness :
  let '(quick, s1) := process_entry (calm_tracker (ok issue_seven)) at_home 3 claimed_entry claimed_issues in
  let '(slow, s2) := process_entry slow_tracker at_home 3 claimed_entry claimed_issues in
  answers_entry quick ∧ token_spent (numbered_uuid 6) s1
  ∧ ¬ answers_entry slow ∧ ib_outbox s2 = ib_outbox (after_call slow_tracker claimed_entry claimed_issues).
Proof.
  destruct (process_entry (calm_tracker _) _ _ _ _) as [quick s1] eqn:Hquick.
  destruct (process_entry slow_tracker _ _ _ _) as [slow s2] eqn:Hslow.
  assert (issued (ib_tasks claimed_issues) (numbered_uuid 6)) as Hi by (exists 6; split; [by apply Nat.ltb_lt; vm_compute|done]).
  destruct (claims_are_fenced _ at_home 3 claimed_entry (numbered_uuid 6) claimed_issues quick s1 claimed_ok
    (calm_moves _) ltac:(by vm_compute) Hi Hquick) as [Hq _].
  destruct (claims_are_fenced _ at_home 3 claimed_entry (numbered_uuid 6) claimed_issues slow s2 claimed_ok
    slow_moves ltac:(by vm_compute) Hi Hslow) as [_ Hs].
  assert (answers_entry quick) as Ha.
  { apply (f_equal fst) in Hquick. cbn [fst] in Hquick. subst quick. eexists. by vm_compute. }
  split; [exact Ha|]. split; [exact (Hq Ha)|]. apply Hs. right. split.
  - exists 6. split; [by apply Nat.ltb_lt; vm_compute|done].
  - apply (bool_decide_unpack _). by vm_compute.
Defined.

Lemma trim_non_blank c s : js_space c = false → trim (String c s) ≠ "".
Proof.
  intros Hc. unfold trim. simpl. rewrite Hc. simpl. rewrite Hc. by destruct (trim_end s).
Defined.

Lemma numbered_not_blank n : trim (numbered_uuid n) ≠ "".
Proof. unfold numbered_uuid. destruct (n <? 10)%nat; by apply trim_non_blank. Defined.

Lemma example_worker : worker_ready (process 3) (dependencies (calm_tracker unreachable)) org home repository 3 900000 10.
Proof.
  constructor; try reflexivity; try exact numbered_not_blank.
  - exists tt. intros s. reflexivity.
  - exists (calm_tracker unreachable). split; [reflexivity|]. intros i s. by exists unreachable.
Defined.

(** Three passes with a tracker that is down: the entry is dead after three
    attempts. *)
Lemma outbox_drains_witness :
  let s' := drain (process 3) (dependencies (calm_tracker unreachable)) [2000; 902000; 1802000]%Z queued_issues in
  (λ r, (br_state r, br_attempts r)) <$> ib_outbox s' = [(ObDead, 3%Z)]
  ∧ ∀ r, r ∈ ib_outbox s' → in_queue org home repository r → br_state r = ObClosed ∨ br_state r = ObDead.
Proof.
  split; [by vm_compute|].
  assert (∃ r, ib_outbox queued_issues = [r] ∧ timely r ∧ (0 <= br_attempts r)%Z ∧ due 2000 900000 r) as (r & Hr & Ht & Ha & Hd).
  { eexists. split; [vm_compute; reflexivity|]. split; [|by vm_compute].
    unfold timely, date_range. simpl. split_and!; try lia; discriminate. }
  apply (outbox_drains (process 3) (dependencies (calm_tracker unreachable)) org home repository 3 900000 10 2000
    [902000; 1802000]%Z queued_issues example_worker queued_ok).
  - rewrite Hr. by constructor.
  - vm_compute. discriminate.
  - rewrite Hr. intros x ->%list_elem_of_singleton _ _. by split.
  - unfold date_range. lia.
  - unfold date_range. lia.
  - unfold spaced, date_range. lia.
  - simpl. lia.
Defined.

(** The task is Done with its close intent; when the intent cannot be recorded the
    task is not Done either. *)
Lemma done_and_close_are_atomic_witness :
  (∃ task, done_with_close finish task prepared_issues queued_issues)
  ∧ undone prepared_issues (markTaskDoneAndEnqueueIssueClose finish broken_enqueue prepared_issues).2.
Proof.
  pose proof (proj1 (reachable_governed _ linked_reachable)) as Hwf. split.
  - assert (markTaskDoneAndEnqueueIssueClose finish no_audit prepared_issues
      = ((markTaskDoneAndEnqueueIssueClose finish no_audit prepared_issues).1, queued_issues)) as Hrun
      by (vm_compute; reflexivity).
    destruct (done_and_close_are_atomic finish no_audit prepared_issues _ _ Hwf eq_refl Hrun)
      as [[_ Hno]|(task & outbox & Hd & _)]; [|exists task; exact Hd].
    exfalso. eapply Hno. vm_compute. reflexivity.
  - destruct (markTaskDoneAndEnqueueIssueClose finish broken_enqueue prepared_issues) as [r s'] eqn:Hrun.
    destruct (done_and_close_are_atomic finish broken_enqueue prepared_issues r s' Hwf eq_refl Hrun)
      as [[Hun _]|(task & outbox & _ & Ha)]; [exact Hun|]. exfalso.
    assert (∃ e, (markTaskDoneAndEnqueueIssueClose finish broken_enqueue prepared_issues).1 = Returned (err e)) as [e He]
      by (eexists; vm_compute; reflexivity).
    rewrite Hrun in He. cbn [fst] in He. rewrite He in Ha. discriminate Ha.
Defined.

Lemma calm_keeps answer : tracker_moves intents_kept (calm_tracker answer).
Proof. split_and!; intros i; apply (moves_ret intents_kept). Defined.

(** The request consults the tracker; the retry does not, whether the tracker was
    unavailable or answered. *)
Lemma issues_are_created_once_witness :
  consults report None None prepared_issues
  ∧ ¬ consults retry None None (request report (calm_tracker unreachable)).2
  ∧ ¬ consults retry None None (request report (calm_tracker (ok issue_seven))).2.
Proof.
  assert (consults report None None prepared_issues) as Hc.
  { exists (calm_tracker unreachable), (calm_tracker (ok issue_seven)). intros Heq%(f_equal fst). vm_compute in Heq. discriminate Heq. }
  assert (∀ answer, ¬ consults retry None None (request report (calm_tracker answer)).2) as Hno.
  { intros answer.
    refine (proj1 (issues_are_created_once report retry None None None None (calm_tracker answer) "report-1" prepared_issues
      (request report (calm_tracker answer)).1 (request report (calm_tracker answer)).2
      (request report (calm_tracker answer)).2 _ _ _ _ _ Hc _ (rtc_refl _ _)));
      [vm_compute; reflexivity|vm_compute; reflexivity|reflexivity|apply calm_keeps|discriminate|exact (surjective_pairing _)]. }
  split; [exact Hc|]. split; apply Hno.
Defined.

(** Both spellings of the issue. *)
Definition task_referring (text : string) : TaskDto :=
  mkTaskDto "" "" "" 1 "" "" TsTodo TpNormal None None [] 0 None "github" (Some text) "" "".
Lemma issue_references_round_trip_witness :
  issueRefFromTask (task_referring "github:acme/app#7") = Some (ti_ref issue_seven)
  ∧ issueRefFromTask (task_referring "https://github.com/acme/app/issues/7") = Some (ti_ref issue_seven).
Proof.
  split; apply (issue_references_round_trip "acme/app" 7); try reflexivity; try (by vm_compute); [left|right]; reflexivity.
Defined.
End witnesses.
