(* ===== verification/LinkTokens.v ===== *)
(** * Identity and access: the link tokens
    ([packages/identity-access/src/application/link-tokens.ts])

    A link token is its claims, encoded, and a random secret.  Only its hash is
    stored; it is honoured while its record, the membership and the session it was
    issued for are current.  [assertCurrentUser] is that of
    [packages/adapters/src/postgres/identity-context.ts]. *)
From S2P Require Import Prelude JsString JsValue SharedKernel Effects DevBoardDomain JsText RuntimeDomain.
From S2P Require Import TenantContext RuntimeSql TaskDomain TaskSql JsJson IssueSql.
From Stdlib Require Import Ascii.

(** ** Data *)

(** The claims as [verifyLinkToken] reads them: the number may be any. *)
Record LinkTokenClaims : Type := mkLinkClaims {
  lc_aud : string; lc_scope : string; lc_sid : string; lc_tenant_id : string; lc_exp : jsnum; lc_jti : string;
}.

Record LinkTokenDto : Type := mkLinkTokenDto {
  ld_id : string; ld_organizationId : string; ld_workspaceId : string; ld_userId : string; ld_sessionId : string;
  ld_clientId : string; ld_scopes : list string; ld_jti : string; ld_membershipVersion : Z; ld_createdAt : string;
  ld_expiresAt : string; ld_revokedAt : option string; ld_lastUsedAt : option string;
}.

Record LinkTokenPrincipal : Type := mkLinkPrincipal {
  lp_orgId : string; lp_workspaceId : string; lp_userId : string; lp_sessionId : string; lp_clientId : string;
  lp_scopes : list string; lp_tokenId : string; lp_membershipVersion : Z; lp_actorUserId : string;
  lp_roleKeys : list string;
}.

Record IssueLinkTokenInput : Type := mkIssueLinkToken {
  ii_orgId : string; ii_workspaceId : string; ii_userId : string; ii_sessionId : string; ii_scopes : list string;
  ii_ttlSeconds : jsnum; ii_clientId : option string; ii_now : option Z;
}.

Record IssuedLinkToken : Type := mkIssuedLinkToken {
  il_token : string; il_claims : LinkTokenClaims; il_record : LinkTokenDto;
}.

Record VerifyLinkTokenInput : Type := mkVerifyLinkToken { vi_token : string; vi_now : option Z }.
Record RevokeLinkTokenInput : Type := mkRevokeLinkToken {
  ri_orgId : string; ri_userId : string; ri_tokenId : string; ri_now : option Z;
}.
Record ListLinkTokensInput : Type := mkListLinkTokens {
  li_orgId : string; li_workspaceId : option string; li_userId : string;
}.

Record MembershipPrincipal : Type := mkMembership { mp_membershipVersion : Z; mp_roleKeys : list string }.

(** ** Statements *)

(** The settings of the transaction that row security reads. *)
Record link_settings : Type := mkSettings { ls_org : string; ls_user : option string }.

Inductive link_statement : Type :=
| SetCurrentUser (user : string)
| SelectCurrentUser
| SelectMembership (org user : string)
| SelectCurrentSession (session user org : string) (version : Z)
| SelectWorkspace (workspace org : string)
| InsertLinkToken (org workspace user session client : string) (scopes : list string) (hash jti : string)
    (version : Z) (createdAt expiresAt : string)
| SelectLinkToken (hash jti : string)
| TouchLinkToken (id usedAt : string)
| RevokeLinkToken (id user revokedAt : string)
| SelectLinkTokens (user : string) (workspace : option string).

(** The driver, run with the settings of the transaction. *)
Class LinkDriver (S : Type) := {
  execute_link : link_settings → link_statement → M S execute_result;
}.

(** [randomUUID()] and [randomBytes(32).toString("base64url")]. *)
Class TokenHost (S : Type) := { randomUUID : M S string; randomSecret : M S string }.

(** [Buffer.from(text, "utf8").toString("base64url")] and back, and the time value of
    [new Date(number * 1000)] for a number that is not an integer. *)
Class TokenCodec := {
  base64url_encode : string → string;
  base64url_decode : string → string;
  fraction_time : string → option Z;
}.

Module LinkTokens.

Definition linkTokenAudience : string := "opzava:mcp".
Definition linkTokenClientId : string := "claude-code".
Definition linkTokenScopes : list string := ["tasks:read"; "tasks:write"].
Definition tokenPrefix : string := "opzava_link_".

Definition linkTokenError (code message : string) : DomainError := domain_error code message.
Definition linkTokenInvalid : DomainError := linkTokenError "identityAccess.linkTokenInvalid" "Link token is invalid.".
Definition linkTokenExpired : DomainError := linkTokenError "identityAccess.linkTokenExpired" "Link token has expired.".
Definition linkTokenRevoked : DomainError :=
  linkTokenError "identityAccess.linkTokenRevoked" "Link token has been revoked.".
Definition verifySessionDrift : DomainError :=
  linkTokenError "identityAccess.linkTokenSessionDrift" "Link token session membership is no longer current.".
Definition issueSessionDrift : DomainError :=
  linkTokenError "identityAccess.linkTokenSessionDrift"
    "Link token cannot be issued because the session membership is no longer current.".
Definition invalidLinkContext (message : string) : DomainError :=
  linkTokenError "identityAccess.invalidLinkTokenContext" message.

(** ** Scopes *)

Definition normalizeScopes (scopes : list string) : Result (list string) :=
  let invalid message := err (linkTokenError "identityAccess.invalidLinkTokenScope" message) in
  let normalized := js_unique (filter (λ s, s ≠ "") (trim <$> scopes)) in
  if (length normalized =? 0)%nat || (length linkTokenScopes <? length normalized)%nat then
    invalid "Link token scope must include tasks:read, tasks:write, or both."
  else if existsb (λ s, negb (bool_decide (s ∈ linkTokenScopes))) normalized then
    invalid "Link token scope must be limited to tasks:read and tasks:write."
  else ok (filter (λ s, s ∈ normalized) linkTokenScopes).

Definition scopeClaim (scopes : list string) : string := join " " scopes.

(** [s.split(/\s+/)] *)
Fixpoint split_spaces (s : string) : list string :=
  match s with
  | EmptyString => [""]
  | String c r =>
      if js_space c then
        match r with
        | String d _ => if js_space d then split_spaces r else "" :: split_spaces r
        | EmptyString => [""; ""]
        end
      else match split_spaces r with p :: ps => String c p :: ps | [] => [String c ""] end
  end.

Definition parseScopeClaim (scope : string) : Result (list string) := normalizeScopes (split_spaces scope).

(** ** Input checks *)

Definition valid_id (made : string + DomainError) : bool := match made with inl _ => true | inr _ => false end.

Definition validateIssueInput (input : IssueLinkTokenInput) : Result (list string) :=
  if negb (valid_id (Ids.makeOrgId (ii_orgId input)) && valid_id (Ids.makeWorkspaceId (ii_workspaceId input))
           && valid_id (Ids.makeUserId (ii_userId input))) then
    err (invalidLinkContext "Link token context contains an invalid organization, workspace, or user id.")
  else if match ii_clientId input with Some client => negb (String.eqb client linkTokenClientId) | None => false end then
    err (linkTokenError "identityAccess.invalidLinkTokenClient"
           "Link tokens are currently limited to the claude-code client.")
  else
    match ii_ttlSeconds input with
    | NInt ttl =>
        if (ttl <? 60)%Z || (86400 <? ttl)%Z then
          err (linkTokenError "identityAccess.invalidLinkTokenTtl" "Link token TTL must be 60-86400 seconds.")
        else normalizeScopes (ii_scopes input)
    | _ => err (linkTokenError "identityAccess.invalidLinkTokenTtl" "Link token TTL must be 60-86400 seconds.")
    end.

(** The time to live of a validated input. *)
Definition ttl_seconds (input : IssueLinkTokenInput) : Z :=
  match ii_ttlSeconds input with NInt ttl => ttl | _ => 0 end.

(** ** The token *)

(** The time value a [Date] holds: [None] for NaN. *)
Definition time_clip (t : Z) : option Z := if (Z.abs t <=? 8640000000000000)%Z then Some t else None.

Section token.
Context `{NodeRuntime} `{TokenCodec} `{JsonNumbers}.

Definition claims_value (claims : LinkTokenClaims) : jsval :=
  JObj [("aud", JStr (lc_aud claims)); ("scope", JStr (lc_scope claims)); ("sid", JStr (lc_sid claims));
        ("tenant_id", JStr (lc_tenant_id claims)); ("exp", JNum (lc_exp claims)); ("jti", JStr (lc_jti claims))].

Definition hashToken (token : string) : string := sha256_hex token.

(** [Math.floor(date.getTime() / 1000)] *)
Definition exp_claim (expiresAt : option Z) : jsnum :=
  match expiresAt with Some t => NInt (t / 1000) | None => NNonFinite end.

(** The time value of [new Date(exp * 1000)]. *)
Definition claim_time (exp : jsnum) : option Z :=
  match exp with NInt z => time_clip (z * 1000) | NFrac text => fraction_time text | NNonFinite => None end.

(** A date that is not a time expires never. *)
Definition isExpired (expiresAt : option Z) (now : Z) : bool :=
  match expiresAt with Some t => (t <=? now)%Z | None => false end.

(** [body.split(".")], its first part and what follows the full stop. *)
Fixpoint split_dot (s : string) : string * option string :=
  match s with
  | EmptyString => ("", None)
  | String c r =>
      if Ascii.eqb c "." then ("", Some r) else let '(a, b) := split_dot r in (String c a, b)
  end.

(** The claims with the types [parseToken] requires. *)
Definition typed_claims (claims : jsval) : option LinkTokenClaims :=
  match claims with
  | JObj o =>
      match obj_get "aud" o, obj_get "scope" o, obj_get "sid" o, obj_get "tenant_id" o, obj_get "exp" o, obj_get "jti" o with
      | JStr aud, JStr scope, JStr sid, JStr tenant, JNum exp, JStr jti =>
          if String.eqb aud linkTokenAudience then Some (mkLinkClaims aud scope sid tenant exp jti) else None
      | _, _, _, _, _, _ => None
      end
  | _ => None
  end.

Definition parseToken (token : string) : Result (LinkTokenClaims * string) :=
  if negb (starts_with tokenPrefix token) then err linkTokenInvalid
  else
    let body := String.substring (String.length tokenPrefix) (String.length token - String.length tokenPrefix) token in
    match split_dot body with
    | (_, None) => err linkTokenInvalid
    | (claimsPart, Some rest) =>
        let secretPart := (split_dot rest).1 in
        if String.eqb (trim claimsPart) "" || String.eqb (trim secretPart) "" then err linkTokenInvalid
        else
          match json_parse (base64url_decode claimsPart) ≫= typed_claims with
          | Some claims =>
              if valid_id (Ids.makeOrgId (lc_tenant_id claims)) then ok (claims, hashToken token)
              else err linkTokenInvalid
          | None => err linkTokenInvalid
          end
    end.
End token.

(** ** The services *)

Section services.
Context {S : Type} `{LinkDriver S} `{TokenHost S} `{WallClock S} `{TenantDatabase} `{NodeDates} `{OpaqueTexts}.
Context `{OpaqueNumbers} `{NodeRuntime} `{TokenCodec} `{JsonNumbers}.

Implicit Types (tx : link_settings).

(** [base64UrlJson(value)]; [Buffer.from] throws on [undefined]. *)
Definition base64UrlJson (value : jsval) : M S string :=
  match jsonStringify value with
  | Some (Some text) => mret (base64url_encode text)
  | _ => throw (ExnType "The first argument must be of type string.")
  end.

Definition tokenFromClaims (claims : LinkTokenClaims) : M S string :=
  secret ← randomSecret;
  encoded ← base64UrlJson (claims_value claims);
  mret (tokenPrefix +:+ encoded +:+ "." +:+ secret).

Definition nowDate (inputNow : option Z) : M S Z := match inputNow with Some now => mret now | None => new_date end.

(** *** Rows *)

Definition parseLinkDate (c : cell) : M S string :=
  match c with
  | CDate t => iso_text (Some t)
  | CVal (JStr text) => iso_text (date_parse text)
  | CVal _ => throw (ExnDomain (linkTokenError "identityAccess.invalidLinkTokenRecord"
                      "Link token record contains an invalid timestamp."))
  end.

Definition parseNullableLinkDate (c : cell) : M S (option string) :=
  if absent c then mret None else t ← parseLinkDate c; mret (Some t).

Definition rowToLinkTokenDto (row : QueryRow) : M S LinkTokenDto :=
  createdAt ← parseLinkDate (column "created_at" row);
  expiresAt ← parseLinkDate (column "expires_at" row);
  revokedAt ← parseNullableLinkDate (column "revoked_at" row);
  lastUsedAt ← parseNullableLinkDate (column "last_used_at" row);
  mret (mkLinkTokenDto (cell_text (column "id" row)) (cell_text (column "organization_id" row))
    (cell_text (column "workspace_id" row)) (cell_text (column "user_id" row)) (cell_text (column "session_id" row))
    linkTokenClientId (stringArray (column "scopes" row)) (cell_text (column "jti" row))
    (cell_number (column "membership_version" row)) createdAt expiresAt revokedAt lastUsedAt).

Fixpoint rowsToLinkTokenDtos (rows : list QueryRow) : M S (list LinkTokenDto) :=
  match rows with
  | [] => mret []
  | row :: rows => dto ← rowToLinkTokenDto row; dtos ← rowsToLinkTokenDtos rows; mret (dto :: dtos)
  end.

Definition link_row tx (q : link_statement) : M S (option QueryRow) :=
  result ← execute_link tx q; mret (head (rowsFromExecuteResult result)).

(** *** The current user *)

Definition assertCurrentUser tx (expectedUserId : string) : M S unit :=
  if String.eqb (trim expectedUserId) "" then throw (ExnDatabase TenantContextMissingError)
  else
    try_catch
      (row ← link_row tx SelectCurrentUser;
       match row with
       | Some row => if cell_is expectedUserId (column "current_user_id" row) then mret tt
                     else throw (ExnDatabase TenantContextMissingError)
       | None => throw (ExnDatabase TenantContextMissingError)
       end)
      (λ error, throw (mapDatabaseError error)).

(** The transaction with its new setting. *)
Definition setCurrentUser tx (userId : string) : M S link_settings :=
  _ ← execute_link tx (SetCurrentUser userId);
  let tx := mkSettings (ls_org tx) (Some userId) in
  _ ← assertCurrentUser tx userId; mret tx.

(** *** What a token depends on *)

Definition loadMembershipPrincipal tx (orgId userId : string) : M S (option MembershipPrincipal) :=
  row ← link_row tx (SelectMembership orgId userId);
  mret ((λ row, mkMembership (cell_number (column "membership_version" row)) (stringArray (column "role_keys" row))) <$> row).

Definition found (row : option QueryRow) : bool := match row with Some _ => true | None => false end.

Definition assertSessionCurrent tx (sessionId orgId userId : string) (membershipVersion : Z) : M S bool :=
  row ← link_row tx (SelectCurrentSession sessionId userId orgId membershipVersion); mret (found row).

Definition assertWorkspaceInTenant tx (orgId workspaceId : string) : M S bool :=
  row ← link_row tx (SelectWorkspace workspaceId orgId); mret (found row).

(** *** Issuing *)

Definition linkTokenIssueFailed : string * string :=
  ("identityAccess.linkTokenIssueFailed", "Link token could not be issued.").

Definition issue_in tx (input : IssueLinkTokenInput) (scopes : list string) (issuedAt : Z) (expiresAt : option Z)
    (claims : LinkTokenClaims) (token : string) : M S (Result IssuedLinkToken) :=
  tx ← setCurrentUser tx (ii_userId input);
  workspaceExists ← assertWorkspaceInTenant tx (ii_orgId input) (ii_workspaceId input);
  if negb workspaceExists then
    mret (err (linkTokenError "identityAccess.workspaceNotFound" "Workspace was not found."))
  else
    membership ← loadMembershipPrincipal tx (ii_orgId input) (ii_userId input);
    match membership with
    | None => mret (err issueSessionDrift)
    | Some membership =>
        sessionCurrent ← assertSessionCurrent tx (ii_sessionId input) (ii_orgId input) (ii_userId input)
                           (mp_membershipVersion membership);
        if negb sessionCurrent then mret (err issueSessionDrift)
        else
          createdText ← iso_text (Some issuedAt);
          expiresText ← iso_text expiresAt;
          row ← link_row tx (InsertLinkToken (ii_orgId input) (ii_workspaceId input) (ii_userId input)
                  (ii_sessionId input) linkTokenClientId scopes (hashToken token) (lc_jti claims)
                  (mp_membershipVersion membership) createdText expiresText);
          match row with
          | None => mret (err (linkTokenError linkTokenIssueFailed.1 linkTokenIssueFailed.2))
          | Some row => record ← rowToLinkTokenDto row; mret (ok (mkIssuedLinkToken token claims record))
          end
    end.

Definition issueLinkToken (input : IssueLinkTokenInput) : M S (Result IssuedLinkToken) :=
  match validateIssueInput input with
  | err e => mret (err e)
  | ok scopes =>
      issuedAt ← nowDate (ii_now input);
      let expiresAt := time_clip (issuedAt + ttl_seconds input * 1000) in
      jti ← randomUUID;
      let claims := mkLinkClaims linkTokenAudience (scopeClaim scopes) (ii_sessionId input) (ii_orgId input)
                      (exp_claim expiresAt) jti in
      token ← tokenFromClaims claims;
      attempt (ii_orgId input) linkTokenIssueFailed.1 linkTokenIssueFailed.2
        (issue_in (mkSettings (ii_orgId input) None) input scopes issuedAt expiresAt claims token)
  end.

(** *** Verifying *)

(** The tests of the record against the claims. *)
Definition record_matches (record : LinkTokenDto) (claims : LinkTokenClaims) (scopes : list string) : bool :=
  String.eqb (ld_organizationId record) (lc_tenant_id claims) && String.eqb (ld_sessionId record) (lc_sid claims)
  && String.eqb (ld_jti record) (lc_jti claims) && String.eqb (ld_clientId record) linkTokenClientId
  && String.eqb (scopeClaim (ld_scopes record)) (scopeClaim scopes).

Definition principal_of (record : LinkTokenDto) (membership : MembershipPrincipal) : LinkTokenPrincipal :=
  mkLinkPrincipal (ld_organizationId record) (ld_workspaceId record) (ld_userId record) (ld_sessionId record)
    (ld_clientId record) (ld_scopes record) (ld_id record) (ld_membershipVersion record) (ld_userId record)
    (mp_roleKeys membership).

Definition verify_in tx (claims : LinkTokenClaims) (tokenHash : string) (scopes : list string) (now : Z)
    : M S (Result LinkTokenPrincipal) :=
  row ← link_row tx (SelectLinkToken tokenHash (lc_jti claims));
  match row with
  | None => mret (err linkTokenInvalid)
  | Some row =>
      record ← rowToLinkTokenDto row;
      tx ← setCurrentUser tx (ld_userId record);
      if negb (record_matches record claims scopes) then mret (err linkTokenInvalid)
      else if negb (bool_decide (ld_revokedAt record = None)) then mret (err linkTokenRevoked)
      else if isExpired (date_parse (ld_expiresAt record)) now then mret (err linkTokenExpired)
      else
        membership ← loadMembershipPrincipal tx (ld_organizationId record) (ld_userId record);
        match membership with
        | None => mret (err verifySessionDrift)
        | Some membership =>
            if negb (mp_membershipVersion membership =? ld_membershipVersion record)%Z then mret (err verifySessionDrift)
            else
              sessionCurrent ← assertSessionCurrent tx (ld_sessionId record) (ld_organizationId record)
                                 (ld_userId record) (ld_membershipVersion record);
              if negb sessionCurrent then mret (err verifySessionDrift)
              else
                usedAt ← iso_text (Some now);
                _ ← execute_link tx (TouchLinkToken (ld_id record) usedAt);
                mret (ok (principal_of record membership))
        end
  end.

Definition verifyLinkToken (input : VerifyLinkTokenInput) : M S (Result LinkTokenPrincipal) :=
  match parseToken (vi_token input) with
  | err e => mret (err e)
  | ok (claims, tokenHash) =>
      match parseScopeClaim (lc_scope claims) with
      | err e => mret (err e)
      | ok scopes =>
          now ← nowDate (vi_now input);
          if isExpired (claim_time (lc_exp claims)) now then mret (err linkTokenExpired)
          else
            attempt (lc_tenant_id claims) "identityAccess.linkTokenVerifyFailed" "Link token could not be verified."
              (verify_in (mkSettings (lc_tenant_id claims) None) claims tokenHash scopes now)
      end
  end.

(** *** Revoking and listing *)

Definition revoke_in tx (input : RevokeLinkTokenInput) : M S (Result (option LinkTokenDto)) :=
  tx ← setCurrentUser tx (ri_userId input);
  now ← nowDate (ri_now input);
  revokedAt ← iso_text (Some now);
  row ← link_row tx (RevokeLinkToken (ri_tokenId input) (ri_userId input) revokedAt);
  match row with
  | None => mret (ok None)
  | Some row => record ← rowToLinkTokenDto row; mret (ok (Some record))
  end.

Definition revokeLinkToken (input : RevokeLinkTokenInput) : M S (Result (option LinkTokenDto)) :=
  if negb (valid_id (Ids.makeOrgId (ri_orgId input)) && valid_id (Ids.makeUserId (ri_userId input))) then
    mret (err (invalidLinkContext "Link token context contains an invalid organization or user id."))
  else
    attempt (ri_orgId input) "identityAccess.linkTokenRevokeFailed" "Link token could not be revoked."
      (revoke_in (mkSettings (ri_orgId input) None) input).

Definition list_in tx (input : ListLinkTokensInput) : M S (Result (list LinkTokenDto)) :=
  tx ← setCurrentUser tx (li_userId input);
  result ← execute_link tx (SelectLinkTokens (li_userId input) (li_workspaceId input));
  records ← rowsToLinkTokenDtos (rowsFromExecuteResult result);
  mret (ok records).

Definition listLinkTokens (input : ListLinkTokensInput) : M S (Result (list LinkTokenDto)) :=
  if negb (valid_id (Ids.makeOrgId (li_orgId input)) && valid_id (Ids.makeUserId (li_userId input))
           && match li_workspaceId input with Some w => valid_id (Ids.makeWorkspaceId w) | None => true end) then
    mret (err (invalidLinkContext "Link token context contains an invalid organization, workspace, or user id."))
  else
    attempt (li_orgId input) "identityAccess.linkTokenListFailed" "Link tokens could not be loaded."
      (list_in (mkSettings (li_orgId input) None) input).
End services.
End LinkTokens.
