(* ===== verification/LinkTables.v ===== *)
(** * Identity and access: the tables behind the link tokens

    The statements of the link-token services over tables: a reference driver with
    the semantics of their text, of the row security and of the constraints of the
    migrations [0001] and [0005] of [packages/identity-access/drizzle].  The
    workspaces, the users and the input functions are those of [PostgresHost]; texts
    are ordered by their characters. *)
From S2P Require Import Prelude JsString JsValue SharedKernel Effects DevBoardDomain JsText RuntimeDomain.
From S2P Require Import TenantContext RuntimeSql RuntimeTables TaskDomain TaskSql TaskInputs TaskTables JsJson IssueSql LinkTokens.
From Stdlib Require Import Ascii.

(** ** Rows *)

Inductive MembershipStatus : Type := MsActive | MsInvited | MsSuspended | MsRemoved.
#[global] Instance MembershipStatus_eq_dec : EqDecision MembershipStatus.
Proof. solve_decision. Defined.

Inductive GrantScope : Type := GsOrganization | GsProject.
#[global] Instance GrantScope_eq_dec : EqDecision GrantScope.
Proof. solve_decision. Defined.

Record membership_rec : Type := mkMembershipRec {
  me_org : string; me_user : string; me_status : MembershipStatus; me_version : Z;
}.

(** The subject of a grant is a user. *)
Record grant_rec : Type := mkGrantRec {
  gr_org : string; gr_subject : string; gr_role : string; gr_scope : GrantScope; gr_scope_id : string;
}.

Record session_rec : Type := mkSessionRec {
  se_id : string; se_user : string; se_org : option string; se_version : Z; se_expires : Z;
}.

Record token_rec : Type := mkTokenRec {
  lr_id : string; lr_org : string; lr_workspace : string; lr_user : string; lr_session : string; lr_client : string;
  lr_scopes : list string; lr_hash : string; lr_jti : string; lr_version : Z; lr_created : Z; lr_expires : Z;
  lr_revoked : option Z; lr_used : option Z;
}.

(** [lt_now] is the time of the database, [lt_uuids] and [lt_draws] count the
    values [gen_random_uuid()] and [node:crypto] have generated. *)
Record link_tables : Type := mkLinkTables {
  lt_now : Z; lt_uuids : nat; lt_draws : nat; lt_memberships : list membership_rec; lt_grants : list grant_rec;
  lt_sessions : list session_rec; lt_tokens : list token_rec;
}.

Definition on_tokens (f : list token_rec → list token_rec) (s : link_tables) : link_tables :=
  mkLinkTables (lt_now s) (lt_uuids s) (lt_draws s) (lt_memberships s) (lt_grants s) (lt_sessions s) (f (lt_tokens s)).
Definition next_uuid (s : link_tables) : link_tables :=
  mkLinkTables (lt_now s) (S (lt_uuids s)) (lt_draws s) (lt_memberships s) (lt_grants s) (lt_sessions s) (lt_tokens s).
Definition next_draw (s : link_tables) : link_tables :=
  mkLinkTables (lt_now s) (lt_uuids s) (S (lt_draws s)) (lt_memberships s) (lt_grants s) (lt_sessions s) (lt_tokens s).

Definition token_columns (r : token_rec) : QueryRow := [
  ("id", text_cell (lr_id r)); ("organization_id", text_cell (lr_org r)); ("workspace_id", text_cell (lr_workspace r));
  ("user_id", text_cell (lr_user r)); ("session_id", text_cell (lr_session r)); ("client_id", text_cell (lr_client r));
  ("scopes", CVal (JArr (JStr <$> lr_scopes r))); ("jti", text_cell (lr_jti r));
  ("membership_version", int_cell (lr_version r)); ("created_at", CDate (lr_created r));
  ("expires_at", CDate (lr_expires r)); ("revoked_at", null_date (lr_revoked r)); ("last_used_at", null_date (lr_used r))].

(** ** Conditions *)

(** [app.current_user_id()], the [nullif] of the setting. *)
Definition current_user (tx : link_settings) : option string :=
  match ls_user tx with Some user => if String.eqb user "" then None else Some user | None => None end.

(** An active membership of the user the transaction is run for. *)
Definition is_member (tx : link_settings) (org user : string) (r : membership_rec) : Prop :=
  (current_user tx = Some (me_user r) ∧ me_status r = MsActive) ∧ me_org r = org ∧ me_user r = user.
#[global] Instance is_member_dec tx org user r : Decision (is_member tx org user r).
Proof. unfold is_member. apply _. Defined.

Definition is_grant (tx : link_settings) (org user : string) (r : grant_rec) : Prop :=
  current_user tx = Some (gr_subject r) ∧ gr_org r = org ∧ gr_subject r = user ∧ gr_scope r = GsOrganization
  ∧ gr_scope_id r = org.
#[global] Instance is_grant_dec tx org user r : Decision (is_grant tx org user r).
Proof. unfold is_grant. apply _. Defined.

Definition is_session (now : Z) (session user org : string) (version : Z) (r : session_rec) : Prop :=
  se_id r = session ∧ se_user r = user ∧ se_org r = Some org ∧ se_version r = version ∧ (now < se_expires r)%Z.
#[global] Instance is_session_dec now session user org version r : Decision (is_session now session user org version r).
Proof. unfold is_session. apply _. Defined.

Definition is_token (me hash jti : string) (r : token_rec) : Prop := lr_org r = me ∧ lr_hash r = hash ∧ lr_jti r = jti.
#[global] Instance is_token_dec me hash jti r : Decision (is_token me hash jti r).
Proof. unfold is_token. apply _. Defined.

Definition has_token_id (me id : string) (r : token_rec) : Prop := lr_org r = me ∧ lr_id r = id.
#[global] Instance has_token_id_dec me id r : Decision (has_token_id me id r).
Proof. unfold has_token_id. apply _. Defined.

(** [token_hash ~ '^[a-f0-9]{64}$'] *)
Definition hash_shape (hash : string) : Prop :=
  matches_classes (replicate 64 (λ c, ascii_between "a" "f" c || ascii_between "0" "9" c)) hash = true.

(** The check constraints of [link_tokens]. *)
Definition token_checks (r : token_rec) : Prop :=
  lr_client r = "claude-code" ∧
  (length (lr_scopes r) = 1 ∨ length (lr_scopes r) = 2) ∧
  Forall (λ s, s ∈ ["tasks:read"; "tasks:write"]) (lr_scopes r) ∧
  (length (lr_scopes r) = 1 ∨ lr_scopes r !! 0 ≠ lr_scopes r !! 1) ∧
  hash_shape (lr_hash r) ∧
  string_forall (Ascii.eqb " "%char) (lr_jti r) = false ∧ String.length (lr_jti r) <= 180 ∧
  (0 < lr_version r)%Z ∧ (lr_created r < lr_expires r)%Z.
#[global] Instance token_checks_dec r : Decision (token_checks r).
Proof. unfold token_checks, hash_shape. apply _. Defined.

(** ** Statements *)

Section statements.
Context `{PostgresHost}.
Notation answer := (M link_tables execute_result).

Definition link_error {A} (code : string) : M link_tables A :=
  throw (ExnForeign true (JObj [("code", JStr code)])).
Definition link_uuid {A} (text : string) (k : string → M link_tables A) : M link_tables A :=
  match uuid_in text with Some id => k id | None => link_error "22P02" end.
Definition link_time {A} (text : string) (k : Z → M link_tables A) : M link_tables A :=
  match timestamp_in text with Some t => k t | None => link_error "22007" end.
Definition check_link {A} (code : string) (P : Prop) `{Decision P} (k : M link_tables A) : M link_tables A :=
  if decide P then k else link_error code.
Definition link_answer {A} (columns : A → QueryRow) (found : list A) : answer := mret (RowArray (columns <$> found)).
Definition link_change (f : link_tables → link_tables) (result : list QueryRow) : answer :=
  λ s, (Returned (RowArray result), f s).

(** The role keys of the grants, in order, beside the version of the membership;
    a user has one membership of an organization. *)
Definition select_membership (tx : link_settings) (org user : string) : answer :=
  s ← get_state;
  let roles := sort_strings (gr_role <$> filter (is_grant tx org user) (lt_grants s)) in
  link_answer (λ r, [("membership_version", int_cell (me_version r)); ("role_keys", CVal (JArr (JStr <$> roles)))])
    (take 1 (filter (is_member tx org user) (lt_memberships s))).

Definition select_session (session user org : string) (version : Z) : answer :=
  s ← get_state;
  link_answer (λ r, id_column "id" (se_id r))
    (take 1 (filter (is_session (lt_now s) session user org version) (lt_sessions s))).

Definition select_workspace (me workspace org : string) : answer :=
  link_answer (λ w, id_column "id" w)
    (if decide (workspace_org workspace = Some me ∧ me = org) then [workspace] else []).

(** The row security check, the checks, the unique indexes and the foreign keys. *)
Definition insert_token (me : string) (r : token_rec) : answer :=
  s ← get_state;
  check_link "22003" (int4 (lr_version r))
   (check_link "42501" (lr_org r = me)
    (check_link "23514" (token_checks r)
     (check_link "23505" (Forall (λ t, lr_hash t ≠ lr_hash r ∧ lr_jti t ≠ lr_jti r) (lt_tokens s))
      (check_link "23503" (workspace_org (lr_workspace r) = Some (lr_org r) ∧ user_exists (Some (lr_user r))
                           ∧ Exists (λ e, se_id e = lr_session r) (lt_sessions s))
        (link_change (λ s, next_uuid (on_tokens (λ l, l ++ [r]) s)) [token_columns r]))))).

Definition select_token (me hash jti : string) : answer :=
  s ← get_state; link_answer token_columns (take 1 (filter (is_token me hash jti) (lt_tokens s))).

Definition used_at (now : Z) (r : token_rec) : token_rec :=
  mkTokenRec (lr_id r) (lr_org r) (lr_workspace r) (lr_user r) (lr_session r) (lr_client r) (lr_scopes r) (lr_hash r)
    (lr_jti r) (lr_version r) (lr_created r) (lr_expires r) (lr_revoked r) (Some now).

(** [coalesce(revoked_at, now)] *)
Definition revoked_at (now : Z) (r : token_rec) : token_rec :=
  mkTokenRec (lr_id r) (lr_org r) (lr_workspace r) (lr_user r) (lr_session r) (lr_client r) (lr_scopes r) (lr_hash r)
    (lr_jti r) (lr_version r) (lr_created r) (lr_expires r) (Some (default now (lr_revoked r))) (lr_used r).

Definition touch_token (me id : string) (now : Z) : answer :=
  link_change (on_tokens (update_where (has_token_id me id) (used_at now))) [].

Definition revoke_token (me id user : string) (now : Z) : answer :=
  s ← get_state;
  let P r := has_token_id me id r ∧ lr_user r = user in
  link_change (on_tokens (update_where P (revoked_at now))) (token_columns ∘ revoked_at now <$> filter P (lt_tokens s)).

(** [order by created_at desc, id desc] *)
Definition select_tokens (me user : string) (workspace : option string) : answer :=
  s ← get_state;
  link_answer token_columns
    (rev (order_by (λ r, [lr_created r]) lr_id
       (filter (λ r, lr_org r = me ∧ lr_user r = user ∧ (workspace = None ∨ workspace = Some (lr_workspace r)))
          (lt_tokens s)))).

(** ** The driver *)

Definition execute_link_tables (tx : link_settings) (q : link_statement) : answer :=
  link_uuid (ls_org tx) (λ me,
  s ← get_state;
  match q with
  | SetCurrentUser user => mret (RowArray [id_column "set_config" user])
  | SelectCurrentUser => mret (RowArray [[("current_user_id", null_text (current_user tx))]])
  | SelectMembership org user => link_uuid org (λ o, select_membership tx o user)
  | SelectCurrentSession session user org version => link_uuid org (λ o, select_session session user o version)
  | SelectWorkspace workspace org => link_uuid workspace (λ w, link_uuid org (λ o, select_workspace me w o))
  | InsertLinkToken org workspace user session client scopes hash jti version createdAt expiresAt =>
      link_uuid org (λ o, link_uuid workspace (λ w, link_time createdAt (λ created, link_time expiresAt (λ expires,
        insert_token me (mkTokenRec (gen_uuid (lt_uuids s)) o w user session client scopes hash jti version created
                           expires None None)))))
  | SelectLinkToken hash jti => select_token me hash jti
  | TouchLinkToken id usedAt => link_uuid id (λ i, link_time usedAt (λ t, touch_token me i t))
  | RevokeLinkToken id user revokedAt => link_uuid id (λ i, link_time revokedAt (λ t, revoke_token me i user t))
  | SelectLinkTokens user None => select_tokens me user None
  | SelectLinkTokens user (Some workspace) => link_uuid workspace (λ w, select_tokens me user (Some w))
  end).

#[global] Instance link_driver : LinkDriver link_tables := {| execute_link := execute_link_tables |}.
End statements.

(** ** The host *)

(** The secret of every draw: 32 random bytes in base64url. *)
Class TokenSecrets := { secret_at : nat → string }.

#[global] Instance link_clock : WallClock link_tables := {| new_date s := (Returned (lt_now s), s) |}.

#[global] Instance link_host `{NodeRuntime} `{TokenSecrets} : TokenHost link_tables := {|
  randomUUID s := (Returned (randomUUID_at (lt_draws s)), next_draw s);
  randomSecret s := (Returned (secret_at (lt_draws s)), next_draw s)
|}.
