(* ===== verification/LinkTheorems.v ===== *)
(** * Identity and access: the properties of the link tokens

    The statements as equations over the reference driver, the round trip of a
    token, what a verification answers, and that a revocation is final. *)
From S2P Require Import Prelude JsString JsValue SharedKernel Effects DevBoardDomain JsText RuntimeDomain RuntimeInvariant.
From S2P Require Import TenantContext RuntimeSql RuntimeTables TaskDomain TaskSql TaskInputs TaskServices TaskTables TaskFrame.
From S2P Require Import TaskInvariant TaskGoverned JsJson IssueSql IssueFrame LinkTokens LinkTables TaskHistory.
From Stdlib Require Import Ascii RelationClasses.
From stdpp Require Import relations.

Import Ids LinkTokens.

(** ** The token round trip *)

(** The documented behaviour of the codec: decoding inverts encoding, whose alphabet
    is letters, digits, hyphens and underscores. *)
Class TokenCodecLaws `{TokenCodec} : Prop := {
  base64url_round_trip s : base64url_decode (base64url_encode s) = s;
  base64url_alphabet s : string_forall is_id_char (base64url_encode s) = true;
  base64url_empty s : base64url_encode s = "" → s = "";
}.

Class TokenSecretLaws `{TokenSecrets} : Prop := {
  secret_alphabet n : string_forall is_id_char (secret_at n) = true;
  secret_nonempty n : secret_at n ≠ "";
}.







Section round_trip.
Context `{NodeRuntime} `{TokenCodec} `{!TokenCodecLaws} `{JsonNumbers}.


End round_trip.

(** *** Scopes *)


(** ** The statements as equations *)

(** The record a row is read as: [None] when a time has no text. *)
Definition optional_iso (t : option Z) : option (option string) :=
  match t with None => Some None | Some t => Some <$> toISOString t end.

Definition dto_of (r : token_rec) : option LinkTokenDto :=
  created ← toISOString (lr_created r); expires ← toISOString (lr_expires r);
  revoked ← optional_iso (lr_revoked r); used ← optional_iso (lr_used r);
  Some (mkLinkTokenDto (lr_id r) (lr_org r) (lr_workspace r) (lr_user r) (lr_session r) linkTokenClientId
          (lr_scopes r) (lr_jti r) (lr_version r) created expires revoked used).

(** The role keys a membership comes with. *)
Definition role_keys (tx : link_settings) (org user : string) (s : link_tables) : list string :=
  sort_strings (gr_role <$> filter (is_grant tx org user) (lt_grants s)).

Section equations.
Context `{PostgresHost} `{NodeDates} `{OpaqueTexts} `{OpaqueNumbers}.
Implicit Types (s : link_tables) (tx : link_settings).

Lemma js_texts (l : list string) : js_to_string <$> (JStr <$> l) = l.
Proof. rewrite <- list_fmap_compose. apply list_fmap_id. Qed.

Lemma iso_text_eq t s :
  iso_text t s = match t ≫= toISOString with Some text => (Returned text, s) | None => (Thrown (ExnError "Invalid time value"), s) end.
Proof. unfold iso_text. by destruct (t ≫= toISOString). Qed.

Lemma nullable_date_eq t s :
  parseNullableLinkDate (null_date t) s =
  match optional_iso t with Some text => (Returned text, s) | None => (Thrown (ExnError "Invalid time value"), s) end.
Proof.
  destruct t as [t|]; [|done]. unfold parseNullableLinkDate. simpl. unfold mbind, M_bind. rewrite iso_text_eq. simpl.
  by destruct (toISOString t).
Qed.

Lemma row_eq r s :
  rowToLinkTokenDto (token_columns r) s =
  match dto_of r with Some dto => (Returned dto, s) | None => (Thrown (ExnError "Invalid time value"), s) end.
Proof.
  unfold rowToLinkTokenDto, dto_of, mbind, M_bind. simpl. rewrite !iso_text_eq. simpl.
  destruct (toISOString (lr_created r)); [|done]. simpl. rewrite iso_text_eq. simpl.
  destruct (toISOString (lr_expires r)); [|done]. simpl. rewrite nullable_date_eq.
  destruct (optional_iso (lr_revoked r)); [|done]. simpl. rewrite nullable_date_eq.
  destruct (optional_iso (lr_used r)); [|done]. unfold stringArray. simpl. by rewrite js_texts.
Qed.

Lemma set_current_user_eq tx user me s :
  uuid_in (ls_org tx) = Some me →
  setCurrentUser tx user s =
  if decide (trim user = "") then (Thrown (ExnDatabase TenantContextMissingError), s)
  else (Returned (mkSettings (ls_org tx) (Some user)), s).
Proof.
  intros Hme. unfold setCurrentUser, assertCurrentUser, link_row, execute_link, link_driver, execute_link_tables, link_uuid.
  unfold mbind, M_bind. rewrite Hme. simpl. destruct (String.eqb_spec (trim user) "") as [He|Hne].
  - by rewrite decide_True.
  - rewrite decide_False by done. unfold try_catch, mbind, M_bind. rewrite Hme. simpl. unfold current_user. simpl.
    destruct (String.eqb_spec user "") as [->|_]; [done|]. simpl. unfold cell_is, column. simpl. by rewrite String.eqb_refl.
Qed.

Lemma membership_eq tx org o user me s :
  uuid_in (ls_org tx) = Some me → uuid_in org = Some o →
  loadMembershipPrincipal tx org user s =
  (Returned ((λ m, mkMembership (me_version m) (role_keys tx o user s)) <$> head (filter (is_member tx o user) (lt_memberships s))), s).
Proof.
  intros Hme Ho. unfold loadMembershipPrincipal, link_row, execute_link, link_driver, execute_link_tables, link_uuid.
  unfold mbind, M_bind. rewrite Hme. simpl. rewrite Ho. simpl.
  destruct (filter _ (lt_memberships s)) as [|m l]; [done|]. unfold stringArray. simpl. by rewrite js_texts.
Qed.

Lemma session_eq tx session org o user version me s :
  uuid_in (ls_org tx) = Some me → uuid_in org = Some o →
  assertSessionCurrent tx session org user version s =
  (Returned (bool_decide (Exists (is_session (lt_now s) session user o version) (lt_sessions s))), s).
Proof.
  intros Hme Ho. unfold assertSessionCurrent, link_row, execute_link, link_driver, execute_link_tables, link_uuid.
  unfold mbind, M_bind. rewrite Hme. simpl. rewrite Ho. simpl.
  destruct (filter _ (lt_sessions s)) as [|e l] eqn:Hf; simpl.
  - rewrite bool_decide_false; [done|]. intros (e & He & Hp)%Exists_exists. by apply (filter_nil_not_elem_of _ _ e Hf).
  - rewrite bool_decide_true; [done|]. apply Exists_exists. exists e.
    assert (e ∈ filter (is_session (lt_now s) session user o version) (lt_sessions s)) as [? ?]%list_elem_of_filter; [|done].
    rewrite Hf. by left.
Qed.


Lemma select_token_eq tx hash jti me s :
  uuid_in (ls_org tx) = Some me →
  link_row tx (SelectLinkToken hash jti) s =
  (Returned (token_columns <$> head (filter (is_token me hash jti) (lt_tokens s))), s).
Proof.
  intros Hme. unfold link_row, execute_link, link_driver, execute_link_tables, link_uuid, mbind, M_bind. rewrite Hme. simpl.
  by destruct (filter _ (lt_tokens s)).
Qed.
End equations.

(** ** Verification *)

(** The host reads back the expiry times of the tokens. *)
Definition expiries_readable `{NodeDates} (s : link_tables) : Prop :=
  Forall (λ r, (toISOString (lr_expires r) ≫= date_parse) = Some (lr_expires r)) (lt_tokens s).

(** The membership and the session a token was issued for are still those of its user. *)
Definition current_membership (s : link_tables) (r : token_rec) : Prop :=
  ∃ m, m ∈ lt_memberships s ∧ me_org m = lr_org r ∧ me_user m = lr_user r ∧ me_status m = MsActive ∧ me_version m = lr_version r.
Definition current_session (s : link_tables) (r : token_rec) : Prop :=
  ∃ e, e ∈ lt_sessions s ∧ is_session (lt_now s) (lr_session r) (lr_user r) (lr_org r) (lr_version r) e.

(** The principal of a token: what its record says, and the roles of its user. *)
Definition principal (s : link_tables) (r : token_rec) : LinkTokenPrincipal :=
  mkLinkPrincipal (lr_org r) (lr_workspace r) (lr_user r) (lr_session r) linkTokenClientId (lr_scopes r) (lr_id r)
    (lr_version r) (lr_user r) (role_keys (mkSettings (lr_org r) (Some (lr_user r))) (lr_org r) (lr_user r) s).

Lemma dto_of_fields r record : dto_of r = Some record →
  ∃ created expires revoked used, toISOString (lr_expires r) = Some expires ∧ optional_iso (lr_revoked r) = Some revoked ∧
  record = mkLinkTokenDto (lr_id r) (lr_org r) (lr_workspace r) (lr_user r) (lr_session r) linkTokenClientId
             (lr_scopes r) (lr_jti r) (lr_version r) created expires revoked used.
Proof.
  unfold dto_of. intros Hd. apply bind_Some in Hd as (c & _ & Hd). apply bind_Some in Hd as (e & He & Hd).
  apply bind_Some in Hd as (rv & Hr & Hd). apply bind_Some in Hd as (u & _ & Hd). injection Hd as <-.
  exists c, e, rv, u. done.
Qed.

Section verification.
Context `{PostgresHost} `{!PostgresUuids} `{TenantDatabase} `{NodeDates} `{OpaqueTexts} `{OpaqueNumbers}.
Context `{NodeRuntime} `{TokenSecrets} `{TokenCodec} `{JsonNumbers}.
Implicit Types (s : link_tables) (tx : link_settings).

(** A statement needs the organization of the transaction to be a uuid. *)
Lemma link_row_org tx q s row s' : link_row tx q s = (Returned row, s') → ∃ me, uuid_in (ls_org tx) = Some me.
Proof.
  intros Hrow. unfold link_row, execute_link, link_driver, execute_link_tables, link_uuid, mbind, M_bind in Hrow.
  destruct (uuid_in (ls_org tx)) as [me|]; [by exists me|done].
Qed.

Lemma verify_in_sound org claims hash scopes now s p s' :
  verify_in (mkSettings org None) claims hash scopes now s = (Returned (ok p), s') →
  ∃ r, r ∈ lt_tokens s ∧ lr_hash r = hash ∧ lr_jti r = lc_jti claims ∧ lr_org r = lc_tenant_id claims ∧
    lr_session r = lc_sid claims ∧ scopeClaim (lr_scopes r) = scopeClaim scopes ∧
    lr_revoked r = None ∧ (∀ t, (toISOString (lr_expires r) ≫= date_parse) = Some t → (now < t)%Z) ∧
    current_membership s r ∧ current_session s r ∧ p = principal s r.
Proof.
  intros Hrun. apply bind_returned in Hrun as (row & s1 & Hrow & Hrun).
  destruct (link_row_org _ _ _ _ _ Hrow) as [me Hme]. rewrite (select_token_eq _ _ _ me) in Hrow by done.
  injection Hrow as <- <-. destruct (head _) as [r|] eqn:Hr; [|done]. apply head_filter in Hr as [Hr (Horg & Hhash & Hjti)].
  cbn [fmap option_fmap option_map] in Hrun. apply bind_returned in Hrun as (record & s2 & Hrecord & Hrun).
  rewrite row_eq in Hrecord. destruct (dto_of r) as [dto|] eqn:Hdto; [|done]. injection Hrecord as <- <-.
  apply bind_returned in Hrun as (tx & s3 & Htx & Hrun). rewrite (set_current_user_eq _ _ me) in Htx by done.
  case_decide; [done|]. injection Htx as <- <-.
  destruct (dto_of_fields r dto Hdto) as (created & expires & revoked & used & Hexp & Hrev & ->). simpl in Hrun.
  destruct (record_matches _ _ _) eqn:Hmatch; [|done]. simpl in Hrun.
  apply andb_true_iff in Hmatch as [Hmatch Hscopes%String.eqb_eq]. apply andb_true_iff in Hmatch as [Hmatch _].
  apply andb_true_iff in Hmatch as [Hmatch _]. apply andb_true_iff in Hmatch as [Htenant%String.eqb_eq Hsid%String.eqb_eq].
  simpl in Htenant, Hsid, Hscopes. destruct (bool_decide (revoked = None)) eqn:Hrv; [|done].
  apply bool_decide_eq_true in Hrv as ->. simpl in Hrun. destruct (isExpired _ _) eqn:Hex; [done|].
  assert (uuid_in me = Some me) as Hcanon by (by eapply uuid_in_canonical).
  apply bind_returned in Hrun as (membership & s4 & Hmem & Hrun).
  rewrite (membership_eq _ _ (lr_org r) _ me) in Hmem by (done || by rewrite Horg). injection Hmem as <- <-.
  destruct (head _) as [m|] eqn:Hm; [|done]. apply head_filter in Hm as [Hm ((_ & Hact) & Hmorg & Hmuser)].
  cbn [fmap option_fmap option_map] in Hrun. simpl in Hrun. destruct (Z.eqb_spec (me_version m) (lr_version r)) as [Hv|]; [|done].
  simpl in Hrun. apply bind_returned in Hrun as (current & s5 & Hcur & Hrun).
  rewrite (session_eq _ _ _ (lr_org r) _ _ me) in Hcur by (done || by rewrite Horg). injection Hcur as <- <-.
  destruct (bool_decide (Exists _ (lt_sessions s))) eqn:Hses; [|done]. apply bool_decide_eq_true, Exists_exists in Hses as (e & He & Hs).
  apply bind_returned in Hrun as (t & s6 & _ & Hrun). apply bind_returned in Hrun as (res & s7 & _ & Hret). injection Hret as <- _.
  exists r. split_and!; try done.
  - destruct (lr_revoked r) as [t'|]; [|done]. simpl in Hrev. by destruct (toISOString t').
  - intros t'. rewrite Hexp. cbn [mbind option_bind]. intros Ht. rewrite Ht in Hex. by apply Z.leb_gt in Hex.
  - by exists m.
  - by exists e.
Qed.
End verification.

(** ** What the services change *)

(** What no service changes of a token. *)
Definition frozen (r : token_rec) : token_rec :=
  mkTokenRec (lr_id r) (lr_org r) (lr_workspace r) (lr_user r) (lr_session r) (lr_client r) (lr_scopes r) (lr_hash r)
    (lr_jti r) (lr_version r) (lr_created r) (lr_expires r) None None.

(** Every token comes from the same token before, which stays revoked, or has the
    new identifier [j]. *)
Record along (j : option string) (s s' : link_tables) : Prop := {
  along_draws : lt_draws s <= lt_draws s';
  along_unique : NoDup (lr_jti <$> lt_tokens s) → NoDup (lr_jti <$> lt_tokens s');
  along_rows r' : r' ∈ lt_tokens s' →
    (∃ r, r ∈ lt_tokens s ∧ frozen r' = frozen r ∧ (lr_revoked r ≠ None → lr_revoked r' ≠ None)) ∨ j = Some (lr_jti r');
}.

#[global] Instance along_preorder j : PreOrder (along j).
Proof.
  split; [intros s; split; [done|done|by left; exists r']|]. intros s s1 s2 [Hd Hu Hr] [Hd' Hu' Hr'].
  split; [lia|by auto|]. intros r2 Hr2. destruct (Hr' _ Hr2) as [(r1 & Hr1 & Hf & Hv)|]; [|by right].
  destruct (Hr _ Hr1) as [(r & Hin & Hf' & Hv')|Hj].
  - left. exists r. split_and!; [done|by rewrite Hf|by auto].
  - right. by rewrite Hj; injection Hf as _ _ _ _ _ _ _ _ -> _ _ _.
Qed.

Lemma along_mono j s s' : along None s s' → along j s s'.
Proof. intros [? ? Hr]. split; [done..|]. intros r' Hr'. destruct (Hr r' Hr') as [|]; [by left|done]. Qed.

(** A statement inserts no token but that of [j]. *)
Definition inserts_only (j : option string) (q : link_statement) : Prop :=
  match q with InsertLinkToken _ _ _ _ _ _ _ jti _ _ _ => j = Some jti | _ => True end.

Section changes.
Context `{PostgresHost} `{TenantDatabase} `{NodeDates} `{OpaqueTexts} `{OpaqueNumbers}.
Context `{NodeRuntime} `{TokenSecrets} `{TokenCodec} `{JsonNumbers}.

Lemma along_update (j : option string) P `{∀ r, Decision (P r)} f s :
  (∀ r, frozen (f r) = frozen r ∧ (lr_revoked r ≠ None → lr_revoked (f r) ≠ None)) →
  along j s (on_tokens (update_where P f) s).
Proof.
  intros Hf. split; [done| |].
  - simpl. rewrite update_where_fmap; [done|]. intros r _. by destruct (Hf r) as [[=] _].
  - intros r' (r & Hr & [[_ ->]|[_ ->]])%elem_of_update_where; left; exists r; [|done]. split; [done|]. apply Hf.
Qed.

Lemma moves_link_uuid j {A} text (k : string → M link_tables A) :
  (∀ id, moves (along j) (k id)) → moves (along j) (link_uuid text k).
Proof. intros Hk. unfold link_uuid. destruct (uuid_in text); [done|]. apply (moves_throw (along j)). Qed.
Lemma moves_link_time j {A} text (k : Z → M link_tables A) :
  (∀ t, moves (along j) (k t)) → moves (along j) (link_time text k).
Proof. intros Hk. unfold link_time. destruct (timestamp_in text); [done|]. apply (moves_throw (along j)). Qed.

Lemma moves_insert_token j me r : j = Some (lr_jti r) → moves (along j) (insert_token me r).
Proof.
  intros Hj s. unfold insert_token, check_link, mbind, M_bind, get_state.
  repeat (case_decide; [|simpl; reflexivity]). simpl. split; [done| |].
  - simpl. intros Hnd. rewrite fmap_app. apply NoDup_app. split_and!; [done| |by apply NoDup_singleton].
    intros x (t & -> & Ht)%list_elem_of_fmap. simpl.
    match goal with Hf : Forall _ (lt_tokens s) |- _ => rewrite Forall_forall in Hf; destruct (Hf t Ht) end.
    by intros ?%list_elem_of_singleton.
  - intros r'. simpl. rewrite elem_of_app, list_elem_of_singleton. intros [Hr| ->]; [left; by exists r'|by right].
Qed.

Lemma moves_execute_link j tx q : inserts_only j q → moves (along j) (execute_link tx q).
Proof.
  intros Hq. apply moves_link_uuid. intros me s. unfold mbind, M_bind, get_state.
  assert (Href : ∀ s, along j s s) by (intros; reflexivity).
  destruct q as [| | | | |org w user session client scopes hash jti version created expires| |id used|id user revoked|user [w|]]; simpl;
    try apply Href; try (unfold link_uuid; repeat (case_match; simpl; try apply Href); fail).
  - apply (moves_link_uuid j org). intros o. apply moves_link_uuid. intros w'. apply moves_link_time. intros c.
    apply moves_link_time. intros e. by apply moves_insert_token.
  - apply (moves_link_uuid j id). intros i. apply moves_link_time. intros t s'. by apply along_update.
  - apply (moves_link_uuid j id). intros i. apply moves_link_time. intros t s'. by apply along_update.
Qed.

Section services.
Variable j : option string.

Lemma moves_iso_text t : moves (along j) (iso_text t).
Proof. apply (moves_stateless (along j)). unfold iso_text. destruct (t ≫= toISOString); eexists; done. Qed.
Lemma moves_link_clock t : moves (along j) (nowDate t).
Proof. intros s. destruct t; simpl; reflexivity. Qed.
#[local] Hint Resolve moves_iso_text moves_link_clock : moves.

Lemma moves_link_row tx q : inserts_only j q → moves (along j) (link_row tx q).
Proof. intros Hq. apply (moves_bind (along j)); [by apply moves_execute_link|]. intros r. apply (moves_ret (along j)). Qed.

Lemma moves_row row : moves (along j) (rowToLinkTokenDto row).
Proof.
  assert (∀ c, moves (along j) (parseLinkDate c)) as Hd.
  { intros [t|[]]; simpl; eauto using moves_iso_text. all: apply (moves_throw (along j)). }
  assert (∀ c, moves (along j) (parseNullableLinkDate c)) as Hn.
  { intros c. unfold parseNullableLinkDate. destruct (absent c); [apply (moves_ret (along j))|].
    apply (moves_bind (along j)); [done|]. intros t. apply (moves_ret (along j)). }
  unfold rowToLinkTokenDto. repeat (apply (moves_bind (along j)); [done|intros ?]). apply (moves_ret (along j)).
Qed.

Lemma moves_rows rows : moves (along j) (rowsToLinkTokenDtos rows).
Proof.
  induction rows as [|row rows IH]; [apply (moves_ret (along j))|]. apply (moves_bind (along j)); [apply moves_row|]. intros dto.
  apply (moves_bind (along j)); [done|]. intros dtos. apply (moves_ret (along j)).
Qed.

Lemma moves_set_current_user tx user : moves (along j) (setCurrentUser tx user).
Proof.
  apply (moves_bind (along j)); [by apply moves_execute_link|]. intros r. apply (moves_bind (along j)); [ |intros ?; apply (moves_ret (along j))].
  unfold assertCurrentUser. case_match; [apply (moves_throw (along j))|]. apply (moves_try_catch (along j)); [ |intros e; apply (moves_throw (along j))].
  apply (moves_bind (along j)); [by apply moves_link_row|]. intros row. repeat case_match; first [apply (moves_ret (along j))|apply (moves_throw (along j))].
Qed.
Local Ltac step := first [done | apply moves_set_current_user | apply moves_row | apply moves_rows | apply moves_iso_text
  | apply moves_link_clock | by apply moves_link_row | by apply moves_execute_link | apply (moves_ret (along j)) | apply (moves_throw (along j))
  | apply (moves_bind (along j)); [ |intros ?] | case_match ].

Lemma moves_issue_in tx input scopes issuedAt expiresAt claims token :
  j = Some (lc_jti claims) → moves (along j) (issue_in tx input scopes issuedAt expiresAt claims token).
Proof.
  intros Hj. unfold issue_in, assertWorkspaceInTenant, loadMembershipPrincipal, assertSessionCurrent. repeat step.
Qed.

Lemma moves_verify_in tx claims hash scopes now : moves (along j) (verify_in tx claims hash scopes now).
Proof. unfold verify_in, loadMembershipPrincipal, assertSessionCurrent. repeat step. Qed.

Lemma moves_verify input : moves (along j) (verifyLinkToken input).
Proof.
  unfold verifyLinkToken. destruct (parseToken _) as [[claims hash]|e]; [|apply (moves_ret (along j))].
  destruct (parseScopeClaim _); [|apply (moves_ret (along j))]. apply (moves_bind (along j)); [apply moves_link_clock|]. intros now.
  case_match; [apply (moves_ret (along j))|]. apply (moves_attempt (along j)). apply moves_verify_in.
Qed.

Lemma moves_revoke input : moves (along j) (revokeLinkToken input).
Proof.
  unfold revokeLinkToken. case_match; [apply (moves_ret (along j))|]. apply (moves_attempt (along j)). unfold revoke_in. repeat step.
Qed.

Lemma moves_list input : moves (along j) (listLinkTokens input).
Proof.
  unfold listLinkTokens. case_match; [apply (moves_ret (along j))|]. apply (moves_attempt (along j)). unfold list_in. repeat step.
Qed.
End services.

Lemma now_eq t s : nowDate t s = (Returned (default (lt_now s) t), s).
Proof. by destruct t. Qed.

(** Issuing draws an identifier and a secret before its transaction. *)
Definition issued_claims (input : IssueLinkTokenInput) (scopes : list string) (expiresAt : option Z) (jti : string) :=
  mkLinkClaims linkTokenAudience (scopeClaim scopes) (ii_sessionId input) (ii_orgId input) (exp_claim expiresAt) jti.

Lemma issue_eq input scopes text s :
  let issuedAt := default (lt_now s) (ii_now input) in
  let expiresAt := time_clip (issuedAt + ttl_seconds input * 1000) in
  let claims := issued_claims input scopes expiresAt (randomUUID_at (lt_draws s)) in
  validateIssueInput input = ok scopes → jsonStringify (claims_value claims) = Some (Some text) →
  let token := tokenPrefix +:+ base64url_encode text +:+ "." +:+ secret_at (S (lt_draws s)) in
  issueLinkToken input s =
  attempt (ii_orgId input) linkTokenIssueFailed.1 linkTokenIssueFailed.2
    (issue_in (mkSettings (ii_orgId input) None) input scopes issuedAt expiresAt claims token) (next_draw (next_draw s)).
Proof.
  intros issuedAt expiresAt claims Hv Htext token. unfold issueLinkToken. rewrite Hv.
  unfold mbind at 1, M_bind at 1. rewrite now_eq. unfold mbind at 1, M_bind at 1. simpl randomUUID. cbn beta iota.
  unfold mbind at 1, M_bind at 1. unfold tokenFromClaims, mbind, M_bind. simpl randomSecret. cbn beta iota.
  unfold base64UrlJson. fold issuedAt expiresAt. fold (issued_claims input scopes expiresAt (randomUUID_at (lt_draws s))).
  fold claims. by rewrite Htext.
Qed.

Lemma claims_text claims : ∃ text, jsonStringify (claims_value claims) = Some (Some text).
Proof. by eexists. Qed.

Lemma next_draw_along j s : along j s (next_draw s).
Proof. split; [simpl; lia|done|]. intros r Hr. left. by exists r. Qed.

(** A new token has the identifier drawn next. *)
Definition fresh_along (s s' : link_tables) : Prop :=
  ∃ j, along j s s' ∧ (∀ x, j = Some x → x = randomUUID_at (lt_draws s) ∧ lt_draws s < lt_draws s').

Lemma along_fresh s s' : along None s s' → fresh_along s s'.
Proof. intros Ha. by exists None. Qed.

Lemma issue_along input s : fresh_along s (issueLinkToken input s).2.
Proof.
  destruct (validateIssueInput input) as [scopes|e] eqn:Hv;
    [|apply along_fresh; unfold issueLinkToken; rewrite Hv; reflexivity].
  set (issuedAt := default (lt_now s) (ii_now input)).
  destruct (claims_text (issued_claims input scopes (time_clip (issuedAt + ttl_seconds input * 1000))
    (randomUUID_at (lt_draws s)))) as [text Ht].
  rewrite (issue_eq input scopes text s Hv Ht). exists (Some (randomUUID_at (lt_draws s))).
  set (run := (attempt _ _ _ _ _).2).
  assert (along (Some (randomUUID_at (lt_draws s))) (next_draw (next_draw s)) run) as Hrun.
  { apply (moves_attempt (along (Some (randomUUID_at (lt_draws s))))). by apply moves_issue_in. }
  split; [by do 2 (etrans; [apply next_draw_along|])|]. intros x [= <-]. split; [done|].
  apply along_draws in Hrun. simpl in Hrun. lia.
Qed.
End changes.

(** ** Histories *)

Section histories.
Context `{PostgresHost} `{!PostgresUuids} `{TenantDatabase} `{NodeDates} `{OpaqueTexts} `{OpaqueNumbers}.
Context `{NodeRuntime} `{!DistinctUuids} `{TokenSecrets} `{TokenCodec} `{JsonNumbers}.
Implicit Types (s : link_tables).

(** A service runs, or another part of the system changes memberships, grants,
    sessions and time, and deletes tokens, as the deletion of a session does. *)
Inductive link_event s : link_tables → Prop :=
| ev_issue input : link_event s (issueLinkToken input s).2
| ev_verify input : link_event s (verifyLinkToken input s).2
| ev_revoke input : link_event s (revokeLinkToken input s).2
| ev_list input : link_event s (listLinkTokens input s).2
| ev_elsewhere s' : lt_draws s <= lt_draws s' → lt_tokens s' `sublist_of` lt_tokens s → link_event s s'.

(** The tables some history leads to from empty ones. *)
Definition link_reachable s : Prop := ∃ s0, lt_tokens s0 = [] ∧ rtc link_event s0 s.

Lemma event_along s s' : link_event s s' → fresh_along s s'.
Proof.
  intros [input|input|input|input|s1 Hd Hs]; [apply issue_along|apply along_fresh..].
  - apply moves_verify.
  - apply moves_revoke.
  - apply moves_list.
  - split; [done| |].
    + intros Hnd. eapply sublist_NoDup; [exact Hnd|by apply fmap_sublist].
    + intros r Hr. left. exists r. split; [by eapply elem_of_submseteq, sublist_submseteq|done].
Qed.

Definition drawn (jti : string) s : Prop := ∃ n, n < lt_draws s ∧ jti = randomUUID_at n.

(** The identifiers of the tokens were drawn, each once. *)
Record tokens_ok s : Prop := {
  tokens_drawn : Forall (λ r, drawn (lr_jti r) s) (lt_tokens s);
  tokens_unique : NoDup (lr_jti <$> lt_tokens s);
}.

(** The identifier was drawn, and no token with it is unrevoked. *)
Definition spent (jti : string) s : Prop :=
  drawn jti s ∧ ∀ r, r ∈ lt_tokens s → lr_jti r = jti → lr_revoked r ≠ None.

Lemma drawn_later jti s s' : lt_draws s <= lt_draws s' → drawn jti s → drawn jti s'.
Proof. intros Hd (n & Hn & ->). exists n. split; [lia|done]. Qed.

Lemma event_tokens_ok s s' : link_event s s' → tokens_ok s → tokens_ok s'.
Proof.
  intros (j & Ha & Hj)%event_along [Hdr Hu]. split; [|by eapply along_unique].
  apply Forall_forall. intros r' Hr'. destruct (along_rows _ _ _ Ha r' Hr') as [(r & Hr & Hf & _)|Hn].
  - injection Hf as _ _ _ _ _ _ _ _ -> _ _ _. rewrite Forall_forall in Hdr.
    eapply drawn_later; [by eapply along_draws|]. by apply Hdr.
  - destruct (Hj _ Hn) as [Hx Hlt]. by exists (lt_draws s).
Qed.

Lemma reachable_tokens_ok s : link_reachable s → tokens_ok s.
Proof.
  intros (s0 & Hs0 & Hr). assert (tokens_ok s0) as Hok by (split; rewrite Hs0; constructor).
  clear Hs0. induction Hr as [|s0 s1 s He _ IH]; [done|]. apply IH. by eapply event_tokens_ok.
Qed.

Lemma event_spent jti s s' : link_event s s' → spent jti s → spent jti s'.
Proof.
  intros (j & Ha & Hj)%event_along [Hdr Hsp]. split; [eapply drawn_later; [by eapply along_draws|done]|].
  intros r' Hr' Hjti. destruct (along_rows _ _ _ Ha r' Hr') as [(r & Hr & Hf & Hv)|Hn].
  - apply Hv, (Hsp r Hr). by injection Hf as _ _ _ _ _ _ _ _ <- _ _ _.
  - destruct (Hj _ Hn) as [Hx _]. destruct Hdr as (n & Hn' & Hd). rewrite <- Hjti, Hx in Hd.
    apply randomUUID_distinct in Hd. lia.
Qed.

Lemma history_spent jti s s' : rtc link_event s s' → spent jti s → spent jti s'.
Proof. induction 1 as [|s s1 s' He _ IH]; [done|]. intros Hs. by eapply IH, event_spent. Qed.

(** What a revocation that answers a record has done. *)
Lemma revoke_run input s dto s1 :
  revokeLinkToken input s = (Returned (ok (Some dto)), s1) →
  ∃ me i t r, uuid_in (ri_orgId input) = Some me ∧ uuid_in (ri_tokenId input) = Some i ∧
    r ∈ lt_tokens s ∧ has_token_id me i r ∧ lr_user r = ri_userId input ∧ ld_jti dto = lr_jti r ∧
    s1 = on_tokens (update_where (λ r, has_token_id me i r ∧ lr_user r = ri_userId input) (revoked_at t)) s.
Proof.
  unfold revokeLinkToken. case_match; [done|]. intros Hrun.
  match type of Hrun with attempt ?o ?c ?m ?f s = _ => destruct (attempt_returns o c m f s) as (a & s2 & Ha & Hor) end.
  rewrite Hrun in Ha. injection Ha as <- <-. destruct Hor as [[? _]|Hin]; [done|].
  apply bind_returned in Hin as (tx & s2 & Htx & Hin).
  destruct (uuid_in (ri_orgId input)) as [me|] eqn:Hme.
  2: { exfalso. unfold setCurrentUser, execute_link, link_driver, execute_link_tables, link_uuid, mbind, M_bind in Htx.
       simpl in Htx. by rewrite Hme in Htx. }
  rewrite (set_current_user_eq _ _ me) in Htx by done. case_decide; [done|]. injection Htx as <- <-.
  apply bind_returned in Hin as (now & s3 & Hnow & Hin). rewrite now_eq in Hnow. injection Hnow as <- <-.
  apply bind_returned in Hin as (text & s4 & Htext & Hin). rewrite iso_text_eq in Htext. case_match; [|done].
  injection Htext as -> <-. apply bind_returned in Hin as (row & s5 & Hrow & Hin).
  unfold link_row, execute_link, link_driver, execute_link_tables, link_uuid, mbind, M_bind in Hrow. simpl in Hrow.
  rewrite Hme in Hrow. simpl in Hrow. destruct (uuid_in (ri_tokenId input)) as [i|] eqn:Hi; [|done].
  unfold link_time in Hrow. destruct (timestamp_in text) as [t|]; [|done]. injection Hrow as <- <-.
  destruct (filter _ (lt_tokens s)) as [|r l] eqn:Hf; [done|]. simpl in Hin.
  apply bind_returned in Hin as (record & s6 & Hrec & Hin). injection Hin as <- <-.
  change (rowToLinkTokenDto (token_columns (revoked_at t r)) (on_tokens (update_where
    (λ r, has_token_id me i r ∧ lr_user r = ri_userId input) (revoked_at t)) s) = (Returned record, s6)) in Hrec.
  rewrite row_eq in Hrec. destruct (dto_of _) as [d|] eqn:Hd; [|done]. injection Hrec as <- <-.
  destruct (dto_of_fields _ _ Hd) as (? & ? & ? & ? & _ & _ & ->).
  assert (r ∈ filter (λ r, has_token_id me i r ∧ lr_user r = ri_userId input) (lt_tokens s)) as [[? ?] ?]%list_elem_of_filter
    by (rewrite Hf; by left).
  by exists me, i, t, r.
Qed.

Lemma revoked_spent input s dto s1 :
  tokens_ok s → revokeLinkToken input s = (Returned (ok (Some dto)), s1) → spent (ld_jti dto) s1.
Proof.
  intros [Hdr Hu] (me & i & t & r & _ & _ & Hr & Hid & Huser & -> & ->)%revoke_run. rewrite Forall_forall in Hdr.
  split; [by apply (Hdr r)|]. intros r1 (r0 & Hr0 & [[_ ->]|[Hn ->]])%elem_of_update_where Hj; [done|].
  assert (r0 = r) as -> by (by eapply (fmap_unique lr_jti)). by destruct Hn.
Qed.
End histories.

(** ** From issuing to verifying *)


Section issued.
Context `{PostgresHost} `{!PostgresUuids} `{TenantDatabase} `{NodeDates} `{OpaqueTexts} `{OpaqueNumbers}.
Context `{NodeRuntime} `{TokenSecrets} `{!TokenSecretLaws} `{TokenCodec} `{!TokenCodecLaws} `{JsonNumbers}.
Implicit Types (s : link_tables).





(** A service that answers has opened its transaction, and another one opens too. *)
Lemma attempt_opened {A} org code message (fn : M link_tables (Result A)) s a s' :
  attempt org code message fn s = (Returned (ok a), s') →
  fn s = (Returned (ok a), s') ∧
  ∀ B code' message' (fn' : M link_tables (Result B)) t b t', fn' t = (Returned b, t') →
    attempt org code' message' fn' t = (Returned b, t').
Proof.
  unfold attempt, try_catch, inTransaction. rewrite withTenant_guard.
  destruct (stateless_tenant_guard (S := link_tables) org) as [[u|e] Hg]; rewrite Hg; simpl; [|done].
  destruct (fn s) as [[b|e] s1]; [|done]. intros [= -> ->]. split; [done|]. intros B code' message' fn' t b t' Hf.
  by rewrite withTenant_guard, Hg, Hf.
Qed.



End issued.

(** ** Runs of the services *)

Section runs.
Context `{PostgresHost} `{TenantDatabase} `{NodeDates} `{OpaqueTexts} `{OpaqueNumbers}.
Context `{NodeRuntime} `{TokenSecrets} `{TokenCodec} `{JsonNumbers}.
Implicit Types (s : link_tables).

Lemma verify_run input s p s' :
  verifyLinkToken input s = (Returned (ok p), s') →
  ∃ claims scopes, let now := default (lt_now s) (vi_now input) in
    parseToken (vi_token input) = ok (claims, hashToken (vi_token input)) ∧ parseScopeClaim (lc_scope claims) = ok scopes ∧
    isExpired (claim_time (lc_exp claims)) now = false ∧
    verify_in (mkSettings (lc_tenant_id claims) None) claims (hashToken (vi_token input)) scopes now s = (Returned (ok p), s').
Proof.
  unfold verifyLinkToken. destruct (parseToken _) as [[claims hash]|e] eqn:Hparse; [|done].
  assert (hash = hashToken (vi_token input)) as ->.
  { unfold parseToken in Hparse. repeat (case_match; try done). by injection Hparse as _ <-. }
  destruct (parseScopeClaim _) as [scopes|e] eqn:Hsc; [|done]. unfold mbind at 1, M_bind at 1. rewrite now_eq.
  destruct (isExpired _ _) eqn:He; [done|]. intros Hrun. apply attempt_opened in Hrun as [Hin _]. by exists claims, scopes.
Qed.

End runs.

(** ** The properties *)

Section properties.
Context `{PostgresHost} `{!PostgresUuids} `{TenantDatabase} `{NodeDates} `{OpaqueTexts} `{OpaqueNumbers}.
Context `{NodeRuntime} `{TokenSecrets} `{TokenCodec} `{JsonNumbers}.
Implicit Types (s : link_tables).

(** C11. A token is honoured only for what its record says, while all it depends on
    is current: when [verifyLinkToken] answers a principal, the table holds the hash
    of this very token under the identifier, the organization and the session it
    claims, with the scopes it claims; the record is neither revoked nor expired; its
    user is an active member of the organization at the version the token was issued
    for; the session is that user's, of that organization and version, and unexpired;
    and the principal is the record's, with the role keys of its user. *)
Theorem verified_tokens_are_current input s p s' :
  expiries_readable s →
  verifyLinkToken input s = (Returned (ok p), s') →
  ∃ claims scopes r,
    parseToken (vi_token input) = ok (claims, hashToken (vi_token input)) ∧
    parseScopeClaim (lc_scope claims) = ok scopes ∧
    isExpired (claim_time (lc_exp claims)) (default (lt_now s) (vi_now input)) = false ∧
    r ∈ lt_tokens s ∧ lr_hash r = hashToken (vi_token input) ∧ lr_jti r = lc_jti claims ∧
    lr_org r = lc_tenant_id claims ∧ lr_session r = lc_sid claims ∧ scopeClaim (lr_scopes r) = scopeClaim scopes ∧
    lr_revoked r = None ∧ (default (lt_now s) (vi_now input) < lr_expires r)%Z ∧
    current_membership s r ∧ current_session s r ∧ p = principal s r.
Proof.
  intros Hread Hrun. apply verify_run in Hrun as (claims & scopes & Hparse & Hscope & Hexp & Hin).
  apply verify_in_sound in Hin as (r & Hr & Hhash & Hjti & Horg & Hsid & Hsc & Hrev & Hlt & Hm & Hs & Hp).
  exists claims, scopes, r. split_and!; try done. apply Hlt. unfold expiries_readable in Hread.
  rewrite Forall_forall in Hread. by apply Hread.
Qed.

(** C12. A revocation is final: after [revokeLinkToken] has answered a record, no
    token that claims the identifier of that record is ever honoured again, whatever
    services run and however memberships, sessions and time change. *)
Theorem revocation_is_final `{!DistinctUuids} input s dto s1 s2 v claims hash p s3 :
  link_reachable s → revokeLinkToken input s = (Returned (ok (Some dto)), s1) → rtc link_event s1 s2 →
  parseToken (vi_token v) = ok (claims, hash) → lc_jti claims = ld_jti dto →
  verifyLinkToken v s2 ≠ (Returned (ok p), s3).
Proof.
  intros Hs%reachable_tokens_ok Hrevoke Hlater Hparse Hjti Hrun.
  apply revoked_spent in Hrevoke; [|done]. apply (history_spent _ _ _ Hlater) in Hrevoke as [_ Hsp].
  apply verify_run in Hrun as (claims' & scopes & Hparse' & _ & _ & Hin). rewrite Hparse in Hparse'. injection Hparse' as <- _.
  apply verify_in_sound in Hin as (r & Hr & _ & Hr' & _ & _ & _ & Hrev & _). apply (Hsp r Hr); [by rewrite Hr'|done].
Qed.

End properties.

(** ** A token of a member *)

Module LinkExample.

(** A run that answers a value. *)
Definition answered {A} (run : outcome (Result A) * link_tables) : bool :=
  match run.1 with Returned (ok _) => true | _ => false end.
Lemma answered_run {A} (run : outcome (Result A) * link_tables) :
  answered run = true → ∃ a s, run = (Returned (ok a), s).
Proof. destruct run as [[[a|e]|e] s]; [|done..]. by exists a, s. Qed.

(** A revocation answers the record a token claims. *)
Definition same_identifier (run : outcome (Result (option LinkTokenDto)) * link_tables)
    (parsed : Result (LinkTokenClaims * string)) : bool :=
  match run.1, parsed with
  | Returned (ok (Some dto)), ok (claims, _) => String.eqb (lc_jti claims) (ld_jti dto)
  | _, _ => false
  end.
Lemma same_identifier_run run parsed :
  same_identifier run parsed = true →
  ∃ dto claims hash, run = (Returned (ok (Some dto)), run.2) ∧ parsed = ok (claims, hash) ∧ lc_jti claims = ld_jti dto.
Proof.
  destruct run as [[[[dto|]|e]|e] s], parsed as [[claims hash]|e']; try done. intros Heq%String.eqb_eq. by exists dto, claims, hash.
Qed.

(** The times of the example and their texts. *)
Definition issue_text : string := "1970-01-01T00:00:00.000Z".
Definition verify_text : string := "1970-01-01T00:01:00.000Z".
Definition expiry_text : string := "1970-01-01T00:05:00.000Z".
Definition read_time (text : string) : option Z :=
  if String.eqb text issue_text then Some 0%Z else if String.eqb text verify_text then Some 60000%Z
  else if String.eqb text expiry_text then Some 300000%Z else None.

Definition org : string := "11111111-1111-4111-8111-111111111111".
Definition home : string := "33333333-3333-4333-8333-333333333333".

#[local] Instance link_postgres : PostgresHost := {|
  uuid_in text := Some text; timestamp_in := read_time; gen_uuid := TaskExample.numbered_uuid;
  user_name user := if String.eqb user "user-ada" then Some "Ada" else None;
  workspace_org w := if String.eqb w home then Some org else None
|}.
#[local] Instance link_uuids : PostgresUuids.
Proof. split; [done|done|apply TaskExample.numbered_uuid_inj]. Qed.

#[local] Instance link_database : TenantDatabase := application_database.
#[local] Instance link_dates : NodeDates := {| date_text := λ _, ""; date_parse := read_time |}.
#[local] Instance link_texts : OpaqueTexts := {| opaque_text := λ _, "" |}.
#[local] Instance link_numbers : OpaqueNumbers := {| opaque_number := λ _, 0%Z |}.
#[local] Instance link_json : JsonNumbers := {| literal_number := λ _, NNonFinite |}.

(** The hash of the example is the length of a text, in 64 digits. *)
#[local] Instance link_runtime : NodeRuntime := {|
  sha256_hex text := pad 64 (Z.of_nat (String.length text)); randomUUID_at := TaskExample.numbered_uuid;
  dateNow_at _ := 0%Z; localeCompare _ _ := 0%Z
|}.
#[local] Instance link_distinct : DistinctUuids.
Proof. split. apply TaskExample.numbered_uuid_inj. Qed.

Fixpoint letters (n : nat) : string := match n with 0 => "s" | S n => String "s" (letters n) end.
#[local] Instance link_secrets : TokenSecrets := {| secret_at := letters |}.
#[local] Instance link_secret_laws : TokenSecretLaws.
Proof. split; [by induction n|by intros []]. Qed.

(** A codec with two letters for a character. *)
Definition letter (n : nat) : ascii := ascii_of_nat (97 + n).
Definition unletter (c : ascii) : nat := nat_of_ascii c - 97.
Fixpoint encode (s : string) : string :=
  match s with
  | EmptyString => EmptyString
  | String c s => String (letter (nat_of_ascii c / 16)) (String (letter (nat_of_ascii c mod 16)) (encode s))
  end.
Fixpoint decode (s : string) : string :=
  match s with
  | String a (String b s) => String (ascii_of_nat (unletter a * 16 + unletter b)) (decode s)
  | _ => EmptyString
  end.
Lemma letter_pair c : let n := nat_of_ascii c in
  ascii_of_nat (unletter (letter (n / 16)) * 16 + unletter (letter (n mod 16))) = c ∧
  is_id_char (letter (n / 16)) && is_id_char (letter (n mod 16)) = true.
Proof. destruct c as [[] [] [] [] [] [] [] []]; split; vm_compute; reflexivity. Qed.

#[local] Instance link_codec : TokenCodec := {| base64url_encode := encode; base64url_decode := decode; fraction_time _ := None |}.
#[local] Instance link_codec_laws : TokenCodecLaws.
Proof.
  split; cbn [base64url_encode base64url_decode link_codec].
  - induction s as [|c s IH]; [done|]. cbn [encode decode]. by rewrite IH, (proj1 (letter_pair c)).
  - induction s as [|c s IH]; [done|]. cbn [encode string_forall]. rewrite IH, andb_assoc. by rewrite (proj2 (letter_pair c)).
  - by intros [].
Qed.

(** Ada is a member of the organization, in a session of an hour. *)
Definition joined : link_tables :=
  mkLinkTables 0 0 0 [mkMembershipRec org "user-ada" MsActive 1] [mkGrantRec org "user-ada" "member" GsOrganization org]
    [mkSessionRec "session-1" "user-ada" (Some org) 1 3600000] [].

Definition new_link : IssueLinkTokenInput :=
  mkIssueLinkToken org home "user-ada" "session-1" [" tasks:write "; "tasks:read"; "tasks:write"] (NInt 300) None (Some 0%Z).

Definition issued : link_tables := (issueLinkToken new_link joined).2.
Definition token : string :=
  match (issueLinkToken new_link joined).1 with Returned (ok i) => il_token i | _ => "" end.

Definition use : VerifyLinkTokenInput := mkVerifyLinkToken token (Some 60000%Z).
Definition revoke : RevokeLinkTokenInput := mkRevokeLinkToken org "user-ada" (TaskExample.numbered_uuid 0) (Some 60000%Z).
Definition revoked : link_tables := (revokeLinkToken revoke issued).2.


Lemma issued_reachable : link_reachable issued.
Proof. exists joined. split; [done|]. apply rtc_once, ev_issue. Qed.

Lemma issued_readable : expiries_readable issued.
Proof. unfold expiries_readable. apply (bool_decide_unpack _). vm_compute. exact I. Qed.

Lemma verified_tokens_are_current_witness :
  ∃ p s', verifyLinkToken use issued = (Returned (ok p), s') ∧ lp_roleKeys p = ["member"] ∧
  ∃ r, r ∈ lt_tokens issued ∧ lr_hash r = hashToken token ∧ current_membership issued r ∧ p = principal issued r.
Proof.
  assert (answered (verifyLinkToken use issued) = true) as Hok by (vm_compute; reflexivity).
  assert (match (verifyLinkToken use issued).1 with Returned (ok p) => lp_roleKeys p | _ => [] end = ["member"]) as Hroles
    by (vm_compute; reflexivity).
  destruct (answered_run _ Hok) as (p & s' & Hrun). rewrite Hrun in Hroles.
  destruct (verified_tokens_are_current use issued p s' issued_readable Hrun)
    as (claims & scopes & r & _ & _ & _ & Hr & Hh & _ & _ & _ & _ & _ & _ & Hm & _ & Hp).
  exists p, s'. split; [exact Hrun|]. split; [exact Hroles|]. exists r. exact (conj Hr (conj Hh (conj Hm Hp))).
Defined.

(** An hour later, the token is still revoked. *)
Definition later : link_tables :=
  mkLinkTables 3000000 (lt_uuids revoked) (lt_draws revoked) (lt_memberships revoked) (lt_grants revoked)
    (lt_sessions revoked) (lt_tokens revoked).

Lemma revocation_is_final_witness :
  ∃ dto, revokeLinkToken revoke issued = (Returned (ok (Some dto)), revoked) ∧
  ∀ p s3, verifyLinkToken use later ≠ (Returned (ok p), s3).
Proof.
  assert (same_identifier (revokeLinkToken revoke issued) (parseToken token) = true) as Hok by (vm_compute; reflexivity).
  destruct (same_identifier_run _ _ Hok) as (dto & claims & hash & Hrevoke & Hparse & Hjti).
  exists dto. split; [exact Hrevoke|]. intros p s3.
  apply (revocation_is_final revoke issued dto revoked later use claims hash p s3 issued_reachable Hrevoke); [|exact Hparse|exact Hjti].
  apply rtc_once, ev_elsewhere; [exact (le_n _)|reflexivity].
Defined.

End LinkExample.
