(* ===== verification/BoardPostgres.v ===== *)
(** * The PostgreSQL adapters of the Dev Board's receipts and ledgers
    ([packages/dev-board/src/adapters/postgres/postgres-command-receipt-repository.ts]
    and [postgres-dev-board-ledger-append-store.ts])

    Their methods over a driver, the tables of the migration
    [0020_dev_board_command_spine.sql] as a reference driver, and the proof that over
    those tables they are the in-memory adapters, up to the order of the keys of the
    objects in jsonb columns. *)
From S2P Require Import Prelude JsString JsValue JsMap SharedKernel Effects DevBoardDomain Receipts Ledger.
From S2P Require Import TenantContext JsText RuntimeSql RuntimeTables TaskSql JsJson TaskTables LinkTables.
From Stdlib Require Import Ascii.

(** ** Statements *)

Inductive board_statement : Type :=
| InsertReceipt (e : CommandEnvelope) (versionsText : string)
| SelectReceipt (lookup : CommandReceiptLookup)
| FinalizeReceipt (org commandId : string) (outcome : FinalOutcome) (outcomeCode resultRef : option string)
    (summaryText versionsText : string)
| LockLedger (text : string)
| InsertPlanningEntry (input : AppendPlanningDecisionEntryInput) (contentText : string)
| InsertActivityEvent (input : AppendActivityEventInput) (occurredAt payloadText : string).

(** The driver, inside a transaction of a tenant. *)
Class BoardDriver (S : Type) := { execute_board : string → board_statement → M S execute_result }.

Definition receiptState_str (s : ReceiptState) : string :=
  match s with Reserved => "reserved" | Accepted => "accepted" | Rejected => "rejected" end.

(** The JSON of expected versions. *)
Definition version_js (v : CommandExpectedVersion) : jsval :=
  JObj [("recordKind", JStr (recordKind v)); ("recordId", JStr (recordId v)); ("version", jsint (version_of v))].
Definition versions_js (l : list CommandExpectedVersion) : jsval := JArr (version_js <$> l).

Section driver.
Context {S : Type} `{BoardDriver S}.

(** [JSON.stringify(value)], of a value that is not [undefined]. *)
Definition json_of (value : jsval) : M S string :=
  match jsonStringify value with
  | Some text => mret (default "" text)
  | None => throw (ExnType "Do not know how to serialize a BigInt")
  end.

(** [rowsFromExecuteResult(await tx.execute(q))[0]] *)
Definition board_row (tx : string) (q : board_statement) : M S (option QueryRow) :=
  result ← execute_board tx q; mret (head (rowsFromExecuteResult result)).
End driver.

(** ** The receipts *)
Module PostgresCommandReceiptRepository.
Section methods.
Context {S : Type} `{BoardDriver S} `{TenantDatabase} `{NodeDates} `{OpaqueTexts} `{OpaqueNumbers}.

(** An element of [resulting_versions] that [isExpectedVersionArray] lets through. *)
Definition version_of_js (item : jsval) : option CommandExpectedVersion :=
  match item with
  | JObj o =>
      match obj_get "recordKind" o, obj_get "recordId" o, obj_get "version" o with
      | JStr kind, JStr id, JNum (NInt z) => Some (mkExpected kind id z)
      | JStr kind, JStr id, JNum n => Some (mkExpected kind id (opaque_number (CVal (JNum n))))
      | _, _, _ => None
      end
  | _ => None
  end.

Fixpoint all_versions (l : list jsval) : option (list CommandExpectedVersion) :=
  match l with
  | [] => Some []
  | item :: l =>
      match version_of_js item, all_versions l with Some v, Some vs => Some (v :: vs) | _, _ => None end
  end.

Definition isExpectedVersionArray (value : jsval) : option (list CommandExpectedVersion) :=
  match value with JArr l => all_versions l | _ => None end.

Definition isRecord (value : jsval) : option jsobj := match value with JObj o => Some o | _ => None end.

(** [typeof cell === "string"] *)
Definition string_cell (c : cell) : option string := match c with CVal (JStr s) => Some s | _ => None end.

Definition parse_state (c : cell) : option ReceiptState :=
  if cell_is "reserved" c then Some Reserved
  else if cell_is "accepted" c then Some Accepted
  else if cell_is "rejected" c then Some Rejected else None.

Definition rowToReceipt (row : QueryRow) : M S CommandReceiptRecord :=
  match parse_state (column "state" row) with
  | None => throw (ExnDomain invalidReceipt)
  | Some state =>
      let final {A} (value : option A) : option A := if bool_decide (state = Reserved) then None else value in
      mret (mkReceipt
        (mkLookup (cell_text (column "organization_id" row)) (cell_text (column "workspace_id" row))
           (cell_text (column "command_name" row)) (cell_text (column "idempotency_key" row)))
        (cell_text (column "request_hash" row))
        (mkReceiptResult (cell_text (column "command_id" row)) state (string_cell (column "outcome_code" row))
           (final (string_cell (column "result_ref" row)))
           (final (isRecord (cell_value (column "result_summary" row))))
           (final (isExpectedVersionArray (cell_value (column "resulting_versions" row))))))
  end.

Definition receiptResult (receipt : CommandReceiptRecord) : CommandReceiptResult := rc_result receipt.

Definition reserveOrReplayTransaction (tx : string) (e : CommandEnvelope) : M S (Result CommandReceiptResult) :=
  versionsText ← json_of (versions_js (env_expectedVersions e));
  insertedRow ← board_row tx (InsertReceipt e versionsText);
  match insertedRow with
  | Some row => receipt ← rowToReceipt row; mret (ok (receiptResult receipt))
  | None =>
      existingRow ← board_row tx (SelectReceipt (envelope_lookup e));
      match existingRow with
      | None => throw (ExnDomain invalidReceipt)
      | Some row =>
          existing ← rowToReceipt row;
          mret (if String.eqb (rc_requestHash existing) (env_requestHash e)
                then ok (receiptResult existing) else err idempotencyConflict)
      end
  end.

Definition reserveOrReplay (e : CommandEnvelope) : M S (Result CommandReceiptResult) :=
  inTransaction (env_organizationId e) (reserveOrReplayTransaction (env_organizationId e) e).

Definition finalizeTransaction (tx : string) (input : FinalizeCommandReceiptInput) : M S (Result unit) :=
  summaryText ← json_of (JObj (default [] (fin_resultSummary input)));
  versionsText ← json_of (versions_js (default [] (fin_resultingVersions input)));
  updated ← board_row tx (FinalizeReceipt (fin_organizationId input) (fin_commandId input) (fin_outcome input)
    (fin_outcomeCode input) (fin_resultRef input) summaryText versionsText);
  mret (match updated with None => err invalidReceipt | Some _ => ok tt end).

Definition readReceipt (lookup : CommandReceiptLookup) : M S (option CommandReceiptRecord) :=
  inTransaction (lk_organizationId lookup)
    (row ← board_row (lk_organizationId lookup) (SelectReceipt lookup);
     match row with None => mret None | Some row => receipt ← rowToReceipt row; mret (Some receipt) end).
End methods.
End PostgresCommandReceiptRepository.

(** ** The ledgers *)
Module PostgresDevBoardLedgerAppendStore.
Section methods.
Context {S : Type} `{BoardDriver S} `{NodeDates} `{OpaqueTexts} `{OpaqueNumbers}.

Definition appendFailed : DomainError :=
  domain_error "dev_board.ledger_append_failed" "The Dev Board ledger entry could not be appended.".

(** [Number.isSafeInteger(sequence) && sequence > 0] *)
Definition sequenceFrom (value : cell) : option Z :=
  let sequence := cell_number value in
  if (0 <? sequence)%Z && (sequence <=? Money.max_safe_integer)%Z then Some sequence else None.

(** The error of an append that threw; the mapping leaves a [DomainError] as it is. *)
Definition append_error (error : exn) : DomainError :=
  match mapTenantStoreError error with ExnDomain e => e | _ => appendFailed end.

Definition sequence_answer (name : string) (row : option QueryRow) : Result Z :=
  match sequenceFrom (column name (default [] row)) with None => err appendFailed | Some n => ok n end.

Definition appendPlanningDecisionEntry (tx : string) (input : AppendPlanningDecisionEntryInput) : M S (Result Z) :=
  try_catch
    (_ ← execute_board tx (LockLedger ("dev_board_planning_entry:" +:+ pl_workspaceId input));
     contentText ← json_of (JObj (pl_content input));
     inserted ← board_row tx (InsertPlanningEntry input contentText);
     mret (sequence_answer "entry_sequence" inserted))
    (λ error, mret (err (append_error error))).

Definition appendActivityEvent (tx : string) (input : AppendActivityEventInput) : M S (Result Z) :=
  try_catch
    (_ ← execute_board tx (LockLedger ("dev_board_activity_event:" +:+ ac_workspaceId input));
     occurredAt ← iso_text (Some (ac_occurredAt input));
     payloadText ← json_of (JObj (ac_payload input));
     inserted ← board_row tx (InsertActivityEvent input occurredAt payloadText);
     mret (sequence_answer "event_sequence" inserted))
    (λ error, mret (err (append_error error))).
End methods.
End PostgresDevBoardLedgerAppendStore.

(** ** The tables *)

(** A row of [dev_board_command_receipt]: the columns of its envelope, and the others. *)
Record receipt_rec : Type := mkReceiptRec {
  rp_envelope : CommandEnvelope;
  rp_state : ReceiptState;
  rp_code : option string;
  rp_ref : option string;
  rp_summary : jsval;
  rp_versions : jsval;
  rp_finalized : option Z;
}.

(** The rows of the ledgers are what was appended, with its sequence. *)
Record board_tables : Type := mkBoardTables {
  bt_now : Z;
  bt_receipts : list receipt_rec;
  bt_entries : list (sequenced AppendPlanningDecisionEntryInput);
  bt_events : list (sequenced AppendActivityEventInput);
}.

Definition rp_lookup (r : receipt_rec) : CommandReceiptLookup := envelope_lookup (rp_envelope r).
Definition rp_command (r : receipt_rec) : string * string :=
  (env_organizationId (rp_envelope r), env_commandId (rp_envelope r)).

Definition receipt_columns (r : receipt_rec) : QueryRow :=
  let e := rp_envelope r in [
  ("organization_id", text_cell (env_organizationId e)); ("workspace_id", text_cell (env_workspaceId e));
  ("command_name", text_cell (env_commandName e)); ("idempotency_key", text_cell (env_idempotencyKey e));
  ("request_hash", text_cell (env_requestHash e)); ("command_id", text_cell (env_commandId e));
  ("state", text_cell (receiptState_str (rp_state r))); ("outcome_code", null_text (rp_code r));
  ("result_ref", null_text (rp_ref r)); ("result_summary", CVal (rp_summary r));
  ("resulting_versions", CVal (rp_versions r))].

(** *** The constraints *)

(** [btrim(s)] *)
Fixpoint ltrim (s : string) : string :=
  match s with String c s' => if Ascii.eqb c " " then ltrim s' else s | EmptyString => EmptyString end.
Fixpoint rtrim (s : string) : string :=
  match s with
  | EmptyString => EmptyString
  | String c s' => match rtrim s' with EmptyString => if Ascii.eqb c " " then EmptyString else String c EmptyString
                                     | s'' => String c s'' end
  end.
(** [char_length(btrim(s)) between 1 and most] *)
Definition sized (most : nat) (s : string) : Prop :=
  (1 <= String.length (rtrim (ltrim s)) <= most)%nat.

Definition actor_sized (actor : CommandActorRef) (source : CommandSourceRef) : Prop :=
  sized 64 (actor_kind actor) ∧ sized 256 (stableId actor) ∧ sized 128 (actor_role actor) ∧
  sized 64 (source_kind source) ∧ sized 256 (source_ref source).

Definition receipt_checks (e : CommandEnvelope) : Prop :=
  sized 128 (env_commandName e) ∧ sized 160 (env_idempotencyKey e) ∧ hash_shape (env_requestHash e) ∧
  actor_sized (env_actorRef e) (env_sourceRef e) ∧ (0 < env_authorizationVersion e)%Z.

Definition entry_checks (i : AppendPlanningDecisionEntryInput) : Prop :=
  sized 128 (pl_entryKind i) ∧ sized 512 (pl_subject i) ∧ hash_shape (pl_contentHash i).

Definition event_checks (i : AppendActivityEventInput) : Prop :=
  (0 < ac_aggregateVersion i)%Z ∧ sized 128 (ac_eventName i) ∧ sized 160 (ac_idempotencyKey i) ∧
  actor_sized (ac_actor i) (ac_source i) ∧ (0 < ac_authorizationVersion i)%Z.

#[global] Instance receipt_checks_dec e : Decision (receipt_checks e).
Proof. unfold receipt_checks, actor_sized, sized, hash_shape. apply _. Defined.
#[global] Instance entry_checks_dec i : Decision (entry_checks i).
Proof. unfold entry_checks, sized, hash_shape. apply _. Defined.
#[global] Instance event_checks_dec i : Decision (event_checks i).
Proof. unfold event_checks, actor_sized, sized. apply _. Defined.

(** The unique constraint of the events. *)
Definition same_version (i j : AppendActivityEventInput) : Prop :=
  ac_organizationId i = ac_organizationId j ∧ ac_workspaceId i = ac_workspaceId j ∧
  ac_aggregateId i = ac_aggregateId j ∧ ac_aggregateVersion i = ac_aggregateVersion j.
#[global] Instance same_version_dec i j : Decision (same_version i j).
Proof. unfold same_version. apply _. Defined.

(** *** The driver *)

Section statements.
Context `{PostgresHost} `{Jsonb}.
Notation answer := (M board_tables execute_result).

Definition board_error {A} (code : string) : M board_tables A := throw (ExnForeign true (JObj [("code", JStr code)])).
Definition board_uuid {A} (text : string) (k : string → M board_tables A) : M board_tables A :=
  match uuid_in text with Some id => k id | None => board_error "22P02" end.
(** [$1::uuid] of a value that may be null. *)
Definition board_uuid_or_null {A} (text : option string) (k : option string → M board_tables A) : M board_tables A :=
  match text with None => k None | Some text => board_uuid text (λ id, k (Some id)) end.
Definition check_board {A} (code : string) (P : Prop) `{Decision P} (k : M board_tables A) : M board_tables A :=
  if decide P then k else board_error code.
(** A [jsonb] column with the check that it holds an object. *)
Definition board_object {A} (text : string) (k : jsobj → M board_tables A) : M board_tables A :=
  match jsonb text with JObj o => k o | _ => board_error "23514" end.
Definition is_array (v : jsval) : bool := match v with JArr _ => true | _ => false end.
Definition object_json (v : jsval) : bool := match v with JObj _ => true | _ => false end.

(** [on conflict (organization_id, workspace_id, command_name, idempotency_key) do
    nothing] covers that index only: a command identifier that is taken is an error. *)
Definition insert_receipt (me : string) (e : CommandEnvelope) (versionsText : string) : answer :=
  board_uuid (env_organizationId e) (λ org, board_uuid (env_workspaceId e) (λ workspace,
  board_uuid (env_commandId e) (λ command, board_uuid (env_targetAggregateId e) (λ target,
  board_uuid (env_correlationId e) (λ correlation, board_uuid_or_null (env_causationId e) (λ causation,
    t ← get_state;
    let e' := mkEnvelope command (env_idempotencyKey e) (env_requestHash e) org workspace (env_commandName e) target
      (env_actorRef e) (env_sourceRef e) (env_authorizationVersion e) correlation causation (env_expectedVersions e) in
    let r := mkReceiptRec e' Reserved None None (JObj []) (JArr []) None in
    check_board "42501" (org = me)
      (check_board "23514" (receipt_checks e' ∧ is_array (jsonb versionsText) = true)
        (if decide (rp_lookup r ∈ rp_lookup <$> bt_receipts t) then mret (RowArray [])
         else
           check_board "23505" (rp_command r ∉ rp_command <$> bt_receipts t)
             (check_board "23503" (workspace_org workspace = Some org)
                (put_state (mkBoardTables (bt_now t) (bt_receipts t ++ [r]) (bt_entries t) (bt_events t));;
                 mret (RowArray [receipt_columns r]))))))))))).

(** Only the rows of the tenant are seen. *)
Definition select_receipt (me : string) (lookup : CommandReceiptLookup) : answer :=
  board_uuid (lk_organizationId lookup) (λ org, board_uuid (lk_workspaceId lookup) (λ workspace,
    t ← get_state;
    let lookup' := mkLookup org workspace (lk_commandName lookup) (lk_idempotencyKey lookup) in
    mret (RowArray (receipt_columns <$>
      take 1 (filter (λ r, env_organizationId (rp_envelope r) = me ∧ rp_lookup r = lookup') (bt_receipts t)))))).

Definition is_reserved (me org command : string) (r : receipt_rec) : Prop :=
  org = me ∧ rp_command r = (org, command) ∧ rp_state r = Reserved.
#[global] Instance is_reserved_dec me org command r : Decision (is_reserved me org command r).
Proof. unfold is_reserved. apply _. Defined.

Definition finalized_rec (outcome : FinalOutcome) (code ref : option string) (summary versions : jsval) (now : Z)
    (r : receipt_rec) : receipt_rec :=
  mkReceiptRec (rp_envelope r) (outcome_state outcome) code ref summary versions (Some now).

Definition finalize_receipt (me org command : string) (outcome : FinalOutcome) (code ref : option string)
    (summaryText versionsText : string) : answer :=
  board_uuid org (λ org, board_uuid command (λ command, board_uuid_or_null ref (λ ref,
    t ← get_state;
    let found := filter (is_reserved me org command) (bt_receipts t) in
    let row := finalized_rec outcome code ref (jsonb summaryText) (jsonb versionsText) (bt_now t) in
    check_board "23514" (found = [] ∨ (object_json (jsonb summaryText) = true ∧ is_array (jsonb versionsText) = true))
      (put_state (mkBoardTables (bt_now t) (update_where (is_reserved me org command) row (bt_receipts t)) (bt_entries t)
                    (bt_events t));;
       mret (RowArray ((λ r, id_column "command_id" (env_commandId (rp_envelope r))) <$> found)))))).

(** [coalesce(max(sequence), 0) + 1] over the rows of the tenant, organization and workspace. *)
Definition sql_next {A} (org_of workspace_of : A → string) (me org workspace : string) (rows : list (sequenced A)) : Z :=
  (max_of fst (filter (λ x, org_of x.2 = me ∧ org_of x.2 = org ∧ workspace_of x.2 = workspace) rows) + 1)%Z.

(** The foreign keys of a row of a ledger: its workspace and its command. *)
Definition ledger_keys {A} (org workspace command : string) (t : board_tables) (k : M board_tables A) : M board_tables A :=
  check_board "23503" (workspace_org workspace = Some org ∧ (org, command) ∈ rp_command <$> bt_receipts t) k.

Definition insert_entry (me : string) (i : AppendPlanningDecisionEntryInput) (contentText : string) : answer :=
  board_uuid (pl_organizationId i) (λ org, board_uuid (pl_workspaceId i) (λ workspace,
  board_uuid (pl_commandId i) (λ command, board_uuid (pl_aggregateId i) (λ aggregate, board_object contentText (λ content,
    t ← get_state;
    let n := sql_next pl_organizationId pl_workspaceId me org workspace (bt_entries t) in
    let i' := mkPlanningInput org workspace command aggregate (pl_entryKind i) (pl_subject i) (pl_contentHash i) content in
    check_board "42501" (org = me) (check_board "23514" (entry_checks i') (ledger_keys org workspace command t
      (put_state (mkBoardTables (bt_now t) (bt_receipts t) (bt_entries t ++ [(n, i')]) (bt_events t));;
       mret (RowArray [[("entry_sequence", bigint_cell n)]]))))))))).

Definition insert_event (me : string) (i : AppendActivityEventInput) (occurredAt payloadText : string) : answer :=
  board_uuid (ac_organizationId i) (λ org, board_uuid (ac_workspaceId i) (λ workspace,
  board_uuid (ac_aggregateId i) (λ aggregate, board_uuid (ac_commandId i) (λ command,
  board_uuid (ac_correlationId i) (λ correlation, board_uuid_or_null (ac_causationId i) (λ causation,
  board_object payloadText (λ payload,
    match timestamp_in occurredAt with
    | None => board_error "22007"
    | Some time =>
        t ← get_state;
        let n := sql_next ac_organizationId ac_workspaceId me org workspace (bt_events t) in
        let i' := mkActivityInput org workspace aggregate (ac_aggregateVersion i) (ac_eventName i) command
          (ac_idempotencyKey i) (ac_actor i) (ac_source i) (ac_authorizationVersion i) correlation causation time payload in
        check_board "42501" (org = me) (check_board "23514" (event_checks i')
          (check_board "23505" (Forall (λ x, ¬ same_version i' x.2) (bt_events t)) (ledger_keys org workspace command t
            (put_state (mkBoardTables (bt_now t) (bt_receipts t) (bt_entries t) (bt_events t ++ [(n, i')]));;
             mret (RowArray [[("event_sequence", bigint_cell n)]])))))
    end))))))).

(** The advisory lock of a ledger keeps other transactions out. *)
Definition execute_board_tables (me : string) (q : board_statement) : answer :=
  board_uuid me (λ me,
    match q with
    | InsertReceipt e versionsText => insert_receipt me e versionsText
    | SelectReceipt lookup => select_receipt me lookup
    | FinalizeReceipt org command outcome code ref summaryText versionsText =>
        finalize_receipt me org command outcome code ref summaryText versionsText
    | LockLedger _ => mret (RowArray [[]])
    | InsertPlanningEntry i contentText => insert_entry me i contentText
    | InsertActivityEvent i occurredAt payloadText => insert_event me i occurredAt payloadText
    end).

#[global] Instance board_driver : BoardDriver board_tables := {| execute_board := execute_board_tables |}.
End statements.

(** ** The in-memory adapters over the same calls *)

Module Memory := InMemoryCommandReceiptRepository.
Module MemoryLedger := InMemoryDevBoardLedgerAppendStore.
Module PgReceipts := PostgresCommandReceiptRepository.
Module PgLedger := PostgresDevBoardLedgerAppendStore.

(** A call of one of the two ports, in a transaction of its organization. *)
Inductive adapter_call : Type :=
| CallReserve (e : CommandEnvelope)
| CallFinalize (input : FinalizeCommandReceiptInput)
| CallRead (lookup : CommandReceiptLookup)
| CallEntry (input : AppendPlanningDecisionEntryInput)
| CallEvent (input : AppendActivityEventInput).

Inductive adapter_answer : Type :=
| AnswerReceipt (r : Result CommandReceiptResult)
| AnswerFinal (r : Result unit)
| AnswerRead (r : option CommandReceiptRecord)
| AnswerSequence (r : Result Z).

Definition memory_adapters : Type := Memory.repository * MemoryLedger.ledger.

Definition memory_call (c : adapter_call) (m : memory_adapters) : adapter_answer * memory_adapters :=
  match c with
  | CallReserve e => let '(r, s) := Memory.reserve e m.1 in (AnswerReceipt r, (s, m.2))
  | CallFinalize input => let '(r, s) := Memory.finalize input m.1 in (AnswerFinal r, (s, m.2))
  | CallRead lookup => (AnswerRead (Memory.read lookup m.1), m)
  | CallEntry input => let '(r, l) := MemoryLedger.appendPlanning input m.2 in (AnswerSequence r, (m.1, l))
  | CallEvent input => let '(r, l) := MemoryLedger.appendActivity input m.2 in (AnswerSequence r, (m.1, l))
  end.

Fixpoint memory_history (calls : list adapter_call) (m : memory_adapters) : list adapter_answer * memory_adapters :=
  match calls with
  | [] => ([], m)
  | c :: calls =>
      let '(a, m) := memory_call c m in
      let '(rest, m) := memory_history calls m in (a :: rest, m)
  end.

(** *** Calls, answers and adapters up to the order of keys

    A summary, a content and a payload are columns of type jsonb. *)

Inductive result_same : CommandReceiptResult → CommandReceiptResult → Prop :=
| same_result id state code ref summary summary' versions : option_Forall2 object_same summary summary' →
    result_same (mkReceiptResult id state code ref summary versions) (mkReceiptResult id state code ref summary' versions).

Inductive receipt_same : CommandReceiptRecord → CommandReceiptRecord → Prop :=
| same_receipt lookup hash r r' : result_same r r' → receipt_same (mkReceipt lookup hash r) (mkReceipt lookup hash r').

Inductive entry_same : AppendPlanningDecisionEntryInput → AppendPlanningDecisionEntryInput → Prop :=
| same_entry org workspace command aggregate kind subject hash content content' : object_same content content' →
    entry_same (mkPlanningInput org workspace command aggregate kind subject hash content)
      (mkPlanningInput org workspace command aggregate kind subject hash content').

Inductive event_same : AppendActivityEventInput → AppendActivityEventInput → Prop :=
| same_event org workspace aggregate version name command key actor source auth correlation causation time payload payload' :
    object_same payload payload' →
    event_same
      (mkActivityInput org workspace aggregate version name command key actor source auth correlation causation time payload)
      (mkActivityInput org workspace aggregate version name command key actor source auth correlation causation time payload').

Inductive call_same : adapter_call → adapter_call → Prop :=
| same_reserve e : call_same (CallReserve e) (CallReserve e)
| same_finalize org command outcome code ref summary summary' versions :
    object_same (default [] summary) (default [] summary') →
    call_same (CallFinalize (mkFinalize org command outcome code ref summary versions))
      (CallFinalize (mkFinalize org command outcome code ref summary' versions))
| same_read lookup : call_same (CallRead lookup) (CallRead lookup)
| same_append_entry i i' : entry_same i i' → call_same (CallEntry i) (CallEntry i')
| same_append_event i i' : event_same i i' → call_same (CallEvent i) (CallEvent i').

Inductive answer_same : adapter_answer → adapter_answer → Prop :=
| same_answer_result r r' : result_same r r' → answer_same (AnswerReceipt (ok r)) (AnswerReceipt (ok r'))
| same_answer_read r r' : option_Forall2 receipt_same r r' → answer_same (AnswerRead r) (AnswerRead r')
| same_answer a : answer_same a a.

Record adapters_same (m m' : memory_adapters) : Prop := {
  as_receipts : Forall2 (λ kv kv', kv.1 = kv'.1 ∧ receipt_same kv.2 kv'.2) m.1 m'.1;
  as_entries : Forall2 (λ x x', x.1 = x'.1 ∧ entry_same x.2 x'.2) (MemoryLedger.planningDecisionEntries m.2)
                 (MemoryLedger.planningDecisionEntries m'.2);
  as_events : Forall2 (λ x x', x.1 = x'.1 ∧ event_same x.2 x'.2) (MemoryLedger.activityEvents m.2)
                (MemoryLedger.activityEvents m'.2);
}.

(** *** The in-memory adapters respect it *)

Lemma Forall2_elem_r {A B} (R : A → B → Prop) l l' y : Forall2 R l l' → y ∈ l' → ∃ x, x ∈ l ∧ R x y.
Proof.
  intros Hl (k & Hk)%list_elem_of_lookup. destruct (Forall2_lookup_r _ _ _ _ _ Hl Hk) as (x & Hx & HR).
  exists x. split; [by eapply list_elem_of_lookup_2|done].
Qed.

Lemma Forall2_elem_l {A B} (R : A → B → Prop) l l' x : Forall2 R l l' → x ∈ l → ∃ y, y ∈ l' ∧ R x y.
Proof.
  intros Hl (k & Hk)%list_elem_of_lookup. destruct (Forall2_lookup_l _ _ _ _ _ Hl Hk) as (y & Hy & HR).
  exists y. split; [by eapply list_elem_of_lookup_2|done].
Qed.

Section respects.
Context {V : Type} (R : V → V → Prop).
Notation entries_same := (Forall2 (λ kv kv' : string * V, kv.1 = kv'.1 ∧ R kv.2 kv'.2)).

Lemma jm_get_same k m m' : entries_same m m' → option_Forall2 R (jm_get k m) (jm_get k m').
Proof.
  induction 1 as [|[k1 v] [k2 v'] m m' [Hk HR] _ IH]; [constructor|]. simpl in *. subst. destruct (String.eqb k k2); [by constructor|done].
Qed.

Lemma jm_set_same k v v' m m' : R v v' → entries_same m m' → entries_same (jm_set k v m) (jm_set k v' m').
Proof.
  intros Hv. induction 1 as [|[k1 w] [k2 w'] m m' [Hk HR] Hm IH]; [by repeat constructor|]. simpl in *. subst.
  destruct (String.eqb k k2); by constructor.
Qed.

Lemma find_same (test : string * V → bool) m m' :
  (∀ kv kv', kv.1 = kv'.1 → R kv.2 kv'.2 → test kv = test kv') → entries_same m m' →
  option_Forall2 (λ kv kv', kv.1 = kv'.1 ∧ R kv.2 kv'.2) (find test m) (find test m').
Proof.
  intros Ht. induction 1 as [|kv kv' m m' [Hk HR] _ IH]; [constructor|]. simpl. rewrite (Ht kv kv') by done.
  destruct (test kv'); [by constructor|done].
Qed.

(** The sequences of a ledger do not depend on what was appended. *)
Lemma next_sequence_same {A} (S : A → A → Prop) (workspace : A → string) w l l' :
  (∀ a a', S a a' → workspace a = workspace a') → Forall2 (λ x x', x.1 = x'.1 ∧ S x.2 x'.2) l l' →
  MemoryLedger.next_sequence workspace w l = MemoryLedger.next_sequence workspace w l'.
Proof.
  intros Hw Hl. unfold MemoryLedger.next_sequence.
  assert ((filter (λ x, workspace x.2 = w) l).*1 = (filter (λ x, workspace x.2 = w) l').*1) as ->; [|done].
  induction Hl as [|[n a] [n' a'] l l' [Hn HS] _ IH]; [done|]. simpl in Hn, HS. subst. rewrite !filter_cons. cbn [snd].
  rewrite (Hw a a' HS). case_decide; [|done]. rewrite !fmap_cons. by f_equal.
Qed.
End respects.

Lemma receipt_same_facts r r' : receipt_same r r' →
  rc_lookup r = rc_lookup r' ∧ rc_requestHash r = rc_requestHash r' ∧ result_same (rc_result r) (rc_result r') ∧
  rr_commandId (rc_result r) = rr_commandId (rc_result r') ∧ rr_state (rc_result r) = rr_state (rc_result r').
Proof. by intros [lookup hash ? ? [id state code ref s s' v Hs]]. Qed.

Lemma entry_workspace i i' : entry_same i i' → pl_workspaceId i = pl_workspaceId i'.
Proof. by intros []. Qed.
Lemma event_workspace i i' : event_same i i' → ac_workspaceId i = ac_workspaceId i'.
Proof. by intros []. Qed.

Lemma option_same_refl {A} (R : A → A → Prop) `{!Reflexive R} (x : option A) : option_Forall2 R x x.
Proof. by destruct x; constructor. Qed.

#[local] Instance receipt_same_refl : Reflexive receipt_same.
Proof. intros [lookup hash [id state code ref s v]]. constructor. constructor. apply option_same_refl, _. Qed.

Lemma reserve_same e m m' : adapters_same m m' →
  answer_same (memory_call (CallReserve e) m).1 (memory_call (CallReserve e) m').1 ∧
  adapters_same (memory_call (CallReserve e) m).2 (memory_call (CallReserve e) m').2.
Proof.
  intros [Hr He Hv]. unfold memory_call, Memory.reserve. pose proof (jm_get_same _ (Memory.receiptKey (envelope_lookup e)) _ _ Hr) as Hg.
  inversion Hg as [r r' (Hl & Hh & Hs & _)%receipt_same_facts E1 E2|E1 E2]; simpl.
  - rewrite Hh. split; [destruct (String.eqb _ _); [by apply same_answer_result|apply same_answer]|by split].
  - split; [apply same_answer|]. split; [|done..]. apply jm_set_same; [reflexivity|done].
Qed.

Lemma finalize_same i i' m m' : call_same (CallFinalize i) (CallFinalize i') → adapters_same m m' →
  answer_same (memory_call (CallFinalize i) m).1 (memory_call (CallFinalize i') m').1 ∧
  adapters_same (memory_call (CallFinalize i) m).2 (memory_call (CallFinalize i') m').2.
Proof.
  intros Hi [Hr He Hv]. unfold memory_call, Memory.finalize.
  assert (∀ r r', receipt_same r r' → receipt_same (finalized i r) (finalized i' r')) as Hfin.
  { inversion Hi; subst. intros r r' Hrr. destruct Hrr as [lookup hash ? ? [id state code' ref' s s' v Hs]].
    constructor. simpl. constructor. by constructor. }
  assert (fin_organizationId i = fin_organizationId i' ∧ fin_commandId i = fin_commandId i') as [-> ->] by (by inversion Hi).
  assert (∀ kv kv' : string * CommandReceiptRecord, kv.1 = kv'.1 → receipt_same kv.2 kv'.2 →
    Memory.is_command (fin_organizationId i') (fin_commandId i') kv = Memory.is_command (fin_organizationId i') (fin_commandId i') kv')
    as Ht by (intros kv kv' _ (Hl & _ & _ & Hc & _)%receipt_same_facts; unfold Memory.is_command; by rewrite Hl, Hc).
  pose proof (find_same receipt_same _ m.1 m'.1 Ht Hr) as Hf.
  inversion Hf as [[k r] [k' r'] [Hk Hrr] E1 E2|E1 E2]; simpl in *; [|split; [apply same_answer|by split]].
  pose proof (receipt_same_facts r r' Hrr) as (_ & _ & _ & _ & ->). subst k'.
  case_bool_decide; simpl; (split; [apply same_answer|]); [|by split]. split; [|done..]. by apply jm_set_same; [apply Hfin|].
Qed.

#[local] Instance memory_call_proper : Proper (call_same ==> adapters_same ==> prod_relation answer_same adapters_same) memory_call.
Proof.
  intros c c' Hc m m' Hm. inversion Hc as [e|org command outcome code ref s s' versions Hs|lookup|i i' Hi|i i' Hi]; subst.
  - by apply reserve_same.
  - by apply finalize_same.
  - split; [|done]. apply same_answer_read. apply jm_get_same, Hm.
  - destruct Hm as [Hr He Hv]. pose proof (entry_workspace i i' Hi) as Hw.
    unfold memory_call, MemoryLedger.appendPlanning.
    rewrite (next_sequence_same entry_same _ _ _ _ entry_workspace He), Hw. split; [apply same_answer|].
    split; simpl; [done| |done]. apply Forall2_app; [done|]. by constructor.
  - destruct Hm as [Hr He Hv]. pose proof (event_workspace i i' Hi) as Hw.
    unfold memory_call, MemoryLedger.appendActivity.
    rewrite (next_sequence_same event_same _ _ _ _ event_workspace Hv), Hw. split; [apply same_answer|].
    split; simpl; [done..|]. apply Forall2_app; [done|]. by constructor.
Qed.

(** What the tables say of the in-memory adapters. *)
Definition receipt_of `{OpaqueNumbers} (r : receipt_rec) : CommandReceiptRecord :=
  let final {A} (value : option A) : option A := if bool_decide (rp_state r = Reserved) then None else value in
  mkReceipt (rp_lookup r) (env_requestHash (rp_envelope r))
    (mkReceiptResult (env_commandId (rp_envelope r)) (rp_state r) (rp_code r) (final (rp_ref r))
       (final (PgReceipts.isRecord (rp_summary r))) (final (PgReceipts.isExpectedVersionArray (rp_versions r)))).

Definition receipt_entry `{OpaqueNumbers} (r : receipt_rec) : string * CommandReceiptRecord :=
  (Memory.receiptKey (rp_lookup r), receipt_of r).

Definition adapters_of `{OpaqueNumbers} (t : board_tables) : memory_adapters :=
  (receipt_entry <$> bt_receipts t, MemoryLedger.mkLedger (bt_entries t) (bt_events t)).

Section refinement.
Context `{PostgresHost} `{Jsonb} `{TenantDatabase} `{NodeDates} `{OpaqueTexts} `{OpaqueNumbers}.
Implicit Types (t : board_tables) (r : receipt_rec) (e : CommandEnvelope).

Definition postgres_call (c : adapter_call) : M board_tables adapter_answer :=
  match c with
  | CallReserve e => r ← PgReceipts.reserveOrReplay e; mret (AnswerReceipt r)
  | CallFinalize input =>
      r ← inTransaction (fin_organizationId input) (PgReceipts.finalizeTransaction (fin_organizationId input) input);
      mret (AnswerFinal r)
  | CallRead lookup => r ← PgReceipts.readReceipt lookup; mret (AnswerRead r)
  | CallEntry input =>
      r ← inTransaction (pl_organizationId input) (PgLedger.appendPlanningDecisionEntry (pl_organizationId input) input);
      mret (AnswerSequence r)
  | CallEvent input =>
      r ← inTransaction (ac_organizationId input) (PgLedger.appendActivityEvent (ac_organizationId input) input);
      mret (AnswerSequence r)
  end.

Fixpoint postgres_history (calls : list adapter_call) : M board_tables (list adapter_answer) :=
  match calls with
  | [] => mret []
  | c :: calls => a ← postgres_call c; rest ← postgres_history calls; mret (a :: rest)
  end.

(** *** What a call needs of the database *)

(** An identifier in the form PostgreSQL prints. *)
Definition plain_id (id : string) : Prop := uuid_in id = Some id.
Definition plain_or_null (id : option string) : Prop := ∀ i, id = Some i → plain_id i.
(** The guard lets a transaction of the organization through. *)
Definition let_in (org : string) : Prop := plain_id org ∧ ∀ t, (tenant_guard org t).1 = Returned tt.
(** A value the database gives back, its keys in any order. *)
Definition json_kept (v : jsval) : Prop := ∃ text, jsonStringify v = Some (Some text) ∧ json_same (jsonb text) v.

Record envelope_storable e : Prop := {
  es_org : let_in (env_organizationId e);
  es_ids : Forall plain_id [env_workspaceId e; env_commandId e; env_targetAggregateId e; env_correlationId e];
  es_cause : plain_or_null (env_causationId e);
  es_checks : receipt_checks e;
  es_workspace : workspace_org (env_workspaceId e) = Some (env_organizationId e);
  es_versions : json_kept (versions_js (env_expectedVersions e));
}.

(** A command identifier is used for one request. *)
Definition command_free e (m : memory_adapters) : Prop :=
  ∀ kv, kv ∈ m.1 → lk_organizationId (rc_lookup kv.2) = env_organizationId e →
    rr_commandId (rc_result kv.2) = env_commandId e → rc_lookup kv.2 = envelope_lookup e.

Record finalize_storable (i : FinalizeCommandReceiptInput) : Prop := {
  fs_org : let_in (fin_organizationId i);
  fs_command : plain_id (fin_commandId i);
  fs_ref : plain_or_null (fin_resultRef i);
  fs_summary : json_kept (JObj (default [] (fin_resultSummary i)));
  fs_versions : json_kept (versions_js (default [] (fin_resultingVersions i)));
}.

(** A receipt has been reserved for the command. *)
Definition command_known (org command : string) (m : memory_adapters) : Prop :=
  ∃ kv, kv ∈ m.1 ∧ lk_organizationId (rc_lookup kv.2) = org ∧ rr_commandId (rc_result kv.2) = command.

Record entry_storable (i : AppendPlanningDecisionEntryInput) (m : memory_adapters) : Prop := {
  en_org : let_in (pl_organizationId i);
  en_ids : Forall plain_id [pl_workspaceId i; pl_commandId i; pl_aggregateId i];
  en_checks : entry_checks i;
  en_workspace : workspace_org (pl_workspaceId i) = Some (pl_organizationId i);
  en_content : json_kept (JObj (pl_content i));
  en_command : command_known (pl_organizationId i) (pl_commandId i) m;
  en_safe : (MemoryLedger.next_sequence pl_workspaceId (pl_workspaceId i) (MemoryLedger.planningDecisionEntries m.2)
             <= Money.max_safe_integer)%Z;
}.

Record event_storable (i : AppendActivityEventInput) (m : memory_adapters) : Prop := {
  ev_org : let_in (ac_organizationId i);
  ev_ids : Forall plain_id [ac_workspaceId i; ac_aggregateId i; ac_commandId i; ac_correlationId i];
  ev_cause : plain_or_null (ac_causationId i);
  ev_checks : event_checks i;
  ev_workspace : workspace_org (ac_workspaceId i) = Some (ac_organizationId i);
  ev_payload : json_kept (JObj (ac_payload i));
  ev_time : ∃ text, toISOString (ac_occurredAt i) = Some text ∧ timestamp_in text = Some (ac_occurredAt i);
  ev_command : command_known (ac_organizationId i) (ac_commandId i) m;
  ev_safe : (MemoryLedger.next_sequence ac_workspaceId (ac_workspaceId i) (MemoryLedger.activityEvents m.2)
             <= Money.max_safe_integer)%Z;
}.

(** One event for a version of an aggregate. *)
Definition version_free (i : AppendActivityEventInput) (m : memory_adapters) : Prop :=
  Forall (λ x, ¬ same_version i x.2) (MemoryLedger.activityEvents m.2).

Definition call_storable (c : adapter_call) (m : memory_adapters) : Prop :=
  match c with
  | CallReserve e => envelope_storable e ∧ command_free e m
  | CallFinalize input => finalize_storable input
  | CallRead lookup => let_in (lk_organizationId lookup) ∧ plain_id (lk_workspaceId lookup)
  | CallEntry input => entry_storable input m
  | CallEvent input => event_storable input m ∧ version_free input m
  end.

Fixpoint history_storable (calls : list adapter_call) (m : memory_adapters) : Prop :=
  match calls with
  | [] => True
  | c :: calls => call_storable c m ∧ history_storable calls (memory_call c m).2
  end.

(** *** The invariant of the tables *)

Record tables_sound t : Prop := {
  ts_keys : NoDup (rp_lookup <$> bt_receipts t);
  ts_commands : NoDup (rp_command <$> bt_receipts t);
  ts_reserved : Forall (λ r, rp_state r = Reserved → rp_code r = None) (bt_receipts t);
  ts_entries : Forall (λ x, workspace_org (pl_workspaceId x.2) = Some (pl_organizationId x.2)) (bt_entries t);
  ts_events : Forall (λ x, workspace_org (ac_workspaceId x.2) = Some (ac_organizationId x.2)) (bt_events t);
}.

(** *** Rows and receipts *)

Lemma get_entry_cons k r m : jm_get k (receipt_entry r :: m) =
  if String.eqb k (Memory.receiptKey (rp_lookup r)) then Some (receipt_of r) else jm_get k m.
Proof. done. Qed.
Lemma set_entry_cons k v r m : jm_set k v (receipt_entry r :: m) =
  if String.eqb k (Memory.receiptKey (rp_lookup r)) then (k, v) :: m else receipt_entry r :: jm_set k v m.
Proof. done. Qed.

Lemma rowToReceipt_columns r t : PgReceipts.rowToReceipt (receipt_columns r) t = (Returned (receipt_of r), t).
Proof.
  unfold PgReceipts.rowToReceipt, receipt_of, PgReceipts.string_cell, rp_lookup, envelope_lookup.
  destruct r as [e state code ref summary versions fin]. simpl. by destruct state, code, ref.
Qed.

Lemma get_receipt lk rs :
  jm_get (Memory.receiptKey lk) (receipt_entry <$> rs) = receipt_of <$> head (filter (λ r, rp_lookup r = lk) rs).
Proof.
  induction rs as [|r rs IH]; [done|]. rewrite filter_cons, fmap_cons, get_entry_cons.
  destruct (String.eqb_spec (Memory.receiptKey lk) (Memory.receiptKey (rp_lookup r))) as [Hk|Hk].
  - apply Memory.receiptKey_inj in Hk as ->. by rewrite decide_True.
  - rewrite decide_False; [done|]. intros <-. by destruct Hk.
Qed.

Lemma set_fresh key v (rs : Memory.repository) : jm_get key rs = None → jm_set key v rs = rs ++ [(key, v)].
Proof.
  induction rs as [|[k w] rs IH]; simpl; [done|]. destruct (String.eqb key k); [done|]. intros Hk. by rewrite IH.
Qed.

Lemma find_receipt org cmd rs :
  find (Memory.is_command org cmd) (receipt_entry <$> rs) =
  receipt_entry <$> head (filter (λ r, rp_command r = (org, cmd)) rs).
Proof.
  induction rs as [|r rs IH]; simpl; [done|]. rewrite filter_cons. unfold Memory.is_command at 1, rp_command. simpl.
  destruct (String.eqb_spec (env_organizationId (rp_envelope r)) org) as [->|Ho]; simpl.
  - destruct (String.eqb_spec (env_commandId (rp_envelope r)) cmd) as [->|Hc]; [by rewrite decide_True|].
    rewrite decide_False; [done|]. congruence.
  - rewrite decide_False; [done|]. congruence.
Qed.

Lemma NoDup_fmap_same {A B} (f : A → B) l x y : NoDup (f <$> l) → x ∈ l → y ∈ l → f x = f y → x = y.
Proof.
  induction l as [|a l IH]; intros Hnd Hx Hy Hf; [by apply elem_of_nil in Hx|]. simpl in Hnd. apply NoDup_cons in Hnd as [Ha Hnd].
  apply elem_of_cons in Hx as [->|Hx], Hy as [->|Hy]; [done| | |by apply IH].
  - destruct Ha. rewrite Hf. by apply list_elem_of_fmap_2.
  - destruct Ha. rewrite <- Hf. by apply list_elem_of_fmap_2.
Qed.

(** An update of the one row of a lookup is an update of its key. *)
Lemma set_receipt (P : receipt_rec → Prop) `{∀ r, Decision (P r)} f r rs :
  NoDup (rp_lookup <$> rs) → r ∈ rs → (∀ r', r' ∈ rs → P r' ↔ rp_lookup r' = rp_lookup r) →
  rp_lookup (f r) = rp_lookup r →
  receipt_entry <$> update_where P f rs = jm_set (Memory.receiptKey (rp_lookup r)) (receipt_of (f r)) (receipt_entry <$> rs).
Proof.
  intros Hnd Hin HP Hf. induction rs as [|a rs IH]; [by apply elem_of_nil in Hin|]. simpl in Hnd.
  pose proof Hnd as Hnd'. apply NoDup_cons in Hnd as [Ha Hnd].
  unfold update_where. rewrite !fmap_cons, set_entry_cons. fold (update_where P f rs).
  destruct (String.eqb_spec (Memory.receiptKey (rp_lookup r)) (Memory.receiptKey (rp_lookup a))) as [Hk|Hk].
  - apply Memory.receiptKey_inj in Hk. assert (a = r) as ->.
    { symmetry. eapply (NoDup_fmap_same rp_lookup (a :: rs)); [done|done|left|done]. }
    rewrite decide_True by (apply HP; [left|done]). f_equal; [unfold receipt_entry; by rewrite Hf|].
    unfold update_where. f_equal. rewrite <- (list_fmap_id rs) at 2. apply list_fmap_ext. intros i x Hx. simpl.
    rewrite decide_False; [done|]. intros HPx. apply Ha. apply list_elem_of_lookup_2 in Hx.
    apply HP in HPx; [|by right]. rewrite <- HPx. by apply list_elem_of_fmap_2.
  - rewrite decide_False; [|intros HPa; apply Hk; f_equal; symmetry; apply HP; [left|done]]. f_equal.
    apply IH; [done| |intros r' Hr'; apply HP; by right]. apply elem_of_cons in Hin as [->|Hin]; [done|done].
Qed.

Lemma version_read item v : json_same item (version_js v) → PgReceipts.version_of_js item = Some v.
Proof.
  destruct v as [kind id n]. intros (o & o1 & -> & Hp & Ho)%json_same_object.
  inversion Ho as [|[? kind'] ? ? ? [Ek E1] Ho1]; subst. inversion Ho1 as [|[? id'] ? ? ? [Ei E2] Ho2]; subst.
  inversion Ho2 as [|[? n'] ? ? ? [En E3] Ho3]; subst. inversion Ho3; subst. simpl in *. subst.
  apply json_same_string in E1 as ->. apply json_same_string in E2 as ->. apply json_same_number in E3 as ->.
  assert (NoDup o.*1) as Hnd.
  { rewrite Hp. simpl. apply NoDup_cons. split; [set_solver|]. apply NoDup_cons. split; [set_solver|]. apply NoDup_singleton. }
  simpl. by rewrite !(obj_get_permutation _ _ _ Hnd Hp).
Qed.

(** The versions are read back whatever order the database gives their keys. *)
Lemma versions_read value l : json_same value (versions_js l) →
  PgReceipts.isExpectedVersionArray value = Some l ∧ is_array value = true.
Proof.
  intros (items & -> & Hl)%json_same_array. split; [|done]. simpl. revert items Hl.
  induction l as [|v l IH]; intros items Hl; inversion Hl as [|item ? items' ? Hv Hl']; subst; [done|]. simpl.
  by rewrite (version_read _ _ Hv), (IH _ Hl').
Qed.

Lemma json_of_kept v text t : jsonStringify v = Some (Some text) → json_of v t = (Returned text, t).
Proof. unfold json_of. by intros ->. Qed.

Lemma plain_null_run {A} id (k : option string → M board_tables A) : plain_or_null id → board_uuid_or_null id k = k id.
Proof. intros Hid. destruct id as [i|]; [|done]. simpl. unfold board_uuid. by rewrite (Hid i eq_refl). Qed.

Lemma plain_run {A} id (k : string → M board_tables A) : plain_id id → board_uuid id k = k id.
Proof. unfold board_uuid. by intros ->. Qed.

Lemma check_passed {A} code (P : Prop) `{Decision P} (k : M board_tables A) : P → check_board code P k = k.
Proof. intros HP. unfold check_board. by rewrite decide_True. Qed.

#[local] Instance version_free_dec i (m : memory_adapters) : Decision (version_free i m).
Proof. unfold version_free. apply _. Defined.

(** *** Statements *)

Definition new_row e : receipt_rec := mkReceiptRec e Reserved None None (JObj []) (JArr []) None.
Definition with_receipts (rs : list receipt_rec) t : board_tables := mkBoardTables (bt_now t) rs (bt_entries t) (bt_events t).

Ltac plain_ids := repeat match goal with
  | |- context [board_uuid ?id ?k] => rewrite (plain_run id k) by done
  | |- context [board_uuid_or_null ?id ?k] => rewrite (plain_null_run id k) by done
  end.

Lemma envelope_eta e : mkEnvelope (env_commandId e) (env_idempotencyKey e) (env_requestHash e) (env_organizationId e)
  (env_workspaceId e) (env_commandName e) (env_targetAggregateId e) (env_actorRef e) (env_sourceRef e)
  (env_authorizationVersion e) (env_correlationId e) (env_causationId e) (env_expectedVersions e) = e.
Proof. by destruct e. Qed.

Lemma insert_receipt_answers e t :
  envelope_storable e →
  (rp_command (new_row e) ∈ rp_command <$> bt_receipts t → envelope_lookup e ∈ rp_lookup <$> bt_receipts t) →
  ∃ text, jsonStringify (versions_js (env_expectedVersions e)) = Some (Some text) ∧
  execute_board (env_organizationId e) (InsertReceipt e text) t =
  if decide (envelope_lookup e ∈ rp_lookup <$> bt_receipts t) then (Returned (RowArray []), t)
  else (Returned (RowArray [receipt_columns (new_row e)]), with_receipts (bt_receipts t ++ [new_row e]) t).
Proof.
  intros [[Horg _] Hids Hcause Hchecks Hws (text & Htext & Hjson)] Hfree. exists text. split; [done|].
  apply Forall_cons in Hids as [Hw Hids]. apply Forall_cons in Hids as [Hc Hids]. apply Forall_cons in Hids as [Ht Hids].
  apply Forall_cons in Hids as [Hcorr _]. cbn [execute_board board_driver]. unfold execute_board_tables. plain_ids.
  unfold insert_receipt. plain_ids. cbv zeta. rewrite envelope_eta. fold (new_row e).
  unfold mbind, M_bind, get_state. rewrite check_passed by done. rewrite check_passed by (split; [done|]; by apply (versions_read _ _ Hjson)).
  change (rp_lookup (new_row e)) with (envelope_lookup e). case_decide as Hin; [done|].
  rewrite check_passed by (intros Hx; by apply Hin, Hfree). by rewrite check_passed.
Qed.

Lemma select_receipt_answers lookup t :
  let_in (lk_organizationId lookup) → plain_id (lk_workspaceId lookup) →
  execute_board (lk_organizationId lookup) (SelectReceipt lookup) t =
  (Returned (RowArray (receipt_columns <$> take 1 (filter (λ r, rp_lookup r = lookup) (bt_receipts t)))), t).
Proof.
  intros [Horg _] Hw. simpl. unfold execute_board_tables. plain_ids. unfold select_receipt. plain_ids.
  destruct lookup as [org ws name key]. simpl in *. unfold mbind, M_bind, get_state.
  rewrite (list_filter_iff _ (λ r, rp_lookup r = mkLookup org ws name key)); [done|]. intros r. split; [by intros []|]. intros Hr. split; [|done].
  unfold rp_lookup, envelope_lookup in Hr. congruence.
Qed.

Lemma finalize_receipt_answers i t :
  finalize_storable i →
  ∃ sText vText summary versions, jsonStringify (JObj (default [] (fin_resultSummary i))) = Some (Some sText) ∧
    jsonStringify (versions_js (default [] (fin_resultingVersions i))) = Some (Some vText) ∧
    object_same summary (default [] (fin_resultSummary i)) ∧
    PgReceipts.isExpectedVersionArray versions = Some (default [] (fin_resultingVersions i)) ∧
  let P := is_reserved (fin_organizationId i) (fin_organizationId i) (fin_commandId i) in
  execute_board (fin_organizationId i) (FinalizeReceipt (fin_organizationId i) (fin_commandId i) (fin_outcome i)
    (fin_outcomeCode i) (fin_resultRef i) sText vText) t =
  (Returned (RowArray ((λ r, id_column "command_id" (env_commandId (rp_envelope r))) <$> filter P (bt_receipts t))),
   with_receipts (update_where P (finalized_rec (fin_outcome i) (fin_outcomeCode i) (fin_resultRef i)
     (JObj summary) versions (bt_now t)) (bt_receipts t)) t).
Proof.
  intros [[Horg _] Hcmd Href (sText & Hs & Hsj) (vText & Hv & Hvj)]. pose proof Hsj as (summary & _ & Hsum & _)%json_same_object.
  exists sText, vText, summary, (jsonb vText). pose proof (versions_read _ _ Hvj) as [Hread Harr].
  split; [done|]. split; [done|]. split; [by unfold object_same; rewrite <- Hsum|]. split; [done|].
  cbn [execute_board board_driver]. unfold execute_board_tables. plain_ids. unfold finalize_receipt. plain_ids.
  unfold mbind, M_bind, get_state. cbv zeta. rewrite Hsum. by rewrite check_passed by (right; done).
Qed.

(** *** Transactions and sequences *)

Lemma transaction_run {A} org (fn : M board_tables A) t a t' :
  let_in org → fn t = (Returned a, t') → inTransaction org fn t = (Returned a, t').
Proof. intros [_ Hg] Hfn. unfold inTransaction. by rewrite withTenant_guard, Hg, Hfn. Qed.

Lemma filter_same {A} (P Q : A → Prop) `{∀ x, Decision (P x)} `{∀ x, Decision (Q x)} l :
  Forall (λ x, P x ↔ Q x) l → filter P l = filter Q l.
Proof.
  induction 1 as [|x l Hx _ IH]; [done|]. rewrite !filter_cons, IH.
  destruct (decide (P x)) as [HP|HP], (decide (Q x)) as [HQ|HQ]; [done|..|done]; exfalso; tauto.
Qed.

(** In sound tables the rows of a workspace are those of its organization. *)
Lemma sql_next_memory {A} (org_of workspace_of : A → string) org workspace (rows : list (sequenced A)) :
  Forall (λ x, workspace_org (workspace_of x.2) = Some (org_of x.2)) rows → workspace_org workspace = Some org →
  sql_next org_of workspace_of org org workspace rows = MemoryLedger.next_sequence workspace_of workspace rows.
Proof.
  intros Hrows Hws. unfold sql_next, MemoryLedger.next_sequence, max_of.
  rewrite (filter_same _ (λ x, workspace_of x.2 = workspace)); [done|].
  eapply Forall_impl; [exact Hrows|]. intros x Hx. simpl in *. split; [by intros (_ & _ & ?)|]. intros Hw. rewrite Hw in Hx. split_and!; congruence.
Qed.

Lemma next_positive {A} (workspace_of : A → string) workspace rows : (0 < MemoryLedger.next_sequence workspace_of workspace rows)%Z.
Proof.
  unfold MemoryLedger.next_sequence. assert (∀ l, 0 <= foldr Z.max 0 l)%Z as Hl; [|specialize (Hl ((filter (λ x, workspace_of x.2 = workspace) rows).*1)); lia].
  intros l. induction l; simpl; lia.
Qed.

(** A sequence is read back from the text of a bigint. *)
Lemma sequence_read name n : (0 < n <= Money.max_safe_integer)%Z →
  PgLedger.sequence_answer name (Some [(name, bigint_cell n)]) = ok n.
Proof.
  intros [Hn Hle]. unfold PgLedger.sequence_answer, PgLedger.sequenceFrom. simpl. rewrite String.eqb_refl.
  assert (cell_number (bigint_cell n) = n) as ->.
  { unfold bigint_cell, text_cell, cell_number. rewrite pretty_positive by done.
    pose proof (decimal_from_pretty_go (Z.to_N n) "") as Hd. simpl in Hd.
    destruct (pretty_N_go (Z.to_N n) "") as [|c s]; [simpl in Hd; injection Hd; lia|]. rewrite Hd, Z2N.id by lia.
    by rewrite (proj2 (Z.leb_le _ _) Hle). }
  by rewrite (proj2 (Z.ltb_lt _ _) Hn), (proj2 (Z.leb_le _ _) Hle).
Qed.

Lemma command_known_row org command t :
  command_known org command (adapters_of t) → (org, command) ∈ rp_command <$> bt_receipts t.
Proof.
  intros (kv & (r & -> & Hr)%list_elem_of_fmap & Ho & Hc). simpl in Ho, Hc. apply list_elem_of_fmap. exists r.
  split; [|done]. unfold rp_command. unfold rp_lookup, envelope_lookup in Ho. simpl in Ho. congruence.
Qed.

Lemma lock_run org text t : plain_id org → execute_board org (LockLedger text) t = (Returned (RowArray [[]]), t).
Proof. intros Horg. cbn [execute_board board_driver]. unfold execute_board_tables. by plain_ids. Qed.

Lemma entry_run i t :
  tables_sound t → entry_storable i (adapters_of t) →
  let n := MemoryLedger.next_sequence pl_workspaceId (pl_workspaceId i) (bt_entries t) in
  ∃ i', entry_same i' i ∧ PgLedger.appendPlanningDecisionEntry (pl_organizationId i) i t =
    (Returned (ok n), mkBoardTables (bt_now t) (bt_receipts t) (bt_entries t ++ [(n, i')]) (bt_events t)).
Proof.
  intros Hok [[Horg _] Hids Hchecks Hws (text & Htext & Hjson) Hcmd%command_known_row Hsafe] n. simpl in Hsafe. fold n in Hsafe.
  apply Forall_cons in Hids as [Hw Hids]. apply Forall_cons in Hids as [Hc Hids]. apply Forall_cons in Hids as [Ha _].
  pose proof (next_positive pl_workspaceId (pl_workspaceId i) (bt_entries t)) as Hpos. fold n in Hpos.
  pose proof Hjson as (content & _ & Hcontent & _)%json_same_object.
  exists (mkPlanningInput (pl_organizationId i) (pl_workspaceId i) (pl_commandId i) (pl_aggregateId i) (pl_entryKind i)
    (pl_subject i) (pl_contentHash i) content). split; [rewrite Hcontent in Hjson; by destruct i|].
  set (i' := mkPlanningInput _ _ _ _ _ _ _ content).
  assert (execute_board (pl_organizationId i) (InsertPlanningEntry i text) t =
    (Returned (RowArray [[("entry_sequence", bigint_cell n)]]),
     mkBoardTables (bt_now t) (bt_receipts t) (bt_entries t ++ [(n, i')]) (bt_events t))) as Hrun.
  { cbn [execute_board board_driver]. unfold execute_board_tables. plain_ids. unfold insert_entry. plain_ids.
    unfold board_object. rewrite Hcontent. unfold mbind, M_bind, get_state. cbv zeta.
    rewrite (sql_next_memory _ _ _ _ _ (ts_entries _ Hok) Hws). fold n.
    fold i'.
    rewrite !check_passed by done. unfold ledger_keys. by rewrite check_passed. }
  unfold PgLedger.appendPlanningDecisionEntry, try_catch, board_row, mbind, M_bind. rewrite lock_run by done.
  rewrite (json_of_kept _ text) by done. rewrite Hrun. unfold mret, M_ret. cbn [rowsFromExecuteResult head].
  by rewrite sequence_read.
Qed.

Lemma event_run i t :
  tables_sound t → event_storable i (adapters_of t) →
  let n := MemoryLedger.next_sequence ac_workspaceId (ac_workspaceId i) (bt_events t) in
  ∃ i', event_same i' i ∧ PgLedger.appendActivityEvent (ac_organizationId i) i t =
    if decide (version_free i (adapters_of t))
    then (Returned (ok n), mkBoardTables (bt_now t) (bt_receipts t) (bt_entries t) (bt_events t ++ [(n, i')]))
    else (Returned (err PgLedger.appendFailed), t).
Proof.
  intros Hok [[Horg _] Hids Hcause Hchecks Hws (text & Htext & Hjson) (time & Hiso & Htime) Hcmd%command_known_row Hsafe] n.
  simpl in Hsafe. fold n in Hsafe.
  apply Forall_cons in Hids as [Hw Hids]. apply Forall_cons in Hids as [Ha Hids]. apply Forall_cons in Hids as [Hc Hids].
  apply Forall_cons in Hids as [Hcorr _].
  pose proof (next_positive ac_workspaceId (ac_workspaceId i) (bt_events t)) as Hpos. fold n in Hpos.
  pose proof Hjson as (payload & _ & Hpayload & _)%json_same_object.
  exists (mkActivityInput (ac_organizationId i) (ac_workspaceId i) (ac_aggregateId i) (ac_aggregateVersion i) (ac_eventName i)
    (ac_commandId i) (ac_idempotencyKey i) (ac_actor i) (ac_source i) (ac_authorizationVersion i) (ac_correlationId i)
    (ac_causationId i) (ac_occurredAt i) payload). split; [rewrite Hpayload in Hjson; by destruct i|].
  set (i' := mkActivityInput _ _ _ _ _ _ _ _ _ _ _ _ _ payload).
  assert (execute_board (ac_organizationId i) (InsertActivityEvent i time text) t =
    if decide (version_free i (adapters_of t)) then
      (Returned (RowArray [[("event_sequence", bigint_cell n)]]),
       mkBoardTables (bt_now t) (bt_receipts t) (bt_entries t) (bt_events t ++ [(n, i')]))
    else board_error "23505" t) as Hrun.
  { cbn [execute_board board_driver]. unfold execute_board_tables. plain_ids. unfold insert_event. plain_ids.
    unfold board_object. rewrite Hpayload, Htime. unfold mbind, M_bind, get_state. cbv zeta.
    rewrite (sql_next_memory _ _ _ _ _ (ts_events _ Hok) Hws). fold n.
    fold i'. change (event_checks i') with (event_checks i).
    rewrite (check_passed "42501"), (check_passed "23514") by done. unfold check_board at 1. unfold version_free.
    change (λ x, ¬ same_version i' x.2) with (λ x : sequenced AppendActivityEventInput, ¬ same_version i x.2).
    change (MemoryLedger.activityEvents (adapters_of t).2) with (bt_events t). case_decide as Hv; [rewrite decide_True by done|by rewrite decide_False].
    unfold ledger_keys. by rewrite check_passed. }
  unfold PgLedger.appendActivityEvent, try_catch, board_row, mbind, M_bind. rewrite lock_run by done.
  unfold iso_text. simpl toISOString. cbn [mbind option_bind]. rewrite Hiso. unfold mret, M_ret.
  rewrite (json_of_kept _ text), Hrun by done. case_decide; [|done].
  cbn [rowsFromExecuteResult head]. by rewrite sequence_read.
Qed.

(** *** The receipts *)

Lemma head_filter_none {A} (P : A → Prop) `{∀ x, Decision (P x)} l : head (filter P l) = None ↔ ∀ x, x ∈ l → ¬ P x.
Proof.
  split.
  - intros Hh x Hx HP. assert (x ∈ filter P l) as Hin by (by apply list_elem_of_filter). destruct (filter P l); [|done].
    by apply elem_of_nil in Hin.
  - intros Hno. destruct (filter P l) as [|x f] eqn:Hf; [done|]. assert (x ∈ filter P l) as Hin by (rewrite Hf; left).
    apply list_elem_of_filter in Hin as [HP Hin]. by destruct (Hno x Hin).
Qed.

Lemma head_filter_some {A} (P : A → Prop) `{∀ x, Decision (P x)} l x : head (filter P l) = Some x → x ∈ l ∧ P x.
Proof.
  intros Hh. assert (x ∈ filter P l) as Hin by (destruct (filter P l); [done|]; injection Hh as ->; left).
  by apply list_elem_of_filter in Hin as [].
Qed.

Lemma head_take_1 {A B} (f : A → B) l : head (f <$> take 1 l) = f <$> head l.
Proof. by destruct l. Qed.

Lemma command_free_row e t :
  command_free e (adapters_of t) →
  rp_command (new_row e) ∈ rp_command <$> bt_receipts t → envelope_lookup e ∈ rp_lookup <$> bt_receipts t.
Proof.
  intros Hfree (r & Hr & Hin)%list_elem_of_fmap. apply list_elem_of_fmap. exists r. split; [|done].
  unfold rp_command in Hr. simpl in Hr. injection Hr as Ho Hc. symmetry.
  apply (Hfree (receipt_entry r)); [by apply list_elem_of_fmap_2|done|done].
Qed.

(** A call does what the in-memory adapters do on the call as the database keeps it. *)
Definition simulated (c : adapter_call) t : Prop :=
  ∃ c' t', call_same c' c ∧ postgres_call c t = (Returned (memory_call c' (adapters_of t)).1, t') ∧
    adapters_of t' = (memory_call c' (adapters_of t)).2 ∧ tables_sound t'.

Lemma reserve_simulated e t : tables_sound t → call_storable (CallReserve e) (adapters_of t) → simulated (CallReserve e) t.
Proof.
  intros Hok [He Hfree0]. pose proof (command_free_row e t Hfree0) as Hfree. destruct (insert_receipt_answers e t He Hfree) as (text & Htext & Hins).
  pose proof (es_org _ He) as Horg. exists (CallReserve e).
  cut (∃ t', postgres_call (CallReserve e) t = (Returned (memory_call (CallReserve e) (adapters_of t)).1, t') ∧
    adapters_of t' = (memory_call (CallReserve e) (adapters_of t)).2 ∧ tables_sound t').
  { intros [t' Ht']. exists t'. split; [constructor|exact Ht']. }
  unfold postgres_call, memory_call, PgReceipts.reserveOrReplay.
  assert (∀ a t', PgReceipts.reserveOrReplayTransaction (env_organizationId e) e t = (Returned a, t') →
    (x ← inTransaction (env_organizationId e) (PgReceipts.reserveOrReplayTransaction (env_organizationId e) e);
     mret (AnswerReceipt x)) t = (Returned (AnswerReceipt a), t')) as Hrun.
  { intros a t' Hr. unfold mbind, M_bind. by rewrite (transaction_run _ _ _ _ _ Horg Hr). }
  unfold PgReceipts.reserveOrReplayTransaction, board_row, mbind, M_bind, mret, M_ret in Hrun.
  rewrite (json_of_kept _ text) in Hrun by done. rewrite Hins in Hrun. unfold Memory.reserve. simpl adapters_of. simpl fst.
  rewrite get_receipt. case_decide as Hin.
  - cbn [rowsFromExecuteResult head] in Hrun. pose proof (es_ids _ He) as Hids. apply Forall_cons in Hids as [Hw _].
    change (env_organizationId e) with (lk_organizationId (envelope_lookup e)) in Hrun, Horg.
    rewrite (select_receipt_answers _ t Horg Hw) in Hrun. cbn [rowsFromExecuteResult] in Hrun. rewrite head_take_1 in Hrun.
    destruct (head (filter (λ r, rp_lookup r = envelope_lookup e) (bt_receipts t))) as [r|] eqn:Hr.
    + cbn [fmap option_fmap option_map] in *. rewrite rowToReceipt_columns in Hrun. exists t. split; [by apply Hrun|done].
    + exfalso. apply list_elem_of_fmap in Hin as (r & Hl & Hin). by apply (proj1 (head_filter_none _ _) Hr r Hin).
  - cbn [rowsFromExecuteResult head] in Hrun. rewrite rowToReceipt_columns in Hrun.
    assert (head (filter (λ r, rp_lookup r = envelope_lookup e) (bt_receipts t)) = None) as Hnone.
    { apply head_filter_none. intros r Hr Hl. apply Hin. rewrite <- Hl. by apply list_elem_of_fmap_2. }
    rewrite Hnone. cbn [fmap option_fmap option_map]. eexists. split; [by apply Hrun|]. split.
    + unfold adapters_of. simpl. rewrite fmap_app, set_fresh; [done|]. by rewrite get_receipt, Hnone.
    + destruct Hok as [Hk Hc Hr Hen Hev]. split; simpl; rewrite ?fmap_app; try done.
      * apply NoDup_app. split; [done|]. split; [|apply NoDup_singleton].
        intros x Hx ->%list_elem_of_singleton. by apply Hin.
      * apply NoDup_app. split; [done|]. split; [|apply NoDup_singleton].
        intros x Hx ->%list_elem_of_singleton. by apply Hin, Hfree.
      * apply Forall_app. split; [done|]. by apply Forall_cons_2; [|apply Forall_nil_2].
Qed.

Lemma read_simulated lookup t : tables_sound t → call_storable (CallRead lookup) (adapters_of t) → simulated (CallRead lookup) t.
Proof.
  intros Hok [Horg Hw]. exists (CallRead lookup), t. split; [constructor|]. split; [|done]. unfold postgres_call, memory_call, PgReceipts.readReceipt, mbind, M_bind, mret, M_ret.
  erewrite transaction_run; [reflexivity|done|]. unfold board_row, mbind, M_bind.
  rewrite (select_receipt_answers _ t Horg Hw). unfold mret, M_ret. cbn [rowsFromExecuteResult]. rewrite head_take_1.
  unfold Memory.read. simpl adapters_of. simpl fst. rewrite get_receipt.
  destruct (head (filter _ (bt_receipts t))) as [r|]; cbn [fmap option_fmap option_map]; [|done]. by rewrite rowToReceipt_columns.
Qed.

Definition kept_summary (summary : jsobj) (i : FinalizeCommandReceiptInput) : FinalizeCommandReceiptInput :=
  mkFinalize (fin_organizationId i) (fin_commandId i) (fin_outcome i) (fin_outcomeCode i) (fin_resultRef i) (Some summary)
    (fin_resultingVersions i).

(** What finalizing stores over a reserved row is what the in-memory adapter stores. *)
Lemma finalized_receipt i summary versions now r :
  PgReceipts.isExpectedVersionArray versions = Some (default [] (fin_resultingVersions i)) →
  rp_state r = Reserved → rp_code r = None →
  receipt_of (finalized_rec (fin_outcome i) (fin_outcomeCode i) (fin_resultRef i) (JObj summary) versions now r) =
  finalized (kept_summary summary i) (receipt_of r).
Proof.
  intros Hv Hs Hc. unfold receipt_of, finalized. rewrite Hs. simpl rp_state. simpl rc_result. rewrite Hc. simpl rp_versions.
  rewrite Hv. rewrite (bool_decide_eq_false_2 (outcome_state (fin_outcome i) = Reserved)) by (by destruct (fin_outcome i)).
  simpl. by destruct (fin_outcomeCode i), (fin_resultRef i).
Qed.

Lemma filter_none {A} (P : A → Prop) `{∀ x, Decision (P x)} l : (∀ x, x ∈ l → ¬ P x) → filter P l = [].
Proof. intros Hno. apply (head_filter_none P l) in Hno. by destruct (filter P l). Qed.

(** The reserved row of a command, if there is one, is the row of the command. *)
Lemma reserved_row org cmd t :
  tables_sound t →
  match head (filter (λ r, rp_command r = (org, cmd)) (bt_receipts t)) with
  | Some r =>
      if decide (rp_state r = Reserved)
      then ∀ r', r' ∈ bt_receipts t → is_reserved org org cmd r' ↔ rp_lookup r' = rp_lookup r
      else filter (is_reserved org org cmd) (bt_receipts t) = []
  | None => filter (is_reserved org org cmd) (bt_receipts t) = []
  end.
Proof.
  intros Hok. destruct (head (filter _ (bt_receipts t))) as [r|] eqn:Hr.
  - apply head_filter_some in Hr as [Hin Hcmd]. case_decide as Hs.
    + intros r' Hin'. split.
      * intros (_ & Hc & _). assert (r' = r) as ->; [|done]. apply (NoDup_fmap_same rp_command (bt_receipts t)); [apply Hok|done..|congruence].
      * intros Hl. assert (r' = r) as ->; [|done]. by apply (NoDup_fmap_same rp_lookup (bt_receipts t)); [apply Hok|..].
    + apply filter_none. intros r' Hin' (_ & Hc & Hs'). assert (r' = r) as ->; [|done].
      apply (NoDup_fmap_same rp_command (bt_receipts t)); [apply Hok|done..|congruence].
  - apply filter_none. intros r' Hin' (_ & Hc & _). by apply (proj1 (head_filter_none _ _) Hr r' Hin').
Qed.

Lemma update_where_none {A} (P : A → Prop) `{∀ x, Decision (P x)} f l : filter P l = [] → update_where P f l = l.
Proof.
  intros Hf. unfold update_where. rewrite <- (list_fmap_id l) at 2. apply list_fmap_ext. intros k x Hx. simpl.
  rewrite decide_False; [done|]. intros HP. assert (x ∈ filter P l) as Hin by (apply list_elem_of_filter; split; [done|by eapply list_elem_of_lookup_2]).
  rewrite Hf in Hin. by apply elem_of_nil in Hin.
Qed.

Lemma update_where_same {A B} (P : A → Prop) `{∀ x, Decision (P x)} f (g : A → B) l :
  (∀ x, g (f x) = g x) → g <$> update_where P f l = g <$> l.
Proof.
  intros Hg. unfold update_where. rewrite <- list_fmap_compose. apply list_fmap_ext. intros k x _. simpl. case_decide; [apply Hg|done].
Qed.

Lemma finalize_simulated i t :
  tables_sound t → call_storable (CallFinalize i) (adapters_of t) → simulated (CallFinalize i) t.
Proof.
  intros Hok Hi. destruct (finalize_receipt_answers i t Hi) as (sText & vText & summary & versions & Hs & Hv & Hsum & Hver & Hrun). pose proof (fs_org _ Hi) as Horg.
  cbv zeta in Hrun. set (P := is_reserved _ _ _) in Hrun. set (f := finalized_rec _ _ _ _ _ _) in Hrun.
  assert (postgres_call (CallFinalize i) t =
    (Returned (AnswerFinal match head (filter P (bt_receipts t)) with None => err invalidReceipt | Some _ => ok tt end),
     with_receipts (update_where P f (bt_receipts t)) t)) as Hcall.
  { unfold postgres_call, mbind, M_bind, mret, M_ret. erewrite transaction_run; [reflexivity|done|].
    unfold PgReceipts.finalizeTransaction, board_row, mbind, M_bind, mret, M_ret.
    rewrite (json_of_kept _ sText), (json_of_kept _ vText), Hrun by done. cbn [rowsFromExecuteResult].
    by destruct (filter P (bt_receipts t)). }
  exists (CallFinalize (kept_summary summary i)), (with_receipts (update_where P f (bt_receipts t)) t).
  split; [destruct i; by constructor|]. rewrite Hcall. split; [|split].
  all: pose proof (reserved_row (fin_organizationId i) (fin_commandId i) t Hok) as Hrow; fold P in Hrow.
  1, 2: unfold memory_call, Memory.finalize; simpl adapters_of; simpl fst; rewrite find_receipt;
    destruct (head (filter (λ r, rp_command r = _) (bt_receipts t))) as [r|] eqn:Hr; cbn [fmap option_fmap option_map receipt_entry].
  - change (rr_state (rc_result (receipt_of r))) with (rp_state r). case_decide as Hst.
    + rewrite bool_decide_true by done. assert (r ∈ filter P (bt_receipts t)) as Hin.
      { apply head_filter_some in Hr as [Hin _]. apply list_elem_of_filter. split; [by apply Hrow|done]. }
      destruct (filter P (bt_receipts t)); [by apply elem_of_nil in Hin|done].
    + rewrite bool_decide_false by done. by rewrite Hrow.
  - by rewrite Hrow.
  - change (rr_state (rc_result (receipt_of r))) with (rp_state r). case_decide as Hst.
    + rewrite bool_decide_true by done. apply head_filter_some in Hr as [Hin _]. unfold adapters_of. simpl. f_equal.
      rewrite <- (finalized_receipt i summary versions (bt_now t)); [|done|done|]. 2: { pose proof (ts_reserved _ Hok) as Hres. rewrite Forall_forall in Hres. by apply Hres. }
      by apply set_receipt; [apply Hok|..].
    + rewrite bool_decide_false by done. unfold adapters_of. simpl. by rewrite update_where_none.
  - unfold adapters_of. simpl. by rewrite update_where_none.
  - destruct Hok as [Hk Hc Hre Hen Hev]. split; simpl; try done.
    + by rewrite update_where_same.
    + by rewrite update_where_same.
    + apply Forall_fmap. eapply Forall_impl; [exact Hre|]. intros r Hres. simpl. case_decide; [|done]. simpl. by destruct (fin_outcome i).
Qed.

Lemma entry_simulated i t : tables_sound t → call_storable (CallEntry i) (adapters_of t) → simulated (CallEntry i) t.
Proof.
  intros Hok Hi. destruct (entry_run i t Hok Hi) as (i' & Hi' & Hrun). exists (CallEntry i'). eexists. split; [by constructor|]. split; [|split].
  - unfold postgres_call, mbind, M_bind, mret, M_ret. erewrite transaction_run; [|apply Hi|exact Hrun]. by destruct Hi'.
  - by destruct Hi'.
  - destruct Hok as [Hk Hc Hre Hen Hev]. split; try done. apply Forall_app. split; [done|].
    apply Forall_cons_2; [destruct Hi'; apply Hi|apply Forall_nil_2].
Qed.

Lemma event_simulated i t : tables_sound t → call_storable (CallEvent i) (adapters_of t) → simulated (CallEvent i) t.
Proof.
  intros Hok [Hi Hfree]. destruct (event_run i t Hok Hi) as (i' & Hi' & Hrun). rewrite decide_True in Hrun by done.
  exists (CallEvent i'). eexists. split; [by constructor|]. split; [|split].
  - unfold postgres_call, mbind, M_bind, mret, M_ret. erewrite transaction_run; [|apply Hi|exact Hrun]. by destruct Hi'.
  - by destruct Hi'.
  - destruct Hok as [Hk Hc Hre Hen Hev]. split; try done. apply Forall_app. split; [done|].
    apply Forall_cons_2; [destruct Hi'; apply Hi|apply Forall_nil_2].
Qed.

Lemma call_simulated c t : tables_sound t → call_storable c (adapters_of t) → simulated c t.
Proof.
  intros Hok. destruct c; [by apply reserve_simulated|by apply finalize_simulated|by apply read_simulated
    |by apply entry_simulated|by apply event_simulated].
Qed.

(** A command identifier that is taken, under a new key. *)
Lemma reused_command e t :
  envelope_storable e → rp_command (new_row e) ∈ rp_command <$> bt_receipts t → envelope_lookup e ∉ rp_lookup <$> bt_receipts t →
  PgReceipts.reserveOrReplay e t = (Thrown (ExnDatabase ConflictError), t).
Proof.
  intros [[Horg Hg] Hids Hcause Hchecks Hws (text & Htext & Hjson)] Hcmd Hkey.
  apply Forall_cons in Hids as [Hw Hids]. apply Forall_cons in Hids as [Hc Hids]. apply Forall_cons in Hids as [Ht Hids].
  apply Forall_cons in Hids as [Hcorr _].
  assert (execute_board (env_organizationId e) (InsertReceipt e text) t = board_error "23505" t) as Hins.
  { cbn [execute_board board_driver]. unfold execute_board_tables. plain_ids. unfold insert_receipt. plain_ids. cbv zeta.
    rewrite envelope_eta. fold (new_row e). unfold mbind, M_bind, get_state.
    rewrite (check_passed "42501") by done. rewrite (check_passed "23514") by (split; [done|]; by apply (versions_read _ _ Hjson)).
    change (rp_lookup (new_row e)) with (envelope_lookup e). rewrite decide_False by done.
    unfold check_board at 1. rewrite decide_False; [done|]. by intros []. }
  unfold PgReceipts.reserveOrReplay, inTransaction. rewrite withTenant_guard, Hg.
  unfold PgReceipts.reserveOrReplayTransaction, board_row, mbind, M_bind. rewrite (json_of_kept _ text), Hins by done. done.
Qed.

(** What the database can store does not depend on the order of keys. *)
Lemma command_known_same org command m0 m : adapters_same m0 m → command_known org command m → command_known org command m0.
Proof.
  intros [Hr _ _] (kv & Hin & Ho & Hc). destruct (Forall2_elem_r _ _ _ _ Hr Hin) as (kv0 & Hin0 & _ & Hkv).
  apply receipt_same_facts in Hkv as (Hl & _ & _ & Hid & _). exists kv0. split; [done|]. by rewrite Hl, Hid.
Qed.

Lemma storable_same c m0 m : adapters_same m0 m → call_storable c m → call_storable c m0.
Proof.
  intros Hm. destruct c as [e|i|lookup|i|i]; simpl; [|done|done| |].
  - intros [He Hfree]. split; [done|]. intros kv0 Hin0. destruct Hm as [Hr _ _].
    destruct (Forall2_elem_l _ _ _ _ Hr Hin0) as (kv & Hin & _ & Hkv).
    apply receipt_same_facts in Hkv as (Hl & _ & _ & Hid & _). rewrite Hl, Hid. by apply Hfree.
  - intros []. split; [done..| |].
    + by eapply command_known_same.
    + by rewrite (next_sequence_same entry_same _ _ _ _ entry_workspace (as_entries _ _ Hm)).
  - intros [[] Hfree]. split; [split; [done..| |]|].
    + by eapply command_known_same.
    + by rewrite (next_sequence_same event_same _ _ _ _ event_workspace (as_events _ _ Hm)).
    + apply Forall_forall. intros x0 Hin0. destruct (Forall2_elem_l _ _ _ _ (as_events _ _ Hm) Hin0) as (x & Hin & _ & Hx).
      unfold version_free in Hfree. rewrite Forall_forall in Hfree. specialize (Hfree x Hin). by destruct Hx.
Qed.

(** C2. Over the tables of the migration, any history of calls the database can
    store (its identifiers are uuids in their printed form, its rows satisfy the
    checks, a jsonb column gives a value back with the keys of its objects in any
    order, and a command identifier and a version of an aggregate are used once) is
    answered by the PostgreSQL adapters of the receipts and of the ledgers as by the
    in-memory ones: every reservation, replay, conflict and finalization, every
    reading and every sequence, the summary of a replayed receipt up to the order of
    its keys; and the tables hold what the in-memory adapters hold, summaries,
    contents and payloads up to that order, the resulting versions exactly. *)
Theorem board_adapters_refine_memory calls t m :
  tables_sound t → adapters_same (adapters_of t) m → history_storable calls m →
  ∃ answers t', postgres_history calls t = (Returned answers, t') ∧
    Forall2 answer_same answers (memory_history calls m).1 ∧
    adapters_same (adapters_of t') (memory_history calls m).2 ∧ tables_sound t'.
Proof.
  revert t m. induction calls as [|c calls IH]; intros t m Hok Hm; [by exists [], t|]. intros [Hc Hcalls].
  destruct (call_simulated c t Hok (storable_same c _ _ Hm Hc)) as (c' & t1 & Hsame & Hrun & Hm1 & Hok1).
  pose proof (memory_call_proper _ _ Hsame _ _ Hm) as [Ha Hm']. rewrite <- Hm1 in Hm'.
  destruct (IH t1 _ Hok1 Hm' Hcalls) as (answers & t2 & Hrun2 & Hanswers & Hm2 & Hok2).
  exists ((memory_call c' (adapters_of t)).1 :: answers), t2. cbn [postgres_history memory_history].
  unfold mbind, M_bind, mret, M_ret. rewrite Hrun, Hrun2. destruct (memory_call c m) as [a m1]. simpl in *.
  destruct (memory_history calls m1). by split; [|split; [constructor|]].
Qed.

(** C3. What the tables refuse and the in-memory adapters do not: a reservation under
    a new key for a command identifier that is taken is a conflict, and a second event
    for a version of an aggregate is a failed append; both leave the tables as they
    were, and in memory the request is reserved and the event appended. *)
Theorem constraints_only_in_the_database t :
  tables_sound t →
  (∀ e, envelope_storable e → rp_command (new_row e) ∈ rp_command <$> bt_receipts t →
     envelope_lookup e ∉ rp_lookup <$> bt_receipts t →
     PgReceipts.reserveOrReplay e t = (Thrown (ExnDatabase ConflictError), t) ∧
     (Memory.reserve e (adapters_of t).1).1 = ok (reserved_result (env_commandId e))) ∧
  (∀ i, event_storable i (adapters_of t) → ¬ version_free i (adapters_of t) →
     postgres_call (CallEvent i) t = (Returned (AnswerSequence (err PgLedger.appendFailed)), t) ∧
     ∃ n, (MemoryLedger.appendActivity i (adapters_of t).2).1 = ok n).
Proof.
  intros Hok. split.
  - intros e He Hcmd Hkey. split; [by apply reused_command|]. unfold Memory.reserve. simpl adapters_of. simpl fst. rewrite get_receipt.
    rewrite (proj2 (head_filter_none (λ r, rp_lookup r = envelope_lookup e) (bt_receipts t))); [done|].
    intros r Hr Hl. apply Hkey. rewrite <- Hl. by apply list_elem_of_fmap_2.
  - intros i Hi Hused. split; [|by eexists]. destruct (event_run i t Hok Hi) as (i' & _ & Hrun).
    rewrite decide_False in Hrun by done. unfold postgres_call, mbind, M_bind, mret, M_ret.
    erewrite transaction_run; [reflexivity|apply Hi|exact Hrun].
Qed.
End refinement.

(** ** A concrete history *)

Module BoardPostgresExample.

Definition org : string := "11111111-1111-4111-8111-111111111111".
Definition home : string := "22222222-2222-4222-8222-222222222222".
Definition cmd_id : string := "33333333-3333-4333-8333-333333333333".
Definition card : string := "44444444-4444-4444-8444-444444444444".
Definition hash (digit : string) : string := join "" (replicate 64 digit).
Definition moment : Z := 1700000000000%Z.

#[local] Instance example_postgres : PostgresHost := {|
  uuid_in text := Some text;
  timestamp_in text := if bool_decide (toISOString moment = Some text) then Some moment else None;
  gen_uuid _ := card; user_name _ := None;
  workspace_org w := if String.eqb w home then Some org else None
|}.
#[local] Instance example_numbers : JsonNumbers := {| literal_number _ := NNonFinite |}.
(** PostgreSQL's order of keys: the shorter first, then by bytes. *)
Definition key_le (kv kv' : string * jsval) : Prop :=
  String.length kv.1 < String.length kv'.1 ∨ String.length kv.1 = String.length kv'.1 ∧ String.leb kv.1 kv'.1 = true.
#[local] Instance key_le_dec kv kv' : Decision (key_le kv kv').
Proof. unfold key_le. apply _. Defined.
Fixpoint key_ordered (v : jsval) : jsval :=
  match v with
  | JArr l => JArr (key_ordered <$> l)
  | JObj o => JObj (merge_sort key_le ((λ kv, (kv.1, key_ordered kv.2)) <$> o))
  | v => v
  end.

Lemma key_ordered_same v : json_same (key_ordered v) v.
Proof.
  induction v as [| |b|num|s|l IH|o IH|k] using jsval_ind'; simpl; try reflexivity.
  - constructor. rewrite Forall2_fmap_l. by apply Forall_Forall2_diag.
  - eapply same_object; [apply merge_sort_Permutation|]. rewrite Forall2_fmap_l. apply Forall_Forall2_diag.
    eapply Forall_impl; [exact IH|]. by intros [key v].
Qed.

#[local] Instance example_jsonb : Jsonb := {|
  jsonb text := default JNull (key_ordered <$> json_parse text);
  jsonb_text o := default "" (default None (jsonStringify (JObj o)))
|}.
#[local] Instance example_database : TenantDatabase := application_database.
#[local] Instance example_dates : NodeDates := {| date_text _ := ""; date_parse _ := None |}.
#[local] Instance example_texts : OpaqueTexts := {| opaque_text _ := "" |}.
#[local] Instance example_opaque : OpaqueNumbers := {| opaque_number _ := 0%Z |}.

Definition ada : CommandActorRef := mkActor "user" "user-ada" "human_owner".
Definition screen : CommandSourceRef := mkSource "web" "board".
Definition request (cmd digit : string) : CommandEnvelope :=
  mkEnvelope cmd "key-1" (hash digit) org home "approveReadyToTodo" card ada screen 1 cmd_id None
    [mkExpected "dev_ticket" card 4].

Definition entry : AppendPlanningDecisionEntryInput :=
  mkPlanningInput org home cmd_id card "ContractVersionCreated" "Ready contract approved" (hash "b") [("version", jsint 2)].
Definition event : AppendActivityEventInput :=
  mkActivityInput org home card 5 "ReadyApproved" cmd_id "key-1" ada screen 1 cmd_id None moment [("lane", JStr "todo")].
Definition settle : FinalizeCommandReceiptInput :=
  mkFinalize org cmd_id OAccepted (Some "dev_board.ready_approved_to_todo") (Some card)
    (Some [("dependencyId", JStr card); ("devTicketId", JStr card)]) (Some [mkExpected "dev_ticket" card 5]).
Definition settled_result : CommandReceiptResult :=
  mkReceiptResult cmd_id Accepted (Some "dev_board.ready_approved_to_todo") (Some card)
    (Some [("dependencyId", JStr card); ("devTicketId", JStr card)]) (Some [mkExpected "dev_ticket" card 5]).

Definition calls : list adapter_call :=
  [CallReserve (request cmd_id "a"); CallEntry entry; CallEvent event; CallFinalize settle;
   CallReserve (request cmd_id "a"); CallReserve (request cmd_id "c"); CallFinalize settle].
Definition no_rows : board_tables := mkBoardTables moment [] [] [].

(** The keys change places. *)
Example versions_reordered :
  jsonb (default "" (default None (jsonStringify (versions_js [mkExpected "dev_ticket" card 4])))) =
  JArr [JObj [("version", jsint 4); ("recordId", JStr card); ("recordKind", JStr "dev_ticket")]].
Proof. vm_compute. reflexivity. Qed.

(** Every value without two values for a key is kept. *)
Lemma plain_kept v : plain v = true → json_kept v.
Proof.
  intros (text & Htext & Hparse)%json_parse_stringify. exists text. split; [done|]. simpl. rewrite Hparse. apply key_ordered_same.
Qed.
Ltac kept := by apply plain_kept.
Ltac timed := eexists; split; vm_compute; reflexivity.

Lemma org_let_in : let_in org.
Proof. split; [done|]. intros t. reflexivity. Qed.

Lemma request_storable digit : hash_shape (hash digit) → envelope_storable (request cmd_id digit).
Proof.
  intros Hd. split; [exact org_let_in| |done| |done|].
  - repeat (apply Forall_cons_2; [done|]). apply Forall_nil_2.
  - unfold receipt_checks, actor_sized, sized. split_and!; try done; vm_compute; lia.
  - kept.
Qed.

Lemma same_key_free e (m : memory_adapters) : Forall (λ kv, rc_lookup kv.2 = envelope_lookup e) m.1 → command_free e m.
Proof. intros Hm kv Hkv _ _. rewrite Forall_forall in Hm. by apply Hm. Qed.

Lemma reserved_known (m : memory_adapters) kv : head m.1 = Some kv → lk_organizationId (rc_lookup kv.2) = org →
  rr_commandId (rc_result kv.2) = cmd_id → command_known org cmd_id m.
Proof. intros Hm Ho Hc. exists kv. split; [|done]. destruct (m.1); [done|]. injection Hm as ->. left. Qed.

Lemma settle_storable : finalize_storable settle.
Proof.
  split; [exact org_let_in|done| | |].
  - by intros i [= <-].
  - kept.
  - kept.
Qed.

Ltac same_key := apply same_key_free; vm_compute; first [apply Forall_nil_2|apply Forall_cons_2; [reflexivity|apply Forall_nil_2]].
Ltac known := eapply reserved_known; vm_compute; reflexivity.
Ltac ids := repeat (apply Forall_cons_2; [done|]); apply Forall_nil_2.

Lemma example_storable : history_storable calls (adapters_of no_rows).
Proof.
  unfold calls. cbn [history_storable]. split_and!; try exact settle_storable; try exact I.
  - split; [by apply request_storable|same_key].
  - split; [exact org_let_in|ids| |done| |known|vm_compute; discriminate].
    + unfold entry_checks, sized. split_and!; [vm_compute; lia..|done].
    + kept.
  - split.
    + split; [exact org_let_in|ids|done| |done| | |known|vm_compute; discriminate].
      * unfold event_checks, actor_sized, sized. split_and!; try done; vm_compute; lia.
      * kept.
      * timed.
    + vm_compute. apply Forall_nil_2.
  - split; [by apply request_storable|same_key].
  - split; [by apply request_storable|same_key].
Qed.

Lemma no_rows_sound : tables_sound no_rows.
Proof. split; simpl; [apply NoDup_nil_2|apply NoDup_nil_2|apply Forall_nil_2..]. Qed.

Lemma board_adapters_refine_memory_witness :
  ∃ answers t', postgres_history calls no_rows = (Returned answers, t') ∧
    Forall2 answer_same answers
      [AnswerReceipt (ok (reserved_result cmd_id)); AnswerSequence (ok 1%Z); AnswerSequence (ok 1%Z); AnswerFinal (ok tt);
       AnswerReceipt (ok settled_result); AnswerReceipt (err idempotencyConflict); AnswerFinal (err invalidReceipt)] ∧
    adapters_same (adapters_of t') (memory_history calls (adapters_of no_rows)).2 ∧ tables_sound t'.
Proof.
  apply (board_adapters_refine_memory calls no_rows (adapters_of no_rows) no_rows_sound); [|exact example_storable].
  split; constructor.
Defined.

(** The same command under another key, and a second event for the version. *)
Definition taken : board_tables := mkBoardTables moment [new_row (request cmd_id "a")] [] [(1%Z, event)].
Definition other_key : CommandEnvelope :=
  mkEnvelope cmd_id "key-2" (hash "d") org home "approveReadyToTodo" card ada screen 1 cmd_id None [].

Lemma taken_sound : tables_sound taken.
Proof.
  split; simpl; [apply NoDup_singleton|apply NoDup_singleton| |apply Forall_nil_2|].
  - by apply Forall_cons_2; [|apply Forall_nil_2].
  - by apply Forall_cons_2; [|apply Forall_nil_2].
Qed.

Lemma constraints_only_in_the_database_witness :
  (PgReceipts.reserveOrReplay other_key taken = (Thrown (ExnDatabase ConflictError), taken) ∧
   (Memory.reserve other_key (adapters_of taken).1).1 = ok (reserved_result cmd_id)) ∧
  postgres_call (CallEvent event) taken = (Returned (AnswerSequence (err PgLedger.appendFailed)), taken).
Proof.
  destruct (constraints_only_in_the_database taken taken_sound) as [Hreceipts Hevents]. split.
  - apply (Hreceipts other_key).
    + split; [exact org_let_in|ids|done| |done|kept].
      unfold receipt_checks, actor_sized, sized. split_and!; try done; vm_compute; lia.
    + left.
    + intros Hin. apply list_elem_of_singleton in Hin. discriminate Hin.
  - apply (Hevents event).
    + split; [exact org_let_in|ids|done| |done|kept|timed|known|vm_compute; discriminate].
      unfold event_checks, actor_sized, sized. split_and!; try done; vm_compute; lia.
    + intros Hfree. apply Forall_cons in Hfree as [Hv _]. by apply Hv.
Defined.
End BoardPostgresExample.
