(* ===== verification/GatewayBroker.v ===== *)
(** * Gateway broker: the connection manager
    ([apps/gateway-broker/src/routing/connection-manager.ts] and
    [apps/gateway-broker/src/routing/routes.ts])

    The manager keeps one client of the gateway for a route, closes it when it has
    been idle, and opens a circuit when its calls fail.  Its methods wait for the
    client in the middle, so a call is two steps, between which other calls, timers
    and streams run.  The client of the operator protocol is known by its open
    streams and by whether it has been disconnected. *)
From S2P Require Import Prelude JsString JsValue SharedKernel Effects.
From stdpp Require Import gmap.
From Stdlib Require Import QArith Qround Lqa.
#[local] Open Scope Z_scope.

(** ** Routes *)

Inductive GatewayAuthMode : Type := AmPairedDevice | AmSharedSecret.

(** [deviceKeypair] is only handed to the client. *)
Record GatewayRouteConfig : Type := mkGatewayRoute {
  rt_routeId : string;
  rt_tenantId : string;
  rt_url : string;
  rt_authMode : GatewayAuthMode;
  rt_pairedDeviceToken : string;
  rt_deviceKeypair : jsval;
  rt_clientVersion : option string;
}.

(** [GatewayRoutingTable.getRoute] *)
Class GatewayRoutingTable := { getRoute : string → option GatewayRouteConfig }.

(** A table gives a route under its own identifier. *)
Class RoutingTableLaws `{GatewayRoutingTable} : Prop := {
  route_under_its_id r route : getRoute r = Some route → rt_routeId route = r;
}.

(** [StaticGatewayRoutingTable]: the last route of an identifier. *)
Definition routes_map (routes : list GatewayRouteConfig) : gmap string GatewayRouteConfig :=
  foldl (λ m route, <[rt_routeId route := route]> m) ∅ routes.
Definition StaticGatewayRoutingTable (routes : list GatewayRouteConfig) : GatewayRoutingTable :=
  {| getRoute r := routes_map routes !! r |}.

Lemma static_table_laws routes : RoutingTableLaws (H := StaticGatewayRoutingTable routes).
Proof.
  split. simpl. unfold routes_map. assert (map_Forall (λ r route, rt_routeId route = r) (∅ : gmap string GatewayRouteConfig)) as H0
    by apply map_Forall_empty.
  revert H0. generalize (∅ : gmap string GatewayRouteConfig). induction routes as [|route routes IH]; intros m Hm; simpl.
  - intros r route. apply Hm.
  - apply IH. by apply map_Forall_insert_2.
Qed.

(** ** The state of a manager *)

(** [ManagedClient], with its operator client. *)
Record ManagedClient : Type := mkManaged {
  mg_route : GatewayRouteConfig;
  mg_activeStreamCount : nat;
  mg_disconnected : bool;
  mg_idleTimer : option nat;
}.

Record CircuitState : Type := mkCircuit { ct_openedUntil : Z; ct_reason : string; ct_failures : nat }.

(** A timer of the event loop: its handle, when it is due and the client it was set for. *)
Record idle_timer : Type := mkTimer { tm_handle : nat; tm_due : Z; tm_client : nat }.

(** [br_objects] are the clients ever made, by their place; [br_calls] are the calls
    that wait for their client. *)
Record broker : Type := mkBroker {
  br_now : Z;
  br_clients : gmap string nat;
  br_circuits : gmap string CircuitState;
  br_objects : list ManagedClient;
  br_timers : list idle_timer;
  br_handles : nat;
  br_calls : list nat;
}.

Definition empty_broker (now : Z) : broker := mkBroker now ∅ ∅ [] [] 0 [].

(** The options, with their defaults. *)
Record GatewayConnectionManagerOptions : Type := mkBrokerOptions {
  bo_idleDisconnectMs : option Z;
  bo_maxFailuresBeforeOpen : option nat;
  bo_circuitOpenMs : option Z;
  bo_baseBackoffMs : option Z;
  bo_maxBackoffMs : option Z;
}.

Record OpenClawGatewayHealthSnapshot : Type := mkHealth {
  hl_routeId : string; hl_reachable : bool; hl_circuitOpen : bool; hl_checkedAt : Z; hl_degradedReason : option string;
}.

(** What [client.health()] answers. *)
Class OperatorClients := { client_health : ManagedClient → OpenClawGatewayHealthSnapshot }.


Module GatewayConnectionManager.

Definition gatewayBrokerError (code message : string) (details : option jsobj) : DomainError :=
  mkDomainError code message details.

Definition gatewayUnavailable : DomainError :=
  gatewayBrokerError "gatewayBroker.gatewayUnavailable" "Gateway route was not found." None.
Definition circuitOpen (route : GatewayRouteConfig) (reason : string) : DomainError :=
  gatewayBrokerError "gatewayBroker.circuitOpen" "Tenant Gateway route circuit breaker is open."
    (Some [("routeId", JStr (rt_routeId route)); ("tenantId", JStr (rt_tenantId route)); ("reason", JStr reason)]).

Section manager.
Context `{GatewayRoutingTable} (options : GatewayConnectionManagerOptions).
Implicit Types (b : broker) (r : string).

Definition idleDisconnectMs : Z := default 60000 (bo_idleDisconnectMs options).
Definition maxFailuresBeforeOpen : nat := default 3%nat (bo_maxFailuresBeforeOpen options).
Definition circuitOpenMs : Z := default 30000 (bo_circuitOpenMs options).
Definition baseBackoffMs : Z := default 1000 (bo_baseBackoffMs options).
Definition maxBackoffMs : Z := default 30000 (bo_maxBackoffMs options).

(** *** Updates of the state *)

Definition set_clients (f : gmap string nat → gmap string nat) b : broker :=
  mkBroker (br_now b) (f (br_clients b)) (br_circuits b) (br_objects b) (br_timers b) (br_handles b) (br_calls b).
Definition set_circuits (f : gmap string CircuitState → gmap string CircuitState) b : broker :=
  mkBroker (br_now b) (br_clients b) (f (br_circuits b)) (br_objects b) (br_timers b) (br_handles b) (br_calls b).
Definition set_objects (f : list ManagedClient → list ManagedClient) b : broker :=
  mkBroker (br_now b) (br_clients b) (br_circuits b) (f (br_objects b)) (br_timers b) (br_handles b) (br_calls b).
Definition set_timers (f : list idle_timer → list idle_timer) b : broker :=
  mkBroker (br_now b) (br_clients b) (br_circuits b) (br_objects b) (f (br_timers b)) (br_handles b) (br_calls b).
Definition set_calls (f : list nat → list nat) b : broker :=
  mkBroker (br_now b) (br_clients b) (br_circuits b) (br_objects b) (br_timers b) (br_handles b) (f (br_calls b)).
Definition set_now (now : Z) b : broker :=
  mkBroker now (br_clients b) (br_circuits b) (br_objects b) (br_timers b) (br_handles b) (br_calls b).
Definition next_handle b : broker :=
  mkBroker (br_now b) (br_clients b) (br_circuits b) (br_objects b) (br_timers b) (S (br_handles b)) (br_calls b).

Definition with_timer (t : option nat) (m : ManagedClient) : ManagedClient :=
  mkManaged (mg_route m) (mg_activeStreamCount m) (mg_disconnected m) t.
Definition with_streams (n : nat) (m : ManagedClient) : ManagedClient :=
  mkManaged (mg_route m) n (mg_disconnected m) (mg_idleTimer m).
(** [client.disconnect()] fails the open streams without a notice. *)
Definition disconnected (m : ManagedClient) : ManagedClient := mkManaged (mg_route m) 0 true (mg_idleTimer m).

Definition update (id : nat) (f : ManagedClient → ManagedClient) b : broker := set_objects (alter f id) b.

(** *** Timers *)

Definition clear_handle (t : nat) (l : list idle_timer) : list idle_timer := filter (λ x, tm_handle x ≠ t) l.

Definition clearIdleTimer (id : nat) b : broker :=
  match mg_idleTimer <$> br_objects b !! id with
  | Some (Some t) => update id (with_timer None) (set_timers (clear_handle t) b)
  | _ => b
  end.

Definition streams_of (id : nat) b : nat := default 0%nat (mg_activeStreamCount <$> br_objects b !! id).

Definition scheduleIdleDisconnect (id : nat) b : broker :=
  if (0 <? streams_of id b)%nat then b
  else
    let b := clearIdleTimer id b in
    update id (with_timer (Some (br_handles b)))
      (next_handle (set_timers (λ l, l ++ [mkTimer (br_handles b) (br_now b + idleDisconnectMs) id]) b)).

(** The callback of a timer. *)
Definition idle_callback (id : nat) b : broker :=
  let b := update id (with_timer None) b in
  match br_objects b !! id with
  | Some m => if (0 <? mg_activeStreamCount m)%nat then b
              else set_clients (delete (rt_routeId (mg_route m))) (update id disconnected b)
  | None => b
  end.

(** [onActiveStreamDrained] of a client made for the route. *)
Definition stream_drained r b : broker :=
  match br_clients b !! r with Some current => scheduleIdleDisconnect current b | None => b end.

(** *** Circuits *)

(** [Math.floor(exponential * (0.5 + jitter))], in rationals. *)
Definition backoffMs (jitter : Q) (failures : nat) : Z :=
  let exponential := Z.min maxBackoffMs (baseBackoffMs * 2 ^ (Z.of_nat failures - 1)) in
  Z.max 1 (Qfloor (inject_Z exponential * ((1 # 2) + jitter))%Q).

(** The errors that are no failures of the gateway. *)
Definition uncounted (e : DomainError) : bool :=
  String.eqb (error_code e) "gatewayBroker.sessionBusy" || String.eqb (error_code e) "gatewayBroker.auditUnsupported".

Definition recordResult {A} (route : GatewayRouteConfig) (result : Result A) (jitter : Q) b : broker :=
  let r := rt_routeId route in
  match result with
  | ok _ => set_circuits (delete r) b
  | err e =>
      if uncounted e then b
      else
        let failures := S (default 0%nat (ct_failures <$> br_circuits b !! r)) in
        let wait := if (failures <? maxFailuresBeforeOpen)%nat then backoffMs jitter failures else circuitOpenMs in
        set_circuits <[r := mkCircuit (br_now b + wait) (error_code e) failures]> b
  end.

(** *** The calls of a route *)

(** The client of a route, made if there is none. *)
Definition existing_or_new (route : GatewayRouteConfig) r b : nat * broker :=
  match br_clients b !! r with
  | Some existing => (existing, b)
  | None =>
      let id := length (br_objects b) in
      (id, set_clients <[r := id]> (set_objects (λ l, l ++ [mkManaged route 0 false None]) b))
  end.

Definition circuit_is_open r b : option CircuitState :=
  circuit ← br_circuits b !! r; if br_now b <? ct_openedUntil circuit then Some circuit else None.

Definition getOrCreateClient r b : Result nat * broker :=
  match getRoute r with
  | None => (err gatewayUnavailable, b)
  | Some route =>
      match circuit_is_open r b with
      | Some circuit => (err (circuitOpen route (ct_reason circuit)), b)
      | None => let '(id, b) := existing_or_new route r b in (ok id, b)
      end
  end.

(** [startAssistantStreamForRoute], [getEffectiveToolsForRoute] and
    [auditActivityListForRoute] up to their [await]. *)
Definition begin_call r b : Result nat * broker :=
  match getOrCreateClient r b with
  | (ok id, b) => (ok id, set_calls (λ calls, calls ++ [id]) (clearIdleTimer id b))
  | (err e, b) => (err e, b)
  end.

(** What follows when the client has answered the [k]-th call that waits. *)
Definition finish_call {A} (k : nat) (result : Result A) (jitter : Q) b : broker :=
  match br_calls b !! k with
  | Some id =>
      match br_objects b !! id with
      | Some m =>
          let b := recordResult (mg_route m) result jitter (set_calls (delete k) b) in
          if (streams_of id b =? 0)%nat then scheduleIdleDisconnect id b else b
      | None => b
      end
  | None => b
  end.

(** *** The port *)



Definition getHealthForOps `{OperatorClients} r b : Result OpenClawGatewayHealthSnapshot :=
  match getRoute r with
  | None => err gatewayUnavailable
  | Some _ =>
      match br_clients b !! r ≫= (λ id, br_objects b !! id) with
      | Some m => ok (client_health m)
      | None =>
          let circuit := br_circuits b !! r in
          ok (mkHealth r false (match circuit with Some c => br_now b <? ct_openedUntil c | None => false end) (br_now b)
                (ct_reason <$> circuit))
      end
  end.

Definition disconnect_one (id : nat) b : broker := update id disconnected (clearIdleTimer id b).

Definition disconnectAll b : broker :=
  set_clients (λ _, ∅) (foldl (λ b id, disconnect_one id b) b ((map_to_list (br_clients b)).*2)).

(** ** The steps of a manager *)

(** The event loop runs one callback at a time.  A client opens a stream at the start
    of a call, and tells the manager when the last stream has been closed. *)
Inductive broker_step b : broker → Prop :=
| bs_begin r id b' : begin_call r b = (ok id, b') → broker_step b b'
| bs_finish k (result : Result unit) jitter : broker_step b (finish_call k result jitter b)
| bs_open id m : id ∈ br_calls b → br_objects b !! id = Some m → mg_disconnected m = false →
    broker_step b (update id (with_streams (S (mg_activeStreamCount m))) b)
| bs_close id m n : br_objects b !! id = Some m → mg_activeStreamCount m = S (S n) →
    broker_step b (update id (with_streams (S n)) b)
| bs_drain id m : br_objects b !! id = Some m → (mg_activeStreamCount m <= 1)%nat →
    broker_step b (stream_drained (rt_routeId (mg_route m)) (update id (with_streams 0) b))
| bs_timer t : t ∈ br_timers b → tm_due t <= br_now b →
    broker_step b (idle_callback (tm_client t) (set_timers (clear_handle (tm_handle t)) b))
| bs_time now : br_now b <= now → broker_step b (set_now now b)
| bs_disconnect : broker_step b (disconnectAll b).

Definition broker_reachable b : Prop := ∃ now, rtc broker_step (empty_broker now) b.
End manager.
End GatewayConnectionManager.

(** ** The invariant *)

Import GatewayConnectionManager.

Section invariant.
Context `{RoutingTableLaws} (options : GatewayConnectionManagerOptions).
Implicit Types (b : broker) (r : string).

(** What the maps, the clients and the timers say of one another. *)
Record wired b : Prop := {
  wi_clients : ∀ r id, br_clients b !! r = Some id →
    ∃ m, br_objects b !! id = Some m ∧ rt_routeId (mg_route m) = r ∧ mg_disconnected m = false;
  wi_routes : ∀ id m, br_objects b !! id = Some m → getRoute (rt_routeId (mg_route m)) = Some (mg_route m);
  wi_armed : ∀ id m t, br_objects b !! id = Some m → mg_idleTimer m = Some t →
    ∃ due, mkTimer t due id ∈ br_timers b ∧ due <= br_now b + idleDisconnectMs options;
  wi_pending : ∀ x, x ∈ br_timers b →
    (tm_handle x < br_handles b)%nat ∧ ∃ m, br_objects b !! tm_client x = Some m ∧ mg_idleTimer m = Some (tm_handle x);
  wi_unique : ∀ x y, x ∈ br_timers b → y ∈ br_timers b → tm_handle x = tm_handle y → x = y;
}.

(** Every client of a route that is idle waits for its timer, those in [P] aside. *)
Definition armed_but (P : nat → Prop) b : Prop :=
  ∀ r id m, br_clients b !! r = Some id → br_objects b !! id = Some m → mg_activeStreamCount m = 0%nat →
    id ∈ br_calls b ∨ mg_idleTimer m ≠ None ∨ P id.

Lemma update_lookup id f b j :
  br_objects (update id f b) !! j = (if decide (j = id) then f else λ m, m) <$> br_objects b !! j.
Proof.
  simpl. case_decide as Hj; [subst; by rewrite list_lookup_alter_eq|]. rewrite list_lookup_alter_ne by done.
  by destruct (br_objects b !! j).
Qed.

Lemma with_timer_same m : mg_idleTimer m = None → with_timer None m = m.
Proof. by destruct m; simpl; intros ->. Qed.

(** Clearing the timer of a client takes away its timer, and no other. *)
Lemma clear_lookup id b j :
  br_objects (clearIdleTimer id b) !! j = (if decide (j = id) then with_timer None else λ m, m) <$> br_objects b !! j.
Proof.
  assert (∀ o : option ManagedClient, o = (λ m, m) <$> o) as Hid by (by intros []).
  unfold clearIdleTimer. destruct (br_objects b !! id) as [m|] eqn:Hm; simpl.
  - destruct (mg_idleTimer m) as [t|] eqn:Ht; [by rewrite update_lookup|]. case_decide as Hj; [|apply Hid].
    subst. rewrite Hm. simpl. by rewrite with_timer_same.
  - case_decide as Hj; [subst; by rewrite Hm|apply Hid].
Qed.

Lemma clear_frame id b :
  br_now (clearIdleTimer id b) = br_now b ∧ br_clients (clearIdleTimer id b) = br_clients b ∧
  br_circuits (clearIdleTimer id b) = br_circuits b ∧ br_calls (clearIdleTimer id b) = br_calls b ∧
  br_handles (clearIdleTimer id b) = br_handles b.
Proof. unfold clearIdleTimer. by repeat case_match. Qed.

Lemma clear_timers id b : wired b →
  ∀ x, x ∈ br_timers (clearIdleTimer id b) ↔ x ∈ br_timers b ∧ tm_client x ≠ id.
Proof.
  intros Hw x. assert (x ∈ br_timers b → ∃ m, br_objects b !! tm_client x = Some m ∧ mg_idleTimer m = Some (tm_handle x)) as Hx.
  { intros Hx. by apply (wi_pending _ Hw x Hx). }
  unfold clearIdleTimer. destruct (br_objects b !! id) as [m|] eqn:Hm; simpl.
  - destruct (mg_idleTimer m) as [t|] eqn:Ht; simpl.
    + unfold clear_handle. split.
      * intros [Hne Hin]%list_elem_of_filter. split; [done|]. intros Heq. destruct (Hx Hin) as (m' & Hm' & Ht'). congruence.
      * intros [Hin Hne]. apply list_elem_of_filter. split; [|done]. intros Heq.
        destruct (wi_armed _ Hw id m t Hm Ht) as (due & Hin' & _). apply Hne.
        by rewrite (wi_unique _ Hw x _ Hin Hin' Heq).
    + split; [|by intros []]. intros Hin. split; [done|]. intros Heq. destruct (Hx Hin) as (m' & Hm' & Ht'). congruence.
  - split; [|by intros []]. intros Hin. split; [done|]. intros Heq. destruct (Hx Hin) as (m' & Hm' & Ht'). congruence.
Qed.

Lemma clear_wired id b : wired b → wired (clearIdleTimer id b).
Proof.
  intros Hw. pose proof (clear_timers id b Hw) as Hx. destruct Hw as [Hc Hr Ha Hp Hu].
  destruct (clear_frame id b) as (Hn & Hcl & _ & _ & Hh). split.
  - intros r j. rewrite Hcl, clear_lookup. intros (m & -> & Hm)%Hc. eexists. split; [reflexivity|]. by case_decide.
  - intros j m. rewrite clear_lookup. intros (m' & Hm & ->)%fmap_Some. apply Hr in Hm. by case_decide.
  - intros j m t. rewrite clear_lookup, Hn. intros (m' & Hm & ->)%fmap_Some. case_decide as Hj; [done|]. intros Ht.
    destruct (Ha j m' t Hm Ht) as (due & Hin & Hdue). exists due. by rewrite Hx.
  - intros x [Hin Hne]%Hx. rewrite Hh, clear_lookup. destruct (Hp x Hin) as (Hlt & m & -> & Ht). split; [done|].
    eexists. split; [reflexivity|]. by rewrite decide_False.
  - intros x y [Hin _]%Hx [Hin' _]%Hx. by apply Hu.
Qed.

(** *** Scheduling *)

Lemma schedule_frame id b : let b' := scheduleIdleDisconnect options id b in
  br_now b' = br_now b ∧ br_clients b' = br_clients b ∧ br_circuits b' = br_circuits b ∧ br_calls b' = br_calls b.
Proof.
  unfold scheduleIdleDisconnect. case_match; [done|]. destruct (clear_frame id b) as (Hn & Hcl & Hci & Hca & _). done.
Qed.

(** A client keeps all but its timer, which is set when it has no stream. *)
Lemma schedule_lookup id b j m' :
  br_objects (scheduleIdleDisconnect options id b) !! j = Some m' →
  ∃ m, br_objects b !! j = Some m ∧ m' = with_timer (mg_idleTimer m') m ∧
    (j = id → mg_activeStreamCount m = 0%nat → mg_idleTimer m' ≠ None) ∧ (mg_idleTimer m ≠ None → mg_idleTimer m' ≠ None).
Proof.
  unfold scheduleIdleDisconnect, streams_of. case_match eqn:Hs.
  - intros Hj. exists m'. split_and!; [done|by destruct m'| |done]. intros -> H0'. rewrite Hj in Hs. simpl in Hs. by rewrite H0' in Hs.
  - rewrite update_lookup. simpl. rewrite clear_lookup. intros (m1 & (m & Hm & ->)%fmap_Some & ->)%fmap_Some.
    exists m. split; [done|]. case_decide; by destruct m.
Qed.

Lemma schedule_wired id b m : br_objects b !! id = Some m → wired b → wired (scheduleIdleDisconnect options id b).
Proof.
  intros Hm Hw. unfold scheduleIdleDisconnect. case_match; [done|]. apply (clear_wired id) in Hw as Hw'.
  pose proof (clear_timers id b Hw) as Hx. destruct (clear_frame id b) as (Hn & _ & _ & _ & Hh).
  assert (br_objects (clearIdleTimer id b) !! id = Some (with_timer None m)) as Hm'.
  { rewrite clear_lookup, Hm. simpl. by rewrite decide_True. }
  revert Hw' Hx Hm' Hn Hh. generalize (clearIdleTimer id b) as c. intros c [Hc Hr Ha Hp Hu] Hx Hm' Hn Hh. split.
  - intros r j Hj. rewrite update_lookup. destruct (Hc r j Hj) as (m1 & E1 & E2). simpl. rewrite E1. eexists. split; [reflexivity|].
    by case_decide.
  - intros j m1. rewrite update_lookup. intros (m2 & Hm2 & ->)%fmap_Some. apply Hr in Hm2. by case_decide.
  - intros j m1 t. rewrite update_lookup. intros (m2 & Hm2 & ->)%fmap_Some. simpl br_timers. simpl br_now. simpl in Hm2.
    case_decide as Hj; simpl.
    + intros [= <-]. subst. exists (br_now c + idleDisconnectMs options). split; [|lia]. apply elem_of_app. right.
      by apply list_elem_of_singleton.
    + intros Ht. destruct (Ha j m2 t Hm2 Ht) as (due & Hin & Hdue). exists due. split; [|done]. apply elem_of_app. by left.
  - intros x. simpl br_timers. simpl br_handles. rewrite update_lookup. simpl.
    intros [Hin| ->%list_elem_of_singleton]%elem_of_app; simpl.
    + destruct (Hp x Hin) as (Hlt & m2 & Hm2 & Ht). split; [lia|]. rewrite Hm2. eexists. split; [reflexivity|].
      rewrite decide_False; [done|]. by apply Hx in Hin as [_ Hne].
    + split; [lia|]. rewrite Hm', decide_True by done. by eexists.
  - intros x y. simpl br_timers.
    intros [Hin| ->%list_elem_of_singleton]%elem_of_app [Hin'| ->%list_elem_of_singleton]%elem_of_app; simpl; [by apply Hu| | |done].
    + intros Heq. apply Hp in Hin as [Hlt _]. lia.
    + intros Heq. apply Hp in Hin' as [Hlt _]. lia.
Qed.

Lemma schedule_armed P id b :
  armed_but (λ j, P j ∨ j = id) b → armed_but P (scheduleIdleDisconnect options id b).
Proof.
  intros Ha r j m' Hj Hm' Hs. destruct (schedule_frame id b) as (_ & Hcl & _ & Hca). simpl in *. rewrite Hcl in Hj. rewrite Hca.
  destruct (schedule_lookup id b j m' Hm') as (m & Hm & Heq & Hid & Hkeep).
  assert (mg_activeStreamCount m = 0%nat) as Hs' by (rewrite Heq in Hs; by destruct m).
  destruct (Ha r j m Hj Hm Hs') as [?|[?|[?| ->]]]; auto.
Qed.

(** *** Updates of one client *)

(** An update that keeps the route, the connection and the timer. *)
Lemma update_wired id f b :
  (∀ m, mg_route (f m) = mg_route m ∧ mg_disconnected (f m) = mg_disconnected m ∧ mg_idleTimer (f m) = mg_idleTimer m) →
  wired b → wired (update id f b).
Proof.
  intros Hf [Hc Hr Ha Hp Hu]. split; try done.
  - intros r j Hj. rewrite update_lookup. destruct (Hc r j Hj) as (m & -> & Hm). eexists. split; [reflexivity|].
    case_decide; [|done]. destruct (Hf m) as (-> & -> & _). done.
  - intros j m. rewrite update_lookup. intros (m' & Hm & ->)%fmap_Some. apply Hr in Hm.
    case_decide; [|done]. by destruct (Hf m') as (-> & _).
  - intros j m t. rewrite update_lookup. intros (m' & Hm & ->)%fmap_Some Ht. apply (Ha j m' t Hm).
    case_decide; [|done]. by destruct (Hf m') as (_ & _ & <-).
  - intros x Hx. rewrite update_lookup. destruct (Hp x Hx) as (Hlt & m & -> & Hm). split; [done|]. eexists. split; [reflexivity|].
    case_decide; [|done]. by destruct (Hf m) as (_ & _ & ->).
Qed.

(** ** Every step keeps the invariant *)

Definition broker_ok b : Prop := wired b ∧ armed_but (λ _, False) b ∧ Forall (λ id, (id < length (br_objects b))%nat) (br_calls b).

Lemma empty_ok now : broker_ok (empty_broker now).
Proof. split; [split; set_solver|]. split; [by intros r id m Hr|]. apply Forall_nil_2. Qed.

Lemma clear_length id b : length (br_objects (clearIdleTimer id b)) = length (br_objects b).
Proof. unfold clearIdleTimer. repeat case_match; simpl; by rewrite ?length_alter. Qed.
Lemma schedule_length id b : length (br_objects (scheduleIdleDisconnect options id b)) = length (br_objects b).
Proof. unfold scheduleIdleDisconnect. case_match; [done|]. simpl. rewrite length_alter. simpl. apply clear_length. Qed.

(** Only the clients, the objects, the timers and the time matter to the wiring. *)
Lemma wired_calls f b : wired b → wired (set_calls f b).
Proof. by intros []. Qed.
Lemma wired_circuits f b : wired b → wired (set_circuits f b).
Proof. by intros []. Qed.

Lemma record_frame {A} route (result : Result A) jitter b : ∃ f, recordResult options route result jitter b = set_circuits f b.
Proof.
  unfold recordResult. destruct result as [a|e]; [by eexists|]. case_match; [|by eexists].
  exists (λ c, c). by destruct b.
Qed.

Lemma new_wired route r b : getRoute r = Some route → wired b → wired (existing_or_new route r b).2.
Proof.
  intros Hroute [Hc Hr Ha Hp Hu]. pose proof (route_under_its_id r route Hroute) as Hid. unfold existing_or_new.
  destruct (br_clients b !! r) as [id|] eqn:Hex; simpl; [done|]. split; simpl.
  - intros r' j [[<- <-]|[Hne Hj]]%lookup_insert_Some.
    + exists (mkManaged route 0 false None). rewrite list_lookup_middle; [done|lia].
    + destruct (Hc r' j Hj) as (m & Hm & Hm'). exists m. split; [by apply lookup_app_l_Some|done].
  - intros j m [Hm|[_ Hm]]%lookup_app_Some; [by apply (Hr j)|]. apply list_lookup_singleton_Some in Hm as [_ <-]. simpl. by rewrite Hid.
  - intros j m t [Hm|[_ Hm]]%lookup_app_Some; [by apply (Ha j)|]. by apply list_lookup_singleton_Some in Hm as [_ <-].
  - intros x Hx. destruct (Hp x Hx) as (Hlt & m & Hm & Ht). split; [done|]. exists m. split; [by apply lookup_app_l_Some|done].
  - done.
Qed.

Lemma begin_ok r id b b' : begin_call r b = (ok id, b') → broker_ok b → broker_ok b'.
Proof.
  unfold begin_call, getOrCreateClient. destruct (getRoute r) as [route|] eqn:Hroute; [|done].
  destruct (circuit_is_open r b); [done|]. destruct (existing_or_new route r b) as [id' c] eqn:Hnew. intros [= -> <-] (Hw & Ha & Hl).
  pose proof (new_wired route r b Hroute Hw) as Hw'. rewrite Hnew in Hw'. simpl in Hw'.
  assert ((id < length (br_objects c))%nat ∧ armed_but (λ j, j = id) c ∧ Forall (λ j, (j < length (br_objects c))%nat) (br_calls c)) as (Hid & Ha' & Hl').
  { unfold existing_or_new in Hnew. destruct (br_clients b !! r) as [x|] eqn:Hex; injection Hnew as <- <-.
    - destruct (wi_clients _ Hw r x Hex) as (m & Hm & _). split_and!; [by eapply lookup_lt_Some| |done].
      intros r' j m' Hj Hm' Hs. destruct (Ha r' j m' Hj Hm' Hs) as [?|[?|[]]]; auto.
    - simpl. rewrite length_app. simpl. split_and!; [lia| |eapply Forall_impl; [exact Hl|simpl; lia]].
      intros r' j m' Hj Hm' Hs. simpl in Hj, Hm'. apply lookup_insert_Some in Hj as [[<- <-]|[Hne Hj]]; [by auto|].
      destruct (wi_clients _ Hw r' j Hj) as (m & Hm & _). rewrite lookup_app_l in Hm' by (by eapply lookup_lt_Some).
      destruct (Ha r' j m' Hj Hm' Hs) as [?|[?|[]]]; auto. }
  destruct (clear_frame id c) as (_ & Hcl & _ & Hca & _). split_and!.
  - by apply wired_calls, clear_wired.
  - intros r' j m'. simpl br_clients. simpl br_objects. simpl br_calls. rewrite Hcl, Hca, clear_lookup.
    intros Hj (m & Hm & ->)%fmap_Some Hs. destruct (decide (j = id)) as [->|Hne].
    + left. apply elem_of_app. right. by apply list_elem_of_singleton.
    + destruct (Ha' r' j m Hj Hm Hs) as [?|[?|?]]; [|by auto|done]. left. apply elem_of_app. by left.
  - simpl. rewrite clear_length, Hca. apply Forall_app. split; [done|]. by apply Forall_singleton.
Qed.

Lemma elem_of_delete_other {A} (l : list A) k y x : l !! k = Some y → x ∈ l → x = y ∨ x ∈ delete k l.
Proof.
  intros Hk (i & Hi)%list_elem_of_lookup. destruct (decide (i = k)) as [->|Hne]; [left; congruence|right].
  rewrite list_elem_of_lookup. destruct (decide (i < k)%nat).
  - exists i. by rewrite list_lookup_delete_lt.
  - exists (pred i). rewrite list_lookup_delete_ge by lia. by replace (S (pred i)) with i by lia.
Qed.

Lemma streams_of_eq id b m : br_objects b !! id = Some m → streams_of id b = mg_activeStreamCount m.
Proof. unfold streams_of. by intros ->. Qed.

Lemma finish_ok {A} k (result : Result A) jitter b : broker_ok b → broker_ok (finish_call options k result jitter b).
Proof.
  intros (Hw & Ha & Hl). unfold finish_call. destruct (br_calls b !! k) as [id|] eqn:Hk; [|done].
  destruct (br_objects b !! id) as [m|] eqn:Hm; [|done].
  destruct (record_frame (mg_route m) result jitter (set_calls (delete k) b)) as [f ->].
  set (c := set_circuits f (set_calls (delete k) b)). assert (wired c) as Hw' by (by apply wired_circuits, wired_calls).
  assert (armed_but (λ j, False ∨ j = id) c) as Ha'.
  { intros r j m' Hj Hm' Hs. destruct (Ha r j m' Hj Hm' Hs) as [Hin|[?|[]]]; [|by auto].
    destruct (elem_of_delete_other _ _ _ _ Hk Hin) as [->|?]; auto. }
  assert (Forall (λ j, (j < length (br_objects c))%nat) (br_calls c)) as Hl' by (by apply Forall_delete).
  rewrite (streams_of_eq id c m Hm). case_match eqn:Hs.
  - split; [by apply (schedule_wired id c m)|]. split; [by apply schedule_armed|]. rewrite schedule_length.
    by destruct (schedule_frame id c) as (_ & _ & _ & ->).
  - split; [done|]. split; [|done]. intros r j m' Hj Hm' Hs'. destruct (Ha' r j m' Hj Hm' Hs') as [?|[?|[[]| ->]]]; auto.
    apply Nat.eqb_neq in Hs. change (br_objects c) with (br_objects b) in Hm'. congruence.
Qed.

(** Streams of a client. *)
Lemma streams_ok id n b : broker_ok b →
  wired (update id (with_streams n) b) ∧ armed_but (λ j, n = 0%nat ∧ j = id) (update id (with_streams n) b) ∧
  Forall (λ j, (j < length (br_objects (update id (with_streams n) b)))%nat) (br_calls b).
Proof.
  intros (Hw & Ha & Hl). split_and!; [by apply update_wired| |simpl; by rewrite length_alter].
  intros r j m'. rewrite update_lookup. intros Hj (m & Hm & ->)%fmap_Some. case_decide as Hid; simpl.
  - intros ->. auto.
  - intros Hs. destruct (Ha r j m Hj Hm Hs) as [?|[?|[]]]; auto.
Qed.

Lemma stream_ok id n b : broker_ok b → broker_ok (update id (with_streams (S n)) b).
Proof.
  intros (Hw & Ha & Hl)%(streams_ok id (S n)). split_and!; try done. intros r j m Hj Hm Hs.
  destruct (Ha r j m Hj Hm Hs) as [?|[?|[]]]; auto.
Qed.

Lemma drain_ok id m b : br_objects b !! id = Some m → broker_ok b →
  broker_ok (stream_drained options (rt_routeId (mg_route m)) (update id (with_streams 0) b)).
Proof.
  intros Hm Hok. destruct (streams_ok id 0 b Hok) as (Hw & Ha & Hl). destruct Hok as (Hw0 & _ & _).
  set (c := update id (with_streams 0) b) in *. unfold stream_drained.
  assert (∀ r, br_clients c !! r = Some id → r = rt_routeId (mg_route m)) as Hown.
  { intros r Hr. destruct (wi_clients _ Hw0 r id Hr) as (m' & Hm' & <- & _). congruence. }
  destruct (br_clients c !! rt_routeId (mg_route m)) as [current|] eqn:Hcur.
  - destruct (wi_clients _ Hw _ _ Hcur) as (m1 & Hm1 & _). split; [by apply (schedule_wired current c m1)|]. split.
    + apply schedule_armed. intros r j m' Hj Hm' Hs. destruct (Ha r j m' Hj Hm' Hs) as [?|[?|[_ ->]]]; auto.
      right; right; right. pose proof (Hown r Hj). subst r. change (br_clients c) with (br_clients b) in *. congruence.
    + rewrite schedule_length. by destruct (schedule_frame current c) as (_ & _ & _ & ->).
  - split; [done|]. split; [|done]. intros r j m' Hj Hm' Hs. destruct (Ha r j m' Hj Hm' Hs) as [?|[?|[_ ->]]]; auto.
    pose proof (Hown r Hj). subst r. change (br_clients c) with (br_clients b) in *. congruence.
Qed.

(** *** Timers *)

(** The callback of a pending timer clears it, as [clearIdleTimer] would. *)
Lemma callback_clears t b : wired b → t ∈ br_timers b →
  update (tm_client t) (with_timer None) (set_timers (clear_handle (tm_handle t)) b) = clearIdleTimer (tm_client t) b.
Proof.
  intros Hw Ht. destruct (wi_pending _ Hw t Ht) as (_ & m & Hm & Hidle). unfold clearIdleTimer. rewrite Hm. simpl. by rewrite Hidle.
Qed.

Lemma disconnected_wired id m b : br_objects b !! id = Some m → wired b →
  wired (set_clients (delete (rt_routeId (mg_route m))) (update id disconnected b)).
Proof.
  intros Hm [Hc Hr Ha Hp Hu]. split; try done.
  - intros r j. simpl br_clients. intros [Hne Hj]%lookup_delete_Some. destruct (Hc r j Hj) as (m' & Hm' & Hroute & Hd).
    change (br_objects (set_clients ?f ?x)) with (br_objects x). rewrite update_lookup, Hm'. eexists. split; [reflexivity|].
    rewrite decide_False; [done|]. intros ->. congruence.
  - intros j m1. change (br_objects (set_clients ?f ?x)) with (br_objects x). rewrite update_lookup.
    intros (m' & Hm' & ->)%fmap_Some. apply Hr in Hm'. by case_decide.
  - intros j m1 t. change (br_objects (set_clients ?f ?x)) with (br_objects x). rewrite update_lookup.
    intros (m' & Hm' & ->)%fmap_Some Ht. apply (Ha j m' t Hm'). by case_decide.
  - intros x Hx. change (br_objects (set_clients ?f ?x)) with (br_objects x). rewrite update_lookup.
    destruct (Hp x Hx) as (Hlt & m' & -> & Ht). split; [done|]. eexists. split; [reflexivity|]. by case_decide.
Qed.

Lemma timer_ok t b : t ∈ br_timers b → broker_ok b →
  broker_ok (idle_callback (tm_client t) (set_timers (clear_handle (tm_handle t)) b)).
Proof.
  intros Ht (Hw & Ha & Hl). unfold idle_callback. rewrite callback_clears by done.
  pose proof (clear_wired (tm_client t) b Hw) as Hw'. destruct (clear_frame (tm_client t) b) as (_ & Hcl & _ & Hca & _).
  destruct (wi_pending _ Hw t Ht) as (_ & m & Hm & _).
  assert (br_objects (clearIdleTimer (tm_client t) b) !! tm_client t = Some (with_timer None m)) as Hm'.
  { rewrite clear_lookup, Hm. simpl. by rewrite decide_True. }
  rewrite Hm'. simpl mg_activeStreamCount. simpl mg_route.
  assert (Hl' : Forall (λ j, (j < length (br_objects (clearIdleTimer (tm_client t) b)))%nat) (br_calls (clearIdleTimer (tm_client t) b)))
    by (by rewrite Hca, clear_length).
  assert (Hrest : ∀ r j m1, br_clients b !! r = Some j → br_objects (clearIdleTimer (tm_client t) b) !! j = Some m1 → j ≠ tm_client t →
    mg_activeStreamCount m1 = 0%nat → j ∈ br_calls b ∨ mg_idleTimer m1 ≠ None ∨ False).
  { intros r j m1 Hj. rewrite clear_lookup. intros (m2 & Hm2 & ->)%fmap_Some Hne Hs. rewrite decide_False in * by done.
    by apply (Ha r j m2). }
  destruct (0 <? mg_activeStreamCount m)%nat eqn:Hs.
  - split; [done|]. split; [|done]. intros r j m1. rewrite Hcl, Hca. intros Hj Hm1 Hs1.
    destruct (decide (j = tm_client t)) as [->|Hne]; [|by eapply Hrest]. exfalso. apply Nat.ltb_lt in Hs.
    rewrite Hm' in Hm1. injection Hm1 as <-. simpl in Hs1. lia.
  - split; [by apply (disconnected_wired _ _ _ Hm')|]. split.
    + intros r j m1. simpl br_clients. simpl br_calls. rewrite Hcl, Hca. intros [Hne Hj]%lookup_delete_Some.
      change (br_objects (set_clients ?f ?x)) with (br_objects x). rewrite update_lookup. intros (m2 & Hm2 & ->)%fmap_Some.
      assert (j ≠ tm_client t) as Hj'.
      { intros ->. destruct (wi_clients _ Hw r _ Hj) as (m3 & Hm3 & Hroute & _). congruence. }
      rewrite decide_False by done. intros Hs1. by eapply Hrest.
    + simpl. by rewrite length_alter.
Qed.

Lemma time_ok now b : br_now b <= now → broker_ok b → broker_ok (set_now now b).
Proof.
  intros Hnow ([Hc Hr Ha Hp Hu] & Harmed & Hl). split; [|done]. split; try done.
  intros id m t Hm Ht. destruct (Ha id m t Hm Ht) as (due & Hin & Hdue). exists due. simpl. split; [done|lia].
Qed.

Lemma disconnect_one_ok id b : br_clients b = ∅ → wired b → wired (disconnect_one id b) ∧ br_clients (disconnect_one id b) = ∅
  ∧ length (br_objects (disconnect_one id b)) = length (br_objects b) ∧ br_calls (disconnect_one id b) = br_calls b.
Proof.
  intros Hempty Hw. unfold disconnect_one. apply (clear_wired id) in Hw. destruct (clear_frame id b) as (_ & Hcl & _ & Hca & _).
  split_and!; [|simpl; by rewrite Hcl|simpl; by rewrite length_alter, clear_length|done].
  destruct (br_objects (clearIdleTimer id b) !! id) as [m|] eqn:Hm.
  - pose proof (disconnected_wired id m _ Hm Hw) as Hd. assert (delete (rt_routeId (mg_route m)) (br_clients (clearIdleTimer id b))
      = br_clients (clearIdleTimer id b)) as Heq by (by rewrite Hcl, Hempty, delete_empty).
    destruct Hd as [Hc Hr Ha Hp Hu]. split; try done. intros r j Hj. apply Hc. simpl. by rewrite Heq.
  - assert (update id disconnected (clearIdleTimer id b) = clearIdleTimer id b) as ->; [|done].
    destruct (clearIdleTimer id b). unfold update, set_objects. simpl in *. f_equal. apply list_eq. intros j. destruct (decide (id = j)) as [<-|Hj]; [by rewrite list_lookup_alter_eq, Hm|by rewrite list_lookup_alter_ne].
Qed.

Lemma forget_clients b : wired b → wired (set_clients (λ _, ∅) b).
Proof. intros []. by split. Qed.

Lemma disconnect_one_forgets id b :
  set_clients (λ _, ∅) (disconnect_one id b) = disconnect_one id (set_clients (λ _, ∅) b).
Proof. unfold disconnect_one, clearIdleTimer. simpl. by destruct (mg_idleTimer <$> br_objects b !! id) as [[t|]|]. Qed.

Lemma disconnect_list_ok ids b : br_clients b = ∅ → wired b → let b' := foldl (λ b id, disconnect_one id b) b ids in
  wired b' ∧ br_clients b' = ∅ ∧ length (br_objects b') = length (br_objects b) ∧ br_calls b' = br_calls b.
Proof.
  revert b. induction ids as [|id ids IH]; intros b Hb Hw; simpl; [done|].
  destruct (disconnect_one_ok id b Hb Hw) as (Hw' & Hb' & <- & <-). by apply IH.
Qed.

Lemma disconnectAll_forgets ids b : set_clients (λ _, ∅) (foldl (λ b id, disconnect_one id b) b ids)
  = foldl (λ b id, disconnect_one id b) (set_clients (λ _, ∅) b) ids.
Proof. revert b. induction ids as [|id ids IH]; intros b; simpl; [done|]. by rewrite IH, disconnect_one_forgets. Qed.

Lemma disconnectAll_calls b : br_calls (disconnectAll b) = br_calls b.
Proof.
  unfold disconnectAll. simpl. generalize ((map_to_list (br_clients b)).*2) as ids. intros ids. revert b.
  induction ids as [|id ids IH]; intros b; simpl; [done|]. rewrite IH. apply clear_frame.
Qed.

Lemma disconnectAll_ok b : broker_ok b → broker_ok (disconnectAll b).
Proof.
  intros (Hw & _ & Hl). unfold disconnectAll. rewrite disconnectAll_forgets.
  destruct (disconnect_list_ok ((map_to_list (br_clients b)).*2) (set_clients (λ _, ∅) b)) as (Hw' & Hempty & Hlen & Hcalls);
    [done|by apply forget_clients|]. split; [done|]. split.
  - intros r id m Hid. rewrite Hempty in Hid. by apply lookup_empty_Some in Hid.
  - by rewrite Hlen, Hcalls.
Qed.

Lemma step_ok b b' : broker_step options b b' → broker_ok b → broker_ok b'.
Proof.
  intros Hstep Hok. destruct Hstep as [r id b' Hb|k result jitter|id m Hc Hm Hd|id m n Hm Hn|id m Hm Hn|t Ht Hdue|now Hnow|].
  - by eapply begin_ok.
  - by apply finish_ok.
  - by eapply stream_ok.
  - by eapply stream_ok.
  - by apply drain_ok.
  - by apply timer_ok.
  - by apply time_ok.
  - by apply disconnectAll_ok.
Qed.

Lemma reachable_ok b : broker_reachable options b → broker_ok b.
Proof.
  intros (now & Hsteps). assert (broker_ok (empty_broker now)) as Hz by apply empty_ok. revert Hz.
  induction Hsteps as [|b1 b2 b3 Hstep _ IH]; [done|]. intros Hok. by apply IH, (step_ok b1).
Qed.

(** ** A client the manager has lost *)

(** A client that no route leads to, that no call waits for and that has no timer,
    and is connected. *)
Record lost (id : nat) b : Prop := {
  lo_clients : ∀ r, br_clients b !! r ≠ Some id;
  lo_calls : id ∉ br_calls b;
  lo_client : ∃ m, br_objects b !! id = Some m ∧ mg_idleTimer m = None ∧ mg_disconnected m = false;
}.

Lemma update_other j f id b : j ≠ id → br_objects (update j f b) !! id = br_objects b !! id.
Proof. intros Hj. by apply list_lookup_alter_ne. Qed.
Lemma clear_other j id b : j ≠ id → br_objects (clearIdleTimer j b) !! id = br_objects b !! id.
Proof. intros Hj. rewrite clear_lookup, decide_False by congruence. by destruct (br_objects b !! id). Qed.
Lemma schedule_other j id b : j ≠ id → br_objects (scheduleIdleDisconnect options j b) !! id = br_objects b !! id.
Proof.
  intros Hj. unfold scheduleIdleDisconnect. case_match; [done|]. rewrite update_other by done. by apply clear_other.
Qed.
Lemma disconnect_others ids id b : id ∉ ids →
  br_objects (foldl (λ b id, disconnect_one id b) b ids) !! id = br_objects b !! id.
Proof.
  revert b. induction ids as [|j ids IH]; intros b Hin; [done|]. apply not_elem_of_cons in Hin as [Hj Hin]. simpl.
  rewrite IH by done. unfold disconnect_one. rewrite update_other by congruence. apply clear_other. congruence.
Qed.
Lemma disconnectAll_other id b : (∀ r, br_clients b !! r ≠ Some id) → br_objects (disconnectAll b) !! id = br_objects b !! id.
Proof.
  intros Hid. apply disconnect_others. intros ([r j] & -> & Hin%elem_of_map_to_list)%list_elem_of_fmap. by apply (Hid r).
Qed.

(** What keeps the maps and the calls as far as the client is concerned. *)
Lemma lost_frame id b b' : lost id b → br_clients b' = br_clients b → br_calls b' = br_calls b →
  br_objects b' !! id = br_objects b !! id → lost id b'.
Proof. intros [Hc Hca Ho] Ec Eca Eo. split; by rewrite ?Ec, ?Eca, ?Eo. Qed.

Lemma lost_schedule id j b : j ≠ id → lost id b → lost id (scheduleIdleDisconnect options j b).
Proof.
  intros Hj Hl. destruct (schedule_frame j b) as (_ & Hcl & _ & Hca).
  apply (lost_frame id b); [done..|]. by apply schedule_other.
Qed.

Lemma lost_streams id j n b : lost id b → lost id (update j (with_streams n) b).
Proof.
  intros [Hc Hca (m & Hm & Ht & Hd)]. split; [done..|]. rewrite update_lookup, Hm.
  eexists. split; [reflexivity|]. by case_decide.
Qed.

Lemma lost_begin r j id b b' : begin_call r b = (ok j, b') → lost id b → j ≠ id ∧ lost id b'.
Proof.
  unfold begin_call, getOrCreateClient. destruct (getRoute r) as [route|]; [|done]. destruct (circuit_is_open r b); [done|].
  destruct (existing_or_new route r b) as [j' c] eqn:Hnew. intros [= -> <-] [Hc Hca (m & Hm & Hm')].
  assert (j ≠ id ∧ lost id c) as [Hj Hl].
  { unfold existing_or_new in Hnew. destruct (br_clients b !! r) as [x|] eqn:Hex; injection Hnew as <- <-.
    - split; [intros ->; by apply (Hc r)|]. split; [done..|by exists m].
    - pose proof (lookup_lt_Some _ _ _ Hm) as Hlt. split; [lia|]. split; [|done|].
      + intros r'. simpl. intros [[_ Hid]|[_ Hid]]%lookup_insert_Some; [lia|by apply (Hc r')].
      + exists m. split; [by apply lookup_app_l_Some|done]. }
  split; [done|]. destruct (clear_frame j c) as (_ & Hcl & _ & Hca' & _). destruct Hl as [Hc1 Hca1 Ho1]. split; simpl.
  - by rewrite Hcl.
  - rewrite Hca'. intros [Hin| ->%list_elem_of_singleton]%elem_of_app; done.
  - by rewrite clear_other.
Qed.

Lemma lost_timer t id b : t ∈ br_timers b → wired b → lost id b →
  lost id (idle_callback (tm_client t) (set_timers (clear_handle (tm_handle t)) b)).
Proof.
  intros Ht Hw [Hc Hca (m & Hm & Hidle & Hd)]. destruct (wi_pending _ Hw t Ht) as (_ & m1 & Hm1 & Ht1).
  assert (tm_client t ≠ id) as Hne by congruence. unfold idle_callback.
  assert (∃ m', br_objects (update (tm_client t) (with_timer None) (set_timers (clear_handle (tm_handle t)) b)) !! id = Some m' ∧
    mg_idleTimer m' = None ∧ mg_disconnected m' = false) as Ho by (exists m; by rewrite update_other).
  case_match; [|by split]. case_match; [by split|]. split; [|done|].
  - intros r. simpl. intros [_ Hr]%lookup_delete_Some. by apply (Hc r).
  - exists m. change (br_objects (set_clients ?f ?x)) with (br_objects x). by rewrite !update_other.
Qed.

Lemma lost_step id b b' : broker_step options b b' → broker_ok b → lost id b → lost id b'.
Proof.
  intros Hstep (Hw & _) Hl. destruct Hstep as [r j b' Hb|k result jitter|j m Hc Hm Hd|j m n Hm Hn|j m Hm Hn|t Ht Hdue|now Hnow|].
  - by apply (lost_begin r j id b b').
  - unfold finish_call. destruct (br_calls b !! k) as [j|] eqn:Hk; [|done]. destruct (br_objects b !! j) as [m|]; [|done].
    destruct (record_frame (mg_route m) result jitter (set_calls (delete k) b)) as [f ->]. destruct Hl as [Hc Hca Ho].
    assert (j ≠ id) as Hj by (intros ->; by eapply Hca, list_elem_of_lookup_2).
    assert (lost id (set_circuits f (set_calls (delete k) b))) as Hl.
    { split; [done| |done]. simpl. intros Hin. by apply Hca, (list_elem_of_delete_inv _ k). }
    case_match; [by apply lost_schedule|done].
  - by apply lost_streams.
  - by apply lost_streams.
  - apply (lost_streams id j 0) in Hl. unfold stream_drained. destruct (br_clients _ !! _) as [current|] eqn:Hcur; [|done].
    apply lost_schedule; [|done]. intros ->. by apply (lo_clients _ _ Hl _ Hcur).
  - by apply lost_timer.
  - by destruct Hl.
  - split; [|rewrite disconnectAll_calls; apply Hl|].
    + intros r. simpl. intros Hr. by apply lookup_empty_Some in Hr.
    + rewrite disconnectAll_other by apply Hl. apply Hl.
Qed.

Lemma lost_for_ever id b b' : rtc (broker_step options) b b' → broker_ok b → lost id b → lost id b'.
Proof.
  induction 1 as [|b1 b2 b3 Hstep _ IH]; [done|]. intros Hok Hl.
  apply IH; [by apply (step_ok b1)|by apply (lost_step id b1)].
Qed.
End invariant.

(** ** Circuits *)

(** A result of a call of a route: when it came, what it was, and the jitter drawn. *)
Record outcome : Type := mkOutcome { oc_at : Z; oc_result : Result unit; oc_jitter : Q }.

Section circuits.
Context (options : GatewayConnectionManagerOptions) (route : GatewayRouteConfig).

Definition record_outcome (b : broker) (o : outcome) : broker :=
  recordResult options route (oc_result o) (oc_jitter o) (set_now (oc_at o) b).

(** The reference: the counted failures since the last success. *)
Definition count_outcome (n : nat) (o : outcome) : nat :=
  match oc_result o with ok _ => 0 | err e => if uncounted e then n else S n end.
Definition failures_in_a_row (l : list outcome) : nat := foldl count_outcome 0%nat l.

(** A result that neither closes a circuit nor counts. *)
Definition no_outcome (o : outcome) : Prop := ∃ e, oc_result o = err e ∧ uncounted e = true.

(** How long a circuit stays open after a failure. *)
Definition wait_after (o : outcome) (failures : nat) : Z :=
  if (failures <? maxFailuresBeforeOpen options)%nat then backoffMs options (oc_jitter o) failures
  else circuitOpenMs options.

(** The backoff without its jitter: it doubles with every failure. *)
Definition exponential (failures : nat) : Z :=
  Z.min (maxBackoffMs options) (baseBackoffMs options * 2 ^ (Z.of_nat failures - 1)).

Lemma jittered_bounds (e : Z) (jitter : Q) : 0 <= e → (0 <= jitter)%Q → (jitter < 1)%Q →
  e - 1 <= 2 * Qfloor (inject_Z e * ((1 # 2) + jitter)) <= 3 * e.
Proof.
  intros Hpos Hlow Hhigh. assert (0 <= inject_Z e)%Q as He by (change 0%Q with (inject_Z 0); by rewrite <- Zle_Qle).
  pose proof (Qfloor_le (inject_Z e * ((1 # 2) + jitter))) as Hle.
  pose proof (Qlt_floor (inject_Z e * ((1 # 2) + jitter))) as Hlt. revert Hle Hlt.
  generalize (Qfloor (inject_Z e * ((1 # 2) + jitter))) as k. intros k Hle Hlt.
  assert (inject_Z e < inject_Z (2 * (k + 1)))%Q as Hlt'.
  { rewrite inject_Z_mult. change (inject_Z 2) with 2%Q. nra. }
  assert (inject_Z (2 * k) <= inject_Z (3 * e))%Q as Hle'.
  { rewrite !inject_Z_mult. change (inject_Z 2) with 2%Q. change (inject_Z 3) with 3%Q. nra. }
  rewrite <- Zlt_Qlt in Hlt'. rewrite <- Zle_Qle in Hle'. lia.
Qed.

Lemma backoff_bounds jitter n : (0 <= jitter)%Q → (jitter < 1)%Q →
  Z.max 2 (exponential n - 1) <= 2 * backoffMs options jitter n <= Z.max 2 (3 * exponential n).
Proof.
  intros Hlow Hhigh. unfold backoffMs. cbv zeta. fold (exponential n). generalize (exponential n) as e. intros e.
  destruct (Z_le_gt_dec 0 e) as [Hpos|Hneg]; [pose proof (jittered_bounds e jitter Hpos Hlow Hhigh); lia|].
  assert (inject_Z e < 0)%Q as He by (change 0%Q with (inject_Z 0); rewrite <- Zlt_Qlt; lia).
  pose proof (Qfloor_le (inject_Z e * ((1 # 2) + jitter))) as Hle. revert Hle.
  generalize (Qfloor (inject_Z e * ((1 # 2) + jitter))) as k. intros k Hle.
  assert (inject_Z k <= inject_Z 0)%Q as Hk; [change (inject_Z 0) with 0%Q; nra|]. rewrite <- Zle_Qle in Hk. lia.
Qed.

Lemma record_outcome_circuits b o : br_circuits (record_outcome b o) !! rt_routeId route =
  match oc_result o with
  | ok _ => None
  | err e => if uncounted e then br_circuits b !! rt_routeId route else
      let failures := S (default 0%nat (ct_failures <$> br_circuits b !! rt_routeId route)) in
      Some (mkCircuit (oc_at o + wait_after o failures) (error_code e) failures)
  end.
Proof.
  unfold record_outcome, recordResult. destruct (oc_result o) as [u|e]; simpl; [by rewrite lookup_delete_eq|].
  case_match; [done|]. simpl. by rewrite lookup_insert_eq.
Qed.

Lemma failures_snoc l o : failures_in_a_row (l ++ [o]) = count_outcome (failures_in_a_row l) o.
Proof. unfold failures_in_a_row. by rewrite foldl_app. Qed.

(** The circuit of a route after some results is the last counted failure's. *)
Lemma circuit_after l b : br_circuits b !! rt_routeId route = None →
  let c := br_circuits (foldl record_outcome b l) !! rt_routeId route in
  default 0%nat (ct_failures <$> c) = failures_in_a_row l ∧
  (failures_in_a_row l = 0%nat → c = None) ∧
  ∀ circuit, c = Some circuit → ∃ l1 o l2 e, l = l1 ++ o :: l2 ∧ Forall no_outcome l2 ∧ oc_result o = err e ∧ uncounted e = false ∧
    circuit = mkCircuit (oc_at o + wait_after o (failures_in_a_row l)) (error_code e) (failures_in_a_row l).
Proof.
  intros Hb. simpl. induction l as [|o l IH] using rev_ind; [simpl; by rewrite Hb|].
  rewrite foldl_app, failures_snoc. simpl. rewrite record_outcome_circuits. destruct IH as (IHn & IHz & IHc).
  unfold count_outcome. destruct (oc_result o) as [u|e] eqn:Ho; [done|]. destruct (uncounted e) eqn:He; simpl.
  - split_and!; [done|done|]. intros circuit (l1 & o' & l2 & e' & -> & Hl2 & Hrest)%IHc. exists l1, o', (l2 ++ [o]), e'.
    split; [by rewrite <- app_assoc|]. split; [|done]. apply Forall_app. split; [done|]. apply Forall_cons_2; [by exists e|apply Forall_nil_2].
  - rewrite IHn. split_and!; [done|done|]. intros circuit [= <-]. exists l, o, [], e. by split_and!.
Qed.
End circuits.

(** ** What the manager does *)

Section results.
Context `{RoutingTableLaws} (options : GatewayConnectionManagerOptions).
Implicit Types (b : broker) (r : string).

(** A call leaves the client of its route in the map, without a timer. *)
Lemma begin_call_result r id b b' : begin_call r b = (ok id, b') →
  br_clients b' !! r = Some id ∧ (∀ m, br_objects b' !! id = Some m → mg_idleTimer m = None) ∧ id ∈ br_calls b'.
Proof.
  unfold begin_call, getOrCreateClient. destruct (getRoute r) as [route|]; [|done]. destruct (circuit_is_open r b); [done|].
  destruct (existing_or_new route r b) as [id' c] eqn:Hnew. intros [= -> <-].
  destruct (clear_frame id c) as (_ & Hcl & _ & Hca & _). simpl. rewrite Hcl, Hca. split_and!.
  - unfold existing_or_new in Hnew. destruct (br_clients b !! r) as [x|] eqn:Hex; injection Hnew as <- <-; [done|].
    simpl. by rewrite lookup_insert_eq.
  - intros m. rewrite clear_lookup. intros (m' & _ & ->)%fmap_Some. by rewrite decide_True.
  - apply elem_of_app. right. by apply list_elem_of_singleton.
Qed.


(** C22. A client of a route that has no stream and that no call waits for has a timer
    that is due within the idle time; when that timer runs, the client is
    disconnected and the route has no client. *)
Theorem idle_clients_are_disconnected r id m b :
  broker_reachable options b → br_clients b !! r = Some id → br_objects b !! id = Some m →
  mg_activeStreamCount m = 0%nat → id ∉ br_calls b →
  ∃ t, t ∈ br_timers b ∧ tm_client t = id ∧ tm_due t <= br_now b + idleDisconnectMs options ∧
    let b' := set_now (Z.max (br_now b) (tm_due t)) b in
    let b'' := idle_callback id (set_timers (clear_handle (tm_handle t)) b') in
    broker_step options b b' ∧ broker_step options b' b'' ∧
    br_clients b'' !! r = None ∧ mg_disconnected <$> br_objects b'' !! id = Some true ∧
    ∀ r', r' ≠ r → br_clients b'' !! r' = br_clients b !! r'.
Proof.
  intros Hb Hr Hm Hs Hcalls. apply reachable_ok in Hb as (Hw & Ha & _).
  destruct (Ha r id m Hr Hm Hs) as [?|[Hidle|[]]]; [done|]. destruct (mg_idleTimer m) as [h|] eqn:Hh; [|done].
  destruct (wi_armed _ _ Hw id m h Hm Hh) as (due & Hin & Hdue). exists (mkTimer h due id). split_and!; try done.
  destruct (wi_clients _ _ Hw r id Hr) as (m' & Hm' & Hroute & _). assert (m' = m) as -> by congruence.
  split_and!.
  - apply bs_time. lia.
  - apply (bs_timer options _ (mkTimer h due id)); simpl; [done|lia].
  - unfold idle_callback. rewrite update_lookup. simpl. rewrite Hm, decide_True by done. simpl. rewrite Hs. simpl.
    rewrite Hroute. apply lookup_delete_eq.
  - unfold idle_callback. rewrite update_lookup. simpl. rewrite Hm, decide_True by done. simpl. rewrite Hs. simpl.
    by rewrite !list_lookup_alter_eq, Hm.
  - intros r' Hne. unfold idle_callback. rewrite update_lookup. simpl. rewrite Hm, decide_True by done. simpl. rewrite Hs. simpl.
    rewrite Hroute. by rewrite lookup_delete_ne.
Qed.

(** C23. The timer of a client that the manager no longer uses, when its route has got
    another client, takes the other client out of the map.  That client stays as it
    is and connected, the route makes yet another client at the next call, and
    disconnectAll does not reach it.  Only a call that still waits for it, or a timer
    it has already, will find it: without them, as when only its streams are open, it
    is never disconnected, whatever the manager does from then on. *)
Theorem stale_timers_evict_the_next_client t r id' m m' b :
  broker_reachable options b → t ∈ br_timers b → tm_due t <= br_now b →
  br_objects b !! tm_client t = Some m → mg_activeStreamCount m = 0%nat → rt_routeId (mg_route m) = r →
  br_clients b !! r = Some id' → id' ≠ tm_client t → br_objects b !! id' = Some m' →
  let b' := idle_callback (tm_client t) (set_timers (clear_handle (tm_handle t)) b) in
  broker_step options b b' ∧ br_clients b' !! r = None ∧ (∀ r', br_clients b' !! r' ≠ Some id') ∧
  br_objects b' !! id' = Some m' ∧ mg_disconnected m' = false ∧
  (∀ k b'', begin_call r b' = (ok k, b'') → k ≠ id' ∧ br_clients b'' !! r = Some k) ∧
  br_objects (disconnectAll b') !! id' = Some m' ∧
  (id' ∉ br_calls b → mg_idleTimer m' = None →
     ∀ b'', rtc (broker_step options) b' b'' → mg_disconnected <$> br_objects b'' !! id' = Some false).
Proof.
  intros Hb Ht Hdue Hm Hs Hr Hid Hne Hm' b'. apply reachable_ok in Hb as Hok. pose proof Hok as (Hw & _).
  destruct (wi_clients _ _ Hw r id' Hid) as (m1 & E1 & E2 & E3). assert (m1 = m') as -> by congruence.
  assert (broker_step options b b') as Hstep by (by apply bs_timer).
  assert (br_clients b' = delete r (br_clients b) ∧ br_calls b' = br_calls b ∧ br_objects b' !! id' = Some m') as (Hcl & Hca & Ho).
  { unfold b', idle_callback. rewrite update_lookup. simpl. rewrite Hm, decide_True by done. simpl.
    rewrite Hs. simpl. rewrite Hr. split_and!; [done..|by rewrite !list_lookup_alter_ne]. }
  assert (∀ r', br_clients b' !! r' ≠ Some id') as Hno.
  { intros r'. rewrite Hcl. intros [Hner Hr']%lookup_delete_Some. destruct (wi_clients _ _ Hw r' id' Hr') as (m2 & F1 & F2 & _). congruence. }
  assert (br_clients b' !! r = None) as Hnone by (rewrite Hcl; apply lookup_delete_eq).
  split_and!; try done.
  - intros k b'' Hcall. destruct (begin_call_result r k b' b'' Hcall) as (Hk & _). split; [|done]. intros ->.
    unfold begin_call, getOrCreateClient, existing_or_new in Hcall. destruct (getRoute r); [|done].
    destruct (circuit_is_open r b'); [done|]. rewrite Hnone in Hcall. injection Hcall as Hk' _.
    apply lookup_lt_Some in Ho. lia.
  - by rewrite disconnectAll_other.
  - intros Hcalls Hidle b'' Hsteps.
    destruct (lost_for_ever options id' b' b'' Hsteps (step_ok options b b' Hstep Hok)) as [_ _ (m2 & -> & _ & Hd)]; [|by simpl; rewrite Hd].
    split; [done|by rewrite Hca|by exists m'].
Qed.

(** C24. The circuit of a route counts the failures since the last success, busy
    sessions and missing audit support aside.  It is open from the last of them:
    while they are fewer than the limit, for between half and one and a half times a
    backoff that doubles with every failure up to the longest one, rounded down and
    at least a millisecond; and from the limit on for the circuit time.  The calls in
    that time are refused with its reason. *)
Theorem circuits_count_failures route l now :
  getRoute (rt_routeId route) = Some route → Forall (λ o, 0 <= oc_jitter o ∧ oc_jitter o < 1)%Q l →
  let b := foldl (record_outcome options route) (empty_broker now) l in
  let n := failures_in_a_row l in
  (br_circuits b !! rt_routeId route = None ↔ n = 0%nat) ∧
  ∀ circuit, br_circuits b !! rt_routeId route = Some circuit →
    ct_failures circuit = n ∧
    (∃ l1 o l2 e, l = l1 ++ o :: l2 ∧ Forall no_outcome l2 ∧ oc_result o = err e ∧ ct_reason circuit = error_code e ∧
      if (n <? maxFailuresBeforeOpen options)%nat
      then let e := Z.min (maxBackoffMs options) (baseBackoffMs options * 2 ^ (Z.of_nat n - 1)) in
           Z.max 2 (e - 1) <= 2 * (ct_openedUntil circuit - oc_at o) <= Z.max 2 (3 * e)
      else ct_openedUntil circuit = oc_at o + circuitOpenMs options) ∧
    ∀ at_, at_ < ct_openedUntil circuit → begin_call (rt_routeId route) (set_now at_ b) =
      (err (circuitOpen route (ct_reason circuit)), set_now at_ b).
Proof.
  intros Hroute Hl b n. destruct (circuit_after options route l (empty_broker now)) as (Hn & Hz & Hc); [done|].
  change (foldl _ _ _) with b in Hn, Hz, Hc. fold n in Hn, Hz, Hc. split.
  - split; [|done]. intros E. by rewrite E in Hn.
  - intros circuit E. destruct (Hc circuit E) as (l1 & o & l2 & e & El & Hl2 & Ho & He & ->). split; [done|]. split.
    + exists l1, o, l2, e. split_and!; try done. simpl. unfold wait_after. case_match eqn:Hlt; [|done].
      rewrite El in Hl. apply Forall_app in Hl as [_ Hl]. apply Forall_cons in Hl as [[J0 J1] _].
      pose proof (backoff_bounds options (oc_jitter o) n J0 J1) as Hb. unfold exponential in Hb. cbv zeta. lia.
    + intros at_ Hat. unfold begin_call, getOrCreateClient, circuit_is_open. rewrite Hroute. simpl br_circuits. rewrite E. simpl.
      rewrite (proj2 (Z.ltb_lt _ _)) by done. done.
Qed.
End results.

(** ** Witnesses *)

Module BrokerExample.

Definition ex_route : GatewayRouteConfig :=
  mkGatewayRoute "acme" "tenant-1" "ws://gateway:18789" AmPairedDevice "paired" JUndefined None.
#[local] Instance ex_table : GatewayRoutingTable := StaticGatewayRoutingTable [ex_route].
#[local] Instance ex_laws : RoutingTableLaws := static_table_laws [ex_route].
Definition ex_options : GatewayConnectionManagerOptions := mkBrokerOptions None None None None None.
Notation finish k b := (finish_call ex_options k (ok tt : Result unit) 0%Q b).

(** One call, answered at once. *)
Definition ex_called : broker := (begin_call "acme" (empty_broker 0)).2.
Definition ex_idle : broker := finish 0%nat ex_called.

(** Two calls; the second is still waiting when the first one's idle time is over. *)
Definition ex_twice : broker := (begin_call "acme" ex_called).2.
Definition ex_waiting : broker := set_now 60000 (finish 0%nat ex_twice).
Definition ex_closed : broker := idle_callback 0 (set_timers (clear_handle 0) ex_waiting).
Definition ex_second : broker := (begin_call "acme" ex_closed).2.
(** The second client opens a stream and answers its call; then the call of the first
    one is answered, and sets its timer. *)
Definition ex_streaming : broker := finish 1%nat (update 1 (with_streams 1) ex_second).
Definition ex_stale : broker := set_now 120000 (finish 0%nat ex_streaming).

Lemma step_after b1 b2 : broker_step ex_options b1 b2 → broker_reachable ex_options b1 → broker_reachable ex_options b2.
Proof. intros Hs (now & Hb). exists now. by eapply rtc_r. Qed.

Lemma start_reachable : broker_reachable ex_options (empty_broker 0).
Proof. by exists 0. Qed.

Lemma called_reachable : broker_reachable ex_options ex_called.
Proof. eapply step_after, start_reachable. by apply (bs_begin _ _ "acme" 0%nat). Qed.

Lemma idle_reachable : broker_reachable ex_options ex_idle.
Proof. eapply step_after, called_reachable. apply bs_finish. Qed.

Lemma closed_reachable : broker_reachable ex_options ex_closed.
Proof.
  eapply step_after; [apply (bs_timer _ ex_waiting (mkTimer 0 60000 0)); [vm_compute; left|done]|].
  eapply step_after; [apply bs_time; vm_compute; discriminate|]. eapply step_after; [apply bs_finish|].
  eapply step_after, called_reachable. by apply (bs_begin _ _ "acme" 0%nat).
Qed.

Lemma stale_reachable : broker_reachable ex_options ex_stale.
Proof.
  eapply step_after; [apply bs_time; vm_compute; discriminate|]. eapply step_after; [apply bs_finish|].
  eapply step_after; [apply bs_finish|].
  eapply step_after; [apply (bs_open _ _ 1 (mkManaged ex_route 0 false None)); [vm_compute; right; left|done|done]|].
  eapply step_after, closed_reachable. by apply (bs_begin _ _ "acme" 1%nat).
Qed.


Lemma idle_clients_are_disconnected_witness :
  ∃ t, t ∈ br_timers ex_idle ∧ tm_client t = 0%nat ∧ tm_due t <= 60000 ∧
    let b' := set_now (Z.max 0 (tm_due t)) ex_idle in
    let b'' := idle_callback 0 (set_timers (clear_handle (tm_handle t)) b') in
    broker_step ex_options ex_idle b' ∧ broker_step ex_options b' b'' ∧
    br_clients b'' !! "acme" = None ∧ mg_disconnected <$> br_objects b'' !! 0%nat = Some true ∧
    ∀ r', r' ≠ "acme" → br_clients b'' !! r' = br_clients ex_idle !! r'.
Proof.
  assert (0%nat ∉ br_calls ex_idle) as Hcalls by (vm_compute; apply not_elem_of_nil).
  exact (idle_clients_are_disconnected ex_options "acme" 0 (mkManaged ex_route 0 false (Some 0%nat)) ex_idle
           idle_reachable eq_refl eq_refl eq_refl Hcalls).
Defined.

Lemma stale_timers_evict_the_next_client_witness :
  let b' := idle_callback 0 (set_timers (clear_handle 1) ex_stale) in
  let streaming := mkManaged ex_route 1 false None in
  broker_step ex_options ex_stale b' ∧ br_clients b' !! "acme" = None ∧ br_objects b' !! 1%nat = Some streaming ∧
  (begin_call "acme" b').1 = ok 2%nat ∧ br_objects (disconnectAll b') !! 1%nat = Some streaming ∧
  ∀ b'', rtc (broker_step ex_options) b' b'' → mg_disconnected <$> br_objects b'' !! 1%nat = Some false.
Proof.
  assert (mkTimer 1 120000 0 ∈ br_timers ex_stale) as Ht by (vm_compute; left).
  assert (120000 <= br_now ex_stale) as Hdue by (vm_compute; discriminate).
  assert (1%nat ∉ br_calls ex_stale) as Hcalls by (vm_compute; apply not_elem_of_nil).
  destruct (stale_timers_evict_the_next_client ex_options (mkTimer 1 120000 0) "acme" 1 (mkManaged ex_route 0 true (Some 1%nat))
    (mkManaged ex_route 1 false None) ex_stale stale_reachable Ht Hdue eq_refl eq_refl eq_refl eq_refl (Nat.neq_succ_0 0) eq_refl)
    as (Hstep & Hnone & _ & Ho & _ & _ & Hall & Hever).
  split_and!; [exact Hstep|exact Hnone|exact Ho|done|exact Hall|]. exact (Hever Hcalls eq_refl).
Defined.

Definition ex_failure (at_ : Z) : outcome :=
  mkOutcome at_ (err (mkDomainError "gatewayBroker.requestTimeout" "OpenClaw request timed out." None)) (1 # 4)%Q.
Definition ex_busy (at_ : Z) : outcome := mkOutcome at_ (err (mkDomainError "gatewayBroker.sessionBusy" "Busy." None)) 0%Q.
Definition ex_outcomes : list outcome :=
  [ex_failure 0; mkOutcome 5000 (ok tt) 0%Q; ex_failure 10000; ex_failure 20000; ex_busy 20500; ex_failure 30000].

Definition ex_few : list outcome := [ex_failure 0; ex_busy 500; ex_failure 10000].

(** The third failure opens the circuit for its time, the second for at least the
    half of two seconds. *)
Lemma circuits_count_failures_witness :
  let b := foldl (record_outcome ex_options ex_route) (empty_broker 0) ex_outcomes in
  let few := foldl (record_outcome ex_options ex_route) (empty_broker 0) ex_few in
  failures_in_a_row ex_outcomes = 3%nat ∧
  begin_call "acme" (set_now 59999 b) = (err (circuitOpen ex_route "gatewayBroker.requestTimeout"), set_now 59999 b) ∧
  (begin_call "acme" (set_now 60000 b)).1 = ok 0%nat ∧
  br_circuits few !! "acme" = Some (mkCircuit 11500 "gatewayBroker.requestTimeout" 2) ∧
  (∃ l1 o l2 e, ex_few = l1 ++ o :: l2 ∧ Forall no_outcome l2 ∧ oc_result o = err e ∧
     "gatewayBroker.requestTimeout" = error_code e ∧ 1999 <= 2 * (11500 - oc_at o) <= 6000).
Proof.
  assert (∀ l, l = ex_outcomes ∨ l = ex_few → Forall (λ o, 0 <= oc_jitter o ∧ oc_jitter o < 1)%Q l) as Hj.
  { intros l [->| ->]; repeat (apply Forall_cons_2; [split; vm_compute; congruence|]); apply Forall_nil_2. }
  pose proof (circuits_count_failures ex_options ex_route ex_outcomes 0 eq_refl (Hj _ (or_introl eq_refl))) as (_ & Hc).
  pose proof (circuits_count_failures ex_options ex_route ex_few 0 eq_refl (Hj _ (or_intror eq_refl))) as (_ & Hf).
  split; [done|]. split; [by apply (Hc (mkCircuit 60000 "gatewayBroker.requestTimeout" 3))|]. split; [done|]. split; [done|].
  by apply (Hf (mkCircuit 11500 "gatewayBroker.requestTimeout" 2)).
Defined.
End BrokerExample.
