(* ===== verification/GitHubIssues.v ===== *)
(** * Adapters: the GitHub issue tracker
    ([packages/adapters/src/github/issues.ts])

    The adapter of the issue tracker port over the REST interface of GitHub.  The
    network, the vault and the host's encoding of query strings are parameters. *)
From S2P Require Import Prelude JsString JsValue SharedKernel Effects DevBoardDomain JsText RuntimeDomain.
From S2P Require Import TenantContext RuntimeSql TaskDomain TaskSql TaskInputs JsJson IssueSql.
From Stdlib Require Import Ascii.

(** ** The host *)

Inductive HttpMethod : Type := MGet | MPost | MPatch.
Definition httpMethod_str (m : HttpMethod) : string :=
  match m with MGet => "GET" | MPost => "POST" | MPatch => "PATCH" end.
#[global] Instance HttpMethod_eq_dec : EqDecision HttpMethod.
Proof. solve_decision. Defined.

Record HttpRequest : Type := mkHttpRequest {
  rq_url : string; rq_method : HttpMethod; rq_body : option string; rq_headers : list (string * string);
}.

(** [hp_json] is the value [response.json()] resolves to, if it does. *)
Record HttpResponse : Type := mkHttpResponse {
  hp_status : Z; hp_headers : string → option string; hp_json : option jsval;
}.

(** [new URLSearchParams(entries).toString()] *)
Class QueryStrings := { query_string : list (string * string) → string }.

(** [SecretReference] *)
Record SecretReference : Type := mkSecretRef {
  sx_id : string; sx_tenantId : string; sx_purpose : string; sx_label : string; sx_version : option string;
}.
Record ResolveSecretInput : Type := mkResolveSecret {
  rx_ref : SecretReference; rx_requestedBy : string; rx_reason : string;
}.

(** [vault] is the one method the adapter calls. *)
Record GitHubIssueTrackerAdapterOptions (S : Type) : Type := mkGitHubOptions {
  go_repository : string;
  go_token : option string;
  go_tokenEnvName : option string;
  go_apiBaseUrl : option string;
  go_fetch : option (HttpRequest → M S HttpResponse);
  go_vault : option (ResolveSecretInput → M S (Result string));
  go_tokenRef : option SecretReference;
  go_requestedBy : option string;
}.
Arguments mkGitHubOptions {S}.
Arguments go_repository {S}.
Arguments go_token {S}.
Arguments go_tokenEnvName {S}.
Arguments go_apiBaseUrl {S}.
Arguments go_fetch {S}.
Arguments go_vault {S}.
Arguments go_tokenRef {S}.
Arguments go_requestedBy {S}.

Module GitHubIssues.

Definition adapterError (code message : string) : DomainError := domain_error code message.
Definition pullRequestSkipped : DomainError :=
  adapterError "githubIssues.pullRequestSkipped" "Pull requests are not issues.".
Definition missingFields : DomainError :=
  adapterError "githubIssues.invalidResponse" "GitHub issue response is missing fields.".
Definition notAList : DomainError :=
  adapterError "githubIssues.invalidResponse" "GitHub issues response was not a list.".
Definition invalidJson : DomainError :=
  adapterError "githubIssues.invalidResponse" "GitHub API returned invalid JSON.".
Definition networkError : DomainError :=
  adapterError "githubIssues.network" "GitHub API request failed before response.".
Definition missingToken : DomainError :=
  adapterError "githubIssues.missingToken" "GITHUB_TOKEN or a GitHub token vault reference is required.".
Definition invalidRepository : DomainError :=
  adapterError "githubIssues.invalidRepository" "GitHub repository must be in owner/name form.".

(** ** Reading a response *)

(** [repository.split("/")] has two parts, and neither is blank. *)
Definition splitRepository (repository : string) : Result (string * string) :=
  match split_at "/" repository with
  | Some (owner, repo) =>
      if bool_decide (split_at "/" repo = None) && negb (String.eqb (trim owner) "") && negb (String.eqb (trim repo) "")
      then ok (owner, repo) else err invalidRepository
  | None => err invalidRepository
  end.

Definition stringValue (value : jsval) : option string :=
  match value with JStr s => if String.eqb (trim s) "" then None else Some s | _ => None end.

(** A property of a value that is neither [null] nor [undefined]. *)
Definition prop (key : string) (value : jsval) : jsval := match value with JObj o => obj_get key o | _ => JUndefined end.

(** [typeof value === "object" && value !== null] *)
Definition is_object (value : jsval) : bool := match value with JObj _ | JArr _ => true | _ => false end.

Definition label_text (entry : jsval) : option string :=
  match entry with JStr s => Some s | _ => if is_object entry then stringValue (prop "name" entry) else None end.

Definition labelsValue (value : jsval) : list string := match value with JArr l => omap label_text l | _ => [] end.

Definition assigneeValue (value : jsval) : option string :=
  if is_object value then stringValue (prop "login" value) else None.

(** [value.state], when it is one of the two. *)
Definition stateValue (value : jsval) : option IssueProjectionState :=
  if is_string "closed" value then Some IsClosed else if is_string "open" value then Some IsOpen else None.

Definition numberValue (value : jsval) : option Z := match value with JNum (NInt z) => Some z | _ => None end.

(** The map of a value whose properties can be read. *)
Definition map_object (repository : string) (value : jsval) : Result IssueTrackerIssue :=
  if is_object (prop "pull_request" value) then err pullRequestSkipped
  else
    match numberValue (prop "number" value), stringValue (prop "title" value), stringValue (prop "html_url" value),
          stringValue (prop "updated_at" value), stateValue (prop "state" value) with
    | Some number, Some title, Some url, Some updatedAt, Some state =>
        ok (mkTrackerIssue (mkIssueRef repository number url) title state (labelsValue (prop "labels" value))
              (assigneeValue (prop "assignee" value)) updatedAt)
    | _, _, _, _, _ => err missingFields
    end.

Definition unreadable (value : jsval) : bool := match value with JNull | JUndefined => true | _ => false end.

(** [response.headers.get(name)] *)
Definition rateLimitMessage (response : HttpResponse) : string :=
  match hp_headers response "retry-after" with
  | Some retryAfter => "GitHub rate limit hit; retry after " +:+ retryAfter +:+ "s."
  | None =>
      match hp_headers response "x-ratelimit-remaining", hp_headers response "x-ratelimit-reset" with
      | Some "0", Some reset => "GitHub rate limit hit; reset at " +:+ reset +:+ "."
      | _, _ => "GitHub API request was rate limited or forbidden."
      end
  end.

Definition is_ok (response : HttpResponse) : bool := (200 <=? hp_status response)%Z && (hp_status response <=? 299)%Z.

(** What a response is answered as. *)
Definition read_response (response : HttpResponse) : Result jsval :=
  if (hp_status response =? 403)%Z || (hp_status response =? 429)%Z then
    err (adapterError "githubIssues.rateLimited" (rateLimitMessage response))
  else if negb (is_ok response) then
    err (adapterError (if (hp_status response =? 404)%Z then "githubIssues.notFound" else "githubIssues.requestFailed")
           ("GitHub API request failed with HTTP " +:+ pretty (hp_status response) +:+ "."))
  else match hp_json response with Some value => ok value | None => err invalidJson end.

Definition closeReason_str (r : IssueTrackerCloseReason) : string :=
  match r with CrCompleted => "completed" | CrNotPlanned => "not_planned" end.

(** ** Requests *)

Section adapter.
Context {S : Type} `{QueryStrings}.
Context (process_env : string → option string) (global_fetch : HttpRequest → M S HttpResponse).
Context (options : GitHubIssueTrackerAdapterOptions S).

Definition apiBaseUrl : string := default "https://api.github.com" (go_apiBaseUrl options).
Definition fetchImpl : HttpRequest → M S HttpResponse := default global_fetch (go_fetch options).

Definition present (value : option string) : option string :=
  match value with Some s => if String.eqb (trim s) "" then None else Some (trim s) | None => None end.

Definition resolveToken : M S (Result string) :=
  match present (go_token options) with
  | Some token => mret (ok token)
  | None =>
      match present (process_env (default "GITHUB_TOKEN" (go_tokenEnvName options))) with
      | Some token => mret (ok token)
      | None =>
          match go_vault options, go_tokenRef options with
          | Some resolveSecretValue, Some ref =>
              resolveSecretValue (mkResolveSecret ref (default "github-issues-adapter" (go_requestedBy options))
                                    "github-issues-rest-api")
          | _, _ => mret (err missingToken)
          end
      end
  end.

Definition request_headers (token : string) : list (string * string) := [
  ("accept", "application/vnd.github+json"); ("authorization", "Bearer " +:+ token); ("content-type", "application/json");
  ("x-github-api-version", "2022-11-28")].

Definition http_request (path : string) (method : HttpMethod) (body : option string) (token : string) : HttpRequest :=
  mkHttpRequest (apiBaseUrl +:+ path) method body (request_headers token).

(** The callers give no headers of their own. *)
Definition request (path : string) (method : HttpMethod) (body : option string) : M S (Result jsval) :=
  token ← resolveToken;
  match token with
  | err e => mret (err e)
  | ok token =>
      response ← try_catch (response ← fetchImpl (http_request path method body token); mret (inl response))
                   (λ _, mret (inr networkError));
      mret match response with inl response => read_response response | inr e => err e end
  end.

(** [JSON.stringify] of an object of texts and lists of texts. *)
Definition request_body (o : jsobj) : option string := match jsonStringify (JObj o) with Some text => text | None => None end.

Definition mapGitHubIssue (repository : string) (value : jsval) : M S (Result IssueTrackerIssue) :=
  if unreadable value then throw (ExnType "Cannot read properties of null or undefined.")
  else mret (map_object repository value).

(** ** The methods of the port *)

Definition issues_path (repo : string * string) : string := "/repos/" +:+ repo.1 +:+ "/" +:+ repo.2 +:+ "/issues".
Definition issue_path (repo : string * string) (number : Z) : string := issues_path repo +:+ "/" +:+ pretty number.

Definition state_param (state : option (option IssueProjectionState)) : string :=
  match state with Some (Some IsOpen) => "open" | Some (Some IsClosed) => "closed" | _ => "all" end.

(** The parameters of a page: [labels] is set after the others, [page] last. *)
Definition page_params (filter : ListIssuesFilter) (page : Z) : list (string * string) :=
  [("state", state_param (lf_state filter)); ("per_page", "100"); ("sort", "updated"); ("direction", "desc")]
  ++ match lf_labels filter with Some ((_ :: _) as labels) => [("labels", join "," labels)] | _ => [] end
  ++ [("page", pretty page)].

Definition page_path (repo : string * string) (filter : ListIssuesFilter) (page : Z) : string :=
  issues_path repo +:+ "?" +:+ query_string (page_params filter page).

(** The entries of a page: pull requests are left out. *)
Fixpoint map_page (repository : string) (entries : list jsval) : M S (Result (list IssueTrackerIssue)) :=
  match entries with
  | [] => mret (ok [])
  | entry :: entries =>
      mapped ← mapGitHubIssue repository entry;
      match mapped with
      | ok issue =>
          rest ← map_page repository entries;
          mret match rest with ok issues => ok (issue :: issues) | err e => err e end
      | err e =>
          if String.eqb (error_code e) "githubIssues.pullRequestSkipped" then map_page repository entries
          else mret (err e)
      end
  end.

(** The pages from [page] on, at most [pages] of them; [issues] are those found. *)
Fixpoint list_pages (repo : string * string) (filter : ListIssuesFilter) (pages : nat) (page : Z)
    (issues : list IssueTrackerIssue) : M S (Result (list IssueTrackerIssue)) :=
  match pages with
  | 0 => mret (ok issues)
  | Datatypes.S pages =>
      result ← request (page_path repo filter page) MGet None;
      match result with
      | err e => mret (err e)
      | ok (JArr entries) =>
          mapped ← map_page (lf_repository filter) entries;
          match mapped with
          | err e => mret (err e)
          | ok found =>
              if (length entries <? 100)%nat then mret (ok (issues ++ found))
              else list_pages repo filter pages (page + 1) (issues ++ found)
          end
      | ok _ => mret (err notAList)
      end
  end.

Definition listIssues (filter : ListIssuesFilter) : M S (Result (list IssueTrackerIssue)) :=
  match splitRepository (lf_repository filter) with
  | err e => mret (err e)
  | ok repo => list_pages repo filter 10 1 []
  end.

(** The issue a request answers. *)
Definition answered_issue (repository path : string) (method : HttpMethod) (body : option string)
    : M S (Result IssueTrackerIssue) :=
  result ← request path method body;
  match result with err e => mret (err e) | ok value => mapGitHubIssue repository value end.

Definition getIssue (ref : IssueTrackerRef) : M S (Result IssueTrackerIssue) :=
  match splitRepository (rf_repository ref) with
  | err e => mret (err e)
  | ok repo => answered_issue (rf_repository ref) (issue_path repo (rf_number ref)) MGet None
  end.

Definition texts_field (key : string) (texts : option (list string)) : jsobj :=
  match texts with Some l => [(key, JArr (JStr <$> l))] | None => [] end.

Definition create_body (input : CreateIssueInput) : jsobj :=
  ("title", JStr (ci_title input))
  :: match ci_body input with Some body => [("body", JStr body)] | None => [] end
  ++ texts_field "labels" (ci_labels input) ++ texts_field "assignees" (ci_assignees input).

Definition createIssue (input : CreateIssueInput) : M S (Result IssueTrackerIssue) :=
  match splitRepository (ci_repository input) with
  | err e => mret (err e)
  | ok repo => answered_issue (ci_repository input) (issues_path repo) MPost (request_body (create_body input))
  end.

Definition close_body (reason : IssueTrackerCloseReason) : jsobj :=
  [("state", JStr "closed"); ("state_reason", JStr (closeReason_str reason))].

Definition closeIssue (input : CloseIssueInput) : M S (Result IssueTrackerIssue) :=
  let ref := cl_ref input in
  match splitRepository (rf_repository ref) with
  | err e => mret (err e)
  | ok repo =>
      current ← getIssue ref;
      let close := answered_issue (rf_repository ref) (issue_path repo (rf_number ref)) MPatch
                     (request_body (close_body (cl_reason input))) in
      match current with
      | ok issue => if decide (ti_state issue = IsClosed) then mret (ok issue) else close
      | err _ => close
      end
  end.

(** [GitHubIssueTrackerAdapter implements IssueTrackerPort] *)
Definition GitHubIssueTrackerAdapter : IssueTrackerPort S := mkTracker listIssues getIssue createIssue closeIssue.
End adapter.
End GitHubIssues.

(** ** What the adapter sends *)

Import GitHubIssues.

Inductive tracker_call : Type :=
| TrackList (filter : ListIssuesFilter)
| TrackGet (ref : IssueTrackerRef)
| TrackCreate (input : CreateIssueInput)
| TrackClose (input : CloseIssueInput).

Definition call_repository (c : tracker_call) : string :=
  match c with
  | TrackList filter => lf_repository filter
  | TrackGet ref => rf_repository ref
  | TrackCreate input => ci_repository input
  | TrackClose input => rf_repository (cl_ref input)
  end.

Section requests.
Context {S : Type} `{QueryStrings}.
Context (process_env : string → option string) (global_fetch : HttpRequest → M S HttpResponse).
Context (options : GitHubIssueTrackerAdapterOptions S).

Notation fetching := (fetchImpl global_fetch options).
Notation tracker := (GitHubIssueTrackerAdapter process_env global_fetch options).

Definition run_call (c : tracker_call) : M S unit :=
  match c with
  | TrackList filter => _ ← IssueSql.listIssues tracker filter; mret tt
  | TrackGet ref => _ ← IssueSql.getIssue tracker ref; mret tt
  | TrackCreate input => _ ← IssueSql.createIssue tracker input; mret tt
  | TrackClose input => _ ← IssueSql.closeIssue tracker input; mret tt
  end.

(** The token is the one of the options, else that of the environment, else one the
    vault has answered. *)
Definition token_of (token : string) : Prop :=
  match present (go_token options) with
  | Some t => token = t
  | None =>
      match present (process_env (default "GITHUB_TOKEN" (go_tokenEnvName options))) with
      | Some t => token = t
      | None => ∃ vault input s s', go_vault options = Some vault ∧ vault input s = (Returned (ok token), s')
      end
  end.

(** The method, the path and the body a call may send in a repository. *)
Definition call_sends (c : tracker_call) (repo : string * string) (method : HttpMethod) (path : string) (body : option string) : Prop :=
  match c with
  | TrackList filter => method = MGet ∧ body = None ∧ ∃ page, (1 <= page <= 10)%Z ∧ path = page_path repo filter page
  | TrackGet ref => method = MGet ∧ body = None ∧ path = issue_path repo (rf_number ref)
  | TrackCreate input => method = MPost ∧ path = issues_path repo ∧ body = request_body (create_body input)
  | TrackClose input =>
      path = issue_path repo (rf_number (cl_ref input)) ∧
      ((method = MGet ∧ body = None) ∨ (method = MPatch ∧ body = request_body (close_body (cl_reason input))))
  end.

Definition call_request (c : tracker_call) (req : HttpRequest) : Prop :=
  ∃ repo method path body token, splitRepository (call_repository c) = ok repo ∧ call_sends c repo method path body ∧
    token_of token ∧ req = http_request options path method body token.

(** The call moves the state only by the requests in [P] and by the vault. *)
Definition fetches {A} (P : HttpRequest → Prop) (m : M S A) : Prop :=
  ∀ R : S → S → Prop, PreOrder R → (∀ req s, P req → R s (fetching req s).2) →
  (∀ vault input s, go_vault options = Some vault → R s (vault input s).2) → ∀ s, R s (m s).2.

Lemma fetches_ret {A} P (a : A) : fetches P (mret a).
Proof. intros R HR _ _ s. simpl. reflexivity. Qed.

Lemma fetches_throw {A} P e : fetches P (throw e : M S A).
Proof. intros R HR _ _ s. simpl. reflexivity. Qed.

Lemma fetches_bind {A B} P (m : M S A) (k : A → M S B) : fetches P m → (∀ a, fetches P (k a)) → fetches P (m ≫= k).
Proof.
  intros Hm Hk R HR Hf Hv s. unfold mbind, M_bind. pose proof (Hm R HR Hf Hv s) as H1.
  destruct (m s) as [[a|e] s1]; [|done]. etransitivity; [exact H1|by apply Hk].
Qed.

Lemma resolveToken_state P : fetches P (resolveToken process_env options).
Proof.
  unfold resolveToken. repeat case_match; try apply fetches_ret. intros R HR _ Hv t. by apply Hv.
Qed.

Lemma resolveToken_token s token s' :
  resolveToken process_env options s = (Returned (ok token), s') → token_of token.
Proof.
  unfold resolveToken, token_of. repeat case_match; intros Hrun; try (by injection Hrun as <- _); try done. eauto 10.
Qed.

Lemma fetches_request P path method body :
  (∀ token, token_of token → P (http_request options path method body token)) →
  fetches P (request process_env global_fetch options path method body).
Proof.
  intros HP R HR Hf Hv s. unfold request, mbind at 1, M_bind at 1.
  pose proof (resolveToken_state P R HR Hf Hv s) as H1.
  destruct (resolveToken process_env options s) as [[[token|e]|e] s1] eqn:Htoken; [|done..].
  etransitivity; [exact H1|]. apply resolveToken_token in Htoken.
  pose proof (Hf (http_request options path method body token) s1 (HP token Htoken)) as H2.
  unfold try_catch, mbind, M_bind. by destruct (fetching _ s1) as [[r|e] s2].
Qed.

Lemma fetches_map P repository value : fetches P (mapGitHubIssue repository value : M S _).
Proof. unfold mapGitHubIssue. case_match; [apply fetches_throw|apply fetches_ret]. Qed.

Lemma fetches_page P repository entries : fetches P (map_page repository entries : M S _).
Proof.
  induction entries as [|entry entries IH]; [apply fetches_ret|]. apply fetches_bind; [apply fetches_map|].
  intros [issue|e].
  - apply fetches_bind; [done|]. intros [issues|e]; apply fetches_ret.
  - case_match; [done|apply fetches_ret].
Qed.

Lemma fetches_answered P repository path method body :
  (∀ token, token_of token → P (http_request options path method body token)) →
  fetches P (answered_issue process_env global_fetch options repository path method body).
Proof.
  intros HP. apply fetches_bind; [by apply fetches_request|]. intros [value|e]; [apply fetches_map|apply fetches_ret].
Qed.

Lemma fetches_pages P repo filter pages page issues :
  (∀ n token, (page <= n < page + Z.of_nat pages)%Z → token_of token →
     P (http_request options (page_path repo filter n) MGet None token)) →
  fetches P (list_pages process_env global_fetch options repo filter pages page issues).
Proof.
  revert page issues. induction pages as [|pages IH]; intros page issues HP; [apply fetches_ret|].
  apply fetches_bind; [apply fetches_request; intros token; apply HP; lia|]. intros [value|e]; [|apply fetches_ret].
  destruct value; try apply fetches_ret. apply fetches_bind; [apply fetches_page|].
  intros [found|e]; [|apply fetches_ret]. case_match; [apply fetches_ret|]. apply IH. intros n token Hn. apply HP. lia.
Qed.

Lemma fetches_call c : fetches (call_request c) (run_call c).
Proof.
  destruct c as [filter|ref|input|input]; simpl; apply fetches_bind; try (intros a; apply fetches_ret).
  - unfold listIssues. destruct (splitRepository _) as [repo|e] eqn:Hr; [|apply fetches_ret]. apply fetches_pages.
    intros n token Hn Ht. exists repo, MGet, (page_path repo filter n), None, token. split_and!; try done.
    simpl. split_and!; try done. exists n. split; [lia|done].
  - unfold getIssue. destruct (splitRepository _) as [repo|e] eqn:Hr; [|apply fetches_ret]. apply fetches_answered.
    intros token Ht. by exists repo, MGet, (issue_path repo (rf_number ref)), None, token.
  - unfold createIssue. destruct (splitRepository _) as [repo|e] eqn:Hr; [|apply fetches_ret]. apply fetches_answered.
    intros token Ht. by exists repo, MPost, (issues_path repo), (request_body (create_body input)), token.
  - unfold closeIssue, getIssue. destruct (splitRepository _) as [repo|e] eqn:Hr; [|apply fetches_ret].
    assert (∀ method body, (method = MGet ∧ body = None) ∨ (method = MPatch ∧ body = request_body (close_body (cl_reason input))) →
      fetches (call_request (TrackClose input)) (answered_issue process_env global_fetch options (rf_repository (cl_ref input))
        (issue_path repo (rf_number (cl_ref input))) method body)) as Hsend.
    { intros method body Hm. apply fetches_answered. intros token Ht.
      by exists repo, method, (issue_path repo (rf_number (cl_ref input))), body, token. }
    apply fetches_bind; [apply Hsend; by left|]. intros [issue|e]; [case_decide; [apply fetches_ret|]|]; apply Hsend; by right.
Qed.

(** The adapter sends what its call is about, and nothing else: every request goes
    to the configured interface under the repository of the call, with the token of
    the options, else of the environment, else of the vault; listing and loading only
    read, at most the ten first pages; creating posts once the fields of the issue;
    and closing reads the one issue and patches it to closed. *)
Theorem trackers_send_their_requests c (R : S → S → Prop) s :
  PreOrder R → (∀ req t, call_request c req → R t (fetching req t).2) →
  (∀ vault input t, go_vault options = Some vault → R t (vault input t).2) → R s (run_call c s).2.
Proof. intros HR Hf Hv. by apply (fetches_call c). Qed.
End requests.

(** ** What the adapter answers *)

(** A response of success with a body. *)
Definition answers (response : HttpResponse) (value : jsval) : Prop :=
  is_ok response = true ∧ hp_json response = Some value.

Lemma read_answer response value : answers response value → read_response response = ok value.
Proof.
  intros [Hok Hj]. unfold read_response. rewrite Hok, Hj. unfold is_ok in Hok. apply andb_true_iff in Hok as [H1 H2].
  apply Z.leb_le in H1, H2. destruct (Z.eqb_spec (hp_status response) 403), (Z.eqb_spec (hp_status response) 429); try lia. done.
Qed.

(** An entry the adapter can list: an issue with its fields, or a pull request. *)
Definition listable (repository : string) (value : jsval) : Prop :=
  unreadable value = false ∧ (map_object repository value = err pullRequestSkipped ∨ ∃ issue, map_object repository value = ok issue).

Definition issue_of (repository : string) (value : jsval) : option IssueTrackerIssue :=
  match map_object repository value with ok issue => Some issue | err _ => None end.

Lemma map_page_eq {S} repository entries (s : S) :
  Forall (listable repository) entries →
  (map_page repository entries : M S _) s = (Returned (ok (omap (issue_of repository) entries)), s).
Proof.
  induction 1 as [|value entries [Hu Hmap] Hl IH]; [done|]. simpl. unfold mapGitHubIssue, issue_of at 1. rewrite Hu.
  unfold mbind at 1, M_bind at 1. simpl.
  destruct Hmap as [-> | [issue ->]]; simpl; [exact IH|]. unfold mbind at 1, M_bind at 1. rewrite IH. done.
Qed.

(** The entries of a page of a hundred, the pages counted from one. *)
Definition page_of {A} (all : list A) (page : Z) : list A := take 100 (drop (100 * Z.to_nat (page - 1)) all).

Section answers.
Context {S : Type} `{QueryStrings}.
Context (process_env : string → option string) (global_fetch : HttpRequest → M S HttpResponse).
Context (options : GitHubIssueTrackerAdapterOptions S) (token : string).
Context (Htoken : present (go_token options) = Some token).
#[local] Set Default Proof Using "Type*".

Notation fetching := (fetchImpl global_fetch options).

Lemma request_eq path method body s response s' :
  fetching (http_request options path method body token) s = (Returned response, s') →
  request process_env global_fetch options path method body s = (Returned (read_response response), s').
Proof.
  intros Hf. unfold request, mbind at 1, M_bind at 1, resolveToken. rewrite Htoken. simpl.
  unfold try_catch, mbind, M_bind. by rewrite Hf.
Qed.

Lemma list_pages_eq repo filter all pages page issues s :
  Forall (listable (lf_repository filter)) all → (1 <= page)%Z →
  (∀ n s, (1 <= n)%Z → ∃ response, answers response (JArr (page_of all n)) ∧
     fetching (http_request options (page_path repo filter n) MGet None token) s = (Returned response, s)) →
  list_pages process_env global_fetch options repo filter pages page issues s =
    (Returned (ok (issues ++ omap (issue_of (lf_repository filter))
       (take (100 * pages) (drop (100 * Z.to_nat (page - 1)) all)))), s).
Proof.
  intros Hall Hpage Hserver. revert page issues Hpage. induction pages as [|pages IH]; intros page issues Hpage.
  { rewrite Nat.mul_0_r. simpl. by rewrite app_nil_r. }
  destruct (Hserver page s Hpage) as (response & Hans & Hf). simpl list_pages. unfold mbind at 1, M_bind at 1.
  rewrite (request_eq _ _ _ _ _ _ Hf), (read_answer _ _ Hans). cbv iota beta.
  unfold mbind at 1, M_bind at 1. rewrite map_page_eq by (by apply Forall_take, Forall_drop).
  set (rest := drop (100 * Z.to_nat (page - 1)) all). unfold page_of. fold rest.
  rewrite Nat.mul_succ_r, (Nat.add_comm _ 100), <- take_take_drop, omap_app. rewrite length_take.
  destruct (Nat.ltb_spec (100 `min` length rest) 100) as [Hlt|Hge].
  - rewrite (drop_ge rest) by lia. rewrite take_nil. simpl. by rewrite app_nil_r.
  - rewrite IH by lia. unfold rest at 3. rewrite drop_drop.
    replace (Z.to_nat (page + 1 - 1)) with (Datatypes.S (Z.to_nat (page - 1))) by lia.
    rewrite Nat.mul_succ_r. by rewrite app_assoc.
Qed.

(** C19. Listing is complete up to a thousand entries: against a server that keeps a
    list of entries and answers its pages of a hundred, the adapter answers exactly the
    issues among the first thousand entries, in their order and without the pull
    requests; an entry past the thousandth is left out without an error. *)
Theorem listing_is_the_first_thousand repo filter all s :
  splitRepository (lf_repository filter) = ok repo → Forall (listable (lf_repository filter)) all →
  (∀ n s, (1 <= n)%Z → ∃ response, answers response (JArr (page_of all n)) ∧
     fetching (http_request options (page_path repo filter n) MGet None token) s = (Returned response, s)) →
  listIssues process_env global_fetch options filter s =
    (Returned (ok (omap (issue_of (lf_repository filter)) (take 1000 all))), s).
Proof.
  intros Hrepo Hall Hserver. unfold listIssues. rewrite Hrepo.
  by rewrite (list_pages_eq repo filter all 10 1 [] s Hall) by done.
Qed.

(** C20. What closing does to what the tracker holds: when the lookup answers a closed
    issue, the adapter answers it and sends nothing more; when it answers a pull
    request, which is no issue, the adapter still patches it to closed, and then
    answers the error that says it was skipped. *)
Theorem closing_follows_the_lookup input repo value response s s1 :
  let ref := cl_ref input in
  let path := issue_path repo (rf_number ref) in
  splitRepository (rf_repository ref) = ok repo → answers response value →
  fetching (http_request options path MGet None token) s = (Returned response, s1) → unreadable value = false →
  (∀ issue, map_object (rf_repository ref) value = ok issue → ti_state issue = IsClosed →
     closeIssue process_env global_fetch options input s = (Returned (ok issue), s1)) ∧
  (∀ response' value' s2, map_object (rf_repository ref) value = err pullRequestSkipped →
     fetching (http_request options path MPatch (request_body (close_body (cl_reason input))) token) s1 = (Returned response', s2) →
     answers response' value' → is_object (prop "pull_request" value') = true →
     closeIssue process_env global_fetch options input s = (Returned (err pullRequestSkipped), s2)).
Proof.
  intros ref path Hrepo Hans Hget Hread. subst path ref.
  assert (getIssue process_env global_fetch options (cl_ref input) s = (Returned (map_object (rf_repository (cl_ref input)) value), s1)) as Hlookup.
  { unfold getIssue, answered_issue. rewrite Hrepo. unfold mbind at 1, M_bind at 1.
    rewrite (request_eq _ _ _ _ _ _ Hget), (read_answer _ _ Hans). unfold mapGitHubIssue. by rewrite Hread. }
  unfold closeIssue. rewrite Hrepo. unfold mbind, M_bind. rewrite Hlookup. split.
  - intros issue -> Hclosed. by rewrite decide_True.
  - intros response' value' s2 -> Hpatch Hans' Hpull. unfold answered_issue, mbind, M_bind.
    rewrite (request_eq _ _ _ _ _ _ Hpatch), (read_answer _ _ Hans'). unfold mapGitHubIssue, map_object. rewrite Hpull.
    by destruct value'.
Qed.
End answers.

(** ** A repository *)

Module GitHubExample.

(** The query of the example is the value of its last parameter. *)
#[local] Instance last_value : QueryStrings := {| query_string params := default "" (snd <$> last params) |}.

Definition no_env : string → option string := λ _, None.
Definition options {S} : GitHubIssueTrackerAdapterOptions S :=
  mkGitHubOptions "opzava/board" (Some " token-1 ") None None None None None None.
Definition no_headers : string → option string := λ _, None.
Definition answer (value : jsval) : HttpResponse := mkHttpResponse 200 no_headers (Some value).

Definition issue_js (number : Z) (state : string) : jsval := JObj [
  ("html_url", JStr "https://github.com/opzava/board/issues/1"); ("number", jsint number); ("state", JStr state);
  ("title", JStr "Fix the login"); ("labels", JArr [JStr "bug"; JObj [("name", JStr "ui")]]); ("assignee", JNull);
  ("updated_at", JStr "2026-01-01T00:00:00Z")].
Definition pull_js : jsval := JObj [("number", jsint 2); ("pull_request", JObj [])].

Definition ref : IssueTrackerRef := mkIssueRef "opzava/board" 2 "https://github.com/opzava/board/issues/2".
Definition close_pull : CloseIssueInput := mkCloseIssue ref CrCompleted.

(** A network that keeps what it is sent, and never finds anything. *)
Definition log_fetch (req : HttpRequest) : M (list HttpRequest) HttpResponse :=
  λ log, (Returned (mkHttpResponse 404 no_headers None), log ++ [req]).
Definition extends (P : HttpRequest → Prop) (before after : list HttpRequest) : Prop :=
  ∃ sent, after = before ++ sent ∧ Forall P sent.

Lemma extends_preorder P : PreOrder (extends P).
Proof.
  split; [intros log; exists []; by rewrite app_nil_r|].
  intros l1 l2 l3 (a & -> & Ha) (b & -> & Hb). exists (a ++ b). rewrite app_assoc. split; [done|]. by apply Forall_app.
Qed.

Lemma trackers_send_their_requests_witness :
  let log := (run_call no_env log_fetch options (TrackClose close_pull) []).2 in
  extends (call_request no_env (options (S := list HttpRequest)) (TrackClose close_pull)) [] log ∧ (rq_method <$> log) = [MGet; MPatch].
Proof.
  split; [|vm_compute; reflexivity].
  apply (trackers_send_their_requests no_env log_fetch options (TrackClose close_pull) (extends _) []);
    [apply extends_preorder| |discriminate].
  intros req log Hreq. exists [req]. split; [reflexivity|]. apply Forall_singleton. exact Hreq.
Defined.

(** A server of 250 entries, every hundredth of them a pull request. *)
Definition entries : list jsval :=
  (λ n, if decide (n mod 100 = 99) then pull_js else issue_js (Z.of_nat n) "open") <$> seq 0 250.

(** The page a url asks for. *)
Definition asked_page (url : string) : Z :=
  match split_at "?" url with Some (_, page) => default 0%Z (decimal_from 0 page) | None => 0%Z end.
Definition page_fetch (req : HttpRequest) : M unit HttpResponse :=
  mret (answer (JArr (page_of entries (asked_page (rq_url req))))).

Definition everything : ListIssuesFilter := mkListFilter "opzava/board" None None.

Lemma asked_page_path n : (1 <= n)%Z →
  asked_page ("https://api.github.com" +:+ page_path ("opzava", "board") everything n) = n.
Proof.
  intros Hn. change (default 0%Z (decimal_from 0 (pretty n)) = n).
  rewrite pretty_positive by lia. rewrite decimal_from_pretty_go. simpl. lia.
Qed.

Lemma entries_listable : Forall (listable "opzava/board") entries.
Proof.
  apply Forall_fmap, Forall_forall. intros n _. simpl. case_decide; split; try reflexivity.
  - left. reflexivity.
  - right. eexists. reflexivity.
Qed.

Lemma listing_is_the_first_thousand_witness :
  ∃ issues, listIssues no_env page_fetch options everything tt = (Returned (ok issues), tt) ∧ length issues = 248 ∧
    Forall (λ issue, ti_labels issue = ["bug"; "ui"]) issues.
Proof.
  exists (omap (issue_of "opzava/board") (take 1000 entries)). split.
  - apply (listing_is_the_first_thousand no_env page_fetch options "token-1" eq_refl ("opzava", "board") everything entries tt);
      [vm_compute; reflexivity|exact entries_listable|].
    intros n s Hn. exists (answer (JArr (page_of entries n))). split; [split; reflexivity|].
    assert (asked_page ("https://api.github.com" +:+ page_path ("opzava", "board") everything n) = n) as Hpage
      by (apply asked_page_path; exact Hn).
    transitivity (page_fetch (http_request (options (S := unit)) (page_path ("opzava", "board") everything n) MGet None "token-1") s); [reflexivity|].
    unfold page_fetch. change (rq_url _) with ("https://api.github.com" +:+ page_path ("opzava", "board") everything n).
    rewrite Hpage. reflexivity.
  - split; [vm_compute; reflexivity|]. apply (bool_decide_unpack _). vm_compute. exact I.
Defined.

(** A server whose number 2 is a pull request, open until it is patched. *)
Definition pull_fetch (req : HttpRequest) : M bool HttpResponse :=
  λ closed, (Returned (answer pull_js), match rq_method req with MPatch => true | _ => closed end).

Lemma closing_follows_the_lookup_witness :
  closeIssue no_env pull_fetch options close_pull false = (Returned (err pullRequestSkipped), true).
Proof.
  assert (answers (answer pull_js) pull_js) as Hans by (split; reflexivity).
  exact (proj2 (closing_follows_the_lookup no_env pull_fetch options "token-1" eq_refl close_pull ("opzava", "board") pull_js
    (answer pull_js) false false eq_refl Hans eq_refl eq_refl) (answer pull_js) pull_js true eq_refl eq_refl Hans eq_refl).
Defined.
End GitHubExample.
