(* ===== verification/McpServer.v ===== *)
(** * MCP server: the task tools of a linked client
    ([apps/mcp-server/src/tools.ts] and [apps/mcp-server/src/server.ts])

    A client that holds a link token works on the cards of one workspace through
    twelve tools.  The arguments of a tool are those its schema has admitted; the
    schemas and the protocol are those of the libraries the sources call, so a
    schema appears as the constraints it states on arguments of its type. *)
From S2P Require Import Prelude JsString JsValue SharedKernel Effects DevBoardDomain JsText RuntimeDomain.
From S2P Require Import TenantContext RuntimeSql Authorization TaskDomain TaskSql TaskInputs TaskServices TaskReviews.
From S2P Require Import IssueSql LinkTokens.
Import TaskServices TaskReviews.

(** ** Tools *)

Inductive OpzavaMcpToolName : Type :=
| OpTasksList | OpTasksGet | OpTasksCreate | OpTasksUpdate | OpStepsCreate | OpStepsToggle | OpStepsReorder
| OpCommentsAdd | OpCommentsMarkRead | OpQualityChecksAdd | OpDueSet | OpWatchersSet.
#[global] Instance OpzavaMcpToolName_eq_dec : EqDecision OpzavaMcpToolName.
Proof. solve_decision. Defined.

Definition toolName_str (name : OpzavaMcpToolName) : string :=
  match name with
  | OpTasksList => "opzava_tasks_list"
  | OpTasksGet => "opzava_tasks_get"
  | OpTasksCreate => "opzava_tasks_create"
  | OpTasksUpdate => "opzava_tasks_update"
  | OpStepsCreate => "opzava_tasks_steps_create"
  | OpStepsToggle => "opzava_tasks_steps_toggle"
  | OpStepsReorder => "opzava_tasks_steps_reorder"
  | OpCommentsAdd => "opzava_tasks_comments_add"
  | OpCommentsMarkRead => "opzava_tasks_comments_mark_read"
  | OpQualityChecksAdd => "opzava_tasks_quality_checks_add"
  | OpDueSet => "opzava_tasks_due_set"
  | OpWatchersSet => "opzava_tasks_watchers_set"
  end.

Definition readToolNames : list OpzavaMcpToolName := [OpTasksList; OpTasksGet].
Definition writeToolNames : list OpzavaMcpToolName :=
  [OpTasksCreate; OpTasksUpdate; OpStepsCreate; OpStepsToggle; OpStepsReorder; OpCommentsAdd; OpCommentsMarkRead;
   OpQualityChecksAdd; OpDueSet; OpWatchersSet].

(** ** Arguments

    Every tool admits the same fields that name an authority; no handler reads
    them. *)

Record optionalAuthorityFields : Type := mkAuthorityFields {
  af_tenantId : option string; af_organizationId : option string; af_orgId : option string;
  af_workspaceId : option string; af_userId : option string;
}.

(** [writableStatusSchema] *)
Inductive WritableStatus : Type := WsTodo | WsInProgress | WsBlocked.
Definition writable_status (s : WritableStatus) : TaskStatus :=
  match s with WsTodo => TsTodo | WsInProgress => TsInProgress | WsBlocked => TsBlocked end.

(** A field that is optional and nullable is absent, null or a text. *)
Definition nullable : Type := option (option string).

Record ListTasksArgs : Type := mkListArgs {
  xl_status : option TaskStatus; xl_limit : option Z; xl_authority : optionalAuthorityFields;
}.
Record GetTaskArgs : Type := mkGetArgs { xg_taskId : string; xg_authority : optionalAuthorityFields }.
Record CreateTaskArgs : Type := mkCreateArgs {
  xc_title : string; xc_description : option string; xc_status : option WritableStatus;
  xc_priority : option TaskPriority; xc_labels : option (list string); xc_dueAt : nullable;
  xc_provenanceSource : option string; xc_provenanceExternalRef : nullable; xc_idempotencyKey : option string;
  xc_authority : optionalAuthorityFields;
}.
Record UpdateTaskArgs : Type := mkUpdateArgs {
  xu_taskId : string; xu_title : option string; xu_description : option string; xu_status : option WritableStatus;
  xu_priority : option TaskPriority; xu_labels : option (list string); xu_authority : optionalAuthorityFields;
}.
Record CreateStepArgs : Type := mkCreateStepArgs {
  xs_taskId : string; xs_text : string; xs_assigneeUserId : nullable; xs_idempotencyKey : option string;
  xs_authority : optionalAuthorityFields;
}.
Record ToggleStepArgs : Type := mkToggleStepArgs {
  xt_taskId : string; xt_stepId : string; xt_done : bool; xt_authority : optionalAuthorityFields;
}.
Record ReorderStepsArgs : Type := mkReorderArgs {
  xo_taskId : string; xo_stepIds : list string; xo_authority : optionalAuthorityFields;
}.
Record AddCommentArgs : Type := mkCommentArgs {
  xa_taskId : string; xa_body : string; xa_idempotencyKey : option string; xa_authority : optionalAuthorityFields;
}.
Record AddQualityCheckArgs : Type := mkCheckArgs {
  xq_taskId : string; xq_label : string; xq_kind : option TaskQualityCheckKind; xq_state : option TaskQualityCheckState;
  xq_actorLabel : option string; xq_idempotencyKey : option string; xq_authority : optionalAuthorityFields;
}.
Record MarkCommentsReadArgs : Type := mkMarkReadArgs {
  xm_taskId : string; xm_commentIds : option (list string); xm_authority : optionalAuthorityFields;
}.
Record SetDueArgs : Type := mkDueArgs {
  xd_taskId : string; xd_dueAt : option string; xd_authority : optionalAuthorityFields;
}.
Record SetWatchersArgs : Type := mkWatcherArgs {
  xw_taskId : string; xw_userIds : list string; xw_authority : optionalAuthorityFields;
}.

Definition tool_args (name : OpzavaMcpToolName) : Type :=
  match name with
  | OpTasksList => ListTasksArgs
  | OpTasksGet => GetTaskArgs
  | OpTasksCreate => CreateTaskArgs
  | OpTasksUpdate => UpdateTaskArgs
  | OpStepsCreate => CreateStepArgs
  | OpStepsToggle => ToggleStepArgs
  | OpStepsReorder => ReorderStepsArgs
  | OpCommentsAdd => AddCommentArgs
  | OpCommentsMarkRead => MarkCommentsReadArgs
  | OpQualityChecksAdd => AddQualityCheckArgs
  | OpDueSet => SetDueArgs
  | OpWatchersSet => SetWatchersArgs
  end.

(** The formats of the schema library: [z.uuid()] and [z.string().datetime()]. *)
Class SchemaFormats := { uuid_format : string → bool; datetime_format : string → bool }.

Module McpTools.

(** ** Schemas *)

Section schemas.
Context `{SchemaFormats}.

Definition opt {A} (p : A → bool) (value : option A) : bool := match value with Some a => p a | None => true end.
Definition text_within (low high : nat) (s : string) : bool := length_within low high s.
Definition at_most {A} (n : nat) (l : list A) : bool := (length l <=? n)%nat.

Definition uuidSchema : string → bool := uuid_format.
Definition labelsSchema (labels : option (list string)) : bool := opt (at_most 8) labels.
Definition keySchema (key : option string) : bool := opt (text_within 1 160) key.

Definition listTasksSchema (args : ListTasksArgs) : bool :=
  opt (λ limit, (1 <=? limit)%Z && (limit <=? 50)%Z) (xl_limit args).
Definition getTaskSchema (args : GetTaskArgs) : bool := uuidSchema (xg_taskId args).
Definition createTaskSchema (args : CreateTaskArgs) : bool :=
  text_within 1 180 (xc_title args) && opt (text_within 0 4000) (xc_description args) && labelsSchema (xc_labels args)
  && opt (opt datetime_format) (xc_dueAt args) && opt (text_within 1 240) (xc_provenanceSource args)
  && opt (opt (text_within 0 500)) (xc_provenanceExternalRef args) && keySchema (xc_idempotencyKey args).
Definition updateTaskSchema (args : UpdateTaskArgs) : bool :=
  uuidSchema (xu_taskId args) && opt (text_within 1 180) (xu_title args)
  && opt (text_within 0 4000) (xu_description args) && labelsSchema (xu_labels args).
Definition createStepSchema (args : CreateStepArgs) : bool :=
  uuidSchema (xs_taskId args) && text_within 1 500 (xs_text args) && keySchema (xs_idempotencyKey args).
Definition toggleStepSchema (args : ToggleStepArgs) : bool := uuidSchema (xt_taskId args) && uuidSchema (xt_stepId args).
Definition reorderStepsSchema (args : ReorderStepsArgs) : bool :=
  uuidSchema (xo_taskId args) && forallb uuidSchema (xo_stepIds args) && (1 <=? length (xo_stepIds args))%nat.
Definition addCommentSchema (args : AddCommentArgs) : bool :=
  uuidSchema (xa_taskId args) && text_within 1 4000 (xa_body args) && keySchema (xa_idempotencyKey args).
Definition addQualityCheckSchema (args : AddQualityCheckArgs) : bool :=
  uuidSchema (xq_taskId args) && text_within 1 240 (xq_label args) && opt (text_within 1 240) (xq_actorLabel args)
  && keySchema (xq_idempotencyKey args).
Definition markCommentsReadSchema (args : MarkCommentsReadArgs) : bool :=
  uuidSchema (xm_taskId args) && opt (forallb uuidSchema) (xm_commentIds args).
Definition setDueSchema (args : SetDueArgs) : bool := uuidSchema (xd_taskId args) && opt datetime_format (xd_dueAt args).
Definition setWatchersSchema (args : SetWatchersArgs) : bool :=
  uuidSchema (xw_taskId args) && at_most 32 (xw_userIds args).
End schemas.

(** ** Responses *)

(** [isError] is absent from a response that is not one. *)
Record ToolResponse : Type := mkResponse { rs_isError : bool; rs_text : string; rs_structured : jsval }.

Inductive ToolErrorCode : Type := TcForbidden | TcNotFound | TcInvalidArgs | TcFailed.
Definition toolErrorCode_str (c : ToolErrorCode) : string :=
  match c with TcForbidden => "forbidden" | TcNotFound => "not_found" | TcInvalidArgs => "invalid_args" | TcFailed => "failed" end.

(** [error.code.includes(text)], first match. *)
Definition publicCode (error : DomainError) : ToolErrorCode :=
  let code := error_code error in
  if includes "forbidden" code || String.eqb code "projectManagement.taskDoneRequiresHumanAttestation"
     || String.eqb code "projectManagement.taskDoneRequiresApprovedReview" then TcForbidden
  else if includes "NotFound" code || includes "notFound" code then TcNotFound
  else if includes "invalid" code || includes "Malformed" code then TcInvalidArgs
  else TcFailed.

Definition ok_payload (result : jsobj) : jsval :=
  JObj [("ok", JBool true); ("viaClient", JStr "claude-code"); ("result", JObj result)].
Definition error_payload (error : DomainError) : jsval :=
  JObj [("ok", JBool false); ("code", JStr (toolErrorCode_str (publicCode error))); ("message", JStr (error_message error))].

(** *** The results as the objects they are *)

Definition step_js (s : TaskStepDto) : jsval := JObj [
  ("id", JStr (sd_id s)); ("taskId", JStr (sd_taskId s)); ("organizationId", JStr (sd_organizationId s));
  ("workspaceId", JStr (sd_workspaceId s)); ("text", JStr (sd_text s)); ("assigneeUserId", js_null (sd_assigneeUserId s));
  ("done", JBool (sd_done s)); ("position", jsint (sd_position s)); ("createdAt", JStr (sd_createdAt s));
  ("updatedAt", JStr (sd_updatedAt s))].

Definition comment_js (c : TaskCommentDto) : jsval := JObj [
  ("id", JStr (cd_id c)); ("taskId", JStr (cd_taskId c)); ("organizationId", JStr (cd_organizationId c));
  ("workspaceId", JStr (cd_workspaceId c)); ("authorKind", JStr (commentAuthorKind_str (cd_authorKind c)));
  ("authorUserId", js_null (cd_authorUserId c)); ("assistantKey", js_null (cd_assistantKey c)); ("body", JStr (cd_body c));
  ("readByUserIds", JArr (JStr <$> cd_readByUserIds c)); ("createdAt", JStr (cd_createdAt c))].

Definition watcher_js (w : TaskWatcherDto) : jsval := JObj [
  ("taskId", JStr (wd_taskId w)); ("organizationId", JStr (wd_organizationId w)); ("workspaceId", JStr (wd_workspaceId w));
  ("userId", JStr (wd_userId w)); ("name", js_null (wd_name w)); ("createdAt", JStr (wd_createdAt w))].

Definition evidence_js (e : TaskEvidenceDto) : jsval := JObj [
  ("id", JStr (ed_id e)); ("taskId", JStr (ed_taskId e)); ("organizationId", JStr (ed_organizationId e));
  ("workspaceId", JStr (ed_workspaceId e)); ("kind", JStr (evidenceKind_str (ed_kind e)));
  ("objectRef", js_null (ed_objectRef e)); ("url", js_null (ed_url e)); ("filename", JStr (ed_filename e));
  ("contentType", js_null (ed_contentType e));
  ("sizeBytes", match ed_sizeBytes e with Some size => jsint size | None => JNull end);
  ("provenance", JStr (ed_provenance e)); ("createdByUserId", js_null (ed_createdByUserId e));
  ("createdAt", JStr (ed_createdAt e))].

Definition check_js (k : TaskQualityCheckDto) : jsval := JObj [
  ("id", JStr (kd_id k)); ("reviewId", JStr (kd_reviewId k)); ("taskId", JStr (kd_taskId k));
  ("organizationId", JStr (kd_organizationId k)); ("workspaceId", JStr (kd_workspaceId k)); ("label", JStr (kd_label k));
  ("kind", JStr (qualityCheckKind_str (kd_kind k))); ("state", JStr (qualityCheckState_str (kd_state k)));
  ("actor", JStr (kd_actor k)); ("createdAt", JStr (kd_createdAt k)); ("updatedAt", JStr (kd_updatedAt k))].

Definition reviewer_js (v : TaskQualityReviewerDto) : jsval := JObj [
  ("id", JStr (vd_id v)); ("reviewId", JStr (vd_reviewId v)); ("taskId", JStr (vd_taskId v));
  ("organizationId", JStr (vd_organizationId v)); ("workspaceId", JStr (vd_workspaceId v));
  ("reviewerUserId", JStr (vd_reviewerUserId v)); ("reviewerName", js_null (vd_reviewerName v));
  ("state", JStr (qualityReviewerState_str (vd_state v))); ("updatedAt", JStr (vd_updatedAt v))].

(** The row of the review, then its checks and its reviewers. *)
Definition review_js (q : TaskQualityReviewDto) : jsval :=
  let base := qd_base q in
  JObj [("id", JStr (qd_id base)); ("taskId", JStr (qd_taskId base)); ("organizationId", JStr (qd_organizationId base));
        ("workspaceId", JStr (qd_workspaceId base)); ("status", JStr (qualityReviewStatus_str (qd_status base)));
        ("approvedByUserId", js_null (qd_approvedByUserId base)); ("approvedAt", js_null (qd_approvedAt base));
        ("createdAt", JStr (qd_createdAt base)); ("updatedAt", JStr (qd_updatedAt base));
        ("checks", JArr (check_js <$> qd_checks q)); ("reviewers", JArr (reviewer_js <$> qd_reviewers q))].

Definition card_js (c : CardDetailDto) : jsval := JObj [
  ("task", task_js (ca_task c)); ("steps", JArr (step_js <$> ca_steps c)); ("comments", JArr (comment_js <$> ca_comments c));
  ("watchers", JArr (watcher_js <$> ca_watchers c)); ("evidence", JArr (evidence_js <$> ca_evidence c));
  ("qualityReview", match ca_qualityReview c with Some review => review_js review | None => JNull end)].

Definition taskDtoResult (task : TaskDto) : jsobj := [("task", task_js task)].
Definition cardDetailResult (card : CardDetailDto) : jsobj := [("card", card_js card)].
Definition tasksResult (tasks : list TaskDto) : jsobj := [("tasks", JArr (task_js <$> tasks))].
Definition stepResult (step : TaskStepDto) : jsobj := [("step", step_js step)].
Definition stepsResult (steps : list TaskStepDto) : jsobj := [("steps", JArr (step_js <$> steps))].
Definition commentResult (comment : TaskCommentDto) : jsobj := [("comment", comment_js comment)].
Definition commentsResult (comments : list TaskCommentDto) : jsobj := [("comments", JArr (comment_js <$> comments))].
Definition watchersResult (watchers : list TaskWatcherDto) : jsobj := [("watchers", JArr (watcher_js <$> watchers))].
Definition qualityReviewResult (review : TaskQualityReviewDto) : jsobj := [("qualityReview", review_js review)].

(** ** Handlers *)

(** [OpzavaMcpTaskServices]: the task services a server is given. *)
Record OpzavaMcpTaskServices (S : Type) : Type := mkMcpServices {
  ms_addComment : AddCommentInput → M S (Result TaskCommentDto);
  ms_addQualityCheck : AddQualityCheckInput → M S (Result TaskQualityReviewDto);
  ms_createStep : CreateStepInput → M S (Result TaskStepDto);
  ms_createTask : CreateTaskInput → M S (Result TaskDto);
  ms_getCardDetail : TaskTarget → M S (Result CardDetailDto);
  ms_getTask : TaskTarget → M S (Result TaskDto);
  ms_listTasks : TaskApplicationContext → M S (Result (list TaskDto));
  ms_markCommentsRead : MarkCommentsReadInput → M S (Result (list TaskCommentDto));
  ms_moveTask : MoveTaskInput → M S (Result TaskDto);
  ms_reorderSteps : ReorderStepsInput → M S (Result (list TaskStepDto));
  ms_setDue : SetDueInput → M S (Result TaskDto);
  ms_setWatchers : SetWatchersInput → M S (Result (list TaskWatcherDto));
  ms_toggleStep : ToggleStepInput → M S (Result TaskStepDto);
  ms_updateTask : UpdateTaskInput → M S (Result TaskDto);
}.
Arguments mkMcpServices {S}.
Arguments ms_addComment {S}.
Arguments ms_addQualityCheck {S}.
Arguments ms_createStep {S}.
Arguments ms_createTask {S}.
Arguments ms_getCardDetail {S}.
Arguments ms_getTask {S}.
Arguments ms_listTasks {S}.
Arguments ms_markCommentsRead {S}.
Arguments ms_moveTask {S}.
Arguments ms_reorderSteps {S}.
Arguments ms_setDue {S}.
Arguments ms_setWatchers {S}.
Arguments ms_toggleStep {S}.
Arguments ms_updateTask {S}.

(** The services of [@opzava/project-management], called without dependencies. *)
Definition no_dependencies {S} : TaskApplicationDependencies (S := S) := mkTaskDependencies None None.

Definition defaultTaskServices {S} `{TaskDriver S} `{TenantDatabase} `{NodeDates} `{OpaqueTexts} `{OpaqueNumbers} `{UrlParser} :
    OpzavaMcpTaskServices S :=
  mkMcpServices
    (λ i, TaskServices.addComment i no_dependencies) (λ i, TaskReviews.addQualityCheck i no_dependencies)
    (λ i, TaskServices.createStep i no_dependencies) (λ i, TaskServices.createTask i no_dependencies)
    (λ i, TaskReviews.getCardDetail i no_dependencies) (λ i, TaskServices.getTask i no_dependencies)
    (λ cx, TaskServices.listTasks cx no_dependencies) (λ i, TaskServices.markCommentsRead i no_dependencies)
    (λ i, TaskServices.moveTask i no_dependencies) (λ i, TaskServices.reorderSteps i no_dependencies)
    (λ i, TaskServices.setDue i no_dependencies) (λ i, TaskServices.setWatchers i no_dependencies)
    (λ i, TaskServices.toggleStep i no_dependencies) (λ i, TaskServices.updateTask i no_dependencies).

Definition taskContext (principal : LinkTokenPrincipal) : TaskApplicationContext :=
  mkTaskContext (lp_orgId principal) (lp_workspaceId principal)
    (mkTaskActor (lp_actorUserId principal) (lp_roleKeys principal)).

(** An optional value of an enumeration, as a service takes it. *)
Definition enum_js {A} (str : A → string) (value : option A) : jsval :=
  match value with Some a => JStr (str a) | None => JUndefined end.
Definition due_js (value : option string) : due_input := match value with Some text => DueText text | None => DueNone end.

Section handlers.
Context {S : Type}.
Implicit Types (principal : LinkTokenPrincipal) (services : OpzavaMcpTaskServices S).

(** The content is the text of the payload; [JSON.stringify] throws on what has none. *)
Definition respond (isError : bool) (payload : jsval) : M S ToolResponse :=
  match jsonStringify payload with
  | Some (Some text) => mret (mkResponse isError text payload)
  | _ => throw (ExnType "The payload has no JSON text.")
  end.

Definition okResponse (result : jsobj) : M S ToolResponse := respond false (ok_payload result).
Definition errorResponse (error : DomainError) : M S ToolResponse := respond true (error_payload error).
Definition resultResponse {A} (result : Result A) (mapValue : A → jsobj) : M S ToolResponse :=
  match result with ok value => okResponse (mapValue value) | err error => errorResponse error end.

Definition targetOf principal (taskId : string) : TaskTarget := mkTarget (taskContext principal) taskId.

Definition listToolHandler principal services (args : ListTasksArgs) : M S ToolResponse :=
  listed ← ms_listTasks services (taskContext principal);
  match listed with
  | err error => errorResponse error
  | ok tasks =>
      let filtered :=
        match xl_status args with
        | None => tasks
        | Some status => filter (λ task, td_status task = status) tasks
        end in
      okResponse (tasksResult (take (Z.to_nat (default 20%Z (xl_limit args))) filtered))
  end.

Definition getToolHandler principal services (args : GetTaskArgs) : M S ToolResponse :=
  result ← ms_getCardDetail services (targetOf principal (xg_taskId args));
  resultResponse result cardDetailResult.

Definition createToolHandler principal services (args : CreateTaskArgs) : M S ToolResponse :=
  result ← ms_createTask services
    (mkCreateTaskInput (taskContext principal) (xc_title args) (xc_description args)
       (enum_js (taskStatus_str ∘ writable_status) (xc_status args)) (enum_js taskPriority_str (xc_priority args)) None
       (xc_labels args) (due_js (mjoin (xc_dueAt args))) (Some (default "claude-code" (xc_provenanceSource args)))
       (mjoin (xc_provenanceExternalRef args)) (xc_idempotencyKey args) None);
  resultResponse result taskDtoResult.

(** What follows the first load of [updateToolHandler]: every field the call leaves
    out is written back as it was loaded. *)
Definition update_loaded principal services (args : UpdateTaskArgs) (existing : TaskDto) : M S ToolResponse :=
  updated ← ms_updateTask services
    (mkUpdateTaskInput (taskContext principal) (xu_taskId args) (default (td_title existing) (xu_title args))
       (Some (default (td_description existing) (xu_description args)))
       (JStr (taskPriority_str (default (td_priority existing) (xu_priority args)))) (td_assigneeUserId existing)
       (Some (default (td_labels existing) (xu_labels args))));
  match updated with
  | err error => errorResponse error
  | ok task =>
      match writable_status <$> xu_status args with
      | None => okResponse (taskDtoResult task)
      | Some status =>
          if decide (status = td_status task) then okResponse (taskDtoResult task)
          else
            moved ← ms_moveTask services
              (mkMoveTaskInput (taskContext principal) (xu_taskId args) (JStr (taskStatus_str status))
                 (NInt (td_position task)) None);
            resultResponse moved taskDtoResult
      end
  end.

Definition updateToolHandler principal services (args : UpdateTaskArgs) : M S ToolResponse :=
  existing ← ms_getTask services (targetOf principal (xu_taskId args));
  match existing with
  | err error => errorResponse error
  | ok task => update_loaded principal services args task
  end.

Definition createStepToolHandler principal services (args : CreateStepArgs) : M S ToolResponse :=
  result ← ms_createStep services
    (mkCreateStep (targetOf principal (xs_taskId args)) (xs_text args) (mjoin (xs_assigneeUserId args))
       (xs_idempotencyKey args));
  resultResponse result stepResult.

Definition toggleStepToolHandler principal services (args : ToggleStepArgs) : M S ToolResponse :=
  result ← ms_toggleStep services
    (mkToggleStep (targetOf principal (xt_taskId args)) (xt_stepId args) (xt_done args));
  resultResponse result stepResult.

Definition reorderStepsToolHandler principal services (args : ReorderStepsArgs) : M S ToolResponse :=
  result ← ms_reorderSteps services (mkReorder (targetOf principal (xo_taskId args)) (xo_stepIds args));
  resultResponse result stepsResult.

Definition addCommentToolHandler principal services (args : AddCommentArgs) : M S ToolResponse :=
  result ← ms_addComment services
    (mkAddComment (targetOf principal (xa_taskId args)) None None (xa_body args) (xa_idempotencyKey args));
  resultResponse result commentResult.

Definition addQualityCheckToolHandler principal services (args : AddQualityCheckArgs) : M S ToolResponse :=
  result ← ms_addQualityCheck services
    (mkAddCheck (targetOf principal (xq_taskId args)) (xq_label args) (enum_js qualityCheckKind_str (xq_kind args))
       (enum_js qualityCheckState_str (xq_state args)) (xq_actorLabel args) (xq_idempotencyKey args));
  resultResponse result qualityReviewResult.

Definition markCommentsReadToolHandler principal services (args : MarkCommentsReadArgs) : M S ToolResponse :=
  result ← ms_markCommentsRead services (mkMarkRead (targetOf principal (xm_taskId args)) (xm_commentIds args));
  resultResponse result commentsResult.

Definition setDueToolHandler principal services (args : SetDueArgs) : M S ToolResponse :=
  result ← ms_setDue services (mkSetDue (targetOf principal (xd_taskId args)) (due_js (xd_dueAt args)));
  resultResponse result taskDtoResult.

Definition setWatchersToolHandler principal services (args : SetWatchersArgs) : M S ToolResponse :=
  result ← ms_setWatchers services (mkSetWatchers (targetOf principal (xw_taskId args)) (xw_userIds args));
  resultResponse result watchersResult.
End handlers.

(** ** Descriptions *)

Definition skillGuidance : string :=
  "Follow the opzava-task-authoring skill: write human-readable task cards, use imperative or symptom-first titles under 72 characters, keep descriptions concise with context/impact/evidence, make steps verifiable, never invent assignees/watchers/due dates/evidence, and never treat tenant/user/workspace ids from tool arguments as authority.".
Definition createIdempotencyGuidance : string :=
  " For at-least-once safety, pass a stable idempotencyKey for each logical create and reuse it on retries.".

Definition descriptionForTool (name : OpzavaMcpToolName) : string :=
  match name with
  | OpTasksList =>
      "List Opzava tasks in the linked workspace. Optional status/limit filters are data filters only; tenant, workspace, and user authority comes from the link token. "
  | OpTasksGet =>
      "Load one Opzava live card with task, steps, comments, and watchers. Authority comes from the link token. "
  | OpTasksCreate =>
      "Create an Opzava task card in the linked workspace. Authority comes from the link token." +:+ createIdempotencyGuidance +:+ " "
  | OpTasksUpdate =>
      "Update task title, description, priority, labels, or status in the linked workspace. Authority comes from the link token. "
  | OpStepsCreate =>
      "Create one verifiable step on a task card in the linked workspace. Authority comes from the link token." +:+ createIdempotencyGuidance +:+ " "
  | OpStepsToggle => "Set one task step done/not-done in the linked workspace. Authority comes from the link token. "
  | OpStepsReorder =>
      "Reorder every current step on a task card in the linked workspace. Authority comes from the link token. "
  | OpCommentsAdd =>
      "Add a human-attributed task comment on behalf of the linked user. Authority comes from the link token." +:+ createIdempotencyGuidance +:+ " "
  | OpCommentsMarkRead =>
      "Mark task comments read on behalf of the linked user. Authority comes from the link token. "
  | OpQualityChecksAdd =>
      "Add a human quality check to a task card in the linked workspace. Authority comes from the link token." +:+ createIdempotencyGuidance +:+ " "
  | OpDueSet => "Set or clear a task due date in the linked workspace. Authority comes from the link token. "
  | OpWatchersSet => "Replace the task watcher set in the linked workspace. Authority comes from the link token. "
  end +:+ skillGuidance.
End McpTools.

Module McpServer.
Import McpTools.

(** ** The server *)

(** A tool as [server.registerTool] takes it: its hints are [readOnlyHint] or
    [destructiveHint] and [idempotentHint]. *)
Record RegisteredTool (S : Type) : Type := mkRegistered {
  rg_name : OpzavaMcpToolName;
  rg_title : string;
  rg_description : string;
  rg_inputSchema : tool_args rg_name → bool;
  rg_annotations : list (string * bool);
  rg_handler : tool_args rg_name → M S ToolResponse;
}.
Arguments mkRegistered {S}.
Arguments rg_name {S}.
Arguments rg_title {S}.
Arguments rg_description {S}.
Arguments rg_inputSchema {S}.
Arguments rg_annotations {S}.
Arguments rg_handler {S}.

Record OpzavaMcpRuntime (S : Type) : Type := mkRuntime {
  rn_server : list (RegisteredTool S); rn_principal : LinkTokenPrincipal; rn_toolNames : list OpzavaMcpToolName;
}.
Arguments mkRuntime {S}.
Arguments rn_server {S}.
Arguments rn_principal {S}.
Arguments rn_toolNames {S}.

(** The environment of a process, by name. *)
Definition ProcessEnv : Type := string → option string.

(** [L] is the state tokens are verified against, [S] the state of the tasks. *)
Record OpzavaMcpServerOptions (L S : Type) : Type := mkMcpOptions {
  mo_linkToken : option string;
  mo_env : option ProcessEnv;
  mo_verifyToken : option (VerifyLinkTokenInput → M L (Result LinkTokenPrincipal));
  mo_taskServices : option (OpzavaMcpTaskServices S);
}.
Arguments mkMcpOptions {L S}.
Arguments mo_linkToken {L S}.
Arguments mo_env {L S}.
Arguments mo_verifyToken {L S}.
Arguments mo_taskServices {L S}.

Definition linkTokenMissing : DomainError :=
  domain_error "mcp.linkTokenMissing" "OPZAVA_LINK_TOKEN is required for the Opzava MCP server.".

Definition token_variable : string := "OPZAVA_LINK_TOKEN".

Section server.
Context {L S : Type} `{SchemaFormats}.
Context (process_env : ProcessEnv).
Implicit Types (options : OpzavaMcpServerOptions L S) (principal : LinkTokenPrincipal).

(** [a ?? b] of texts. *)
Definition or_else (a b : option string) : option string := match a with Some s => Some s | None => b end.

Definition readLinkToken options : string + DomainError :=
  match or_else (mo_linkToken options) (or_else (mo_env options ≫= λ env, env token_variable) (process_env token_variable)) with
  | Some token => if String.eqb (trim token) "" then inr linkTokenMissing else inl (trim token)
  | None => inr linkTokenMissing
  end.

Definition hasScope principal (scope : string) : bool := bool_decide (scope ∈ lp_scopes principal).

Definition read_hints : list (string * bool) := [("readOnlyHint", true); ("openWorldHint", false)].
Definition write_hints (idempotent : bool) : list (string * bool) :=
  [("destructiveHint", false); ("idempotentHint", idempotent); ("openWorldHint", false)].

Definition tool (name : OpzavaMcpToolName) (title : string) (schema : tool_args name → bool) (hints : list (string * bool))
    (handler : tool_args name → M S ToolResponse) : RegisteredTool S :=
  mkRegistered name title (descriptionForTool name) schema hints handler.

Definition readTools principal (services : OpzavaMcpTaskServices S) : list (RegisteredTool S) := [
  tool OpTasksList "List Opzava Tasks" listTasksSchema read_hints (listToolHandler principal services);
  tool OpTasksGet "Get Opzava Task Card" getTaskSchema read_hints (getToolHandler principal services)].

Definition writeTools principal (services : OpzavaMcpTaskServices S) : list (RegisteredTool S) := [
  tool OpTasksCreate "Create Opzava Task" createTaskSchema (write_hints false) (createToolHandler principal services);
  tool OpTasksUpdate "Update Opzava Task" updateTaskSchema (write_hints false) (updateToolHandler principal services);
  tool OpStepsCreate "Create Opzava Task Step" createStepSchema (write_hints false) (createStepToolHandler principal services);
  tool OpStepsToggle "Toggle Opzava Task Step" toggleStepSchema (write_hints true) (toggleStepToolHandler principal services);
  tool OpStepsReorder "Reorder Opzava Task Steps" reorderStepsSchema (write_hints true)
    (reorderStepsToolHandler principal services);
  tool OpCommentsAdd "Add Opzava Task Comment" addCommentSchema (write_hints false) (addCommentToolHandler principal services);
  tool OpCommentsMarkRead "Mark Opzava Task Comments Read" markCommentsReadSchema (write_hints true)
    (markCommentsReadToolHandler principal services);
  tool OpQualityChecksAdd "Add Opzava Task Quality Check" addQualityCheckSchema (write_hints false)
    (addQualityCheckToolHandler principal services);
  tool OpDueSet "Set Opzava Task Due Date" setDueSchema (write_hints true) (setDueToolHandler principal services);
  tool OpWatchersSet "Set Opzava Task Watchers" setWatchersSchema (write_hints true)
    (setWatchersToolHandler principal services)].

Definition served principal (services : OpzavaMcpTaskServices S) : OpzavaMcpRuntime S :=
  let reads := hasScope principal "tasks:read" in
  let writes := hasScope principal "tasks:write" in
  mkRuntime ((if reads then readTools principal services else []) ++ (if writes then writeTools principal services else []))
    principal ((if reads then readToolNames else []) ++ (if writes then writeToolNames else [])).

(** The imports of [server.ts] are arguments: [verifyLinkToken] and the task services. *)
Definition createOpzavaMcpServer (verifyLinkToken : VerifyLinkTokenInput → M L (Result LinkTokenPrincipal))
    (defaultTaskServices : OpzavaMcpTaskServices S) options : M L (OpzavaMcpRuntime S) :=
  match readLinkToken options with
  | inr error => throw (ExnDomain error)
  | inl token =>
      let verify := default verifyLinkToken (mo_verifyToken options) in
      verified ← verify (mkVerifyLinkToken token None);
      match verified with
      | err error => throw (ExnDomain error)
      | ok principal => mret (served principal (default defaultTaskServices (mo_taskServices options)))
      end
  end.

(** ** Calls

    The protocol library runs the handler registered under the name of a call when
    the schema of the tool admits its arguments; otherwise it answers itself. *)
Fixpoint call_tool (tools : list (RegisteredTool S)) (name : OpzavaMcpToolName) (args : tool_args name)
    : M S (option ToolResponse) :=
  match tools with
  | [] => mret None
  | t :: tools =>
      match decide (name = rg_name t) with
      | left Heq =>
          let args := eq_rect name tool_args args (rg_name t) Heq in
          if rg_inputSchema t args then response ← rg_handler t args; mret (Some response) else mret None
      | right _ => call_tool tools name args
      end
  end.
End server.
End McpServer.
