(* ===== verification/McpTheorems.v ===== *)
(** * MCP server: what a linked client can do

    Every call of a tool is a sequence of task commands made for the principal of
    the token; from there, what a session of calls can and cannot do to the tables,
    whom a server acts for, and what its responses say. *)
From S2P Require Import Prelude JsString JsValue SharedKernel Effects DevBoardDomain JsText RuntimeDomain RuntimeInvariant.
From S2P Require Import TenantContext RuntimeSql RuntimeTables Authorization TaskDomain TaskSql TaskInputs TaskServices TaskReviews.
From S2P Require Import TaskTables TaskFrame TaskCommands TaskInvariant TaskGoverned TaskDone TaskHistory.
From S2P Require Import JsJson IssueSql LinkTokens LinkTables LinkTheorems McpServer.
From Stdlib Require Import RelationClasses.
Import TaskServices TaskReviews LinkTokens McpTools McpServer.

(** ** Calls as commands *)

(** Every element of a list that is written out. *)
Ltac all_of := repeat (apply Forall_cons_2; [done|]); apply Forall_nil_2.

(** The commands a tool may send for a principal. *)
Definition mcp_command (principal : LinkTokenPrincipal) (c : task_command) : Prop :=
  command_context c = Some (taskContext principal) ∧
  match c with
  | CmdCreateTask _ | CmdListTasks _ | CmdGetTask _ | CmdUpdateTask _ | CmdMoveTask _ | CmdCreateStep _ | CmdToggleStep _
  | CmdReorderSteps _ | CmdAddComment _ | CmdSetDue _ | CmdSetWatchers _ | CmdMarkCommentsRead _ | CmdAddCheck _
  | CmdCardDetail _ => True
  | _ => False
  end.

Definition read_command (c : task_command) : Prop :=
  match c with CmdListTasks _ | CmdGetTask _ | CmdCardDetail _ => True | _ => False end.

Section calls.
Context {S : Type} `{TaskDriver S} `{TenantDatabase} `{NodeDates} `{OpaqueTexts} `{OpaqueNumbers} `{UrlParser} `{SchemaFormats}.

(** The state a sequence of commands leaves. *)
Definition run_all (cs : list task_command) (s : S) : S :=
  foldl (λ s c, (run_command c no_dependencies s).2) s cs.

(** The effect of a call: admitted commands, only reads among them when [reads]. *)
Definition commands {A} (principal : LinkTokenPrincipal) (reads : bool) (m : M S A) : Prop :=
  ∀ s, ∃ cs, length cs <= 3 ∧ Forall (mcp_command principal) cs ∧ (reads = true → Forall read_command cs) ∧ (m s).2 = run_all cs s.

Lemma stateless_respond isError payload : stateless (respond isError payload : M S ToolResponse).
Proof. unfold respond. repeat case_match; first [apply stateless_ret|apply stateless_throw]. Qed.

Lemma stateless_resultResponse {A} (r : Result A) f : stateless (resultResponse r f : M S ToolResponse).
Proof. destruct r; apply stateless_respond. Qed.

Lemma stateless_tail {A B} (m : M S A) (k : A → M S B) s : (∀ a, stateless (k a)) → ((m ≫= k) s).2 = (m s).2.
Proof.
  intros Hk. unfold mbind, M_bind. destruct (m s) as [[a|e] s1]; [|done]. destruct (Hk a) as [r Hr]. by rewrite Hr.
Qed.

Lemma commands_nothing {A} principal reads (a : A) : commands principal reads (mret a).
Proof. intros s. exists []. split_and!; try done. simpl. lia. Qed.

(** One command, whose answer becomes a response. *)
Lemma commands_one {A B} principal reads c (m : M S A) (k : A → M S B) :
  mcp_command principal c → (reads = true → read_command c) → (∀ a, stateless (k a)) →
  run_command c no_dependencies = (_ ← m; mret tt) → commands principal reads (m ≫= k).
Proof.
  intros Hc Hr Hk Heq s. exists [c]. split_and!; [simpl; lia|all_of|intros Hreads; apply Forall_singleton; auto|].
  rewrite stateless_tail by done. simpl. rewrite Heq. rewrite stateless_tail; [done|]. intros a. apply stateless_ret.
Qed.

Lemma run_command_step {A} c (m : M S A) s : run_command c no_dependencies = (_ ← m; mret tt) →
  (run_command c no_dependencies s).2 = (m s).2.
Proof. intros ->. rewrite stateless_tail; [done|]. intros a. apply stateless_ret. Qed.

Lemma commands_update principal args :
  commands principal false (updateToolHandler principal defaultTaskServices args).
Proof.
  intros s. unfold updateToolHandler.
  set (get := CmdGetTask (targetOf principal (xu_taskId args))).
  assert (mcp_command principal get) as Hget by done.
  pose proof (run_command_step get _ s eq_refl) as Hg. unfold mbind, M_bind.
  change (ms_getTask defaultTaskServices) with (λ i, getTask i (no_dependencies (S := S))). cbv beta.
  destruct (getTask _ no_dependencies s) as [[[task|e]|e] s1]; cbn [snd] in Hg.
  2:{ exists [get]. split_and!; [simpl; lia|all_of|done|].
      destruct (stateless_respond true (error_payload e)) as [r Hr]. unfold errorResponse. rewrite Hr. by symmetry. }
  2:{ exists [get]. split_and!; [simpl; lia|all_of|done|]. by symmetry. }
  unfold update_loaded. match goal with |- context [ms_updateTask defaultTaskServices ?i] => set (input := i) end.
  assert (mcp_command principal (CmdUpdateTask input)) as Hupd by done.
  pose proof (run_command_step (CmdUpdateTask input) _ s1 eq_refl) as Hu. unfold mbind, M_bind.
  change (ms_updateTask defaultTaskServices) with (λ i, updateTask i (no_dependencies (S := S))). cbv beta.
  destruct (updateTask input no_dependencies s1) as [[[task'|e]|e] s2]; cbn [snd] in Hu.
  2:{ exists [get; CmdUpdateTask input]. split_and!; [simpl; lia|all_of|done|].
      destruct (stateless_respond true (error_payload e)) as [r Hr]. unfold errorResponse. rewrite Hr. unfold run_all. cbn [foldl]. by rewrite Hg, Hu. }
  2:{ exists [get; CmdUpdateTask input]. split_and!; [simpl; lia|all_of|done|]. unfold run_all. cbn [foldl]. by rewrite Hg, Hu. }
  assert (∃ cs, length cs <= 3 ∧ Forall (mcp_command principal) cs ∧ (false = true → Forall read_command cs)
     ∧ ((okResponse (taskDtoResult task') : M S ToolResponse) s2).2 = run_all cs s) as Hsame.
  { exists [get; CmdUpdateTask input]. split_and!; [simpl; lia|all_of|done|].
    destruct (stateless_respond false (ok_payload (taskDtoResult task'))) as [r Hr]. unfold okResponse. rewrite Hr.
    unfold run_all. cbn [foldl]. by rewrite Hg, Hu. }
  destruct (writable_status <$> xu_status args) as [status|]; [|exact Hsame]. case_decide; [exact Hsame|].
  match goal with |- context [ms_moveTask defaultTaskServices ?i] => set (move := i) end.
  exists [get; CmdUpdateTask input; CmdMoveTask move]. split_and!; [done|all_of|done|].
  change (run_all _ s) with (run_command (CmdMoveTask move) no_dependencies
    (run_command (CmdUpdateTask input) no_dependencies (run_command get no_dependencies s).2).2).2.
  rewrite Hg, Hu, (run_command_step (CmdMoveTask move) _ s2 eq_refl).
  apply (stateless_tail (moveTask move no_dependencies)). intros a. apply stateless_resultResponse.
Qed.

(** *** Registered tools *)

Definition registered (principal : LinkTokenPrincipal) (reads : bool) (t : RegisteredTool S) : Prop :=
  ∀ args, commands principal reads (rg_handler t args).

(** A tool that sends one command of the given service. *)
Ltac one_command c :=
  intros args; eapply (commands_one _ _ (c _)); [| | |reflexivity];
  [done|done|intros [?|?]; first [apply stateless_resultResponse|apply stateless_respond]].

Lemma registered_reads principal : Forall (registered principal true) (readTools principal defaultTaskServices).
Proof.
  apply Forall_cons_2; [one_command CmdListTasks|apply Forall_singleton; one_command CmdCardDetail].
Qed.

Lemma registered_writes principal : Forall (registered principal false) (writeTools principal defaultTaskServices).
Proof.
  apply Forall_cons_2; [one_command CmdCreateTask|]. apply Forall_cons_2; [intros args; apply commands_update|].
  apply Forall_cons_2; [one_command CmdCreateStep|]. apply Forall_cons_2; [one_command CmdToggleStep|].
  apply Forall_cons_2; [one_command CmdReorderSteps|]. apply Forall_cons_2; [one_command CmdAddComment|].
  apply Forall_cons_2; [one_command CmdMarkCommentsRead|]. apply Forall_cons_2; [one_command CmdAddCheck|].
  apply Forall_cons_2; [one_command CmdSetDue|apply Forall_singleton; one_command CmdSetWatchers].
Qed.

Lemma registered_served principal :
  Forall (registered principal (negb (hasScope principal "tasks:write"))) (rn_server (served principal defaultTaskServices)).
Proof.
  simpl. apply Forall_app. split.
  - destruct (hasScope principal "tasks:read"); [|done]. eapply Forall_impl; [apply registered_reads|].
    intros t Ht args s. destruct (Ht args s) as (cs & ? & ? & Hr & ?). exists cs. split_and!; auto.
  - destruct (hasScope principal "tasks:write"); [|done]. apply registered_writes.
Qed.

Lemma call_commands principal reads tools name args :
  Forall (registered principal reads) tools → commands principal reads (call_tool tools name args).
Proof.
  induction 1 as [|t tools Ht Htools IH]; [apply commands_nothing|]. simpl.
  destruct (decide (name = rg_name t)) as [->|Hne]; [|apply IH]. simpl. destruct (rg_inputSchema t args).
  - intros s. rewrite stateless_tail; [apply Ht|]. intros r. apply stateless_ret.
  - apply commands_nothing.
Qed.

Lemma has_scope principal scope : hasScope principal scope = true ↔ scope ∈ lp_scopes principal.
Proof. apply bool_decide_eq_true. Qed.
Lemma lacks_scope principal scope : scope ∉ lp_scopes principal → hasScope principal scope = false.
Proof. apply bool_decide_eq_false. Qed.

(** A tool that is not registered is not run. *)
Lemma call_unknown (tools : list (RegisteredTool S)) name args s :
  name ∉ rg_name <$> tools → call_tool tools name args s = (Returned None, s).
Proof.
  induction tools as [|t tools IH]; [done|]. intros Hn. simpl in *. apply not_elem_of_cons in Hn as [Hne Hn].
  destruct (decide (name = rg_name t)); [done|]. by apply IH.
Qed.

Lemma served_names principal services :
  rg_name <$> rn_server (served (S := S) principal services) = rn_toolNames (served (S := S) principal services).
Proof. simpl. rewrite fmap_app. by destruct (hasScope principal "tasks:read"), (hasScope principal "tasks:write"). Qed.

(** C14. The tools are the task services, and nothing more: whatever driver is behind
    the services, every call of a tool leaves exactly the state that at most three
    commands of the tools' services leave, one after the other, each in the
    organization, the workspace and the name of the principal, whatever authority the
    arguments name; a token without the scope to write sends only reads; and a tool of
    a scope the token does not have is not run. *)
Theorem mcp_calls_are_commands principal name (args : tool_args name) s r s' :
  let runtime := served principal defaultTaskServices in
  call_tool (rn_server runtime) name args s = (r, s') →
  (∃ cs, length cs <= 3 ∧ Forall (mcp_command principal) cs ∧ s' = run_all cs s ∧
     ("tasks:write" ∉ lp_scopes principal → Forall read_command cs)) ∧
  (name ∉ rn_toolNames runtime → r = Returned None ∧ s' = s) ∧
  (name ∈ rn_toolNames runtime ↔
     (name ∈ readToolNames ∧ "tasks:read" ∈ lp_scopes principal) ∨
     (name ∈ writeToolNames ∧ "tasks:write" ∈ lp_scopes principal)).
Proof.
  intros runtime Hrun. split_and!.
  - destruct (call_commands _ _ _ name args (registered_served principal) s) as (cs & Hl & Hc & Hr & Hs).
    unfold runtime in Hrun. rewrite Hrun in Hs. exists cs. split_and!; try done. intros Hw. apply Hr. by rewrite lacks_scope.
  - intros Hn. unfold runtime in *. rewrite call_unknown in Hrun; [by injection Hrun as <- <-|]. by rewrite served_names.
  - unfold runtime. rewrite <- !has_scope. simpl.
    destruct (hasScope principal "tasks:read"), (hasScope principal "tasks:write"); simpl; set_solver.
Qed.
End calls.

(** ** What a session does to the tables *)

(** A step that is no act of governance: no task becomes Done, no review becomes
    approved, and no confirmation is issued, consumed or removed. *)
Record ungoverned (s s' : task_tables) : Prop := {
  un_done : no_new_done s s';
  un_approved : ∀ r, r ∈ tb_reviews s' → qr_status r = QrApproved → r ∈ tb_reviews s;
  un_confirmations : tb_confirmations s' = tb_confirmations s;
}.

#[export] Instance ungoverned_preorder : PreOrder ungoverned.
Proof.
  split; [by intros s; split; [intros id| |]|]. intros s s1 s2 [D R C] [D' R' C']. split; [intros id Hd; by apply D, D'|auto|congruence].
Qed.

(** The statements that govern. *)
Definition governs (q : task_statement) : Prop :=
  finishes q ∨
  match q with
  | ApproveReview _ _ _ _ | InsertConfirmation _ _ _ | DeleteConfirmations | ConsumeConfirmation _ _ _ _ _ _ => True
  | _ => False
  end.

Section sessions.
Context `{PostgresHost} `{!PostgresUuids} `{TenantDatabase} `{NodeDates} `{OpaqueTexts} `{OpaqueNumbers} `{UrlParser} `{SchemaFormats}.
Implicit Types (s : task_tables) (principal : LinkTokenPrincipal).

Lemma change_ungoverned me q s s' : change_of me s q s' → ¬ governs q → ungoverned s s'.
Proof.
  intros Hch Hq. split; [by apply (change_no_new_done me q); [|intros Hf; apply Hq; left]| |].
  - destruct Hch as [q s' Hs| | | | | | | | | | ]; try done.
    + by rewrite (rule_reviews _ _ _ Hs).
    + intros r' [Hr'|Hr'%list_elem_of_singleton]%elem_of_app Ha; [done|]. congruence.
    + intros r' (r & Hr & [[_ ->]|[_ ->]])%elem_of_update_where Ha; [|done]. by simpl in Ha.
    + destruct Hq. by right.
  - destruct Hch as [q s' Hs| | | | | | | | | | ]; try done; try (by destruct Hq; right).
    by rewrite (rule_confirmations _ _ _ Hs).
Qed.

Lemma execute_ungoverned tenant q s : ¬ governs q → ungoverned s (execute_tables tenant q s).2.
Proof.
  intros Hq. destruct (uuid_in tenant) as [me|] eqn:Hme; [|by rewrite execute_unknown].
  by eapply change_ungoverned; [apply execute_changes|].
Qed.

Lemma mcp_ungoverned principal c s : mcp_command principal c → ungoverned s (run_command c no_dependencies s).2.
Proof.
  intros [_ Hc]. apply (sends_command no_dependencies eq_refl c ungoverned); [apply _|].
  intros tenant q t (_ & [Ha|[_ [Hr|Hw]]]); apply execute_ungoverned; unfold governs.
  - destruct c, q; try done; by intros [Hf|Hf].
  - destruct q; try done; by intros [Hf|Hf].
  - destruct c, q; simpl in *; try done; naive_solver.
Qed.

Lemma mcp_others principal c s me :
  mcp_command principal c → uuid_in (lp_orgId principal) = Some me → others_kept me s (run_command c no_dependencies s).2.
Proof.
  intros [Hcx Hc] Hme. apply command_others; [done|]. unfold command_org. rewrite Hcx. by destruct c.
Qed.

Lemma read_command_state c s : read_command c → (run_command c no_dependencies s).2 = s.
Proof.
  intros Hc. symmetry. apply (sends_command no_dependencies eq_refl c eq); [apply _|].
  intros tenant q t (_ & [Ha|[_ [Hr|Hw]]]); [by destruct c, q|symmetry; by apply execute_read|by destruct c, q].
Qed.

Lemma run_all_along (R : relation task_tables) (P : task_command → Prop) cs s :
  PreOrder R → (∀ c s, P c → R s (run_command c no_dependencies s).2) → Forall P cs → R s (run_all cs s).
Proof.
  intros HR Hc Hcs. revert s. induction Hcs as [|c cs Hp Hcs IH]; intros s; [reflexivity|]. simpl.
  etransitivity; [by apply Hc|apply IH].
Qed.

(** A session: the calls a client makes, one after the other. *)
Definition mcp_call : Type := {name : OpzavaMcpToolName & tool_args name}.
Definition run_calls (tools : list (RegisteredTool task_tables)) (calls : list mcp_call) (s : task_tables) : task_tables :=
  foldl (λ s c, (call_tool tools (projT1 c) (projT2 c) s).2) s calls.

Lemma run_calls_along (R : relation task_tables) principal calls s :
  PreOrder R → (∀ c s, mcp_command principal c → R s (run_command c no_dependencies s).2) →
  R s (run_calls (rn_server (served principal defaultTaskServices)) calls s).
Proof.
  intros HR Hc. revert s. induction calls as [|[name args] calls IH]; intros s; [reflexivity|]. simpl.
  etransitivity; [|apply IH]. simpl.
  destruct (call_commands _ _ _ name args (registered_served principal) s) as (cs & _ & Hcs & _ & Hs).
  simpl in Hs. rewrite Hs. by apply (run_all_along R (mcp_command principal)).
Qed.

(** C15. A linked client cannot govern: whatever tools it calls, in whatever order and
    with whatever arguments, no task becomes Done that was not, no review becomes
    approved that was not, no confirmation is issued, consumed or removed, and the
    rows of every other organization stay as they are. *)
Theorem linked_sessions_do_not_govern principal calls s me :
  uuid_in (lp_orgId principal) = Some me →
  let s' := run_calls (rn_server (served principal defaultTaskServices)) calls s in
  (∀ id, done_in s' id → done_in s id) ∧
  (∀ r, r ∈ tb_reviews s' → qr_status r = QrApproved → r ∈ tb_reviews s) ∧
  tb_confirmations s' = tb_confirmations s ∧ others_kept me s s'.
Proof.
  intros Hme s'.
  assert (ungoverned s s') as [Hd Hr Hc] by (apply (run_calls_along ungoverned); [apply _|intros; by eapply mcp_ungoverned]).
  assert (others_kept me s s') as Ho by (apply (run_calls_along (others_kept me)); [apply _|intros; by eapply mcp_others]).
  done.
Qed.

(** ** Updating a card *)

Lemma bind_ok_stateless {A B} (m : M task_tables (Result A)) (k1 k2 : Result A → M task_tables (Result B)) s b s1 :
  stateless m → (∀ e, k1 (err e) s = (Returned (err e), s)) → (m ≫= k1) s = (Returned (ok b), s1) →
  ∃ a, k1 (ok a) s = (Returned (ok b), s1) ∧ (m ≫= k2) s = k2 (ok a) s.
Proof.
  intros [r Hr] Herr. unfold mbind, M_bind. rewrite Hr. destruct r as [[a|e]|e]; [by exists a| |done].
  by rewrite Herr.
Qed.

(** The guards of a task that have let one call through let every call through. *)
Lemma known_task_passed {A B} target (b1 : M task_tables (Result A)) (b2 : M task_tables (Result B)) s a s1 :
  known_task target b1 s = (Returned (ok a), s1) → known_task target b2 s = b2 s.
Proof.
  unfold known_task, known, mbind, M_bind.
  destruct (stateless_assertKnownIds (S := task_tables) (tg_context target)) as [r Hr]. rewrite Hr.
  destruct r as [[[]|e]|e]; simpl; [|done..].
  destruct (stateless_assertKnownTaskId (S := task_tables) (tg_taskId target)) as [r' Hr']. rewrite Hr'.
  by destruct r' as [[[]|e]|e].
Qed.

Lemma prepare_other_assignee title description priority u labels actor due source ref :
  trim u ≠ "" → trim u ≠ actor →
  ∃ e, prepareTaskFields title description priority (Some u) labels actor due source ref = err e.
Proof.
  intros Hblank Hactor. unfold prepareTaskFields.
  destruct (normalizeTaskTitle title); [|by eexists]. destruct (normalizeTaskDescription _); [|by eexists].
  destruct (parseTaskPriority priority); [|by eexists]. unfold normalizeAssignee, blank. simpl.
  apply String.eqb_neq in Hblank, Hactor. rewrite Hblank, Hactor. by eexists.
Qed.

Lemma updateTask_other_assignee {A} i (b : M task_tables (Result A)) s a s1 u :
  known_task (mkTarget (pt_context i) (pt_taskId i)) b s = (Returned (ok a), s1) → pt_assigneeUserId i = Some u →
  trim u ≠ "" → trim u ≠ tk_userId (tc_actor (pt_context i)) →
  ∃ e, updateTask i no_dependencies s = (Returned (err e), s).
Proof.
  intros Hk Hu Hblank Hactor. unfold updateTask. rewrite (known_task_passed _ _ _ s a s1 Hk), Hu.
  destruct (prepare_other_assignee (pt_title i) (pt_description i) (pt_priority i) u (pt_labels i) _ DueNone None None Hblank Hactor)
    as [e ->]. by exists e.
Qed.

(** C17. A client cannot update the card of somebody else: when the card is assigned
    to another user than the one the client is linked to, the tool answers an error
    and changes nothing, whatever fields the call gives and even when it leaves the
    assignee alone, because the tool writes the assignee it has loaded back through
    a service that lets an actor assign only itself. *)
Theorem cards_of_others_are_not_updated principal (args : UpdateTaskArgs) s card s1 u :
  getTask (targetOf principal (xu_taskId args)) no_dependencies s = (Returned (ok card), s1) →
  td_assigneeUserId card = Some u → trim u ≠ "" → trim u ≠ lp_actorUserId principal →
  ∃ e, updateToolHandler principal defaultTaskServices args s = errorResponse e s.
Proof.
  intros Hget Hu Hblank Hactor. pose proof Hget as Hstate. apply reading_state in Hstate as ->.
  2:{ eapply sends_mono; [|apply (sends_getTask no_dependencies)].
      intros tenant q (_ & [Ha|[_ [Hr|Hw]]]); [by destruct q|done|by destruct q]. }
  unfold updateToolHandler, mbind at 1, M_bind at 1. simpl ms_getTask. rewrite Hget.
  unfold update_loaded. match goal with |- context [ms_updateTask defaultTaskServices ?i] => set (input := i) end.
  destruct (updateTask_other_assignee input _ s card s u Hget Hu Hblank Hactor) as [e He]. exists e.
  unfold mbind at 1, M_bind at 1. simpl ms_updateTask. by rewrite He.
Qed.

(** An update of a row that answers has run its statement, and nothing else. *)
Lemma update_row_ok cx code message q missing s t s' :
  update_row cx code message q missing rowToTaskDto s = (Returned (ok t), s') →
  ∃ result, execute_tables (tc_orgId cx) q s = (Returned result, s').
Proof.
  unfold update_row, attempt, try_catch. destruct (inTransaction _ _ s) as [[a|e] s1] eqn:Ht; [|done].
  intros [= -> ->]. apply inTransaction_returned in Ht. apply bind_returned in Ht as (row & s1 & Hrow & Hd).
  assert (s' = s1) as ->.
  { destruct row as [row|]; [|done]. apply stateless_bind_returned in Hd as (x & _ & Hd); [|auto with stateless].
    by injection Hd as _ <-. }
  apply bind_returned in Hrow as (result & s2 & Hrow & Hret). injection Hret as _ <-. by exists result.
Qed.

(** Splits the run of a statement that updates the rows of a task. *)
Ltac updated_row Hrun :=
  unfold execute_tables, uuid_arg, check_sql, update_task, mbind, M_bind, get_state, change, sql_error, throw in Hrun;
  repeat match type of Hrun with
    | context [match uuid_in ?t with _ => _ end] => destruct (uuid_in t) eqn:?; [|done]
    end;
  case_decide; [|done]; injection Hrun as _ <-.

Lemma updateTask_ok i s t s' :
  updateTask i no_dependencies s = (Returned (ok t), s') →
  ∃ me k w fields, uuid_in (tc_orgId (pt_context i)) = Some me ∧ uuid_in (pt_taskId i) = Some k ∧
    uuid_in (tc_workspaceId (pt_context i)) = Some w ∧
    prepareTaskFields (pt_title i) (pt_description i) (pt_priority i) (pt_assigneeUserId i) (pt_labels i)
      (tk_userId (tc_actor (pt_context i))) DueNone None None = ok fields ∧
    s' = on_tasks (update_where (is_task me k w) (set_fields (pf_title fields) (pf_description fields) (pf_priority fields)
           (pf_assigneeUserId fields) (pf_labels fields) (tb_now s))) s.
Proof.
  unfold updateTask. intros (fields & Hf & [_ (result & Hrun)%update_row_ok]%authorized_ok)%known_task_ok%require_ok.
  updated_row Hrun. by eexists _, _, _, fields.
Qed.

Lemma moveTask_ok i s t s' :
  moveTask i no_dependencies s = (Returned (ok t), s') →
  ∃ me k w status position, uuid_in (tc_orgId (mv_context i)) = Some me ∧ uuid_in (mv_taskId i) = Some k ∧
    uuid_in (tc_workspaceId (mv_context i)) = Some w ∧
    s' = on_tasks (update_where (is_task me k w) (set_place status position (tb_now s))) s.
Proof.
  unfold moveTask. intros (status & _ & Hrun)%known_task_ok%require_ok. destruct (isTerminalTaskStatus status).
  { apply bind_returned in Hrun as (u & s1 & _ & Hrun). done. }
  apply require_ok in Hrun as (position & _ & [_ (result & Hrun)%update_row_ok]%authorized_ok).
  updated_row Hrun. by eexists _, _, _, status, position.
Qed.

(** The fields an update writes. *)
Definition written (x : task_rec) : string * string * TaskPriority * option string * list string :=
  (tr_title x, tr_description x, tr_priority x, tr_assignee x, tr_labels x).

Lemma response_error m payload s r s' : (respond m payload : M task_tables _) s = (Returned r, s') → rs_isError r = m ∧ s' = s.
Proof. unfold respond. repeat case_match; intros [=]; by subst. Qed.

(** C18. An update writes back what it has loaded: when the tool answers a success,
    the card has the fields of the call, and for every field the call leaves out the
    one the tool had loaded before, whatever the tables held in between; what another
    request has committed since the load is lost. *)
Theorem updates_write_back_what_they_loaded principal (args : UpdateTaskArgs) loaded s r s' :
  update_loaded principal defaultTaskServices args loaded s = (Returned r, s') → rs_isError r = false →
  ∃ me k w fields, uuid_in (lp_orgId principal) = Some me ∧ uuid_in (xu_taskId args) = Some k ∧
    uuid_in (lp_workspaceId principal) = Some w ∧
    prepareTaskFields (default (td_title loaded) (xu_title args)) (Some (default (td_description loaded) (xu_description args)))
      (JStr (taskPriority_str (default (td_priority loaded) (xu_priority args)))) (td_assigneeUserId loaded)
      (Some (default (td_labels loaded) (xu_labels args))) (lp_actorUserId principal) DueNone None None = ok fields ∧
    ∀ x, x ∈ tb_tasks s' → is_task me k w x →
      written x = (pf_title fields, pf_description fields, pf_priority fields, pf_assigneeUserId fields, pf_labels fields).
Proof.
  unfold update_loaded. intros (updated & s1 & Hupd & Hrun)%bind_returned Hok.
  destruct updated as [task|e]; [|apply response_error in Hrun as [Herr _]; congruence].
  apply updateTask_ok in Hupd as (me & k & w & fields & Hme & Hk & Hw & Hf & ->). simpl in Hme, Hk, Hw, Hf.
  exists me, k, w, fields. split_and!; try done.
  set (value := (pf_title fields, _, _, _, _)).
  assert (Hone : ∀ s0 x, x ∈ update_where (is_task me k w) (set_fields (pf_title fields) (pf_description fields)
    (pf_priority fields) (pf_assigneeUserId fields) (pf_labels fields) (tb_now s0)) (tb_tasks s) → is_task me k w x → written x = value).
  { intros s0 x (y & _ & [[_ ->]|[Hy ->]])%elem_of_update_where Hx; [done|by destruct Hy]. }
  assert (Hsame : ∀ payload, (respond false payload : M task_tables _) (on_tasks (update_where (is_task me k w)
    (set_fields (pf_title fields) (pf_description fields) (pf_priority fields) (pf_assigneeUserId fields) (pf_labels fields)
       (tb_now s))) s) = (Returned r, s') → ∀ x, x ∈ tb_tasks s' → is_task me k w x → written x = value).
  { intros payload [_ ->]%response_error. apply Hone. }
  destruct (writable_status <$> xu_status args) as [status|]; [|exact (Hsame _ Hrun)].
  case_decide; [exact (Hsame _ Hrun)|]. apply bind_returned in Hrun as (moved & s2 & Hmove & Hrun).
  destruct moved as [task'|e]; apply response_error in Hrun as [Herr ->]; [|congruence].
  apply moveTask_ok in Hmove as (me' & k' & w' & st & pos & _ & _ & _ & ->).
  intros x (y & Hy & [[_ ->]|[_ ->]])%elem_of_update_where Hx; [|exact (Hone _ _ Hy Hx)].
  change (written (set_place st pos _ y)) with (written y). exact (Hone _ _ Hy Hx).
Qed.

(** ** Whom a server acts for *)

Context `{NodeRuntime} `{TokenSecrets} `{TokenCodec} `{JsonNumbers}.
Implicit Types (l : link_tables) (options : OpzavaMcpServerOptions link_tables task_tables).

(** A server of the token services and of the task services. *)
Definition started env options l runtime l' : Prop :=
  mo_verifyToken options = None ∧ mo_taskServices options = None ∧
  createOpzavaMcpServer env verifyLinkToken defaultTaskServices options l = (Returned runtime, l').

Lemma started_run env options l runtime l' :
  started env options l runtime l' →
  ∃ token, readLinkToken env options = inl token ∧
    verifyLinkToken (mkVerifyLinkToken token None) l = (Returned (ok (rn_principal runtime)), l') ∧
    runtime = served (rn_principal runtime) defaultTaskServices.
Proof.
  intros (Hv & Ht & Hrun). unfold createOpzavaMcpServer in Hrun. rewrite Hv, Ht in Hrun. simpl in Hrun.
  destruct (readLinkToken env options) as [token|e]; [|done]. exists token. split; [done|].
  apply bind_returned in Hrun as ([p|e] & l1 & Hver & Hrun); [|done]. injection Hrun as <- <-. by split.
Qed.

(** C16. A server acts for the record of its token: when a server starts, the table
    holds the hash of the token it was given, neither revoked nor expired, under a
    current membership and session; and whatever the client calls, every command is
    made in the organization and the workspace of that record, in the name of its
    user with the role keys of that user, whatever authority the arguments name. *)
Theorem servers_act_for_their_token env options l runtime l' name (args : tool_args name) s :
  expiries_readable l → started env options l runtime l' →
  ∃ token r, readLinkToken env options = inl token ∧ r ∈ lt_tokens l ∧ lr_hash r = hashToken token ∧
    lr_revoked r = None ∧ (lt_now l < lr_expires r)%Z ∧ current_membership l r ∧ current_session l r ∧
    ∃ cs, (call_tool (rn_server runtime) name args s).2 = run_all cs s ∧
      Forall (λ c, command_context c = Some (mkTaskContext (lr_org r) (lr_workspace r)
        (mkTaskActor (lr_user r) (role_keys (mkSettings (lr_org r) (Some (lr_user r))) (lr_org r) (lr_user r) l)))) cs.
Proof.
  intros Hread (token & Htoken & Hver & Hrt)%started_run.
  apply verify_run in Hver as (claims & scopes & _ & _ & _ & Hin).
  apply verify_in_sound in Hin as (r & Hr & Hhash & _ & _ & _ & _ & Hrev & Hlt & Hm & Hs & Hp).
  exists token, r. split_and!; try done.
  { apply Hlt. unfold expiries_readable in Hread. rewrite Forall_forall in Hread. by apply Hread. }
  rewrite Hrt. destruct (call_commands _ _ _ name args (registered_served (rn_principal runtime)) s) as (cs & _ & Hcs & _ & Hs').
  exists cs. split; [done|]. eapply Forall_impl; [exact Hcs|]. intros c [Hc _]. rewrite Hc, Hp. done.
Qed.

(** A token that may only read changes nothing: on a server started with a token
    whose record lacks the scope to write, no call changes the tables. *)
Theorem read_tokens_change_nothing env options l runtime l' calls s :
  started env options l runtime l' → "tasks:write" ∉ lp_scopes (rn_principal runtime) →
  run_calls (rn_server runtime) calls s = s.
Proof.
  intros (token & _ & _ & Hrt)%started_run Hw. rewrite Hrt. clear Hrt. revert Hw. generalize (rn_principal runtime) as p.
  intros p Hw%lacks_scope. symmetry. revert s. induction calls as [|[name args] calls IH]; intros s; [done|].
  change (s = run_calls (rn_server (served p defaultTaskServices)) calls
    (call_tool (rn_server (served p defaultTaskServices)) name args s).2).
  destruct (call_commands _ _ _ name args (registered_served p) s) as (cs & _ & _ & Hcs & Hs).
  rewrite Hw in Hcs. rewrite Hs.
  assert (s = run_all cs s) as Heq.
  { apply (run_all_along eq read_command); [apply _|intros c t Hc; symmetry; by apply read_command_state|by apply Hcs]. }
  rewrite <- Heq. apply IH.
Qed.
End sessions.

(** ** What a response says *)

Section responses.
Context {S : Type} `{SchemaFormats}.

(** The text of a response is that of its payload, which says whether it is an error. *)
Definition faithful (r : ToolResponse) : Prop :=
  jsonStringify (rs_structured r) = Some (Some (rs_text r)) ∧
  ((rs_isError r = false ∧ ∃ result, rs_structured r = ok_payload result) ∨
   (rs_isError r = true ∧ ∃ e, rs_structured r = error_payload e)).

Definition responds (m : M S ToolResponse) : Prop := ∀ s r s', m s = (Returned r, s') → faithful r.

Lemma responds_bind {A} (m : M S A) k : (∀ a, responds (k a)) → responds (m ≫= k).
Proof. intros Hk s r s' (a & s1 & _ & Ha)%bind_returned. by apply Hk in Ha. Qed.

Lemma responds_ok result : responds (okResponse result).
Proof.
  intros s r s' Hr. unfold okResponse, respond in Hr. destruct (jsonStringify _) as [[text|]|] eqn:Ht; [|done..].
  injection Hr as <- _. split; [done|]. left. split; [done|]. by exists result.
Qed.

Lemma responds_error e : responds (errorResponse e).
Proof.
  intros s r s' Hr. unfold errorResponse, respond in Hr. destruct (jsonStringify _) as [[text|]|] eqn:Ht; [|done..].
  injection Hr as <- _. split; [done|]. right. split; [done|]. by exists e.
Qed.

Lemma responds_result {A} (r : Result A) f : responds (resultResponse r f).
Proof. destruct r; [apply responds_ok|apply responds_error]. Qed.

Lemma served_responds principal (services : OpzavaMcpTaskServices S) :
  Forall (λ t, ∀ args, responds (rg_handler t args)) (rn_server (served principal services)).
Proof.
  assert (∀ args, responds (updateToolHandler principal services args)) as Hupdate.
  { intros args. apply responds_bind. intros [task|e]; [|apply responds_error].
    apply responds_bind. intros [task'|e]; [|apply responds_error].
    destruct (writable_status <$> xu_status args) as [status|]; [|apply responds_ok].
    case_decide; [apply responds_ok|]. apply responds_bind. intros moved. apply responds_result. }
  simpl. apply Forall_app. split.
  - destruct (hasScope principal "tasks:read"); [|apply Forall_nil_2].
    apply Forall_cons_2; [|apply Forall_singleton]; intros args; apply responds_bind; intros [a|e];
      first [apply responds_ok|apply responds_error].
  - destruct (hasScope principal "tasks:write"); [|apply Forall_nil_2].
    repeat (apply Forall_cons_2; [intros args; first [apply Hupdate|apply responds_bind; intros a; apply responds_result]|]).
    apply Forall_nil_2.
Qed.

Lemma call_responds (tools : list (RegisteredTool S)) name args s r s' :
  Forall (λ t, ∀ args, responds (rg_handler t args)) tools →
  call_tool tools name args s = (Returned (Some r), s') → faithful r.
Proof.
  induction 1 as [|t tools Ht Htools IH]; [done|]. simpl. destruct (decide (name = rg_name t)) as [->|]; [|apply IH].
  simpl. destruct (rg_inputSchema t args); [|done]. intros (x & s1 & Hx & Hr)%bind_returned.
  injection Hr as -> _. by apply (Ht args s r s1).
Qed.

Lemma plain_error e : plain (error_payload e) = true.
Proof. unfold error_payload. by destruct (publicCode e). Qed.

(** The two contents of a response agree: whatever services a server has, the
    text of every response a tool gives is read back as its structured content, when
    that is an error or its numbers are safe integers; and the response is marked as
    an error exactly when its content says it is not ok. *)
Theorem responses_read_back `{JsonNumbers} principal (services : OpzavaMcpTaskServices S) name (args : tool_args name) s r s' :
  call_tool (rn_server (served principal services)) name args s = (Returned (Some r), s') →
  (rs_isError r = true ∨ plain (rs_structured r) = true → json_parse (rs_text r) = Some (rs_structured r)) ∧
  match rs_structured r with JObj o => obj_get "ok" o = JBool (negb (rs_isError r)) | _ => False end.
Proof.
  intros Hrun. apply call_responds in Hrun; [|apply served_responds]. destruct Hrun as [Htext Hkind]. split.
  - intros Hplain. destruct (json_parse_stringify (rs_structured r)) as (t & Ht & Hp).
    { destruct Hplain as [Herr|]; [|done]. destruct Hkind as [[Hok _]|[_ [e ->]]]; [congruence|apply plain_error]. }
    congruence.
  - destruct Hkind as [[-> [result ->]]|[-> [e ->]]]; reflexivity.
Qed.
End responses.

(** ** Linked clients *)

Module McpExample.
Import LinkExample.

#[local] Existing Instance link_postgres.
#[local] Existing Instance link_uuids.
#[local] Existing Instance link_database.
#[local] Existing Instance link_dates.
#[local] Existing Instance link_texts.
#[local] Existing Instance link_numbers.
#[local] Existing Instance link_json.
#[local] Existing Instance link_runtime.
#[local] Existing Instance link_secrets.
#[local] Existing Instance link_codec.
#[local] Existing Instance TaskExample.example_urls.
#[local] Instance any_format : SchemaFormats := {| uuid_format _ := true; datetime_format _ := true |}.

Definition no_fields : optionalAuthorityFields := mkAuthorityFields None None None None None.
(** Fields that name another organization and another user. *)
Definition claimed : optionalAuthorityFields :=
  mkAuthorityFields (Some TaskExample.other_org) None None None (Some "user-root").

Definition client (user : string) : LinkTokenPrincipal :=
  mkLinkPrincipal org home user "session-1" "claude-code" ["tasks:read"; "tasks:write"] "token-1" 1 user ["member"].

Definition new_card : CreateTaskArgs :=
  mkCreateArgs "Fix the login" None (Some WsTodo) None None None None None (Some "k-mcp") claimed.
Definition card_id : string := TaskExample.numbered_uuid 0.
Definition retitle : UpdateTaskArgs := mkUpdateArgs card_id (Some "Fix the sign-in") None (Some WsInProgress) None None no_fields.
Definition human_check : AddQualityCheckArgs := mkCheckArgs card_id "Reviewed" (Some QkHuman) (Some QsPass) None None no_fields.

Definition tools_of (p : LinkTokenPrincipal) : list (RegisteredTool task_tables) := rn_server (served p defaultTaskServices).
Definition nothing : task_tables := empty_tables 0.

(** A member creates a card through the server: one command, for the member. *)
Lemma mcp_calls_are_commands_witness :
  let run := call_tool (tools_of (client "user-ada")) OpTasksCreate new_card nothing in
  (∃ cs, length cs <= 3 ∧ Forall (mcp_command (client "user-ada")) cs ∧ run.2 = run_all cs nothing) ∧
  tr_org <$> tb_tasks run.2 = [org].
Proof.
  intros run. split; [|vm_compute; reflexivity].
  destruct (mcp_calls_are_commands (client "user-ada") OpTasksCreate new_card nothing run.1 run.2 (surjective_pairing run))
    as [(cs & Hl & Hc & Hs & _) _].
  exists cs. exact (conj Hl (conj Hc Hs)).
Defined.

(** A session over a card with an approved review and a confirmation. *)
Definition session : list mcp_call :=
  [existT OpTasksUpdate retitle; existT OpQualityChecksAdd human_check; existT OpTasksCreate new_card].

Lemma linked_sessions_do_not_govern_witness :
  let s' := run_calls (tools_of (client "user-ada")) session TaskExample.prepared in
  tb_confirmations s' = tb_confirmations TaskExample.prepared ∧ others_kept org TaskExample.prepared s' ∧
  (tr_title <$> tb_tasks s') = ["Fix the sign-in"; "Fix the login"].
Proof.
  intros s'. assert (uuid_in (lp_orgId (client "user-ada")) = Some org) as Hme by reflexivity.
  destruct (linked_sessions_do_not_govern (client "user-ada") session TaskExample.prepared org Hme) as (_ & _ & Hc & Ho).
  split; [exact Hc|]. split; [exact Ho|]. vm_compute. reflexivity.
Defined.

(** *** Servers started with a token *)

Definition no_env : ProcessEnv := λ _, None.
Definition with_token (token : string) : OpzavaMcpServerOptions link_tables task_tables :=
  mkMcpOptions None (Some (λ name, if String.eqb name token_variable then Some token else None)) None None.

Lemma started_intro token l p l' :
  readLinkToken no_env (with_token token) = inl token →
  verifyLinkToken (mkVerifyLinkToken token None) l = (Returned (ok p), l') →
  started no_env (with_token token) l (served p defaultTaskServices) l'.
Proof.
  intros Ht Hv. split; [done|]. split; [done|]. unfold createOpzavaMcpServer. rewrite Ht. simpl.
  unfold mbind, M_bind. by rewrite Hv.
Qed.

Lemma same_inl {A B} (x : A + B) a b : x = inl a → x = inl b → a = b.
Proof. intros ->. by injection 1. Qed.

Lemma servers_act_for_their_token_witness :
  ∃ p l', started no_env (with_token token) issued (served p defaultTaskServices) l' ∧
  ∃ r, r ∈ lt_tokens issued ∧ lr_hash r = hashToken token ∧ lr_revoked r = None ∧
    ∃ cs, (call_tool (tools_of p) OpTasksCreate new_card nothing).2 = run_all cs nothing ∧
      Forall (λ c, tc_orgId <$> command_context c = Some (lr_org r)) cs.
Proof.
  assert (answered (verifyLinkToken (mkVerifyLinkToken token None) issued) = true) as Hok by (vm_compute; reflexivity).
  destruct (answered_run _ Hok) as (p & l' & Hrun).
  assert (readLinkToken no_env (with_token token) = inl token) as Ht by (vm_compute; reflexivity).
  pose proof (started_intro token issued p l' Ht Hrun) as Hst. exists p, l'. split; [exact Hst|].
  destruct (servers_act_for_their_token no_env (with_token token) issued _ l' OpTasksCreate new_card nothing issued_readable Hst)
    as (tok & r & Htok & Hr & Hh & Hrev & _ & _ & _ & cs & Hs & Hc).
  exists r. split; [exact Hr|]. split; [rewrite (same_inl _ _ _ Ht Htok); exact Hh|]. split; [exact Hrev|].
  exists cs. split; [exact Hs|]. eapply Forall_impl; [exact Hc|]. intros c Heq. rewrite Heq. reflexivity.
Defined.

(** A token that may only read. *)
Definition read_link : IssueLinkTokenInput :=
  mkIssueLinkToken org home "user-ada" "session-1" ["tasks:read"] (NInt 300) None (Some 0%Z).
Definition read_issued : link_tables := (issueLinkToken read_link joined).2.
Definition read_token : string :=
  match (issueLinkToken read_link joined).1 with Returned (ok i) => il_token i | _ => "" end.

Lemma read_tokens_change_nothing_witness :
  ∃ p l', started no_env (with_token read_token) read_issued (served p defaultTaskServices) l' ∧
    lp_scopes p = ["tasks:read"] ∧ run_calls (tools_of p) session TaskExample.prepared = TaskExample.prepared.
Proof.
  assert (answered (verifyLinkToken (mkVerifyLinkToken read_token None) read_issued) = true) as Hok by (vm_compute; reflexivity).
  assert (match (verifyLinkToken (mkVerifyLinkToken read_token None) read_issued).1 with Returned (ok p) => lp_scopes p | _ => [] end
          = ["tasks:read"]) as Hscopes by (vm_compute; reflexivity).
  destruct (answered_run _ Hok) as (p & l' & Hrun). rewrite Hrun in Hscopes. simpl in Hscopes.
  assert (readLinkToken no_env (with_token read_token) = inl read_token) as Ht by (vm_compute; reflexivity).
  pose proof (started_intro read_token read_issued p l' Ht Hrun) as Hst. exists p, l'. split; [exact Hst|]. split; [exact Hscopes|].
  apply (read_tokens_change_nothing no_env (with_token read_token) read_issued _ l' session TaskExample.prepared Hst).
  simpl. rewrite Hscopes. intros [Heq|Hnil]%elem_of_cons; [discriminate Heq|by apply elem_of_nil in Hnil].
Defined.

(** A server verifies its token when it starts, and never again: after the token has
    been revoked a new server cannot start, and the running one still creates cards. *)
Example sessions_outlive_revocation :
  ∃ p l', started no_env (with_token token) issued (served p defaultTaskServices) l' ∧
  let l2 := (revokeLinkToken revoke l').2 in
  (verifyLinkToken (mkVerifyLinkToken token None) l2).1 = Returned (err linkTokenRevoked) ∧
  length (tb_tasks (call_tool (tools_of p) OpTasksCreate new_card nothing).2) = 1.
Proof.
  set (run := verifyLinkToken (mkVerifyLinkToken token None) issued).
  assert (answered run = true) as Hok by (vm_compute; reflexivity).
  assert (match run.1 with Returned (ok p) =>
            bool_decide (length (tb_tasks (call_tool (tools_of p) OpTasksCreate new_card nothing).2) = 1) | _ => false end = true) as Hcard
    by (vm_compute; reflexivity).
  assert ((verifyLinkToken (mkVerifyLinkToken token None) (revokeLinkToken revoke run.2).2).1 = Returned (err linkTokenRevoked)) as Hrev
    by (vm_compute; reflexivity).
  destruct (answered_run _ Hok) as (p & l' & Hrun). rewrite Hrun in Hcard, Hrev. exists p, l'.
  split; [apply started_intro; [vm_compute; reflexivity|exact Hrun]|]. split; [exact Hrev|].
  exact (bool_decide_eq_true_1 _ Hcard).
Qed.

(** *** Responses *)

Definition plain_response {S} (run : outcome (option ToolResponse) * S) : bool :=
  match run.1 with Returned (Some r) => negb (rs_isError r) && plain (rs_structured r) | _ => false end.
Lemma plain_response_run {S} (run : outcome (option ToolResponse) * S) : plain_response run = true →
  ∃ r, run = (Returned (Some r), run.2) ∧ plain (rs_structured r) = true.
Proof. destruct run as [[[r|]|e] s]; [|done..]. intros [_ Hp]%andb_true_iff. by exists r. Qed.

Definition first_cards : ListTasksArgs := mkListArgs (Some TsTodo) (Some 5%Z) no_fields.

Lemma responses_read_back_witness :
  ∃ r, call_tool (tools_of (client "user-ada")) OpTasksList first_cards TaskExample.prepared
         = (Returned (Some r), TaskExample.prepared) ∧ json_parse (rs_text r) = Some (rs_structured r).
Proof.
  set (run := call_tool (tools_of (client "user-ada")) OpTasksList first_cards TaskExample.prepared).
  assert (plain_response run = true) as Hok by (vm_compute; reflexivity).
  assert (run.2 = TaskExample.prepared) as Hs by (vm_compute; reflexivity).
  destruct (plain_response_run run Hok) as (r & Hrun & Hp). rewrite Hs in Hrun. exists r. split; [exact Hrun|].
  destruct (responses_read_back (client "user-ada") defaultTaskServices OpTasksList first_cards _ r _ Hrun) as [Hread _].
  apply Hread. right. exact Hp.
Defined.

(** *** Updates *)

(** A loaded card is assigned to a user. *)
Definition assigned_to (user : string) (run : outcome (Result TaskDto) * task_tables) : bool :=
  match run.1 with Returned (ok t) => bool_decide (td_assigneeUserId t = Some user) | _ => false end.
Lemma assigned_to_run user run : assigned_to user run = true →
  ∃ t s, run = (Returned (ok t), s) ∧ td_assigneeUserId t = Some user.
Proof. destruct run as [[[t|]|e] s]; [|done..]. intros Ht%bool_decide_eq_true_1. by exists t, s. Qed.

(** Ada has assigned herself a card; a client of Bob's gives it another title. *)
Definition adas_card : task_tables :=
  (run_command (CmdCreateTask (mkCreateTaskInput (taskContext (client "user-ada")) "Fix the login" None JUndefined JUndefined
     (Some "user-ada") None DueNone None None None None)) no_dependencies nothing).2.

Lemma cards_of_others_are_not_updated_witness :
  ∃ e, updateToolHandler (client "user-bob") defaultTaskServices retitle adas_card = errorResponse e adas_card.
Proof.
  assert (assigned_to "user-ada" (getTask (targetOf (client "user-bob") card_id) no_dependencies adas_card) = true) as Hok
    by (vm_compute; reflexivity).
  destruct (assigned_to_run _ _ Hok) as (t & s & Hrun & Ht).
  apply (cards_of_others_are_not_updated (client "user-bob") retitle adas_card t s "user-ada" Hrun Ht); discriminate.
Defined.

(** The tool loads the card; then Ada describes it; then the tool writes its title. *)
Definition loaded_card : option TaskDto :=
  match (getTask (targetOf (client "user-ada") card_id) no_dependencies adas_card).1 with Returned (ok t) => Some t | _ => None end.
Definition described : task_tables :=
  (run_command (CmdUpdateTask (mkUpdateTaskInput (taskContext (client "user-ada")) card_id "Fix the login" (Some "Since Monday.")
     (JStr "normal") (Some "user-ada") None)) no_dependencies adas_card).2.
Definition after_update (loaded : TaskDto) : outcome ToolResponse * task_tables :=
  update_loaded (client "user-ada") defaultTaskServices retitle loaded described.

Definition updated (run : outcome ToolResponse * task_tables) : bool :=
  match run.1 with Returned r => negb (rs_isError r) | _ => false end.
Lemma updated_run run : updated run = true → ∃ r, run = (Returned r, run.2) ∧ rs_isError r = false.
Proof. destruct run as [[r|e] s]; [|done]. intros Hr%negb_true_iff. by exists r. Qed.

Lemma updates_write_back_what_they_loaded_witness :
  (tr_description <$> tb_tasks described) = ["Since Monday."] ∧
  ∃ loaded, loaded_card = Some loaded ∧ td_description loaded = "" ∧
    ∃ me k w fields, ∀ x, x ∈ tb_tasks (after_update loaded).2 → is_task me k w x →
      written x = (pf_title fields, pf_description fields, pf_priority fields, pf_assigneeUserId fields, pf_labels fields).
Proof.
  split; [vm_compute; reflexivity|].
  assert (match loaded_card with Some t => updated (after_update t) && bool_decide (td_description t = "") | None => false end = true)
    as Hok by (vm_compute; reflexivity).
  destruct loaded_card as [t|] eqn:Hloaded; [|discriminate Hok]. apply andb_true_iff in Hok as [Hok Hd].
  exists t. split; [reflexivity|]. split; [exact (bool_decide_eq_true_1 _ Hd)|].
  destruct (updated_run _ Hok) as (r & Hrun & Herr).
  destruct (updates_write_back_what_they_loaded (client "user-ada") retitle t described r _ Hrun Herr)
    as (me & k & w & fields & _ & _ & _ & _ & Hx).
  exists me, k, w, fields. exact Hx.
Defined.
End McpExample.
